(* ===== verification/_CoqProject ===== *)
-Q . S2P
Prelude.v
JsString.v
JsMap.v
JsNumber.v
JsRound.v
JsFormat.v
Effects.v
Json.v
Header.v
Address.v
Difficulty.v
Vardiff.v
Node.v
JobManager.v
Sv2Types.v
Sv2Messages.v
Noise.v
Sv2Keys.v
B3Pow.v
PadCache.v
Numeric.v
Ipc.v
Ledger.v
LedgerProofs.v
PplnsProofs.v
ShareWriter.v
DaemonProofs.v
CreditProofs.v
DaemonExamples.v
ShareValidator.v
Passports.v
Sv2Channel.v
StratumClient.v
StratumServer.v
StratumRequests.v
StratumProofs.v
StratumExamples.v
Sv2Template.v
Sv2TemplateProofs.v
Sv2Server.v
Sv2Proofs.v
Sv2Wire.v
Sv2Examples.v
Sv2Jd.v
Sv2JdProofs.v
Sv2JdExamples.v
Translator.v
TranslatorProofs.v
TranslatorWork.v
TranslatorExamples.v
WebAccounts.v
WebProofs.v
WebExamples.v
Services.v
PoolPages.v
WebEvents.v
WebEventsProofs.v
WebEventsExamples.v
ExplorerLabels.v
ExplorerDaily.v
ExplorerDailyProofs.v
ExplorerCharts.v
ExplorerMempool.v
ExplorerMempoolProofs.v
ExplorerExamples.v
