(* ===== verification/Prelude.v ===== *)
(** * B3Chain mining pool and explorer: a verification development

    B3Chain is a fork of Bitcoin Core with the proof of work B3PoW-Scratch.  This library
    models its TypeScript mining pool ([src/contrib/testnet/pool/src], below [pool/src]) and the
    JavaScript services of its block explorer ([src/contrib/testnet/explorer/overlay], below
    [explorer]), and as much of the C++ node ([src/src]) as says what the pool has to produce.

    ** The program

    - The Stratum V1 service ([pool/src/stratum]) asks the node for block templates, builds jobs,
      hands them to miners, validates their shares, submits blocks and sends every share as an event to the daemon.
    - The pool daemon ([pool/src/pool]) writes shares to PostgreSQL, records and confirms blocks, credits
      the miners of the last N shares (PPLNS) and pays balances out once an hour.
    - The Stratum V2 services ([pool/src/sv2]) do what the V1 service does over an encrypted
      binary protocol, distribute templates, accept jobs that miners declare, and translate V1 miners to V2.
    - The web service ([pool/src/web]) has the accounts, shows the ledger and pushes events to browsers.
    - The explorer labels blocks, sums the chain up by days, follows the mempool and draws charts.

    ** How code becomes definitions

    Code units of strings and bytes are [list Z]; numbers are IEEE doubles ([jsnum], the standard
    library's [spec_float] with 53 bits) wherever rounding can be seen, and [Z] for bigints and for
    counters far below 2^53; [Map]s and objects are association lists in insertion order; shared mutable
    objects (jobs, scratchpads) live in a heap.  A function that can throw returns [res], one that also changes
    state is an [eff].  An [async] handler is cut at its awaits: the part after an await is a task of the
    state, and a step function over the events of the process runs handlers and tasks in any
    order.  A promise rejected with nobody to handle it ends the process, which the state records.
    SQL statements are functions on the rows of the tables they name, with the constraints the
    migrations declare.  Packages that are not in the repository are classes, with what the code relies
    on as laws: [Sha256], [Blake3], [P256], [NoiseCrypto], [Ed25519], [WebLibs].  Answers of the node, random
    bytes, files and times are arguments or events.

    ** Files

    - JavaScript: [Prelude] (results, readers, tactics, the hint database [pool]), [JsString],
      [JsMap], [JsNumber] (doubles), [JsRound] (rounding and its error), [JsFormat] (numbers as text),
      [Effects] (the state and error monad), [Json], [Numeric] (decimals of the database against doubles).
    - [Node]: transactions, scripts, merkle roots of the node.
    - [pool/src/lib]: [Header], [Address], [Difficulty], [B3Pow], [PadCache], [Passports], [Ipc]; with [config.ts] and [rpc.ts]: [Services].
    - [pool/src/stratum]: [Vardiff], [JobManager], [ShareValidator], [StratumClient], [StratumServer],
      with [StratumProofs] and [StratumExamples]; [main.ts] is in [Services].
    - [pool/src/pool]: [Ledger] (credits, blocks, payouts), [ShareWriter] (shares and the process), with
      [LedgerProofs], [PplnsProofs], [DaemonProofs], [CreditProofs], [DaemonExamples].
    - [pool/src/sv2/lib]: [Sv2Types], [Sv2Messages], [Noise], [Sv2Keys]; [mining]: [Sv2Channel], [Sv2Server], [Sv2Proofs], [Sv2Wire],
      [Sv2Examples]; [tp]: [Sv2Template], [Sv2TemplateProofs]; [jd]: [Sv2Jd], [Sv2JdProofs], [Sv2JdExamples]; [translator]: [Translator],
      [TranslatorProofs], [TranslatorWork], [TranslatorExamples].
    - [pool/src/web]: [WebAccounts], [WebProofs], [WebExamples] (accounts, sessions, settings), [WebEvents],
      [WebEventsProofs], [WebEventsExamples] ([socket.ts]), [PoolPages] (administration, public pages).
    - [explorer]: [ExplorerLabels], [ExplorerDaily], [ExplorerDailyProofs], [ExplorerCharts], [ExplorerMempool],
      [ExplorerMempoolProofs], [ExplorerExamples].

    ** What the theorems show

    - Work: the port of the proof of work computes the hash of the node on every header; a coinbase is a transaction
      the node reads, with the outputs and the height of the template; the merkle branches give the
      root the node computes; the header of a share is that of the template it was mined for; the validator accepts exactly the shares
      with enough work, and in every run of a V1 or V2 server an event for the daemon stands for work done on a job that was sent,
      once; a V1 miner behind the translator works on what the V2 pool checks.
    - Money: shares are written once each, in every run with failing batches; a block is credited
      once; credits add up to at most the reward up to the stated rounding; a payout settles what the
      ledger owes to the last unit; the pages that announce a payout agree with the job.
    - Protocols: every V2 message is read back as it was written, through frames and the encrypted
      transport; the two sides of a handshake end with the same keys; a template that a client solves is the block
      submitted; tokens of declared jobs are used once.
    - Accounts: a session belongs to somebody who showed the password and the second factor; an account
      is verified through its mail; links are used at most by their addressee; redirects stay on the site; slots are bound to one
      device and added by administrators only.
    - Explorer: the days sum up the chain; charts show them; the mempool page follows the node; labels read back what the pool wrote.
    - Errors: where the code fails (a request that ends a process, a check that is evaded, a payout
      that is sent twice), a theorem or a closed example shows the run.

    A theorem that needs a condition, such as that no save falls inside an ingestion, names it, and a witness applies
    it to a concrete run; most witnesses are in the files of examples.

    ** Bounds and fuel

    Loops of the code are structural recursions on their data, except: the parsers of JSON, frames, lines and scripts have the length
    of their input as fuel, and every round consumes a code unit or byte; the loops that cut data into segments or evict
    entries have the size of what they shrink; the levels of a merkle tree, which halve, have the length of the first; the
    digits and bytes of a number have its size; years since 1970 have the days divided by 365.  No theorem has fuel in its statement.  Amounts are below 2^52 units of 10^-8,
    45 million coins, where doubles are exact to the unit; times of blocks are 32-bit.

    ** Not modelled

    - Sockets, ports, signals, timers as such, logging, and the entry points that only start classes ([web/main.ts], [sv2/tp/main.ts],
      [sv2/translator/main.ts], parts of the others): input and output.
    - Templates, style sheets and the browser scripts of the pool's pages ([pool/public/js]), formatting and
      colours of the explorer's pages: the document and the locale of a browser decide what is seen.
    - Pages and metrics that show rows of the database without a decision ([routes/metrics.ts], most of [routes/public.ts], the reading routes
      of [routes/dashboard.ts]).
    - [lib/logger.ts], [lib/explorer.ts], [lib/blake3.ts], [cli] except for the recomputation of a block: calls of packages and of modelled functions.
    - The packages themselves, PostgreSQL beyond the statements used, and the node beyond the functions
      in [Node], [B3Pow] and [Difficulty]; the miners in Rust and hardware, and the translations of the desktop wallet, whose
      files also end in [.ts]. *)

From stdpp Require Export base tactics list numbers option strings.
From Stdlib Require Export ZArith Lia Btauto.

#[global] Open Scope Z_scope.
#[global] Open Scope list_scope.

(** ** Results of fallible code

    A TypeScript function that can [throw] returns a [res]; the string is the
    constant part of the message given to [new Error]. *)
Inductive res (A : Type) : Type :=
  | Ok (a : A)
  | Throw (e : string).
Arguments Ok {A} a.
Arguments Throw {A} e.

#[global] Instance res_ret : MRet res := @Ok.
#[global] Instance res_bind : MBind res := fun A B f m =>
  match m with Ok a => f a | Throw e => Throw e end.

Lemma res_bind_ext {A B} (m : res A) (f g : A -> res B) : (forall a, f a = g a) -> m ≫= f = m ≫= g.
Proof. intros Hf. destruct m; [apply Hf|done]. Qed.

(** [throw_if b e]: the statement [if (b) throw new Error(e);]. *)
Definition throw_if (b : bool) (e : string) : res unit :=
  if b then Throw e else Ok tt.

Fixpoint res_map {A B} (f : A -> res B) (l : list A) : res (list B) :=
  match l with
  | [] => Ok []
  | x :: l => y ← f x; ys ← res_map f l; Ok (y :: ys)
  end.

Fixpoint res_foldl {A B} (f : B -> A -> res B) (b : B) (l : list A) : res B :=
  match l with
  | [] => Ok b
  | x :: l => b ← f b x; res_foldl f b l
  end.

Definition is_ok {A} (r : res A) : bool :=
  match r with Ok _ => true | Throw _ => false end.

(** ** Readers

    Code that consumes a buffer from the front: the value read and what is left. *)
Definition reader (A : Type) : Type := list Z -> res (A * list Z).

Definition rd_ret {A} (a : A) : reader A := fun s => Ok (a, s).
Definition rd_bind {A B} (r : reader A) (f : A -> reader B) : reader B :=
  fun s => match r s with Ok (a, s) => f a s | Throw e => Throw e end.
Notation "'let_rd' x := r 'in' k" := (rd_bind r (fun x => k))
  (at level 10, x name, r at level 100, k at level 200).

Lemma rd_bind_ok {A B} (r : reader A) (f : A -> reader B) s a s' :
  r s = Ok (a, s') -> rd_bind r f s = f a s'.
Proof. intros E. unfold rd_bind. by rewrite E. Qed.

Fixpoint rd_times {A} (n : nat) (r : reader A) : reader (list A) :=
  match n with
  | O => rd_ret []
  | S n => let_rd a := r in let_rd l := rd_times n r in rd_ret (a :: l)
  end.

(** ** Integers of a fixed width

    [x >>> 0], [x | 0] and the shifts of JavaScript on integral numbers. *)
Definition to_u32 (z : Z) : Z := z mod 2 ^ 32.
Definition to_i32 (z : Z) : Z :=
  let u := z mod 2 ^ 32 in if u <? 2 ^ 31 then u else u - 2 ^ 32.

(** [v] is an unsigned integer of [w] bits. *)
Definition uint (w v : Z) : Prop := 0 <= v < 2 ^ w.

Definition js_and (a b : Z) : Z := Z.land (to_i32 a) (to_i32 b).
Definition js_or (a b : Z) : Z := Z.lor (to_i32 a) (to_i32 b).
Definition js_xor (a b : Z) : Z := Z.lxor (to_i32 a) (to_i32 b).
Definition js_shl (a n : Z) : Z := to_i32 (Z.shiftl (to_i32 a) (n mod 32)).
Definition js_shr (a n : Z) : Z := Z.shiftr (to_i32 a) (n mod 32).
Definition js_ushr (a n : Z) : Z := Z.shiftr (to_u32 a) (n mod 32).

(** ** Byte buffers

    A [Uint8Array] is a list of integers in [0, 256). *)
Abbreviation bytes := (list Z).

Definition is_byte (b : Z) : Prop := 0 <= b < 256.
Definition bytes_ok (l : bytes) : Prop := Forall is_byte l.

Definition zlen {A} (l : list A) : Z := Z.of_nat (length l).
(** A buffer of [n] bytes. *)
Definition sized (n : Z) (b : bytes) : Prop := bytes_ok b /\ zlen b = n.

(** [b.slice(i, j)] and [b.subarray(i, j)], both ends inside the buffer. *)
Definition slice {A} (i j : Z) (l : list A) : list A :=
  take (Z.to_nat (j - i)) (drop (Z.to_nat i) l).

(** [new Uint8Array(n)]. *)
Definition zeros (n : Z) : bytes := replicate (Z.to_nat n) 0.

(** [dst.set(src, off)]: a [RangeError] when [src] does not fit. *)
Definition ta_set (dst src : bytes) (off : Z) : res bytes :=
  if off + zlen src <=? zlen dst then
    Ok (take (Z.to_nat off) dst ++ src ++ drop (Z.to_nat off + length src) dst)
  else Throw "offset is out of bounds".

(** [b[i]] on an index that may be out of range, [undefined] read as 0 by
    the integer operations that follow. *)
Definition at0 (l : list Z) (i : Z) : Z :=
  default 0 (l !! Z.to_nat i).

(** Little-endian integers, as [DataView] reads and writes them. *)
Fixpoint le_bytes (n : nat) (v : Z) : bytes :=
  match n with
  | O => []
  | S n => v mod 256 :: le_bytes n (v / 256)
  end.

Fixpoint le_val (l : bytes) : Z :=
  match l with
  | [] => 0
  | b :: l => b + 256 * le_val l
  end.

(** [concatBytes(...arrs)]-style concatenation of a list of buffers. *)
Definition bconcat (l : list bytes) : bytes := mjoin l.

(** ** Automation

    [pool] resolves side conditions about lengths and byte ranges; [pool_simp]
    rewrites the results of the monad and of the buffer operations. *)
Create HintDb pool.
Create Rewrite HintDb pool_simp.

Ltac zarith := unfold zlen, is_byte in *; try lia.
Ltac pool_simpl :=
  cbn [mbind res_bind mret res_ret throw_if is_ok] in *.
(** Invert a monadic run that is known to have succeeded. *)
Ltac inv_ok :=
  repeat match goal with
  | H : Throw _ = Ok _ |- _ => discriminate H
  | H : Ok _ = Ok _ |- _ => injection H as H; subst
  | H : mbind _ ?m = Ok _ |- _ =>
      let E := fresh "E" in destruct m eqn:E; pool_simpl; try discriminate H
  end.

(** ** Results *)
Lemma res_map_Ok {A B} (f : A -> res B) (g : A -> B) l :
  (forall x, x ∈ l -> f x = Ok (g x)) -> res_map f l = Ok (g <$> l).
Proof.
  induction l as [|x l IH]; intros Hf; [done|].
  cbn [res_map]. rewrite (Hf x) by (left; done). pool_simpl.
  rewrite IH by (intros y Hy; apply Hf; by right). done.
Qed.

Lemma res_map_length {A B} (f : A -> res B) l l' :
  res_map f l = Ok l' -> length l' = length l.
Proof.
  revert l'; induction l as [|x l IH]; intros l' H; cbn [res_map] in H; inv_ok; [done|].
  cbn. f_equal. by apply IH.
Qed.

Lemma option_mapM_app {A B} (f : A -> option B) l k :
  mapM f (l ++ k) = (x ← mapM f l; y ← mapM f k; Some (x ++ y)).
Proof.
  induction l as [|a l IH]; cbn; [by destruct (mapM f k)|].
  destruct (f a); cbn; [|done]. rewrite IH.
  destruct (mapM f l); cbn; [|done]. by destruct (mapM f k).
Qed.

(** ** Integers *)
Lemma to_u32_range z : 0 <= to_u32 z < 2 ^ 32.
Proof. unfold to_u32. apply Z.mod_pos_bound. lia. Qed.

Lemma to_u32_id z : 0 <= z < 2 ^ 32 -> to_u32 z = z.
Proof. intros. by apply Z.mod_small. Qed.

Lemma to_u32_idemp z : to_u32 (to_u32 z) = to_u32 z.
Proof. apply to_u32_id, to_u32_range. Qed.

Lemma to_u32_add z k : to_u32 (z + k * 2 ^ 32) = to_u32 z.
Proof. unfold to_u32. by rewrite Z.mod_add by lia. Qed.

Lemma to_i32_id z : - 2 ^ 31 <= z < 2 ^ 31 -> to_i32 z = z.
Proof.
  intros Hz. unfold to_i32. destruct (decide (0 <= z)).
  - rewrite Z.mod_small by lia. destruct (Z.ltb_spec z (2 ^ 31)); lia.
  - replace (z mod 2 ^ 32) with (z + 2 ^ 32).
    2: { apply Z.mod_unique_pos with (q := -1); lia. }
    destruct (Z.ltb_spec (z + 2 ^ 32) (2 ^ 31)); lia.
Qed.

Lemma to_i32_u32 z : to_u32 (to_i32 z) = to_u32 z.
Proof.
  unfold to_i32, to_u32. destruct (Z.ltb_spec (z mod 2 ^ 32) (2 ^ 31)).
  - apply Z.mod_mod. lia.
  - replace (z mod 2 ^ 32 - 2 ^ 32) with (z mod 2 ^ 32 + -1 * 2 ^ 32) by lia.
    rewrite Z.mod_add by lia. apply Z.mod_mod. lia.
Qed.

Lemma land_ones_small a n : 0 <= n -> 0 <= a < 2 ^ n -> Z.land a (Z.ones n) = a.
Proof. intros. rewrite Z.land_ones by lia. by apply Z.mod_small. Qed.

(** On operands that fit, the 32-bit operators are the ones of [Z]. *)
Lemma js_and_id a b : 0 <= a < 2 ^ 31 -> 0 <= b < 2 ^ 31 -> js_and a b = Z.land a b.
Proof. intros. unfold js_and. by rewrite !to_i32_id by lia. Qed.
Lemma js_or_id a b : 0 <= a < 2 ^ 31 -> 0 <= b < 2 ^ 31 -> js_or a b = Z.lor a b.
Proof. intros. unfold js_or. by rewrite !to_i32_id by lia. Qed.
Lemma js_xor_id a b : 0 <= a < 2 ^ 31 -> 0 <= b < 2 ^ 31 -> js_xor a b = Z.lxor a b.
Proof. intros. unfold js_xor. by rewrite !to_i32_id by lia. Qed.
Lemma js_shr_id a n : 0 <= a < 2 ^ 31 -> 0 <= n < 32 -> js_shr a n = a / 2 ^ n.
Proof.
  intros. unfold js_shr. rewrite to_i32_id, (Z.mod_small n) by lia. apply Z.shiftr_div_pow2. lia.
Qed.
Lemma js_shl_id a n :
  0 <= a < 2 ^ 31 -> 0 <= n < 32 -> a * 2 ^ n < 2 ^ 31 -> js_shl a n = a * 2 ^ n.
Proof.
  intros. unfold js_shl. rewrite (to_i32_id a), (Z.mod_small n), Z.shiftl_mul_pow2 by lia.
  apply to_i32_id. nia.
Qed.

Lemma land_range a b n : 0 <= n -> 0 <= a < 2 ^ n -> 0 <= b -> 0 <= Z.land a b < 2 ^ n.
Proof.
  intros Hn Ha Hb. split; [apply Z.land_nonneg; lia|].
  destruct (decide (Z.land a b = 0)) as [->|Hne]; [lia|].
  assert (0 <= Z.land a b) by (apply Z.land_nonneg; lia).
  apply Z.log2_lt_pow2; [lia|]. eapply Z.le_lt_trans; [apply Z.log2_land; lia|].
  destruct (decide (a = 0)) as [->|]; [by rewrite Z.land_0_l in Hne|].
  assert (Z.log2 a < n) by (apply Z.log2_lt_pow2; lia). lia.
Qed.

Lemma lxor_range a b n : 0 <= n -> 0 <= a < 2 ^ n -> 0 <= b < 2 ^ n -> 0 <= Z.lxor a b < 2 ^ n.
Proof.
  intros Hn Ha Hb. assert (0 <= Z.lxor a b) by (apply Z.lxor_nonneg; lia). split; [done|].
  destruct (decide (Z.lxor a b = 0)) as [->|Hne]; [lia|].
  destruct (decide (a = 0)) as [->|]; [rewrite Z.lxor_0_l; lia|].
  destruct (decide (b = 0)) as [->|]; [rewrite Z.lxor_0_r; lia|].
  apply Z.log2_lt_pow2; [lia|]. eapply Z.le_lt_trans; [apply Z.log2_lxor; lia|].
  assert (Z.log2 a < n) by (apply Z.log2_lt_pow2; lia).
  assert (Z.log2 b < n) by (apply Z.log2_lt_pow2; lia). lia.
Qed.

(** A number below [2^n] and a multiple of [2^n] do not overlap. *)
Lemma lor_add_disjoint a b n : 0 <= n -> 0 <= b < 2 ^ n -> Z.lor (a * 2 ^ n) b = a * 2 ^ n + b.
Proof.
  intros Hn Hb. destruct (decide (b = 0)) as [->|]; [rewrite Z.lor_0_r; lia|].
  rewrite <- Z.shiftl_mul_pow2 by lia. symmetry. rewrite <- Z.lxor_lor, <- Z.add_nocarry_lxor; try done.
  all: apply Z.bits_inj'; intros i Hi; rewrite Z.land_spec, Z.bits_0, Z.shiftl_spec by lia.
  all: destruct (decide (i < n)); [by rewrite Z.testbit_neg_r by lia|].
  all: rewrite (Z.bits_above_log2 b i), andb_false_r; try done; try lia.
  all: assert (Z.log2 b < n) by (apply Z.log2_lt_pow2; lia); lia.
Qed.

(** ** Lengths and slices *)
Lemma zlen_nonneg {A} (l : list A) : 0 <= zlen l.
Proof. unfold zlen. lia. Qed.
Lemma zlen_nil {A} : zlen (@nil A) = 0.
Proof. done. Qed.
Lemma zlen_cons {A} (x : A) l : zlen (x :: l) = 1 + zlen l.
Proof. unfold zlen. cbn [length]. lia. Qed.
Lemma zlen_app {A} (l k : list A) : zlen (l ++ k) = zlen l + zlen k.
Proof. unfold zlen. rewrite length_app. lia. Qed.
Lemma zlen_zeros n : 0 <= n -> zlen (zeros n) = n.
Proof. intros. unfold zlen, zeros. rewrite length_replicate. lia. Qed.
Lemma zlen_fmap {A B} (f : A -> B) l : zlen (f <$> l) = zlen l.
Proof. unfold zlen. by rewrite length_fmap. Qed.
Lemma zlen_reverse {A} (l : list A) : zlen (reverse l) = zlen l.
Proof. unfold zlen. by rewrite length_reverse. Qed.
#[export] Hint Rewrite @zlen_nil @zlen_cons @zlen_app @zlen_fmap @zlen_reverse : pool_simp.
#[export] Hint Rewrite zlen_zeros using lia : pool_simp.
#[export] Hint Resolve zlen_nonneg : pool.

Lemma slice_app_l {A} (l k : list A) n : n = zlen l -> slice 0 n (l ++ k) = l.
Proof.
  intros ->. unfold slice, zlen.
  by rewrite Z.sub_0_r, Nat2Z.id, drop_0, take_app_length.
Qed.

Lemma slice_app_mid {A} (p l k : list A) i j :
  i = zlen p -> j = zlen p + zlen l -> slice i j (p ++ l ++ k) = l.
Proof.
  intros -> ->. unfold slice, zlen.
  replace (Z.to_nat (Z.of_nat (length p) + Z.of_nat (length l) - Z.of_nat (length p)))
    with (length l) by lia.
  by rewrite Nat2Z.id, drop_app_length, take_app_length.
Qed.

Lemma slice_length {A} (l : list A) i j :
  0 <= i -> i <= j -> j <= zlen l -> zlen (slice i j l) = j - i.
Proof. intros. unfold slice, zlen in *. rewrite length_take, length_drop. lia. Qed.

Lemma drop_app_zlen {A} (l k : list A) n : n = zlen l -> drop (Z.to_nat n) (l ++ k) = k.
Proof. intros ->. unfold zlen. by rewrite Nat2Z.id, drop_app_length. Qed.

Lemma slice_0 {A} (l : list A) n : slice 0 n l = take (Z.to_nat n) l.
Proof. unfold slice. rewrite Z.sub_0_r. done. Qed.

Lemma at0_lt (l : list Z) i :
  0 <= i < zlen l -> l !! Z.to_nat i = Some (at0 l i).
Proof.
  intros Hi. unfold at0, zlen in *.
  destruct (lookup_lt_is_Some_2 l (Z.to_nat i)) as [x Hx]; [lia|]. by rewrite Hx.
Qed.

(** ** Byte buffers *)
Lemma bytes_ok_app l k : bytes_ok (l ++ k) <-> bytes_ok l /\ bytes_ok k.
Proof. apply Forall_app. Qed.
Lemma bytes_ok_nil : bytes_ok [].
Proof. constructor. Qed.
(** By evaluation, on concrete buffers. *)
Lemma bytes_ok_check l : forallb (fun b => (0 <=? b) && (b <? 256)) l = true -> bytes_ok l.
Proof.
  induction l as [|b l IH]; intros H; [constructor|].
  apply andb_true_iff in H as [Hb Hl]. constructor; [unfold is_byte; lia|exact (IH Hl)].
Qed.
Lemma bytes_ok_take n l : bytes_ok l -> bytes_ok (take n l).
Proof. apply Forall_take. Qed.
Lemma bytes_ok_drop n l : bytes_ok l -> bytes_ok (drop n l).
Proof. apply Forall_drop. Qed.
Lemma bytes_ok_slice i j l : bytes_ok l -> bytes_ok (slice i j l).
Proof. intros. by apply Forall_take, Forall_drop. Qed.
Lemma bytes_ok_reverse l : bytes_ok l -> bytes_ok (reverse l).
Proof. apply Forall_reverse. Qed.
Lemma bytes_ok_zeros n : bytes_ok (zeros n).
Proof. apply Forall_replicate. unfold is_byte. lia. Qed.
Lemma bytes_ok_at0 l i : bytes_ok l -> is_byte (at0 l i).
Proof.
  intros Hl. unfold at0. destruct (l !! Z.to_nat i) eqn:E; cbn; [|unfold is_byte; lia].
  eapply Forall_lookup in Hl; eauto.
Qed.
#[export] Hint Resolve bytes_ok_nil bytes_ok_take bytes_ok_drop bytes_ok_slice
  bytes_ok_reverse bytes_ok_zeros bytes_ok_at0 : pool.

Lemma ta_set_ok dst src off p m s :
  dst = p ++ m ++ s -> zlen p = off -> zlen m = zlen src ->
  ta_set dst src off = Ok (p ++ src ++ s).
Proof.
  intros -> Hp Hm. unfold ta_set. rewrite !zlen_app.
  pose proof (zlen_nonneg s).
  rewrite (proj2 (Z.leb_le _ _)) by lia. f_equal.
  assert (Z.to_nat off = length p) as -> by (unfold zlen in *; lia).
  rewrite take_app_length. f_equal. f_equal.
  rewrite drop_app_ge by lia.
  replace (length p + length src - length p)%nat with (length m) by (unfold zlen in *; lia).
  by rewrite drop_app_length.
Qed.

Lemma ta_set_length dst src off r : 0 <= off ->
  ta_set dst src off = Ok r -> zlen r = zlen dst.
Proof.
  unfold ta_set. intros Hoff. destruct (Z.leb_spec (off + zlen src) (zlen dst)); [|done].
  intros [= <-]. unfold zlen in *. rewrite !length_app, length_take, length_drop. lia.
Qed.

(** Filling a fresh buffer at offset 0. *)
Lemma ta_set_zeros n src :
  zlen src <= n -> ta_set (zeros n) src 0 = Ok (src ++ zeros (n - zlen src)).
Proof.
  intros Hn. pose proof (zlen_nonneg src).
  eapply (ta_set_ok _ _ _ [] (zeros (zlen src))); [|done|by rewrite zlen_zeros].
  unfold zeros. cbn. rewrite <- replicate_add. f_equal. lia.
Qed.

(** ** Little-endian integers *)
Lemma le_bytes_length n v : length (le_bytes n v) = n.
Proof. revert v; induction n; intros; cbn; auto. Qed.
Lemma le_bytes_zlen n v : zlen (le_bytes n v) = Z.of_nat n.
Proof. unfold zlen. by rewrite le_bytes_length. Qed.
Lemma le_bytes_ok n v : bytes_ok (le_bytes n v).
Proof.
  revert v; induction n; intros; constructor; [|by apply IHn].
  unfold is_byte. pose proof (Z.mod_pos_bound v 256). lia.
Qed.
#[export] Hint Resolve le_bytes_ok : pool.
#[export] Hint Rewrite le_bytes_length le_bytes_zlen : pool_simp.

Lemma le_val_bytes n v : le_val (le_bytes n v) = v mod 2 ^ (8 * Z.of_nat n).
Proof.
  revert v; induction n as [|n IH]; intros v; cbn [le_bytes le_val].
  - by rewrite Z.mod_1_r.
  - rewrite IH. replace (8 * Z.of_nat (S n)) with (8 + 8 * Z.of_nat n) by lia.
    rewrite Z.pow_add_r by lia. change (2 ^ 8) with 256.
    rewrite Z.rem_mul_r by lia. done.
Qed.

Lemma le_val_range l : bytes_ok l -> 0 <= le_val l < 2 ^ (8 * zlen l).
Proof.
  induction 1 as [|b l Hb Hl IH]; cbn [le_val].
  - change (zlen (@nil Z)) with 0. lia.
  - rewrite zlen_cons. pose proof (zlen_nonneg l).
    replace (8 * (1 + zlen l)) with (8 + 8 * zlen l) by lia.
    rewrite Z.pow_add_r by lia. change (2 ^ 8) with 256. unfold is_byte in Hb. lia.
Qed.

Lemma le_bytes_val l : bytes_ok l -> le_bytes (length l) (le_val l) = l.
Proof.
  induction 1 as [|b l Hb Hl IH]; [done|]. cbn [length le_bytes le_val]. unfold is_byte in Hb.
  rewrite (Z.mul_comm 256), Z.mod_add by lia. rewrite Z.mod_small by lia.
  rewrite Z.div_add by lia. rewrite Z.div_small by lia. by rewrite Z.add_0_l, IH.
Qed.

Lemma le_val_app l k : le_val (l ++ k) = le_val l + 2 ^ (8 * zlen l) * le_val k.
Proof.
  induction l as [|b l IH]; cbn [app le_val].
  - change (zlen (@nil Z)) with 0. lia.
  - rewrite IH, zlen_cons. pose proof (zlen_nonneg l).
    replace (8 * (1 + zlen l)) with (8 + 8 * zlen l) by lia.
    rewrite Z.pow_add_r by lia. change (2 ^ 8) with 256. lia.
Qed.

Lemma le_bytes_mod n v : le_bytes n (v mod 2 ^ (8 * Z.of_nat n)) = le_bytes n v.
Proof.
  rewrite <- le_val_bytes.
  rewrite <- (le_bytes_length n v) at 1. apply le_bytes_val, le_bytes_ok.
Qed.

Lemma le_bytes_inj n v w :
  0 <= v < 2 ^ (8 * Z.of_nat n) -> 0 <= w < 2 ^ (8 * Z.of_nat n) ->
  le_bytes n v = le_bytes n w -> v = w.
Proof.
  intros Hv Hw H. apply (f_equal le_val) in H. rewrite !le_val_bytes in H.
  by rewrite !Z.mod_small in H.
Qed.
