(* ===== verification/JsString.v ===== *)
(** * JavaScript strings

    A string is the list of its UTF-16 code units, so that [length], indexing
    and [slice] are the list operations.  This file has the string functions of
    the standard library that the pool calls: radix printing and [padStart],
    [parseInt] in base 16, [trim], case mapping, [indexOf]/[lastIndexOf] and the
    UTF-8 [TextEncoder]/[TextDecoder]. *)

From S2P Require Import Prelude.

Abbreviation jsstr := (list Z).

(** A string literal of the source (ASCII). *)
Fixpoint js (s : string) : jsstr :=
  match s with
  | EmptyString => []
  | String c s => Z.of_N (Ascii.N_of_ascii c) :: js s
  end.

(** ** Radix printing: [n.toString(b)], [s.padStart(n, c)] *)
Definition digit_char (d : Z) : Z := if d <? 10 then 48 + d else 87 + d.

Fixpoint digits_aux (fuel : nat) (b n : Z) (acc : jsstr) : jsstr :=
  match fuel with
  | O => acc
  | S fuel =>
      let acc := digit_char (n mod b) :: acc in
      if n / b =? 0 then acc else digits_aux fuel b (n / b) acc
  end.

(** The fuel is the bit length of [n], at least its number of digits. *)
Definition digits (b n : Z) : jsstr := digits_aux (S (Z.to_nat (Z.log2 n))) b n [].

Definition to_radix (b n : Z) : jsstr :=
  if n <? 0 then 45 :: digits b (- n) else digits b n.

Definition padStart (n : Z) (c : Z) (s : jsstr) : jsstr :=
  replicate (Z.to_nat (n - zlen s)) c ++ s.

(** ** [parseInt(s, 16)] *)
Definition is_space (c : Z) : bool :=
  bool_decide (c ∈ [9; 10; 11; 12; 13; 32; 160; 5760; 8232; 8233; 8239; 8287; 12288; 65279])
  || ((8192 <=? c) && (c <=? 8202)).

Definition hex_val (c : Z) : option Z :=
  if (48 <=? c) && (c <=? 57) then Some (c - 48)
  else if (97 <=? c) && (c <=? 102) then Some (c - 87)
  else if (65 <=? c) && (c <=? 70) then Some (c - 55)
  else None.

Fixpoint trimStart (s : jsstr) : jsstr :=
  match s with
  | c :: s' => if is_space c then trimStart s' else s
  | [] => []
  end.

Definition trim (s : jsstr) : jsstr := reverse (trimStart (reverse (trimStart s))).

(** The longest prefix of hexadecimal digits, as a number; [None] when empty. *)
Fixpoint hex_prefix (s : jsstr) (acc : option Z) : option Z :=
  match s with
  | c :: s =>
      match hex_val c with
      | Some d => hex_prefix s (Some (16 * default 0 acc + d))
      | None => acc
      end
  | [] => acc
  end.

Definition strip_0x (s : jsstr) : jsstr :=
  match s with
  | a :: b :: s' => if (a =? 48) && ((b =? 120) || (b =? 88)) then s' else s
  | _ => s
  end.

(** [None] is [NaN].  The value is exact; rounding it to a double is the
    caller's matter (see [num_of_Z]). *)
Definition parseIntHex (s : jsstr) : option Z :=
  let s := trimStart s in
  match s with
  | c :: s' =>
      if c =? 45 then Z.opp <$> hex_prefix (strip_0x s') None
      else if c =? 43 then hex_prefix (strip_0x s') None
      else hex_prefix (strip_0x s) None
  | [] => None
  end.

(** ** Case mapping

    ASCII letters, and the two code units above 127 whose lower case contains
    an ASCII letter: U+212A KELVIN SIGN and U+0130.  Other code units above 127
    are left alone: their case variants are not ASCII either, and the pool only
    compares the result with ASCII text. *)
Definition lower_unit (c : Z) : jsstr :=
  if (65 <=? c) && (c <=? 90) then [c + 32]
  else if c =? 8490 then [107]
  else if c =? 304 then [105; 775]
  else [c].
Definition upper_unit (c : Z) : Z :=
  if (97 <=? c) && (c <=? 122) then c - 32 else c.
Definition toLowerCase (s : jsstr) : jsstr := s ≫= lower_unit.
Definition toUpperCase (s : jsstr) : jsstr := upper_unit <$> s.

(** ** Searching *)
Fixpoint indexOf (c : Z) (s : jsstr) : Z :=
  match s with
  | [] => -1
  | d :: s => if d =? c then 0 else
      let i := indexOf c s in if i <? 0 then -1 else 1 + i
  end.

Fixpoint lastIndexOf (c : Z) (s : jsstr) : Z :=
  match s with
  | [] => -1
  | d :: s =>
      let i := lastIndexOf c s in
      if 0 <=? i then 1 + i else if d =? c then 0 else -1
  end.

Definition startsWith (p s : jsstr) : bool := bool_decide (take (length p) s = p).
Definition includes (c : Z) (s : jsstr) : bool := bool_decide (c ∈ s).

(** ** UTF-8

    [new TextEncoder().encode(s)]: surrogate pairs are combined, a lone
    surrogate becomes U+FFFD. *)
Definition is_hi (c : Z) : bool := (55296 <=? c) && (c <=? 56319).
Definition is_lo (c : Z) : bool := (56320 <=? c) && (c <=? 57343).

Fixpoint code_points (s : jsstr) : list Z :=
  match s with
  | [] => []
  | c :: s' =>
      if is_hi c then
        match s' with
        | d :: s'' =>
            if is_lo d then (65536 + (c - 55296) * 1024 + (d - 56320)) :: code_points s''
            else 65533 :: code_points s'
        | [] => [65533]
        end
      else if is_lo c then 65533 :: code_points s'
      else c :: code_points s'
  end.

Definition utf8_cp (c : Z) : bytes :=
  if c <? 128 then [c]
  else if c <? 2048 then [192 + c / 64; 128 + c mod 64]
  else if c <? 65536 then [224 + c / 4096; 128 + c / 64 mod 64; 128 + c mod 64]
  else [240 + c / 262144; 128 + c / 4096 mod 64; 128 + c / 64 mod 64; 128 + c mod 64].

Definition utf8_encode (s : jsstr) : bytes := code_points s ≫= utf8_cp.

Definition utf16_cp (c : Z) : jsstr :=
  if c <? 65536 then [c]
  else [55296 + (c - 65536) / 1024; 56320 + (c - 65536) mod 1024].

Definition is_cont (b : Z) : bool := (128 <=? b) && (b <? 192).

(** One scalar value, with the ranges of the WHATWG decoder (no overlong form,
    no surrogate, nothing above U+10FFFF). *)
Definition utf8_next (l : bytes) : option (Z * bytes) :=
  match l with
  | [] => None
  | b :: l =>
      if b <? 128 then Some (b, l)
      else if (194 <=? b) && (b <? 224) then
        match l with
        | c :: l => if is_cont c then Some ((b - 192) * 64 + (c - 128), l) else None
        | _ => None
        end
      else if (224 <=? b) && (b <? 240) then
        match l with
        | c :: d :: l =>
            let v := (b - 224) * 4096 + (c - 128) * 64 + (d - 128) in
            if is_cont c && is_cont d && (2048 <=? v) && negb ((55296 <=? v) && (v <=? 57343))
            then Some (v, l) else None
        | _ => None
        end
      else if (240 <=? b) && (b <? 245) then
        match l with
        | c :: d :: e :: l =>
            let v := (b - 240) * 262144 + (c - 128) * 4096 + (d - 128) * 64 + (e - 128) in
            if is_cont c && is_cont d && is_cont e && (65536 <=? v) && (v <=? 1114111)
            then Some (v, l) else None
        | _ => None
        end
      else None
  end.

Fixpoint utf8_loop (fuel : nat) (l : bytes) : option (list Z) :=
  match fuel, l with
  | _, [] => Some []
  | O, _ => None
  | S fuel, l => '(c, l') ← utf8_next l; (c ::.) <$> utf8_loop fuel l'
  end.

(** [new TextDecoder("utf-8", { fatal: true }).decode(b)]: a leading byte order
    mark is dropped, malformed input throws.  Every step consumes a byte, so
    the length of the input is enough fuel. *)
Definition utf8_decode (l : bytes) : res jsstr :=
  let l := if bool_decide (take 3 l = [239; 187; 191]) then drop 3 l else l in
  match utf8_loop (length l) l with
  | Some cps => Ok (cps ≫= utf16_cp)
  | None => Throw "The encoded data was not valid for encoding utf-8"
  end.

(** ** Lemmas: radix printing *)
Lemma hex_val_digit d : 0 <= d < 16 -> hex_val (digit_char d) = Some d.
Proof.
  intros. unfold digit_char, hex_val.
  repeat case_match; first [exfalso; lia | f_equal; lia].
Qed.

Lemma digits_aux_hex fuel n acc :
  0 <= n < 16 ^ Z.of_nat fuel ->
  hex_prefix (digits_aux fuel 16 n acc) (Some 0) = hex_prefix acc (Some n).
Proof.
  revert n acc; induction fuel as [|f IH]; intros n acc Hn.
  - assert (n = 0) as -> by (cbn in Hn; lia). done.
  - rewrite Nat2Z.inj_succ, Z.pow_succ_r in Hn by lia.
    pose proof hex_val_digit as Hd.
    pose proof (Z.mod_pos_bound n 16 ltac:(lia)).
    pose proof (Z.div_mod n 16 ltac:(lia)).
    cbn [digits_aux]. destruct (Z.eqb_spec (n / 16) 0) as [E|E].
    + cbn [hex_prefix]. rewrite Hd by lia. cbn [from_option id]. do 2 f_equal. lia.
    + rewrite IH by (split; [apply Z.div_pos; lia | apply Z.div_lt_upper_bound; lia]).
      cbn [hex_prefix]. rewrite Hd by lia. cbn [from_option id]. do 2 f_equal. lia.
Qed.

Definition is_hex_char (c : Z) : bool := ((48 <=? c) && (c <=? 57)) || ((97 <=? c) && (c <=? 102)).

Lemma digit_char_hex d : 0 <= d < 16 -> is_hex_char (digit_char d) = true.
Proof. intros. unfold is_hex_char, digit_char. case_match; lia. Qed.

Lemma digits_aux_chars fuel n acc :
  0 <= n -> Forall (fun c => is_hex_char c = true) acc ->
  Forall (fun c => is_hex_char c = true) (digits_aux fuel 16 n acc).
Proof.
  revert n acc; induction fuel as [|f IH]; intros n acc Hn Hacc; [done|].
  cbn [digits_aux]. pose proof (Z.mod_pos_bound n 16 ltac:(lia)).
  assert (Forall (fun c => is_hex_char c = true) (digit_char (n mod 16) :: acc))
    by (constructor; [by apply digit_char_hex|done]).
  case_match; [done|]. apply IH; [apply Z.div_pos; lia|done].
Qed.

Lemma digits_chars n : 0 <= n -> Forall (fun c => is_hex_char c = true) (digits 16 n).
Proof. intros. by apply digits_aux_chars. Qed.

Lemma digits_aux_nonempty fuel b n acc : digits_aux (S fuel) b n acc <> [].
Proof.
  revert n acc; induction fuel as [|f IH]; intros n acc; cbn [digits_aux].
  - case_match; done.
  - case_match; [done|]. apply IH.
Qed.

(** The number of digits written for a bounded number. *)
Lemma digits_aux_length fuel n acc k :
  0 <= n < 16 ^ Z.of_nat k -> (0 < k)%nat ->
  (length (digits_aux fuel 16 n acc) <= k + length acc)%nat.
Proof.
  revert n acc k; induction fuel as [|f IH]; intros n acc k Hn Hk; [cbn; lia|].
  cbn [digits_aux]. destruct (Z.eqb_spec (n / 16) 0) as [E|E]; [cbn; lia|].
  destruct k as [|k]; [lia|].
  rewrite Nat2Z.inj_succ, Z.pow_succ_r in Hn by lia.
  assert (0 < k)%nat.
  { destruct k; [|lia]. exfalso. apply E, Z.div_small. cbn in Hn. lia. }
  specialize (IH (n / 16) (digit_char (n mod 16) :: acc) k).
  cbn [length] in IH. etrans; [apply IH; [|done]|lia].
  split; [apply Z.div_pos; lia | apply Z.div_lt_upper_bound; lia].
Qed.

Lemma hex_prefix_None_0 c s d : hex_val c = Some d ->
  hex_prefix (c :: s) None = hex_prefix (c :: s) (Some 0).
Proof. intros H. cbn [hex_prefix]. by rewrite H. Qed.

Lemma hex_char_val c : is_hex_char c = true -> exists d, hex_val c = Some d.
Proof. unfold is_hex_char, hex_val. intros. repeat case_match; eauto. lia. Qed.

Lemma log2_fuel n : 0 <= n -> n < 16 ^ Z.of_nat (S (Z.to_nat (Z.log2 n))).
Proof.
  intros Hn. rewrite Nat2Z.inj_succ, Z2Nat.id by apply Z.log2_nonneg.
  destruct (decide (n = 0)) as [->|]; [cbn; lia|].
  pose proof (Z.log2_spec n ltac:(lia)). pose proof (Z.log2_nonneg n).
  eapply Z.lt_le_trans; [apply H|]. apply Z.pow_le_mono_l. lia.
Qed.

(** Leading zeros of a padded number do not change its value. *)
Lemma hex_prefix_zeros k s : hex_prefix (replicate k 48 ++ s) (Some 0) = hex_prefix s (Some 0).
Proof. induction k as [|k IH]; [done|]. exact IH. Qed.

Lemma hex_chars_not_special s :
  Forall (fun c => is_hex_char c = true) s -> s <> [] ->
  parseIntHex s = hex_prefix s (Some 0).
Proof.
  intros Hs Hne. destruct s as [|c s]; [done|].
  inversion Hs as [|? ? Hc Hs']; subst.
  destruct (hex_char_val _ Hc) as [d Hd].
  assert (is_space c = false) as Hsp.
  { unfold is_space, is_hex_char in *. rewrite bool_decide_false; [lia|].
    intros Hin. repeat (apply elem_of_cons in Hin as [->|Hin]; [done|]). by apply elem_of_nil in Hin. }
  unfold parseIntHex. cbn [trimStart]. rewrite Hsp.
  assert ((c =? 45) = false) as -> by (unfold is_hex_char in Hc; lia).
  assert ((c =? 43) = false) as -> by (unfold is_hex_char in Hc; lia).
  assert (strip_0x (c :: s) = c :: s) as ->.
  { unfold strip_0x. destruct s as [|b s]; [done|]. inversion Hs' as [|? ? Hb _]; subst.
    assert ((b =? 120) || (b =? 88) = false) as -> by (unfold is_hex_char in Hb; lia).
    by rewrite andb_false_r. }
  by eapply hex_prefix_None_0.
Qed.

Lemma padStart_chars n s :
  Forall (fun c => is_hex_char c = true) s -> Forall (fun c => is_hex_char c = true) (padStart n 48 s).
Proof. intros. apply Forall_app; split; [by apply Forall_replicate|done]. Qed.

(** [parseInt(n.toString(16).padStart(k, "0"), 16)] is [n]. *)
Lemma parseInt_hex_roundtrip k n : 0 <= n -> parseIntHex (padStart k 48 (to_radix 16 n)) = Some n.
Proof.
  intros Hn. unfold to_radix. rewrite (proj2 (Z.ltb_ge n 0)) by lia.
  rewrite hex_chars_not_special.
  - unfold padStart. rewrite hex_prefix_zeros. unfold digits.
    by rewrite digits_aux_hex by (split; [lia|by apply log2_fuel]).
  - by apply padStart_chars, digits_chars.
  - unfold padStart, digits. destruct (digits_aux _ _ _ _) eqn:E.
    + by apply digits_aux_nonempty in E.
    + by destruct (replicate _ _).
Qed.

(** A number below 16^k prints on exactly [k] characters once padded. *)
Lemma padStart_hex_length k n :
  0 <= n < 16 ^ k -> 0 < k -> zlen (padStart k 48 (to_radix 16 n)) = k.
Proof.
  intros Hn Hk. unfold to_radix. rewrite (proj2 (Z.ltb_ge n 0)) by lia.
  unfold padStart. rewrite zlen_app. unfold zlen at 1. rewrite length_replicate.
  assert (zlen (digits 16 n) <= k).
  { unfold zlen, digits.
    pose proof (digits_aux_length (S (Z.to_nat (Z.log2 n))) n [] (Z.to_nat k)) as H.
    rewrite Z2Nat.id in H by lia. specialize (H Hn). cbn [length] in H. lia. }
  pose proof (zlen_nonneg (digits 16 n)). lia.
Qed.

Lemma padStart_hex_inj k n m : 0 <= n -> 0 <= m ->
  padStart k 48 (to_radix 16 n) = padStart k 48 (to_radix 16 m) -> n = m.
Proof.
  intros Hn Hm H. apply (f_equal parseIntHex) in H.
  rewrite !parseInt_hex_roundtrip in H by lia. congruence.
Qed.

(** ** Lemmas: UTF-8 *)
(** Strings whose surrogates are all paired: what the encoder keeps. *)
Fixpoint wf16 (s : jsstr) : bool :=
  match s with
  | [] => true
  | c :: s' =>
      (0 <=? c) && (c <? 65536) &&
      (if is_hi c then
         match s' with
         | d :: s'' => is_lo d && wf16 s''
         | [] => false
         end
       else negb (is_lo c) && wf16 s')
  end.

Definition scalar (c : Z) : Prop := 0 <= c < 55296 \/ 57344 <= c < 1114112.

Lemma code_points_wf n s : (length s <= n)%nat -> wf16 s = true ->
  (code_points s ≫= utf16_cp) = s /\ Forall scalar (code_points s).
Proof.
  revert s; induction n as [|n IH]; intros [|c s] Hlen Hwf; cbn [length] in Hlen;
    try (split; [done|constructor]); try lia.
  cbn [wf16] in Hwf. cbn [code_points]. unfold is_hi, is_lo in *.
  destruct ((55296 <=? c) && (c <=? 56319)) eqn:Hhi.
  - destruct s as [|d s]; [lia|]. cbn [length] in Hlen.
    rewrite !andb_true_iff in Hwf. destruct_and!.
    destruct ((56320 <=? d) && (d <=? 57343)) eqn:Hlo; [|lia].
    destruct (IH s) as [IH1 IH2]; [lia|done|].
    rewrite bind_cons, IH1. split; [|constructor; [right; lia|done]].
    unfold utf16_cp. case_match; [lia|]. cbn [app].
    replace (65536 + (c - 55296) * 1024 + (d - 56320) - 65536)
      with ((d - 56320) + (c - 55296) * 1024) by lia.
    rewrite Z.div_add, Z.mod_add, Z.div_small, Z.mod_small by lia.
    repeat f_equal; lia.
  - destruct ((56320 <=? c) && (c <=? 57343)) eqn:Hlo; [lia|].
    rewrite !andb_true_iff in Hwf. destruct_and!.
    destruct (IH s) as [IH1 IH2]; [lia|done|].
    rewrite bind_cons, IH1. split; [|constructor; [unfold scalar; lia|done]].
    unfold utf16_cp. case_match; [done|lia].
Qed.

#[local] Ltac Zify.zify_post_hook ::= Z.div_mod_to_equations.

Lemma utf8_next_cp c l : scalar c -> utf8_next (utf8_cp c ++ l) = Some (c, l).
Proof.
  intros Hc. unfold scalar in Hc. unfold utf8_cp.
  destruct (Z.ltb_spec c 128); [|destruct (Z.ltb_spec c 2048);
    [|destruct (Z.ltb_spec c 65536)]]; cbn [app utf8_next]; unfold is_cont;
    repeat case_match; try (exfalso; lia); f_equal; f_equal; lia.
Qed.

Lemma utf8_cp_nonempty c : (0 < length (utf8_cp c))%nat.
Proof. unfold utf8_cp. repeat case_match; cbn; lia. Qed.

Lemma utf8_loop_cps cps fuel : Forall scalar cps ->
  (length (cps ≫= utf8_cp) <= fuel)%nat -> utf8_loop fuel (cps ≫= utf8_cp) = Some cps.
Proof.
  intros Hs; revert fuel; induction Hs as [|c cps Hc Hs IH]; intros fuel Hf.
  - by destruct fuel.
  - rewrite bind_cons in *. rewrite length_app in Hf.
    pose proof (utf8_cp_nonempty c). pose proof (utf8_next_cp c (cps ≫= utf8_cp) Hc) as Hn.
    destruct fuel as [|fuel]; [lia|].
    destruct (utf8_cp c ++ (cps ≫= utf8_cp)) as [|b l] eqn:E; [done|].
    cbn [utf8_loop]. rewrite Hn. cbn. rewrite IH by lia. done.
Qed.

(** Encoding then decoding a string gives it back, unless it starts with a
    byte order mark, which the decoder drops. *)
Lemma utf8_roundtrip s : wf16 s = true -> head s <> Some 65279 ->
  utf8_decode (utf8_encode s) = Ok s.
Proof.
  intros Hwf Hbom. destruct (code_points_wf (length s) s) as [H1 H2]; [done|done|].
  unfold utf8_decode, utf8_encode. rewrite bool_decide_false.
  - by rewrite utf8_loop_cps, H1.
  - intros E. apply Hbom. destruct (code_points s) as [|c cps] eqn:Ec.
    { cbn in E. done. }
    inversion H2 as [|? ? Hc _]; subst. rewrite bind_cons in E.
    pose proof (utf8_next_cp c (cps ≫= utf8_cp) Hc) as Hn.
    destruct (utf8_cp c ++ (cps ≫= utf8_cp)) as [|b0 [|b1 [|b2 l]]]; try done.
    cbn in E. injection E as -> -> ->. cbn in Hn. by injection Hn as <- _.
Qed.

#[local] Ltac Zify.zify_post_hook ::= idtac.

Lemma utf8_cp_bytes c : scalar c -> bytes_ok (utf8_cp c).
Proof.
  unfold scalar, utf8_cp. intros.
  repeat case_match; repeat constructor; unfold is_byte in *; Z.div_mod_to_equations; lia.
Qed.

Lemma utf8_encode_bytes s : wf16 s = true -> bytes_ok (utf8_encode s).
Proof.
  intros Hwf. destruct (code_points_wf (length s) s) as [_ H]; [done|done|].
  unfold utf8_encode. induction H as [|c cps Hc _ IH]; [constructor|].
  rewrite bind_cons. apply bytes_ok_app. by split; [apply utf8_cp_bytes|].
Qed.

(** ** Lines *)
Lemma indexOf_none c s : c ∉ s -> indexOf c s = -1.
Proof.
  induction s as [|d s IH]; cbn [indexOf]; [done|]. rewrite not_elem_of_cons. intros [Hd Hs].
  rewrite IH by done. by destruct (Z.eqb_spec d c).
Qed.

Lemma indexOf_app c l r : c ∉ l -> indexOf c (l ++ c :: r) = zlen l.
Proof.
  induction l as [|d l IH]; cbn [indexOf app]; [by rewrite Z.eqb_refl|]. rewrite not_elem_of_cons. intros [Hd Hl].
  rewrite IH by done. destruct (Z.eqb_spec d c); [by subst|]. unfold zlen. cbn [length].
  destruct (Z.ltb_spec (Z.of_nat (length l)) 0); lia.
Qed.

(** The first line, if there is one. *)
Lemma first_line (c : Z) s : (c ∉ s) \/ exists l r, s = l ++ c :: r /\ (c ∉ l).
Proof.
  induction s as [|d s IH]; [left; apply not_elem_of_nil|]. destruct (decide (d = c)) as [->|Hd].
  { right. exists [], s. split; [done|apply not_elem_of_nil]. }
  destruct IH as [IH|(l & r & -> & Hl)]; [left|right].
  - by rewrite not_elem_of_cons.
  - exists (d :: l), r. by rewrite not_elem_of_cons.
Qed.

(** Every text is a sequence of lines and the start of one more. *)
Lemma text_lines (s : jsstr) : exists ls rest, s = concat (map (fun l => l ++ [10]) ls) ++ rest /\ Forall (fun l => 10 ∉ l) ls /\ (10 ∉ rest) /\
  (length ls <= length s)%nat.
Proof.
  remember (length s) as n eqn:En. revert s En. induction (lt_wf n) as [n _ IH]. intros s ->.
  destruct (first_line 10 s) as [Hs|(l & r & -> & Hl)]; [exists [], s; repeat split; [constructor|done|cbn; lia]|].
  destruct (IH (length r)) with (s := r) as (ls & rest & -> & Hls & Hr & Hn); [rewrite length_app; cbn; lia|done|].
  exists (l :: ls), rest. cbn [map concat]. rewrite <- !app_assoc. split; [done|]. split; [by constructor|]. split; [done|].
  rewrite !length_app in *. cbn [length app]. rewrite length_app. lia.
Qed.
