(* ===== verification/JsMap.v ===== *)
(** * JavaScript [Map] and [Set]

    A [Map] iterates in insertion order, and [keys().next()] is its oldest entry:
    the model is the list of its entries in that order.  Setting an existing key
    keeps its place; deleting and setting it again moves it to the end. *)

From S2P Require Import Prelude.

Section JsMap.
Context {K A : Type} `{EqDecision K}.
Implicit Types m : list (K * A).

(** [Map.set]: an existing key keeps its place. *)
Fixpoint map_set (k : K) (v : A) (m : list (K * A)) : list (K * A) :=
  match m with
  | [] => [(k, v)]
  | (k', v') :: m => if bool_decide (k' = k) then (k, v) :: m else (k', v') :: map_set k v m
  end.

Fixpoint map_get (k : K) (m : list (K * A)) : option A :=
  match m with
  | [] => None
  | (k', v) :: m => if bool_decide (k' = k) then Some v else map_get k m
  end.

Definition map_has (k : K) (m : list (K * A)) : bool := bool_decide (is_Some (map_get k m)).

Fixpoint map_delete (k : K) (m : list (K * A)) : list (K * A) :=
  match m with
  | [] => []
  | (k', v) :: m => if bool_decide (k' = k) then m else (k', v) :: map_delete k m
  end.

Lemma map_set_fresh k (v : A) m : k ∉ m.*1 -> map_set k v m = m ++ [(k, v)].
Proof.
  induction m as [|[k' v'] m IH]; intros Hk; [done|]. cbn in *. rewrite not_elem_of_cons in Hk.
  rewrite bool_decide_false by (intros ->; tauto). f_equal. apply IH. tauto.
Qed.

Lemma map_set_keys k (v : A) m : k ∈ m.*1 -> (map_set k v m).*1 = m.*1.
Proof.
  induction m as [|[k' v'] m IH]; intros Hk; [by apply elem_of_nil in Hk|]. cbn in *.
  case_bool_decide as Hd; [by subst|]. cbn. f_equal. apply IH. apply elem_of_cons in Hk as [->|]; done.
Qed.

Lemma map_set_elem k (v : A) m x : x ∈ map_set k v m -> x = (k, v) \/ x ∈ m.
Proof.
  induction m as [|[k' v'] m IH]; cbn; [intros ->%list_elem_of_singleton; auto|].
  case_bool_decide; rewrite !elem_of_cons; tauto.
Qed.

Lemma map_set_in k (v : A) m : (k, v) ∈ map_set k v m.
Proof. induction m as [|[k' v'] m IH]; cbn; [left|]. case_bool_decide; [left|by right]. Qed.

Lemma map_get_in k (v : A) m : NoDup m.*1 -> (k, v) ∈ m -> map_get k m = Some v.
Proof.
  induction m as [|[k' v'] m IH]; intros Hnd Hin; [by apply elem_of_nil in Hin|].
  cbn in *. apply NoDup_cons in Hnd as [Hn Hnd]. apply elem_of_cons in Hin as [[= <- <-]|Hin].
  - by rewrite bool_decide_true.
  - rewrite bool_decide_false; [auto|]. intros ->. apply Hn, list_elem_of_fmap. by exists (k, v).
Qed.

Lemma map_get_elem k (v : A) m : map_get k m = Some v -> (k, v) ∈ m.
Proof.
  induction m as [|[k' v'] m IH]; cbn; [done|]. case_bool_decide; [intros [= <-]; subst; left|].
  intros H1. right. by apply IH.
Qed.

Lemma map_get_None k m : map_get k m = None <-> k ∉ m.*1.
Proof.
  induction m as [|[k' v'] m IH]; cbn; [split; [intros _; apply not_elem_of_nil|done]|].
  rewrite not_elem_of_cons. case_bool_decide; [split; [done|intros [? _]; congruence]|].
  rewrite IH. split; [intros ?; split; [congruence|done]|tauto].
Qed.

Lemma map_delete_subset k m x : x ∈ map_delete k m -> x ∈ m.
Proof.
  induction m as [|[k' v'] m IH]; cbn; [done|]. case_bool_decide; rewrite ?elem_of_cons; tauto.
Qed.

Lemma map_delete_keys k m : NoDup m.*1 -> NoDup (map_delete k m).*1 /\ (k ∉ (map_delete k m).*1).
Proof.
  induction m as [|[k' v'] m IH]; cbn; [intros _; split; [constructor|apply not_elem_of_nil]|].
  intros Hnd. apply NoDup_cons in Hnd as [Hn Hnd]. destruct (IH Hnd) as [IH1 IH2].
  case_bool_decide as E; [by subst|]. cbn. split.
  - constructor; [|done]. intros Hin. apply Hn. apply list_elem_of_fmap in Hin as ([k2 v2] & -> & Hin).
    apply map_delete_subset in Hin. apply list_elem_of_fmap. by exists (k2, v2).
  - rewrite not_elem_of_cons. split; [congruence|done].
Qed.

Lemma map_delete_zlen k m : k ∈ m.*1 -> zlen (map_delete k m) = zlen m - 1.
Proof.
  induction m as [|[k' v'] m IH]; cbn [fmap list_fmap map_delete fst]; [by intros ?%elem_of_nil|].
  rewrite elem_of_cons. case_bool_decide as E; [rewrite zlen_cons; lia|].
  intros [->|Hin]; [done|]. rewrite !zlen_cons, IH by done. lia.
Qed.

Lemma map_delete_other k k' m : k <> k' -> map_get k (map_delete k' m) = map_get k m.
Proof.
  intros Hk. induction m as [|[k2 v2] m IH]; cbn; [done|].
  case_bool_decide as E; subst; cbn; [by rewrite bool_decide_false by congruence|].
  case_bool_decide; [done|]. exact IH.
Qed.

Lemma map_set_get k (v : A) m : map_get k (map_set k v m) = Some v.
Proof.
  induction m as [|[k' v'] m IH]; cbn; [by rewrite bool_decide_true|].
  case_bool_decide; cbn; [by rewrite bool_decide_true|]. by rewrite bool_decide_false.
Qed.

Lemma map_set_other k k' (v : A) m : k <> k' -> map_get k (map_set k' v m) = map_get k m.
Proof.
  intros Hk. induction m as [|[k2 v2] m IH]; cbn; [by rewrite bool_decide_false by congruence|].
  case_bool_decide; subst; cbn; [by rewrite !bool_decide_false by congruence|].
  case_bool_decide; [done|exact IH].
Qed.

Lemma map_set_nodup k (v : A) m : NoDup m.*1 -> NoDup (map_set k v m).*1.
Proof.
  intros Hnd. destruct (decide (k ∈ m.*1)) as [Hin|Hin]; [by rewrite map_set_keys|].
  rewrite map_set_fresh by done. rewrite fmap_app. apply NoDup_app. split; [done|]. split.
  - intros x Hx Hx'. cbn in Hx'. apply list_elem_of_singleton in Hx'. by subst.
  - apply NoDup_singleton.
Qed.

Lemma map_set_zlen k (v : A) m : zlen (map_set k v m) <= zlen m + 1.
Proof.
  destruct (decide (k ∈ m.*1)) as [Hin|Hin].
  - pose proof (f_equal length (map_set_keys k v m Hin)) as H. rewrite !length_fmap in H. unfold zlen. lia.
  - rewrite map_set_fresh by done. rewrite zlen_app. done.
Qed.
End JsMap.

(** ** Arrays and sets *)

(** [s.add(x)] and [s.delete(x)] on a JS [Set]. *)
Definition set_add {A} `{EqDecision A} (x : A) (l : list A) : list A := if bool_decide (x ∈ l) then l else l ++ [x].
Definition set_delete {A} `{EqDecision A} (x : A) (l : list A) : list A := filter (fun y => y <> x) l.

(** [l.find(p)] and the stable [l.sort((a, b) => key(a) - key(b))]. *)
Definition arr_find {A} (p : A -> bool) (l : list A) : option A := head (filter (fun x => p x = true) l).
Fixpoint insert_by {A} (key : A -> Z) (x : A) (l : list A) : list A :=
  match l with
  | [] => [x]
  | y :: l' => if key x <=? key y then x :: l else y :: insert_by key x l'
  end.
Definition sort_by {A} (key : A -> Z) (l : list A) : list A := foldr (insert_by key) [] l.

Lemma arr_find_some {A} p (l : list A) x : arr_find p l = Some x -> x ∈ l /\ p x = true.
Proof.
  unfold arr_find. intros E. assert (x ∈ filter (fun y => p y = true) l) as Hx.
  { destruct (filter _ l) as [|y l']; [done|]. injection E as ->. left. }
  by apply list_elem_of_filter in Hx as [? ?].
Qed.

Lemma arr_find_none {A} p (l : list A) x : arr_find p l = None -> x ∈ l -> p x = false.
Proof.
  unfold arr_find. intros E Hx. destruct (p x) eqn:Ep; [|done]. exfalso.
  assert (x ∈ filter (fun y => p y = true) l) as Hf by (by apply list_elem_of_filter).
  destruct (filter _ l) as [|y l']; [by apply elem_of_nil in Hf|done].
Qed.

Lemma insert_by_elem {A} key (x y : A) l : y ∈ insert_by key x l <-> y = x \/ y ∈ l.
Proof.
  induction l as [|z l IH]; cbn; [by rewrite list_elem_of_singleton, elem_of_nil; intuition|].
  destruct (key x <=? key z); rewrite !elem_of_cons; [done|]. rewrite IH. tauto.
Qed.

Lemma sort_by_elem {A} key (y : A) l : y ∈ sort_by key l <-> y ∈ l.
Proof. induction l as [|x l IH]; cbn; [done|]. by rewrite insert_by_elem, IH, elem_of_cons. Qed.

Lemma head_elem {A} (l : list A) x : head l = Some x -> x ∈ l.
Proof. destruct l; [done|]. intros [= ->]. left. Qed.

Lemma set_add_elem {A} `{EqDecision A} (x y : A) l : y ∈ set_add x l <-> y = x \/ y ∈ l.
Proof.
  unfold set_add. case_bool_decide; [split; [auto|by intros [->|?]]|]. rewrite elem_of_app, list_elem_of_singleton. tauto.
Qed.

Lemma set_delete_elem {A} `{EqDecision A} (x y : A) l : y ∈ set_delete x l <-> y <> x /\ y ∈ l.
Proof. unfold set_delete. by rewrite list_elem_of_filter. Qed.

Lemma insert_by_perm {A} key (x : A) l : insert_by key x l ≡ₚ x :: l.
Proof. induction l as [|y l IH]; cbn; [done|]. case_match; [done|]. rewrite IH. apply perm_swap. Qed.
Lemma sort_by_perm {A} key (l : list A) : sort_by key l ≡ₚ l.
Proof. induction l as [|x l IH]; cbn; [done|]. by rewrite insert_by_perm, IH. Qed.

Lemma omap_nodup {A B C} (f : A -> option B) (k : A -> C) (k' : B -> C) l :
  (forall a b, f a = Some b -> k' b = k a) -> NoDup (k <$> l) -> NoDup (k' <$> omap f l).
Proof.
  intros Hk. induction l as [|a l IH]; cbn; [done|]. rewrite NoDup_cons. intros [Ha Hl].
  destruct (f a) as [b|] eqn:E; cbn; [|by apply IH]. rewrite NoDup_cons. split; [|by apply IH].
  rewrite (Hk _ _ E). intros Hin. apply Ha. apply list_elem_of_fmap in Hin as (b' & -> & Hb).
  apply list_elem_of_omap in Hb as (a' & Ha' & E'). rewrite (Hk _ _ E'). by apply list_elem_of_fmap_2.
Qed.

Lemma nodup_inj {A K} (key : A -> K) l x y : NoDup (key <$> l) -> x ∈ l -> y ∈ l -> key x = key y -> x = y.
Proof.
  induction l as [|a l IH]; cbn; [by intros _ ?%elem_of_nil|]. rewrite NoDup_cons, !elem_of_cons.
  intros [Ha Hl] [->|Hx] [->|Hy] E; auto; exfalso; apply Ha; first [rewrite E|rewrite <- E]; by apply list_elem_of_fmap_2.
Qed.
