(* ===== verification/JsNumber.v ===== *)
(** * JavaScript numbers

    A [number] is an IEEE 754 binary64 value, taken bit for bit from the
    Standard Library's executable specification ([SpecFloat], precision 53,
    maximal exponent 1024).  Integers that the code keeps in the safe range
    (lengths, counters, ids) are plain [Z] in the other files; this file is for
    the quantities that really are fractional: difficulties and amounts. *)

From Stdlib Require Export SpecFloat.
From S2P Require Import Prelude.

Abbreviation jsnum := spec_float.

(** [Number(n)] of an integer: the nearest double, ties to even. *)
Definition num_of_Z (z : Z) : jsnum := binary_normalize 53 1024 z 0 false.

Definition nadd : jsnum -> jsnum -> jsnum := SFadd 53 1024.
Definition nsub : jsnum -> jsnum -> jsnum := SFsub 53 1024.
Definition nmul : jsnum -> jsnum -> jsnum := SFmul 53 1024.
Definition ndiv : jsnum -> jsnum -> jsnum := SFdiv 53 1024.
Definition nabs : jsnum -> jsnum := SFabs.

(** [a < b], [a <= b], [a === b]: all false on [NaN]. *)
Definition nlt : jsnum -> jsnum -> bool := SFltb.
Definition nle : jsnum -> jsnum -> bool := SFleb.
Definition neq : jsnum -> jsnum -> bool := SFeqb.

Definition isFinite (x : jsnum) : bool :=
  match x with
  | S754_nan | S754_infinity _ => false
  | _ => true
  end.

Definition n0 : jsnum := S754_zero false.
Definition n1 : jsnum := num_of_Z 1.
(** [Number.MAX_SAFE_INTEGER]. *)
Definition MAX_SAFE_INTEGER : jsnum := num_of_Z (2 ^ 53 - 1).

(** The decimal literal [a / b] of the source, [a] and [b] exact doubles: the
    quotient is then the correctly rounded value of the literal. *)
Definition literal (a b : Z) : jsnum := ndiv (num_of_Z a) (num_of_Z b).

(** [Math.min(a, b)]. *)
Definition math_min (a b : jsnum) : jsnum :=
  match a, b with
  | S754_nan, _ | _, S754_nan => S754_nan
  | S754_zero s, S754_zero t => S754_zero (s || t)
  | _, _ => if nlt b a then b else a
  end.

(** [Math.round(x)] as an exact integer: the nearest integer, halves upwards;
    [None] when [x] is not finite. *)
Definition math_round (x : jsnum) : option Z :=
  match x with
  | S754_zero _ => Some 0
  | S754_finite s m e =>
      let v := if s then - Zpos m else Zpos m in
      Some (if 0 <=? e then v * 2 ^ e
            else (2 * v + 2 ^ (- e)) / (2 * 2 ^ (- e)))
  | _ => None
  end.

(** [Math.floor(x)]. *)
Definition math_floor (x : jsnum) : option Z :=
  match x with
  | S754_zero _ => Some 0
  | S754_finite s m e =>
      let v := if s then - Zpos m else Zpos m in
      Some (if 0 <=? e then v * 2 ^ e else v / 2 ^ (- e))
  | _ => None
  end.

(** The integral part that [ToInt32] and [ToUint32] reduce modulo 2^32; 0 for
    [NaN] and the infinities. *)
Definition num_trunc (x : jsnum) : Z :=
  match x with
  | S754_finite s m e =>
      let v := if 0 <=? e then Zpos m * 2 ^ e else Zpos m / 2 ^ (- e) in
      if s then - v else v
  | _ => 0
  end.

(** [x >>> 0]. *)
Definition num_u32 (x : jsnum) : Z := to_u32 (num_trunc x).

(** [BigInt(x)] of an integral number. *)
Definition bigint_of (x : option Z) : res Z :=
  match x with
  | Some z => Ok z
  | None => Throw "cannot be converted to a BigInt because it is not an integer"
  end.

#[global] Instance jsnum_eq_dec : EqDecision jsnum.
Proof. solve_decision. Defined.

(** ** Comparisons

    [SFcompare] is antisymmetric and [<], [<=] are what it says. *)
Lemma SFcompare_antisym x y :
  SFcompare y x = CompOpp <$> SFcompare x y.
Proof.
  assert (forall p q : positive, CompOpp (Pos.compare_cont Eq p q) = Pos.compare_cont Eq q p) as Hc.
  { intros p q. symmetry. apply (Pos.compare_antisym p q). }
  destruct x as [[]|[]| |[] m e], y as [[]|[]| |[] m' e']; cbn; try done.
  all: rewrite (Z.compare_antisym e' e); destruct (Z.compare e' e); cbn; try done.
  all: by rewrite ?Hc, ?CompOpp_involutive.
Qed.

Lemma SFcompare_refl x : x <> S754_nan -> SFcompare x x = Some Eq.
Proof.
  destruct x as [[]|[]| |[] m e]; cbn; try done; intros _;
    rewrite Z.compare_refl; by rewrite (Pos.compare_refl m : Pos.compare_cont Eq m m = Eq).
Qed.

Lemma nlt_nle x y : nlt x y = true -> nle x y = true.
Proof. unfold nlt, nle, SFltb, SFleb. destruct (SFcompare x y) as [[]|]; done. Qed.

(** On numbers that are not [NaN] one of [x < y] and [y <= x] holds. *)
Lemma nlt_false x y : x <> S754_nan -> y <> S754_nan -> nlt x y = false -> nle y x = true.
Proof.
  intros Hx Hy. unfold nlt, nle, SFltb, SFleb. rewrite (SFcompare_antisym x y).
  destruct (SFcompare x y) as [[]|] eqn:E; try done.
  destruct x as [[]|[]| |[] m e], y as [[]|[]| |[] m' e']; done.
Qed.

Lemma nle_refl x : x <> S754_nan -> nle x x = true.
Proof. intros H. unfold nle, SFleb. by rewrite SFcompare_refl. Qed.

Lemma nle_not_nan x y : nle x y = true -> x <> S754_nan /\ y <> S754_nan.
Proof. unfold nle, SFleb. destruct x, y; done. Qed.

Lemma nlt_not_nan x y : nlt x y = true -> x <> S754_nan /\ y <> S754_nan.
Proof. intros H. eapply nle_not_nan, nlt_nle, H. Qed.

Lemma nle_nlt_neg x y : nle x y = true -> nlt y x = false.
Proof.
  unfold nlt, nle, SFltb, SFleb. rewrite (SFcompare_antisym x y).
  destruct (SFcompare x y) as [[]|]; done.
Qed.

Lemma neq_refl d : isFinite d = true -> neq d d = true.
Proof. intros Hd. unfold neq, SFeqb. by rewrite SFcompare_refl by (by destruct d). Qed.

Lemma isFinite_not_nan x : isFinite x = true -> x <> S754_nan.
Proof. by destruct x. Qed.
#[export] Hint Resolve isFinite_not_nan nle_refl nlt_nle : pool.
