(* ===== verification/JsRound.v ===== *)
(** * Rounding of doubles

    [SpecFloat] computes; this file says what it computes.  A non-negative exact
    result is a fraction [A / B] in units of 2^-1074, the distance of subnormal
    doubles, and [rnd A B] is the integer number of units of the nearest double.
    Every operation on non-negative doubles returns [rnd] of its exact result (or
    overflows), and [rnd] is monotone and exact on representable values: this is
    all the difficulty and payout code needs to know about rounding. *)

From S2P Require Import Prelude JsNumber.

(** ** Rounding a fraction to the nearest integer, ties to even *)
Definition rne (V D : Z) : Z :=
  let q := V / D in
  match Z.compare (2 * (V mod D)) D with
  | Lt => q
  | Gt => q + 1
  | Eq => if Z.even q then q else q + 1
  end.

Lemma rne_bounds V D : V / D <= rne V D <= V / D + 1.
Proof. unfold rne. destruct (Z.compare _ _); [destruct (Z.even _)|..]; lia. Qed.

Lemma rne_exact k D : 0 < D -> rne (k * D) D = k.
Proof.
  intros HD. unfold rne. rewrite Z.mod_mul, Z.div_mul by lia.
  destruct (Z.compare_spec (2 * 0) D); lia.
Qed.

(** Fractions of equal floor compare by their remainders. *)
Lemma frac_mod_le V D V' D' : 0 < D -> 0 < D' -> V * D' <= V' * D -> V / D = V' / D' ->
  (V mod D) * D' <= (V' mod D') * D.
Proof. intros. pose proof (Z.div_mod V D). pose proof (Z.div_mod V' D'). nia. Qed.

Lemma frac_div_le V D V' D' : 0 < D -> 0 < D' -> V * D' <= V' * D -> V / D <= V' / D'.
Proof.
  intros HD HD' Hle. apply Z.div_le_lower_bound; [done|].
  pose proof (Z.mul_div_le V D HD). nia.
Qed.

Lemma rne_mono V D V' D' : 0 < D -> 0 < D' -> V * D' <= V' * D -> rne V D <= rne V' D'.
Proof.
  intros HD HD' Hle. pose proof (frac_div_le V D V' D' HD HD' Hle) as Hq.
  destruct (decide (V / D = V' / D')) as [Heq|].
  2: { pose proof (rne_bounds V D). pose proof (rne_bounds V' D'). lia. }
  pose proof (frac_mod_le V D V' D' HD HD' Hle Heq) as Hr. unfold rne. rewrite <- Heq.
  pose proof (Z.mod_pos_bound V D HD). pose proof (Z.mod_pos_bound V' D' HD').
  destruct (Z.compare_spec (2 * (V mod D)) D), (Z.compare_spec (2 * (V' mod D')) D');
    try lia; try (destruct (Z.even (V / D)); lia); exfalso; nia.
Qed.

Lemma rne_ratio V D V' D' : 0 < D -> 0 < D' -> V * D' = V' * D -> rne V D = rne V' D'.
Proof. intros. apply Z.le_antisymm; apply rne_mono; lia. Qed.

(** ** Binary digits *)
Lemma Zdigits2_log2 n : 0 < n -> Zdigits2 n = Z.log2 n + 1.
Proof.
  destruct n as [|p|p]; try lia. intros _. cbn [Zdigits2].
  induction p as [p IH|p IH|]; cbn [digits2_pos]; [| |done].
  - rewrite Pos2Z.inj_succ, IH. change (Zpos (xI p)) with (2 * Zpos p + 1).
    rewrite Z.log2_succ_double by lia. lia.
  - rewrite Pos2Z.inj_succ, IH. change (Zpos (xO p)) with (2 * Zpos p).
    rewrite Z.log2_double by lia. lia.
Qed.

Lemma Zdigits2_spec n : 0 < n -> 2 ^ (Zdigits2 n - 1) <= n < 2 ^ Zdigits2 n.
Proof.
  intros Hn. rewrite Zdigits2_log2 by done. replace (Z.log2 n + 1 - 1) with (Z.log2 n) by lia.
  rewrite Z.add_1_r. by apply Z.log2_spec.
Qed.

Lemma Zdigits2_nonneg n : 0 <= n -> 0 <= Zdigits2 n.
Proof. intros. destruct n; cbn; lia. Qed.

Lemma Zdigits2_unique n d : 0 < d -> 2 ^ (d - 1) <= n < 2 ^ d -> Zdigits2 n = d.
Proof.
  intros Hd Hn. assert (0 < 2 ^ (d - 1)) by (apply Z.pow_pos_nonneg; lia).
  rewrite Zdigits2_log2 by lia.
  rewrite (Z.log2_unique n (d - 1)); [lia|lia|].
  replace (Z.succ (d - 1)) with d by lia. lia.
Qed.

Lemma Zdigits2_mono n m : 0 <= n <= m -> Zdigits2 n <= Zdigits2 m.
Proof.
  intros H. destruct (decide (n = 0)) as [->|]; [apply Zdigits2_nonneg; lia|].
  rewrite !Zdigits2_log2 by lia. pose proof (Z.log2_le_mono n m). lia.
Qed.

(** The digits of [n * 2^j] and of [n / 2^j]. *)
Lemma Zdigits2_div n j : 0 <= n -> 0 <= j -> Zdigits2 (n / 2 ^ j) = Z.max 0 (Zdigits2 n - j).
Proof.
  intros Hn Hj. assert (0 < 2 ^ j) by (apply Z.pow_pos_nonneg; lia).
  destruct (decide (n < 2 ^ j)) as [Hlt|Hge].
  - rewrite Z.div_small by lia. cbn. destruct (decide (n = 0)) as [->|]; [cbn; lia|].
    rewrite Zdigits2_log2 by lia. assert (Z.log2 n < j) by (apply Z.log2_lt_pow2; lia). lia.
  - assert (0 < n / 2 ^ j) by (apply Z.div_str_pos; lia).
    rewrite !Zdigits2_log2 by lia. rewrite <- Z.shiftr_div_pow2, Z.log2_shiftr by lia.
    assert (j <= Z.log2 n) by (apply Z.log2_le_pow2; lia). lia.
Qed.

Lemma Zdigits2_frac V D j : 0 < D -> D <= V -> 0 <= j ->
  Zdigits2 (V * 2 ^ j / D) = Zdigits2 (V / D) + j.
Proof.
  intros HD HV Hj. assert (0 < 2 ^ j) by (apply Z.pow_pos_nonneg; lia).
  assert (0 < V / D) by (apply Z.div_str_pos; lia).
  pose proof (Zdigits2_spec (V / D) ltac:(lia)) as [H1 H2].
  assert (0 < Zdigits2 (V / D)) by (rewrite Zdigits2_log2 by lia; pose proof (Z.log2_nonneg (V / D)); lia).
  apply Zdigits2_unique; [lia|].
  replace (Zdigits2 (V / D) + j - 1) with ((Zdigits2 (V / D) - 1) + j) by lia.
  rewrite !Z.pow_add_r by lia. pose proof (Z.mul_div_le V D HD).
  pose proof (Z.mul_succ_div_gt V D HD).
  set (lo := 2 ^ (Zdigits2 (V / D) - 1)) in *. set (hi := 2 ^ Zdigits2 (V / D)) in *.
  assert (D * lo <= V) by nia. assert (V < D * hi) by nia.
  split; [apply Z.div_le_lower_bound|apply Z.div_lt_upper_bound]; nia.
Qed.

(** ** The nearest double, in units of 2^-1074 *)

(** With 53 digits kept, a value of [n] digits is rounded to multiples of
    [2^(n - 53)]. *)
Definition quantum (n : Z) : Z := Z.max 0 (Zdigits2 n - 53).
Definition rnd (A B : Z) : Z :=
  let h := quantum (A / B) in rne A (B * 2 ^ h) * 2 ^ h.

Lemma quantum_nonneg n : 0 <= quantum n.
Proof. unfold quantum. lia. Qed.

Lemma quantum_pow_pos n : 0 < 2 ^ quantum n.
Proof. apply Z.pow_pos_nonneg; [lia|apply quantum_nonneg]. Qed.

(** After division by the quantum at most 53 digits are left, exactly 53 when
    the quantum is not the smallest one. *)
Lemma quantum_floor n : 0 <= n ->
  n / 2 ^ quantum n < 2 ^ 53 /\ (0 < quantum n -> 2 ^ 52 <= n / 2 ^ quantum n).
Proof.
  intros Hn. pose proof (quantum_pow_pos n) as Hp. unfold quantum in *.
  destruct (decide (n = 0)) as [->|].
  { cbn [Zdigits2] in *. rewrite Z.div_0_l by lia. lia. }
  pose proof (Zdigits2_spec n ltac:(lia)) as [H1 H2].
  set (d := Zdigits2 n) in *. destruct (decide (d <= 53)).
  - replace (Z.max 0 (d - 53)) with 0 by lia. rewrite Z.div_1_r. split; [|lia].
    eapply Z.lt_le_trans; [exact H2|]. apply Z.pow_le_mono_r; lia.
  - replace (Z.max 0 (d - 53)) with (d - 53) in * by lia. split.
    + apply Z.div_lt_upper_bound; [lia|]. rewrite <- Z.pow_add_r by lia.
      by replace (d - 53 + 53) with d by lia.
    + intros _. apply Z.div_le_lower_bound; [lia|]. rewrite <- Z.pow_add_r by lia.
      by replace (d - 53 + 52) with (d - 1) by lia.
Qed.

Lemma rne_quantum_range A B : 0 <= A -> 0 < B ->
  let h := quantum (A / B) in
  0 <= rne A (B * 2 ^ h) <= 2 ^ 53 /\ (0 < h -> 2 ^ 52 <= rne A (B * 2 ^ h)).
Proof.
  intros HA HB h. assert (0 <= A / B) as Hn by (apply Z.div_pos; lia).
  pose proof (quantum_floor (A / B) Hn) as [H1 H2]. fold h in H1, H2.
  pose proof (quantum_pow_pos (A / B)) as Hp. fold h in Hp.
  rewrite Z.div_div in H1, H2 by lia.
  pose proof (rne_bounds A (B * 2 ^ h)).
  assert (0 <= A / (B * 2 ^ h)) by (apply Z.div_pos; nia). lia.
Qed.

Lemma rnd_nonneg A B : 0 <= A -> 0 < B -> 0 <= rnd A B.
Proof.
  intros HA HB. unfold rnd. pose proof (rne_quantum_range A B HA HB) as [H _].
  pose proof (quantum_pow_pos (A / B)). nia.
Qed.

(** Rounding is monotone. *)
Lemma rnd_mono A B A' B' : 0 <= A -> 0 < B -> 0 < B' -> A * B' <= A' * B ->
  rnd A B <= rnd A' B'.
Proof.
  intros HA HB HB' Hle. assert (0 <= A') by nia.
  pose proof (frac_div_le A B A' B' HB HB' Hle) as Hq.
  assert (0 <= A / B) by (apply Z.div_pos; lia).
  assert (quantum (A / B) <= quantum (A' / B')) as Hh
    by (unfold quantum; pose proof (Zdigits2_mono (A / B) (A' / B')); lia).
  pose proof (rne_quantum_range A B HA HB) as [H1 _].
  pose proof (rne_quantum_range A' B' ltac:(lia) HB') as [_ H2].
  pose proof (quantum_pow_pos (A / B)) as Hp. pose proof (quantum_nonneg (A / B)) as Hn.
  unfold rnd. set (h := quantum (A / B)) in *. set (h' := quantum (A' / B')) in *.
  destruct (decide (h = h')) as [<-|].
  - apply Z.mul_le_mono_nonneg_r; [lia|]. apply rne_mono; nia.
  - specialize (H2 ltac:(lia)). set (r2 := rne A' (B' * 2 ^ h')) in *.
    assert (2 ^ h' = 2 ^ h * 2 ^ (h' - h)) as -> by (rewrite <- Z.pow_add_r by lia; f_equal; lia).
    assert (2 ^ 1 <= 2 ^ (h' - h)) by (apply Z.pow_le_mono_r; lia).
    rewrite (Z.mul_comm (2 ^ h) (2 ^ (h' - h))), Z.mul_assoc.
    apply Z.mul_le_mono_nonneg_r; [lia|]. nia.
Qed.

(** Values with at most 53 digits are kept. *)
Lemma rnd_exact m j B : 0 <= m < 2 ^ 53 -> 0 <= j -> 0 < B -> rnd (m * 2 ^ j * B) B = m * 2 ^ j.
Proof.
  intros Hm Hj HB. unfold rnd. rewrite Z.div_mul by lia.
  set (h := quantum (m * 2 ^ j)).
  assert (0 <= h <= j) as Hh.
  { split; [apply quantum_nonneg|]. unfold h, quantum.
    destruct (decide (m = 0)) as [->|]; [rewrite Z.mul_0_l; change (Zdigits2 0) with 0; lia|].
    assert (0 < 2 ^ j) by (apply Z.pow_pos_nonneg; lia).
    rewrite Zdigits2_log2 by nia. rewrite Z.log2_mul_pow2 by lia.
    assert (Z.log2 m < 53) by (apply Z.log2_lt_pow2; lia). lia. }
  assert (0 < 2 ^ h) by (apply Z.pow_pos_nonneg; lia).
  replace (m * 2 ^ j) with (m * 2 ^ (j - h) * 2 ^ h)
    by (rewrite <- Z.mul_assoc, <- Z.pow_add_r by lia; do 2 f_equal; lia).
  replace (m * 2 ^ (j - h) * 2 ^ h * B) with (m * 2 ^ (j - h) * (B * 2 ^ h)) by ring.
  rewrite rne_exact by nia. done.
Qed.

Lemma rnd_ratio A B A' B' : 0 <= A -> 0 < B -> 0 < B' -> A * B' = A' * B -> rnd A B = rnd A' B'.
Proof. intros. apply Z.le_antisymm; apply rnd_mono; nia. Qed.

(** The error is at most half a quantum. *)
Lemma rnd_error A B : 0 <= A -> 0 < B ->
  2 * Z.abs (rnd A B * B - A) <= B * 2 ^ quantum (A / B).
Proof.
  intros HA HB. unfold rnd. set (h := quantum (A / B)).
  pose proof (quantum_pow_pos (A / B)) as Hp. fold h in Hp.
  set (D := B * 2 ^ h). assert (0 < D) by (unfold D; nia).
  replace (rne A D * 2 ^ h * B) with (rne A D * D) by (unfold D; ring).
  pose proof (Z.div_mod A D ltac:(lia)). pose proof (Z.mod_pos_bound A D ltac:(lia)).
  unfold rne. destruct (Z.compare_spec (2 * (A mod D)) D); [destruct (Z.even _)|..]; nia.
Qed.

(** ** [SpecFloat]'s rounding

    [rec_ok mrs V D]: the mantissa is the floor of [V / D] and the round and
    sticky bits place the remainder against one half. *)
Definition rec_ok (mrs : shr_record) (V D : Z) : Prop :=
  shr_m mrs = V / D /\
  match shr_r mrs, shr_s mrs with
  | false, false => V mod D = 0
  | false, true => 0 < 2 * (V mod D) < D
  | true, false => 2 * (V mod D) = D
  | true, true => D < 2 * (V mod D)
  end.

Lemma shr_1_parts m r s : 0 <= m ->
  shr_1 {| shr_m := m; shr_r := r; shr_s := s |} =
    {| shr_m := m / 2; shr_r := Z.odd m; shr_s := r || s |}.
Proof.
  intros Hm. destruct m as [|[p|p|]|p]; try lia; cbn [shr_1]; try done.
  - f_equal. change (Zpos (xI p)) with (2 * Zpos p + 1).
    rewrite Z.mul_comm, Z.div_add_l by lia. change (1 / 2) with 0. lia.
  - f_equal. change (Zpos (xO p)) with (2 * Zpos p).
    by rewrite Z.mul_comm, Z.div_mul by lia.
Qed.

Lemma rec_ok_shr_1 mrs V D : 0 <= V -> 0 < D -> rec_ok mrs V D -> rec_ok (shr_1 mrs) V (D * 2).
Proof.
  intros HV HD. destruct mrs as [m r s]. intros [Hm Hl]. cbn in Hm, Hl. subst m.
  rewrite shr_1_parts by (apply Z.div_pos; lia). unfold rec_ok; cbn [shr_m shr_r shr_s].
  rewrite <- Z.div_div by lia. split; [done|]. rewrite Z.rem_mul_r by lia.
  pose proof (Z.mod_pos_bound V D HD).
  assert ((V / D) mod 2 = if Z.odd (V / D) then 1 else 0) as -> by apply Zmod_odd.
  destruct r, s, (Z.odd (V / D)); cbn [orb]; lia.
Qed.

Lemma rec_ok_iter p mrs V D : 0 <= V -> 0 < D -> rec_ok mrs V D ->
  rec_ok (iter_pos shr_1 p mrs) V (D * 2 ^ Zpos p).
Proof.
  intros HV. revert mrs D; induction p as [p IH|p IH|]; intros mrs D HD H; cbn [iter_pos].
  - replace (D * 2 ^ Zpos (xI p)) with (D * 2 * 2 ^ Zpos p * 2 ^ Zpos p).
    2: { change (Zpos (xI p)) with (2 * Zpos p + 1).
         rewrite Z.pow_add_r by lia. replace (2 * Zpos p) with (Zpos p + Zpos p) by lia.
         rewrite Z.pow_add_r by lia. change (2 ^ 1) with 2. ring. }
    apply IH; [nia|]. apply IH; [lia|]. by apply rec_ok_shr_1.
  - replace (D * 2 ^ Zpos (xO p)) with (D * 2 ^ Zpos p * 2 ^ Zpos p).
    2: { change (Zpos (xO p)) with (2 * Zpos p). replace (2 * Zpos p) with (Zpos p + Zpos p) by lia.
         rewrite Z.pow_add_r by lia. ring. }
    apply IH; [nia|]. by apply IH.
  - by apply rec_ok_shr_1.
Qed.

Lemma rec_ok_shr mrs e n V D : 0 <= V -> 0 < D -> 0 <= n -> rec_ok mrs V D ->
  exists mrs', shr mrs e n = (mrs', e + n) /\ rec_ok mrs' V (D * 2 ^ n).
Proof.
  intros HV HD Hn H. destruct n as [|p|p]; [| |lia].
  - exists mrs. rewrite Z.add_0_r, Z.pow_0_r, Z.mul_1_r. done.
  - eexists. split; [done|]. by apply rec_ok_iter.
Qed.

Lemma rec_ok_rne mrs V D : 0 < D -> rec_ok mrs V D ->
  round_nearest_even (shr_m mrs) (loc_of_shr_record mrs) = rne V D.
Proof.
  intros HD. destruct mrs as [m [] []]; intros [Hm Hl]; cbn in Hm, Hl; subst m;
    cbn [shr_m loc_of_shr_record round_nearest_even]; unfold rne;
    destruct (Z.compare_spec (2 * (V mod D)) D); try lia; done.
Qed.

Lemma rec_ok_exact V : rec_ok (shr_record_of_loc V loc_Exact) V 1.
Proof. split; cbn; [by rewrite Z.div_1_r|by rewrite Z.mod_1_r]. Qed.

(** ** Values *)

(** A double of sign [s] whose magnitude is [r] units of 2^-1074. *)
Definition has_val (x : jsnum) (s : bool) (r : Z) : Prop :=
  match x with
  | S754_zero s' => s' = s /\ r = 0
  | S754_finite s' m e => s' = s /\ bounded 53 1024 m e = true /\ -1074 <= e /\ r = Zpos m * 2 ^ (e + 1074)
  | S754_infinity s' => s' = s /\ 2 ^ 2098 <= r
  | S754_nan => False
  end.

Lemma bounded_spec m e : bounded 53 1024 m e = true <->
  -1074 <= e <= 971 /\ Zpos m < 2 ^ 53 /\ (-1074 < e -> 2 ^ 52 <= Zpos m).
Proof.
  unfold bounded, canonical_mantissa. rewrite andb_true_iff, Z.eqb_eq, Z.leb_le.
  unfold fexp, emin. change (Zpos (digits2_pos m)) with (Zdigits2 (Zpos m)).
  pose proof (Zdigits2_spec (Zpos m) ltac:(lia)) as [H1 H2].
  set (d := Zdigits2 (Zpos m)) in *. split.
  - intros [He Hl]. split_and!; [lia|lia| |].
    + eapply Z.lt_le_trans; [exact H2|]. apply Z.pow_le_mono_r; lia.
    + intros. assert (d = 53) as -> by lia. done.
  - intros ([He1 He2] & Hm & Hn). split; [|lia].
    assert (d <= 53).
    { destruct (decide (53 < d)); [|lia].
      assert (2 ^ 53 <= 2 ^ (d - 1)) by (apply Z.pow_le_mono_r; lia). lia. }
    destruct (decide (-1074 < e)); [|lia]. specialize (Hn ltac:(lia)).
    destruct (decide (d < 53)); [|lia].
    assert (2 ^ d <= 2 ^ 52) by (apply Z.pow_le_mono_r; lia). lia.
Qed.

(** The second pass of [binary_round_aux] renormalises after a carry. *)
Lemma second_pass s M e :
  0 <= M <= 2 ^ 53 -> -1074 <= e -> (-1074 < e -> 2 ^ 52 <= M) ->
  has_val (let '(mrs, e') := shr_fexp 53 1024 M e loc_Exact in
    match shr_m mrs with
    | Z0 => S754_zero s
    | Zpos m => if Z.leb e' (1024 - 53) then S754_finite s m e' else S754_infinity s
    | Zneg _ => S754_nan
    end) s (M * 2 ^ (e + 1074)).
Proof.
  intros HM He Hn.
  assert (forall p e, -1074 <= e -> Zpos p < 2 ^ 53 -> (-1074 < e -> 2 ^ 52 <= Zpos p) ->
    has_val (if Z.leb e (1024 - 53) then S754_finite s p e else S754_infinity s) s
      (Zpos p * 2 ^ (e + 1074))) as Hfin.
  { intros p e' He' Hp Hp'. destruct (Z.leb_spec e' (1024 - 53)); cbn.
    - split_and!; try done. apply bounded_spec. lia.
    - split; [done|]. specialize (Hp' ltac:(lia)).
      replace (2 ^ 2098) with (2 ^ 52 * 2 ^ 2046) by (by rewrite <- Z.pow_add_r by lia).
      assert (2 ^ 2046 <= 2 ^ (e' + 1074)) by (apply Z.pow_le_mono_r; lia). nia. }
  unfold shr_fexp, fexp, emin. cbn [shr_record_of_loc].
  destruct (decide (M = 2 ^ 53)) as [->|].
  - replace (Z.max _ _ - e) with 1 by (change (Zdigits2 (2 ^ 53)) with 54; lia).
    cbn [shr iter_pos]. rewrite shr_1_parts by lia. cbn [shr_m].
    change (2 ^ 53 / 2) with (Zpos (2 ^ 52)%positive).
    replace (2 ^ 53 * 2 ^ (e + 1074)) with (Zpos (2 ^ 52)%positive * 2 ^ (e + 1 + 1074)).
    2: { replace (e + 1 + 1074) with (1 + (e + 1074)) by lia. rewrite Z.pow_add_r by lia.
         change (Zpos (2 ^ 52)%positive) with (2 ^ 52). change (2 ^ 1) with 2. ring. }
    apply Hfin; [lia|done|]. done.
  - assert (Zdigits2 M <= 53) as Hd.
    { destruct (decide (M = 0)) as [->|]; [cbn; lia|]. rewrite Zdigits2_log2 by lia.
      assert (Z.log2 M < 53) by (apply Z.log2_lt_pow2; lia). lia. }
    replace (shr {| shr_m := M; shr_r := false; shr_s := false |} e _)
      with ({| shr_m := M; shr_r := false; shr_s := false |}, e).
    2: { destruct (Z.max (Zdigits2 M + e - 53) (3 - 1024 - 53) - e) eqn:E; try done. lia. }
    cbn [shr_m]. destruct M as [|p|p]; [done| |lia]. apply Hfin; lia.
Qed.

(** Scaling to units of 2^-1074. *)
Definition scale_num (V e : Z) : Z := V * 2 ^ Z.max 0 (e + 1074).
Definition scale_den (D e : Z) : Z := D * 2 ^ Z.max 0 (- (e + 1074)).

Lemma scale_den_pos D e : 0 < D -> 0 < scale_den D e.
Proof. intros. unfold scale_den. assert (0 < 2 ^ Z.max 0 (- (e + 1074))) by (apply Z.pow_pos_nonneg; lia). nia. Qed.

Lemma scale_num_nonneg V e : 0 <= V -> 0 <= scale_num V e.
Proof. intros. unfold scale_num. assert (0 < 2 ^ Z.max 0 (e + 1074)) by (apply Z.pow_pos_nonneg; lia). nia. Qed.

Lemma scale_quantum V D e : 0 <= V -> 0 < D -> e <= fexp 53 1024 (Zdigits2 (V / D) + e) ->
  quantum (scale_num V e / scale_den D e) = fexp 53 1024 (Zdigits2 (V / D) + e) + 1074.
Proof.
  intros HV HD He. unfold quantum, scale_num, scale_den. unfold fexp, emin in *.
  assert (0 <= V / D) by (apply Z.div_pos; lia).
  destruct (decide (0 <= e + 1074)).
  - replace (Z.max 0 (e + 1074)) with (e + 1074) by lia.
    replace (Z.max 0 (- (e + 1074))) with 0 by lia. rewrite Z.mul_1_r.
    destruct (decide (D <= V)) as [Hge|Hlt]; [rewrite Zdigits2_frac by lia; lia|].
    rewrite (Z.div_small V D) in * by lia. change (Zdigits2 0) with 0 in *.
    assert (e = -1074) as -> by lia. rewrite Z.mul_1_r, Z.div_small by lia. done.
  - replace (Z.max 0 (e + 1074)) with 0 by lia.
    replace (Z.max 0 (- (e + 1074))) with (- (e + 1074)) by lia. rewrite Z.mul_1_r.
    assert (0 < 2 ^ (- (e + 1074))) by (apply Z.pow_pos_nonneg; lia).
    rewrite <- Z.div_div by lia. rewrite Zdigits2_div by lia. lia.
Qed.

(** [binary_round_aux] rounds [V / D * 2^e] to the nearest double. *)
Lemma round_aux_spec s V D e l :
  0 <= V -> 0 < D -> rec_ok (shr_record_of_loc (V / D) l) V D ->
  e <= fexp 53 1024 (Zdigits2 (V / D) + e) ->
  has_val (binary_round_aux 53 1024 s (V / D) e l) s (rnd (scale_num V e) (scale_den D e)).
Proof.
  intros HV HD Hrec He. pose proof (scale_quantum V D e HV HD He) as Hq.
  set (f := fexp 53 1024 (Zdigits2 (V / D) + e)) in *.
  assert (-1074 <= f) by (unfold f, fexp, emin; lia).
  destruct (rec_ok_shr (shr_record_of_loc (V / D) l) e (f - e) V D) as (mrs & E & Hm); try lia; try done.
  unfold binary_round_aux. unfold shr_fexp at 1. fold f. rewrite E.
  replace (e + (f - e)) with f by lia.
  assert (0 < 2 ^ (f - e)) by (apply Z.pow_pos_nonneg; lia).
  rewrite (rec_ok_rne mrs V (D * 2 ^ (f - e))) by (nia || done).
  pose proof (scale_num_nonneg V e HV) as HA. pose proof (scale_den_pos D e HD) as HB.
  assert (0 < 2 ^ (f + 1074)) by (apply Z.pow_pos_nonneg; lia).
  rewrite (rne_ratio V (D * 2 ^ (f - e)) (scale_num V e) (scale_den D e * 2 ^ (f + 1074))).
  - pose proof (rne_quantum_range _ _ HA HB) as [R1 R2]. rewrite Hq in R1, R2.
    unfold rnd. rewrite Hq. apply second_pass; lia.
  - nia.
  - nia.
  - unfold scale_num, scale_den.
    assert (2 ^ Z.max 0 (- (e + 1074)) * 2 ^ (f + 1074) = 2 ^ Z.max 0 (e + 1074) * 2 ^ (f - e)) as Hp.
    { rewrite <- !Z.pow_add_r by lia. f_equal. lia. }
    rewrite <- Z.mul_assoc, Hp. ring.
Qed.

(** ** Operations on finite non-negative doubles *)

(** [fin x a]: [x] is finite, not negative (nor -0) and worth [a] units. *)
Definition fin (x : jsnum) (a : Z) : Prop := isFinite x = true /\ has_val x false a.

Lemma has_val_nonneg x s r : has_val x s r -> 0 <= r.
Proof.
  destruct x as [s'|s'| |s' m e]; cbn; try lia.
Qed.

Lemma fin_nonneg x a : fin x a -> 0 <= a.
Proof. intros [_ H]. by eapply has_val_nonneg. Qed.

Lemma has_val_fun x s s' r r' : isFinite x = true -> has_val x s r -> has_val x s' r' -> s = s' /\ r = r'.
Proof. destruct x as [t|t| |t m e]; cbn; try done; intros; destruct_and!; subst; done. Qed.

Lemma fin_fun x a b : fin x a -> fin x b -> a = b.
Proof. intros [Hf Ha] [_ Hb]. by destruct (has_val_fun _ _ _ _ _ Hf Ha Hb). Qed.

Lemma has_val_finite x s r : has_val x s r -> r < 2 ^ 2098 -> isFinite x = true.
Proof. intros H Hr. destruct x; cbn in *; try done. lia. Qed.

Lemma finite_small_fin x r : has_val x false r -> r < 2 ^ 2098 -> fin x r.
Proof. intros H Hr. split; [|done]. destruct x; cbn in *; try done. lia. Qed.

Lemma fin_zero_or x a : fin x a ->
  (x = S754_zero false /\ a = 0) \/
  exists m e, x = S754_finite false m e /\ bounded 53 1024 m e = true /\ -1074 <= e /\
    a = Zpos m * 2 ^ (e + 1074).
Proof.
  intros [Hf H]. destruct x as [s|s| |s m e]; cbn in *; try done; [left|right].
  - destruct H as [-> ->]. done.
  - destruct H as (-> & Hb & He & ->). eauto 10.
Qed.

Lemma scaled_ratio V D e X Y :
  0 <= V -> 0 < D -> 0 < Y -> -2200 <= e ->
  V * 2 ^ (e + 2200) * Y = X * D * 2 ^ 1126 ->
  rnd (scale_num V e) (scale_den D e) = rnd X Y.
Proof.
  intros HV HD HY He H. apply rnd_ratio; [by apply scale_num_nonneg|by apply scale_den_pos|done|].
  unfold scale_num, scale_den. destruct (decide (0 <= e + 1074)).
  - replace (Z.max 0 (- (e + 1074))) with 0 by lia. rewrite Z.max_r by lia.
    replace (e + 2200) with (e + 1074 + 1126) in H by lia. rewrite Z.pow_add_r in H by lia.
    assert (0 < 2 ^ 1126) by lia. nia.
  - rewrite (Z.max_l 0 (e + 1074)), (Z.max_r 0 (- _)) by lia.
    replace 1126 with (e + 2200 + - (e + 1074)) in H by lia. rewrite (Z.pow_add_r 2 (e + 2200)) in H by lia.
    assert (0 < 2 ^ (e + 2200)) by (apply Z.pow_pos_nonneg; lia).
    apply (Z.mul_reg_r _ _ (2 ^ (e + 2200))); [lia|]. rewrite Z.pow_0_r. nia.
Qed.

Lemma canonical_mul_exp m1 e1 m2 e2 :
  bounded 53 1024 m1 e1 = true -> bounded 53 1024 m2 e2 = true ->
  e1 + e2 <= fexp 53 1024 (Zdigits2 (Zpos (m1 * m2)) + (e1 + e2)).
Proof.
  rewrite !bounded_spec. intros (He1 & _ & Hn1) (He2 & _ & Hn2). unfold fexp, emin.
  destruct (decide (e1 = -1074 /\ e2 = -1074)); [lia|].
  assert (2 ^ 52 <= Zpos (m1 * m2)).
  { rewrite Pos2Z.inj_mul. destruct (decide (-1074 < e1)).
    - specialize (Hn1 ltac:(lia)). nia.
    - specialize (Hn2 ltac:(lia)). nia. }
  pose proof (Zdigits2_mono (2 ^ 52) (Zpos (m1 * m2)) ltac:(lia)) as Hd.
  change (Zdigits2 (2 ^ 52)) with 53 in Hd. lia.
Qed.

Lemma pow_split e k : -1074 <= e -> 0 <= k -> 2 ^ (e + 1074 + k) = 2 ^ (e + 1074) * 2 ^ k.
Proof. intros. apply Z.pow_add_r; lia. Qed.

Lemma rnd_0 B : 0 < B -> rnd 0 B = 0.
Proof. intros. change 0 with (0 * 2 ^ 0 * B) at 1. rewrite rnd_exact by lia. done. Qed.

Lemma nmul_val x y a b : fin x a -> fin y b -> has_val (nmul x y) false (rnd (a * b) (2 ^ 1074)).
Proof.
  intros Hx Hy. destruct (fin_zero_or x a Hx) as [[-> ->]|(m1 & e1 & -> & B1 & E1 & ->)],
    (fin_zero_or y b Hy) as [[-> ->]|(m2 & e2 & -> & B2 & E2 & ->)];
    rewrite ?Z.mul_0_l, ?Z.mul_0_r, ?rnd_0 by lia; try done.
  unfold nmul, SFmul. cbn [xorb].
  rewrite <- (scaled_ratio (Zpos (m1 * m2)) 1 (e1 + e2)); try lia.
  - pose proof (round_aux_spec false (Zpos (m1 * m2)) 1 (e1 + e2) loc_Exact) as H.
    rewrite Z.div_1_r in H. apply H; [lia|lia|apply rec_ok_exact|by apply canonical_mul_exp].
  - rewrite Pos2Z.inj_mul. replace (e1 + e2 + 2200) with ((e1 + 1074) + (e2 + 1074) + 52) by lia.
    rewrite !Z.pow_add_r by lia. change (2 ^ 1126) with (2 ^ 1074 * 2 ^ 52). ring.
Qed.

(** *** Division *)
Lemma new_location_ok m2 V : 0 < m2 -> rec_ok (shr_record_of_loc (V / m2) (new_location m2 (V mod m2))) V m2.
Proof.
  intros Hm. pose proof (Z.mod_pos_bound V m2 Hm) as Hr. unfold new_location.
  destruct (Z.even m2) eqn:Hev.
  - unfold new_location_even. destruct (Z.eqb_spec (V mod m2) 0); [done|].
    destruct (Z.compare_spec (2 * (V mod m2)) m2); split; cbn; done || lia.
  - unfold new_location_odd. destruct (Z.eqb_spec (V mod m2) 0); [done|].
    assert (2 * (V mod m2) <> m2).
    { intros Heq. rewrite <- Heq, Z.even_mul in Hev. done. }
    destruct (Z.compare_spec (2 * (V mod m2) + 1) m2); split; cbn; done || lia.
Qed.

(** A quotient of [d1]- by [d2]-digit numbers has [d1 - d2] or one more digits. *)
Lemma div_digits V m : 0 < V -> 0 < m -> Zdigits2 V - Zdigits2 m <= Zdigits2 (V / m).
Proof.
  intros HV Hm. pose proof (Zdigits2_spec V HV) as [H1 H2]. pose proof (Zdigits2_spec m Hm) as [H3 H4].
  set (d1 := Zdigits2 V) in *. set (d2 := Zdigits2 m) in *.
  assert (0 <= V / m) as Hq by (apply Z.div_pos; lia).
  destruct (decide (d1 <= d2)); [pose proof (Zdigits2_nonneg (V / m) Hq); lia|].
  assert (0 < d2) by (unfold d2; rewrite Zdigits2_log2 by lia; pose proof (Z.log2_nonneg m); lia).
  assert (2 ^ (d1 - d2 - 1) <= V / m) as Hlow.
  { apply Z.div_le_lower_bound; [lia|].
    assert (2 ^ d2 * 2 ^ (d1 - d2 - 1) = 2 ^ (d1 - 1)) as Hp
      by (rewrite <- Z.pow_add_r by lia; f_equal; lia).
    assert (0 < 2 ^ (d1 - d2 - 1)) by (apply Z.pow_pos_nonneg; lia). nia. }
  pose proof (Zdigits2_mono (2 ^ (d1 - d2 - 1)) (V / m)) as Hmono.
  rewrite (Zdigits2_unique (2 ^ (d1 - d2 - 1)) (d1 - d2)) in Hmono.
  - assert (0 < 2 ^ (d1 - d2 - 1)) by (apply Z.pow_pos_nonneg; lia). lia.
  - lia.
  - split; [lia|]. apply Z.pow_lt_mono_r; lia.
Qed.

Lemma SFdiv_core_spec m1 e1 m2 e2 :
  exists V e, SFdiv_core_binary 53 1024 (Zpos m1) e1 (Zpos m2) e2
      = (V / Zpos m2, e, new_location (Zpos m2) (V mod Zpos m2)) /\
    0 < V /\ e <= e1 - e2 /\ V = Zpos m1 * 2 ^ (e1 - e2 - e) /\
    e <= fexp 53 1024 (Zdigits2 (V / Zpos m2) + e) /\ (-2148 <= e1 - e2 -> -2148 <= e).
Proof.
  unfold SFdiv_core_binary.
  set (e := Z.min _ _). set (n := e1 - e2 - e).
  assert (0 <= n) as Hn by (unfold n, e; lia). assert (0 < 2 ^ n) by (apply Z.pow_pos_nonneg; lia).
  replace (match n with Z0 => Zpos m1 | Zpos _ => Z.shiftl (Zpos m1) n | Zneg _ => 0 end)
    with (Zpos m1 * 2 ^ n).
  2: { destruct n eqn:En; [lia| |lia]. rewrite Z.shiftl_mul_pow2 by lia. done. }
  exists (Zpos m1 * 2 ^ n), e. unfold Z.div, Z.modulo.
  destruct (Z.div_eucl (Zpos m1 * 2 ^ n) (Zpos m2)) as [q r] eqn:E.
  split_and!; [done|nia|unfold e; lia|done| |unfold e, fexp, emin; lia].
  assert (q = (Zpos m1 * 2 ^ n) / Zpos m2) as -> by (unfold Z.div; by rewrite E).
  pose proof (div_digits (Zpos m1 * 2 ^ n) (Zpos m2) ltac:(nia) ltac:(lia)) as Hd.
  assert (Zdigits2 (Zpos m1 * 2 ^ n) = Zdigits2 (Zpos m1) + n) as Hd1.
  { rewrite !Zdigits2_log2 by nia. rewrite Z.log2_mul_pow2 by lia. lia. }
  rewrite Hd1 in Hd. unfold e, n, fexp, emin in *. lia.
Qed.

(** Neither operand need be canonical. *)
Lemma SFdiv_val s m1 e1 m2 e2 : -1074 <= e1 <= 971 -> -1074 <= e2 <= 971 ->
  has_val (SFdiv 53 1024 (S754_finite s m1 e1) (S754_finite false m2 e2)) s
    (rnd (Zpos m1 * 2 ^ (e1 + 1074) * 2 ^ 1074) (Zpos m2 * 2 ^ (e2 + 1074))).
Proof.
  intros B1 B2. unfold SFdiv. destruct (SFdiv_core_spec m1 e1 m2 e2) as (V & e & -> & HV & He & HVe & Hf & Hlow).
  replace (xorb s false) with s by (by destruct s).
  assert (-2148 <= e) as Hle by (apply Hlow; lia).
  rewrite <- (scaled_ratio V (Zpos m2) e); [|lia|lia|lia|lia|].
  - apply round_aux_spec; [lia|lia|by apply new_location_ok|done].
  - rewrite HVe.
    replace (Zpos m1 * 2 ^ (e1 - e2 - e) * 2 ^ (e + 2200) * (Zpos m2 * 2 ^ (e2 + 1074)))
      with (Zpos m1 * Zpos m2 * (2 ^ (e1 - e2 - e) * 2 ^ (e + 2200) * 2 ^ (e2 + 1074))) by ring.
    rewrite <- !Z.pow_add_r by lia.
    replace (Zpos m1 * 2 ^ (e1 + 1074) * 2 ^ 1074 * Zpos m2 * 2 ^ 1126)
      with (Zpos m1 * Zpos m2 * (2 ^ (e1 + 1074) * 2 ^ 1074 * 2 ^ 1126)) by ring.
    rewrite <- !Z.pow_add_r by lia. do 2 f_equal. lia.
Qed.

Lemma ndiv_signed s x y a b : isFinite x = true -> has_val x s a -> fin y b -> 0 < b ->
  has_val (ndiv x y) s (rnd (a * 2 ^ 1074) b).
Proof.
  intros Hfx Hx Hy Hb. destruct (fin_zero_or y b Hy) as [[-> ->]|(m2 & e2 & -> & B2 & E2 & ->)]; [lia|].
  destruct x as [s1|s1| |s1 m1 e1]; cbn [has_val] in Hx; try done.
  { destruct Hx as [-> ->]. rewrite Z.mul_0_l, rnd_0 by lia. by destruct s. }
  destruct Hx as (-> & B1 & E1 & ->). apply bounded_spec in B1 as (B1 & _). apply bounded_spec in B2 as (B2 & _).
  by apply SFdiv_val.
Qed.

Lemma ndiv_val x y a b : fin x a -> fin y b -> 0 < b -> has_val (ndiv x y) false (rnd (a * 2 ^ 1074) b).
Proof. intros [Hf Hx]. by apply ndiv_signed. Qed.

(** *** Integers, sums and differences *)
Lemma pos_iter_xO m d : Zpos (Pos.iter xO m d) = Zpos m * 2 ^ Zpos d.
Proof.
  revert m; induction d as [|d IH] using Pos.peano_ind; intros m; [cbn; lia|].
  rewrite Pos.iter_succ, Pos2Z.inj_succ, Z.pow_succ_r by lia.
  rewrite (Pos2Z.inj_xO (Pos.iter xO m d)), IH. ring.
Qed.

Lemma shl_align_spec m e e' :
  exists m', shl_align m e e' = (m', Z.min e e') /\ Zpos m' = Zpos m * 2 ^ (e - Z.min e e').
Proof.
  unfold shl_align. destruct (e' - e) as [|d|d] eqn:E.
  - exists m. replace (Z.min e e') with e by lia. rewrite Z.sub_diag. split; [done|lia].
  - exists m. replace (Z.min e e') with e by lia. rewrite Z.sub_diag. split; [done|lia].
  - exists (Pos.iter xO m d). replace (Z.min e e') with e' by lia. split; [done|].
    rewrite pos_iter_xO. do 2 f_equal. lia.
Qed.

Lemma binary_round_val s m e : -2100 <= e ->
  has_val (binary_round 53 1024 s m e) s (rnd (scale_num (Zpos m) e) (scale_den 1 e)).
Proof.
  intros He. unfold binary_round. set (f := fexp 53 1024 (Zpos (digits2_pos m) + e)).
  destruct (shl_align_spec m e f) as (m' & -> & Hm').
  assert (Zdigits2 (Zpos m') = Zdigits2 (Zpos m) + (e - Z.min e f)) as Hd.
  { rewrite Hm', !Zdigits2_log2 by lia. rewrite Z.log2_mul_pow2 by lia. lia. }
  assert (-1074 <= f) by (unfold f, fexp, emin; lia).
  rewrite <- (scaled_ratio (Zpos m') 1 (Z.min e f)).
  - pose proof (round_aux_spec s (Zpos m') 1 (Z.min e f) loc_Exact) as H'.
    rewrite Z.div_1_r in H'. apply H'; [lia|lia|apply rec_ok_exact|].
    rewrite Hd. replace (Zdigits2 (Zpos m) + (e - Z.min e f) + Z.min e f)
      with (Zpos (digits2_pos m) + e) by (cbn [Zdigits2]; lia). fold f. lia.
  - lia.
  - lia.
  - by apply scale_den_pos.
  - lia.
  - rewrite Hm'. unfold scale_num, scale_den.
    replace (Zpos m * 2 ^ (e - Z.min e f) * 2 ^ (Z.min e f + 2200) * (1 * 2 ^ Z.max 0 (- (e + 1074))))
      with (Zpos m * (2 ^ (e - Z.min e f) * 2 ^ (Z.min e f + 2200) * 2 ^ Z.max 0 (- (e + 1074)))) by ring.
    rewrite <- !Z.pow_add_r by lia.
    replace (Zpos m * 2 ^ Z.max 0 (e + 1074) * 1 * 2 ^ 1126)
      with (Zpos m * (2 ^ Z.max 0 (e + 1074) * 2 ^ 1126)) by ring.
    rewrite <- Z.pow_add_r by lia. do 2 f_equal. lia.
Qed.

Lemma binary_normalize_val V e : 0 <= V -> -2100 <= e ->
  has_val (binary_normalize 53 1024 V e false) false (rnd (scale_num V e) (scale_den 1 e)).
Proof.
  intros HV He. destruct V as [|p|p]; [|by apply binary_round_val|lia].
  unfold scale_num. rewrite Z.mul_0_l, rnd_0 by (by apply scale_den_pos). done.
Qed.

Lemma num_of_Z_neg z : z < 0 -> has_val (num_of_Z z) true (rnd (- z * 2 ^ 1074) 1).
Proof.
  intros Hz. destruct z as [|p|p]; try lia.
  pose proof (binary_round_val true p 0 ltac:(lia)) as H. unfold scale_num, scale_den in H. exact H.
Qed.

Lemma num_of_Z_val z : 0 <= z -> has_val (num_of_Z z) false (rnd (z * 2 ^ 1074) 1).
Proof.
  intros Hz. unfold num_of_Z. pose proof (binary_normalize_val z 0 Hz ltac:(lia)) as H.
  unfold scale_num, scale_den in H. exact H.
Qed.

(** Integers up to 2^53 are exact. *)
Lemma num_of_Z_exact z : 0 <= z < 2 ^ 53 -> fin (num_of_Z z) (z * 2 ^ 1074).
Proof.
  intros Hz. pose proof (num_of_Z_val z ltac:(lia)) as H.
  replace (z * 2 ^ 1074) with (z * 2 ^ 1074 * 1) in H by lia. rewrite rnd_exact in H by lia.
  apply finite_small_fin; [done|].
  replace (2 ^ 2098) with (2 ^ 1024 * 2 ^ 1074) by (by rewrite <- Z.pow_add_r by lia).
  apply Z.mul_lt_mono_pos_r; [lia|]. eapply Z.lt_trans; [apply Hz|]. apply Z.pow_lt_mono_r; lia.
Qed.

(** The integral part of a finite number, and [n >>> 0] of an unsigned 32-bit integer. *)
Lemma num_trunc_fin x a : fin x a -> num_trunc x = a / 2 ^ 1074.
Proof.
  intros [Hf Hv]. destruct x as [s|s| |s m e]; cbn in Hf, Hv |- *; [|done..|].
  - destruct Hv as [_ ->]. by rewrite Z.div_0_l by lia.
  - destruct Hv as (-> & _ & He & ->). destruct (Z.leb_spec 0 e).
    + rewrite Z.pow_add_r, Z.mul_assoc, Z.div_mul by lia. done.
    + replace 1074 with (e + 1074 + (- e)) at 2 by lia. rewrite (Z.pow_add_r 2 (e + 1074) (- e)) by lia.
      rewrite (Z.mul_comm (2 ^ (e + 1074))). by rewrite Z.div_mul_cancel_r by lia.
Qed.

Lemma math_floor_fin x a : fin x a -> math_floor x = Some (a / 2 ^ 1074).
Proof.
  intros Hx. rewrite <- (num_trunc_fin x a Hx). destruct Hx as [Hf Hv].
  destruct x as [s|s| |s m e]; cbn in Hf, Hv |- *; [done..|]. by destruct Hv as (-> & _).
Qed.

Lemma num_u32_of_Z z : uint 32 z -> num_u32 (num_of_Z z) = z.
Proof.
  intros Hz. unfold num_u32. rewrite (num_trunc_fin _ (z * 2 ^ 1074)) by (apply num_of_Z_exact; unfold uint in Hz; lia).
  rewrite Z.div_mul by lia. by apply Z.mod_small.
Qed.

(** The aligned mantissa of an addend. *)
Lemma align_units m e ez : -1074 <= ez -> ez <= e ->
  Zpos (fst (shl_align m e ez)) * 2 ^ (ez + 1074) = Zpos m * 2 ^ (e + 1074).
Proof.
  intros H1 H2. destruct (shl_align_spec m e ez) as (m' & -> & Hm). cbn [fst].
  rewrite Hm, Z.min_r, <- Z.mul_assoc, <- Z.pow_add_r by lia. do 2 f_equal. lia.
Qed.

Lemma normalize_units V e a : 0 <= V -> -1074 <= e -> V * 2 ^ (e + 1074) = a ->
  has_val (binary_normalize 53 1024 V e false) false (rnd a 1).
Proof.
  intros HV He <-. pose proof (binary_normalize_val V e HV ltac:(lia)) as H.
  unfold scale_num, scale_den in H. rewrite Z.max_r, (Z.max_l 0 (- _)) in H by lia. exact H.
Qed.

Lemma rnd_fin x a : fin x a -> rnd a 1 = a.
Proof.
  intros Hx. destruct (fin_zero_or x a Hx) as [[_ ->]|(m & e & _ & Hb & He & ->)]; [by apply rnd_0|].
  apply bounded_spec in Hb as (_ & Hm & _).
  rewrite <- (Z.mul_1_r (_ * _)) at 1. apply rnd_exact; lia.
Qed.

Lemma nadd_val x y a b : fin x a -> fin y b -> has_val (nadd x y) false (rnd (a + b) 1).
Proof.
  intros Hx Hy. destruct (fin_zero_or x a Hx) as [[-> ->]|(m1 & e1 & -> & B1 & E1 & Ha)].
  { rewrite Z.add_0_l, (rnd_fin y b) by done.
    by destruct (fin_zero_or y b Hy) as [[-> ->]|(m2 & e2 & -> & B2 & E2 & ->)]. }
  destruct (fin_zero_or y b Hy) as [[-> ->]|(m2 & e2 & -> & B2 & E2 & ->)].
  { rewrite Z.add_0_r, (rnd_fin _ a Hx), Ha. done. }
  unfold nadd, SFadd. cbn [cond_Zopp]. apply normalize_units; [lia|lia|].
  rewrite Z.mul_add_distr_r, !align_units by lia. by rewrite Ha.
Qed.

Lemma nsub_val x y a b : fin x a -> fin y b -> b <= a -> has_val (nsub x y) false (rnd (a - b) 1).
Proof.
  intros Hx Hy Hle. destruct (fin_zero_or y b Hy) as [[-> ->]|(m2 & e2 & -> & B2 & E2 & Hb)].
  { rewrite Z.sub_0_r, (rnd_fin x a) by done.
    by destruct (fin_zero_or x a Hx) as [[-> ->]|(m1 & e1 & -> & B1 & E1 & ->)]. }
  destruct (fin_zero_or x a Hx) as [[-> ->]|(m1 & e1 & -> & B1 & E1 & Ha)].
  { assert (0 < 2 ^ (e2 + 1074)) by (apply Z.pow_pos_nonneg; lia). nia. }
  unfold nsub, SFsub. cbn [cond_Zopp].
  set (ez := Z.min e1 e2). assert (-1074 <= ez) by (unfold ez; lia).
  assert (0 < 2 ^ (ez + 1074)) by (apply Z.pow_pos_nonneg; lia).
  pose proof (align_units m1 e1 ez ltac:(lia) ltac:(unfold ez; lia)).
  pose proof (align_units m2 e2 ez ltac:(lia) ltac:(unfold ez; lia)).
  apply normalize_units; nia.
Qed.

(** *** Comparisons *)
Lemma fin_bound x a : fin x a -> a < 2 ^ 2098.
Proof.
  intros Hx. destruct (fin_zero_or x a Hx) as [[_ ->]|(m & e & _ & Hb & He & ->)]; [lia|].
  apply bounded_spec in Hb as (Hb & Hm & _).
  replace (2 ^ 2098) with (2 ^ 53 * 2 ^ 2045) by (by rewrite <- Z.pow_add_r by lia).
  assert (2 ^ (e + 1074) <= 2 ^ 2045) by (apply Z.pow_le_mono_r; lia).
  assert (0 < 2 ^ (e + 1074)) by (apply Z.pow_pos_nonneg; lia). nia.
Qed.

Lemma fin_pos_parts m e : bounded 53 1024 m e = true -> fin (S754_finite false m e) (Zpos m * 2 ^ (e + 1074)).
Proof.
  intros Hb. split; [done|]. unfold has_val. pose proof (proj1 (bounded_spec m e) Hb) as ([He _] & _).
  by split_and!.
Qed.

(** Of canonical doubles, the one with the larger exponent is larger. *)
Lemma canonical_exp_lt m1 e1 m2 e2 :
  bounded 53 1024 m1 e1 = true -> bounded 53 1024 m2 e2 = true -> e1 < e2 ->
  Zpos m1 * 2 ^ (e1 + 1074) < Zpos m2 * 2 ^ (e2 + 1074).
Proof.
  rewrite !bounded_spec. intros (He1 & Hm1 & _) (He2 & _ & Hn2) Hlt. specialize (Hn2 ltac:(lia)).
  replace (e2 + 1074) with ((e1 + 1074) + (e2 - e1)) by lia. rewrite (Z.pow_add_r 2 (e1 + 1074)) by lia.
  assert (2 ^ 1 <= 2 ^ (e2 - e1)) by (apply Z.pow_le_mono_r; lia).
  assert (0 < 2 ^ (e1 + 1074)) by (apply Z.pow_pos_nonneg; lia).
  assert (2 ^ 53 <= Zpos m2 * 2 ^ (e2 - e1)) by nia.
  rewrite (Z.mul_comm (2 ^ (e1 + 1074))), Z.mul_assoc. apply Z.mul_lt_mono_pos_r; lia.
Qed.

Lemma compare_fin x y a b : fin x a -> fin y b -> SFcompare x y = Some (Z.compare a b).
Proof.
  intros Hx Hy. destruct (fin_zero_or x a Hx) as [[-> ->]|(m1 & e1 & -> & B1 & E1 & ->)],
    (fin_zero_or y b Hy) as [[-> ->]|(m2 & e2 & -> & B2 & E2 & ->)]; cbn [SFcompare]; f_equal.
  - symmetry. apply Z.compare_lt_iff. assert (0 < 2 ^ (e2 + 1074)) by (apply Z.pow_pos_nonneg; lia). nia.
  - symmetry. apply Z.compare_gt_iff. assert (0 < 2 ^ (e1 + 1074)) by (apply Z.pow_pos_nonneg; lia). nia.
  - symmetry. destruct (Z.compare_spec e1 e2) as [->|Hlt|Hgt].
    + change (Pos.compare_cont Eq m1 m2) with (Z.compare (Zpos m1) (Zpos m2)).
      assert (0 < 2 ^ (e2 + 1074)) by (apply Z.pow_pos_nonneg; lia).
      destruct (Z.compare_spec (Zpos m1) (Zpos m2)) as [->| |];
        [apply Z.compare_refl|apply Z.compare_lt_iff; nia|apply Z.compare_gt_iff; nia].
    + by apply Z.compare_lt_iff, canonical_exp_lt.
    + by apply Z.compare_gt_iff, canonical_exp_lt.
Qed.

Lemma nlt_fin x y a b : fin x a -> fin y b -> nlt x y = (a <? b).
Proof. intros Hx Hy. unfold nlt, SFltb. by rewrite (compare_fin x y a b). Qed.

Lemma nle_fin x y a b : fin x a -> fin y b -> nle x y = (a <=? b).
Proof. intros Hx Hy. unfold nle, SFleb. by rewrite (compare_fin x y a b). Qed.

(** A rounded result, possibly infinite, against a finite double. *)
Lemma has_val_cases x r : has_val x false r -> fin x r \/ (x = S754_infinity false /\ 2 ^ 2098 <= r).
Proof.
  intros H. destruct (isFinite x) eqn:Hf; [left; done|right].
  destruct x; try done. destruct H as [-> ?]. done.
Qed.

Lemma nle_val x y a r : fin x a -> has_val y false r -> nle x y = (a <=? r).
Proof.
  intros Hx Hy. destruct (has_val_cases y r Hy) as [Hf|[-> Hr]]; [by apply nle_fin|].
  pose proof (fin_bound x a Hx). rewrite (proj2 (Z.leb_le a r)) by lia.
  destruct Hx as [Hx _]. by destruct x.
Qed.

Lemma nlt_val x y a r : fin x a -> has_val y false r -> nlt x y = (a <? r).
Proof.
  intros Hx Hy. destruct (has_val_cases y r Hy) as [Hf|[-> Hr]]; [by apply nlt_fin|].
  pose proof (fin_bound x a Hx). rewrite (proj2 (Z.ltb_lt a r)) by lia.
  destruct Hx as [Hx _]. by destruct x.
Qed.

Lemma nlt_val_l x y a r : fin x a -> has_val y false r -> nlt y x = (r <? a).
Proof.
  intros Hx Hy. destruct (has_val_cases y r Hy) as [Hf|[-> Hr]]; [by apply nlt_fin|].
  pose proof (fin_bound x a Hx). rewrite (proj2 (Z.ltb_ge r a)) by lia.
  destruct Hx as [Hx _]. by destruct x.
Qed.

Lemma n0_fin : fin n0 0.
Proof. done. Qed.

(** A positive canonical double is [fin]. *)
Lemma fin_of_pos x : valid_binary 53 1024 x = true -> isFinite x = true -> nlt n0 x = true ->
  exists a, fin x a /\ 0 < a.
Proof.
  destruct x as [s|s| |[] m e]; try done. intros Hv _ _. exists (Zpos m * 2 ^ (e + 1074)).
  split; [by apply fin_pos_parts|]. apply bounded_spec in Hv as (Hb & _).
  assert (0 < 2 ^ (e + 1074)) by (apply Z.pow_pos_nonneg; lia). nia.
Qed.

(** *** [Math.round] *)
Lemma math_round_fin x a : fin x a -> math_round x = Some ((2 * a + 2 ^ 1074) / 2 ^ 1075).
Proof.
  intros Hx. destruct (fin_zero_or x a Hx) as [[-> ->]|(m & e & -> & _ & He & ->)].
  { cbn [math_round]. f_equal. }
  cbn [math_round]. f_equal. destruct (Z.leb_spec 0 e) as [Hp|Hn].
  - replace (e + 1074) with (1074 + e) by lia. rewrite Z.pow_add_r by lia.
    apply Z.div_unique with (2 ^ 1074); [lia|].
    change (2 ^ 1075) with (2 * 2 ^ 1074). ring.
  - assert (0 < 2 ^ (- e)) by (apply Z.pow_pos_nonneg; lia).
    assert (0 < 2 ^ (e + 1074)) by (apply Z.pow_pos_nonneg; lia).
    replace 1075 with (1 + 1074) by lia. rewrite (Z.pow_add_r 2 1 1074) by lia.
    replace (2 ^ 1074) with (2 ^ (- e) * 2 ^ (e + 1074)) by (rewrite <- Z.pow_add_r by lia; f_equal; lia).
    replace (2 * (Zpos m * 2 ^ (e + 1074)) + 2 ^ (- e) * 2 ^ (e + 1074))
      with ((2 * Zpos m + 2 ^ (- e)) * 2 ^ (e + 1074)) by ring.
    replace (2 ^ 1 * (2 ^ (- e) * 2 ^ (e + 1074))) with (2 * 2 ^ (- e) * 2 ^ (e + 1074)) by ring.
    by rewrite Z.div_mul_cancel_r by lia.
Qed.

(** A positive JavaScript number: canonical, finite, greater than 0. *)
Definition pos_num (x : jsnum) : Prop :=
  valid_binary 53 1024 x = true /\ isFinite x = true /\ nlt n0 x = true.

Lemma pos_num_fin x : pos_num x -> exists a, fin x a /\ 0 < a.
Proof. intros (Hv & Hf & Hp). by apply fin_of_pos. Qed.

Lemma fin_pos_num x a : fin x a -> 0 < a -> pos_num x.
Proof.
  intros Hx Ha. destruct (fin_zero_or x a Hx) as [[-> ->]|(m & e & -> & Hb & _)]; [lia|]. done.
Qed.

(** Anything up to 2^53, as a bound for exact integers and their quotients. *)
Lemma rnd_small A B : 0 <= A -> 0 < B -> A <= 2 ^ 1127 * B -> rnd A B < 2 ^ 2098.
Proof.
  intros HA HB Hle. eapply Z.le_lt_trans; [apply (rnd_mono A B (1 * 2 ^ 1127 * 1) 1); lia|].
  rewrite rnd_exact by lia. rewrite Z.mul_1_l. apply Z.pow_lt_mono_r; lia.
Qed.

(** A negative number, or -0, is below every positive one. *)
Lemma neg_nlt_pos x y r b : has_val x true r -> fin y b -> 0 < b -> nlt x y = true.
Proof.
  intros Hx Hy Hb. destruct (fin_zero_or y b Hy) as [[-> ->]|(m & e & -> & _)]; [lia|].
  destruct x as [s|s| |s m' e']; cbn in Hx; try done; destruct Hx as [-> ?]; done.
Qed.
