(* ===== verification/JsFormat.v ===== *)
(** * Numbers and strings

    [x.toFixed(f)], [String(x)], [Number(x.toFixed(f))] and [parseInt(s, 16)], with
    the rules of the language: [toFixed] takes the decimal nearest to the exact value
    of the double, the larger one when two are equally near; [String] takes the
    shortest decimal that reads back as the same double, and of those the nearest. *)

From S2P Require Import Prelude JsString JsNumber JsRound.

(** The exact value of a finite number, without its sign, as a fraction. *)
Definition num_frac (x : jsnum) : Z * Z :=
  match x with
  | S754_finite _ m e => if 0 <=? e then (Zpos m * 2 ^ e, 1) else (Zpos m, 2 ^ (- e))
  | _ => (0, 1)
  end.

Definition num_sign (x : jsnum) : bool :=
  match x with
  | S754_zero _ => false
  | S754_finite s _ _ | S754_infinity s => s
  | S754_nan => false
  end.

(** The double nearest to [s * 10^p]. *)
Definition decimal (s p : Z) : jsnum :=
  if 0 <=? p then num_of_Z (s * 10 ^ p)
  else match s, 10 ^ (- p) with
       | Zpos a, Zpos b => SFdiv 53 1024 (S754_finite false a 0) (S754_finite false b 0)
       | _, _ => n0
       end.

(** ** toFixed *)

(** The integer [n] with [n / 10^f] nearest to [|x|]. *)
Definition fixed_units (f : Z) (x : jsnum) : Z :=
  let '(n, d) := num_frac x in (2 * (n * 10 ^ f) + d) / (2 * d).

Definition fixed_string (f n : Z) : jsstr :=
  let d := padStart (f + 1) 48 (to_radix 10 n) in
  let k := Z.to_nat (zlen d - f) in
  take k d ++ (if 0 <? f then js "." else []) ++ drop k d.

(** ** String(x) *)

(** [n] with [10^(n-1) <= v < 10^n] for the value of [x]; [10^400] makes every
    positive double at least 1. *)
Definition dec_exponent (x : jsnum) : Z :=
  let '(n, d) := num_frac x in
  if d <=? n then zlen (to_radix 10 (n / d)) else zlen (to_radix 10 (n * 10 ^ 400 / d)) - 400.

(** The decimal of [k] digits nearest to [x], as digits and exponent. *)
Definition dec_digits (x : jsnum) (k : Z) : Z * Z :=
  let e := dec_exponent x in
  let '(n, d) := num_frac x in
  let p := k - e in
  let s := if 0 <=? p then (2 * (n * 10 ^ p) + d) / (2 * d)
           else (2 * n + 10 ^ (- p) * d) / (2 * (10 ^ (- p) * d)) in
  if s =? 10 ^ k then (10 ^ (k - 1), e + 1) else (s, e).

Fixpoint shortest (x : jsnum) (fuel : nat) (k : Z) : Z * Z * Z :=
  let '(s, n) := dec_digits x k in
  match fuel with
  | O => (s, n, k)
  | S fuel => if bool_decide (decimal s (n - k) = SFabs x) then (s, n, k) else shortest x fuel (k + 1)
  end.

Definition String_pos (x : jsnum) : jsstr :=
  let '(s, n, k) := shortest x 16 1 in
  let d := to_radix 10 s in
  if (k <=? n) && (n <=? 21) then d ++ replicate (Z.to_nat (n - k)) 48
  else if (0 <? n) && (n <=? 21) then take (Z.to_nat n) d ++ js "." ++ drop (Z.to_nat n) d
  else if (-6 <? n) && (n <=? 0) then js "0." ++ replicate (Z.to_nat (- n)) 48 ++ d
  else
    take 1 d ++ (if k =? 1 then [] else js "." ++ drop 1 d) ++ js "e"
    ++ (if 0 <=? n - 1 then js "+" else js "-") ++ to_radix 10 (Z.abs (n - 1)).

Definition num_String (x : jsnum) : jsstr :=
  match x with
  | S754_nan => js "NaN"
  | S754_infinity s => if s then js "-Infinity" else js "Infinity"
  | S754_zero _ => js "0"
  | S754_finite s _ _ => (if s then js "-" else []) ++ String_pos x
  end.

Definition toFixed (f : Z) (x : jsnum) : jsstr :=
  match x with
  | S754_finite s _ _ =>
      if (let '(n, d) := num_frac x in 10 ^ 21 * d <=? n) then num_String x
      else (if s then js "-" else []) ++ fixed_string f (fixed_units f x)
  | S754_zero _ => fixed_string f 0
  | _ => num_String x
  end.

(** [Number(x.toFixed(f))], for a finite [x] below [10^21]. *)
Definition fixed_number (f : Z) (x : jsnum) : jsnum :=
  let v := decimal (fixed_units f x) (- f) in
  if num_sign x then SFopp v else v.

(** [parseInt(s, 16)], a double: [None] is [NaN]. *)
Definition parseInt16 (s : jsstr) : option jsnum := num_of_Z <$> parseIntHex s.
