(* ===== verification/Effects.v ===== *)
(** * Code that updates state and may throw

    What was assigned before an exception stays assigned, so a computation returns
    the state together with its result or its exception. *)

From S2P Require Import Prelude.

Definition eff (S A : Type) : Type := S -> res A * S.

#[global] Instance eff_ret {S} : MRet (eff S) := fun A a s => (Ok a, s).
#[global] Instance eff_bind {S} : MBind (eff S) := fun A B f m s =>
  match m s with
  | (Ok a, s) => f a s
  | (Throw e, s) => (Throw e, s)
  end.

Section Eff.
Context {S : Type}.
Implicit Types A B : Type.

Definition get : eff S S := fun s => (Ok s, s).
Definition modify (f : S -> S) : eff S unit := fun s => (Ok tt, f s).
Definition throw {A} (e : string) : eff S A := fun s => (Throw e, s).
(** A pure computation that may throw. *)
Definition lift {A} (r : res A) : eff S A := fun s => (r, s).
(** [try { m } catch (e) { h(e) }]. *)
Definition try_catch {A} (m : eff S A) (h : string -> eff S A) : eff S A := fun s =>
  match m s with
  | (Ok a, s) => (Ok a, s)
  | (Throw e, s) => h e s
  end.
(** [if (b) m]. *)
Definition when (b : bool) (m : eff S unit) : eff S unit := if b then m else mret tt.

Fixpoint for_each {A} (f : A -> eff S unit) (l : list A) : eff S unit :=
  match l with
  | [] => mret tt
  | x :: l => _ ← f x; for_each f l
  end.

(** The items that [for_each] gets to, each with the state it is handled in. *)
Fixpoint visits {A} (f : A -> eff S unit) (l : list A) (s : S) : list (A * S) :=
  match l with
  | [] => []
  | x :: l => (x, s) :: match f x s with (Ok _, s') => visits f l s' | (Throw _, _) => [] end
  end.

(** A relation between states that every computation of a kind respects, exceptions
    included: what the handlers of a component keep. *)
Definition keeps (R : S -> S -> Prop) {A} (m : eff S A) : Prop := forall s, R s (m s).2.

Section Keeps.
Context (R : S -> S -> Prop) `{!Reflexive R} `{!Transitive R}.

Lemma keeps_ret {A} (a : A) : keeps R (mret a).
Proof. intros s. cbn. reflexivity. Qed.
Lemma keeps_throw {A} e : keeps R (throw (A := A) e).
Proof. intros s. cbn. reflexivity. Qed.
Lemma keeps_lift {A} (r : res A) : keeps R (lift r).
Proof. intros s. cbn. reflexivity. Qed.
Lemma keeps_get : keeps R get.
Proof. intros s. cbn. reflexivity. Qed.
Lemma keeps_modify f : (forall s, R s (f s)) -> keeps R (modify f).
Proof. intros Hf s. apply Hf. Qed.
Lemma keeps_bind {A B} (m : eff S A) (f : A -> eff S B) :
  keeps R m -> (forall a, keeps R (f a)) -> keeps R (m ≫= f).
Proof.
  intros Hm Hf s. unfold mbind, eff_bind. specialize (Hm s). destruct (m s) as [[a|e] s']; cbn in *; [|done].
  etransitivity; [exact Hm|apply Hf].
Qed.
Lemma keeps_bind_lift {A B} (r : res A) (f : A -> eff S B) :
  (forall a, r = Ok a -> keeps R (f a)) -> keeps R (lift r ≫= f).
Proof. intros Hf s. unfold mbind, eff_bind, lift. destruct r; [by apply Hf|]. cbn. reflexivity. Qed.
Lemma keeps_try {A} (m : eff S A) h : keeps R m -> (forall e, keeps R (h e)) -> keeps R (try_catch m h).
Proof.
  intros Hm Hh s. unfold try_catch. specialize (Hm s). destruct (m s) as [[a|e] s']; cbn in *; [done|].
  etransitivity; [exact Hm|apply Hh].
Qed.
Lemma keeps_when b m : keeps R m -> keeps R (when b m).
Proof. intros Hm. destruct b; [done|apply keeps_ret]. Qed.
Lemma keeps_for_each {A} (f : A -> eff S unit) l : (forall a, keeps R (f a)) -> keeps R (for_each f l).
Proof. intros Hf. induction l as [|x l IH]; cbn; [apply keeps_ret|]. apply keeps_bind; [apply Hf|done]. Qed.
(** It is enough to look at what is visited. *)
Lemma for_each_visits {A} (f : A -> eff S unit) l s :
  (forall x s', (x, s') ∈ visits f l s -> R s' (f x s').2) -> R s (for_each f l s).2.
Proof.
  revert s. induction l as [|x l IH]; intros s Hv; cbn [for_each]; [cbn; reflexivity|]. unfold mbind, eff_bind.
  pose proof (Hv x s ltac:(left)) as Hx. cbn [visits] in Hv. destruct (f x s) as [[u|e] s1] eqn:E; cbn [snd] in *; [|done].
  etransitivity; [exact Hx|]. apply IH. intros y s' Hy. apply Hv. by right.
Qed.
End Keeps.
End Eff.

Create HintDb keeps.
#[export] Hint Resolve keeps_ret keeps_throw keeps_lift keeps_get keeps_bind keeps_try keeps_when keeps_for_each : keeps.

(** Run the operations of the monad that are at the head. *)
Ltac eff_simpl := unfold mbind, eff_bind, mret, eff_ret, get, modify, throw, lift; cbv beta iota.
