(* ===== verification/Json.v ===== *)
(** * JSON values

    The values [JSON.parse] produces and what the language does with them where the
    code expects something more specific: property and index access, [String(v)],
    [Number(v)], destructuring.  [JUndef] is [undefined], which access produces. *)

From S2P Require Import Prelude JsString JsMap JsNumber JsRound JsFormat.

Inductive jval :=
| JUndef
| JNull
| JBool (b : bool)
| JNum (x : jsnum)
| JStr (s : jsstr)
| JArr (l : list jval)
| JObj (l : list (jsstr * jval)).

Definition nullish (v : jval) : bool := match v with JUndef | JNull => true | _ => false end.
(** [a ?? b]. *)
Definition coalesce (a b : jval) : jval := if nullish a then b else a.

(** ** Decimal literals *)

(** The value of the leading decimal digits after [acc], how many there are, the rest. *)
Fixpoint take_digits (s : jsstr) (acc n : Z) : Z * Z * jsstr :=
  match s with
  | c :: s' => if (48 <=? c) && (c <=? 57) then take_digits s' (10 * acc + (c - 48)) (n + 1) else (acc, n, s)
  | [] => (acc, n, [])
  end.

(** An exponent part: its value, [None] when it has no digits, the rest. *)
Definition exponent (s : jsstr) : option Z * jsstr :=
  match s with
  | c :: s1 =>
      if (c =? 101) || (c =? 69) then
        let '(neg, s2) := match s1 with
          | d :: t => if d =? 45 then (true, t) else if d =? 43 then (false, t) else (false, s1)
          | [] => (false, s1)
          end in
        let '(e, n, rest) := take_digits s2 0 0 in
        if n =? 0 then (None, s) else (Some (if neg : bool then - e else e), rest)
      else (Some 0, s)
  | [] => (Some 0, s)
  end.

(** The double nearest to [m * 10^p]. *)
Definition dec_value (neg : bool) (m p : Z) : jsnum :=
  let v := if m =? 0 then n0
           else if 400 <? p + zlen (digits 10 m) then S754_infinity false
           else if p + zlen (digits 10 m) <? -400 then n0
           else decimal m p in
  if neg then SFopp v else v.

(** Digits, an optional fraction, an optional exponent: mantissa, exponent, rest.  [None]
    when there is no digit. *)
Definition dec_unsigned (s : jsstr) : option (Z * Z * jsstr) :=
  let '(a, na, s1) := take_digits s 0 0 in
  let '(b, nb, s2) := match s1 with
    | c :: t => if c =? 46 then take_digits t a 0 else (a, 0, s1)
    | [] => (a, 0, s1)
    end in
  if na + nb =? 0 then None
  else match exponent s2 with
       | (Some e, s3) => Some (b, e - nb, s3)
       | (None, _) => Some (b, - nb, s2)
       end.

Definition split_sign (s : jsstr) : bool * jsstr :=
  match s with
  | c :: t => if c =? 45 then (true, t) else if c =? 43 then (false, t) else (false, s)
  | [] => (false, s)
  end.

(** All of [s] as digits in base [b]. *)
Definition digit_val (b c : Z) : option Z :=
  match hex_val c with Some d => if d <? b then Some d else None | None => None end.
Fixpoint radix_value (b : Z) (s : jsstr) (acc : Z) : option Z :=
  match s with
  | [] => Some acc
  | c :: s => d ← digit_val b c; radix_value b s (b * acc + d)
  end.

(** [Number(s)] of a string. *)
Definition Number_str (s : jsstr) : jsnum :=
  let s := trim s in
  match s with
  | [] => n0
  | c :: x :: t =>
      let base := if (x =? 120) || (x =? 88) then 16 else if (x =? 111) || (x =? 79) then 8
                  else if (x =? 98) || (x =? 66) then 2 else 10 in
      if (c =? 48) && negb (base =? 10) then
        match t with
        | [] => S754_nan
        | _ => match radix_value base t 0 with Some v => num_of_Z v | None => S754_nan end
        end
      else
        let '(neg, u) := split_sign s in
        if bool_decide (u = js "Infinity") then S754_infinity neg
        else match dec_unsigned u with Some (m, p, []) => dec_value neg m p | _ => S754_nan end
  | _ => match dec_unsigned s with Some (m, p, []) => dec_value false m p | _ => S754_nan end
  end.

(** [parseFloat(s)]: the longest prefix that is a decimal literal. *)
Definition parseFloat (s : jsstr) : jsnum :=
  let '(neg, u) := split_sign (trimStart s) in
  if startsWith (js "Infinity") u then S754_infinity neg
  else match dec_unsigned u with Some (m, p, _) => dec_value neg m p | None => S754_nan end.

(** [parseInt(s, 10)]. *)
Definition parseInt10 (s : jsstr) : option Z :=
  let '(neg, u) := split_sign (trimStart s) in
  let '(v, n, _) := take_digits u 0 0 in
  if n =? 0 then None else Some (if neg : bool then - v else v).

(** ** Conversions *)

(** [String(v)].  An object has the string of [Object.prototype], unless it has a member
    that hides [toString], which is then not callable. *)
Fixpoint String (v : jval) : res jsstr :=
  match v with
  | JUndef => Ok (js "undefined")
  | JNull => Ok (js "null")
  | JBool b => Ok (if b then js "true" else js "false")
  | JNum x => Ok (num_String x)
  | JStr s => Ok s
  | JArr l =>
      (fix join (l : list jval) (first : bool) : res jsstr :=
         match l with
         | [] => Ok []
         | x :: l =>
             s ← (match x with JUndef | JNull => Ok [] | _ => String x end);
             rest ← join l false;
             Ok ((if first then [] else js ",") ++ s ++ rest)
         end) l true
  | JObj l => if map_has (js "toString") l then Throw "Cannot convert object to primitive value" else Ok (js "[object Object]")
  end.

(** [Number(v)]. *)
Definition Number (v : jval) : res jsnum :=
  match v with
  | JUndef => Ok S754_nan
  | JNull => Ok n0
  | JBool b => Ok (if b then n1 else n0)
  | JNum x => Ok x
  | JStr s => Ok (Number_str s)
  | JArr _ | JObj _ => s ← String v; Ok (Number_str s)
  end.

(** [v.key], for a key that no prototype has. *)
Definition prop_of (v : jval) (key : jsstr) : res jval :=
  match v with
  | JUndef | JNull => Throw "Cannot read properties of null or undefined"
  | JObj l => Ok (default JUndef (map_get key l))
  | _ => Ok JUndef
  end.

(** [v[i]]. *)
Definition index_of (v : jval) (i : Z) : res jval :=
  match v with
  | JUndef | JNull => Throw "Cannot read properties of null or undefined"
  | JArr l => Ok (default JUndef (l !! Z.to_nat i))
  | JStr s => Ok (match s !! Z.to_nat i with Some c => JStr [c] | None => JUndef end)
  | JObj l => Ok (default JUndef (map_get (to_radix 10 i) l))
  | _ => Ok JUndef
  end.

(** The code points of a string, each as a string. *)
Fixpoint str_points (s : jsstr) : list jsstr :=
  match s with
  | [] => []
  | c :: s' =>
      match s' with
      | d :: s'' => if is_hi c && is_lo d then [c; d] :: str_points s'' else [c] :: str_points s'
      | [] => [[c]]
      end
  end.

(** The elements array destructuring takes. *)
Definition iterate (v : jval) : res (list jval) :=
  match v with
  | JArr l => Ok l
  | JStr s => Ok (JStr <$> str_points s)
  | _ => Throw "object is not iterable"
  end.

(** ** Parsing *)
Definition json_ws (c : Z) : bool := (c =? 32) || (c =? 9) || (c =? 10) || (c =? 13).
Fixpoint skip_ws (s : jsstr) : jsstr :=
  match s with c :: s' => if json_ws c then skip_ws s' else s | [] => [] end.

(** The contents of a string literal after its opening quote. *)
Fixpoint json_string (s : jsstr) (acc : jsstr) : option (jsstr * jsstr) :=
  match s with
  | [] => None
  | c :: s =>
      if c =? 34 then Some (reverse acc, s)
      else if c =? 92 then
        match s with
        | [] => None
        | e :: s =>
            if (e =? 34) || (e =? 92) || (e =? 47) then json_string s (e :: acc)
            else if e =? 98 then json_string s (8 :: acc)
            else if e =? 102 then json_string s (12 :: acc)
            else if e =? 110 then json_string s (10 :: acc)
            else if e =? 114 then json_string s (13 :: acc)
            else if e =? 116 then json_string s (9 :: acc)
            else if e =? 117 then
              match s with
              | a :: b :: c :: d :: s =>
                  match radix_value 16 [a; b; c; d] 0 with
                  | Some v => json_string s (v :: acc)
                  | None => None
                  end
              | _ => None
              end
            else None
        end
      else if c <? 32 then None
      else json_string s (c :: acc)
  end.

Definition json_number (s : jsstr) : option (jsnum * jsstr) :=
  let '(neg, u) := match s with c :: t => if c =? 45 then (true, t) else (false, s) | [] => (false, s) end in
  let '(a, na, s1) := take_digits u 0 0 in
  if (na =? 0) || ((1 <? na) && bool_decide (head u = Some 48)) then None
  else
    match (match s1 with
           | c :: t => if c =? 46 then
                         let '(b, nb, s2) := take_digits t a 0 in
                         if nb =? 0 then None else Some (b, nb, s2)
                       else Some (a, 0, s1)
           | [] => Some (a, 0, s1)
           end) with
    | None => None
    | Some (b, nb, s2) =>
        match exponent s2 with
        | (Some e, s3) => Some (dec_value neg b (e - nb), s3)
        | (None, _) => None
        end
    end.

(** A value; every call consumes a code unit, so the length of the text is enough fuel. *)
Fixpoint json_value (fuel : nat) (s : jsstr) : option (jval * jsstr) :=
  match fuel with
  | O => None
  | S fuel =>
      let members := fix members (n : nat) (s : jsstr) (acc : list (jsstr * jval)) : option (jval * jsstr) :=
        match n with
        | O => None
        | S n =>
            match skip_ws s with
            | 34 :: s =>
                '(k, s) ← json_string s [];
                match skip_ws s with
                | 58 :: s =>
                    '(v, s) ← json_value fuel s;
                    let acc := map_set k v acc in
                    match skip_ws s with
                    | 44 :: s => members n s acc
                    | 125 :: s => Some (JObj acc, s)
                    | _ => None
                    end
                | _ => None
                end
            | _ => None
            end
        end in
      let elements := fix elements (n : nat) (s : jsstr) (acc : list jval) : option (jval * jsstr) :=
        match n with
        | O => None
        | S n =>
            '(v, s) ← json_value fuel s;
            match skip_ws s with
            | 44 :: s => elements n s (v :: acc)
            | 93 :: s => Some (JArr (reverse (v :: acc)), s)
            | _ => None
            end
        end in
      let s := skip_ws s in
      match s with
      | [] => None
      | c :: t =>
          if c =? 123 then
            match skip_ws t with
            | 125 :: t => Some (JObj [], t)
            | _ => members (S (length t)) t []
            end
          else if c =? 91 then
            match skip_ws t with
            | 93 :: t => Some (JArr [], t)
            | _ => elements (S (length t)) t []
            end
          else if c =? 34 then '(x, t) ← json_string t []; Some (JStr x, t)
          else if startsWith (js "null") s then Some (JNull, drop 4 s)
          else if startsWith (js "true") s then Some (JBool true, drop 4 s)
          else if startsWith (js "false") s then Some (JBool false, drop 5 s)
          else '(x, t) ← json_number s; Some (JNum x, t)
      end
  end.

Definition JSON_parse (s : jsstr) : res jval :=
  match json_value (S (length s)) s with
  | Some (v, rest) => match skip_ws rest with [] => Ok v | _ => Throw "SyntaxError" end
  | None => Throw "SyntaxError"
  end.
