(* ===== verification/Header.v ===== *)
(** * Block headers and byte helpers ([pool/src/lib/header.ts])

    Hexadecimal and little-endian conversions, the 80-byte block header, the
    merkle fold and [varInt].  [sha256] is [@noble/hashes]'s function and enters
    as the class [Sha256]; [Sha256Ok] is its documented output format. *)

From S2P Require Import Prelude JsString.

Class Sha256 := sha256 : bytes -> bytes.
Class Sha256Ok `{Sha256} : Prop := {
  sha256_zlen : forall b, zlen (sha256 b) = 32;
  sha256_bytes : forall b, bytes_ok (sha256 b)
}.

(** ** Hexadecimal *)

(** The loop of [hexToBytes]: [parseInt] of two characters, stored in a byte
    ([NaN] is stored as 0, a negative number wraps). *)
Fixpoint hex_pairs (s : jsstr) : bytes :=
  match s with
  | a :: b :: s => default 0 (parseIntHex [a; b]) mod 256 :: hex_pairs s
  | _ => []
  end.

Definition hexToBytes (hex : jsstr) : res bytes :=
  let clean := if startsWith (js "0x") hex then drop 2 hex else hex in
  _ ← throw_if (negb (zlen clean mod 2 =? 0)) "odd-length hex";
  Ok (hex_pairs clean).

Definition bytesToHex (b : bytes) : jsstr :=
  b ≫= fun x => padStart 2 48 (to_radix 16 x).

Definition reverseBytes (b : bytes) : bytes := reverse b.

(** ** Integers *)
Definition uint32LE (n : Z) : bytes := le_bytes 4 (to_u32 n).
Definition int32LE (n : Z) : bytes := le_bytes 4 (to_i32 n).

Definition uint32FromLEHex (h : jsstr) : res Z :=
  b ← hexToBytes h;
  _ ← throw_if (zlen b <? 4) "Offset is outside the bounds of the DataView";
  Ok (le_val (slice 0 4 b)).

Definition varInt (n : Z) : bytes :=
  if n <? 253 then [n mod 256]
  else if n <=? 65535 then 253 :: le_bytes 2 n
  else if n <=? 4294967295 then 254 :: le_bytes 4 n
  else 255 :: le_bytes 8 n.

(** [concatBytes]: one buffer of the total length, filled left to right. *)
Definition concatBytes (arrs : list bytes) : res bytes :=
  let total := foldl (fun t a => t + zlen a) 0 arrs in
  r ← res_foldl (fun '(out, off) a =>
        out ← ta_set out a off; Ok (out, off + zlen a)) (zeros total, 0) arrs;
  Ok (fst r).

(** ** The header *)
Record HeaderInput := {
  version : Z;
  prevHashHexBE : jsstr;
  merkleRootHexBE : jsstr;
  ntime : Z;
  bits : Z;
  nonce : Z
}.

Definition serializeHeader (h : HeaderInput) : res bytes :=
  p ← hexToBytes (prevHashHexBE h);
  m ← hexToBytes (merkleRootHexBE h);
  let prev := reverseBytes p in
  let merkle := reverseBytes m in
  _ ← throw_if (negb (zlen prev =? 32)) "prevHash must be 32 bytes";
  _ ← throw_if (negb (zlen merkle =? 32)) "merkleRoot must be 32 bytes";
  out ← ta_set (zeros 80) (int32LE (version h)) 0;
  out ← ta_set out prev 4;
  out ← ta_set out merkle 36;
  out ← ta_set out (uint32LE (ntime h)) 68;
  out ← ta_set out (uint32LE (bits h)) 72;
  ta_set out (uint32LE (nonce h)) 76.

(** The node's side: the fields in the order in which [CBlockHeader] reads
    them, the two hashes in the byte order of the wire. *)
Record CBlockHeader := {
  nVersion : Z;
  hashPrevBlock : bytes;
  hashMerkleRoot : bytes;
  nTime : Z;
  nBits : Z;
  nNonce : Z
}.

Definition unserialize (b : bytes) : CBlockHeader := {|
  nVersion := to_i32 (le_val (slice 0 4 b));
  hashPrevBlock := slice 4 36 b;
  hashMerkleRoot := slice 36 68 b;
  nTime := le_val (slice 68 72 b);
  nBits := le_val (slice 72 76 b);
  nNonce := le_val (slice 76 80 b)
|}.

(** ** Transaction ids and the merkle fold *)
Section Merkle.
Context `{Sha256}.

Definition doubleSha256 (b : bytes) : bytes := sha256 (sha256 b).

Definition coinbaseTxId (coinbase : bytes) : bytes := doubleSha256 coinbase.

Definition computeMerkleRoot (coinbaseTxIdLE : bytes) (branchesHexBE : list jsstr) : res bytes :=
  res_foldl (fun cur br =>
    b ← hexToBytes br;
    let brLE := reverseBytes b in
    combined ← ta_set (zeros 64) cur 0;
    combined ← ta_set combined brLE 32;
    Ok (doubleSha256 combined)) coinbaseTxIdLE branchesHexBE.
End Merkle.

(** ** Hexadecimal: lemmas *)
Lemma hex_pairs_zlen s : zlen s mod 2 = 0 -> 2 * zlen (hex_pairs s) = zlen s.
Proof.
  assert (forall n s, (length s <= n)%nat -> (length s mod 2 = 0)%nat ->
    (2 * length (hex_pairs s) = length s)%nat) as Hn.
  { induction n as [|n IH]; intros [|a [|b s']] Hl Hm; cbn [length hex_pairs] in *;
      try done; try lia.
    replace (S (S (length s'))) with (length s' + 1 * 2)%nat in Hm by lia.
    rewrite Nat.Div0.mod_add in Hm. specialize (IH s' ltac:(lia) Hm). lia. }
  intros Hm. specialize (Hn (length s) s (le_n _)). unfold zlen in *.
  change 2 with (Z.of_nat 2) in Hm. rewrite <- Nat2Z.inj_mod in Hm. lia.
Qed.

Lemma hex_pairs_ok s : bytes_ok (hex_pairs s).
Proof.
  assert (forall n s, (length s <= n)%nat -> bytes_ok (hex_pairs s)) as Hn; [|by eapply Hn].
  induction n as [|n IH]; intros [|a [|b s']] Hl; cbn [length hex_pairs] in *;
    try by constructor; try lia.
  constructor; [|apply IH; lia]. apply Z.mod_pos_bound. lia.
Qed.

Lemma hexToBytes_bytes h b : hexToBytes h = Ok b -> bytes_ok b.
Proof. unfold hexToBytes. intros. inv_ok. apply hex_pairs_ok. Qed.
#[export] Hint Resolve hex_pairs_ok hexToBytes_bytes : pool.

Lemma bytesToHex_cons x b :
  bytesToHex (x :: b) = padStart 2 48 (to_radix 16 x) ++ bytesToHex b.
Proof. done. Qed.

Lemma byte_hex_two x : is_byte x ->
  exists c d, padStart 2 48 (to_radix 16 x) = [c; d] /\
    is_hex_char c = true /\ is_hex_char d = true /\ parseIntHex [c; d] = Some x.
Proof.
  intros Hx. pose proof (padStart_hex_length 2 x ltac:(unfold is_byte in Hx; lia) ltac:(lia)) as Hl.
  pose proof (parseInt_hex_roundtrip 2 x ltac:(unfold is_byte in Hx; lia)) as Hp.
  assert (Forall (fun c => is_hex_char c = true) (padStart 2 48 (to_radix 16 x))) as Hc.
  { apply padStart_chars. unfold to_radix. unfold is_byte in Hx.
    rewrite (proj2 (Z.ltb_ge x 0)) by lia. apply digits_chars. lia. }
  destruct (padStart 2 48 (to_radix 16 x)) as [|c [|d [|e l]]]; unfold zlen in Hl; cbn in Hl; try lia.
  apply Forall_cons in Hc as [Hc1 Hc]. apply Forall_cons in Hc as [Hc2 _]. eauto 10.
Qed.

Lemma hex_pairs_bytesToHex b : bytes_ok b -> hex_pairs (bytesToHex b) = b.
Proof.
  induction 1 as [|x b Hx Hb IH]; [done|]. rewrite bytesToHex_cons.
  destruct (byte_hex_two x Hx) as (c & d & -> & _ & _ & Hp).
  cbn [app hex_pairs]. rewrite Hp, IH. cbn [from_option id].
  unfold is_byte in Hx. by rewrite Z.mod_small by lia.
Qed.

Lemma bytesToHex_zlen b : bytes_ok b -> zlen (bytesToHex b) = 2 * zlen b.
Proof.
  induction 1 as [|x b Hx Hb IH]; [done|]. rewrite bytesToHex_cons, zlen_app, IH, zlen_cons.
  destruct (byte_hex_two x Hx) as (c & d & -> & _). unfold zlen at 1. cbn. lia.
Qed.

Lemma bytesToHex_no_0x b : bytes_ok b -> startsWith (js "0x") (bytesToHex b) = false.
Proof.
  intros Hb. apply bool_decide_false. destruct Hb as [|x b Hx Hb]; [done|].
  rewrite bytesToHex_cons.
  destruct (byte_hex_two x Hx) as (c & d & -> & _ & Hd & _). cbn.
  intros [= -> ->]. done.
Qed.

Lemma hexToBytes_bytesToHex b : bytes_ok b -> hexToBytes (bytesToHex b) = Ok b.
Proof.
  intros Hb. unfold hexToBytes. rewrite bytesToHex_no_0x, bytesToHex_zlen by done.
  rewrite Z.mul_comm, Z.mod_mul by lia. cbn. by rewrite hex_pairs_bytesToHex.
Qed.

Lemma hexToBytes_zlen h b : hexToBytes h = Ok b ->
  2 * zlen b = zlen (if startsWith (js "0x") h then drop 2 h else h).
Proof.
  unfold hexToBytes. set (c := if startsWith _ _ then _ else _). clearbody c.
  destruct (Z.eqb_spec (zlen c mod 2) 0); cbn; [|done].
  intros [= <-]. by apply hex_pairs_zlen.
Qed.

(** ** Buffers: lemmas *)
Lemma reverseBytes_zlen b : zlen (reverseBytes b) = zlen b.
Proof. apply zlen_reverse. Qed.
Lemma uint32LE_zlen n : zlen (uint32LE n) = 4.
Proof. apply le_bytes_zlen. Qed.
Lemma int32LE_zlen n : zlen (int32LE n) = 4.
Proof. apply le_bytes_zlen. Qed.
Lemma uint32LE_ok n : bytes_ok (uint32LE n).
Proof. apply le_bytes_ok. Qed.
Lemma int32LE_ok n : bytes_ok (int32LE n).
Proof. apply le_bytes_ok. Qed.
#[export] Hint Rewrite reverseBytes_zlen uint32LE_zlen int32LE_zlen : pool_simp.
#[export] Hint Resolve uint32LE_ok int32LE_ok : pool.

Lemma uint32LE_val n : le_val (uint32LE n) = to_u32 n.
Proof. unfold uint32LE. rewrite le_val_bytes. apply to_u32_idemp. Qed.

Lemma int32LE_val n : to_i32 (le_val (int32LE n)) = to_i32 n.
Proof.
  unfold int32LE. rewrite le_val_bytes. change (2 ^ (8 * Z.of_nat 4)) with (2 ^ 32).
  change (to_i32 (to_u32 (to_i32 n)) = to_i32 n). rewrite to_i32_u32.
  unfold to_i32, to_u32. by rewrite Z.mod_mod by lia.
Qed.

Lemma uint32LE_inj n m : uint32LE n = uint32LE m <-> to_u32 n = to_u32 m.
Proof.
  split; [|unfold uint32LE; by intros ->].
  intros H. rewrite <- uint32LE_val, H. apply uint32LE_val.
Qed.

Lemma bconcat_cons a l : bconcat (a :: l) = a ++ bconcat l.
Proof. done. Qed.

Lemma foldl_zlen arrs t : foldl (fun t (a : bytes) => t + zlen a) t arrs = t + zlen (bconcat arrs).
Proof.
  revert t; induction arrs as [|a arrs IH]; intros t; cbn [foldl].
  - change (zlen (bconcat [])) with 0. lia.
  - rewrite IH, bconcat_cons, zlen_app. lia.
Qed.

(** Filling the buffer of the total length concatenates the arguments. *)
Lemma concatBytes_ok arrs : concatBytes arrs = Ok (bconcat arrs).
Proof.
  unfold concatBytes. rewrite foldl_zlen, Z.add_0_l.
  assert (forall p n, n = zlen (bconcat arrs) ->
    res_foldl (fun '(out, off) a => out ← ta_set out a off; Ok (out, off + zlen a))
      (p ++ zeros n, zlen p) arrs = Ok (p ++ bconcat arrs, zlen p + zlen (bconcat arrs))) as Hg.
  { induction arrs as [|a arrs IH]; intros p n ->; cbn [res_foldl].
    - change (zlen (bconcat [])) with 0. by rewrite Z.add_0_r.
    - rewrite bconcat_cons.
      rewrite (ta_set_ok _ a _ p (zeros (zlen a)) (zeros (zlen (bconcat arrs)))); [|  |done|].
      + pool_simpl. rewrite app_assoc, <- zlen_app, IH by done.
        rewrite <- app_assoc, !zlen_app. do 2 f_equal. lia.
      + f_equal. unfold zeros. rewrite <- replicate_add. f_equal. rewrite zlen_app.
        pose proof (zlen_nonneg a). pose proof (zlen_nonneg (bconcat arrs)). lia.
      + by rewrite zlen_zeros by apply zlen_nonneg. }
  specialize (Hg [] _ eq_refl). change (zlen (@nil Z)) with 0 in Hg. cbn [app] in Hg.
  rewrite Hg. done.
Qed.
#[export] Hint Rewrite concatBytes_ok : pool_simp.

(** ** The header: lemmas *)
Definition header_layout (h : HeaderInput) (p m : bytes) : bytes :=
  int32LE (version h) ++ reverseBytes p ++ reverseBytes m ++
  uint32LE (ntime h) ++ uint32LE (bits h) ++ uint32LE (nonce h).

Lemma header_layout_zlen h p m : zlen p = 32 -> zlen m = 32 -> zlen (header_layout h p m) = 80.
Proof. intros Hp Hm. unfold header_layout. autorewrite with pool_simp. lia. Qed.

(** The six writes tile the 80 bytes. *)
Lemma serializeHeader_ok h p m :
  hexToBytes (prevHashHexBE h) = Ok p -> hexToBytes (merkleRootHexBE h) = Ok m ->
  zlen p = 32 -> zlen m = 32 -> serializeHeader h = Ok (header_layout h p m).
Proof.
  intros Hp Hm Lp Lm. unfold serializeHeader. rewrite Hp, Hm. pool_simpl.
  rewrite !reverseBytes_zlen, Lp, Lm. pool_simpl.
  assert (forall n src, 0 <= n -> zlen src = n -> forall p off k, zlen p = off -> n <= k ->
    ta_set (p ++ zeros k) src off = Ok ((p ++ src) ++ zeros (k - n))) as Hset.
  { intros n src Hn Hs q off k Hq Hk.
    rewrite (ta_set_ok _ src off q (zeros n) (zeros (k - n))); [|  |done|].
    - by rewrite app_assoc.
    - f_equal. unfold zeros. rewrite <- replicate_add. f_equal. lia.
    - by rewrite zlen_zeros by lia. }
  change (zeros 80) with ([] ++ zeros 80).
  rewrite (Hset 4 _ ltac:(lia) (int32LE_zlen _) [] 0) by (done || lia). pool_simpl.
  repeat (first
    [ rewrite (Hset 32 (reverseBytes _)) by (autorewrite with pool_simp; try rewrite zlen_app; lia)
    | rewrite (Hset 4 (uint32LE _)) by (autorewrite with pool_simp; try rewrite zlen_app; lia)];
    pool_simpl).
  f_equal. unfold header_layout. rewrite <- !app_assoc. cbn [app].
  change (zeros _) with (@nil Z). by rewrite app_nil_r.
Qed.

Lemma serializeHeader_inv h b : serializeHeader h = Ok b -> exists p m,
  hexToBytes (prevHashHexBE h) = Ok p /\ hexToBytes (merkleRootHexBE h) = Ok m /\ zlen p = 32 /\ zlen m = 32 /\ b = header_layout h p m.
Proof.
  intros E. destruct (hexToBytes (prevHashHexBE h)) as [p|] eqn:Ep; [|by unfold serializeHeader in E; rewrite Ep in E].
  destruct (hexToBytes (merkleRootHexBE h)) as [m|] eqn:Em; [|by unfold serializeHeader in E; rewrite Ep, Em in E].
  assert (zlen p = 32 /\ zlen m = 32) as [Lp Lm].
  { unfold serializeHeader in E. rewrite Ep, Em in E. cbn [mbind res_bind] in E. rewrite !reverseBytes_zlen in E.
    destruct (Z.eqb_spec (zlen p) 32); [|done]. by destruct (Z.eqb_spec (zlen m) 32). }
  rewrite (serializeHeader_ok h p m Ep Em Lp Lm) in E. injection E as <-. by exists p, m.
Qed.

Lemma unserialize_layout h p m : zlen p = 32 -> zlen m = 32 ->
  unserialize (header_layout h p m) = {|
    nVersion := to_i32 (version h); hashPrevBlock := reverse p; hashMerkleRoot := reverse m;
    nTime := to_u32 (ntime h); nBits := to_u32 (bits h); nNonce := to_u32 (nonce h) |}.
Proof.
  intros Lp Lm. unfold unserialize, header_layout. set (v := int32LE _).
  assert (zlen v = 4) as Lv by apply int32LE_zlen.
  assert (forall (pre l k : bytes) i j, i = zlen pre -> j = zlen pre + zlen l ->
    slice i j (pre ++ l ++ k) = l) as Hs by (intros; by apply slice_app_mid).
  rewrite (slice_app_l v) by lia. unfold v at 1. rewrite int32LE_val.
  rewrite (Hs v (reverseBytes p)) by (autorewrite with pool_simp; lia).
  rewrite (app_assoc v), (Hs _ (reverseBytes m)) by (autorewrite with pool_simp; lia).
  rewrite (app_assoc _ (reverseBytes m)), (Hs _ (uint32LE (ntime h)))
    by (autorewrite with pool_simp; lia).
  rewrite (app_assoc _ (uint32LE (ntime h))), (Hs _ (uint32LE (bits h)))
    by (autorewrite with pool_simp; lia).
  rewrite (app_assoc _ (uint32LE (bits h))), <- (app_nil_r (uint32LE (nonce h))),
    (Hs _ (uint32LE (nonce h))) by (autorewrite with pool_simp; lia).
  by rewrite !uint32LE_val.
Qed.

(** ** Properties *)

(** [hexToBytes] undoes [bytesToHex] on every byte string. *)
Theorem hex_roundtrip b : bytes_ok b -> hexToBytes (bytesToHex b) = Ok b.
Proof. apply hexToBytes_bytesToHex. Qed.

Lemma hex_roundtrip_witness : hexToBytes (bytesToHex [0; 1; 171; 255]) = Ok [0; 1; 171; 255].
Proof. apply hex_roundtrip. repeat constructor; done. Defined.

(** [serializeHeader] writes exactly the 80 bytes from which the node's
    [CBlockHeader] reads back the given fields (32-bit fields modulo 2^32, hashes
    byte-reversed), and it throws precisely when one of the hashes is not 32
    bytes, the previous hash being tested first. *)
Theorem serializeHeader_unserialize h p m :
  hexToBytes (prevHashHexBE h) = Ok p -> hexToBytes (merkleRootHexBE h) = Ok m ->
  match serializeHeader h with
  | Ok out =>
      zlen p = 32 /\ zlen m = 32 /\ zlen out = 80 /\ bytes_ok out /\
      unserialize out = {|
        nVersion := to_i32 (version h); hashPrevBlock := reverse p;
        hashMerkleRoot := reverse m; nTime := to_u32 (ntime h);
        nBits := to_u32 (bits h); nNonce := to_u32 (nonce h) |}
  | Throw e =>
      (zlen p <> 32 /\ e = "prevHash must be 32 bytes"%string) \/
      (zlen p = 32 /\ zlen m <> 32 /\ e = "merkleRoot must be 32 bytes"%string)
  end.
Proof.
  intros Hp Hm. destruct (decide (zlen p = 32)) as [Lp|Lp].
  2: { unfold serializeHeader. rewrite Hp, Hm. pool_simpl. rewrite !reverseBytes_zlen.
       rewrite (proj2 (Z.eqb_neq _ _) Lp). cbn. auto. }
  destruct (decide (zlen m = 32)) as [Lm|Lm].
  2: { unfold serializeHeader. rewrite Hp, Hm. pool_simpl. rewrite !reverseBytes_zlen.
       rewrite Lp, (proj2 (Z.eqb_neq _ _) Lm). cbn. auto. }
  rewrite (serializeHeader_ok h p m) by done.
  split_and!; [done|done|by apply header_layout_zlen| |by apply unserialize_layout].
  unfold header_layout. rewrite !bytes_ok_app. unfold reverseBytes. eauto 10 with pool.
Qed.

Definition header_example : HeaderInput := {|
  version := 536870912; prevHashHexBE := replicate 64 97; merkleRootHexBE := replicate 64 49;
  ntime := 1700000000; bits := 545259519; nonce := 4294967295 |}.

Lemma serializeHeader_unserialize_witness :
  exists out, serializeHeader header_example = Ok out /\ zlen out = 80 /\
    nNonce (unserialize out) = 4294967295.
Proof.
  pose proof (serializeHeader_unserialize header_example (replicate 32 170) (replicate 32 17)
    ltac:(vm_compute; reflexivity) ltac:(vm_compute; reflexivity)) as H.
  destruct (serializeHeader header_example) as [out|e] eqn:E; [|vm_compute in E; discriminate E].
  exists out. destruct H as (_ & _ & Hl & _ & Hu). rewrite Hu. done.
Defined.

(** A concrete 32-byte digest, for the examples of the files that take [sha256]
    as a parameter. *)
Definition example_digest (b : bytes) : bytes :=
  (fun i => (at0 b (Z.of_nat i) + 3 * at0 b (32 + Z.of_nat i) + zlen b + 7 * Z.of_nat i) mod 256) <$> seq 0 32.

Lemma example_digest_ok : @Sha256Ok example_digest.
Proof.
  split; intros b; unfold sha256, example_digest.
  - rewrite zlen_fmap. done.
  - apply Forall_fmap, Forall_true. intros i. apply Z.mod_pos_bound. lia.
Qed.
