(* ===== verification/Address.v ===== *)
(** * Bech32 addresses ([pool/src/lib/address.ts])

    Bech32/Bech32m structural validation, the 5-to-8-bit regrouping and the
    scriptPubKey of an address.  [null] results are [None].  The 32-bit
    operators of JavaScript are kept as written. *)

From S2P Require Import Prelude JsString.

Definition CHARSET : jsstr := js "qpzry9x8gf2tvdw0s3jn54khce6mua7l".

(** [REVERSE[ch]]: the index of [ch] in [CHARSET]. *)
Definition REVERSE (ch : Z) : option Z :=
  let i := indexOf ch CHARSET in if i <? 0 then None else Some i.

Definition ENCODING_BECH32 : Z := 1.
Definition ENCODING_BECH32M : Z := 0x2bc830a3.

Definition GEN : list Z := [0x3b6a57b2; 0x26508e6d; 0x1ea119fa; 0x3d4233dd; 0x2a1462b3].

Definition polymod_gen (top chk : Z) : Z :=
  foldl (fun chk i =>
    if js_and (js_shr top i) 1 =? 0 then chk else js_xor chk (at0 GEN i))
    chk [0; 1; 2; 3; 4].

Definition polymod_step (chk v : Z) : Z :=
  let top := js_shr chk 25 in
  polymod_gen top (js_xor (js_shl (js_and chk 0x1ffffff) 5) v).

Definition polymod (values : list Z) : Z := foldl polymod_step 1 values.

Definition hrpExpand (hrp : jsstr) : list Z :=
  ((fun c => js_shr c 5) <$> hrp) ++ [0] ++ ((fun c => js_and c 31) <$> hrp).

Definition verifyChecksum (hrp : jsstr) (data : list Z) : option Z :=
  let v := polymod (hrpExpand hrp ++ data) in
  if v =? ENCODING_BECH32 then Some ENCODING_BECH32
  else if v =? ENCODING_BECH32M then Some ENCODING_BECH32M
  else None.

Inductive network_t := mainnet | testnet | regtest.
Inductive encoding_t := bech32 | bech32m.
#[global] Instance network_eq_dec : EqDecision network_t.
Proof. solve_decision. Defined.
#[global] Instance encoding_eq_dec : EqDecision encoding_t.
Proof. solve_decision. Defined.

Record AddressInfo := { ai_network : network_t; ai_hrp : jsstr; ai_encoding : encoding_t }.

Definition hrp_network (hrp : jsstr) : option network_t :=
  if bool_decide (hrp = js "b3") then Some mainnet
  else if bool_decide (hrp = js "tb3") then Some testnet
  else if bool_decide (hrp = js "b3rt") then Some regtest
  else None.

Definition parseB3Address (addr : jsstr) : option AddressInfo :=
  let lower := toLowerCase addr in
  let upper := toUpperCase addr in
  if negb (bool_decide (addr = lower)) && negb (bool_decide (addr = upper)) then None else
  let a := lower in
  if (zlen a <? 8) || (zlen a >? 90) then None else
  let sepPos := lastIndexOf 49 a in
  if (sepPos <? 1) || (sepPos + 7 >? zlen a) then None else
  let hrp := slice 0 sepPos a in
  let dataPart := drop (Z.to_nat (sepPos + 1)) a in
  network ← hrp_network hrp;
  data ← mapM REVERSE dataPart;
  enc ← verifyChecksum hrp data;
  Some {| ai_network := network; ai_hrp := hrp;
          ai_encoding := if enc =? ENCODING_BECH32M then bech32m else bech32 |}.

Definition isValidB3AddressForNetwork (addr : jsstr) (network : network_t) : bool :=
  match parseB3Address addr with
  | Some info => bool_decide (ai_network info = network)
  | None => false
  end.

(** ** Regrouping bits *)

(** [while (bits >= toBits) { bits -= toBits; ret.push((acc >> bits) & maxv); }];
    the fuel [bits] is enough since [toBits] is positive. *)
Fixpoint emit (fuel : nat) (acc bits toBits maxv : Z) (ret : list Z) : Z * list Z :=
  match fuel with
  | O => (bits, ret)
  | S fuel =>
      if toBits <=? bits then
        let bits := bits - toBits in
        emit fuel acc bits toBits maxv (ret ++ [js_and (js_shr acc bits) maxv])
      else (bits, ret)
  end.

Fixpoint convert_loop (src : list Z) (fromBits toBits maxv maxAcc acc bits : Z) (ret : list Z)
    : option (Z * Z * list Z) :=
  match src with
  | [] => Some (acc, bits, ret)
  | v :: src =>
      if (v <? 0) || negb (js_shr v fromBits =? 0) then None else
      let acc := js_and (js_or (js_shl acc fromBits) v) maxAcc in
      let bits := bits + fromBits in
      let '(bits, ret) := emit (Z.to_nat bits) acc bits toBits maxv ret in
      convert_loop src fromBits toBits maxv maxAcc acc bits ret
  end.

Definition convertBits (src : list Z) (fromBits toBits : Z) (pad : bool) : option (list Z) :=
  let maxv := js_shl 1 toBits - 1 in
  let maxAcc := js_shl 1 (fromBits + toBits - 1) - 1 in
  '(acc, bits, ret) ← convert_loop src fromBits toBits maxv maxAcc 0 0 [];
  if pad then
    Some (if 0 <? bits then ret ++ [js_and (js_shl acc (toBits - bits)) maxv] else ret)
  else if (fromBits <=? bits) || negb (js_and (js_shl acc (toBits - bits)) maxv =? 0) then None
  else Some ret.

(** ** Witness programs *)
Record WitnessDecoded := {
  wd_network : network_t;
  witnessVersion : Z;
  witnessProgram : bytes;
  wd_encoding : encoding_t
}.

Definition decodeWitnessAddress (addr : jsstr) : option WitnessDecoded :=
  info ← parseB3Address addr;
  let lower := toLowerCase addr in
  let sepPos := lastIndexOf 49 lower in
  let dataPart := drop (Z.to_nat (sepPos + 1)) lower in
  data ← mapM REVERSE dataPart;
  if zlen data <? 7 then None else
  let witnessVersion := at0 data 0 in
  if (witnessVersion <? 0) || (witnessVersion >? 16) then None else
  if (witnessVersion =? 0) && negb (bool_decide (ai_encoding info = bech32)) then None else
  if (witnessVersion >=? 1) && negb (bool_decide (ai_encoding info = bech32m)) then None else
  let dataNoChecksum := slice 1 (zlen data - 6) data in
  program ← convertBits dataNoChecksum 5 8 false;
  if (zlen program <? 2) || (zlen program >? 40) then None else
  if (witnessVersion =? 0) && negb (zlen program =? 20) && negb (zlen program =? 32) then None else
  Some {| wd_network := ai_network info; witnessVersion := witnessVersion;
          witnessProgram := (fun b => b mod 256) <$> program; wd_encoding := ai_encoding info |}.

Definition addressToScriptPubKey (addr : jsstr) : option bytes :=
  w ← decodeWitnessAddress addr;
  let opVersion := if witnessVersion w =? 0 then 0 else 0x50 + witnessVersion w in
  Some (opVersion mod 256 :: zlen (witnessProgram w) mod 256 :: witnessProgram w).

(** The node's view of a scriptPubKey: version and program. *)
Definition IsWitnessProgram (s : bytes) : option (Z * bytes) :=
  if (zlen s <? 4) || (zlen s >? 42) then None else
  if negb (at0 s 0 =? 0) && ((at0 s 0 <? 0x51) || (at0 s 0 >? 0x60)) then None else
  if at0 s 1 + 2 =? zlen s
  then Some (if at0 s 0 =? 0 then 0 else at0 s 0 - 0x50, drop 2 s)
  else None.

(** ** The checksum is linear

    On 30-bit states a step is an exclusive-or of shifts and generators, so two
    runs that differ in one input value differ by a state that only depends on
    that difference and on how many values follow it. *)
Definition gen_bit (top i : Z) : Z := if Z.testbit top i then at0 GEN i else 0.

Definition pstep (chk v : Z) : Z :=
  let top := Z.shiftr chk 25 in
  Z.lxor (Z.lxor (Z.shiftl (Z.land chk 0x1ffffff) 5) v)
    (Z.lxor (gen_bit top 0) (Z.lxor (gen_bit top 1)
      (Z.lxor (gen_bit top 2) (Z.lxor (gen_bit top 3) (gen_bit top 4))))).

Lemma gen_bit_range top i : In i [0; 1; 2; 3; 4] -> 0 <= gen_bit top i < 2 ^ 30.
Proof.
  intros Hi. unfold gen_bit. destruct (Z.testbit top i); [|lia].
  repeat (destruct Hi as [<-|Hi]; [vm_compute; split; congruence|]). done.
Qed.

Lemma pstep_base_range chk v : 0 <= chk < 2 ^ 30 -> 0 <= v < 32 ->
  0 <= Z.lxor (Z.shiftl (Z.land chk 0x1ffffff) 5) v < 2 ^ 30.
Proof.
  intros Hc Hv. apply lxor_range; [lia| |lia].
  rewrite Z.shiftl_mul_pow2 by lia. change 0x1ffffff with (Z.ones 25). rewrite Z.land_ones by lia.
  pose proof (Z.mod_pos_bound chk (2 ^ 25)). lia.
Qed.

Lemma pstep_range chk v : 0 <= chk < 2 ^ 30 -> 0 <= v < 32 -> 0 <= pstep chk v < 2 ^ 30.
Proof.
  intros Hc Hv. unfold pstep.
  repeat (apply lxor_range; [lia|first [by apply pstep_base_range|apply gen_bit_range; cbn; auto 10]|]).
  apply gen_bit_range; cbn; auto 10.
Qed.

Lemma polymod_gen_bits top chk : 0 <= top < 2 ^ 31 -> 0 <= chk < 2 ^ 30 ->
  polymod_gen top chk =
    Z.lxor (Z.lxor (Z.lxor (Z.lxor (Z.lxor chk (gen_bit top 0)) (gen_bit top 1))
      (gen_bit top 2)) (gen_bit top 3)) (gen_bit top 4).
Proof.
  intros Ht Hc.
  assert (forall c i, In i [0; 1; 2; 3; 4] -> 0 <= c < 2 ^ 30 ->
    (if js_and (js_shr top i) 1 =? 0 then c else js_xor c (at0 GEN i))
      = Z.lxor c (gen_bit top i) /\ 0 <= Z.lxor c (gen_bit top i) < 2 ^ 30) as Hstep.
  { intros c i Hi Hcr. pose proof (gen_bit_range top i Hi) as Hg.
    assert (0 <= i < 32) by (cbn in Hi; lia).
    split; [|by apply lxor_range].
    rewrite js_shr_id by lia. rewrite js_and_id.
    2: { split; [apply Z.div_pos; lia|]. apply Z.div_lt_upper_bound; nia. }
    2: lia.
    change 1 with (Z.ones 1). rewrite Z.land_ones by lia. change (2 ^ 1) with 2.
    rewrite <- Z.bit0_mod, Z.div_pow2_bits, Z.add_0_l by lia.
    unfold gen_bit in *. destruct (Z.testbit top i); cbn [Z.b2z Z.eqb].
    - apply js_xor_id; lia.
    - by rewrite Z.lxor_0_r. }
  unfold polymod_gen. cbn [foldl].
  repeat match goal with
  | |- context [if js_and (js_shr top ?i) 1 =? 0 then ?c else js_xor ?c (at0 GEN ?i)] =>
      let E := fresh "E" in let R := fresh "R" in
      destruct (Hstep c i) as [E R]; [cbn; auto 10|assumption|]; rewrite E; clear E
  end.
  done.
Qed.

Lemma polymod_step_pstep chk v : 0 <= chk < 2 ^ 30 -> 0 <= v < 32 -> polymod_step chk v = pstep chk v.
Proof.
  intros Hc Hv. unfold polymod_step, pstep.
  rewrite js_shr_id by lia. rewrite (js_and_id chk) by lia.
  assert (0 <= Z.land chk 0x1ffffff < 2 ^ 25).
  { change 0x1ffffff with (Z.ones 25). rewrite Z.land_ones by lia. apply Z.mod_pos_bound. lia. }
  rewrite js_shl_id by lia. rewrite <- Z.shiftl_mul_pow2 by lia.
  pose proof (pstep_base_range chk v Hc Hv).
  rewrite js_xor_id; [|rewrite Z.shiftl_mul_pow2 by lia; lia|lia].
  rewrite polymod_gen_bits; [|split; [apply Z.div_pos; lia|apply Z.div_lt_upper_bound; lia]|done].
  rewrite <- Z.shiftr_div_pow2 by lia. by rewrite !Z.lxor_assoc.
Qed.

Lemma gen_bit_lxor a b i : gen_bit (Z.lxor a b) i = Z.lxor (gen_bit a i) (gen_bit b i).
Proof.
  unfold gen_bit. rewrite Z.lxor_spec.
  destruct (Z.testbit a i), (Z.testbit b i); cbn [xorb];
    by rewrite ?Z.lxor_0_r, ?Z.lxor_0_l, ?Z.lxor_nilpotent.
Qed.

Lemma pstep_lxor a b v w : pstep (Z.lxor a b) (Z.lxor v w) = Z.lxor (pstep a v) (pstep b w).
Proof.
  unfold pstep. rewrite !Z.shiftr_lxor, !gen_bit_lxor.
  replace (Z.land (Z.lxor a b) 0x1ffffff) with (Z.lxor (Z.land a 0x1ffffff) (Z.land b 0x1ffffff))
    by (apply Z.bits_inj'; intros n _; rewrite ?Z.lxor_spec, ?Z.land_spec, ?Z.lxor_spec; btauto).
  rewrite Z.shiftl_lxor. apply Z.bits_inj'; intros n _. rewrite !Z.lxor_spec. btauto.
Qed.

Lemma foldl_pstep_diff d a b :
  Z.lxor (foldl pstep a d) (foldl pstep b d)
  = Nat.iter (length d) (fun s => pstep s 0) (Z.lxor a b).
Proof.
  revert a b; induction d as [|v d IH]; intros a b; [done|].
  cbn [foldl length]. rewrite IH, Nat.iter_succ_r.
  f_equal. by rewrite <- pstep_lxor, Z.lxor_nilpotent.
Qed.

Definition is_digit32 (v : Z) : Prop := 0 <= v < 32.

Lemma foldl_pstep_range d a : 0 <= a < 2 ^ 30 -> Forall is_digit32 d ->
  foldl polymod_step a d = foldl pstep a d /\ 0 <= foldl pstep a d < 2 ^ 30.
Proof.
  intros Ha Hd; revert a Ha; induction Hd as [|v d Hv Hd IH]; intros a Ha; [done|].
  cbn [foldl]. rewrite polymod_step_pstep by done. apply IH, pstep_range; done.
Qed.

(** No single error of at most 90 positions is worth 0 or the difference of
    the two checksum constants: checked for all 31 x 90 errors. *)
Lemma syndromes_detected :
  forallb (fun n => forallb (fun e =>
    let s := Nat.iter n (fun s => pstep s 0) (Z.of_nat e) in
    negb (s =? 0) && negb (s =? Z.lxor ENCODING_BECH32 ENCODING_BECH32M))
    (seq 1 31)) (seq 0 90) = true.
Proof. vm_compute. reflexivity. Qed.

Lemma syndrome_detected n e : (n < 90)%nat -> 0 < e < 32 ->
  let s := Nat.iter n (fun s => pstep s 0) e in
  s <> 0 /\ s <> Z.lxor ENCODING_BECH32 ENCODING_BECH32M.
Proof.
  intros Hn He s. pose proof syndromes_detected as H.
  rewrite forallb_forall in H. specialize (H n ltac:(apply in_seq; lia)).
  rewrite forallb_forall in H. specialize (H (Z.to_nat e) ltac:(apply in_seq; lia)).
  rewrite Z2Nat.id in H by lia. fold s in H. apply andb_true_iff in H as [H1 H2].
  apply negb_true_iff in H1, H2. apply Z.eqb_neq in H1, H2. done.
Qed.

Lemma lxor_digit32 x y : is_digit32 x -> is_digit32 y -> x <> y -> 0 < Z.lxor x y < 32.
Proof.
  unfold is_digit32. intros Hx Hy Hne.
  pose proof (lxor_range x y 5 ltac:(lia) ltac:(lia) ltac:(lia)).
  assert (Z.lxor x y <> 0) by (rewrite Z.lxor_eq_0_iff; done). lia.
Qed.

Lemma verifyChecksum_single hrp d1 x y d2 :
  Forall is_digit32 (hrpExpand hrp) -> Forall is_digit32 d1 -> Forall is_digit32 d2 ->
  is_digit32 x -> is_digit32 y -> x <> y -> (length d2 < 90)%nat ->
  verifyChecksum hrp (d1 ++ x :: d2) <> None -> verifyChecksum hrp (d1 ++ y :: d2) = None.
Proof.
  intros Hh H1 H2 Hx Hy Hne Hlen. unfold verifyChecksum, polymod.
  destruct (foldl_pstep_range (hrpExpand hrp ++ d1) 1) as [E Hr]; [lia|by apply Forall_app|].
  rewrite foldl_app in E. rewrite !app_assoc, !foldl_app, E. cbn [foldl]. set (a := foldl pstep 1 _) in *.
  rewrite !polymod_step_pstep by done.
  rewrite (proj1 (foldl_pstep_range d2 _ (pstep_range _ _ Hr Hx) H2)).
  rewrite (proj1 (foldl_pstep_range d2 _ (pstep_range _ _ Hr Hy) H2)).
  pose proof (foldl_pstep_diff d2 (pstep a x) (pstep a y)) as Hd.
  rewrite <- pstep_lxor, Z.lxor_nilpotent in Hd.
  replace (pstep 0 (Z.lxor x y)) with (Z.lxor x y) in Hd.
  2: { unfold pstep, gen_bit.
       by rewrite Z.shiftr_0_l, Z.land_0_l, Z.shiftl_0_l, !Z.bits_0, Z.lxor_0_l, !Z.lxor_0_r. }
  destruct (syndrome_detected (length d2) (Z.lxor x y) Hlen ltac:(by apply lxor_digit32)) as [N0 NM].
  rewrite <- Hd in N0, NM. set (px := foldl pstep (pstep a x) d2) in *.
  set (py := foldl pstep (pstep a y) d2) in *.
  destruct (Z.eqb_spec px ENCODING_BECH32) as [->|], (Z.eqb_spec py ENCODING_BECH32) as [->|];
    try (by rewrite Z.lxor_nilpotent in N0); try done.
  - destruct (Z.eqb_spec py ENCODING_BECH32M) as [->|]; done.
  - destruct (Z.eqb_spec px ENCODING_BECH32M) as [->|]; [|done].
    by rewrite Z.lxor_comm in NM.
  - destruct (Z.eqb_spec px ENCODING_BECH32M) as [->|]; [|done].
    destruct (Z.eqb_spec py ENCODING_BECH32M) as [->|]; [|done]. by rewrite Z.lxor_nilpotent in N0.
Qed.

(** ** Parsing: lemmas *)
Lemma indexOf_spec c s : 0 <= indexOf c s -> s !! Z.to_nat (indexOf c s) = Some c.
Proof.
  induction s as [|d s IH]; cbn [indexOf]; [lia|].
  destruct (Z.eqb_spec d c) as [->|]; [done|].
  destruct (Z.ltb_spec (indexOf c s) 0); [lia|]. intros _.
  replace (Z.to_nat (1 + indexOf c s)) with (S (Z.to_nat (indexOf c s))) by lia. cbn. auto.
Qed.

Lemma REVERSE_spec c v : REVERSE c = Some v -> is_digit32 v /\ CHARSET !! Z.to_nat v = Some c.
Proof.
  unfold REVERSE. pose proof (indexOf_spec c CHARSET) as Hl. revert Hl.
  generalize (indexOf c CHARSET). intros i Hl. destruct (Z.ltb_spec i 0); [done|].
  intros [= <-]. specialize (Hl ltac:(lia)). split; [|done].
  apply lookup_lt_Some in Hl. change (length CHARSET) with 32%nat in Hl.
  unfold is_digit32. lia.
Qed.

#[global] Opaque REVERSE.

Lemma REVERSE_digits cs d : mapM REVERSE cs = Some d -> Forall is_digit32 d /\ length d = length cs.
Proof.
  intros H. split; [|symmetry; by eapply length_mapM].
  apply mapM_Some in H. induction H as [|c v cs d Hc _ IH]; constructor; [|done].
  by apply REVERSE_spec in Hc as [? _].
Qed.

Lemma toLowerCase_app l k : toLowerCase (l ++ k) = toLowerCase l ++ toLowerCase k.
Proof. apply bind_app. Qed.

Lemma toLowerCase_fixed s : toLowerCase s = s <-> Forall (fun c => lower_unit c = [c]) s.
Proof.
  split.
  - induction s as [|c s IH]; intros H; [constructor|].
    change (toLowerCase (c :: s)) with (lower_unit c ++ toLowerCase s) in H.
    assert (lower_unit c = [c]) as Hc.
    { unfold lower_unit in *. repeat case_match; cbn in H; try done; injection H; intros; lia. }
    rewrite Hc in H. injection H as H. constructor; auto.
  - induction 1 as [|c s Hc Hs IH]; [done|].
    change (toLowerCase (c :: s)) with (lower_unit c ++ toLowerCase s). by rewrite Hc, IH.
Qed.

Lemma lastIndexOf_not_in c s : c ∉ s -> lastIndexOf c s = -1.
Proof.
  induction s as [|d s IH]; intros Hn; [done|]. cbn [lastIndexOf].
  rewrite not_elem_of_cons in Hn. rewrite IH by tauto. cbn.
  destruct (Z.eqb_spec d c); [subst; tauto|done].
Qed.

Lemma lastIndexOf_app c p s : c ∉ s -> lastIndexOf c (p ++ c :: s) = zlen p.
Proof.
  intros Hn. induction p as [|d p IH]; cbn [app lastIndexOf].
  - rewrite lastIndexOf_not_in by done. cbn. by rewrite Z.eqb_refl.
  - rewrite IH, zlen_cons. pose proof (zlen_nonneg p).
    by rewrite (proj2 (Z.leb_le 0 (zlen p))) by lia.
Qed.

Lemma hrp_network_cases hrp n : hrp_network hrp = Some n ->
  (hrp = js "b3" /\ n = mainnet) \/ (hrp = js "tb3" /\ n = testnet) \/
  (hrp = js "b3rt" /\ n = regtest).
Proof.
  unfold hrp_network. repeat case_bool_decide; intros [= <-]; auto.
Qed.

Lemma hrp_network_facts hrp n : hrp_network hrp = Some n ->
  Forall is_digit32 (hrpExpand hrp) /\ (49 ∉ hrp) /\ (98 ∈ hrp) /\ (2 <= length hrp)%nat.
Proof.
  intros H. apply hrp_network_cases in H as [[-> _]|[[-> _]|[-> _]]];
    (split_and!; [vm_compute; repeat constructor; discriminate
                 |apply (bool_decide_unpack _); vm_compute; done
                 |apply (bool_decide_unpack _); vm_compute; done
                 |cbn; lia]).
Qed.

(** What [parseB3Address] computes on a lower-case string with its last "1"
    after [hrp]. *)
Lemma parse_lower hrp cs : toLowerCase (hrp ++ 49 :: cs) = hrp ++ 49 :: cs -> 49 ∉ cs ->
  parseB3Address (hrp ++ 49 :: cs) =
    if (zlen (hrp ++ 49 :: cs) <? 8) || (zlen (hrp ++ 49 :: cs) >? 90) then None else
    if (zlen hrp <? 1) || (zlen hrp + 7 >? zlen (hrp ++ 49 :: cs)) then None else
    network ← hrp_network hrp;
    data ← mapM REVERSE cs;
    enc ← verifyChecksum hrp data;
    Some {| ai_network := network; ai_hrp := hrp;
            ai_encoding := if enc =? ENCODING_BECH32M then bech32m else bech32 |}.
Proof.
  intros Hlow Hn. unfold parseB3Address. rewrite Hlow, bool_decide_true by done. cbn [negb andb].
  rewrite lastIndexOf_app by done. rewrite slice_app_l by done.
  replace (drop (Z.to_nat (zlen hrp + 1)) (hrp ++ 49 :: cs)) with cs; [done|].
  change (49 :: cs) with ([49] ++ cs). rewrite app_assoc.
  symmetry. apply drop_app_zlen. rewrite zlen_app. done.
Qed.

Lemma toUpperCase_no_b s : 98 ∈ s -> s <> toUpperCase s.
Proof.
  intros Hin H. rewrite H in Hin. apply list_elem_of_fmap in Hin as (c & Hc & _).
  unfold upper_unit in Hc. case_match; lia.
Qed.

(** A lower-case human-readable part and a code unit that is not lower case. *)
Lemma parse_wrong_case p c s : 98 ∈ p -> lower_unit c <> [c] -> parseB3Address (p ++ c :: s) = None.
Proof.
  intros Hb Hc. unfold parseB3Address.
  rewrite (bool_decide_false (_ = toLowerCase _)), bool_decide_false; [done| |].
  - apply toUpperCase_no_b, elem_of_app. by left.
  - intros H. symmetry in H. apply toLowerCase_fixed, Forall_app in H as [_ H].
    by apply Forall_cons in H as [H _].
Qed.

(** A second separator in the data part spoils the human-readable part. *)
Lemma parse_second_separator hrp d1 d2 :
  toLowerCase ((hrp ++ 49 :: d1) ++ 49 :: d2) = (hrp ++ 49 :: d1) ++ 49 :: d2 -> 49 ∉ d2 ->
  parseB3Address ((hrp ++ 49 :: d1) ++ 49 :: d2) = None.
Proof.
  intros Hlow Hn. rewrite parse_lower by done.
  destruct (hrp_network (hrp ++ 49 :: d1)) as [n|] eqn:E; [|by repeat case_match].
  apply hrp_network_facts in E as (_ & Hx & _). destruct Hx. apply elem_of_app. right. left.
Qed.

Lemma data_single_error hrp d1 c c' d2 :
  Forall is_digit32 (hrpExpand hrp) -> c' <> c -> (length d2 < 90)%nat ->
  (data ← mapM REVERSE (d1 ++ c :: d2); verifyChecksum hrp data) <> None ->
  (data ← mapM REVERSE (d1 ++ c' :: d2); verifyChecksum hrp data) = None.
Proof.
  intros Hdig Hne Hlen. rewrite !option_mapM_app.
  change (mapM REVERSE (c :: d2)) with (x ← REVERSE c; y ← mapM REVERSE d2; Some (x :: y)).
  change (mapM REVERSE (c' :: d2)) with (x ← REVERSE c'; y ← mapM REVERSE d2; Some (x :: y)).
  destruct (mapM REVERSE d1) as [v1|] eqn:E1; [|done].
  destruct (REVERSE c') as [y|] eqn:Ey; [|done].
  destruct (REVERSE c) as [x|] eqn:Ex; [|done].
  destruct (mapM REVERSE d2) as [v2|] eqn:E2; [|done].
  destruct (REVERSE_digits _ _ E1) as [? _]. destruct (REVERSE_digits _ _ E2) as [? L2].
  destruct (REVERSE_spec _ _ Ex) as [? Lx]. destruct (REVERSE_spec _ _ Ey) as [? Ly].
  apply verifyChecksum_single; try done; [|by rewrite L2].
  intros ->. rewrite Lx in Ly. injection Ly. auto.
Qed.

(** In the data part of a lower-case B3Chain address, replacing any one
    character by any other code unit (another character of the alphabet, the
    separator, a character of the wrong case or outside the alphabet) gives a
    string that [parseB3Address] rejects. *)
Theorem parseB3Address_single_error hrp d1 c c' d2 info :
  parseB3Address (hrp ++ 49 :: d1 ++ c :: d2) = Some info ->
  toLowerCase (hrp ++ 49 :: d1 ++ c :: d2) = hrp ++ 49 :: d1 ++ c :: d2 ->
  49 ∉ d1 ++ c :: d2 -> c' <> c ->
  parseB3Address (hrp ++ 49 :: d1 ++ c' :: d2) = None.
Proof.
  intros Hp Hlow H49 Hne. rewrite parse_lower in Hp by done.
  case_match eqn:Hlen; [done|]. case_match; [done|].
  destruct (hrp_network hrp) as [n|] eqn:Hn; [cbn in Hp|done].
  destruct (hrp_network_facts hrp n Hn) as (Hdig & Hno1 & Hb & _).
  change (49 :: d1 ++ c' :: d2) with ((49 :: d1) ++ c' :: d2).
  destruct (decide (lower_unit c' = [c'])) as [Hc'|Hc'].
  2: { rewrite app_assoc. apply parse_wrong_case; [|done]. apply elem_of_app. by left. }
  assert (toLowerCase (hrp ++ 49 :: d1 ++ c' :: d2) = hrp ++ 49 :: d1 ++ c' :: d2) as Hlow'.
  { apply toLowerCase_fixed. apply toLowerCase_fixed in Hlow.
    rewrite !Forall_app, !Forall_cons, Forall_app, Forall_cons in *. tauto. }
  rewrite not_elem_of_app, not_elem_of_cons in H49. destruct H49 as (H49a & H49b & H49c).
  destruct (decide (c' = 49)) as [->|Hc49].
  { rewrite app_assoc. apply parse_second_separator; [|done]. by rewrite <- app_assoc. }
  cbn [app]. rewrite parse_lower by (done || (rewrite not_elem_of_app, not_elem_of_cons; auto)).
  repeat (case_match; [done|]). rewrite Hn.
  pose proof (data_single_error hrp d1 c c' d2 Hdig Hne) as He.
  destruct (mapM REVERSE (d1 ++ c :: d2)) as [v|]; [|done].
  destruct (mapM REVERSE (d1 ++ c' :: d2)) as [v'|]; [|done].
  cbn [mbind option_bind] in *. rewrite He; [done| |].
  - apply orb_false_iff in Hlen as [_ Hlen]. rewrite Z.gtb_ltb in Hlen.
    apply Z.ltb_ge in Hlen. unfold zlen in Hlen. rewrite length_app in Hlen.
    cbn [length] in Hlen. rewrite length_app in Hlen. cbn [length] in Hlen. lia.
  - by destruct (verifyChecksum hrp v).
Qed.

Lemma parseB3Address_single_error_witness :
  parseB3Address (js "tb3" ++ 49 :: js "qqu8p28pr9gcns06xf429kc" ++ 112 :: js "fwpmhapvvtax9tt") = None.
Proof.
  eapply (parseB3Address_single_error (js "tb3") (js "qqu8p28pr9gcns06xf429kc") 110 112
    (js "fwpmhapvvtax9tt")); [vm_compute; reflexivity|vm_compute; reflexivity| |lia].
  apply (bool_decide_unpack _). vm_compute. exact I.
Defined.

(** ** Regrouping bits: lemmas

    [be_val w l] is the number that the [w]-bit digits [l] spell, most
    significant first. *)
Definition be_val (w : Z) (l : list Z) : Z := foldl (fun a d => a * 2 ^ w + d) 0 l.
Definition digits_ok (w : Z) (l : list Z) : Prop := Forall (fun d => 0 <= d < 2 ^ w) l.

Lemma be_val_snoc w l d : be_val w (l ++ [d]) = be_val w l * 2 ^ w + d.
Proof. unfold be_val. by rewrite foldl_app. Qed.

Lemma be_val_range w l : 0 <= w -> digits_ok w l -> 0 <= be_val w l < 2 ^ (w * zlen l).
Proof.
  intros Hw. induction l as [|d l IH] using rev_ind; intros Hl.
  - unfold be_val. change (zlen (@nil Z)) with 0. rewrite Z.mul_0_r. cbn. lia.
  - apply Forall_app in Hl as [Hl Hd]. apply Forall_cons in Hd as [Hd _].
    specialize (IH Hl). rewrite be_val_snoc, zlen_app. change (zlen [d]) with 1.
    rewrite Z.mul_add_distr_l, Z.mul_1_r, Z.pow_add_r by (pose proof (zlen_nonneg l); nia). nia.
Qed.

Lemma be_val_inj w l k : 0 <= w -> digits_ok w l -> digits_ok w k ->
  length l = length k -> be_val w l = be_val w k -> l = k.
Proof.
  intros Hw. revert k; induction l as [|d l IH] using rev_ind; intros k Hl Hk Hlen Hv.
  - by destruct k.
  - destruct k as [|e k _] using rev_ind; [rewrite length_app in Hlen; cbn in Hlen; lia|].
    rewrite !length_app in Hlen. cbn in Hlen. rewrite !be_val_snoc in Hv.
    apply Forall_app in Hl as [Hl Hd]. apply Forall_cons in Hd as [Hd _].
    apply Forall_app in Hk as [Hk He]. apply Forall_cons in He as [He _].
    assert (be_val w l = be_val w k /\ d = e) as [Hv' ->]
      by (apply (Z.div_mod_unique (2 ^ w)); [left; done|left; done|lia]).
    f_equal. apply IH; try done. lia.
Qed.

(** One digit out of the accumulator: the next [to] bits of [v]. *)
Lemma emit_spec fuel v acc bits to k ret :
  0 < to -> to <= 16 -> 0 <= v -> 0 <= k <= 30 -> acc = v mod 2 ^ k -> 0 <= bits <= k ->
  bits <= Z.of_nat fuel ->
  be_val to ret = v / 2 ^ bits -> digits_ok to ret ->
  exists bits' ret', emit fuel acc bits to (2 ^ to - 1) ret = (bits', ret') /\
    0 <= bits' < to /\ be_val to ret' = v / 2 ^ bits' /\ digits_ok to ret' /\
    to * zlen ret' + bits' = to * zlen ret + bits.
Proof.
  intros Ht1 Ht2 Hv Hk ->. revert bits ret.
  induction fuel as [|fuel IH]; intros bits ret Hb Hf Hr Hd; cbn [emit].
  { exists bits, ret. split_and!; try done; lia. }
  destruct (Z.leb_spec to bits) as [Hle|Hlt]; [|exists bits, ret; split_and!; try done; lia].
  set (b := bits - to). assert (0 < 2 ^ b /\ 0 < 2 ^ k /\ 0 < 2 ^ to) as (P1 & P2 & P3).
  { split_and!; apply Z.pow_pos_nonneg; lia. }
  assert (2 ^ k <= 2 ^ 30) by (apply Z.pow_le_mono_r; lia).
  assert (2 ^ to <= 2 ^ 16) by (apply Z.pow_le_mono_r; lia).
  pose proof (Z.mod_pos_bound v (2 ^ k) P2).
  assert (js_and (js_shr (v mod 2 ^ k) b) (2 ^ to - 1) = (v / 2 ^ b) mod 2 ^ to) as ->.
  { rewrite js_shr_id by lia. rewrite js_and_id; [|split; [apply Z.div_pos; lia|]|lia].
    2: { apply Z.div_lt_upper_bound; nia. }
    replace (2 ^ to - 1) with (Z.ones to) by (rewrite Z.ones_equiv; lia).
    rewrite Z.land_ones by lia.
    replace (2 ^ k) with (2 ^ b * 2 ^ (k - b)) by (rewrite <- Z.pow_add_r by lia; f_equal; lia).
    rewrite Z.rem_mul_r by lia. rewrite Z.mul_comm, Z.div_add by lia.
    rewrite (Z.div_small (v mod 2 ^ b)) by (apply Z.mod_pos_bound; lia). rewrite Z.add_0_l.
    replace (2 ^ (k - b)) with (2 ^ to * 2 ^ (k - b - to))
      by (rewrite <- Z.pow_add_r by lia; f_equal; lia).
    rewrite Z.rem_mul_r by lia. rewrite (Z.mul_comm (2 ^ to)), Z.mod_add by lia.
    by rewrite Z.mod_mod by lia. }
  destruct (IH b (ret ++ [(v / 2 ^ b) mod 2 ^ to])) as (b' & r' & E & ? & ? & ? & Hlen); try lia.
  - rewrite be_val_snoc, Hr. replace bits with (b + to) by lia.
    rewrite Z.pow_add_r, <- Z.div_div by lia. rewrite Z.mul_comm. symmetry. apply Z.div_mod. lia.
  - apply Forall_app. split; [done|]. constructor; [|constructor]. apply Z.mod_pos_bound. lia.
  - rewrite E. exists b', r'. rewrite zlen_app in Hlen. change (zlen [_]) with 1 in Hlen.
    split_and!; try done; lia.
Qed.

(** The 32-bit accumulator holds the last [from + to - 1] bits read. *)
Lemma convert_acc v x from K :
  0 < from -> 0 <= K -> K + from <= 31 -> 0 <= v -> 0 <= x < 2 ^ from ->
  js_and (js_or (js_shl (v mod 2 ^ K) from) x) (2 ^ K - 1) = (v * 2 ^ from + x) mod 2 ^ K.
Proof.
  intros Hf HK HKf Hv Hx.
  assert (0 < 2 ^ K /\ 0 < 2 ^ from) as [P1 P2] by (split; apply Z.pow_pos_nonneg; lia).
  pose proof (Z.mod_pos_bound v (2 ^ K) P1) as Ha. set (a := v mod 2 ^ K) in *.
  assert (a * 2 ^ from + 2 ^ from <= 2 ^ 31 /\ 2 ^ K <= 2 ^ 31 /\ a < 2 ^ 31) as (B1 & B2 & B3).
  { assert (2 ^ K * 2 ^ from <= 2 ^ 31) by (rewrite <- Z.pow_add_r by lia; apply Z.pow_le_mono_r; lia).
    nia. }
  rewrite js_shl_id by lia. rewrite js_or_id by lia. rewrite lor_add_disjoint by lia.
  rewrite js_and_id by lia.
  replace (2 ^ K - 1) with (Z.ones K) by (rewrite Z.ones_equiv; lia). rewrite Z.land_ones by lia.
  unfold a. by rewrite <- Z.add_mod_idemp_l, Z.mul_mod_idemp_l, Z.add_mod_idemp_l by lia.
Qed.

Lemma convert_loop_spec from to src l0 bits ret :
  0 < from -> 0 < to <= 16 -> 2 * from + to - 1 <= 30 ->
  digits_ok from (l0 ++ src) -> 0 <= bits < to -> digits_ok to ret ->
  be_val to ret = be_val from l0 / 2 ^ bits -> to * zlen ret + bits = from * zlen l0 ->
  exists bits' ret',
    convert_loop src from to (2 ^ to - 1) (2 ^ (from + to - 1) - 1)
      (be_val from l0 mod 2 ^ (from + to - 1)) bits ret
    = Some (be_val from (l0 ++ src) mod 2 ^ (from + to - 1), bits', ret') /\
    0 <= bits' < to /\ digits_ok to ret' /\
    be_val to ret' = be_val from (l0 ++ src) / 2 ^ bits' /\
    to * zlen ret' + bits' = from * zlen (l0 ++ src).
Proof.
  intros Hf Ht Hft. revert l0 bits ret.
  induction src as [|x src IH]; intros l0 bits ret Hd Hb Hr Hv Hl; cbn [convert_loop].
  { exists bits, ret. by rewrite !app_nil_r. }
  change (x :: src) with ([x] ++ src) in *. rewrite app_assoc in Hd |- *.
  assert (digits_ok from (l0 ++ [x])) as Hd' by (by apply Forall_app in Hd as [Hd _]).
  pose proof Hd' as [Hd0 Hx]%Forall_app. apply Forall_cons in Hx as [Hx _].
  pose proof (be_val_range from l0 ltac:(lia) Hd0).
  assert (2 ^ from <= 2 ^ 31) by (apply Z.pow_le_mono_r; lia).
  rewrite (proj2 (Z.ltb_ge x 0)) by lia.
  rewrite js_shr_id, Z.div_small by lia. cbn [Z.eqb negb orb].
  rewrite convert_acc, <- be_val_snoc by lia.
  pose proof (be_val_range from (l0 ++ [x]) ltac:(lia) Hd').
  destruct (emit_spec (Z.to_nat (bits + from)) (be_val from (l0 ++ [x]))
    (be_val from (l0 ++ [x]) mod 2 ^ (from + to - 1)) (bits + from) to (from + to - 1) ret) as (b' & r' & E & ? & Hv' & ? & Hl'); try done; try lia.
  - rewrite be_val_snoc, Hv. replace (bits + from) with (from + bits) by lia.
    rewrite Z.pow_add_r by lia. rewrite <- Z.div_div by lia.
    rewrite Z.div_add_l, (Z.div_small x), Z.add_0_r by lia. done.
  - rewrite E. apply IH; try done. rewrite zlen_app. change (zlen [x]) with 1. lia.
Qed.

Lemma convert_masks from to : 0 < from -> 0 < to <= 16 -> 2 * from + to - 1 <= 30 ->
  js_shl 1 to - 1 = 2 ^ to - 1 /\ js_shl 1 (from + to - 1) - 1 = 2 ^ (from + to - 1) - 1.
Proof.
  intros Hf Ht Hft.
  assert (2 ^ to < 2 ^ 31 /\ 2 ^ (from + to - 1) < 2 ^ 31) by (split; apply Z.pow_lt_mono_r; lia).
  rewrite !js_shl_id by lia. lia.
Qed.

(** The bits left over, moved to the top of a digit. *)
Lemma convert_rest v K bits to : 0 <= K -> 0 <= bits < to -> bits <= K -> K + to <= 30 -> 0 <= v ->
  js_and (js_shl (v mod 2 ^ K) (to - bits)) (2 ^ to - 1) = (v mod 2 ^ bits) * 2 ^ (to - bits).
Proof.
  intros HK Hb HbK HKt Hv.
  assert (0 < 2 ^ K /\ 0 < 2 ^ bits /\ 0 < 2 ^ (to - bits) /\ 0 < 2 ^ (K - bits)) as (P1 & P2 & P3 & P4).
  { split_and!; apply Z.pow_pos_nonneg; lia. }
  pose proof (Z.mod_pos_bound v (2 ^ K) P1).
  assert (2 ^ K * 2 ^ (to - bits) <= 2 ^ 30) by (rewrite <- Z.pow_add_r by lia; apply Z.pow_le_mono_r; lia).
  assert (2 ^ to <= 2 ^ 30) by (apply Z.pow_le_mono_r; lia).
  assert (0 < 2 ^ to) by (apply Z.pow_pos_nonneg; lia).
  rewrite js_shl_id by nia. rewrite js_and_id by nia.
  replace (2 ^ to - 1) with (Z.ones to) by (rewrite Z.ones_equiv; lia). rewrite Z.land_ones by lia.
  replace (2 ^ to) with (2 ^ bits * 2 ^ (to - bits)) by (rewrite <- Z.pow_add_r by lia; f_equal; lia).
  rewrite Z.mul_mod_distr_r by lia. f_equal.
  replace (2 ^ K) with (2 ^ bits * 2 ^ (K - bits)) by (rewrite <- Z.pow_add_r by lia; f_equal; lia).
  rewrite Z.rem_mul_r by lia. rewrite (Z.mul_comm (2 ^ bits)), Z.mod_add by lia.
  apply Z.mod_mod. lia.
Qed.

(** What [convertBits] returns, with the value regrouped: [pad] fills the last
    digit with zeros, otherwise the bits left over must be fewer than a source
    digit and zero. *)
Lemma convertBits_spec from to src pad :
  0 < from -> 0 < to <= 16 -> 2 * from + to - 1 <= 30 -> from + 2 * to - 1 <= 30 ->
  digits_ok from src ->
  exists bits ret, 0 <= bits < to /\ digits_ok to ret /\
    to * zlen ret + bits = from * zlen src /\ be_val to ret = be_val from src / 2 ^ bits /\
    convertBits src from to pad =
      (let rest := (be_val from src mod 2 ^ bits) * 2 ^ (to - bits) in
       if pad then Some (if 0 <? bits then ret ++ [rest] else ret)
       else if (from <=? bits) || negb (rest =? 0) then None else Some ret).
Proof.
  intros Hf Ht Hft Hft2 Hd. destruct (convert_masks from to) as [E1 E2]; [lia..|].
  destruct (convert_loop_spec from to src [] 0 []) as (bits & ret & E & Hb & Hr & Hv & Hl);
    try done; try lia; try apply Forall_nil_2; [unfold zlen; cbn; lia|].
  cbn [app] in *. exists bits, ret. do 4 (split; [done|]). unfold convertBits. rewrite E1, E2.
  change (be_val from []) with 0 in E. rewrite Z.mod_0_l in E by (apply Z.pow_nonzero; lia).
  rewrite E. cbn [app mbind option_bind].
  pose proof (be_val_range from src ltac:(lia) Hd). by rewrite convert_rest by lia.
Qed.

(** Regrouping bytes into 5-bit digits with padding always succeeds, and
    the decoder used for addresses, [convertBits(_, 5, 8, false)], gives the same
    bytes back. *)
Theorem convertBits_roundtrip p : bytes_ok p ->
  exists l, convertBits p 8 5 true = Some l /\ digits_ok 5 l /\ convertBits l 5 8 false = Some p.
Proof.
  intros Hp.
  destruct (convertBits_spec 8 5 p true) as (b & r & Hb & Hr & Hl & Hv & E); [lia..|exact Hp|].
  cbv zeta in E.
  set (l := if 0 <? b then r ++ [be_val 8 p mod 2 ^ b * 2 ^ (5 - b)] else r) in E. exists l. split; [exact E|].
  pose proof (Z.div_mod (be_val 8 p) (2 ^ b) ltac:(apply Z.pow_nonzero; lia)) as Hdm.
  pose proof (Z.mod_pos_bound (be_val 8 p) (2 ^ b) ltac:(apply Z.pow_pos_nonneg; lia)) as Hmod.
  assert (exists pad, 0 <= pad < 5 /\ digits_ok 5 l /\ 5 * zlen l = 8 * zlen p + pad /\
    be_val 5 l = be_val 8 p * 2 ^ pad) as (pad & Hpad & Hl5 & Hlen & Hval).
  { subst l. destruct (Z.ltb_spec 0 b).
    - exists (5 - b). assert (0 < 2 ^ (5 - b)) by (apply Z.pow_pos_nonneg; lia).
      assert (2 ^ b * 2 ^ (5 - b) = 2 ^ 5) as H5 by (rewrite <- Z.pow_add_r by lia; f_equal; lia).
      rewrite zlen_app, be_val_snoc, Hv. change (zlen [_]) with 1.
      split_and!; try lia.
      2: { rewrite <- H5. transitivity ((2 ^ b * (be_val 8 p / 2 ^ b) + be_val 8 p mod 2 ^ b)
             * 2 ^ (5 - b)); [ring|by rewrite <- Hdm]. }
      apply Forall_app. split; [done|]. constructor; [nia|constructor].
    - assert (b = 0) as -> by lia. exists 0. rewrite Z.pow_0_r, Z.div_1_r in *.
      split_and!; try done; lia. }
  split; [done|].
  destruct (convertBits_spec 5 8 l false) as (b' & q & Hb' & Hq & Hl' & Hv' & ->); [lia..|done|].
  assert (b' = pad /\ zlen q = zlen p) as [-> Hzl] by lia.
  rewrite Hval, Z.mod_mul, Z.div_mul in * by (apply Z.pow_nonzero; lia).
  rewrite (proj2 (Z.leb_gt 5 pad)) by lia. cbn [Z.mul Z.eqb negb orb]. f_equal.
  apply (be_val_inj 8); try done. unfold zlen in Hzl. lia.
Qed.

Lemma convertBits_roundtrip_witness :
  exists l, convertBits [1; 2; 254] 8 5 true = Some l /\ digits_ok 5 l /\
    convertBits l 5 8 false = Some [1; 2; 254].
Proof. apply convertBits_roundtrip. repeat constructor; done. Defined.

(** ** Scripts *)
Lemma decodeWitnessAddress_inv addr w : decodeWitnessAddress addr = Some w ->
  0 <= witnessVersion w <= 16 /\ 2 <= zlen (witnessProgram w) <= 40 /\
  bytes_ok (witnessProgram w) /\
  (witnessVersion w = 0 -> zlen (witnessProgram w) = 20 \/ zlen (witnessProgram w) = 32) /\
  (wd_encoding w = if witnessVersion w =? 0 then bech32 else bech32m) /\
  exists info, parseB3Address addr = Some info /\ wd_network w = ai_network info.
Proof.
  unfold decodeWitnessAddress. destruct (parseB3Address addr) as [info|] eqn:E; [|done].
  cbn [mbind option_bind]. destruct (mapM REVERSE _) as [l|]; [|done]. cbn [mbind option_bind].
  repeat (case_match; [done|]).
  destruct (convertBits _ _ _ _) as [prog|]; [|done]. cbn [mbind option_bind].
  repeat (case_match; [done|]). intros [= <-]; cbn [witnessVersion witnessProgram wd_encoding wd_network].
  rewrite zlen_fmap.
  repeat match goal with H : (_ || _) = false |- _ => apply orb_false_iff in H as [? ?] end.
  rewrite !Z.gtb_ltb, ?Z.geb_leb in *.
  split_and!; try lia; [| |by eauto].
  - apply Forall_fmap, Forall_true. intros. apply Z.mod_pos_bound. lia.
  - destruct (Z.eqb_spec (at0 l 0) 0) as [Hz|Hz]; cbn in *.
    + by destruct (ai_encoding info).
    + destruct (Z.leb_spec 1 (at0 l 0)); [|lia]. by destruct (ai_encoding info).
Qed.

(** The script made from an accepted address is a witness program in the
    node's sense, of the decoded version and program; versions are 0 to 16,
    programs 2 to 40 bytes (20 or 32 for version 0), and the checksum variant is
    the one BIP173/BIP350 ask for that version. *)
Theorem addressToScriptPubKey_witness_program addr spk :
  addressToScriptPubKey addr = Some spk ->
  exists w, decodeWitnessAddress addr = Some w /\
    IsWitnessProgram spk = Some (witnessVersion w, witnessProgram w) /\
    0 <= witnessVersion w <= 16 /\ 2 <= zlen (witnessProgram w) <= 40 /\ bytes_ok spk /\
    (witnessVersion w = 0 -> zlen (witnessProgram w) = 20 \/ zlen (witnessProgram w) = 32) /\
    wd_encoding w = (if witnessVersion w =? 0 then bech32 else bech32m).
Proof.
  unfold addressToScriptPubKey. destruct (decodeWitnessAddress addr) as [w|] eqn:E; [|done].
  cbn [mbind option_bind]. intros [= <-]. exists w. split; [done|].
  apply decodeWitnessAddress_inv in E as (Hv & Hl & Hb & H20 & He & _).
  set (op := if witnessVersion w =? 0 then 0 else 80 + witnessVersion w).
  assert (op = 0 /\ witnessVersion w = 0 \/ op = 80 + witnessVersion w /\ 1 <= witnessVersion w) as Hop.
  { unfold op. destruct (Z.eqb_spec (witnessVersion w) 0); lia. }
  assert (0 <= op < 256) by lia. rewrite !Z.mod_small by lia.
  split_and!; try done; try lia.
  - unfold IsWitnessProgram. rewrite !zlen_cons.
    change (at0 (op :: _) 0) with op. change (at0 (_ :: ?x :: _) 1) with x.
    rewrite (proj2 (Z.ltb_ge _ 4)), Z.gtb_ltb, (proj2 (Z.ltb_ge 42 _)) by lia. cbn [orb].
    rewrite (Z.gtb_ltb op). replace (_ + 2 =? _) with true by lia.
    destruct Hop as [[-> ->]|[-> Hv1]]; [done|].
    rewrite (proj2 (Z.eqb_neq (80 + _) 0)), (proj2 (Z.ltb_ge _ 0x51)),
      (proj2 (Z.ltb_ge 0x60 _)) by lia. cbn [negb andb orb]. do 2 f_equal. lia.
  - repeat (constructor; [unfold is_byte; lia|]). done.
Qed.

Definition example_address : jsstr := js "tb31qqu8p28pr9gcns06xf429kcnfwpmhapvvtax9tt".

Lemma addressToScriptPubKey_witness_program_witness :
  exists w, decodeWitnessAddress example_address = Some w /\ witnessVersion w = 0 /\
    zlen (witnessProgram w) = 20.
Proof.
  destruct (addressToScriptPubKey_witness_program example_address
    (0 :: 20 :: ((fun n => Z.of_nat n * 7) <$> seq 1 20))) as (w & Hw & Hp & _);
    [vm_compute; reflexivity|].
  exists w. split; [exact Hw|]. clear Hw.
  assert (Some (0, (fun n => Z.of_nat n * 7) <$> seq 1 20) = Some (witnessVersion w, witnessProgram w))
    as Hq by (rewrite <- Hp; vm_compute; reflexivity).
  injection Hq as <- <-. split; reflexivity.
Defined.

(** Case folding goes through Unicode: an otherwise upper-case address in
    which U+212A (KELVIN SIGN) stands for the letter K is accepted, although it is
    not an ASCII string. *)
Theorem parseB3Address_accepts_kelvin :
  let addr := (fun c => if c =? 75 then 8490 else c) <$> toUpperCase example_address in
  8490 ∈ addr /\ isValidB3AddressForNetwork addr testnet = true /\
  addressToScriptPubKey addr = addressToScriptPubKey example_address.
Proof.
  split_and!; [apply (bool_decide_unpack _)|..]; vm_compute; reflexivity || exact I.
Qed.
