(* ===== verification/Difficulty.v ===== *)
(** * Targets and difficulties ([pool/src/lib/difficulty-math.ts], [pool-stats.ts])

    BigInt arithmetic is exact [Z]; difficulties are doubles.  [SetCompact] is the
    node's expansion of compact bits ([src/src/arith_uint256.cpp]). *)

From S2P Require Import Prelude JsNumber JsRound.

Definition MAX_UINT256 : Z := 2 ^ 256 - 1.
Definition POOL_DIFF1_TARGET : Z :=
  0x00000000ffff0000000000000000000000000000000000000000000000000000.

Definition targetFromBits (bits : Z) : Z :=
  let exp := js_and (js_shr bits 24) 0xff in
  let mant := js_and bits 0x007fffff in
  if exp <=? 3 then Z.shiftr mant (8 * (3 - exp)) else Z.shiftl mant (8 * (exp - 3)).

(** Index [n - 1] first, as the loop [for (let i = b.length - 1; i >= 0; i--)]. *)
Definition bigIntFromBytesLE (b : bytes) : Z :=
  foldl (fun n x => Z.lor (Z.shiftl n 8) x) 0 (reverse b).

Definition bigIntFromBytesBE (b : bytes) : Z :=
  foldl (fun n x => Z.lor (Z.shiftl n 8) x) 0 b.

(** [0.000001]. *)
Definition MIN_SHARE_DIFFICULTY : jsnum := literal 1 1000000.

Definition targetFromShareDifficulty (shareDiff : jsnum) : res Z :=
  _ ← throw_if (negb (isFinite shareDiff) || nle shareDiff n0) "share diff must be a finite number > 0";
  _ ← throw_if (nlt shareDiff MIN_SHARE_DIFFICULTY)
        "the 1e6 scale would collapse it to an all-accepting target";
  let scale := 1000000 in
  scaledDiff ← bigint_of (math_round (nmul shareDiff (num_of_Z scale)));
  _ ← throw_if (scaledDiff <=? 0) "failed fixed-point conversion";
  Ok (POOL_DIFF1_TARGET * scale / scaledDiff).

Definition shareDifficultyFromTarget (target : Z) : jsnum :=
  if target <=? 0 then MAX_SAFE_INTEGER
  else ndiv (num_of_Z (POOL_DIFF1_TARGET * 1000000 / target)) (num_of_Z 1000000).

Definition networkDifficultyFromBits (bits : Z) : jsnum :=
  let target := targetFromBits bits in
  if target <=? 0 then MAX_SAFE_INTEGER
  else ndiv (num_of_Z (POOL_DIFF1_TARGET * 10000000 / target)) (num_of_Z 10000000).

Definition assignedShareDifficulty (configured : jsnum) (network : option jsnum) : jsnum :=
  match network with
  | None => configured
  | Some network =>
      if negb (isFinite network) || nle network n0 then configured
      else if negb (isFinite configured) || nle configured n0 then network
      else math_min configured network
  end.

Definition hashrateFromShares (totalDiff windowSeconds : jsnum) : jsnum :=
  if nle windowSeconds n0 then n0
  else ndiv (nmul totalDiff (num_of_Z 4294967296)) windowSeconds.

Definition shareHashrateHps (totalDiff windowSeconds : jsnum) : jsnum :=
  if negb (isFinite totalDiff) || nle totalDiff n0 then n0
  else if negb (isFinite windowSeconds) || nle windowSeconds n0 then n0
  else ndiv (nmul totalDiff (num_of_Z 4294967296)) windowSeconds.

(** The node's expansion: value (modulo 2^256), negative flag, overflow flag. *)
Definition SetCompact (nCompact : Z) : Z * bool * bool :=
  let nSize := Z.shiftr nCompact 24 in
  let nWord0 := Z.land nCompact 0x007fffff in
  let nWord := if nSize <=? 3 then Z.shiftr nWord0 (8 * (3 - nSize)) else nWord0 in
  let value := if nSize <=? 3 then nWord
               else Z.shiftl nWord (8 * (nSize - 3)) mod 2 ^ 256 in
  (value,
   negb (nWord =? 0) && negb (Z.land nCompact 0x00800000 =? 0),
   negb (nWord =? 0) && ((nSize >? 34) || ((nWord >? 0xff) && (nSize >? 33))
                         || ((nWord >? 0xffff) && (nSize >? 32)))).

(** Step 5 of the node's LWMA-3 retarget: the widest target it may emit for the
    block after height [nHeight]. *)
Definition effective_floor (powLimit floor_bits guard nHeight : Z) : Z :=
  let next_height := nHeight + 1 in
  if negb (floor_bits =? 0) && (guard >? 0) && (next_height >? guard) then
    let '(op_floor, negative, overflow) := SetCompact floor_bits in
    if negb negative && negb overflow && negb (op_floor =? 0) && (op_floor <? powLimit)
    then op_floor else powLimit
  else powLimit.

(** ** Byte strings as integers *)
Lemma bigIntFromBytesLE_val b : bytes_ok b -> bigIntFromBytesLE b = le_val b.
Proof.
  unfold bigIntFromBytesLE. induction 1 as [|x b Hx Hb IH]; [done|].
  rewrite reverse_cons, foldl_app, IH. cbn [foldl le_val].
  rewrite Z.shiftl_mul_pow2 by lia. rewrite lor_add_disjoint by (unfold is_byte in Hx; lia). lia.
Qed.

Lemma bigIntFromBytesBE_val b : bytes_ok b -> bigIntFromBytesBE b = le_val (reverse b).
Proof.
  intros Hb. rewrite <- bigIntFromBytesLE_val by eauto with pool.
  unfold bigIntFromBytesLE, bigIntFromBytesBE. by rewrite reverse_involutive.
Qed.

(** ** Compact bits *)
Lemma targetFromBits_exp bits : 0 <= bits < 2 ^ 32 ->
  js_and (js_shr bits 24) 0xff = Z.shiftr bits 24 /\
  js_and bits 0x007fffff = Z.land bits 0x007fffff.
Proof.
  intros Hb. unfold js_and, js_shr. change (24 mod 32) with 24.
  change (to_i32 0xff) with (Z.ones 8). change (to_i32 0x007fffff) with (Z.ones 23).
  change 0x007fffff with (Z.ones 23). rewrite !Z.land_ones by lia.
  unfold to_i32. rewrite (Z.mod_small bits) by lia.
  destruct (Z.ltb_spec bits (2 ^ 31)).
  - rewrite Z.shiftr_div_pow2 by lia.
    assert (0 <= bits / 2 ^ 24 < 2 ^ 8) by (split; [apply Z.div_pos|apply Z.div_lt_upper_bound]; lia).
    rewrite (Z.mod_small (bits / 2 ^ 24) (2 ^ 32)) by lia.
    destruct (Z.ltb_spec (bits / 2 ^ 24) (2 ^ 31)); [|lia]. by rewrite (Z.mod_small (bits / 2 ^ 24)).
  - split.
    + rewrite !Z.shiftr_div_pow2 by lia.
      replace (bits - 2 ^ 32) with (bits + -256 * 2 ^ 24) by lia. rewrite Z.div_add by lia.
      assert (128 <= bits / 2 ^ 24 < 256)
        by (split; [apply Z.div_le_lower_bound|apply Z.div_lt_upper_bound]; lia).
      replace ((bits / 2 ^ 24 + -256) mod 2 ^ 32) with (bits / 2 ^ 24 + -256 + 2 ^ 32)
        by (apply Z.mod_unique with (-1); lia).
      destruct (Z.ltb_spec (bits / 2 ^ 24 + -256 + 2 ^ 32) (2 ^ 31)); [lia|].
      symmetry. apply Z.mod_unique with (-1); lia.
    + replace (bits - 2 ^ 32) with (bits + -512 * 2 ^ 23) by lia. by rewrite Z.mod_add by lia.
Qed.

(** Without the overflow flag the shifted mantissa fits in 256 bits. *)
Lemma compact_fits w n : 0 <= w < 2 ^ 23 -> 3 < n ->
  (w = 0 \/ (n <= 34 /\ (n <= 33 \/ w <= 0xff) /\ (n <= 32 \/ w <= 0xffff))) ->
  Z.shiftl w (8 * (n - 3)) < 2 ^ 256.
Proof.
  intros Hw Hn Hov. rewrite Z.shiftl_mul_pow2 by lia.
  destruct Hov as [->|(H34 & H33 & H32)]; [lia|].
  assert (forall k b, 0 <= k -> w < 2 ^ b -> 0 <= b -> 8 * (n - 3) <= k -> k + b <= 256 ->
    w * 2 ^ (8 * (n - 3)) < 2 ^ 256) as Hfit.
  { intros k b Hk Hb Hb0 Hle Hsum. apply Z.lt_le_trans with (2 ^ b * 2 ^ k).
    - assert (2 ^ (8 * (n - 3)) <= 2 ^ k) by (apply Z.pow_le_mono_r; lia).
      assert (0 < 2 ^ (8 * (n - 3))) by (apply Z.pow_pos_nonneg; lia). nia.
    - rewrite <- Z.pow_add_r by lia. apply Z.pow_le_mono_r; lia. }
  destruct (decide (n <= 32)); [apply (Hfit 232 23); lia|].
  destruct (decide (n <= 33)); [apply (Hfit 240 16); lia|]. apply (Hfit 248 8); lia.
Qed.

(** ** Properties *)

(** For every 32-bit value that the node does not report as overflowing,
    [targetFromBits] is the target the node expands it to. *)
Theorem targetFromBits_SetCompact bits value negative :
  0 <= bits < 2 ^ 32 -> SetCompact bits = (value, negative, false) ->
  targetFromBits bits = value /\ 0 <= value < 2 ^ 256.
Proof.
  intros Hb. destruct (targetFromBits_exp bits Hb) as [E1 E2].
  unfold SetCompact, targetFromBits. rewrite E1, E2.
  set (n := Z.shiftr bits 24). set (w := Z.land bits 0x007fffff).
  assert (0 <= n) by (apply Z.shiftr_nonneg; lia).
  assert (0 <= w < 2 ^ 23) as Hw.
  { unfold w. change 0x007fffff with (Z.ones 23). rewrite Z.land_ones by lia. apply Z.mod_pos_bound. lia. }
  destruct (Z.leb_spec n 3) as [Hn|Hn]; intros [[<- _]%pair_eq Hov]%pair_eq.
  - rewrite Z.shiftr_div_pow2 by lia. split; [done|].
    assert (0 < 2 ^ (8 * (3 - n))) by (apply Z.pow_pos_nonneg; lia).
    split; [apply Z.div_pos; lia|]. apply Z.div_lt_upper_bound; [lia|].
    assert (w < 2 ^ 256) by (eapply Z.lt_trans; [apply Hw|]; apply Z.pow_lt_mono_r; lia). nia.
  - assert (Z.shiftl w (8 * (n - 3)) < 2 ^ 256) as Hfit.
    { apply compact_fits; [done|lia|]. rewrite !Z.gtb_ltb in Hov.
      destruct (Z.eqb_spec w 0); [auto|right]. cbn [negb andb] in Hov.
      apply orb_false_iff in Hov as [[Ha Hc]%orb_false_iff Hd]. apply andb_false_iff in Hc, Hd. lia. }
    assert (0 <= Z.shiftl w (8 * (n - 3))) by (apply Z.shiftl_nonneg; lia).
    rewrite Z.mod_small by lia. done.
Qed.

Lemma targetFromBits_SetCompact_witness :
  targetFromBits 0x1f00ffff = 0xffff * 2 ^ 224.
Proof.
  destruct (targetFromBits_SetCompact 0x1f00ffff (0xffff * 2 ^ 224) false) as [H _];
    [lia|vm_compute; reflexivity|exact H].
Defined.

(** ** Share targets: lemmas *)
Lemma scaled_val x a : fin x a -> has_val (nmul x (num_of_Z 1000000)) false (rnd (a * 1000000) 1).
Proof.
  intros Hx. pose proof (nmul_val x _ a _ Hx (num_of_Z_exact 1000000 ltac:(lia))) as H.
  rewrite (rnd_ratio _ (2 ^ 1074) (a * 1000000) 1) in H; [done| |lia|lia|ring].
  pose proof (fin_nonneg x a Hx). nia.
Qed.

Definition MIN_UNITS : Z := Zpos 4722366482869645 * 2 ^ (-72 + 1074).
Lemma min_share_fin : fin MIN_SHARE_DIFFICULTY MIN_UNITS.
Proof. apply (fin_pos_parts 4722366482869645 (-72)). vm_compute. reflexivity. Qed.

Lemma nlt_min_share x a : fin x a -> nlt x MIN_SHARE_DIFFICULTY = (a <? MIN_UNITS).
Proof. intros Hx. exact (nlt_fin x _ a _ Hx min_share_fin). Qed.

(** [Math.round] of the scaled difficulty. *)
Definition scaled_units (a : Z) : Z := (2 * rnd (a * 1000000) 1 + 2 ^ 1074) / 2 ^ 1075.

Lemma targetFromShareDifficulty_fin x a : fin x a -> 0 < a ->
  targetFromShareDifficulty x =
    if a <? MIN_UNITS then Throw "the 1e6 scale would collapse it to an all-accepting target"
    else if rnd (a * 1000000) 1 <? 2 ^ 2098 then
      if scaled_units a <=? 0 then Throw "failed fixed-point conversion"
      else Ok (POOL_DIFF1_TARGET * 1000000 / scaled_units a)
    else Throw "cannot be converted to a BigInt because it is not an integer".
Proof.
  intros Hx Ha. unfold targetFromShareDifficulty.
  rewrite (proj1 Hx), (nle_fin x n0 a 0) by done. rewrite (proj2 (Z.leb_gt a 0)) by lia.
  cbn [negb orb throw_if mbind res_bind].
  rewrite (nlt_min_share x a Hx).
  destruct (a <? MIN_UNITS); [done|]. cbn [throw_if mbind res_bind].
  pose proof (scaled_val x a Hx) as Hs. destruct (has_val_cases _ _ Hs) as [Hf|[-> Hr]].
  - rewrite (math_round_fin _ _ Hf). pose proof (fin_bound _ _ Hf).
    rewrite (proj2 (Z.ltb_lt _ (2 ^ 2098))) by lia. cbn [bigint_of mbind res_bind].
    fold (scaled_units a). destruct (scaled_units a <=? 0); done.
  - rewrite (proj2 (Z.ltb_ge _ (2 ^ 2098))) by lia. done.
Qed.

(** From the smallest accepted difficulty on, the scaled value is at least 1. *)
Lemma scaled_units_pos a : MIN_UNITS <= a -> 1 <= scaled_units a.
Proof.
  intros Ha. unfold scaled_units.
  assert (2 ^ 1073 <= rnd (a * 1000000) 1).
  { replace (2 ^ 1073) with (rnd (1 * 2 ^ 1073 * 1) 1) by (rewrite rnd_exact; lia).
    assert (2 ^ 1073 <= MIN_UNITS * 1000000) by (vm_compute; discriminate).
    apply rnd_mono; lia. }
  apply Z.div_le_lower_bound; [lia|]. change (2 ^ 1075) with (2 * 2 ^ 1073 + 2 ^ 1074). lia.
Qed.

Lemma scaled_units_mono a b : 0 <= a <= b -> scaled_units a <= scaled_units b.
Proof.
  intros Hab. unfold scaled_units. apply Z.div_le_mono; [lia|].
  assert (rnd (a * 1000000) 1 <= rnd (b * 1000000) 1) by (apply rnd_mono; lia). lia.
Qed.

(** Below 2^33 the scaled value is within 1 of the exact product. *)
Lemma scaled_units_error a : 0 <= a < 2 ^ 33 * 2 ^ 1074 ->
  Z.abs (scaled_units a * 2 ^ 1074 - a * 1000000) <= 2 ^ 1074.
Proof.
  intros Ha. pose proof (rnd_error (a * 1000000) 1 ltac:(lia) ltac:(lia)) as He.
  rewrite Z.div_1_r in He.
  assert (2 ^ quantum (a * 1000000) <= 2 ^ 1074).
  { apply Z.pow_le_mono_r; [lia|]. unfold quantum.
    assert (a * 1000000 < 2 ^ 1127).
    { replace (2 ^ 1127) with (2 ^ 53 * 2 ^ 1074) by (by rewrite <- Z.pow_add_r by lia). lia. }
    destruct (decide (a * 1000000 = 0)) as [->|]; [cbn; lia|].
    rewrite Zdigits2_log2 by lia. assert (Z.log2 (a * 1000000) < 1127) by (apply Z.log2_lt_pow2; lia). lia. }
  unfold scaled_units. set (r := rnd (a * 1000000) 1) in *.
  pose proof (Z.div_mod (2 * r + 2 ^ 1074) (2 ^ 1075) ltac:(lia)).
  pose proof (Z.mod_pos_bound (2 * r + 2 ^ 1074) (2 ^ 1075) ltac:(lia)).
  replace (2 ^ 1075) with (2 * 2 ^ 1074) in * by (by rewrite <- (Z.pow_succ_r 2 1074) by lia). lia.
Qed.

(** On every positive double below 2^33 the conversion to a target is total
    from [MIN_SHARE_DIFFICULTY] on: it divides the difficulty-1 target by the
    difficulty in millionths, rounded with an error of at most one millionth, and
    the result never exceeds a million times the difficulty-1 target, which is
    below 2^244, so no accepted difficulty is all-accepting.  Below the minimum it
    throws.  The double [x] is [a] units of 2^-1074. *)
Theorem targetFromShareDifficulty_spec x a :
  fin x a -> 0 < a < 2 ^ 33 * 2 ^ 1074 ->
  if nlt x MIN_SHARE_DIFFICULTY then
    targetFromShareDifficulty x
      = Throw "the 1e6 scale would collapse it to an all-accepting target"
  else exists n, 1 <= n /\ Z.abs (n * 2 ^ 1074 - a * 1000000) <= 2 ^ 1074 /\
    targetFromShareDifficulty x = Ok (POOL_DIFF1_TARGET * 1000000 / n) /\
    POOL_DIFF1_TARGET * 1000000 / n <= POOL_DIFF1_TARGET * 1000000 < 2 ^ 244.
Proof.
  intros Hx Ha. rewrite (nlt_min_share x a Hx).
  rewrite (targetFromShareDifficulty_fin x a) by (done || lia).
  destruct (Z.ltb_spec a MIN_UNITS) as [|Hmin]; [done|].
  pose proof (scaled_units_pos a Hmin) as Hn. exists (scaled_units a).
  pose proof (scaled_units_error a ltac:(lia)) as He.
  assert (rnd (a * 1000000) 1 < 2 ^ 2098) as Hfin.
  { eapply Z.le_lt_trans; [apply (rnd_mono _ 1 (1 * 2 ^ 1127 * 1) 1); lia|].
    rewrite rnd_exact by lia. rewrite Z.mul_1_l. apply Z.pow_lt_mono_r; lia. }
  rewrite (proj2 (Z.ltb_lt _ _) Hfin), (proj2 (Z.leb_gt (scaled_units a) 0)) by lia.
  split_and!; [done|done|done| |vm_compute; reflexivity].
  apply Z.div_le_upper_bound; [lia|]. assert (0 < POOL_DIFF1_TARGET) by (vm_compute; reflexivity). nia.
Qed.

Lemma targetFromShareDifficulty_spec_witness :
  nlt (num_of_Z 1024) MIN_SHARE_DIFFICULTY = false /\
  exists n, 1 <= n /\ targetFromShareDifficulty (num_of_Z 1024) = Ok (POOL_DIFF1_TARGET * 1000000 / n).
Proof.
  pose proof (targetFromShareDifficulty_spec (num_of_Z 1024) (1024 * 2 ^ 1074)
    (num_of_Z_exact 1024 ltac:(lia)) ltac:(lia)) as H.
  assert (nlt (num_of_Z 1024) MIN_SHARE_DIFFICULTY = false) as E by (vm_compute; reflexivity).
  split; [exact E|]. rewrite E in H. destruct H as (n & Hn & _ & Hok & _). exists n. split; [exact Hn|exact Hok].
Defined.

(** A higher share difficulty never gives an easier target. *)
Theorem targetFromShareDifficulty_antitone x y tx ty :
  pos_num x -> pos_num y -> nle x y = true ->
  targetFromShareDifficulty x = Ok tx -> targetFromShareDifficulty y = Ok ty -> ty <= tx.
Proof.
  intros Hx Hy Hle. destruct (pos_num_fin x Hx) as (a & Ha & Hapos).
  destruct (pos_num_fin y Hy) as (b & Hb & Hbpos).
  rewrite (nle_fin x y a b) in Hle by done. apply Z.leb_le in Hle.
  rewrite (targetFromShareDifficulty_fin x a), (targetFromShareDifficulty_fin y b) by done.
  pose proof (scaled_units_mono a b ltac:(lia)) as Hm. revert Hm.
  generalize (scaled_units a) (scaled_units b). intros na nb Hm.
  destruct (a <? MIN_UNITS), (b <? MIN_UNITS), (rnd (a * 1000000) 1 <? 2 ^ 2098),
    (rnd (b * 1000000) 1 <? 2 ^ 2098); try (intros; congruence).
  destruct (Z.leb_spec na 0), (Z.leb_spec nb 0); try (intros; congruence).
  intros H1 H2. assert (tx = POOL_DIFF1_TARGET * 1000000 / na) as -> by congruence.
  assert (ty = POOL_DIFF1_TARGET * 1000000 / nb) as -> by congruence.
  apply Z.div_le_compat_l; [|lia]. assert (0 < POOL_DIFF1_TARGET) by (vm_compute; reflexivity). lia.
Qed.

Lemma targetFromShareDifficulty_antitone_witness :
  POOL_DIFF1_TARGET * 1000000 / 4000000 <= POOL_DIFF1_TARGET * 1000000 / 500000.
Proof.
  apply (targetFromShareDifficulty_antitone (literal 1 2) (num_of_Z 4));
    try (vm_compute; reflexivity); repeat split; vm_compute; reflexivity.
Defined.

(** With positive configured and network difficulties the assigned share
    difficulty is one of the two and not above either; an unusable network
    difficulty leaves the configured one. *)
Theorem assignedShareDifficulty_spec configured network :
  pos_num configured ->
  (pos_num network ->
    let d := assignedShareDifficulty configured (Some network) in
    (d = configured \/ d = network) /\ nle d configured = true /\ nle d network = true) /\
  assignedShareDifficulty configured None = configured /\
  (isFinite network = false \/ nle network n0 = true ->
    assignedShareDifficulty configured (Some network) = configured).
Proof.
  intros Hc. destruct (pos_num_fin _ Hc) as (a & Ha & Hapos). split_and!; [|done|].
  - intros Hn. destruct (pos_num_fin _ Hn) as (b & Hb & Hbpos). cbn. unfold assignedShareDifficulty.
    rewrite (proj1 Ha), (proj1 Hb), (nle_fin network n0 b 0), (nle_fin configured n0 a 0) by done.
    rewrite (proj2 (Z.leb_gt a 0)), (proj2 (Z.leb_gt b 0)) by lia. cbn [negb orb].
    replace (math_min configured network) with (if nlt network configured then network else configured).
    2: { destruct (fin_zero_or _ _ Ha) as [[-> ->]|(m & e & -> & _)]; [lia|].
         destruct (fin_zero_or _ _ Hb) as [[-> ->]|(m' & e' & -> & _)]; [lia|]. done. }
    rewrite (nlt_fin network configured b a) by done.
    destruct (Z.ltb_spec b a); (split; [auto|]).
    + rewrite (nle_fin network configured b a), (nle_fin network network b b) by done.
      rewrite !Z.leb_le. lia.
    + rewrite (nle_fin configured configured a a), (nle_fin configured network a b) by done.
      rewrite !Z.leb_le. lia.
  - intros Hn. unfold assignedShareDifficulty.
    destruct Hn as [-> | ->]; [done|]. by rewrite orb_true_r.
Qed.

Lemma assignedShareDifficulty_spec_witness :
  nle (assignedShareDifficulty (num_of_Z 1024) (Some (literal 1 2))) (literal 1 2) = true.
Proof.
  destruct (assignedShareDifficulty_spec (num_of_Z 1024) (literal 1 2)) as [H _];
    [repeat split; vm_compute; reflexivity|].
  apply H. repeat split; vm_compute; reflexivity.
Defined.

(** The assigned difficulty can be harder than the network target all the
    same: the network difficulty is truncated to 1e-7 but the share target is
    computed from millionths rounded to nearest.  At bits 0x1e7fff80 (half the
    testnet limit) the target of the assigned difficulty is below the network
    target, and on regtest (0x207fffff) the network difficulty is 0 and is
    ignored, so the configured difficulty 1 stays, far harder than the network. *)
Theorem assigned_harder_than_network :
  let assigned bits := assignedShareDifficulty (num_of_Z 1) (Some (networkDifficultyFromBits bits)) in
  let harder bits :=
    match targetFromShareDifficulty (assigned bits) with
    | Ok t => t <? targetFromBits bits
    | Throw _ => false
    end in
  harder 0x1e7fff80 = true /\ nlt n0 (networkDifficultyFromBits 0x1e7fff80) = true /\
  harder 0x207fffff = true /\ networkDifficultyFromBits 0x207fffff = n0.
Proof. cbv zeta. repeat apply conj; vm_compute; reflexivity. Qed.

(** The testnet operating floor 0x1effff80 has the sign bit of the compact
    form set, the node reads it as a negative number, and the LWMA-3 clamp falls
    back to the consensus limit at every height: the configured floor is never
    applied. *)
Theorem testnet_operating_floor_disabled nHeight :
  let powLimit := 0xffff * 2 ^ 224 in
  effective_floor powLimit 0x1effff80 10000 nHeight = powLimit /\
  snd (fst (SetCompact 0x1effff80)) = true.
Proof.
  split; [|vm_compute; reflexivity]. unfold effective_floor.
  destruct (nHeight + 1 >? 10000); vm_compute; reflexivity.
Qed.
