(* ===== verification/Vardiff.v ===== *)
(** * Variable difficulty ([pool/src/stratum/difficulty.ts])

    The per-connection controller: a window of accepted shares, retuned by at most
    a factor [maxStep] and clamped to [minDiff, maxDiff].  Times are integral
    milliseconds; every other quantity is a double. *)

From stdpp Require Import relations.
From S2P Require Import Prelude JsNumber JsRound.

Record VardiffParams := {
  targetSeconds : jsnum;
  retuneSeconds : jsnum;
  minDiff : jsnum;
  maxDiff : jsnum;
  initialDiff : jsnum;
  maxStep : jsnum
}.

Record Vardiff := {
  params : VardiffParams;
  currentDiff : jsnum;
  windowStart : Z;
  sharesInWindow : Z
}.

(** [new Vardiff(params, startTime)]. *)
Definition new_vardiff (p : VardiffParams) (startTime : Z) : Vardiff :=
  {| params := p; currentDiff := initialDiff p; windowStart := startTime; sharesInWindow := 0 |}.

(** [this.sharesInWindow++]; adding 1 to 2^53 gives 2^53 again. *)
Definition onShareAccepted (v : Vardiff) : Vardiff :=
  {| params := params v; currentDiff := currentDiff v; windowStart := windowStart v;
     sharesInWindow := if sharesInWindow v <? 2 ^ 53 then sharesInWindow v + 1 else 2 ^ 53 |}.

(** The observed interval between shares and the factor it asks for, clamped to
    one step. *)
Definition observed_interval (v : Vardiff) (elapsed : jsnum) : jsnum :=
  if 0 <? sharesInWindow v then ndiv elapsed (num_of_Z (sharesInWindow v)) else elapsed.

Definition retune_multiplier (p : VardiffParams) (observedInterval : jsnum) : jsnum :=
  let ratio :=
    if nlt n0 (targetSeconds p) then
      if nlt n0 observedInterval then ndiv (targetSeconds p) observedInterval else n1
    else n1 in
  let multiplier := if nlt (maxStep p) ratio then maxStep p else ratio in
  if nlt multiplier (ndiv n1 (maxStep p)) then ndiv n1 (maxStep p) else multiplier.

Definition retune_next (p : VardiffParams) (cur multiplier : jsnum) : jsnum :=
  let next := nmul cur multiplier in
  let next := if nlt next (minDiff p) then minDiff p else next in
  if nlt (maxDiff p) next then maxDiff p else next.

Definition maybeRetune (v : Vardiff) (now : Z) : option jsnum * Vardiff :=
  let p := params v in
  let elapsed := ndiv (num_of_Z (now - windowStart v)) (num_of_Z 1000) in
  if nlt elapsed (retuneSeconds p) then (None, v) else
  let v0 := if sharesInWindow v =? 0
            then {| params := p; currentDiff := currentDiff v; windowStart := now;
                    sharesInWindow := 0 |}
            else v in
  if (sharesInWindow v =? 0) && nlt elapsed (targetSeconds p) then (None, v0) else
  let multiplier := retune_multiplier p (observed_interval v elapsed) in
  let next := retune_next p (currentDiff v) multiplier in
  let v1 := {| params := p; currentDiff := currentDiff v; windowStart := now; sharesInWindow := 0 |} in
  if nlt (ndiv (nabs (nsub next (currentDiff v))) (currentDiff v)) (literal 1 10) then (None, v1)
  else (Some next, {| params := p; currentDiff := next; windowStart := now; sharesInWindow := 0 |}).

Definition setDiff (v : Vardiff) (next : jsnum) (now : Z) : res (jsnum * Vardiff) :=
  _ ← throw_if (negb (isFinite next) || nle next n0) "difficulty must be finite and > 0";
  _ ← throw_if (nlt next (minDiff (params v)) || nlt (maxDiff (params v)) next) "difficulty outside range";
  Ok (next, {| params := params v; currentDiff := next; windowStart := now; sharesInWindow := 0 |}).

(** What a connection does with its controller, in any order. *)
Inductive vstep : Vardiff -> Vardiff -> Prop :=
  | vstep_share v : vstep v (onShareAccepted v)
  | vstep_retune v now : 0 <= now < 2 ^ 53 -> vstep v (snd (maybeRetune v now))
  | vstep_set v next now v' : 0 <= now < 2 ^ 53 -> valid_binary 53 1024 next = true ->
      setDiff v next now = Ok (next, v') -> vstep v v'.

(** Sensible parameters: a positive range around the initial difficulty, a
    positive target interval and a step of at least 1. *)
Definition params_ok (p : VardiffParams) : Prop :=
  pos_num (minDiff p) /\ pos_num (maxDiff p) /\ pos_num (initialDiff p) /\
  nle (minDiff p) (initialDiff p) = true /\ nle (initialDiff p) (maxDiff p) = true /\
  pos_num (targetSeconds p) /\ pos_num (retuneSeconds p) /\
  pos_num (maxStep p) /\ nle n1 (maxStep p) = true.

(** The invariant: the difficulty is a double in [minDiff, maxDiff]. *)
Definition in_range (v : Vardiff) : Prop :=
  params_ok (params v) /\ pos_num (currentDiff v) /\ 0 <= windowStart v < 2 ^ 53 /\
  0 <= sharesInWindow v <= 2 ^ 53 /\
  nle (minDiff (params v)) (currentDiff v) = true /\ nle (currentDiff v) (maxDiff (params v)) = true.

(** ** The clock *)
Lemma elapsed_neg z t : - 2 ^ 53 < z < 0 -> pos_num t ->
  nlt (ndiv (num_of_Z z) (num_of_Z 1000)) t = true.
Proof.
  intros Hz Ht. destruct (pos_num_fin t Ht) as (b & Hb & Hbpos).
  pose proof (num_of_Z_neg z ltac:(lia)) as Hv.
  assert (isFinite (num_of_Z z) = true) as Hf.
  { eapply has_val_finite; [exact Hv|]. apply rnd_small; [lia|lia|].
    replace (2 ^ 1127) with (2 ^ 53 * 2 ^ 1074) by (symmetry; apply (Z.pow_add_r 2 53 1074); lia). lia. }
  pose proof (ndiv_signed true _ _ _ _ Hf Hv (num_of_Z_exact 1000 ltac:(lia)) ltac:(lia)) as Hd.
  exact (neg_nlt_pos _ t _ b Hd Hb Hbpos).
Qed.

Lemma elapsed_pos z : 0 <= z < 2 ^ 53 ->
  fin (ndiv (num_of_Z z) (num_of_Z 1000)) (rnd (z * 2 ^ 1074 * 2 ^ 1074) (1000 * 2 ^ 1074)).
Proof.
  intros Hz. pose proof (num_of_Z_exact z Hz) as Hv.
  pose proof (ndiv_val _ _ _ _ Hv (num_of_Z_exact 1000 ltac:(lia)) ltac:(lia)) as Hd.
  apply finite_small_fin; [exact Hd|]. apply rnd_small; [lia|lia|].
  replace (2 ^ 1127) with (2 ^ 53 * 2 ^ 1074) by (symmetry; apply (Z.pow_add_r 2 53 1074); lia). nia.
Qed.

(** A window that is long enough has a positive finite length. *)
Lemma elapsed_cases now ws t : 0 <= now < 2 ^ 53 -> 0 <= ws < 2 ^ 53 -> pos_num t ->
  nlt (ndiv (num_of_Z (now - ws)) (num_of_Z 1000)) t = false ->
  exists a, fin (ndiv (num_of_Z (now - ws)) (num_of_Z 1000)) a /\ 0 < a.
Proof.
  intros Hn Hw Ht Hlt. destruct (decide (now - ws < 0)) as [Hneg|Hpos].
  { rewrite elapsed_neg in Hlt by (lia || exact Ht). discriminate Hlt. }
  destruct (pos_num_fin t Ht) as (b & Hb & Hbpos).
  pose proof (elapsed_pos (now - ws) ltac:(lia)) as Hd.
  eexists. split; [exact Hd|]. rewrite (nlt_fin _ t _ b Hd Hb) in Hlt. apply Z.ltb_ge in Hlt. lia.
Qed.

(** ** One step of the controller, in units of 2^-1074 *)
Abbreviation U := (2 ^ 1074).

Lemma n1_fin : fin n1 U.
Proof. pose proof (num_of_Z_exact 1 ltac:(lia)) as H. rewrite Z.mul_1_l in H. exact H. Qed.

Lemma num_of_Z_count z : 0 < z <= 2 ^ 53 -> exists b, fin (num_of_Z z) b /\ U <= b.
Proof.
  intros Hz. pose proof (num_of_Z_val z ltac:(lia)) as Hv. exists (rnd (z * U) 1). split.
  - apply finite_small_fin; [exact Hv|]. apply rnd_small; [lia|lia|].
    replace (2 ^ 1127) with (2 ^ 53 * U) by (symmetry; apply (Z.pow_add_r 2 53 1074); lia). nia.
  - apply Z.le_trans with (rnd (1 * U * 1) 1).
    + rewrite rnd_exact by lia. lia.
    + apply rnd_mono; nia.
Qed.

(** Reading [params_ok] as values. *)
Lemma params_ok_fin p : params_ok p -> exists lo hi T M,
  fin (minDiff p) lo /\ fin (maxDiff p) hi /\ fin (targetSeconds p) T /\ fin (maxStep p) M /\
  0 < lo /\ 0 < T /\ U <= M.
Proof.
  intros (Hlo & Hhi & _ & _ & _ & Ht & _ & Hm & H1).
  destruct (pos_num_fin _ Hlo) as (lo & ? & ?). destruct (pos_num_fin _ Hhi) as (hi & ? & ?).
  destruct (pos_num_fin _ Ht) as (T & ? & ?). destruct (pos_num_fin _ Hm) as (M & HM & ?).
  rewrite (nle_fin _ _ _ _ n1_fin HM) in H1. apply Z.leb_le in H1. exists lo, hi, T, M. auto 10.
Qed.

Lemma inverse_step M x : fin x M -> U <= M -> exists I, fin (ndiv n1 x) I /\ I <= U.
Proof.
  intros Hx HM. pose proof (ndiv_val _ _ _ _ n1_fin Hx ltac:(lia)) as Hd.
  assert (rnd (U * U) M <= U) as Hle.
  { apply Z.le_trans with (rnd (1 * U * 1) 1); [apply rnd_mono; nia|]. rewrite rnd_exact by lia. lia. }
  exists (rnd (U * U) M). split; [|exact Hle]. apply finite_small_fin; [exact Hd|].
  eapply Z.le_lt_trans; [exact Hle|]. apply Z.pow_lt_mono_r; lia.
Qed.

(** The unclamped ratio: 1 when it cannot be formed. *)
Definition ratio_units (T O : Z) : Z := if 0 <? O then rnd (T * U) O else U.

Lemma clamp_step x y a r : fin x a -> has_val y false r ->
  fin (if nlt x y then x else y) (Z.min a r).
Proof.
  intros Hx Hy. rewrite (nlt_val x y a r Hx Hy). pose proof (fin_bound x a Hx).
  destruct (Z.ltb_spec a r); [rewrite Z.min_l by lia; exact Hx|].
  rewrite Z.min_r by lia. apply finite_small_fin; [exact Hy|lia].
Qed.

Lemma clamp_low x y a b : fin x a -> fin y b -> fin (if nlt x y then y else x) (Z.max a b).
Proof.
  intros Hx Hy. rewrite (nlt_fin x y a b Hx Hy).
  destruct (Z.ltb_spec a b); [rewrite Z.max_r by lia; exact Hy|rewrite Z.max_l by lia; exact Hx].
Qed.

Lemma retune_multiplier_val p o O T M : fin o O -> fin (targetSeconds p) T -> fin (maxStep p) M ->
  0 < T -> U <= M ->
  exists I, fin (ndiv n1 (maxStep p)) I /\ I <= U /\
    fin (retune_multiplier p o) (Z.max (Z.min M (ratio_units T O)) I).
Proof.
  intros Ho HT HM HTpos HMU. destruct (inverse_step M _ HM HMU) as (I & HI & HIU).
  exists I. split_and!; [exact HI|exact HIU|]. unfold retune_multiplier.
  apply clamp_low; [|exact HI]. apply clamp_step; [exact HM|].
  rewrite (nlt_fin _ _ _ _ n0_fin HT), (nlt_fin _ _ _ _ n0_fin Ho). unfold ratio_units.
  rewrite (proj2 (Z.ltb_lt 0 T)) by lia. destruct (Z.ltb_spec 0 O); [|exact (proj2 n1_fin)].
  by apply ndiv_val.
Qed.

(** Next difficulty: the product clamped to the range. *)
Lemma retune_next_val p x c mu lo hi m : fin x c -> fin m mu ->
  fin (minDiff p) lo -> fin (maxDiff p) hi ->
  fin (retune_next p x m) (Z.min hi (Z.max (rnd (c * mu) U) lo)).
Proof.
  intros Hx Hm Hlo Hhi. unfold retune_next. apply clamp_step; [exact Hhi|].
  pose proof (nmul_val x m c mu Hx Hm) as Hp. rewrite (nlt_val_l _ _ lo _ Hlo Hp).
  destruct (Z.ltb_spec (rnd (c * mu) U) lo);
    [rewrite Z.max_r by lia; exact (proj2 Hlo)|rewrite Z.max_l by lia; exact Hp].
Qed.

Lemma observed_interval_fin v e a : fin e a -> 0 <= sharesInWindow v <= 2 ^ 53 ->
  exists O, fin (observed_interval v e) O.
Proof.
  intros He Hs. unfold observed_interval. destruct (Z.ltb_spec 0 (sharesInWindow v)); [|by exists a].
  destruct (num_of_Z_count (sharesInWindow v) ltac:(lia)) as (b & Hb & HbU).
  pose proof (ndiv_val _ _ _ _ He Hb ltac:(lia)) as Hd. exists (rnd (a * U) b).
  apply finite_small_fin; [exact Hd|].
  apply Z.le_lt_trans with a; [|exact (fin_bound e a He)].
  pose proof (fin_nonneg e a He) as Ha.
  rewrite <- (rnd_fin e a He) at 2. apply rnd_mono; nia.
Qed.

(** What [maybeRetune] leaves behind: the same parameters and a difficulty that
    is either unchanged or the clamped next one. *)
Lemma maybeRetune_cases v now : in_range v -> 0 <= now < 2 ^ 53 ->
  let e := ndiv (num_of_Z (now - windowStart v)) (num_of_Z 1000) in
  let '(r, v') := maybeRetune v now in
  params v' = params v /\ (windowStart v' = windowStart v \/ windowStart v' = now) /\
  (sharesInWindow v' = sharesInWindow v \/ sharesInWindow v' = 0) /\
  match r with
  | None => currentDiff v' = currentDiff v
  | Some next => currentDiff v' = next /\ nlt e (retuneSeconds (params v)) = false /\
      next = retune_next (params v) (currentDiff v) (retune_multiplier (params v) (observed_interval v e))
  end.
Proof.
  intros Hv Hn. cbv zeta. unfold maybeRetune.
  destruct (nlt _ (retuneSeconds _)) eqn:E1; [auto 10|].
  destruct (Z.eqb_spec (sharesInWindow v) 0) as [Hs|Hs]; cbn [andb].
  - destruct (nlt _ (targetSeconds _)); [cbn; auto 10|].
    destruct (nlt _ (literal 1 10)); cbn; auto 10.
  - destruct (nlt _ (literal 1 10)); cbn; auto 10.
Qed.

Lemma in_range_fin v : in_range v -> exists c lo hi T M,
  fin (currentDiff v) c /\ fin (minDiff (params v)) lo /\ fin (maxDiff (params v)) hi /\
  fin (targetSeconds (params v)) T /\ fin (maxStep (params v)) M /\
  0 < lo /\ 0 < T /\ U <= M /\ lo <= c <= hi.
Proof.
  intros (Hp & Hc & _ & _ & H1 & H2). destruct (params_ok_fin _ Hp) as (lo & hi & T & M & ? & ? & ? & ? & ? & ? & ?).
  destruct (pos_num_fin _ Hc) as (c & Hcf & _). exists c, lo, hi, T, M.
  rewrite (nle_fin _ _ lo c) in H1 by assumption. rewrite (nle_fin _ _ c hi) in H2 by assumption.
  apply Z.leb_le in H1, H2. auto 12.
Qed.

(** The next difficulty as a value, with the bounds every retune obeys. *)
Lemma retune_step v now c lo hi T M : in_range v -> 0 <= now < 2 ^ 53 ->
  let e := ndiv (num_of_Z (now - windowStart v)) (num_of_Z 1000) in
  nlt e (retuneSeconds (params v)) = false ->
  fin (currentDiff v) c -> fin (minDiff (params v)) lo -> fin (maxDiff (params v)) hi ->
  fin (targetSeconds (params v)) T -> fin (maxStep (params v)) M -> 0 < T -> U <= M ->
  exists O I, fin (observed_interval v e) O /\ fin (ndiv n1 (maxStep (params v))) I /\ I <= U /\
    fin (retune_next (params v) (currentDiff v) (retune_multiplier (params v) (observed_interval v e)))
      (Z.min hi (Z.max (rnd (c * Z.max (Z.min M (ratio_units T O)) I) U) lo)).
Proof.
  intros (Hp & Hc & Hw & Hs & _) Hn e He Hcf Hlo Hhi HT HM HTpos HMU.
  assert (pos_num (retuneSeconds (params v))) as Hr by (destruct Hp as (_ & _ & _ & _ & _ & _ & Hr & _); exact Hr).
  destruct (elapsed_cases now (windowStart v) _ Hn Hw Hr He) as (a & Ha & _).
  destruct (observed_interval_fin v e a Ha Hs) as (O & HO).
  destruct (retune_multiplier_val _ _ O T M HO HT HM HTpos HMU) as (I & HI & HIU & Hmu).
  exists O, I. split_and!; try assumption. by apply retune_next_val.
Qed.

Lemma in_range_intro p x c lo hi t n : params_ok p -> fin x c ->
  fin (minDiff p) lo -> fin (maxDiff p) hi -> 0 < lo -> lo <= c <= hi ->
  0 <= t < 2 ^ 53 -> 0 <= n <= 2 ^ 53 ->
  in_range {| params := p; currentDiff := x; windowStart := t; sharesInWindow := n |}.
Proof.
  intros Hp Hx Hlo Hhi Hpos Hc Ht Hn. unfold in_range; cbn [params currentDiff windowStart sharesInWindow].
  rewrite (nle_fin _ _ lo c), (nle_fin _ _ c hi), !Z.leb_le by assumption.
  split_and!; try assumption; try lia. apply (fin_pos_num x c); [exact Hx|lia].
Qed.

Lemma in_range_eta v : in_range v -> forall t n, 0 <= t < 2 ^ 53 -> 0 <= n <= 2 ^ 53 ->
  in_range {| params := params v; currentDiff := currentDiff v; windowStart := t; sharesInWindow := n |}.
Proof. intros (? & ? & _ & _ & ? & ?) t n Ht Hn. unfold in_range. cbn. auto 10. Qed.

Lemma vstep_in_range v v' : in_range v -> vstep v v' -> in_range v' /\ params v' = params v.
Proof.
  intros Hv Hs. pose proof Hv as (Hp & Hc & Hw & Hn & Hlo & Hhi).
  destruct Hs as [v|v now Hnow|v next now v' Hnow Hval Hset].
  - split; [|done]. apply (in_range_eta v Hv); [done|]. destruct (Z.ltb_spec (sharesInWindow v) (2 ^ 53)); lia.
  - pose proof (maybeRetune_cases v now Hv Hnow) as Hcases. cbv zeta in Hcases.
    destruct (maybeRetune v now) as [r v'] eqn:E. destruct Hcases as (Ep & Ew & Es & Er). cbn [snd].
    split; [|exact Ep]. destruct v' as [p' x' w' n']. cbn [params currentDiff windowStart sharesInWindow] in *.
    assert (0 <= w' < 2 ^ 53) as Hw' by (destruct Ew as [->| ->]; lia).
    assert (0 <= n' <= 2 ^ 53) as Hn' by (destruct Es as [->| ->]; lia). subst p'.
    destruct r as [next|]; [|subst x'; by apply in_range_eta].
    destruct Er as (-> & He & ->).
    destruct (in_range_fin v Hv) as (c & lo & hi & T & M & Hcf & Hlof & Hhif & HT & HM & ? & ? & ? & ?).
    destruct (retune_step v now c lo hi T M Hv Hnow He Hcf Hlof Hhif HT HM) as (O & I & _ & _ & _ & Hf);
      [lia|lia|].
    eapply in_range_intro; try eassumption; lia.
  - unfold setDiff in Hset. destruct (negb (isFinite next) || nle next n0) eqn:E1; [discriminate Hset|].
    destruct (nlt next _ || nlt _ next) eqn:E2; [discriminate Hset|]. injection Hset as <-.
    apply orb_false_iff in E1 as [Ef E0], E2 as [E3 E4]. apply negb_false_iff in Ef.
    assert (forall x y, isFinite x = true -> isFinite y = true -> nlt x y = false -> nle y x = true) as Hnl.
    { intros x y Hx Hy. apply nlt_false; by apply isFinite_not_nan. }
    pose proof Hp as (Hp1 & Hp2 & _). split; [|done]. unfold in_range; cbn. split; [exact Hp|].
    split; [|split; [lia|split; [lia|split]]].
    + split; [exact Hval|split; [exact Ef|]]. destruct next as [| | |[] m e]; done.
    + apply Hnl; [exact Ef|exact (proj1 (proj2 Hp1))|exact E3].
    + apply Hnl; [exact (proj1 (proj2 Hp2))|exact Ef|exact E4].
Qed.

(** ** Properties *)

(** Whatever sequence of shares, retunes (at any clock readings, also ones
    that go backwards) and accepted difficulty settings a connection goes through,
    its difficulty stays a finite double between [minDiff] and [maxDiff]. *)
Theorem vardiff_stays_in_range p t0 v :
  params_ok p -> 0 <= t0 < 2 ^ 53 -> rtc vstep (new_vardiff p t0) v ->
  pos_num (currentDiff v) /\ nle (minDiff p) (currentDiff v) = true /\
  nle (currentDiff v) (maxDiff p) = true.
Proof.
  intros Hp Ht Hr.
  assert (in_range (new_vardiff p t0)) as H0.
  { pose proof Hp as (_ & _ & Hi & Hlo & Hhi & _). unfold in_range; cbn.
    split; [exact Hp|]. split; [exact Hi|]. auto with lia. }
  assert (in_range v /\ params v = p) as [(_ & Hc & _ & _ & Hlo & Hhi) <-]; [|auto].
  assert (params (new_vardiff p t0) = p) as Hpar by done. revert H0 Hpar.
  generalize (new_vardiff p t0) Hr. clear Hr. intros v0 Hr. induction Hr as [v0|v0 v1 v Hs Hr IH]; [auto|].
  intros H0 Hpar. destruct (vstep_in_range v0 v1 H0 Hs) as [H1 E1]. apply IH; [done|congruence].
Qed.

Definition example_params : VardiffParams := {|
  targetSeconds := num_of_Z 10; retuneSeconds := num_of_Z 30; minDiff := num_of_Z 64;
  maxDiff := num_of_Z 16000000; initialDiff := num_of_Z 1024; maxStep := num_of_Z 4 |}.

Lemma example_params_ok : params_ok example_params.
Proof. repeat split; vm_compute; reflexivity. Qed.

Lemma vardiff_stays_in_range_witness :
  nle (minDiff example_params)
    (currentDiff (snd (maybeRetune (new_vardiff example_params 0) 60000))) = true.
Proof.
  refine (proj1 (proj2 (vardiff_stays_in_range example_params 0
    (snd (maybeRetune (new_vardiff example_params 0) 60000)) example_params_ok _ _))); [lia|].
  apply rtc_once, vstep_retune. lia.
Defined.

(** A retune that changes the difficulty moves it the right way: not down
    when shares came at least as fast as the target interval, not up when they
    came no faster; and one retune changes it by at most the factor [maxStep]
    (as a rounded product) in either direction. *)
Theorem maybeRetune_direction v now next v' :
  in_range v -> 0 <= now < 2 ^ 53 -> maybeRetune v now = (Some next, v') ->
  let p := params v in
  let cur := currentDiff v in
  let interval := observed_interval v (ndiv (num_of_Z (now - windowStart v)) (num_of_Z 1000)) in
  currentDiff v' = next /\
  (nlt n0 interval = true -> nle interval (targetSeconds p) = true -> nle cur next = true) /\
  (nle (targetSeconds p) interval = true -> nle next cur = true) /\
  nle next (nmul cur (maxStep p)) = true /\
  nle (nmul cur (ndiv n1 (maxStep p))) next = true.
Proof.
  intros Hv Hnow E. cbv zeta. pose proof (maybeRetune_cases v now Hv Hnow) as Hc. cbv zeta in Hc.
  rewrite E in Hc. destruct Hc as (_ & _ & _ & Hd & He & Hnext).
  destruct (in_range_fin v Hv) as (c & lo & hi & T & M & Hcf & Hlo & Hhi & HT & HM & Hlopos & HTpos & HMU & Hrange).
  destruct (retune_step v now c lo hi T M Hv Hnow He Hcf Hlo Hhi HT HM HTpos HMU) as (O & I & HO & HI & HIU & Hf).
  rewrite <- Hnext in Hf. pose proof (fin_nonneg _ _ HO) as HO0. pose proof (fin_nonneg _ _ HI) as HI0.
  set (mu := Z.max (Z.min M (ratio_units T O)) I) in *.
  assert (0 <= ratio_units T O) as HR0.
  { unfold ratio_units. destruct (Z.ltb_spec 0 O); [apply rnd_nonneg|]; lia. }
  assert (0 <= mu <= M /\ I <= mu) as Hmu by lia.
  pose proof (rnd_fin _ _ Hcf) as Hrc.
  assert (forall m, U <= m -> c <= rnd (c * m) U) as Hup.
  { intros m Hm. rewrite <- Hrc at 1. apply rnd_mono; nia. }
  assert (forall m, 0 <= m <= U -> rnd (c * m) U <= c) as Hdown.
  { intros m Hm. rewrite <- Hrc at 2. apply rnd_mono; nia. }
  assert (forall m m', 0 <= m <= m' -> rnd (c * m) U <= rnd (c * m') U) as Hmono.
  { intros m m' Hm. apply rnd_mono; nia. }
  split_and!; [exact Hd| | | |].
  - rewrite (nlt_fin _ _ _ _ n0_fin HO), (nle_fin _ _ _ _ HO HT), (nle_fin _ _ _ _ Hcf Hf).
    rewrite Z.ltb_lt, !Z.leb_le. intros HOpos Hle. specialize (Hup mu). 
    assert (U <= ratio_units T O).
    { unfold ratio_units. rewrite (proj2 (Z.ltb_lt 0 O)) by lia.
      replace U with (rnd (1 * U * 1) 1) at 1 by (rewrite rnd_exact; lia). apply rnd_mono; nia. }
    lia.
  - rewrite (nle_fin _ _ _ _ HT HO), (nle_fin _ _ _ _ Hf Hcf), !Z.leb_le. intros Hle.
    assert (ratio_units T O <= U).
    { unfold ratio_units. rewrite (proj2 (Z.ltb_lt 0 O)) by lia.
      replace U with (rnd (1 * U * 1) 1) at 2 by (rewrite rnd_exact; lia). apply rnd_mono; nia. }
    specialize (Hdown mu). lia.
  - rewrite (nle_val _ _ _ _ Hf (nmul_val _ _ _ _ Hcf HM)), Z.leb_le.
    specialize (Hmono mu M). specialize (Hup M). lia.
  - pose proof (nmul_val _ _ _ _ Hcf HI) as HvI. specialize (Hdown I). specialize (Hmono I mu).
    pose proof (fin_bound _ _ Hcf).
    rewrite (nle_fin _ _ _ _ (finite_small_fin _ _ HvI ltac:(lia)) Hf), Z.leb_le. lia.
Qed.

Definition example_busy : Vardiff :=
  {| params := example_params; currentDiff := num_of_Z 1024; windowStart := 0; sharesInWindow := 60 |}.

Lemma example_busy_in_range : in_range example_busy.
Proof. split; [exact example_params_ok|]. repeat split; vm_compute; (reflexivity || discriminate). Qed.

Lemma maybeRetune_direction_witness :
  exists next, fst (maybeRetune example_busy 60000) = Some next /\
    nle (currentDiff example_busy) next = true.
Proof.
  assert (exists next v', maybeRetune example_busy 60000 = (Some next, v')) as (next & v' & E)
    by (vm_compute; eauto).
  exists next. split; [rewrite E; reflexivity|].
  destruct (maybeRetune_direction example_busy 60000 next v' example_busy_in_range ltac:(lia) E)
    as (_ & H & _).
  apply H; vm_compute; reflexivity.
Defined.
