(* ===== verification/Node.v ===== *)
(** * The node's side of the wire ([src/src])

    The parts of the B3Chain node that define what the pool must produce:
    [ReadCompactSize] and the legacy transaction format, the script encoding of a
    block height, and the block merkle root.  They serve as the specification of
    the pool's coinbase and merkle code. *)

From S2P Require Import Prelude Header.

(** ** Reading from a stream *)

(** [is.read(n)]: fails past the end. *)
Definition rd_bytes (n : Z) : reader bytes := fun s =>
  if zlen s <? n then Throw "end of data" else Ok (slice 0 n s, drop (Z.to_nat n) s).

Definition rd_le (n : Z) : reader Z := let_rd b := rd_bytes n in rd_ret (le_val b).

Definition rd_guard (b : bool) (e : string) : reader unit := fun s =>
  if b then Throw e else Ok (tt, s).

Definition MAX_SIZE : Z := 0x02000000.

Definition ReadCompactSize : reader Z :=
  let_rd chSize := rd_le 1 in
  let_rd nSizeRet :=
    (if chSize <? 253 then rd_ret chSize
     else if chSize =? 253 then
       let_rd n := rd_le 2 in
       let_rd _ := rd_guard (n <? 253) "non-canonical ReadCompactSize()" in rd_ret n
     else if chSize =? 254 then
       let_rd n := rd_le 4 in
       let_rd _ := rd_guard (n <? 0x10000) "non-canonical ReadCompactSize()" in rd_ret n
     else
       let_rd n := rd_le 8 in
       let_rd _ := rd_guard (n <? 0x100000000) "non-canonical ReadCompactSize()" in rd_ret n) in
  let_rd _ := rd_guard (nSizeRet >? MAX_SIZE) "ReadCompactSize(): size too large" in
  rd_ret nSizeRet.

(** A length-prefixed byte string ([prevector<unsigned char>], so [CScript]). *)
Definition rd_script : reader bytes := let_rd n := ReadCompactSize in rd_bytes n.

Definition rd_vector {A} (r : reader A) : reader (list A) :=
  let_rd n := ReadCompactSize in rd_times (Z.to_nat n) r.

(** ** Transactions *)
Record COutPoint := { op_hash : bytes; op_n : Z }.
Record CTxIn := { prevout : COutPoint; scriptSig : bytes; nSequence : Z }.
Record CTxOut := { nValue : Z; scriptPubKey : bytes }.
Record CTransaction := { tx_version : Z; vin : list CTxIn; vout : list CTxOut; nLockTime : Z }.

Definition rd_outpoint : reader COutPoint :=
  let_rd h := rd_bytes 32 in let_rd n := rd_le 4 in rd_ret {| op_hash := h; op_n := n |}.
Definition rd_txin : reader CTxIn :=
  let_rd p := rd_outpoint in let_rd s := rd_script in let_rd q := rd_le 4 in
  rd_ret {| prevout := p; scriptSig := s; nSequence := q |}.
(** [CAmount] is signed. *)
Definition to_i64 (z : Z) : Z := if z mod 2 ^ 64 <? 2 ^ 63 then z mod 2 ^ 64 else z mod 2 ^ 64 - 2 ^ 64.
Definition rd_txout : reader CTxOut :=
  let_rd v := rd_le 8 in let_rd s := rd_script in rd_ret {| nValue := to_i64 v; scriptPubKey := s |}.

(** [UnserializeTransaction] with [allow_witness] false. *)
Definition UnserializeTransaction : reader CTransaction :=
  let_rd v := rd_le 4 in
  let_rd i := rd_vector rd_txin in
  let_rd o := rd_vector rd_txout in
  let_rd l := rd_le 4 in
  rd_ret {| tx_version := v; vin := i; vout := o; nLockTime := l |}.

(** ** Script numbers *)

(** The little-endian magnitude; the fuel is the number of bytes of an
    [int64_t]. *)
Fixpoint magnitude (fuel : nat) (v : Z) : bytes :=
  match fuel with
  | O => []
  | S fuel => if v =? 0 then [] else Z.land v 0xff :: magnitude fuel (Z.shiftr v 8)
  end.

Definition set_last (l : bytes) (x : Z) : bytes := removelast l ++ [x].

(** [CScriptNum::serialize]. *)
Definition CScriptNum_serialize (value : Z) : bytes :=
  if value =? 0 then [] else
  let neg := value <? 0 in
  let result := magnitude 8 (Z.abs value) in
  let back := List.last result 0 in
  if negb (Z.land back 0x80 =? 0) then result ++ [if neg then 0x80 else 0]
  else if neg then set_last result (Z.lor back 0x80) else result.

(** [CScript() << n]; the data pushed is at most 9 bytes, so its size is one
    byte. *)
Definition push_int64 (n : Z) : bytes :=
  if (n =? -1) || ((1 <=? n) && (n <=? 16)) then [n + 0x50]
  else if n =? 0 then [0]
  else let d := CScriptNum_serialize n in zlen d :: d.

(** ** The block merkle root ([ComputeMerkleRoot]) *)
Section Merkle.
Context `{Sha256}.

(** One pass: neighbours are hashed together, an odd last one with itself. *)
Fixpoint merkle_level (l : list bytes) : list bytes :=
  match l with
  | a :: b :: l => doubleSha256 (a ++ b) :: merkle_level l
  | [a] => [doubleSha256 (a ++ a)]
  | [] => []
  end.

(** The fuel is the number of hashes: a pass on two or more shortens the list. *)
Fixpoint merkle_rounds (fuel : nat) (l : list bytes) : bytes :=
  match l with
  | [] => zeros 32
  | [a] => a
  | _ => match fuel with O => zeros 32 | S fuel => merkle_rounds fuel (merkle_level l) end
  end.

Definition ComputeMerkleRoot (hashes : list bytes) : bytes := merkle_rounds (length hashes) hashes.
End Merkle.

(** ** Reading what was just written *)
Lemma rd_bytes_app n b s : n = zlen b -> rd_bytes n (b ++ s) = Ok (b, s).
Proof.
  intros ->. unfold rd_bytes. rewrite zlen_app. pose proof (zlen_nonneg s).
  rewrite (proj2 (Z.ltb_ge _ _)) by lia. by rewrite slice_app_l, drop_app_zlen.
Qed.

Lemma rd_le_app n k v s : n = Z.of_nat k ->
  rd_le n (le_bytes k v ++ s) = Ok (v mod 2 ^ (8 * Z.of_nat k), s).
Proof.
  intros ->. unfold rd_le, rd_bind. rewrite rd_bytes_app by (by rewrite le_bytes_zlen).
  unfold rd_ret. by rewrite le_val_bytes.
Qed.

Lemma rd_uint32LE v s : rd_le 4 (uint32LE v ++ s) = Ok (to_u32 v, s).
Proof. unfold uint32LE. rewrite (rd_le_app 4 4) by done. f_equal. f_equal. apply to_u32_idemp. Qed.

(** What [varInt] writes, the node's [ReadCompactSize] reads back, leaving
    the rest of the stream, for every size the node admits. *)
Lemma ReadCompactSize_varInt n s : 0 <= n <= MAX_SIZE ->
  ReadCompactSize (varInt n ++ s) = Ok (n, s).
Proof.
  unfold MAX_SIZE. intros Hn.
  assert (forall c t, 0 <= c < 256 -> rd_le 1 (c :: t) = Ok (c, t)) as H1.
  { intros c t Hc. change (c :: t) with ([c] ++ t). rewrite <- (Z.mod_small c 256) by lia.
    change [c mod 256] with (le_bytes 1 c). rewrite (rd_le_app 1 1) by done. done. }
  unfold ReadCompactSize, varInt, rd_bind, rd_ret, rd_guard, MAX_SIZE.
  destruct (Z.ltb_spec n 253) as [Hs|Hs].
  - cbn [app]. rewrite Z.mod_small by lia. rewrite H1 by lia.
    rewrite (proj2 (Z.ltb_lt n 253)) by lia. rewrite Z.gtb_ltb, (proj2 (Z.ltb_ge _ n)) by lia. done.
  - destruct (Z.leb_spec n 65535).
    + change ((253 :: le_bytes 2 n) ++ s) with (253 :: (le_bytes 2 n ++ s)). rewrite H1 by lia.
      cbn [Z.ltb Z.eqb Z.compare Pos.compare Pos.compare_cont Pos.eqb].
      rewrite (rd_le_app 2 2), Z.mod_small by lia.
      rewrite (proj2 (Z.ltb_ge n 253)) by lia. rewrite Z.gtb_ltb, (proj2 (Z.ltb_ge _ n)) by lia. done.
    + rewrite (proj2 (Z.leb_le n 4294967295)) by lia.
      change ((254 :: le_bytes 4 n) ++ s) with (254 :: (le_bytes 4 n ++ s)). rewrite H1 by lia.
      cbn [Z.ltb Z.eqb Z.compare Pos.compare Pos.compare_cont Pos.eqb].
      rewrite (rd_le_app 4 4), Z.mod_small by lia.
      rewrite (proj2 (Z.ltb_ge n 0x10000)) by lia. rewrite Z.gtb_ltb, (proj2 (Z.ltb_ge _ n)) by lia. done.
Qed.

Lemma rd_script_app b s : zlen b <= MAX_SIZE -> rd_script (varInt (zlen b) ++ b ++ s) = Ok (b, s).
Proof.
  intros Hb. unfold rd_script. pose proof (zlen_nonneg b).
  rewrite (rd_bind_ok _ _ _ _ _ (ReadCompactSize_varInt (zlen b) (b ++ s) ltac:(lia))).
  by apply rd_bytes_app.
Qed.

(** The input up to its sequence number. *)
Lemma rd_txin_script h n b s : zlen h = 32 -> zlen b <= MAX_SIZE ->
  rd_txin (h ++ uint32LE n ++ varInt (zlen b) ++ b ++ s)
  = (let_rd q := rd_le 4 in rd_ret {| prevout := {| op_hash := h; op_n := to_u32 n |}; scriptSig := b; nSequence := q |}) s.
Proof.
  intros Hh Hb. unfold rd_txin, rd_outpoint.
  rewrite (rd_bind_ok _ _ _ {| op_hash := h; op_n := to_u32 n |} (varInt (zlen b) ++ b ++ s)).
  - by rewrite (rd_bind_ok _ _ _ _ _ (rd_script_app b s Hb)).
  - rewrite (rd_bind_ok _ _ _ _ _ (rd_bytes_app 32 h _ (eq_sym Hh))).
    by rewrite (rd_bind_ok _ _ _ _ _ (rd_uint32LE n _)).
Qed.
Lemma rd_txin_app h n b q s : zlen h = 32 -> zlen b <= MAX_SIZE ->
  rd_txin (h ++ uint32LE n ++ varInt (zlen b) ++ b ++ uint32LE q ++ s)
  = Ok ({| prevout := {| op_hash := h; op_n := to_u32 n |}; scriptSig := b; nSequence := to_u32 q |}, s).
Proof. intros Hh Hb. rewrite rd_txin_script by done. by rewrite (rd_bind_ok _ _ _ _ _ (rd_uint32LE q s)). Qed.

Lemma rd_txout_app v b s : 0 <= v < 2 ^ 63 -> zlen b <= MAX_SIZE ->
  rd_txout (le_bytes 8 v ++ varInt (zlen b) ++ b ++ s) = Ok ({| nValue := v; scriptPubKey := b |}, s).
Proof.
  intros Hv Hb. unfold rd_txout. pose proof (rd_le_app 8 8 v (varInt (zlen b) ++ b ++ s) eq_refl) as E.
  rewrite Z.mod_small in E by lia. rewrite (rd_bind_ok _ _ _ _ _ E).
  rewrite (rd_bind_ok _ _ _ _ _ (rd_script_app b s Hb)). unfold to_i64. rewrite Z.mod_small by lia.
  by rewrite (proj2 (Z.ltb_lt v (2 ^ 63))) by lia.
Qed.

Lemma rd_vector_one {A} (r : reader A) s : rd_vector r ([1] ++ s) = (x ← r s; Ok ([x.1], x.2)).
Proof.
  unfold rd_vector. rewrite (rd_bind_ok _ _ _ 1 s) by (apply (ReadCompactSize_varInt 1); by unfold MAX_SIZE).
  change (Z.to_nat 1) with 1%nat. cbn [rd_times]. unfold rd_bind. by destruct (r s) as [[x s']|].
Qed.

(** A vector of up to 252 elements: one count byte, then the elements. *)
Lemma rd_vector_app {A} (r : reader A) (enc : A -> bytes) l s :
  zlen l < 253 -> (forall x t, x ∈ l -> r (enc x ++ t) = Ok (x, t)) ->
  rd_vector r (zlen l :: (l ≫= enc) ++ s) = Ok (l, s).
Proof.
  intros Hl Hr. unfold rd_vector. pose proof (zlen_nonneg l).
  assert (varInt (zlen l) = [zlen l]) as Hv.
  { unfold varInt. rewrite (proj2 (Z.ltb_lt _ _)), Z.mod_small by lia. done. }
  change (zlen l :: (l ≫= enc) ++ s) with ([zlen l] ++ (l ≫= enc) ++ s). rewrite <- Hv.
  rewrite (rd_bind_ok _ _ _ _ _ (ReadCompactSize_varInt (zlen l) _ ltac:(unfold MAX_SIZE; lia))).
  unfold zlen. rewrite Nat2Z.id. clear Hv Hl H. induction l as [|x l IH]; [done|].
  cbn [length rd_times]. rewrite bind_cons, <- app_assoc.
  rewrite (rd_bind_ok _ _ _ _ _ (Hr x _ ltac:(left; done))).
  rewrite (rd_bind_ok _ _ _ l s); [done|]. apply IH. intros y t Hy. apply Hr. by right.
Qed.
