(* ===== verification/JobManager.v ===== *)
(** * Jobs ([pool/src/stratum/job-manager.ts])

    The coinbase split around the extranonce, the merkle branches, and the
    manager that polls block templates.  A job is an object that the manager, its
    job table and every connection share, and [poll] mutates it in place: jobs live
    in a heap and are referred to by location. *)

From S2P Require Import Prelude JsString JsMap Header Address Node.

(** [BlockTemplate] of [lib/rpc.ts], the fields that are used. *)
Record TemplateTx := { tt_data : jsstr; tt_hash : jsstr; tt_txid : option jsstr }.
Record BlockTemplate := {
  bt_version : Z;
  previousblockhash : jsstr;
  transactions : list TemplateTx;
  coinbasevalue : Z;
  bt_target : jsstr;
  mintime : Z;
  curtime : Z;
  bt_bits : jsstr;
  bt_height : Z;
  default_witness_commitment : option jsstr
}.

Definition workSignature (tpl : BlockTemplate) : jsstr :=
  previousblockhash tpl ++ js "|" ++ to_radix 10 (zlen (transactions tpl)) ++ js "|" ++
  bt_bits tpl ++ js "|" ++ to_radix 10 (bt_version tpl).

Definition cleanJobsFor (lastPrev nextPrev : jsstr) : bool := negb (bool_decide (lastPrev = nextPrev)).

(** [JobContext] and its extension [StratumJob].  [bits] is only used through
    32-bit operators, for which [NaN] is 0. *)
Record JobContext := {
  jobId : jsstr;
  coinb1Hex : jsstr;
  coinb2Hex : jsstr;
  merkleBranchesHexBE : list jsstr;
  jc_version : Z;
  jc_bits : Z;
  jc_prevHashHexBE : jsstr;
  networkTargetHexBE : jsstr;
  txnsHex : list jsstr;
  jc_height : Z
}.
Record StratumJob := {
  ctx : JobContext;
  cleanJobs : bool;
  ntimeMin : Z;
  ntimeRoll : Z
}.

(** ** The coinbase *)

(** [while (abs > 0) { bytes.push(abs & 0xff); abs >>>= 8; }]; after one step
    [abs] is below 2^24, so five steps are enough. *)
Fixpoint num_bytes (fuel : nat) (abs : Z) : bytes :=
  match fuel with
  | O => []
  | S fuel => if 0 <? abs then js_and abs 0xff :: num_bytes fuel (js_ushr abs 8) else []
  end.

Definition scriptNumPush (n : Z) : bytes :=
  if n =? 0 then [0] else
  let negative := n <? 0 in
  let b := num_bytes 5 (Z.abs n) in
  let last := List.last b 0 in
  let b := if negb (js_and last 0x80 =? 0) then b ++ [if negative then 0x80 else 0]
           else if negative then set_last b (js_or last 0x80) else b in
  zlen b mod 256 :: b.

Definition buildCoinbase (tpl : BlockTemplate) (payoutAddress poolTag : jsstr)
    : res (jsstr * jsstr) :=
  match addressToScriptPubKey payoutAddress with
  | None => Throw "B3POOL_PAYOUT_ADDRESS is not a valid bech32 address"
  | Some spk =>
      let heightPush := scriptNumPush (bt_height tpl) in
      let extranoncePlaceholder := zeros 8 in
      let tagBytes := utf8_encode poolTag in
      _ ← throw_if (zlen tagBytes >? 75) "pool tag too long";
      tagPush ← concatBytes [[zlen tagBytes mod 256]; tagBytes];
      scriptSig ← concatBytes [heightPush; extranoncePlaceholder; tagPush];
      _ ← throw_if (zlen scriptSig >? 100) "coinbase scriptSig > 100 bytes";
      let prevout := zeros 32 ++ replicate 4 0xff in
      let sequence := uint32LE 0xffffffff in
      let valueBytes := le_bytes 8 (coinbasevalue tpl) in
      vout0 ← concatBytes [valueBytes; varInt (zlen spk); spk];
      vouts ←
        match default_witness_commitment tpl with
        | Some (c :: wc) =>
            wcSpk ← hexToBytes (c :: wc);
            v ← concatBytes [zeros 8; varInt (zlen wcSpk); wcSpk];
            Ok [vout0; v]
        | _ => Ok [vout0]
        end;
      let version := uint32LE 1 in
      let txinCount := [1] in
      let txoutCount := [zlen vouts mod 256] in
      let locktime := uint32LE 0 in
      coinb1 ← concatBytes [version; txinCount; prevout; varInt (zlen scriptSig); heightPush];
      coinb2 ← concatBytes ([tagPush; sequence; txoutCount] ++ vouts ++ [locktime]);
      Ok (bytesToHex coinb1, bytesToHex coinb2)
  end.

Section Sha.
Context `{Sha256}.

(** ** Merkle branches *)
Definition combineHashesBE (aBE bBE : jsstr) : res jsstr :=
  a ← hexToBytes aBE;
  b ← hexToBytes bBE;
  concat ← ta_set (zeros 64) (reverseBytes a) 0;
  concat ← ta_set concat (reverseBytes b) 32;
  Ok (bytesToHex (reverseBytes (sha256 (sha256 concat)))).

Definition combine_entry (left right : option jsstr) : res (option jsstr) :=
  match left, right with
  | Some l, Some r => s ← combineHashesBE l r; Ok (Some s)
  | _, _ => Ok None
  end.

(** The loop [for (let i = 2; i < level.length; i += 2)], from index 2 on. *)
Fixpoint next_level (l : list (option jsstr)) : res (list (option jsstr)) :=
  match l with
  | [] => Ok []
  | [a] => x ← combine_entry a a; Ok [x]
  | a :: b :: l => x ← combine_entry a b; xs ← next_level l; Ok (x :: xs)
  end.

(** [while (level.length > 1)]; each round halves the level, whose initial
    length is enough fuel. *)
Fixpoint branch_loop (fuel : nat) (level : list (option jsstr)) (branches : list jsstr)
    : res (list jsstr) :=
  match fuel with
  | O => Ok branches
  | S fuel =>
      match level with
      | first :: sibling :: rest =>
          let branches := match sibling with Some s => branches ++ [s] | None => branches end in
          next ← next_level rest;
          branch_loop fuel (None :: next) branches
      | _ => Ok branches
      end
  end.

Definition computeMerkleBranches (txidsHexBE : list jsstr) : res (list jsstr) :=
  if zlen txidsHexBE =? 0 then Ok []
  else branch_loop (S (length txidsHexBE)) (None :: (Some <$> txidsHexBE)) [].

(** ** The manager *)
Abbreviation loc := nat (only parsing).

Record JobManager := {
  jobCounter : Z;
  lastTemplateHash : jsstr;
  lastWorkSig : jsstr;
  lastPrev : jsstr;
  currentJob : option loc;
  jobsById : list (jsstr * loc);
  heap : list StratumJob
}.

Definition maxJobs : Z := 32.

Inductive job_event := TemplateError | JobEvent (l : loc).

Definition buildJob (payoutAddress : jsstr) (counter : Z) (tpl : BlockTemplate) (cleanJobs : bool)
    : res (StratumJob * Z) :=
  cb ← buildCoinbase tpl payoutAddress (js "/B3Chain Pool/");
  let txns := tt_data <$> transactions tpl in
  let branches := (fun tx => default (tt_hash tx) (tt_txid tx)) <$> transactions tpl in
  merkleBranches ← computeMerkleBranches branches;
  let counter := (counter + 1) mod 0xfffffff in
  Ok ({| ctx := {|
           jobId := padStart 7 48 (to_radix 16 counter);
           coinb1Hex := fst cb; coinb2Hex := snd cb;
           merkleBranchesHexBE := merkleBranches;
           jc_version := bt_version tpl;
           jc_bits := default 0 (parseIntHex (bt_bits tpl));
           jc_prevHashHexBE := previousblockhash tpl;
           networkTargetHexBE := bt_target tpl;
           txnsHex := txns; jc_height := bt_height tpl |};
         cleanJobs := cleanJobs; ntimeMin := mintime tpl; ntimeRoll := curtime tpl |}, counter).

(** [keys().next().value] is the first key; deleting it drops the first entry. *)
Definition trim_cache (m : list (jsstr * loc)) : list (jsstr * loc) :=
  if zlen m >? maxJobs then tail m else m.

Definition getById (m : JobManager) (id : jsstr) : option StratumJob :=
  l ← map_get id (jobsById m); heap m !! l.
Definition getCurrent (m : JobManager) : option StratumJob :=
  l ← currentJob m; heap m !! l.

(** The second half of [poll]: the signatures are recorded first, then the job is
    built, made current and stored. *)
Definition poll_new (payoutAddress : jsstr) (tpl : BlockTemplate) (clean : bool)
    (workSig timeSig : jsstr) (m : JobManager) : JobManager * list job_event * option string :=
  let m1 := {| jobCounter := jobCounter m; lastTemplateHash := timeSig; lastWorkSig := workSig;
               lastPrev := previousblockhash tpl; currentJob := currentJob m;
               jobsById := jobsById m; heap := heap m |} in
  match buildJob payoutAddress (jobCounter m) tpl clean with
  | Throw e => (m1, [], Some e)
  | Ok (job, counter) =>
      let l := length (heap m) in
      ({| jobCounter := counter; lastTemplateHash := timeSig; lastWorkSig := workSig;
          lastPrev := previousblockhash tpl; currentJob := Some l;
          jobsById := trim_cache (map_set (jobId (ctx job)) l (jobsById m));
          heap := heap m ++ [job] |}, [JobEvent l], None)
  end.

(** One poll.  [tpl] is the answer of [getblocktemplate] ([None]: the call
    failed).  The third component is the exception that escapes, if any. *)
Definition poll (payoutAddress : jsstr) (tpl : option BlockTemplate) (m : JobManager)
    : JobManager * list job_event * option string :=
  match tpl with
  | None => (m, [TemplateError], None)
  | Some tpl =>
      let workSig := workSignature tpl in
      let timeSig := workSig ++ js "|" ++ to_radix 10 (curtime tpl) in
      if bool_decide (timeSig = lastTemplateHash m) && bool_decide (is_Some (currentJob m))
      then (m, [], None) else
      let clean := cleanJobsFor (lastPrev m) (previousblockhash tpl) in
      match currentJob m with
      | Some l =>
          if negb clean && bool_decide (workSig = lastWorkSig m) then
            ({| jobCounter := jobCounter m; lastTemplateHash := timeSig;
                lastWorkSig := lastWorkSig m; lastPrev := lastPrev m; currentJob := Some l;
                jobsById := jobsById m;
                heap := alter (fun j => {| ctx := ctx j; cleanJobs := false;
                                           ntimeMin := ntimeMin j; ntimeRoll := curtime tpl |})
                              l (heap m) |}, [JobEvent l], None)
          else poll_new payoutAddress tpl clean workSig timeSig m
      | None => poll_new payoutAddress tpl clean workSig timeSig m
      end
  end.
End Sha.

(** ** Merkle branches: lemmas *)
Section MerkleProofs.
Context `{Sha256Ok}.

(** [t] is the display form of the 32-byte hash [h]. *)
Definition displays (t : jsstr) (h : bytes) : Prop :=
  hexToBytes t = Ok (reverse h) /\ zlen h = 32 /\ bytes_ok h.

Lemma displays_intro t b : hexToBytes t = Ok b -> zlen b = 32 -> displays t (reverse b).
Proof.
  intros E L. unfold displays. rewrite reverse_involutive, zlen_reverse.
  eauto using bytes_ok_reverse, hexToBytes_bytes.
Qed.

Lemma doubleSha256_displays b : displays (bytesToHex (reverseBytes (doubleSha256 b))) (doubleSha256 b).
Proof.
  unfold displays, doubleSha256. split_and!; [|apply sha256_zlen|apply sha256_bytes].
  apply hexToBytes_bytesToHex, bytes_ok_reverse, sha256_bytes.
Qed.

(** Two 32-byte halves fill the 64-byte buffer. *)
Lemma fill_64 a b : zlen a = 32 -> zlen b = 32 ->
  (c ← ta_set (zeros 64) a 0; ta_set c b 32) = Ok (a ++ b).
Proof.
  intros Ha Hb. rewrite ta_set_zeros by lia. rewrite Ha. cbn [mbind res_bind].
  rewrite (ta_set_ok _ b 32 a (zeros 32) []); [by rewrite app_nil_r|by rewrite app_nil_r|done|].
  by rewrite Hb.
Qed.

Lemma combineHashesBE_displays ta tb a b : displays ta a -> displays tb b ->
  exists t, combineHashesBE ta tb = Ok t /\ displays t (doubleSha256 (a ++ b)).
Proof.
  intros (Ea & La & Ba) (Eb & Lb & Bb). eexists. split; [|apply doubleSha256_displays].
  unfold combineHashesBE. rewrite Ea, Eb. cbn [mbind res_bind].
  unfold reverseBytes. rewrite !reverse_involutive.
  pose proof (fill_64 a b La Lb) as Hf. destruct (ta_set (zeros 64) a 0); [|done].
  cbn [mbind res_bind] in *. rewrite Hf. done.
Qed.

(** One level of the branch computation is one pass of the node's. *)
Lemma next_level_displays ts hs : Forall2 displays ts hs ->
  exists ts', next_level (Some <$> ts) = Ok (Some <$> ts') /\ Forall2 displays ts' (merkle_level hs).
Proof.
  assert (forall n ts hs, (length ts <= n)%nat -> Forall2 displays ts hs ->
    exists ts', next_level (Some <$> ts) = Ok (Some <$> ts') /\ Forall2 displays ts' (merkle_level hs))
    as Hn; [|by apply Hn with (length ts)].
  induction n as [|n IH]; intros ts' hs' Hl Hd;
    (destruct Hd as [|t1 h1 ts1 hs1 H1 Hd]; [exists []; split; [done|constructor]|]);
    cbn [length] in Hl; [lia|].
  destruct Hd as [|t2 h2 ts2 hs2 H2 Hd].
  - destruct (combineHashesBE_displays t1 t1 h1 h1 H1 H1) as (t & E & Ht).
    exists [t]. cbn. rewrite E. split; [done|]. repeat constructor; apply Ht.
  - destruct (combineHashesBE_displays t1 t2 h1 h2 H1 H2) as (t & E & Ht).
    destruct (IH ts2 hs2) as (ts' & E' & Hts'); [cbn in Hl; lia|done|].
    exists (t :: ts'). cbn [fmap list_fmap next_level combine_entry]. rewrite E. cbn [mbind res_bind].
    change (list_fmap _ _ Some ts2) with (Some <$> ts2). rewrite E'. split; [done|]. by constructor.
Qed.

Lemma merkle_level_length hs : (2 * length (merkle_level hs) <= S (length hs))%nat.
Proof.
  assert (forall n hs, (length hs <= n)%nat -> (2 * length (merkle_level hs) <= S (length hs))%nat) as Hn;
    [|by apply Hn with (length hs)].
  induction n as [|n IH]; intros [|a [|b l]] Hl; cbn [merkle_level length] in *; try lia.
  specialize (IH l ltac:(lia)). lia.
Qed.

Lemma computeMerkleRoot_cons cb t h ts : zlen cb = 32 -> displays t h ->
  computeMerkleRoot cb (t :: ts) = computeMerkleRoot (doubleSha256 (cb ++ h)) ts.
Proof.
  intros Hcb (Et & Lt & _). unfold computeMerkleRoot. cbn [res_foldl]. rewrite Et. cbn [mbind res_bind].
  unfold reverseBytes. rewrite reverse_involutive. pose proof (fill_64 cb h Hcb Lt) as Hf.
  destruct (ta_set (zeros 64) cb 0); [|done]. cbn [mbind res_bind] in *. by rewrite Hf.
Qed.

(** Branches computed from a level, then folded from the coinbase hash, give the
    root of the level with the coinbase in front. *)
Lemma branch_loop_root fuel ts hs cb acc :
  Forall2 displays ts hs -> zlen cb = 32 -> (length ts < fuel)%nat ->
  exists brs, branch_loop fuel (None :: (Some <$> ts)) acc = Ok (acc ++ brs) /\
    forall fuel', (length hs < fuel')%nat ->
      computeMerkleRoot cb brs = Ok (merkle_rounds fuel' (cb :: hs)).
Proof.
  revert ts hs cb acc. induction fuel as [|fuel IH]; intros ts hs cb acc Hd Hcb Hf; [lia|].
  destruct Hd as [|t h ts hs Ht Hd].
  - exists []. split; [cbn; by rewrite app_nil_r|]. intros [|fuel'] Hl; [lia|]. done.
  - cbn [fmap list_fmap branch_loop].
    destruct (next_level_displays ts hs Hd) as (ts' & E & Hts').
    change (list_fmap _ _ Some ts) with (Some <$> ts). rewrite E. cbn [mbind res_bind].
    pose proof (merkle_level_length hs) as Hml.
    pose proof (Forall2_length _ _ _ Hts') as Hl1. pose proof (Forall2_length _ _ _ Hd) as Hl2.
    cbn [length] in Hf.
    destruct (IH ts' (merkle_level hs) (doubleSha256 (cb ++ h)) (acc ++ [t])) as (brs & Eb & Hb);
      [done|apply sha256_zlen|lia|].
    exists (t :: brs). split; [by rewrite Eb, <- app_assoc|].
    intros [|fuel'] Hl; cbn [length] in Hl; [lia|].
    rewrite (computeMerkleRoot_cons cb t h brs) by done. cbn [merkle_rounds merkle_level].
    apply Hb. lia.
Qed.

(** Both cases of the branches: an empty block and the loop. *)
Lemma branches_root txids hs cb :
  Forall2 displays txids hs -> zlen cb = 32 ->
  exists branches, computeMerkleBranches txids = Ok branches /\
    computeMerkleRoot cb branches = Ok (ComputeMerkleRoot (cb :: hs)).
Proof.
  intros Hd Hcb. unfold computeMerkleBranches, ComputeMerkleRoot.
  destruct Hd as [|t h ts hs Ht Hd]; [exists []; done|].
  rewrite zlen_cons. pose proof (zlen_nonneg ts). rewrite (proj2 (Z.eqb_neq (1 + zlen ts) 0)) by lia.
  destruct (branch_loop_root (S (length (t :: ts))) (t :: ts) (h :: hs) cb []) as (brs & E & Hb);
    [by constructor|done|lia|].
  exists brs. split; [exact E|]. apply Hb. cbn. lia.
Qed.
(** C7: for any list of transaction ids and any coinbase id, folding the
    branches that the pool sends to its miners into the coinbase id gives the merkle
    root the node computes for the block (odd levels duplicate their last hash). *)
Theorem merkle_branches_correct txids hs cb :
  Forall2 displays txids hs -> zlen cb = 32 ->
  exists branches, computeMerkleBranches txids = Ok branches /\
    computeMerkleRoot cb branches = Ok (ComputeMerkleRoot (cb :: hs)).
Proof. apply branches_root. Qed.
End MerkleProofs.

Definition example_txids : list jsstr := [replicate 64 49; replicate 64 97; js "00112233445566778899aabbccddeeff00112233445566778899aabbccddeeff"].

Definition example_hashes : list bytes :=
  reverse <$> [replicate 32 17; replicate 32 170;
    [0; 17; 34; 51; 68; 85; 102; 119; 136; 153; 170; 187; 204;
     221; 238; 255; 0; 17; 34; 51; 68; 85; 102; 119; 136; 153; 170; 187; 204; 221; 238; 255]].

Lemma merkle_branches_correct_witness :
  exists branches, @computeMerkleBranches example_digest example_txids = Ok branches /\
    @computeMerkleRoot example_digest (zeros 32) branches
      = Ok (@ComputeMerkleRoot example_digest (zeros 32 :: example_hashes)).
Proof.
  apply (@merkle_branches_correct example_digest example_digest_ok example_txids example_hashes).
  - apply Forall2_cons_2; [|apply Forall2_cons_2; [|apply Forall2_cons_2; [|apply Forall2_nil_2]]];
      (apply displays_intro; [vm_compute; reflexivity|reflexivity]).
  - reflexivity.
Defined.

(** ** The coinbase: lemmas *)
Lemma num_bytes_magnitude f n : 0 <= n < 2 ^ 32 -> (4 <= f)%nat -> num_bytes f n = magnitude 8 n.
Proof.
  assert (forall f g k n, (0 <= k)%nat -> 0 <= n < 2 ^ (8 * Z.of_nat k) -> (k <= 4)%nat -> (k <= f)%nat ->
    (k <= g)%nat -> num_bytes f n = magnitude g n) as Hn.
  { intros f0 g k. revert f0 g. induction k as [|k IH]; intros f0 g m _ Hm Hk Hf Hg.
    - change (2 ^ (8 * Z.of_nat 0)) with 1 in Hm. assert (m = 0) as -> by lia. destruct f0, g; done.
    - destruct f0 as [|f0]; [lia|]. destruct g as [|g]; [lia|]. cbn [num_bytes magnitude].
      destruct (Z.eqb_spec m 0) as [->|]; [done|]. rewrite (proj2 (Z.ltb_lt 0 m)) by lia.
      assert (m < 2 ^ 32) by (eapply Z.lt_le_trans; [apply Hm|]; apply Z.pow_le_mono_r; lia).
      unfold js_and, js_ushr. rewrite to_u32_id by lia. change (8 mod 32) with 8.
      change (to_i32 0xff) with (Z.ones 8). change 0xff with (Z.ones 8). rewrite !Z.land_ones by lia.
      replace (to_i32 m mod 2 ^ 8) with (m mod 2 ^ 8).
      2: { unfold to_i32. rewrite (Z.mod_small m (2 ^ 32)) by lia. destruct (m <? 2 ^ 31); [done|].
           replace (m - 2 ^ 32) with (m + - 2 ^ 24 * 2 ^ 8) by lia. by rewrite Z.mod_add by lia. }
      f_equal. apply IH; try lia. rewrite Z.shiftr_div_pow2 by lia.
      split; [apply Z.div_pos; lia|]. apply Z.div_lt_upper_bound; [lia|].
      rewrite <- Z.pow_add_r by lia. replace (8 + 8 * Z.of_nat k) with (8 * Z.of_nat (S k)) by lia. lia. }
  intros Hr Hf. apply (Hn f 8%nat 4%nat); lia.
Qed.

Lemma magnitude_length g n : (length (magnitude g n) <= g)%nat.
Proof. revert n; induction g as [|g IH]; intros n; cbn [magnitude length]; [lia|]. destruct (n =? 0); cbn; [lia|]. specialize (IH (Z.shiftr n 8)). lia. Qed.

Lemma magnitude_ok g n : bytes_ok (magnitude g n).
Proof.
  revert n; induction g as [|g IH]; intros n; cbn [magnitude]; [constructor|].
  destruct (n =? 0); constructor; [|apply IH]. change 0xff with (Z.ones 8).
  rewrite Z.land_ones by lia. apply Z.mod_pos_bound. lia.
Qed.

Lemma last_byte l : bytes_ok l -> is_byte (List.last l 0).
Proof.
  induction 1 as [|x l Hx Hl IH]; [unfold is_byte; cbn; lia|].
  destruct l as [|y l]; [exact Hx|exact IH].
Qed.

Lemma scriptNumPush_serialize n : 0 < n < 2 ^ 31 ->
  scriptNumPush n = zlen (CScriptNum_serialize n) :: CScriptNum_serialize n.
Proof.
  intros Hn. unfold scriptNumPush, CScriptNum_serialize.
  rewrite (proj2 (Z.eqb_neq n 0)), (proj2 (Z.ltb_ge n 0)) by lia.
  rewrite Z.abs_eq, num_bytes_magnitude by lia.
  pose proof (last_byte _ (magnitude_ok 8 n)) as Hl. pose proof (magnitude_length 8 n) as Hlen.
  unfold is_byte in Hl. rewrite js_and_id by lia.
  destruct (negb _); rewrite Z.mod_small; try done; unfold zlen; rewrite ?length_app; cbn [length]; lia.
Qed.

(** For heights from 17 up to 2^31 (and 0) the pool pushes the height exactly
    as the node's [CScript() << nHeight], which a block's coinbase must start with;
    for heights 1 to 16 the node expects the one-byte opcode [OP_1] .. [OP_16]
    and the pool writes a two-byte push instead. *)
Theorem scriptNumPush_height n : 0 <= n < 2 ^ 31 ->
  if (1 <=? n) && (n <=? 16) then
    scriptNumPush n = [1; n] /\ push_int64 n = [0x50 + n]
  else scriptNumPush n = push_int64 n.
Proof.
  intros Hn. destruct (decide (1 <= n <= 16)) as [Hs|Hs].
  - rewrite (proj2 (Z.leb_le 1 n)), (proj2 (Z.leb_le n 16)) by lia. cbn [andb].
    assert (forallb (fun n => bool_decide (scriptNumPush n = [1; n] /\ push_int64 n = [0x50 + n]))
      (Z.of_nat <$> seq 1 16) = true) as Hall by (vm_compute; reflexivity).
    rewrite forallb_forall in Hall. apply (bool_decide_unpack _), Is_true_eq_left, Hall.
    apply list_elem_of_In, list_elem_of_fmap. exists (Z.to_nat n).
    split; [lia|apply elem_of_seq; lia].
  - replace ((1 <=? n) && (n <=? 16)) with false by (symmetry; apply andb_false_iff; rewrite !Z.leb_gt; lia).
    destruct (decide (n = 0)) as [->|]; [reflexivity|].
    rewrite scriptNumPush_serialize by lia. unfold push_int64.
    replace ((1 <=? n) && (n <=? 16)) with false by (symmetry; apply andb_false_iff; rewrite !Z.leb_gt; lia).
    by rewrite (proj2 (Z.eqb_neq n (-1))), (proj2 (Z.eqb_neq n 0)) by lia.
Qed.

Lemma scriptNumPush_height_witness : scriptNumPush 12345 = push_int64 12345.
Proof. exact (scriptNumPush_height 12345 ltac:(lia)). Defined.

Lemma scriptNumPush_facts n : 0 <= n < 2 ^ 31 ->
  bytes_ok (scriptNumPush n) /\ zlen (scriptNumPush n) <= 10.
Proof.
  intros Hn. destruct (decide (n = 0)) as [->|].
  { split; [repeat constructor; done|vm_compute; discriminate]. }
  rewrite scriptNumPush_serialize by lia. unfold CScriptNum_serialize.
  rewrite (proj2 (Z.eqb_neq n 0)), (proj2 (Z.ltb_ge n 0)) by lia. rewrite Z.abs_eq by lia.
  pose proof (magnitude_length 8 n). pose proof (magnitude_ok 8 n).
  destruct (negb _).
  - split.
    + constructor; [unfold is_byte, zlen; rewrite length_app; cbn [length]; lia|].
      apply bytes_ok_app. split; [done|]. repeat constructor; done.
    + unfold zlen. cbn [length]. rewrite length_app. cbn [length]. lia.
  - split; [constructor; [unfold is_byte, zlen; lia|done]|unfold zlen; cbn [length]; lia].
Qed.

Lemma varInt_ok n : bytes_ok (varInt n).
Proof.
  unfold varInt. destruct (n <? 253).
  - repeat constructor; apply Z.mod_pos_bound; lia.
  - destruct (n <=? 65535); [|destruct (n <=? 4294967295)];
      (constructor; [unfold is_byte; lia|apply le_bytes_ok]).
Qed.

Lemma addressToScriptPubKey_facts addr spk : addressToScriptPubKey addr = Some spk ->
  bytes_ok spk /\ zlen spk <= 42.
Proof.
  unfold addressToScriptPubKey. destruct (decodeWitnessAddress addr) as [w|] eqn:E; [|done].
  cbn [mbind option_bind]. intros [= <-].
  apply decodeWitnessAddress_inv in E as (_ & Hl & Hb & _). split.
  - constructor; [apply Z.mod_pos_bound; lia|]. constructor; [apply Z.mod_pos_bound; lia|done].
  - rewrite !zlen_cons. lia.
Qed.

(** The outputs of the coinbase, and how an output is written. *)
Definition enc_txout (o : CTxOut) : bytes :=
  le_bytes 8 (nValue o) ++ varInt (zlen (scriptPubKey o)) ++ scriptPubKey o.
Definition commitment_out (wc : option bytes) : list CTxOut :=
  match wc with Some s => [{| nValue := 0; scriptPubKey := s |}] | None => [] end.
Definition coinbase_outputs (value : Z) (spk : bytes) (wc : option bytes) : list CTxOut :=
  {| nValue := value; scriptPubKey := spk |} :: commitment_out wc.

(** The commitment script the template asks for ([""] counts as absent). *)
Definition decode_commitment (c : option jsstr) : res (option bytes) :=
  match c with
  | Some (x :: s) => b ← hexToBytes (x :: s); Ok (Some b)
  | _ => Ok None
  end.

Lemma coinbase_outputs_enc v spk wc :
  (coinbase_outputs v spk wc ≫= enc_txout) =
    (le_bytes 8 v ++ varInt (zlen spk) ++ spk) ++
    match wc with Some s => zeros 8 ++ varInt (zlen s) ++ s | None => [] end.
Proof.
  unfold coinbase_outputs. rewrite bind_cons. f_equal. destruct wc as [s|]; [|done].
  cbn [commitment_out]. rewrite bind_cons. unfold enc_txout; cbn [nValue scriptPubKey]. by rewrite app_nil_r.
Qed.

Ltac cat_simp :=
  rewrite ?concatBytes_ok; cbn [mbind res_bind app]; rewrite ?concatBytes_ok;
  cbn [mbind res_bind app]; rewrite ?bconcat_cons; change (bconcat []) with (@nil Z);
  rewrite ?app_nil_r.

Lemma buildCoinbase_ok tpl addr tag spk wc :
  addressToScriptPubKey addr = Some spk -> zlen (utf8_encode tag) <= 75 ->
  0 <= bt_height tpl < 2 ^ 31 ->
  decode_commitment (default_witness_commitment tpl) = Ok wc ->
  let h := scriptNumPush (bt_height tpl) in
  let t := zlen (utf8_encode tag) :: utf8_encode tag in
  let outs := coinbase_outputs (coinbasevalue tpl) spk wc in
  buildCoinbase tpl addr tag = Ok
    (bytesToHex (uint32LE 1 ++ [1] ++ (zeros 32 ++ uint32LE 0xffffffff) ++ varInt (zlen h + 8 + zlen t) ++ h),
     bytesToHex (t ++ uint32LE 0xffffffff ++ [zlen outs] ++ (outs ≫= enc_txout) ++ uint32LE 0)).
Proof.
  intros Hspk Htag Hh Hwc h t outs. unfold buildCoinbase. rewrite Hspk.
  rewrite Z.gtb_ltb, (proj2 (Z.ltb_ge 75 _)) by lia. cbn [throw_if mbind res_bind].
  pose proof (zlen_nonneg (utf8_encode tag)).
  rewrite (Z.mod_small (zlen (utf8_encode tag)) 256) by lia. cat_simp.
  change ([zlen (utf8_encode tag)] ++ utf8_encode tag) with t. fold h.
  destruct (scriptNumPush_facts _ Hh) as [_ Hlen]. fold h in Hlen.
  assert (zlen t <= 76) by (unfold t; rewrite zlen_cons; lia).
  rewrite !zlen_app, zlen_zeros, Z.gtb_ltb, (proj2 (Z.ltb_ge 100 _)) by lia.
  cbn [throw_if mbind res_bind]. cat_simp.
  change (zeros 32 ++ replicate 4 255) with (zeros 32 ++ uint32LE 0xffffffff).
  replace (zlen h + (8 + zlen t)) with (zlen h + 8 + zlen t) by lia.
  destruct (default_witness_commitment tpl) as [[|c wcs]|]; cbn [decode_commitment] in Hwc.
  - injection Hwc as <-. cat_simp. unfold outs. rewrite coinbase_outputs_enc, app_nil_r. done.
  - destruct (hexToBytes (c :: wcs)) as [b|]; [|done]. cbn [mbind res_bind] in Hwc |- *.
    injection Hwc as <-. cat_simp. unfold outs. rewrite coinbase_outputs_enc.
    by rewrite <- !(app_assoc (le_bytes 8 (coinbasevalue tpl) ++ _)).
  - injection Hwc as <-. cat_simp. unfold outs. rewrite coinbase_outputs_enc, app_nil_r. done.
Qed.

(** Reading a transaction with one input back from its bytes. *)
Lemma UnserializeTransaction_app script outs : zlen script <= MAX_SIZE -> zlen outs < 253 ->
  Forall (fun o => 0 <= nValue o < 2 ^ 63 /\ zlen (scriptPubKey o) <= MAX_SIZE) outs ->
  UnserializeTransaction (uint32LE 1 ++ [1] ++ (zeros 32 ++ uint32LE 0xffffffff) ++
    varInt (zlen script) ++ script ++ uint32LE 0xffffffff ++ [zlen outs] ++ (outs ≫= enc_txout) ++ uint32LE 0)
  = Ok ({| tx_version := 1;
           vin := [{| prevout := {| op_hash := zeros 32; op_n := 0xffffffff |};
                      scriptSig := script; nSequence := 0xffffffff |}];
           vout := outs; nLockTime := 0 |}, []).
Proof.
  intros Hs Ho Hall. unfold UnserializeTransaction.
  rewrite (rd_bind_ok _ _ _ _ _ (rd_uint32LE 1 _)).
  set (i := {| prevout := {| op_hash := zeros 32; op_n := 0xffffffff |};
               scriptSig := script; nSequence := 0xffffffff |}).
  set (enc := fun i => op_hash (prevout i) ++ uint32LE (op_n (prevout i)) ++
    varInt (zlen (scriptSig i)) ++ scriptSig i ++ uint32LE (nSequence i)).
  set (rest := [zlen outs] ++ (outs ≫= enc_txout) ++ uint32LE 0).
  replace ([1] ++ _) with (zlen [i] :: ([i] ≫= enc) ++ rest).
  2: { change ([i] ≫= enc) with (enc i ++ []). rewrite app_nil_r. unfold enc, rest.
       cbn [prevout op_hash op_n scriptSig nSequence i]. by rewrite <- !app_assoc. }
  rewrite (rd_bind_ok _ _ _ [i] rest).
  2: { apply rd_vector_app; [unfold zlen; cbn; lia|]. intros x s' ->%list_elem_of_singleton.
       unfold enc. rewrite <- !app_assoc. by apply rd_txin_app. }
  rewrite (rd_bind_ok _ _ _ outs (uint32LE 0 ++ [])).
  2: { unfold rest. rewrite app_nil_r. apply rd_vector_app; [done|]. intros [v b] s' Hin.
       rewrite Forall_forall in Hall. apply Hall in Hin as [Hv Hb]. unfold enc_txout. rewrite <- !app_assoc.
       by apply rd_txout_app. }
  by rewrite (rd_bind_ok _ _ _ _ _ (rd_uint32LE 0 [])).
Qed.

Lemma coinbase_outputs_ok v spk wc : bytes_ok spk -> bytes_ok (default [] wc) ->
  bytes_ok (coinbase_outputs v spk wc ≫= enc_txout).
Proof.
  intros Hs Hw. rewrite coinbase_outputs_enc, !bytes_ok_app.
  split_and!; [apply le_bytes_ok|apply varInt_ok|done|].
  destruct wc as [s|]; [|constructor]. rewrite !bytes_ok_app.
  split_and!; [apply bytes_ok_zeros|apply varInt_ok|exact Hw].
Qed.

Lemma decode_commitment_ok c wc : decode_commitment c = Ok wc -> bytes_ok (default [] wc).
Proof.
  destruct c as [[|x s]|]; cbn [decode_commitment]; [|destruct (hexToBytes (x :: s)) eqn:E|];
    intros [= <-]; cbn; try constructor. by eapply hexToBytes_bytes.
Qed.

(** C6: with a valid payout address the two halves of the coinbase are produced,
    and splicing any 8 extranonce bytes between them gives exactly the serialisation
    of one transaction: version 1, a single null input whose script is the height
    push, the extranonce and the pool tag (at most 100 bytes), the template's value
    paid to the payout address, the witness commitment output when the template has
    one, and nothing left over. *)
Theorem buildCoinbase_transaction tpl addr tag spk wc en :
  addressToScriptPubKey addr = Some spk ->
  bytes_ok (utf8_encode tag) -> zlen (utf8_encode tag) <= 75 ->
  0 <= bt_height tpl < 2 ^ 31 -> 0 <= coinbasevalue tpl < 2 ^ 63 ->
  decode_commitment (default_witness_commitment tpl) = Ok wc ->
  zlen (default [] wc) <= MAX_SIZE -> zlen en = 8 ->
  exists c1Hex c2Hex c1 c2, buildCoinbase tpl addr tag = Ok (c1Hex, c2Hex) /\
    hexToBytes c1Hex = Ok c1 /\ hexToBytes c2Hex = Ok c2 /\
    let script := scriptNumPush (bt_height tpl) ++ en ++ zlen (utf8_encode tag) :: utf8_encode tag in
    zlen script <= 100 /\
    UnserializeTransaction (c1 ++ en ++ c2) = Ok ({|
      tx_version := 1;
      vin := [{| prevout := {| op_hash := zeros 32; op_n := 0xffffffff |};
                 scriptSig := script; nSequence := 0xffffffff |}];
      vout := {| nValue := coinbasevalue tpl; scriptPubKey := spk |} ::
              match wc with Some s => [{| nValue := 0; scriptPubKey := s |}] | None => [] end;
      nLockTime := 0 |}, []).
Proof.
  intros Hspk Hok Htag Hh Hv Hwc Hwl Hen.
  destruct (scriptNumPush_facts _ Hh) as [Bh Lh]. destruct (addressToScriptPubKey_facts _ _ Hspk) as [Bs Ls].
  set (h := scriptNumPush (bt_height tpl)) in *. set (t := zlen (utf8_encode tag) :: utf8_encode tag).
  pose proof (zlen_nonneg (utf8_encode tag)) as Ht0.
  assert (zlen t <= 76) by (unfold t; rewrite zlen_cons; lia).
  assert (bytes_ok t) by (constructor; [unfold is_byte; lia|done]).
  do 4 eexists. split; [by eapply (buildCoinbase_ok tpl addr tag spk wc)|]. fold h t.
  split; [apply hexToBytes_bytesToHex|split; [apply hexToBytes_bytesToHex|split]].
  - rewrite !bytes_ok_app. unfold bytes_ok in *. repeat split;
      [apply uint32LE_ok|repeat constructor; done|apply bytes_ok_zeros|apply uint32LE_ok|apply varInt_ok|done].
  - rewrite !bytes_ok_app. repeat split; [done|apply uint32LE_ok| | |apply uint32LE_ok].
    + unfold coinbase_outputs. destruct wc; repeat constructor; done.
    + apply coinbase_outputs_ok; [done|by eapply decode_commitment_ok].
  - rewrite !zlen_app. lia.
  - replace (zlen h + 8 + zlen t) with (zlen (h ++ en ++ t)) by (rewrite !zlen_app; lia).
    pose proof (UnserializeTransaction_app (h ++ en ++ t) (coinbase_outputs (coinbasevalue tpl) spk wc)) as HU.
    rewrite <- !app_assoc in HU. rewrite <- !app_assoc. apply HU.
    + rewrite !zlen_app. unfold MAX_SIZE. lia.
    + unfold coinbase_outputs. destruct wc; unfold zlen; cbn; lia.
    + constructor; [cbn; unfold MAX_SIZE; lia|]. destruct wc as [s|]; [|constructor].
      constructor; [cbn in *; lia|constructor].
Qed.

Definition example_template : BlockTemplate := {|
  bt_version := 536870912; previousblockhash := replicate 64 49;
  transactions := [{| tt_data := js "00"; tt_hash := replicate 64 97; tt_txid := None |}];
  coinbasevalue := 5000000000; bt_target := js "0000ffff" ++ replicate 56 48;
  mintime := 1700000000; curtime := 1700000600; bt_bits := js "1f00ffff"; bt_height := 1000;
  default_witness_commitment := Some (js "6a24aa21a9ed") |}.

Lemma buildCoinbase_transaction_witness :
  exists c1Hex c2Hex c1 c2,
    buildCoinbase example_template example_address (js "/B3Chain Pool/") = Ok (c1Hex, c2Hex) /\
    hexToBytes c1Hex = Ok c1 /\ hexToBytes c2Hex = Ok c2.
Proof.
  destruct (buildCoinbase_transaction example_template example_address (js "/B3Chain Pool/")
    (0 :: 20 :: ((fun n => Z.of_nat n * 7) <$> seq 1 20)) (Some [106; 36; 170; 33; 169; 237]) (zeros 8))
    as (x1 & x2 & c1 & c2 & E & E1 & E2 & _).
  - vm_compute. reflexivity.
  - apply bytes_ok_check. vm_compute. reflexivity.
  - vm_compute. discriminate.
  - vm_compute. split; (reflexivity || discriminate).
  - vm_compute. split; (reflexivity || discriminate).
  - vm_compute. reflexivity.
  - vm_compute. discriminate.
  - reflexivity.
  - exists x1, x2, c1, c2. split; [exact E|split; [exact E1|exact E2]].
Defined.

(** ** The manager: lemmas *)
(** The invariant of the manager: at most 32 jobs, keyed by their own id without
    duplicates, and the current one among them. *)
Record jm_inv (m : JobManager) : Prop := {
  inv_size : zlen (jobsById m) <= maxJobs;
  inv_nodup : NoDup (jobsById m).*1;
  inv_keys : forall k l, (k, l) ∈ jobsById m -> exists j, heap m !! l = Some j /\ jobId (ctx j) = k;
  inv_cur : forall l, currentJob m = Some l ->
    exists j, heap m !! l = Some j /\ (jobId (ctx j), l) ∈ jobsById m /\ jc_prevHashHexBE (ctx j) = lastPrev m
}.

Lemma trim_set k l m : zlen m <= maxJobs -> NoDup m.*1 ->
  let m' := trim_cache (map_set k l m) in
  zlen m' <= maxJobs /\ NoDup m'.*1 /\ (k, l) ∈ m' /\ forall x, x ∈ m' -> x = (k, l) \/ x ∈ m.
Proof.
  intros Hs Hnd. cbv zeta. unfold trim_cache. rewrite Z.gtb_ltb.
  destruct (decide (k ∈ m.*1)) as [Hin|Hin].
  - pose proof (map_set_keys k l m Hin) as Hk.
    assert (zlen (map_set k l m) = zlen m) as Hz.
    { rewrite <- (zlen_fmap fst), Hk. by rewrite zlen_fmap. }
    rewrite Hz, (proj2 (Z.ltb_ge maxJobs _)) by lia. rewrite Hk.
    split_and!; [lia|done|apply map_set_in|]. intros x. apply map_set_elem.
  - pose proof (map_set_fresh k l m Hin) as Hf.
    assert (NoDup (map_set k l m).*1) as Hnd'.
    { rewrite Hf, fmap_app. apply NoDup_app. split_and!; [done| |apply NoDup_singleton].
      intros x Hx ->%list_elem_of_singleton. done. }
    destruct (Z.ltb_spec maxJobs (zlen (map_set k l m))) as [Hgt|Hle].
    + rewrite Hf in *. rewrite zlen_app in Hgt. change (zlen [_]) with 1 in Hgt.
      destruct m as [|[k0 l0] m]; [unfold zlen, maxJobs in Hgt; cbn in Hgt; lia|]. cbn [app tail].
      rewrite zlen_cons in Hs. cbn in Hnd'. apply NoDup_cons in Hnd' as [_ Hnd'].
      split_and!; [rewrite zlen_app; change (zlen [_]) with 1; lia|done|apply elem_of_app; right; left|].
      intros x [Hx|Hx%list_elem_of_singleton]%elem_of_app; [right; by right|by left].
    + split_and!; [lia|done|apply map_set_in|]. intros x. apply map_set_elem.
Qed.

Section Polling.
Context `{Sha256}.
Variable payoutAddress : jsstr.

Definition jm_init : JobManager := {|
  jobCounter := 0; lastTemplateHash := []; lastWorkSig := []; lastPrev := [];
  currentJob := None; jobsById := []; heap := [] |}.

Lemma jm_init_inv : jm_inv jm_init.
Proof. split; cbn; [done|constructor|intros ? ? Hin; by apply elem_of_nil in Hin|done]. Qed.

(** Rolling the time of the current job in place touches nothing else. *)
Lemma roll_lookup (h : list StratumJob) l f l' j :
  (forall j, ctx (f j) = ctx j) -> h !! l' = Some j ->
  exists j', alter f l h !! l' = Some j' /\ ctx j' = ctx j.
Proof.
  intros Hf Hl. destruct (decide (l' = l)) as [->|Hne].
  - rewrite list_lookup_alter_eq, Hl. exists (f j). split; [done|apply Hf].
  - rewrite list_lookup_alter_ne by done. eauto.
Qed.

Lemma buildJob_ctx counter tpl clean job c :
  buildJob payoutAddress counter tpl clean = Ok (job, c) ->
  jc_prevHashHexBE (ctx job) = previousblockhash tpl /\ cleanJobs job = clean /\
  ntimeRoll job = curtime tpl /\ jc_height (ctx job) = bt_height tpl.
Proof.
  unfold buildJob. destruct (buildCoinbase _ _ _); [|done]. cbn [mbind res_bind].
  destruct (computeMerkleBranches _); [|done]. cbn [mbind res_bind]. intros [= <- <-]. done.
Qed.

(** What one poll that lets no exception escape does to a manager in its
    invariant. *)
Lemma poll_spec m tpl m' evs : jm_inv m ->
  poll payoutAddress (Some tpl) m = (m', evs, None) ->
  jm_inv m' /\ forall l, JobEvent l ∈ evs ->
    exists j, heap m' !! l = Some j /\ currentJob m' = Some l /\
      map_get (jobId (ctx j)) (jobsById m') = Some l /\
      jc_prevHashHexBE (ctx j) = previousblockhash tpl /\
      cleanJobs j = cleanJobsFor (lastPrev m) (previousblockhash tpl) /\
      ntimeRoll j = curtime tpl.
Proof.
  intros Hinv. unfold poll. case_match eqn:Esig; [intros [= <- <-]; split; [done|]; intros l Hl; by apply elem_of_nil in Hl|].
  set (workSig := workSignature tpl). set (timeSig := workSig ++ _).
  set (clean := cleanJobsFor (lastPrev m) (previousblockhash tpl)).
  assert (poll_new payoutAddress tpl clean workSig timeSig m = (m', evs, None) ->
    jm_inv m' /\ forall l, JobEvent l ∈ evs ->
      exists j, heap m' !! l = Some j /\ currentJob m' = Some l /\
        map_get (jobId (ctx j)) (jobsById m') = Some l /\
        jc_prevHashHexBE (ctx j) = previousblockhash tpl /\ cleanJobs j = clean /\
        ntimeRoll j = curtime tpl) as Hnew.
  { unfold poll_new. destruct (buildJob _ _ _ _) as [[job c]|e] eqn:Eb; [|by intros [= _ _]].
    intros [= <- <-]. apply buildJob_ctx in Eb as (Hp & Hc & Hr & _).
    destruct (trim_set (jobId (ctx job)) (length (heap m)) (jobsById m)) as (T1 & T2 & T3 & T4);
      [apply Hinv|apply Hinv|].
    assert ((heap m ++ [job]) !! length (heap m) = Some job) as Hlast by (by apply list_lookup_middle).
    split; [split|]; cbn [jobsById heap currentJob lastPrev].
    - done.
    - done.
    - intros k l Hin. apply T4 in Hin as [[= -> ->]|Hin]; [by exists job|].
      destruct (inv_keys _ Hinv k l Hin) as (j & Hj & Hk). exists j. split; [|done].
      by apply lookup_app_l_Some.
    - intros l [= <-]. exists job. auto.
    - intros l [= ->]%list_elem_of_singleton. exists job. split_and!; try done. by apply map_get_in. }
  destruct (currentJob m) as [lc|] eqn:Ecur; [|exact Hnew].
  destruct (negb clean && bool_decide (workSig = lastWorkSig m)) eqn:Eroll; [|exact Hnew].
  clear Hnew. intros [= <- <-]. apply andb_true_iff in Eroll as [Hclean _]. apply negb_true_iff in Hclean.
  assert (lastPrev m = previousblockhash tpl) as Hprev.
  { unfold clean, cleanJobsFor in Hclean. apply negb_false_iff, bool_decide_eq_true in Hclean. done. }
  set (roll := fun j => _). assert (forall j, ctx (roll j) = ctx j) as Hroll by done.
  split; [split|]; cbn [jobsById heap currentJob lastPrev].
  - apply Hinv.
  - apply Hinv.
  - intros k l Hin. destruct (inv_keys _ Hinv k l Hin) as (j & Hj & <-).
    destruct (roll_lookup (heap m) lc roll l j Hroll Hj) as (j' & ? & E). exists j'. by rewrite E.
  - intros l [= <-]. destruct (inv_cur _ Hinv lc Ecur) as (j & Hj & Hin & Hp).
    destruct (roll_lookup (heap m) lc roll lc j Hroll Hj) as (j' & ? & E). exists j'. by rewrite E.
  - intros l [= ->]%list_elem_of_singleton.
    destruct (inv_cur _ Hinv lc Ecur) as (j & Hj & Hin & Hp). exists (roll j).
    rewrite list_lookup_alter_eq, Hj. split_and!; try done.
    + apply map_get_in; [apply Hinv|done].
    + cbn. congruence.
Qed.

(** Successive polls; [None] once an exception has escaped. *)
Fixpoint run_polls (tpls : list (option BlockTemplate)) (m : JobManager) : option JobManager :=
  match tpls with
  | [] => Some m
  | tpl :: tpls =>
      match poll payoutAddress tpl m with
      | (m', _, None) => run_polls tpls m'
      | (_, _, Some _) => None
      end
  end.

Lemma run_polls_inv tpls m m' : jm_inv m -> run_polls tpls m = Some m' -> jm_inv m'.
Proof.
  revert m; induction tpls as [|tpl tpls IH]; intros m Hm; cbn [run_polls]; [by intros [= <-]|].
  destruct (poll payoutAddress tpl m) as [[m1 evs] [e|]] eqn:E; [done|]. apply IH.
  destruct tpl as [tpl|]; [by eapply poll_spec|]. cbn in E. by injection E as <- <-.
Qed.

(** C29: after any history of polls (failed calls to the node included) in which
    no exception escaped, the job table has at most 32 entries, and a job that the
    next poll announces is the current one, can be found under its id, extends the
    tip of the template, carries its time, and asks for a clean restart exactly when
    the tip changed. *)
Theorem poll_announces_tip history m tpl m' evs l :
  run_polls history jm_init = Some m ->
  poll payoutAddress (Some tpl) m = (m', evs, None) -> JobEvent l ∈ evs ->
  zlen (jobsById m') <= maxJobs /\
  exists j, getCurrent m' = Some j /\ getById m' (jobId (ctx j)) = Some j /\
    jc_prevHashHexBE (ctx j) = previousblockhash tpl /\ ntimeRoll j = curtime tpl /\
    (cleanJobs j = true <-> lastPrev m <> previousblockhash tpl).
Proof.
  intros Hrun Hpoll Hev. apply run_polls_inv in Hrun as Hm; [|apply jm_init_inv].
  destruct (poll_spec m tpl m' evs Hm Hpoll) as [Hm' Hj].
  destruct (Hj l Hev) as (j & Hl & Hc & Hg & Hp & Hcl & Hr). split; [apply Hm'|].
  exists j. unfold getCurrent, getById. rewrite Hc, Hg. cbn. split_and!; try done.
  rewrite Hcl. unfold cleanJobsFor. rewrite negb_true_iff, bool_decide_eq_false. done.
Qed.
End Polling.

(** A template whose witness commitment is not valid hexadecimal. *)
Definition with_tip (t : BlockTemplate) (prev : jsstr) (time : Z) (wc : option jsstr) : BlockTemplate := {|
  bt_version := bt_version t; previousblockhash := prev; transactions := transactions t;
  coinbasevalue := coinbasevalue t; bt_target := bt_target t; mintime := mintime t; curtime := time;
  bt_bits := bt_bits t; bt_height := bt_height t; default_witness_commitment := wc |}.

Lemma poll_announces_tip_witness :
  exists m m', @run_polls example_digest example_address [None] jm_init = Some m /\
    @poll example_digest example_address (Some example_template) m = (m', [JobEvent 0], None) /\
    zlen (jobsById m') <= maxJobs.
Proof.
  eexists jm_init, _. split; [reflexivity|].
  assert (@poll example_digest example_address (Some example_template) jm_init
    = (fst (fst (@poll example_digest example_address (Some example_template) jm_init)), [JobEvent 0], None))
    as E by (vm_compute; reflexivity).
  split; [exact E|].
  refine (proj1 (@poll_announces_tip example_digest example_address [None] jm_init example_template _ _ 0%nat
    _ E _)); [reflexivity|left].
Defined.

(** An exception while building the job for a new tip leaves the manager
    with the signatures of the new template and the job of the old one.  The next
    good template for the same work only rolls the time of that old job: miners are
    sent work on the previous tip, without a clean restart. *)
Theorem poll_stale_after_exception :
  let tip2 := replicate 64 50 in
  let bad := with_tip example_template tip2 1700000700 (Some (js "6a2")) in
  let good := with_tip example_template tip2 1700000701 (Some (js "6a24aa21a9ed")) in
  let poll' t m := @poll example_digest example_address (Some t) m in
  let m1 := fst (fst (poll' example_template jm_init)) in
  let m2 := fst (fst (poll' bad m1)) in
  snd (poll' bad m1) = Some "odd-length hex"%string /\
  snd (fst (poll' good m2)) = [JobEvent 0] /\
  match getCurrent (fst (fst (poll' good m2))) with
  | Some j => jc_prevHashHexBE (ctx j) = previousblockhash example_template /\ cleanJobs j = false /\
              ntimeRoll j = curtime good
  | None => False
  end.
Proof. vm_compute. repeat split. Qed.
