(* ===== verification/Sv2Types.v ===== *)
(** * Stratum V2 types and framing ([pool/src/sv2/lib/types.ts], [codec.ts])

    The growing [WriteBuf], the cursor [ReadBuf] and the 6-byte frame header.  A
    [ReadBuf] is the list of bytes not read yet.  [codec n e d a] says that the bytes
    [e] writes, [n] at most, are read back by [d] as [a]; it composes, and the round trips of the
    messages follow from those of their fields. *)

From S2P Require Import Prelude JsString JsNumber Header.

(** ** WriteBuf *)
Record WriteBuf := { chunks : list bytes; len : Z }.

Definition encoder : Type := WriteBuf -> res WriteBuf.

Definition new_WriteBuf : WriteBuf := {| chunks := []; len := 0 |}.

Definition push (b : bytes) : encoder := fun w =>
  Ok {| chunks := chunks w ++ [b]; len := len w + zlen b |}.

(** [w.a(..).b(..)]: method chaining. *)
Definition chain (e f : encoder) : encoder := fun w => w ← e w; f w.
Infix "▷" := chain (at level 60, right associativity).

Definition fail (e : string) : encoder := fun _ => Throw e.

Definition w_u8 (v : Z) : encoder := push [js_and v 0xff].
Definition w_u16 (v : Z) : encoder := push (le_bytes 2 (js_and v 0xffff)).
Definition w_u24 (v : Z) : encoder :=
  push [js_and v 0xff; js_and (js_ushr v 8) 0xff; js_and (js_ushr v 16) 0xff].
Definition w_u32 (v : Z) : encoder := push (le_bytes 4 (to_u32 v)).
Definition w_u64 (v : Z) : encoder := push (le_bytes 8 (v mod 2 ^ 64)).
Definition w_bool (v : bool) : encoder := w_u8 (if v then 1 else 0).
Definition w_bytesRaw (b : bytes) : encoder := push b.
Definition w_u256 (b : bytes) : encoder :=
  if negb (zlen b =? 32) then fail "U256 must be 32 bytes" else push b.
Definition w_pubkey : bytes -> encoder := w_u256.
Definition w_signature (b : bytes) : encoder :=
  if negb (zlen b =? 64) then fail "SIGNATURE must be 64 bytes" else push b.
Definition w_b0_255 (b : bytes) : encoder :=
  if zlen b >? 255 then fail "B0_255 length > 255" else w_u8 (zlen b) ▷ push b.
Definition w_b0_64k (b : bytes) : encoder :=
  if zlen b >? 0xffff then fail "B0_64K length > 65535" else w_u16 (zlen b) ▷ push b.
Definition w_b0_16m (b : bytes) : encoder :=
  if zlen b >? 0xffffff then fail "B0_16M length > 16777215" else w_u24 (zlen b) ▷ push b.
Definition w_str0_255 (s : jsstr) : encoder := w_b0_255 (utf8_encode s).

Fixpoint w_items {T} (items : list T) (encOne : T -> encoder) : encoder :=
  match items with
  | [] => Ok
  | it :: items => encOne it ▷ w_items items encOne
  end.
Definition w_seq0_255 {T} (items : list T) (encOne : T -> encoder) : encoder :=
  if zlen items >? 255 then fail "SEQ0_255 length > 255"
  else w_u8 (zlen items) ▷ w_items items encOne.
Definition w_seq0_64k {T} (items : list T) (encOne : T -> encoder) : encoder :=
  if zlen items >? 0xffff then fail "SEQ0_64K length > 65535"
  else w_u16 (zlen items) ▷ w_items items encOne.

Definition finish (w : WriteBuf) : res bytes :=
  r ← res_foldl (fun '(out, off) c => out ← ta_set out c off; Ok (out, off + zlen c))
        (zeros (len w), 0) (chunks w);
  Ok (fst r).

(** [const w = new WriteBuf(); w.…; w.finish()]. *)
Definition written (e : encoder) : res bytes := w ← e new_WriteBuf; finish w.

(** ** ReadBuf *)
Definition r_bytesRaw (n : Z) : reader bytes := fun s =>
  if zlen s <? n then Throw "SV2 read: need more bytes" else Ok (slice 0 n s, drop (Z.to_nat n) s).

Definition r_u8 : reader Z := let_rd b := r_bytesRaw 1 in rd_ret (at0 b 0).
Definition r_u16 : reader Z := let_rd b := r_bytesRaw 2 in rd_ret (le_val b).
Definition r_u24 : reader Z := let_rd b := r_bytesRaw 3 in
  rd_ret (js_or (js_or (at0 b 0) (js_shl (at0 b 1) 8)) (js_shl (at0 b 2) 16)).
Definition r_u32 : reader Z := let_rd b := r_bytesRaw 4 in rd_ret (le_val b).
Definition r_u64 : reader Z := let_rd b := r_bytesRaw 8 in rd_ret (le_val b).
Definition r_bool : reader bool := let_rd v := r_u8 in rd_ret (negb (v =? 0)).
Definition r_u256 : reader bytes := r_bytesRaw 32.
Definition r_pubkey : reader bytes := r_bytesRaw 32.
Definition r_signature : reader bytes := r_bytesRaw 64.
Definition r_b0_255 : reader bytes := let_rd n := r_u8 in r_bytesRaw n.
Definition r_b0_64k : reader bytes := let_rd n := r_u16 in r_bytesRaw n.
Definition r_b0_16m : reader bytes := let_rd n := r_u24 in r_bytesRaw n.
Definition r_str0_255 : reader jsstr := let_rd b := r_b0_255 in fun s =>
  match utf8_decode b with Ok t => Ok (t, s) | Throw e => Throw e end.
Definition r_seq0_255 {T} (decOne : reader T) : reader (list T) :=
  let_rd n := r_u8 in rd_times (Z.to_nat n) decOne.
Definition r_seq0_64k {T} (decOne : reader T) : reader (list T) :=
  let_rd n := r_u16 in rd_times (Z.to_nat n) decOne.

(** ** Frames *)
Definition SV2_HEADER_LEN : Z := 6.
Definition SV2_MAX_PAYLOAD_LEN : Z := 0xffffff.
Definition CHANNEL_MSG_FLAG : Z := 0x8000.

Record Sv2FrameHeader := {
  extensionType : Z;
  msgType : Z;
  msgLength : Z;
  channelMsg : bool
}.
Record Sv2Frame := { header : Sv2FrameHeader; payload : bytes }.

Definition encodeFrame (extensionType msgType : Z) (payload : bytes) (channelMsg : bool) : res bytes :=
  _ ← throw_if (zlen payload >? SV2_MAX_PAYLOAD_LEN) "SV2 payload too large";
  let ext := js_or (js_and extensionType 0x7fff) (if channelMsg then CHANNEL_MSG_FLAG else 0) in
  written (w_u16 ext ▷ w_u8 msgType ▷ w_u24 (zlen payload) ▷ w_bytesRaw payload).

(** [decodeHeader(buf, offset)]. *)
Definition decodeHeader (buf : bytes) (offset : Z) : res Sv2FrameHeader :=
  _ ← throw_if (offset + SV2_HEADER_LEN >? zlen buf) "SV2 header truncated";
  r ← (let_rd ext := r_u16 in let_rd t := r_u8 in let_rd l := r_u24 in
       rd_ret {| extensionType := js_and ext 0x7fff; msgType := t; msgLength := l;
                 channelMsg := negb (js_and ext CHANNEL_MSG_FLAG =? 0) |})
        (slice offset (offset + SV2_HEADER_LEN) buf);
  Ok (fst r).

(** The loop of [splitFrames]; every round consumes at least the 6 header bytes,
    so the length of the buffer is enough fuel. *)
Fixpoint split_loop (fuel : nat) (buf : bytes) (off : Z) (frames : list Sv2Frame)
    : res (list Sv2Frame * Z) :=
  match fuel with
  | O => Ok (frames, off)
  | S fuel =>
      if off + SV2_HEADER_LEN <=? zlen buf then
        h ← decodeHeader buf off;
        let total := SV2_HEADER_LEN + msgLength h in
        if off + total >? zlen buf then Ok (frames, off)
        else split_loop fuel buf (off + total)
               (frames ++ [{| header := h; payload := slice (off + SV2_HEADER_LEN) (off + total) buf |}])
      else Ok (frames, off)
  end.

Definition splitFrames (buf : bytes) : res (list Sv2Frame * Z) := split_loop (length buf) buf 0 [].

(** The receive side of a connection ([merged.set(c.buf); merged.set(chunk);
    splitFrames(merged); c.buf = merged.subarray(consumed)]): the frames a chunk
    completes, and the bytes kept for the next one. *)
Definition receive (buf chunk : bytes) : res (list Sv2Frame * bytes) :=
  merged ← concatBytes [buf; chunk];
  r ← splitFrames merged;
  Ok (fst r, drop (Z.to_nat (snd r)) merged).

Fixpoint receive_all (buf : bytes) (chunks : list bytes) : res (list Sv2Frame * bytes) :=
  match chunks with
  | [] => Ok ([], buf)
  | chunk :: chunks =>
      r ← receive buf chunk;
      r' ← receive_all (snd r) chunks;
      Ok (fst r ++ fst r', snd r')
  end.

Definition payloadChannelId (payload : bytes) : res Z :=
  _ ← throw_if (zlen payload <? 4) "channel msg payload too short";
  Ok (le_val (slice 0 4 payload)).

(** ** Round trips of fields *)
Definition wf (w : WriteBuf) : Prop := len w = zlen (bconcat (chunks w)).

(** [e] appends exactly [bs]. *)
Definition writes (e : encoder) (bs : bytes) : Prop := forall w, wf w ->
  exists w', e w = Ok w' /\ wf w' /\ bconcat (chunks w') = bconcat (chunks w) ++ bs.
(** [d] consumes exactly [bs] and returns [a]. *)
Definition reads {A} (d : reader A) (bs : bytes) (a : A) : Prop :=
  forall rest, d (bs ++ rest) = Ok (a, rest).
(** [e] writes at most [n] bytes, which [d] reads back as [a]. *)
Definition codec {A} (n : Z) (e : encoder) (d : reader A) (a : A) : Prop :=
  exists bs, writes e bs /\ bytes_ok bs /\ zlen bs <= n /\ reads d bs a.

Lemma bconcat_snoc l b : bconcat (l ++ [b]) = bconcat l ++ b.
Proof. induction l as [|a l IH]; cbn [app]; rewrite ?bconcat_cons, ?IH, ?app_assoc; [apply app_nil_r|done]. Qed.

Lemma writes_push b : writes (push b) b.
Proof.
  intros w Hw. eexists. split; [done|]. unfold wf in *. cbn [chunks len].
  rewrite bconcat_snoc, zlen_app, Hw. done.
Qed.

Lemma writes_chain e f b c : writes e b -> writes f c -> writes (e ▷ f) (b ++ c).
Proof.
  intros He Hf w Hw. destruct (He w Hw) as (w1 & E1 & W1 & C1). destruct (Hf w1 W1) as (w2 & E2 & W2 & C2).
  exists w2. unfold chain. rewrite E1. cbn [mbind res_bind]. split; [done|]. split; [done|].
  by rewrite C2, C1, app_assoc.
Qed.

Lemma writes_nil : writes Ok [].
Proof. intros w Hw. exists w. by rewrite app_nil_r. Qed.

Lemma written_ok e b : writes e b -> written e = Ok b.
Proof.
  intros He. destruct (He new_WriteBuf) as (w & E & W & C); [done|]. unfold written. rewrite E.
  cbn [mbind res_bind]. cbn in C. unfold finish. rewrite <- C.
  pose proof (concatBytes_ok (chunks w)) as H. unfold concatBytes in H.
  rewrite foldl_zlen, Z.add_0_l in H. rewrite W. exact H.
Qed.

Lemma reads_bytesRaw n b : n = zlen b -> reads (r_bytesRaw n) b b.
Proof.
  intros -> rest. unfold r_bytesRaw. rewrite zlen_app. pose proof (zlen_nonneg rest).
  rewrite (proj2 (Z.ltb_ge _ _)) by lia. by rewrite slice_app_l, drop_app_zlen.
Qed.

Lemma reads_bind {A B} (d : reader A) (k : A -> reader B) b c a r :
  reads d b a -> reads (k a) c r -> reads (rd_bind d k) (b ++ c) r.
Proof. intros Hd Hk rest. rewrite <- app_assoc. rewrite (rd_bind_ok _ _ _ _ _ (Hd _)). apply Hk. Qed.

Lemma reads_ret {A} (a : A) : reads (rd_ret a) [] a.
Proof. intros rest. done. Qed.

Lemma reads_map {A B} (d : reader A) (f : A -> B) b a : reads d b a -> reads (rd_bind d (fun x => rd_ret (f x))) b (f a).
Proof. intros H. rewrite <- (app_nil_r b). eapply reads_bind; [exact H|]. apply reads_ret. Qed.

(** Sequencing, and the last field. *)
Lemma codec_seq {A B} n1 n2 e1 e2 (d : reader A) (k : A -> reader B) a r :
  codec n1 e1 d a -> codec n2 e2 (k a) r -> codec (n1 + n2) (e1 ▷ e2) (rd_bind d k) r.
Proof.
  intros (b & Hw & Hb & Hn & Hr) (c & Hw' & Hb' & Hn' & Hr'). exists (b ++ c).
  split; [by apply writes_chain|]. split; [by apply bytes_ok_app|].
  split; [rewrite zlen_app; lia|by eapply reads_bind].
Qed.

Lemma codec_last {A B} n e (d : reader A) (f : A -> B) a :
  codec n e d a -> codec n e (rd_bind d (fun x => rd_ret (f x))) (f a).
Proof. intros (b & Hw & Hb & Hn & Hr). exists b. repeat (split; [done|]). by apply reads_map. Qed.

Lemma codec_weaken {A} n m e (d : reader A) a : codec n e d a -> n <= m -> codec m e d a.
Proof. intros (b & Hw & Hb & Hn & Hr) Hm. exists b. repeat (split; [done|]). split; [lia|done]. Qed.

Lemma codec_push {A} b (d : reader A) a : bytes_ok b -> reads d b a -> codec (zlen b) (push b) d a.
Proof. intros Hb Hr. exists b. split; [apply writes_push|]. split; [done|]. split; [lia|done]. Qed.

Lemma land_255 v : 0 <= v < 256 -> js_and v 0xff = v.
Proof.
  intros Hv. rewrite js_and_id by lia. change 0xff with (Z.ones 8). rewrite Z.land_ones by lia.
  by apply Z.mod_small.
Qed.
Lemma land_65535 v : 0 <= v < 65536 -> js_and v 0xffff = v.
Proof.
  intros Hv. rewrite js_and_id by lia. change 0xffff with (Z.ones 16). rewrite Z.land_ones by lia.
  by apply Z.mod_small.
Qed.

(** The values each field type carries. *)
Definition upto (n : Z) (b : bytes) : Prop := bytes_ok b /\ zlen b <= n.
(** A string that survives the wire: well-formed UTF-16, not starting with a byte
    order mark (which [TextDecoder] drops), at most 255 bytes of UTF-8. *)
Definition str_ok (s : jsstr) : Prop :=
  wf16 s = true /\ head s <> Some 65279 /\ zlen (utf8_encode s) <= 255.

Lemma codec_u8 v : uint 8 v -> codec 1 (w_u8 v) r_u8 v.
Proof.
  intros Hv. unfold w_u8. rewrite land_255 by done. apply codec_push; [by apply Forall_singleton|].
  unfold r_u8. change v with (at0 [v] 0) at 2. apply (reads_map _ (fun b => at0 b 0)). by apply reads_bytesRaw.
Qed.

Lemma reads_le k n v : n = Z.of_nat k -> uint (8 * n) v ->
  reads (let_rd b := r_bytesRaw n in rd_ret (le_val b)) (le_bytes k v) v.
Proof.
  intros -> Hv. pose proof (reads_map (r_bytesRaw (Z.of_nat k)) le_val (le_bytes k v) (le_bytes k v)) as H.
  rewrite le_val_bytes, Z.mod_small in H by done. apply H, reads_bytesRaw. by rewrite le_bytes_zlen.
Qed.

Lemma codec_le k n v : n = Z.of_nat k -> uint (8 * n) v ->
  codec n (push (le_bytes k v)) (let_rd b := r_bytesRaw n in rd_ret (le_val b)) v.
Proof.
  intros Hn Hv. eapply codec_weaken; [apply codec_push; [apply le_bytes_ok|by apply reads_le]|].
  rewrite le_bytes_zlen. lia.
Qed.

Lemma codec_u16 v : uint 16 v -> codec 2 (w_u16 v) r_u16 v.
Proof. intros Hv. unfold w_u16. rewrite land_65535 by done. by apply codec_le. Qed.
Lemma codec_u32 v : uint 32 v -> codec 4 (w_u32 v) r_u32 v.
Proof. intros Hv. unfold w_u32. rewrite to_u32_id by done. by apply codec_le. Qed.
Lemma codec_u32_shr v : uint 32 v -> codec 4 (w_u32 (js_ushr v 0)) r_u32 v.
Proof.
  intros Hv. unfold js_ushr. rewrite to_u32_id by done. change (0 mod 32) with 0. rewrite Z.shiftr_0_r.
  by apply codec_u32.
Qed.
Lemma codec_u64 v : uint 64 v -> codec 8 (w_u64 v) r_u64 v.
Proof. intros Hv. unfold w_u64. rewrite Z.mod_small by done. by apply codec_le. Qed.

Lemma u24_bytes v : 0 <= v < 2 ^ 24 ->
  [js_and v 0xff; js_and (js_ushr v 8) 0xff; js_and (js_ushr v 16) 0xff] = le_bytes 3 v.
Proof.
  intros Hv. unfold js_ushr. rewrite to_u32_id by lia.
  change (8 mod 32) with 8. change (16 mod 32) with 16. rewrite !Z.shiftr_div_pow2 by lia.
  assert (0 <= v / 2 ^ 8 < 2 ^ 16 /\ 0 <= v / 2 ^ 16 < 2 ^ 8) as [H1 H2].
  { split; (split; [apply Z.div_pos; lia|apply Z.div_lt_upper_bound; lia]). }
  rewrite !js_and_id by lia. change 0xff with (Z.ones 8). rewrite !Z.land_ones by lia.
  cbn [le_bytes]. change (2 ^ 8) with 256. rewrite Z.div_div by lia. done.
Qed.

Lemma u24_value a b c : is_byte a -> is_byte b -> is_byte c ->
  js_or (js_or a (js_shl b 8)) (js_shl c 16) = le_val [a; b; c].
Proof.
  unfold is_byte. intros Ha Hb Hc. rewrite !js_shl_id by lia.
  rewrite (js_or_id a) by lia. rewrite Z.lor_comm, lor_add_disjoint by lia.
  rewrite js_or_id by lia. rewrite Z.lor_comm, lor_add_disjoint by lia. cbn [le_val]. lia.
Qed.

Lemma codec_u24 v : uint 24 v -> codec 3 (w_u24 v) r_u24 v.
Proof.
  intros Hv. unfold w_u24. rewrite u24_bytes by done.
  eapply codec_weaken; [apply codec_push; [apply le_bytes_ok|]|by rewrite le_bytes_zlen].
  unfold r_u24. rewrite <- (Z.mod_small v (2 ^ (8 * Z.of_nat 3))) at 2 by done. rewrite <- le_val_bytes.
  assert (forall b, b = le_bytes 3 v -> le_val b =
    js_or (js_or (at0 b 0) (js_shl (at0 b 1) 8)) (js_shl (at0 b 2) 16)) as Hu.
  { intros b ->. pose proof (le_bytes_ok 3 v) as Hok. cbn [le_bytes] in *.
    apply Forall_cons in Hok as [? Hok]. apply Forall_cons in Hok as [? Hok].
    apply Forall_cons in Hok as [? Hok]. symmetry. by apply u24_value. }
  rewrite (Hu _ eq_refl).
  apply (reads_map _ (fun b => js_or (js_or (at0 b 0) (js_shl (at0 b 1) 8)) (js_shl (at0 b 2) 16))).
  by apply reads_bytesRaw.
Qed.

Lemma codec_bool v : codec 1 (w_bool v) r_bool v.
Proof.
  pose proof (codec_last _ _ _ (fun x => negb (x =? 0)) _ (codec_u8 (if v then 1 else 0) ltac:(destruct v; done))) as H.
  destruct v; exact H.
Qed.

Lemma codec_raw b n : bytes_ok b -> n = zlen b -> codec n (push b) (r_bytesRaw n) b.
Proof. intros Hb ->. apply codec_push; [done|by apply reads_bytesRaw]. Qed.

Lemma codec_u256 b : sized 32 b -> codec 32 (w_u256 b) r_u256 b.
Proof. intros [Hok Hb]. unfold w_u256. rewrite Hb. by apply codec_raw. Qed.
Lemma codec_signature b : sized 64 b -> codec 64 (w_signature b) r_signature b.
Proof. intros [Hok Hb]. unfold w_signature. rewrite Hb. by apply codec_raw. Qed.

Lemma codec_b0_255 b : upto 255 b -> codec (1 + zlen b) (w_b0_255 b) r_b0_255 b.
Proof.
  intros [Hok Hb]. unfold w_b0_255. rewrite Z.gtb_ltb, (proj2 (Z.ltb_ge _ _)) by lia.
  pose proof (zlen_nonneg b). eapply codec_seq; [apply codec_u8; split; lia|by apply codec_raw].
Qed.
Lemma codec_b0_64k b : upto 0xffff b -> codec (2 + zlen b) (w_b0_64k b) r_b0_64k b.
Proof.
  intros [Hok Hb]. unfold w_b0_64k. rewrite Z.gtb_ltb, (proj2 (Z.ltb_ge _ _)) by lia.
  pose proof (zlen_nonneg b). eapply codec_seq; [apply codec_u16; split; lia|by apply codec_raw].
Qed.
Lemma codec_b0_16m b : upto 0xffffff b -> codec (3 + zlen b) (w_b0_16m b) r_b0_16m b.
Proof.
  intros [Hok Hb]. unfold w_b0_16m. rewrite Z.gtb_ltb, (proj2 (Z.ltb_ge _ _)) by lia.
  pose proof (zlen_nonneg b). eapply codec_seq; [apply codec_u24; split; lia|by apply codec_raw].
Qed.

Lemma codec_str0_255 s : str_ok s -> codec 256 (w_str0_255 s) r_str0_255 s.
Proof.
  intros (Hw & Hbom & Hl). destruct (codec_b0_255 (utf8_encode s) (conj (utf8_encode_bytes s Hw) Hl)) as (b & He & Hb & Hn & Hd).
  exists b. split; [exact He|]. split; [exact Hb|]. split; [lia|]. intros rest. unfold r_str0_255. rewrite (rd_bind_ok _ _ _ _ _ (Hd rest)).
  by rewrite utf8_roundtrip.
Qed.

(** The size of a sequence from the sizes of its items. *)
Definition total {T} (sz : T -> Z) (items : list T) : Z := foldr (fun t n => sz t + n) 0 items.
Arguments total : simpl never.

Lemma total_const {T} k (items : list T) : total (fun _ => k) items = k * zlen items.
Proof.
  induction items as [|t items IH]; [by change (zlen []) with 0; rewrite Z.mul_0_r|]. rewrite zlen_cons.
  change (total _ (t :: items)) with (k + total (fun _ => k) items). lia.
Qed.

Lemma codec_items {T} (sz : T -> Z) (items : list T) (e : T -> encoder) (d : reader T) :
  Forall (fun t => codec (sz t) (e t) d t) items ->
  codec (total sz items) (w_items items e) (rd_times (length items) d) items.
Proof.
  induction 1 as [|t items Ht _ IH].
  - exists []. split; [apply writes_nil|]. split; [constructor|]. split; [done|apply reads_ret].
  - cbn [w_items length rd_times]. eapply (codec_seq (sz t) (total sz items)); [exact Ht|]. by apply (codec_last _ _ _ (cons t)).
Qed.

Lemma codec_seq0_255 {T} sz (items : list T) e (d : reader T) : zlen items <= 255 ->
  Forall (fun t => codec (sz t) (e t) d t) items ->
  codec (1 + total sz items) (w_seq0_255 items e) (r_seq0_255 d) items.
Proof.
  intros Hl Hall. unfold w_seq0_255. rewrite Z.gtb_ltb, (proj2 (Z.ltb_ge _ _)) by lia.
  pose proof (zlen_nonneg items). eapply codec_seq; [apply codec_u8; split; lia|].
  unfold zlen. rewrite Nat2Z.id. by apply codec_items.
Qed.
Lemma codec_seq0_64k {T} sz (items : list T) e (d : reader T) : zlen items <= 0xffff ->
  Forall (fun t => codec (sz t) (e t) d t) items ->
  codec (2 + total sz items) (w_seq0_64k items e) (r_seq0_64k d) items.
Proof.
  intros Hl Hall. unfold w_seq0_64k. rewrite Z.gtb_ltb, (proj2 (Z.ltb_ge _ _)) by lia.
  pose proof (zlen_nonneg items). eapply codec_seq; [apply codec_u16; split; lia|].
  unfold zlen. rewrite Nat2Z.id. by apply codec_items.
Qed.

(** Sequences of 32-byte hashes, as the messages use them. *)
Definition hashes (n : Z) (l : list bytes) : Prop := Forall (sized 32) l /\ zlen l <= n.

Lemma codec_hashes_255 l : hashes 255 l -> codec (1 + 32 * zlen l) (w_seq0_255 l w_u256) (r_seq0_255 r_u256) l.
Proof.
  intros [Hl Hn]. rewrite <- total_const. apply codec_seq0_255; [done|].
  eapply Forall_impl; [exact Hl|]. apply codec_u256.
Qed.
Lemma codec_hashes_64k l : hashes 0xffff l -> codec (2 + 32 * zlen l) (w_seq0_64k l w_u256) (r_seq0_64k r_u256) l.
Proof.
  intros [Hl Hn]. rewrite <- total_const. apply codec_seq0_64k; [done|].
  eapply Forall_impl; [exact Hl|]. apply codec_u256.
Qed.

(** The fields, as hints: a message is read back field by field. *)
Create HintDb codec.
#[export] Hint Resolve codec_u8 codec_u16 codec_u24 codec_u32 codec_u32_shr codec_u64 codec_bool codec_u256
  codec_signature codec_b0_255 codec_b0_64k codec_b0_16m codec_str0_255 codec_hashes_255
  codec_hashes_64k : codec.

(** ** Frames: lemmas *)

(** The header bytes of a frame. *)
Definition frame_bytes (f : Sv2Frame) : bytes :=
  le_bytes 2 (extensionType (header f) + if channelMsg (header f) then CHANNEL_MSG_FLAG else 0) ++
  [msgType (header f)] ++ le_bytes 3 (msgLength (header f)) ++ payload f.

(** A frame as [encodeFrame] makes it. *)
Definition frame_ok (f : Sv2Frame) : Prop :=
  0 <= extensionType (header f) < 0x8000 /\ 0 <= msgType (header f) < 256 /\
  msgLength (header f) = zlen (payload f) /\ zlen (payload f) <= SV2_MAX_PAYLOAD_LEN.

Lemma frame_bytes_zlen f : zlen (frame_bytes f) = SV2_HEADER_LEN + zlen (payload f).
Proof. unfold frame_bytes. rewrite !zlen_app, !le_bytes_zlen. unfold SV2_HEADER_LEN. change (zlen [_]) with 1. lia. Qed.

Lemma land_pow2_zero x n : 0 <= n -> (Z.land x (2 ^ n) =? 0) = negb (Z.testbit x n).
Proof.
  intros Hn. destruct (Z.testbit x n) eqn:E; cbn.
  - apply Z.eqb_neq. intros H0. apply (f_equal (fun z => Z.testbit z n)) in H0.
    rewrite Z.land_spec, Z.pow2_bits_true, E, Z.bits_0 in H0 by lia. done.
  - apply Z.eqb_eq, Z.bits_inj'. intros m Hm. rewrite Z.land_spec, Z.pow2_bits_eqb, Z.bits_0 by lia.
    destruct (n =? m) eqn:Em; [|apply andb_false_r]. apply Z.eqb_eq in Em. subst. by rewrite E.
Qed.

Lemma ext_flag e (c : bool) : 0 <= e < 0x8000 ->
  let x := js_or (js_and e 0x7fff) (if c then CHANNEL_MSG_FLAG else 0) in
  x = e + (if c then CHANNEL_MSG_FLAG else 0) /\ 0 <= x < 65536 /\
  js_and x 0x7fff = e /\ negb (js_and x CHANNEL_MSG_FLAG =? 0) = c.
Proof.
  intros He. unfold CHANNEL_MSG_FLAG. cbv zeta. rewrite (js_and_id e) by lia.
  replace (Z.land e 0x7fff) with e
    by (change 0x7fff with (Z.ones 15); rewrite Z.land_ones by lia; by rewrite Z.mod_small).
  assert (js_or e (if c then 0x8000 else 0) = e + (if c then 0x8000 else 0)) as ->.
  { rewrite js_or_id by (destruct c; lia). destruct c; [|by rewrite Z.lor_0_r, Z.add_0_r].
    change 0x8000 with (1 * 2 ^ 15) at 1. rewrite Z.lor_comm, lor_add_disjoint by lia. lia. }
  split; [done|]. split; [destruct c; lia|]. rewrite !js_and_id by (destruct c; lia).
  change 0x7fff with (Z.ones 15). rewrite Z.land_ones by lia. split.
  - destruct c; [|rewrite Z.add_0_r; by apply Z.mod_small].
    replace (e + 0x8000) with (e + 1 * 2 ^ 15) by lia. rewrite Z.mod_add by lia. by apply Z.mod_small.
  - replace (Z.land (e + (if c then 0x8000 else 0)) 0x8000)
      with (Z.land (e + (if c then 0x8000 else 0)) (2 ^ 15)) by done.
    rewrite land_pow2_zero, negb_involutive by lia. destruct c.
    + replace (Z.testbit (e + 32768) 15) with true; [done|]. symmetry.
      apply Z.testbit_true; [lia|]. replace (e + 32768) with (1 * 2 ^ 15 + e) by lia.
      rewrite Z.div_add_l, Z.div_small by lia. done.
    + replace (Z.testbit (e + 0) 15) with false; [done|]. symmetry.
      apply Z.testbit_false; [lia|]. rewrite Z.add_0_r, Z.div_small by lia. done.
Qed.

Lemma encodeFrame_ok f : frame_ok f ->
  encodeFrame (extensionType (header f)) (msgType (header f)) (payload f) (channelMsg (header f))
  = Ok (frame_bytes f).
Proof.
  intros (He & Ht & Hl & Hp). unfold encodeFrame, SV2_MAX_PAYLOAD_LEN in *.
  destruct (ext_flag _ (channelMsg (header f)) He) as (Hx & Hx2 & _).
  rewrite Z.gtb_ltb, (proj2 (Z.ltb_ge _ _)) by lia. cbn [throw_if mbind res_bind].
  apply written_ok. unfold frame_bytes. pose proof (zlen_nonneg (payload f)).
  repeat apply writes_chain; [| | |apply writes_push].
  - unfold w_u16. rewrite land_65535 by done. rewrite Hx. apply writes_push.
  - unfold w_u8. rewrite land_255 by done. apply writes_push.
  - unfold w_u24. rewrite u24_bytes by lia. rewrite Hl. apply writes_push.
Qed.

(** The first complete frame of a stream, and what follows it. *)
Definition next_frame (s : bytes) : option (Sv2Frame * bytes) :=
  if zlen s <? SV2_HEADER_LEN then None
  else match decodeHeader s 0 with
       | Throw _ => None
       | Ok h => if SV2_HEADER_LEN + msgLength h >? zlen s then None
                 else Some ({| header := h;
                               payload := slice SV2_HEADER_LEN (SV2_HEADER_LEN + msgLength h) s |},
                            drop (Z.to_nat (SV2_HEADER_LEN + msgLength h)) s)
       end.

(** [stream s fs r]: [s] is the frames [fs] followed by [r]. *)
Inductive stream : bytes -> list Sv2Frame -> bytes -> Prop :=
| stream_nil s : stream s [] s
| stream_cons s f s' fs r : next_frame s = Some (f, s') -> stream s' fs r -> stream s (f :: fs) r.

Lemma slice_drop {A} i a b (l : list A) : 0 <= i -> 0 <= a ->
  slice (i + a) (i + b) l = slice a b (drop (Z.to_nat i) l).
Proof.
  intros Hi Ha. unfold slice. rewrite drop_drop.
  replace (i + b - (i + a)) with (b - a) by lia. by rewrite Z2Nat.inj_add by lia.
Qed.

Lemma zlen_drop {A} i (l : list A) : 0 <= i <= zlen l -> zlen (drop (Z.to_nat i) l) = zlen l - i.
Proof. intros H. unfold zlen in *. rewrite length_drop. lia. Qed.

Lemma decodeHeader_drop buf off : 0 <= off <= zlen buf ->
  decodeHeader buf off = decodeHeader (drop (Z.to_nat off) buf) 0.
Proof.
  intros Ho. unfold decodeHeader. rewrite zlen_drop by done.
  rewrite <- (slice_drop off 0 (0 + SV2_HEADER_LEN) buf), !Z.add_0_l, Z.add_0_r by lia.
  replace (off + SV2_HEADER_LEN >? zlen buf) with (SV2_HEADER_LEN >? zlen buf - off); [done|].
  rewrite !Z.gtb_ltb. apply eq_bool_prop_intro. rewrite !Is_true_true, !Z.ltb_lt. lia.
Qed.

Lemma r_bytesRaw_ok n s : 0 <= n <= zlen s -> r_bytesRaw n s = Ok (slice 0 n s, drop (Z.to_nat n) s).
Proof. intros Hn. unfold r_bytesRaw. by rewrite (proj2 (Z.ltb_ge _ _)) by lia. Qed.

Definition header_of (a b t c d e : Z) : Sv2FrameHeader :=
  {| extensionType := js_and (le_val [a; b]) 0x7fff; msgType := t; msgLength := le_val [c; d; e];
     channelMsg := negb (js_and (le_val [a; b]) CHANNEL_MSG_FLAG =? 0) |}.

Lemma decodeHeader_cons a b t c d e s : is_byte c -> is_byte d -> is_byte e ->
  decodeHeader (a :: b :: t :: c :: d :: e :: s) 0 = Ok (header_of a b t c d e).
Proof.
  intros Hc Hd He. unfold decodeHeader, SV2_HEADER_LEN.
  change (a :: b :: t :: c :: d :: e :: s) with ([a; b; t; c; d; e] ++ s).
  rewrite zlen_app, slice_app_l by done. pose proof (zlen_nonneg s).
  rewrite Z.gtb_ltb, (proj2 (Z.ltb_ge _ _)) by (change (zlen [_; _; _; _; _; _]) with 6; lia).
  unfold header_of. rewrite <- u24_value by done. reflexivity.
Qed.

(** A header is read whatever its six bytes are, and its length is not negative. *)
Lemma decodeHeader_total s : bytes_ok s -> SV2_HEADER_LEN <= zlen s ->
  exists h, decodeHeader s 0 = Ok h /\ 0 <= msgLength h /\
    forall t, decodeHeader (s ++ t) 0 = Ok h.
Proof.
  intros Hb Hl. unfold SV2_HEADER_LEN in Hl.
  do 6 (destruct s as [|? s]; [by cbv in Hl; contradict Hl|]). unfold bytes_ok in Hb.
  do 6 (apply Forall_cons in Hb as [? Hb]). eexists. split; [by apply decodeHeader_cons|].
  split; [cbn; unfold is_byte in *; lia|]. intros t. by apply decodeHeader_cons.
Qed.

Lemma next_frame_app s f r t : bytes_ok s -> next_frame s = Some (f, r) -> next_frame (s ++ t) = Some (f, r ++ t).
Proof.
  intros Hb. unfold next_frame. destruct (zlen s <? SV2_HEADER_LEN) eqn:E; [done|]. apply Z.ltb_ge in E.
  destruct (decodeHeader_total s Hb E) as (h & Hh & Hm & Ha). rewrite Hh, Ha, zlen_app.
  pose proof (zlen_nonneg t). rewrite (proj2 (Z.ltb_ge _ _)), !Z.gtb_ltb by lia.
  destruct (zlen s <? SV2_HEADER_LEN + msgLength h) eqn:E2; [done|]. apply Z.ltb_ge in E2.
  intros [= <- <-]. rewrite (proj2 (Z.ltb_ge _ _)) by lia. unfold SV2_HEADER_LEN, zlen in *.
  unfold slice. rewrite !drop_app_le, take_app_le by (rewrite ?length_drop; lia). done.
Qed.

Lemma next_frame_inv s f r : bytes_ok s -> next_frame s = Some (f, r) ->
  exists n, SV2_HEADER_LEN <= n <= zlen s /\ r = drop (Z.to_nat n) s /\ zlen r = zlen s - n.
Proof.
  intros Hb. unfold next_frame. destruct (zlen s <? SV2_HEADER_LEN) eqn:E; [done|]. apply Z.ltb_ge in E.
  destruct (decodeHeader_total s Hb E) as (h & Hh & Hm & _). rewrite Hh.
  destruct (SV2_HEADER_LEN + msgLength h >? zlen s) eqn:E2; [done|]. rewrite Z.gtb_ltb in E2.
  apply Z.ltb_ge in E2. intros [= <- <-]. exists (SV2_HEADER_LEN + msgLength h).
  unfold SV2_HEADER_LEN in *. rewrite zlen_drop by lia. repeat split; lia.
Qed.

Lemma stream_app s fs r t : bytes_ok s -> stream s fs r -> stream (s ++ t) fs (r ++ t).
Proof.
  intros Hb H. induction H as [s|s f s' fs r Hn Hs IH]; [constructor|].
  econstructor; [by apply next_frame_app|]. apply IH.
  destruct (next_frame_inv _ _ _ Hb Hn) as (n & _ & -> & _). by apply bytes_ok_drop.
Qed.

Lemma stream_trans s fs r gs q : stream s fs r -> stream r gs q -> stream s (fs ++ gs) q.
Proof. induction 1; [done|]. intros H1. cbn. econstructor; eauto. Qed.

(** How far a stream can be split is determined. *)
Lemma stream_det s fs r gs q : stream s fs r -> next_frame r = None ->
  stream s gs q -> next_frame q = None -> fs = gs /\ r = q.
Proof.
  intros H. revert gs q. induction H as [s|s f s' fs r Hn Hs IH]; intros gs q Hr Hg Hq;
    inversion Hg; subst; try congruence; [done|].
  simplify_eq. destruct (IH _ _ Hr ltac:(eassumption) Hq). by subst.
Qed.

(** The loop of [splitFrames] computes exactly that split. *)
Lemma split_loop_spec fuel buf off frames : bytes_ok buf -> 0 <= off <= zlen buf ->
  zlen buf - off <= Z.of_nat fuel ->
  exists fs r, split_loop fuel buf off frames = Ok (frames ++ fs, zlen buf - zlen r) /\
    stream (drop (Z.to_nat off) buf) fs r /\ next_frame r = None.
Proof.
  intros Hb. revert off frames. induction fuel as [|fuel IH]; intros off frames Ho Hf;
    set (s := drop (Z.to_nat off) buf); pose proof (zlen_drop off buf Ho) as Hs; fold s in Hs;
    assert (bytes_ok s) as Hbs by (by apply bytes_ok_drop).
  - exists [], s. rewrite app_nil_r. split; [cbn; do 2 f_equal; lia|]. split; [constructor|].
    unfold next_frame. by rewrite (proj2 (Z.ltb_lt _ _)) by (unfold SV2_HEADER_LEN; lia).
  - cbn [split_loop]. destruct (off + SV2_HEADER_LEN <=? zlen buf) eqn:E.
    + apply Z.leb_le in E. destruct (decodeHeader_total s Hbs ltac:(lia)) as (h & Hh & Hm & _).
      rewrite decodeHeader_drop by done. fold s. rewrite Hh. cbn [mbind res_bind].
      assert (next_frame s = if off + (SV2_HEADER_LEN + msgLength h) >? zlen buf then None else
        Some ({| header := h; payload := slice (off + SV2_HEADER_LEN) (off + (SV2_HEADER_LEN + msgLength h)) buf |},
              drop (Z.to_nat (off + (SV2_HEADER_LEN + msgLength h))) buf)) as Hn.
      { unfold next_frame. rewrite (proj2 (Z.ltb_ge _ _)) by lia. rewrite Hh, !Z.gtb_ltb.
        rewrite (slice_drop off SV2_HEADER_LEN) by (unfold SV2_HEADER_LEN; lia). fold s.
        subst s. rewrite drop_drop, <- Z2Nat.inj_add by (unfold SV2_HEADER_LEN; lia).
        rewrite Hs. destruct (zlen buf <? _) eqn:E2; rewrite ?Z.ltb_lt, ?Z.ltb_ge in E2.
        - by rewrite (proj2 (Z.ltb_lt _ _)) by lia.
        - by rewrite (proj2 (Z.ltb_ge _ _)) by lia. }
      rewrite Z.gtb_ltb in Hn |- *. destruct (zlen buf <? _) eqn:E2; [|apply Z.ltb_ge in E2].
      * exists [], s. rewrite app_nil_r. split; [do 2 f_equal; lia|]. by split; [constructor|].
      * unfold SV2_HEADER_LEN in *. edestruct (IH (off + (6 + msgLength h))) as (fs & r & Hl & Hr & Hr');
          [lia|lia|]. rewrite Hl, <- app_assoc. eexists _, r. split; [done|]. split; [|done].
        by econstructor.
    + apply Z.leb_gt in E. exists [], s. rewrite app_nil_r. split; [do 2 f_equal; lia|].
      split; [constructor|]. unfold next_frame. by rewrite (proj2 (Z.ltb_lt _ _)) by lia.
Qed.

Lemma stream_suffix s fs r : bytes_ok s -> stream s fs r ->
  zlen r <= zlen s /\ r = drop (Z.to_nat (zlen s - zlen r)) s /\ bytes_ok r.
Proof.
  intros Hb H. induction H as [s|s f s' fs r Hn Hs IH]; [by rewrite Z.sub_diag|].
  destruct (next_frame_inv _ _ _ Hb Hn) as (n & Hlen & -> & Hz). unfold SV2_HEADER_LEN in Hlen.
  destruct IH as (Hle & Hr & Hbr); [by apply bytes_ok_drop|]. rewrite Hz in Hr, Hle.
  split; [lia|]. split; [|done]. rewrite Hr at 1. rewrite drop_drop, <- Z2Nat.inj_add by lia.
  f_equal. f_equal. lia.
Qed.

Lemma splitFrames_spec s : bytes_ok s -> exists fs r,
  splitFrames s = Ok (fs, zlen s - zlen r) /\ stream s fs r /\ next_frame r = None.
Proof.
  intros Hb. pose proof (zlen_nonneg s). apply (split_loop_spec (length s) s 0 []); [done|lia|].
  unfold zlen. lia.
Qed.

Lemma receive_spec buf chunk : bytes_ok buf -> bytes_ok chunk -> exists fs r,
  receive buf chunk = Ok (fs, r) /\ stream (buf ++ chunk) fs r /\ next_frame r = None.
Proof.
  intros Hb Hc. assert (bytes_ok (buf ++ chunk)) as Hm by (by apply bytes_ok_app).
  destruct (splitFrames_spec _ Hm) as (fs & r & Hs & Hst & Hn). exists fs, r. split; [|done].
  destruct (stream_suffix _ _ _ Hm Hst) as (_ & Hr & _). unfold receive.
  rewrite concatBytes_ok. cbn [mbind res_bind]. rewrite !bconcat_cons. change (bconcat []) with (@nil Z). rewrite app_nil_r, Hs.
  cbn [mbind res_bind fst snd]. by rewrite <- Hr.
Qed.

Lemma receive_all_spec chunks buf : bytes_ok buf -> Forall bytes_ok chunks -> next_frame buf = None ->
  exists fs r, receive_all buf chunks = Ok (fs, r) /\ stream (buf ++ bconcat chunks) fs r /\ next_frame r = None.
Proof.
  intros Hb Hc. revert buf Hb. induction Hc as [|c chunks Hc _ IH]; intros buf Hb Hn.
  - exists [], buf. split; [done|]. change (bconcat []) with (@nil Z). rewrite app_nil_r. by split; [constructor|].
  - destruct (receive_spec buf c Hb Hc) as (fs & r & Hr & Hs & Hnr).
    assert (bytes_ok (buf ++ c)) as Hm by (by apply bytes_ok_app).
    destruct (stream_suffix _ _ _ Hm Hs) as (_ & _ & Hbr).
    destruct (IH r Hbr Hnr) as (gs & q & Hq & Hsq & Hnq). exists (fs ++ gs), q.
    cbn [receive_all]. rewrite Hr. cbn [mbind res_bind fst snd]. rewrite Hq. split; [done|]. split; [|done].
    rewrite bconcat_cons, app_assoc. eapply stream_trans; [by apply stream_app|done].
Qed.

(** The frames of an encoded stream are its stream of frames. *)
Lemma header_of_frame f : frame_ok f -> bytes_ok (payload f) -> exists a b t c d e,
  is_byte a /\ is_byte b /\ is_byte t /\ is_byte c /\ is_byte d /\ is_byte e /\
  frame_bytes f = a :: b :: t :: c :: d :: e :: payload f /\ header_of a b t c d e = header f.
Proof.
  intros (He & Ht & Hl & Hp) Hb. pose proof (zlen_nonneg (payload f)). unfold SV2_MAX_PAYLOAD_LEN in Hp.
  destruct (ext_flag _ (channelMsg (header f)) He) as (Hx & Hx2 & Hx3 & Hx4). rewrite Hx in *.
  set (x := extensionType (header f) + _) in *.
  exists (x mod 256), (x / 256 mod 256), (msgType (header f)), (msgLength (header f) mod 256),
    (msgLength (header f) / 256 mod 256), (msgLength (header f) / 256 / 256 mod 256).
  unfold is_byte. do 6 (split; [first [exact Ht | apply Z.mod_pos_bound; lia]|]). split; [done|].
  unfold header_of.
  change [x mod 256; x / 256 mod 256] with (le_bytes 2 x).
  change [msgLength (header f) mod 256; msgLength (header f) / 256 mod 256; msgLength (header f) / 256 / 256 mod 256]
    with (le_bytes 3 (msgLength (header f))).
  rewrite !le_val_bytes, !Z.mod_small by (change (2 ^ (8 * Z.of_nat 2)) with 65536; change (2 ^ (8 * Z.of_nat 3)) with 16777216; lia).
  rewrite Hx3, Hx4. by destruct (header f).
Qed.

Lemma next_frame_bytes f t : frame_ok f -> bytes_ok (payload f) -> next_frame (frame_bytes f ++ t) = Some (f, t).
Proof.
  intros Hok Hb. destruct (header_of_frame f Hok Hb) as (a & b & y & c & d & e & ? & ? & ? & ? & ? & ? & Hf & Hh).
  pose proof (frame_bytes_zlen f) as Hz. destruct Hok as (_ & _ & Hl & _). unfold next_frame, SV2_HEADER_LEN in *.
  rewrite zlen_app, Hz. pose proof (zlen_nonneg t). pose proof (zlen_nonneg (payload f)).
  rewrite (proj2 (Z.ltb_ge _ _)) by lia. rewrite Hf at 1. cbn [app]. rewrite decodeHeader_cons by done.
  rewrite Hh, Hl, Z.gtb_ltb, (proj2 (Z.ltb_ge _ _)) by lia.
  rewrite (drop_app_zlen (frame_bytes f)) by done. do 2 f_equal.
  replace (slice 6 (6 + zlen (payload f)) (frame_bytes f ++ t)) with (payload f); [by destruct f|].
  symmetry. rewrite Hf. change (?a :: ?b :: ?c :: ?d :: ?e :: ?g :: payload f) with ([a; b; c; d; e; g] ++ payload f).
  rewrite <- app_assoc. by apply slice_app_mid.
Qed.

Lemma frame_bytes_ok f : frame_ok f -> bytes_ok (payload f) -> bytes_ok (frame_bytes f).
Proof.
  intros Hok Hb. destruct (header_of_frame f Hok Hb) as (? & ? & ? & ? & ? & ? & ? & ? & ? & ? & ? & ? & -> & _).
  unfold bytes_ok. by repeat (constructor; [assumption|]).
Qed.

Lemma stream_frames fs tail : Forall (fun f => frame_ok f /\ bytes_ok (payload f)) fs ->
  stream (bconcat (map frame_bytes fs) ++ tail) fs tail.
Proof.
  induction 1 as [|f fs [Hf Hb] _ IH]; [constructor|]. cbn [map]. rewrite bconcat_cons, <- app_assoc.
  econstructor; [by apply next_frame_bytes|exact IH].
Qed.

Lemma splitFrames_one f : frame_ok f -> bytes_ok (payload f) -> splitFrames (frame_bytes f) = Ok ([f], zlen (frame_bytes f)).
Proof.
  intros Hf Hb. destruct (splitFrames_spec (frame_bytes f)) as (fs & r & -> & Hs & Hn); [by apply frame_bytes_ok|].
  assert (stream (frame_bytes f) [f] []) as Hs1.
  { econstructor; [|constructor]. rewrite <- (app_nil_r (frame_bytes f)). by apply next_frame_bytes. }
  destruct (stream_det _ _ _ _ _ Hs Hn Hs1 eq_refl) as [-> ->]. change (zlen []) with 0. by rewrite Z.sub_0_r.
Qed.

Lemma bconcat_bytes l : bytes_ok (bconcat l) -> Forall bytes_ok l.
Proof.
  induction l as [|b l IH]; [constructor|]. rewrite bconcat_cons, bytes_ok_app. intros [Hb Hl].
  by constructor; [|apply IH].
Qed.

Lemma frames_bytes_ok fs : Forall (fun f => frame_ok f /\ bytes_ok (payload f)) fs ->
  bytes_ok (bconcat (map frame_bytes fs)).
Proof.
  induction 1 as [|f fs [Hf Hb] _ IH]; [constructor|]. cbn [map]. rewrite bconcat_cons.
  apply bytes_ok_app. by split; [apply frame_bytes_ok|].
Qed.

Lemma receive_all_frames fs tail chunks : Forall (fun f => frame_ok f /\ bytes_ok (payload f)) fs ->
  bytes_ok tail -> next_frame tail = None -> bconcat chunks = bconcat (map frame_bytes fs) ++ tail ->
  receive_all [] chunks = Ok (fs, tail).
Proof.
  intros Hfs Ht Hn Heq.
  assert (Forall bytes_ok chunks) as Hc.
  { apply bconcat_bytes. rewrite Heq. apply bytes_ok_app. by split; [apply frames_bytes_ok|]. }
  destruct (receive_all_spec chunks [] ltac:(constructor) Hc eq_refl) as (gs & r & -> & Hs & Hr).
  rewrite app_nil_l, Heq in Hs.
  by destruct (stream_det _ _ _ _ _ Hs Hr (stream_frames fs tail Hfs) Hn) as [-> ->].
Qed.

(** Framing over a byte stream is independent of how the stream is cut: when a peer
    sends frames made by [encodeFrame] and the beginning of one more, then whatever
    chunks the bytes arrive in, the receive buffer of the connection delivers exactly
    those frames, in order, and keeps exactly the bytes of the unfinished one. *)
Theorem receive_frames fs wires tail chunks :
  Forall2 (fun f w => encodeFrame (extensionType (header f)) (msgType (header f)) (payload f)
                        (channelMsg (header f)) = Ok w) fs wires ->
  Forall (fun f => frame_ok f /\ bytes_ok (payload f)) fs ->
  bytes_ok tail -> next_frame tail = None ->
  bconcat chunks = bconcat wires ++ tail ->
  receive_all [] chunks = Ok (fs, tail).
Proof.
  intros Hw Hfs Ht Hn Heq.
  assert (wires = map frame_bytes fs) as ->.
  { clear -Hw Hfs. induction Hw as [|f w fs wires Hf _ IH]; [done|]. apply Forall_cons in Hfs as [[Hok _] Hfs].
    cbn [map]. rewrite IH by done. rewrite encodeFrame_ok in Hf by done. by injection Hf as ->. }
  by apply receive_all_frames.
Qed.

Lemma receive_frames_witness : receive_all [] [[1; 0x80; 7; 2]; [0; 0; 10; 11; 0; 0]; [5; 0; 0; 0; 9]]
  = Ok ([{| header := {| extensionType := 1; msgType := 7; msgLength := 2; channelMsg := true |}; payload := [10; 11] |};
         {| header := {| extensionType := 0; msgType := 5; msgLength := 0; channelMsg := false |}; payload := [] |}], [9]).
Proof.
  refine (receive_frames _ [[1; 0x80; 7; 2; 0; 0; 10; 11]; [0; 0; 5; 0; 0; 0]] [9] _ _ _ _ _ _).
  - repeat (constructor; [vm_compute; reflexivity|]). constructor.
  - repeat (constructor; [split; [unfold frame_ok; cbn; repeat split; vm_compute; congruence|apply bytes_ok_check; reflexivity]|]).
    constructor.
  - apply bytes_ok_check; reflexivity.
  - reflexivity.
  - reflexivity.
Defined.
