(* ===== verification/Sv2Messages.v ===== *)
(** * Stratum V2 messages ([pool/src/sv2/lib/messages/*.ts])

    Every message of the four files: its fields as a record, its encoder (a frame)
    and, where the source has one, its decoder (from a payload).  [Message] is what a
    message type promises to the connections that carry it: a message whose fields
    are in range is encoded as one frame, and the payload of that frame is decoded
    back to it.  The end of the file composes the promise with the framing of
    [Sv2Types]: whatever messages a peer sends, in whatever chunks the bytes arrive,
    the receiver decodes exactly those messages in that order. *)

From Stdlib Require Import SpecFloat.
From S2P Require Import Prelude JsString JsNumber Header Sv2Types.

(** ** [messages/common.ts]: setup messages *)
Module Common.
Definition COMMON_EXT : Z := 0.
Definition MSG_SETUP_CONNECTION : Z := 0x00.
Definition MSG_SETUP_CONNECTION_SUCCESS : Z := 0x01.
Definition MSG_SETUP_CONNECTION_ERROR : Z := 0x02.
Definition MSG_CHANNEL_ENDPOINT_CHANGED : Z := 0x03.
Definition MSG_RECONNECT : Z := 0x04.
Definition SubProtocol_Mining : Z := 0.
Definition SubProtocol_JobDeclaration : Z := 1.
Definition SubProtocol_TemplateDistribution : Z := 2.
Definition MINING_REQUIRES_STANDARD_JOBS : Z := 0x01.
Definition MINING_REQUIRES_WORK_SELECTION : Z := 0x02.
Definition MINING_REQUIRES_VERSION_ROLLING : Z := 0x04.

Record SetupConnection := {
  sc_protocol : Z; sc_minVersion : Z; sc_maxVersion : Z; sc_flags : Z; sc_endpointHost : jsstr;
  sc_endpointPort : Z; sc_vendor : jsstr; sc_hardwareVersion : jsstr; sc_firmware : jsstr;
  sc_deviceId : jsstr
}.
Definition encodeSetupConnection (m : SetupConnection) : res bytes :=
  p ← written (w_u8 (sc_protocol m) ▷ w_u16 (sc_minVersion m) ▷ w_u16 (sc_maxVersion m) ▷
               w_u32 (js_ushr (sc_flags m) 0) ▷ w_str0_255 (sc_endpointHost m) ▷
               w_u16 (sc_endpointPort m) ▷ w_str0_255 (sc_vendor m) ▷
               w_str0_255 (sc_hardwareVersion m) ▷ w_str0_255 (sc_firmware m) ▷
               w_str0_255 (sc_deviceId m));
  encodeFrame COMMON_EXT MSG_SETUP_CONNECTION p false.
Definition readSetupConnection : reader SetupConnection :=
  let_rd protocol := r_u8 in let_rd minVersion := r_u16 in let_rd maxVersion := r_u16 in
  let_rd flags := r_u32 in let_rd endpointHost := r_str0_255 in let_rd endpointPort := r_u16 in
  let_rd vendor := r_str0_255 in let_rd hardwareVersion := r_str0_255 in
  let_rd firmware := r_str0_255 in let_rd deviceId := r_str0_255 in
  rd_ret {| sc_protocol := protocol; sc_minVersion := minVersion; sc_maxVersion := maxVersion;
            sc_flags := flags; sc_endpointHost := endpointHost; sc_endpointPort := endpointPort;
            sc_vendor := vendor; sc_hardwareVersion := hardwareVersion; sc_firmware := firmware;
            sc_deviceId := deviceId |}.
Definition decodeSetupConnection (payload : bytes) : res SetupConnection :=
  r ← readSetupConnection payload; Ok (fst r).

Record SetupConnectionSuccess := {
  scs_usedVersion : Z; scs_flags : Z
}.
Definition encodeSetupConnectionSuccess (m : SetupConnectionSuccess) : res bytes :=
  p ← written (w_u16 (scs_usedVersion m) ▷ w_u32 (js_ushr (scs_flags m) 0));
  encodeFrame COMMON_EXT MSG_SETUP_CONNECTION_SUCCESS p false.
Definition readSetupConnectionSuccess : reader SetupConnectionSuccess :=
  let_rd usedVersion := r_u16 in let_rd flags := r_u32 in
  rd_ret {| scs_usedVersion := usedVersion; scs_flags := flags |}.
Definition decodeSetupConnectionSuccess (payload : bytes) : res SetupConnectionSuccess :=
  r ← readSetupConnectionSuccess payload; Ok (fst r).

Record SetupConnectionError := {
  sce_flags : Z; sce_errorCode : jsstr
}.
Definition encodeSetupConnectionError (m : SetupConnectionError) : res bytes :=
  p ← written (w_u32 (js_ushr (sce_flags m) 0) ▷ w_str0_255 (sce_errorCode m));
  encodeFrame COMMON_EXT MSG_SETUP_CONNECTION_ERROR p false.
Definition readSetupConnectionError : reader SetupConnectionError :=
  let_rd flags := r_u32 in let_rd errorCode := r_str0_255 in
  rd_ret {| sce_flags := flags; sce_errorCode := errorCode |}.
Definition decodeSetupConnectionError (payload : bytes) : res SetupConnectionError :=
  r ← readSetupConnectionError payload; Ok (fst r).

Record ChannelEndpointChanged := {
  cec_channelId : Z
}.
Definition encodeChannelEndpointChanged (m : ChannelEndpointChanged) : res bytes :=
  p ← written (w_u32 (cec_channelId m));
  encodeFrame COMMON_EXT MSG_CHANNEL_ENDPOINT_CHANGED p true.

Record ReconnectMsg := {
  rm_newHost : jsstr; rm_newPort : Z
}.
Definition encodeReconnect (m : ReconnectMsg) : res bytes :=
  p ← written (w_str0_255 (rm_newHost m) ▷ w_u16 (rm_newPort m));
  encodeFrame COMMON_EXT MSG_RECONNECT p false.
End Common.

(** ** [messages/jd.ts]: Job Declaration *)
Module Jd.
Definition JD_EXT : Z := 0.
Definition MSG_ALLOCATE_JOB_TOKEN : Z := 0x50.
Definition MSG_ALLOCATE_JOB_TOKEN_SUCCESS : Z := 0x51.
Definition MSG_DECLARE_MINING_JOB : Z := 0x57.
Definition MSG_DECLARE_MINING_JOB_SUCCESS : Z := 0x58.
Definition MSG_DECLARE_MINING_JOB_ERROR : Z := 0x59.
Definition MSG_SUBMIT_SOLUTION_JD : Z := 0x60.

Record AllocateMiningJobToken := {
  amjt_userIdentifier : jsstr; amjt_requestId : Z
}.
Definition encodeAllocateMiningJobToken (m : AllocateMiningJobToken) : res bytes :=
  p ← written (w_str0_255 (amjt_userIdentifier m) ▷ w_u32 (amjt_requestId m));
  encodeFrame JD_EXT MSG_ALLOCATE_JOB_TOKEN p false.
Definition readAllocateMiningJobToken : reader AllocateMiningJobToken :=
  let_rd userIdentifier := r_str0_255 in let_rd requestId := r_u32 in
  rd_ret {| amjt_userIdentifier := userIdentifier; amjt_requestId := requestId |}.
Definition decodeAllocateMiningJobToken (payload : bytes) : res AllocateMiningJobToken :=
  r ← readAllocateMiningJobToken payload; Ok (fst r).

Record AllocateMiningJobTokenSuccess := {
  amjts_requestId : Z; amjts_miningJobToken : bytes; amjts_coinbaseOutputMaxAdditionalSize : Z;
  amjts_asyncMiningAllowed : bool; amjts_coinbaseOutput : bytes
}.
Definition encodeAllocateMiningJobTokenSuccess (m : AllocateMiningJobTokenSuccess) : res bytes :=
  p ← written (w_u32 (amjts_requestId m) ▷ w_b0_255 (amjts_miningJobToken m) ▷
               w_u32 (js_ushr (amjts_coinbaseOutputMaxAdditionalSize m) 0) ▷
               w_bool (amjts_asyncMiningAllowed m) ▷ w_b0_64k (amjts_coinbaseOutput m));
  encodeFrame JD_EXT MSG_ALLOCATE_JOB_TOKEN_SUCCESS p false.
Definition readAllocateMiningJobTokenSuccess : reader AllocateMiningJobTokenSuccess :=
  let_rd requestId := r_u32 in let_rd miningJobToken := r_b0_255 in
  let_rd coinbaseOutputMaxAdditionalSize := r_u32 in let_rd asyncMiningAllowed := r_bool in
  let_rd coinbaseOutput := r_b0_64k in
  rd_ret {| amjts_requestId := requestId; amjts_miningJobToken := miningJobToken;
            amjts_coinbaseOutputMaxAdditionalSize := coinbaseOutputMaxAdditionalSize;
            amjts_asyncMiningAllowed := asyncMiningAllowed;
            amjts_coinbaseOutput := coinbaseOutput |}.
Definition decodeAllocateMiningJobTokenSuccess (payload : bytes) : res AllocateMiningJobTokenSuccess :=
  r ← readAllocateMiningJobTokenSuccess payload; Ok (fst r).

Record DeclareMiningJob := {
  dmj_requestId : Z; dmj_miningJobToken : bytes; dmj_version : Z; dmj_coinbasePrefix : bytes;
  dmj_coinbaseSuffix : bytes; dmj_txShortHashList : list bytes; dmj_txHashListHash : bytes;
  dmj_excessData : bytes
}.
Definition encodeDeclareMiningJob (m : DeclareMiningJob) : res bytes :=
  p ← written (w_u32 (dmj_requestId m) ▷ w_b0_255 (dmj_miningJobToken m) ▷
               w_u32 (js_ushr (dmj_version m) 0) ▷ w_b0_255 (dmj_coinbasePrefix m) ▷
               w_b0_64k (dmj_coinbaseSuffix m) ▷ w_seq0_64k (dmj_txShortHashList m) w_u256 ▷
               w_u256 (dmj_txHashListHash m) ▷ w_b0_64k (dmj_excessData m));
  encodeFrame JD_EXT MSG_DECLARE_MINING_JOB p false.
Definition readDeclareMiningJob : reader DeclareMiningJob :=
  let_rd requestId := r_u32 in let_rd miningJobToken := r_b0_255 in let_rd version := r_u32 in
  let_rd coinbasePrefix := r_b0_255 in let_rd coinbaseSuffix := r_b0_64k in
  let_rd txShortHashList := r_seq0_64k r_u256 in let_rd txHashListHash := r_u256 in
  let_rd excessData := r_b0_64k in
  rd_ret {| dmj_requestId := requestId; dmj_miningJobToken := miningJobToken;
            dmj_version := version; dmj_coinbasePrefix := coinbasePrefix;
            dmj_coinbaseSuffix := coinbaseSuffix; dmj_txShortHashList := txShortHashList;
            dmj_txHashListHash := txHashListHash; dmj_excessData := excessData |}.
Definition decodeDeclareMiningJob (payload : bytes) : res DeclareMiningJob :=
  r ← readDeclareMiningJob payload; Ok (fst r).

Record DeclareMiningJobSuccess := {
  dmjs_requestId : Z; dmjs_newMiningJobToken : bytes
}.
Definition encodeDeclareMiningJobSuccess (m : DeclareMiningJobSuccess) : res bytes :=
  p ← written (w_u32 (dmjs_requestId m) ▷ w_b0_255 (dmjs_newMiningJobToken m));
  encodeFrame JD_EXT MSG_DECLARE_MINING_JOB_SUCCESS p false.

Record DeclareMiningJobError := {
  dmje_requestId : Z; dmje_errorCode : jsstr; dmje_errorDetails : bytes
}.
Definition encodeDeclareMiningJobError (m : DeclareMiningJobError) : res bytes :=
  p ← written (w_u32 (dmje_requestId m) ▷ w_str0_255 (dmje_errorCode m) ▷
               w_b0_64k (dmje_errorDetails m));
  encodeFrame JD_EXT MSG_DECLARE_MINING_JOB_ERROR p false.

Record SubmitSolutionJD := {
  ssj_extranonce : bytes; ssj_prevHash : bytes; ssj_ntime : Z; ssj_nonce : Z; ssj_nbits : Z;
  ssj_version : Z
}.
Definition encodeSubmitSolutionJD (m : SubmitSolutionJD) : res bytes :=
  p ← written (w_b0_255 (ssj_extranonce m) ▷ w_u256 (ssj_prevHash m) ▷
               w_u32 (js_ushr (ssj_ntime m) 0) ▷ w_u32 (js_ushr (ssj_nonce m) 0) ▷
               w_u32 (js_ushr (ssj_nbits m) 0) ▷ w_u32 (js_ushr (ssj_version m) 0));
  encodeFrame JD_EXT MSG_SUBMIT_SOLUTION_JD p false.
End Jd.

(** ** [messages/tp.ts]: Template Distribution *)
Module Tp.
Definition TP_EXT : Z := 0.
Definition MSG_COINBASE_OUTPUT_DATA_SIZE : Z := 0x70.
Definition MSG_NEW_TEMPLATE : Z := 0x71.
Definition MSG_SET_NEW_PREV_HASH_TP : Z := 0x72.
Definition MSG_REQUEST_TX_DATA : Z := 0x73.
Definition MSG_REQUEST_TX_DATA_SUCCESS : Z := 0x74.
Definition MSG_SUBMIT_SOLUTION_TP : Z := 0x76.

Record CoinbaseOutputDataSize := {
  cods_coinbaseOutputMaxAdditionalSize : Z
}.
Definition encodeCoinbaseOutputDataSize (m : CoinbaseOutputDataSize) : res bytes :=
  p ← written (w_u32 (js_ushr (cods_coinbaseOutputMaxAdditionalSize m) 0));
  encodeFrame TP_EXT MSG_COINBASE_OUTPUT_DATA_SIZE p false.
Definition readCoinbaseOutputDataSize : reader CoinbaseOutputDataSize :=
  let_rd coinbaseOutputMaxAdditionalSize := r_u32 in
  rd_ret {| cods_coinbaseOutputMaxAdditionalSize := coinbaseOutputMaxAdditionalSize |}.
Definition decodeCoinbaseOutputDataSize (payload : bytes) : res CoinbaseOutputDataSize :=
  r ← readCoinbaseOutputDataSize payload; Ok (fst r).

Record NewTemplate := {
  nt_templateId : Z; nt_futureTemplate : bool; nt_version : Z; nt_coinbaseTxVersion : Z;
  nt_coinbasePrefix : bytes; nt_coinbaseTxInputSequence : Z; nt_coinbaseTxValueRemaining : Z;
  nt_coinbaseTxOutputsCount : Z; nt_coinbaseTxOutputs : bytes; nt_coinbaseTxLocktime : Z;
  nt_merklePath : list bytes
}.
Definition encodeNewTemplate (m : NewTemplate) : res bytes :=
  p ← written (w_u64 (nt_templateId m) ▷ w_bool (nt_futureTemplate m) ▷
               w_u32 (js_ushr (nt_version m) 0) ▷ w_u32 (js_ushr (nt_coinbaseTxVersion m) 0) ▷
               w_b0_255 (nt_coinbasePrefix m) ▷ w_u32 (js_ushr (nt_coinbaseTxInputSequence m) 0) ▷
               w_u64 (nt_coinbaseTxValueRemaining m) ▷
               w_u32 (js_ushr (nt_coinbaseTxOutputsCount m) 0) ▷
               w_b0_64k (nt_coinbaseTxOutputs m) ▷ w_u32 (js_ushr (nt_coinbaseTxLocktime m) 0) ▷
               w_seq0_255 (nt_merklePath m) w_u256);
  encodeFrame TP_EXT MSG_NEW_TEMPLATE p false.
Definition readNewTemplate : reader NewTemplate :=
  let_rd templateId := r_u64 in let_rd futureTemplate := r_bool in let_rd version := r_u32 in
  let_rd coinbaseTxVersion := r_u32 in let_rd coinbasePrefix := r_b0_255 in
  let_rd coinbaseTxInputSequence := r_u32 in let_rd coinbaseTxValueRemaining := r_u64 in
  let_rd coinbaseTxOutputsCount := r_u32 in let_rd coinbaseTxOutputs := r_b0_64k in
  let_rd coinbaseTxLocktime := r_u32 in let_rd merklePath := r_seq0_255 r_u256 in
  rd_ret {| nt_templateId := templateId; nt_futureTemplate := futureTemplate;
            nt_version := version; nt_coinbaseTxVersion := coinbaseTxVersion;
            nt_coinbasePrefix := coinbasePrefix;
            nt_coinbaseTxInputSequence := coinbaseTxInputSequence;
            nt_coinbaseTxValueRemaining := coinbaseTxValueRemaining;
            nt_coinbaseTxOutputsCount := coinbaseTxOutputsCount;
            nt_coinbaseTxOutputs := coinbaseTxOutputs;
            nt_coinbaseTxLocktime := coinbaseTxLocktime; nt_merklePath := merklePath |}.
Definition decodeNewTemplate (payload : bytes) : res NewTemplate :=
  r ← readNewTemplate payload; Ok (fst r).

Record SetNewPrevHashTP := {
  snpt_templateId : Z; snpt_prevHash : bytes; snpt_headerTimestamp : Z; snpt_nbits : Z;
  snpt_target : bytes
}.
Definition encodeSetNewPrevHashTP (m : SetNewPrevHashTP) : res bytes :=
  p ← written (w_u64 (snpt_templateId m) ▷ w_u256 (snpt_prevHash m) ▷
               w_u32 (js_ushr (snpt_headerTimestamp m) 0) ▷ w_u32 (js_ushr (snpt_nbits m) 0) ▷
               w_u256 (snpt_target m));
  encodeFrame TP_EXT MSG_SET_NEW_PREV_HASH_TP p false.
Definition readSetNewPrevHashTP : reader SetNewPrevHashTP :=
  let_rd templateId := r_u64 in let_rd prevHash := r_u256 in let_rd headerTimestamp := r_u32 in
  let_rd nbits := r_u32 in let_rd target := r_u256 in
  rd_ret {| snpt_templateId := templateId; snpt_prevHash := prevHash;
            snpt_headerTimestamp := headerTimestamp; snpt_nbits := nbits; snpt_target := target |}.
Definition decodeSetNewPrevHashTP (payload : bytes) : res SetNewPrevHashTP :=
  r ← readSetNewPrevHashTP payload; Ok (fst r).

Record RequestTransactionData := {
  rtd_templateId : Z
}.
Definition encodeRequestTransactionData (m : RequestTransactionData) : res bytes :=
  p ← written (w_u64 (rtd_templateId m));
  encodeFrame TP_EXT MSG_REQUEST_TX_DATA p false.
Definition readRequestTransactionData : reader RequestTransactionData :=
  let_rd templateId := r_u64 in
  rd_ret {| rtd_templateId := templateId |}.
Definition decodeRequestTransactionData (payload : bytes) : res RequestTransactionData :=
  r ← readRequestTransactionData payload; Ok (fst r).

Record RequestTransactionDataSuccess := {
  rtds_templateId : Z; rtds_excessData : bytes; rtds_transactionList : list bytes
}.
Definition encodeRequestTransactionDataSuccess (m : RequestTransactionDataSuccess) : res bytes :=
  p ← written (w_u64 (rtds_templateId m) ▷ w_b0_64k (rtds_excessData m) ▷
               w_seq0_64k (rtds_transactionList m) w_b0_16m);
  encodeFrame TP_EXT MSG_REQUEST_TX_DATA_SUCCESS p false.
Definition readRequestTransactionDataSuccess : reader RequestTransactionDataSuccess :=
  let_rd templateId := r_u64 in let_rd excessData := r_b0_64k in
  let_rd transactionList := r_seq0_64k r_b0_16m in
  rd_ret {| rtds_templateId := templateId; rtds_excessData := excessData;
            rtds_transactionList := transactionList |}.
Definition decodeRequestTransactionDataSuccess (payload : bytes) : res RequestTransactionDataSuccess :=
  r ← readRequestTransactionDataSuccess payload; Ok (fst r).

Record SubmitSolutionTP := {
  sst_templateId : Z; sst_version : Z; sst_headerTimestamp : Z; sst_headerNonce : Z;
  sst_coinbaseTx : bytes
}.
Definition encodeSubmitSolutionTP (m : SubmitSolutionTP) : res bytes :=
  p ← written (w_u64 (sst_templateId m) ▷ w_u32 (js_ushr (sst_version m) 0) ▷
               w_u32 (js_ushr (sst_headerTimestamp m) 0) ▷ w_u32 (js_ushr (sst_headerNonce m) 0) ▷
               w_b0_64k (sst_coinbaseTx m));
  encodeFrame TP_EXT MSG_SUBMIT_SOLUTION_TP p false.
Definition readSubmitSolutionTP : reader SubmitSolutionTP :=
  let_rd templateId := r_u64 in let_rd version := r_u32 in let_rd headerTimestamp := r_u32 in
  let_rd headerNonce := r_u32 in let_rd coinbaseTx := r_b0_64k in
  rd_ret {| sst_templateId := templateId; sst_version := version;
            sst_headerTimestamp := headerTimestamp; sst_headerNonce := headerNonce;
            sst_coinbaseTx := coinbaseTx |}.
Definition decodeSubmitSolutionTP (payload : bytes) : res SubmitSolutionTP :=
  r ← readSubmitSolutionTP payload; Ok (fst r).
End Tp.

(** ** [messages/mining.ts]: Mining *)
Module Mining.
Definition MINING_EXT : Z := 0.
Definition MSG_OPEN_STD_CHANNEL : Z := 0x10.
Definition MSG_OPEN_STD_CHANNEL_SUCCESS : Z := 0x11.
Definition MSG_OPEN_STD_CHANNEL_ERROR : Z := 0x12.
Definition MSG_OPEN_EXT_CHANNEL : Z := 0x13.
Definition MSG_OPEN_EXT_CHANNEL_SUCCESS : Z := 0x14.
Definition MSG_OPEN_EXT_CHANNEL_ERROR : Z := 0x15.
Definition MSG_NEW_MINING_JOB : Z := 0x16.
Definition MSG_NEW_EXT_MINING_JOB : Z := 0x17.
Definition MSG_SET_NEW_PREV_HASH : Z := 0x18.
Definition MSG_SET_TARGET : Z := 0x19.
Definition MSG_UPDATE_CHANNEL : Z := 0x1a.
Definition MSG_UPDATE_CHANNEL_ERROR : Z := 0x1b.
Definition MSG_CLOSE_CHANNEL : Z := 0x1c.
Definition MSG_SET_EXTRANONCE_PREFIX : Z := 0x1d.
Definition MSG_SUBMIT_SHARES_STANDARD : Z := 0x1e.
Definition MSG_SUBMIT_SHARES_EXTENDED : Z := 0x1f.
Definition MSG_SUBMIT_SHARES_SUCCESS : Z := 0x20.
Definition MSG_SUBMIT_SHARES_ERROR : Z := 0x21.
Definition MSG_SET_CUSTOM_MINING_JOB : Z := 0x70.
Definition MSG_SET_CUSTOM_MINING_JOB_SUCCESS : Z := 0x71.
Definition MSG_SET_CUSTOM_MINING_JOB_ERROR : Z := 0x72.

(** *** [setFloat32] and [getFloat32]

    The bits of the nearest binary32 number, ties to even.  With [n] the significand
    in units of [2^q], the bits are [(q + 149) * 2^23 + n]: a carry out of the
    significand goes to the exponent, as it should. *)
Definition round_half_even (a b : Z) : Z :=
  let q := a / b in
  match 2 * (a mod b) ?= b with Lt => q | Gt => q + 1 | Eq => if Z.even q then q else q + 1 end.

Definition f32_sign (s : bool) : Z := if s then 2 ^ 31 else 0.

Definition f32_bits (x : jsnum) : Z :=
  match x with
  | S754_zero s => f32_sign s
  | S754_infinity s => f32_sign s + 255 * 2 ^ 23
  | S754_nan => 0x7fc00000
  | S754_finite s m e =>
      let q := Z.max (e + Z.pos (digits2_pos m) - 24) (-149) in
      let n := if q <=? e then Z.pos m * 2 ^ (e - q) else round_half_even (Z.pos m) (2 ^ (q - e)) in
      f32_sign s + Z.min ((q + 149) * 2 ^ 23 + n) (255 * 2 ^ 23)
  end.

Definition f32_value (bits : Z) : jsnum :=
  let s := 2 ^ 31 <=? bits in
  let ex := bits / 2 ^ 23 mod 256 in
  let man := bits mod 2 ^ 23 in
  if ex =? 255 then if man =? 0 then S754_infinity s else S754_nan
  else match (if ex =? 0 then man else man + 2 ^ 23) with
       | Zpos m => binary_round 53 1024 s m (Z.max ex 1 - 150)
       | _ => S754_zero s
       end.

(** [Math.fround]. *)
Definition fround (x : jsnum) : jsnum := f32_value (f32_bits x).

Definition writeF32 (v : jsnum) : encoder := w_bytesRaw (le_bytes 4 (f32_bits v)).
Definition readF32 : reader jsnum := let_rd b := r_bytesRaw 4 in rd_ret (f32_value (le_val b)).

Definition encodeOptionU32 (v : option Z) : encoder :=
  match v with None => w_u8 0 | Some v => w_u8 1 ▷ w_u32 (js_ushr v 0) end.
Definition decodeOptionU32 : reader (option Z) :=
  let_rd tag := r_u8 in
  if tag =? 0 then rd_ret None else let_rd v := r_u32 in rd_ret (Some v).

Record OpenStandardMiningChannel := {
  osmc_requestId : Z; osmc_userIdentity : jsstr; osmc_nominalHashRate : jsnum;
  osmc_maxTarget : bytes
}.
Definition encodeOpenStandardMiningChannel (m : OpenStandardMiningChannel) : res bytes :=
  p ← written (w_u32 (osmc_requestId m) ▷ w_str0_255 (osmc_userIdentity m) ▷
               writeF32 (osmc_nominalHashRate m) ▷ w_u256 (osmc_maxTarget m));
  encodeFrame MINING_EXT MSG_OPEN_STD_CHANNEL p false.
Definition readOpenStandardMiningChannel : reader OpenStandardMiningChannel :=
  let_rd requestId := r_u32 in let_rd userIdentity := r_str0_255 in
  let_rd nominalHashRate := readF32 in let_rd maxTarget := r_u256 in
  rd_ret {| osmc_requestId := requestId; osmc_userIdentity := userIdentity;
            osmc_nominalHashRate := nominalHashRate; osmc_maxTarget := maxTarget |}.
Definition decodeOpenStandardMiningChannel (payload : bytes) : res OpenStandardMiningChannel :=
  r ← readOpenStandardMiningChannel payload; Ok (fst r).

Record OpenStandardMiningChannelSuccess := {
  osmcs_requestId : Z; osmcs_channelId : Z; osmcs_target : bytes; osmcs_extranoncePrefix : bytes;
  osmcs_groupChannelId : Z
}.
Definition encodeOpenStandardMiningChannelSuccess (m : OpenStandardMiningChannelSuccess) : res bytes :=
  p ← written (w_u32 (osmcs_requestId m) ▷ w_u32 (osmcs_channelId m) ▷ w_u256 (osmcs_target m) ▷
               w_b0_255 (osmcs_extranoncePrefix m) ▷ w_u32 (osmcs_groupChannelId m));
  encodeFrame MINING_EXT MSG_OPEN_STD_CHANNEL_SUCCESS p false.
Definition readOpenStandardMiningChannelSuccess : reader OpenStandardMiningChannelSuccess :=
  let_rd requestId := r_u32 in let_rd channelId := r_u32 in let_rd target := r_u256 in
  let_rd extranoncePrefix := r_b0_255 in let_rd groupChannelId := r_u32 in
  rd_ret {| osmcs_requestId := requestId; osmcs_channelId := channelId; osmcs_target := target;
            osmcs_extranoncePrefix := extranoncePrefix; osmcs_groupChannelId := groupChannelId |}.
Definition decodeOpenStandardMiningChannelSuccess (payload : bytes) : res OpenStandardMiningChannelSuccess :=
  r ← readOpenStandardMiningChannelSuccess payload; Ok (fst r).

Record OpenExtendedMiningChannel := {
  oemc_requestId : Z; oemc_userIdentity : jsstr; oemc_nominalHashRate : jsnum;
  oemc_maxTarget : bytes; oemc_minExtranonceSize : Z
}.
Definition encodeOpenExtendedMiningChannel (m : OpenExtendedMiningChannel) : res bytes :=
  p ← written (w_u32 (oemc_requestId m) ▷ w_str0_255 (oemc_userIdentity m) ▷
               writeF32 (oemc_nominalHashRate m) ▷ w_u256 (oemc_maxTarget m) ▷
               w_u16 (oemc_minExtranonceSize m));
  encodeFrame MINING_EXT MSG_OPEN_EXT_CHANNEL p false.
Definition readOpenExtendedMiningChannel : reader OpenExtendedMiningChannel :=
  let_rd requestId := r_u32 in let_rd userIdentity := r_str0_255 in
  let_rd nominalHashRate := readF32 in let_rd maxTarget := r_u256 in
  let_rd minExtranonceSize := r_u16 in
  rd_ret {| oemc_requestId := requestId; oemc_userIdentity := userIdentity;
            oemc_nominalHashRate := nominalHashRate; oemc_maxTarget := maxTarget;
            oemc_minExtranonceSize := minExtranonceSize |}.
Definition decodeOpenExtendedMiningChannel (payload : bytes) : res OpenExtendedMiningChannel :=
  r ← readOpenExtendedMiningChannel payload; Ok (fst r).

Record OpenExtendedMiningChannelSuccess := {
  oemcs_requestId : Z; oemcs_channelId : Z; oemcs_target : bytes; oemcs_extranonceSize : Z;
  oemcs_extranoncePrefix : bytes
}.
Definition encodeOpenExtendedMiningChannelSuccess (m : OpenExtendedMiningChannelSuccess) : res bytes :=
  p ← written (w_u32 (oemcs_requestId m) ▷ w_u32 (oemcs_channelId m) ▷ w_u256 (oemcs_target m) ▷
               w_u16 (oemcs_extranonceSize m) ▷ w_b0_255 (oemcs_extranoncePrefix m));
  encodeFrame MINING_EXT MSG_OPEN_EXT_CHANNEL_SUCCESS p false.
Definition readOpenExtendedMiningChannelSuccess : reader OpenExtendedMiningChannelSuccess :=
  let_rd requestId := r_u32 in let_rd channelId := r_u32 in let_rd target := r_u256 in
  let_rd extranonceSize := r_u16 in let_rd extranoncePrefix := r_b0_255 in
  rd_ret {| oemcs_requestId := requestId; oemcs_channelId := channelId; oemcs_target := target;
            oemcs_extranonceSize := extranonceSize; oemcs_extranoncePrefix := extranoncePrefix |}.
Definition decodeOpenExtendedMiningChannelSuccess (payload : bytes) : res OpenExtendedMiningChannelSuccess :=
  r ← readOpenExtendedMiningChannelSuccess payload; Ok (fst r).

Record OpenChannelError := {
  oce_requestId : Z; oce_errorCode : jsstr
}.
Definition encodeOpenChannelError (msgType : Z) (m : OpenChannelError) : res bytes :=
  p ← written (w_u32 (oce_requestId m) ▷ w_str0_255 (oce_errorCode m));
  encodeFrame MINING_EXT msgType p false.

Record NewMiningJob := {
  nmj_channelId : Z; nmj_jobId : Z; nmj_minNtime : option Z; nmj_version : Z;
  nmj_merkleRoot : bytes
}.
Definition encodeNewMiningJob (m : NewMiningJob) : res bytes :=
  p ← written (w_u32 (nmj_channelId m) ▷ w_u32 (nmj_jobId m) ▷ encodeOptionU32 (nmj_minNtime m) ▷
               w_u32 (js_ushr (nmj_version m) 0) ▷ w_u256 (nmj_merkleRoot m));
  encodeFrame MINING_EXT MSG_NEW_MINING_JOB p true.
Definition readNewMiningJob : reader NewMiningJob :=
  let_rd channelId := r_u32 in let_rd jobId := r_u32 in let_rd minNtime := decodeOptionU32 in
  let_rd version := r_u32 in let_rd merkleRoot := r_u256 in
  rd_ret {| nmj_channelId := channelId; nmj_jobId := jobId; nmj_minNtime := minNtime;
            nmj_version := version; nmj_merkleRoot := merkleRoot |}.
Definition decodeNewMiningJob (payload : bytes) : res NewMiningJob :=
  r ← readNewMiningJob payload; Ok (fst r).

Record NewExtendedMiningJob := {
  nemj_channelId : Z; nemj_jobId : Z; nemj_minNtime : option Z; nemj_version : Z;
  nemj_versionRollingAllowed : bool; nemj_merklePath : list bytes; nemj_coinbaseTxPrefix : bytes;
  nemj_coinbaseTxSuffix : bytes
}.
Definition encodeNewExtendedMiningJob (m : NewExtendedMiningJob) : res bytes :=
  p ← written (w_u32 (nemj_channelId m) ▷ w_u32 (nemj_jobId m) ▷
               encodeOptionU32 (nemj_minNtime m) ▷ w_u32 (js_ushr (nemj_version m) 0) ▷
               w_bool (nemj_versionRollingAllowed m) ▷ w_seq0_255 (nemj_merklePath m) w_u256 ▷
               w_b0_64k (nemj_coinbaseTxPrefix m) ▷ w_b0_64k (nemj_coinbaseTxSuffix m));
  encodeFrame MINING_EXT MSG_NEW_EXT_MINING_JOB p true.
Definition readNewExtendedMiningJob : reader NewExtendedMiningJob :=
  let_rd channelId := r_u32 in let_rd jobId := r_u32 in let_rd minNtime := decodeOptionU32 in
  let_rd version := r_u32 in let_rd versionRollingAllowed := r_bool in
  let_rd merklePath := r_seq0_255 r_u256 in let_rd coinbaseTxPrefix := r_b0_64k in
  let_rd coinbaseTxSuffix := r_b0_64k in
  rd_ret {| nemj_channelId := channelId; nemj_jobId := jobId; nemj_minNtime := minNtime;
            nemj_version := version; nemj_versionRollingAllowed := versionRollingAllowed;
            nemj_merklePath := merklePath; nemj_coinbaseTxPrefix := coinbaseTxPrefix;
            nemj_coinbaseTxSuffix := coinbaseTxSuffix |}.
Definition decodeNewExtendedMiningJob (payload : bytes) : res NewExtendedMiningJob :=
  r ← readNewExtendedMiningJob payload; Ok (fst r).

Record SetNewPrevHash := {
  snph_channelId : Z; snph_jobId : Z; snph_prevHash : bytes; snph_minNtime : Z; snph_nbits : Z
}.
Definition encodeSetNewPrevHash (m : SetNewPrevHash) : res bytes :=
  p ← written (w_u32 (snph_channelId m) ▷ w_u32 (snph_jobId m) ▷ w_u256 (snph_prevHash m) ▷
               w_u32 (js_ushr (snph_minNtime m) 0) ▷ w_u32 (js_ushr (snph_nbits m) 0));
  encodeFrame MINING_EXT MSG_SET_NEW_PREV_HASH p true.
Definition readSetNewPrevHash : reader SetNewPrevHash :=
  let_rd channelId := r_u32 in let_rd jobId := r_u32 in let_rd prevHash := r_u256 in
  let_rd minNtime := r_u32 in let_rd nbits := r_u32 in
  rd_ret {| snph_channelId := channelId; snph_jobId := jobId; snph_prevHash := prevHash;
            snph_minNtime := minNtime; snph_nbits := nbits |}.
Definition decodeSetNewPrevHash (payload : bytes) : res SetNewPrevHash :=
  r ← readSetNewPrevHash payload; Ok (fst r).

Record SetTarget := {
  st_channelId : Z; st_maxTarget : bytes
}.
Definition encodeSetTarget (m : SetTarget) : res bytes :=
  p ← written (w_u32 (st_channelId m) ▷ w_u256 (st_maxTarget m));
  encodeFrame MINING_EXT MSG_SET_TARGET p true.
Definition readSetTarget : reader SetTarget :=
  let_rd channelId := r_u32 in let_rd maxTarget := r_u256 in
  rd_ret {| st_channelId := channelId; st_maxTarget := maxTarget |}.
Definition decodeSetTarget (payload : bytes) : res SetTarget :=
  r ← readSetTarget payload; Ok (fst r).

Record CloseChannel := {
  cc_channelId : Z; cc_reasonCode : jsstr
}.
Definition encodeCloseChannel (m : CloseChannel) : res bytes :=
  p ← written (w_u32 (cc_channelId m) ▷ w_str0_255 (cc_reasonCode m));
  encodeFrame MINING_EXT MSG_CLOSE_CHANNEL p true.

Record UpdateChannel := {
  uc_channelId : Z; uc_nominalHashRate : jsnum; uc_maxTarget : bytes
}.
Definition readUpdateChannel : reader UpdateChannel :=
  let_rd channelId := r_u32 in let_rd nominalHashRate := readF32 in
  let_rd maxTarget := r_u256 in
  rd_ret {| uc_channelId := channelId; uc_nominalHashRate := nominalHashRate;
            uc_maxTarget := maxTarget |}.
Definition decodeUpdateChannel (payload : bytes) : res UpdateChannel :=
  r ← readUpdateChannel payload; Ok (fst r).

Record SetExtranoncePrefix := {
  sep_channelId : Z; sep_extranoncePrefix : bytes
}.
Definition encodeSetExtranoncePrefix (m : SetExtranoncePrefix) : res bytes :=
  p ← written (w_u32 (sep_channelId m) ▷ w_b0_255 (sep_extranoncePrefix m));
  encodeFrame MINING_EXT MSG_SET_EXTRANONCE_PREFIX p true.

Record SubmitSharesStandard := {
  sss_channelId : Z; sss_sequenceNumber : Z; sss_jobId : Z; sss_nonce : Z; sss_ntime : Z;
  sss_version : Z
}.
Definition encodeSubmitSharesStandard (m : SubmitSharesStandard) : res bytes :=
  p ← written (w_u32 (sss_channelId m) ▷ w_u32 (sss_sequenceNumber m) ▷ w_u32 (sss_jobId m) ▷
               w_u32 (js_ushr (sss_nonce m) 0) ▷ w_u32 (js_ushr (sss_ntime m) 0) ▷
               w_u32 (js_ushr (sss_version m) 0));
  encodeFrame MINING_EXT MSG_SUBMIT_SHARES_STANDARD p true.
Definition readSubmitSharesStandard : reader SubmitSharesStandard :=
  let_rd channelId := r_u32 in let_rd sequenceNumber := r_u32 in let_rd jobId := r_u32 in
  let_rd nonce := r_u32 in let_rd ntime := r_u32 in let_rd version := r_u32 in
  rd_ret {| sss_channelId := channelId; sss_sequenceNumber := sequenceNumber; sss_jobId := jobId;
            sss_nonce := nonce; sss_ntime := ntime; sss_version := version |}.
Definition decodeSubmitSharesStandard (payload : bytes) : res SubmitSharesStandard :=
  r ← readSubmitSharesStandard payload; Ok (fst r).

Record SubmitSharesExtended := {
  ssx_channelId : Z; ssx_sequenceNumber : Z; ssx_jobId : Z; ssx_nonce : Z; ssx_ntime : Z;
  ssx_version : Z; ssx_extranonce : bytes
}.
Definition encodeSubmitSharesExtended (m : SubmitSharesExtended) : res bytes :=
  p ← written (w_u32 (ssx_channelId m) ▷ w_u32 (ssx_sequenceNumber m) ▷ w_u32 (ssx_jobId m) ▷
               w_u32 (js_ushr (ssx_nonce m) 0) ▷ w_u32 (js_ushr (ssx_ntime m) 0) ▷
               w_u32 (js_ushr (ssx_version m) 0) ▷ w_b0_255 (ssx_extranonce m));
  encodeFrame MINING_EXT MSG_SUBMIT_SHARES_EXTENDED p true.
Definition readSubmitSharesExtended : reader SubmitSharesExtended :=
  let_rd channelId := r_u32 in let_rd sequenceNumber := r_u32 in let_rd jobId := r_u32 in
  let_rd nonce := r_u32 in let_rd ntime := r_u32 in let_rd version := r_u32 in
  let_rd extranonce := r_b0_255 in
  rd_ret {| ssx_channelId := channelId; ssx_sequenceNumber := sequenceNumber; ssx_jobId := jobId;
            ssx_nonce := nonce; ssx_ntime := ntime; ssx_version := version;
            ssx_extranonce := extranonce |}.
Definition decodeSubmitSharesExtended (payload : bytes) : res SubmitSharesExtended :=
  r ← readSubmitSharesExtended payload; Ok (fst r).

Record SubmitSharesSuccess := {
  ssok_channelId : Z; ssok_lastSequenceNumber : Z; ssok_newSubmitsAcceptedCount : Z;
  ssok_newSharesSum : Z
}.
Definition encodeSubmitSharesSuccess (m : SubmitSharesSuccess) : res bytes :=
  p ← written (w_u32 (ssok_channelId m) ▷ w_u32 (ssok_lastSequenceNumber m) ▷
               w_u32 (ssok_newSubmitsAcceptedCount m) ▷ w_u64 (ssok_newSharesSum m));
  encodeFrame MINING_EXT MSG_SUBMIT_SHARES_SUCCESS p true.
Definition readSubmitSharesSuccess : reader SubmitSharesSuccess :=
  let_rd channelId := r_u32 in let_rd lastSequenceNumber := r_u32 in
  let_rd newSubmitsAcceptedCount := r_u32 in let_rd newSharesSum := r_u64 in
  rd_ret {| ssok_channelId := channelId; ssok_lastSequenceNumber := lastSequenceNumber;
            ssok_newSubmitsAcceptedCount := newSubmitsAcceptedCount;
            ssok_newSharesSum := newSharesSum |}.
Definition decodeSubmitSharesSuccess (payload : bytes) : res SubmitSharesSuccess :=
  r ← readSubmitSharesSuccess payload; Ok (fst r).

Record SubmitSharesError := {
  sserr_channelId : Z; sserr_sequenceNumber : Z; sserr_errorCode : jsstr
}.
Definition encodeSubmitSharesError (m : SubmitSharesError) : res bytes :=
  p ← written (w_u32 (sserr_channelId m) ▷ w_u32 (sserr_sequenceNumber m) ▷
               w_str0_255 (sserr_errorCode m));
  encodeFrame MINING_EXT MSG_SUBMIT_SHARES_ERROR p true.

Record SetCustomMiningJob := {
  scmj_channelId : Z; scmj_requestId : Z; scmj_miningJobToken : bytes; scmj_version : Z;
  scmj_prevHash : bytes; scmj_minNtime : Z; scmj_nbits : Z; scmj_coinbaseTxVersion : Z;
  scmj_coinbasePrefix : bytes; scmj_coinbaseTxInputNSequence : Z;
  scmj_coinbaseTxValueRemaining : Z; scmj_coinbaseTxOutputs : bytes; scmj_coinbaseTxLocktime : Z;
  scmj_merklePath : list bytes
}.
Definition encodeSetCustomMiningJob (m : SetCustomMiningJob) : res bytes :=
  p ← written (w_u32 (scmj_channelId m) ▷ w_u32 (scmj_requestId m) ▷
               w_b0_255 (scmj_miningJobToken m) ▷ w_u32 (js_ushr (scmj_version m) 0) ▷
               w_u256 (scmj_prevHash m) ▷ w_u32 (js_ushr (scmj_minNtime m) 0) ▷
               w_u32 (js_ushr (scmj_nbits m) 0) ▷ w_u32 (js_ushr (scmj_coinbaseTxVersion m) 0) ▷
               w_b0_255 (scmj_coinbasePrefix m) ▷
               w_u32 (js_ushr (scmj_coinbaseTxInputNSequence m) 0) ▷
               w_u64 (scmj_coinbaseTxValueRemaining m) ▷ w_b0_64k (scmj_coinbaseTxOutputs m) ▷
               w_u32 (js_ushr (scmj_coinbaseTxLocktime m) 0) ▷
               w_seq0_255 (scmj_merklePath m) w_u256);
  encodeFrame MINING_EXT MSG_SET_CUSTOM_MINING_JOB p true.

Record SetCustomMiningJobSuccess := {
  scmjs_channelId : Z; scmjs_requestId : Z; scmjs_jobId : Z
}.
Definition encodeSetCustomMiningJobSuccess (m : SetCustomMiningJobSuccess) : res bytes :=
  p ← written (w_u32 (scmjs_channelId m) ▷ w_u32 (scmjs_requestId m) ▷ w_u32 (scmjs_jobId m));
  encodeFrame MINING_EXT MSG_SET_CUSTOM_MINING_JOB_SUCCESS p true.

Record SetCustomMiningJobError := {
  scmje_channelId : Z; scmje_requestId : Z; scmje_errorCode : jsstr
}.
Definition encodeSetCustomMiningJobError (m : SetCustomMiningJobError) : res bytes :=
  p ← written (w_u32 (scmje_channelId m) ▷ w_u32 (scmje_requestId m) ▷
               w_str0_255 (scmje_errorCode m));
  encodeFrame MINING_EXT MSG_SET_CUSTOM_MINING_JOB_ERROR p true.
End Mining.

(** ** The fields only the messages have *)
Import Mining.

Lemma round_half_even_nonneg a b : 0 <= a -> 0 < b -> 0 <= round_half_even a b.
Proof.
  intros Ha Hb. unfold round_half_even. pose proof (Z.div_pos a b Ha Hb). repeat case_match; lia.
Qed.

Lemma f32_bits_range x : uint 32 (f32_bits x).
Proof.
  unfold uint. destruct x as [s|s| |s m e].
  1, 2: destruct s; vm_compute; intuition congruence.
  { vm_compute; intuition congruence. }
  cbn [f32_bits]. set (q := Z.max _ _).
  set (n := if q <=? e then _ else round_half_even _ _).
  assert (0 <= n).
  { unfold n. destruct (q <=? e) eqn:E; [apply Z.mul_nonneg_nonneg; [lia|apply Z.pow_nonneg; lia]|].
    apply Z.leb_gt in E. apply round_half_even_nonneg; [lia|]. apply Z.pow_pos_nonneg; lia. }
  assert (-149 <= q) by (unfold q; lia). unfold f32_sign. destruct s; lia.
Qed.

Lemma codec_f32 v : codec 4 (writeF32 v) readF32 (fround v).
Proof.
  pose proof (codec_le 4 4 (f32_bits v) eq_refl (f32_bits_range v)) as (b & Hw & Hb & Hn & Hr).
  exists b. do 3 (split; [done|]). intros rest. unfold readF32. specialize (Hr rest).
  unfold rd_bind in *. destruct (r_bytesRaw 4 (b ++ rest)) as [[x s]|]; [|done].
  cbn in Hr. injection Hr as Hx ->. cbn. by rewrite Hx.
Qed.

Lemma codec_option_u32 v : from_option (uint 32) True v -> codec 5 (encodeOptionU32 v) decodeOptionU32 v.
Proof.
  destruct v as [v|]; intros Hv; cbn [from_option] in Hv.
  - eapply (codec_seq 1 4); [by apply codec_u8|]. cbn. apply (codec_last _ _ _ Some). by apply codec_u32_shr.
  - pose proof (codec_u8 0 ltac:(done)) as (b & Hw & Hb & Hn & Hr). exists b. do 2 (split; [done|]).
    split; [lia|].
    intros rest. unfold decodeOptionU32. by rewrite (rd_bind_ok _ _ _ _ _ (Hr rest)).
Qed.

Lemma codec_txs l : Forall (upto 0xffffff) l -> zlen l <= 0xffff ->
  codec (2 + total (fun t => 3 + zlen t) l) (w_seq0_64k l w_b0_16m) (r_seq0_64k r_b0_16m) l.
Proof.
  intros Hl Hn. apply codec_seq0_64k; [done|]. eapply Forall_impl; [exact Hl|]. apply codec_b0_16m.
Qed.

#[export] Hint Resolve codec_f32 codec_option_u32 codec_txs : codec.

(** ** What a message type promises *)
Definition message_frame (t : Z) (ch : bool) (p : bytes) : Sv2Frame :=
  {| header := {| extensionType := 0; msgType := t; msgLength := zlen p; channelMsg := ch |}; payload := p |}.

Class Message (M : Type) := {
  msg_type : Z;
  msg_channel : bool;
  msg_encode : M -> res bytes;
  msg_decode : bytes -> res M;
  (** the values whose fields fit their types, and what arrives of one *)
  msg_ok : M -> Prop;
  msg_sent : M -> M;
  msg_law : forall m, msg_ok m -> exists p,
    frame_ok (message_frame msg_type msg_channel p) /\ bytes_ok p /\
    msg_encode m = Ok (frame_bytes (message_frame msg_type msg_channel p)) /\
    msg_decode p = Ok (msg_sent m)
}.

Lemma message_law {M} n t ch e (d : reader M) m' : 0 <= t < 256 -> codec n e d m' -> n <= SV2_MAX_PAYLOAD_LEN ->
  exists p, frame_ok (message_frame t ch p) /\ bytes_ok p /\
    (p ← written e; encodeFrame 0 t p ch) = Ok (frame_bytes (message_frame t ch p)) /\
    (r ← d p; Ok (fst r)) = Ok m'.
Proof.
  intros Ht (p & Hw & Hb & Hn & Hr) Hm. exists p.
  assert (frame_ok (message_frame t ch p)) as Hok by (unfold frame_ok; cbn [header payload extensionType msgType msgLength message_frame]; lia).
  split; [done|]. split; [done|]. split.
  - rewrite (written_ok _ _ Hw). exact (encodeFrame_ok _ Hok).
  - specialize (Hr []). rewrite app_nil_r in Hr. by rewrite Hr.
Qed.

(** A law from the codecs of the fields. *)
Ltac codec_step :=
  lazymatch goal with
  | |- codec _ (_ ▷ _) (rd_bind _ _) _ => eapply codec_seq; [solve [eauto with codec]|cbv beta]
  | |- codec _ _ (rd_bind ?d (fun x => rd_ret (@?f x))) _ => eapply (codec_last _ _ d f); solve [eauto with codec]
  end.

Ltac message_tac ok enc dec read :=
  intros m Hm; destruct m; unfold ok in Hm; cbn in Hm; destruct_and? Hm; unfold enc, dec, read;
  eapply message_law;
    [vm_compute; split; congruence|cbn; repeat codec_step
    |repeat match goal with H : upto _ _ |- _ => destruct H | H : hashes _ _ |- _ => destruct H end;
     unfold SV2_MAX_PAYLOAD_LEN in *; lia].

(** *** Setup messages *)
Module CommonMessages.
Import Common.

Definition SetupConnection_ok (m : SetupConnection) : Prop :=
  uint 8 (sc_protocol m) /\ uint 16 (sc_minVersion m) /\ uint 16 (sc_maxVersion m) /\
  uint 32 (sc_flags m) /\ str_ok (sc_endpointHost m) /\ uint 16 (sc_endpointPort m) /\
  str_ok (sc_vendor m) /\ str_ok (sc_hardwareVersion m) /\ str_ok (sc_firmware m) /\
  str_ok (sc_deviceId m).
#[export, refine] Instance SetupConnection_Message : Message SetupConnection :=
  {| msg_type := MSG_SETUP_CONNECTION; msg_channel := false; msg_encode := encodeSetupConnection; msg_decode := decodeSetupConnection;
     msg_ok := SetupConnection_ok; msg_sent := fun m => m |}.
Proof. message_tac SetupConnection_ok encodeSetupConnection decodeSetupConnection readSetupConnection. Defined.

Definition SetupConnectionSuccess_ok (m : SetupConnectionSuccess) : Prop :=
  uint 16 (scs_usedVersion m) /\ uint 32 (scs_flags m).
#[export, refine] Instance SetupConnectionSuccess_Message : Message SetupConnectionSuccess :=
  {| msg_type := MSG_SETUP_CONNECTION_SUCCESS; msg_channel := false; msg_encode := encodeSetupConnectionSuccess; msg_decode := decodeSetupConnectionSuccess;
     msg_ok := SetupConnectionSuccess_ok; msg_sent := fun m => m |}.
Proof. message_tac SetupConnectionSuccess_ok encodeSetupConnectionSuccess decodeSetupConnectionSuccess readSetupConnectionSuccess. Defined.

Definition SetupConnectionError_ok (m : SetupConnectionError) : Prop :=
  uint 32 (sce_flags m) /\ str_ok (sce_errorCode m).
#[export, refine] Instance SetupConnectionError_Message : Message SetupConnectionError :=
  {| msg_type := MSG_SETUP_CONNECTION_ERROR; msg_channel := false; msg_encode := encodeSetupConnectionError; msg_decode := decodeSetupConnectionError;
     msg_ok := SetupConnectionError_ok; msg_sent := fun m => m |}.
Proof. message_tac SetupConnectionError_ok encodeSetupConnectionError decodeSetupConnectionError readSetupConnectionError. Defined.
End CommonMessages.

(** *** Job Declaration *)
Module JdMessages.
Import Jd.

Definition AllocateMiningJobToken_ok (m : AllocateMiningJobToken) : Prop :=
  str_ok (amjt_userIdentifier m) /\ uint 32 (amjt_requestId m).
#[export, refine] Instance AllocateMiningJobToken_Message : Message AllocateMiningJobToken :=
  {| msg_type := MSG_ALLOCATE_JOB_TOKEN; msg_channel := false; msg_encode := encodeAllocateMiningJobToken; msg_decode := decodeAllocateMiningJobToken;
     msg_ok := AllocateMiningJobToken_ok; msg_sent := fun m => m |}.
Proof. message_tac AllocateMiningJobToken_ok encodeAllocateMiningJobToken decodeAllocateMiningJobToken readAllocateMiningJobToken. Defined.

Definition AllocateMiningJobTokenSuccess_ok (m : AllocateMiningJobTokenSuccess) : Prop :=
  uint 32 (amjts_requestId m) /\ upto 255 (amjts_miningJobToken m) /\
  uint 32 (amjts_coinbaseOutputMaxAdditionalSize m) /\ upto 0xffff (amjts_coinbaseOutput m).
#[export, refine] Instance AllocateMiningJobTokenSuccess_Message : Message AllocateMiningJobTokenSuccess :=
  {| msg_type := MSG_ALLOCATE_JOB_TOKEN_SUCCESS; msg_channel := false; msg_encode := encodeAllocateMiningJobTokenSuccess; msg_decode := decodeAllocateMiningJobTokenSuccess;
     msg_ok := AllocateMiningJobTokenSuccess_ok; msg_sent := fun m => m |}.
Proof. message_tac AllocateMiningJobTokenSuccess_ok encodeAllocateMiningJobTokenSuccess decodeAllocateMiningJobTokenSuccess readAllocateMiningJobTokenSuccess. Defined.

Definition DeclareMiningJob_ok (m : DeclareMiningJob) : Prop :=
  uint 32 (dmj_requestId m) /\ upto 255 (dmj_miningJobToken m) /\ uint 32 (dmj_version m) /\
  upto 255 (dmj_coinbasePrefix m) /\ upto 0xffff (dmj_coinbaseSuffix m) /\
  hashes 0xffff (dmj_txShortHashList m) /\ sized 32 (dmj_txHashListHash m) /\
  upto 0xffff (dmj_excessData m).
#[export, refine] Instance DeclareMiningJob_Message : Message DeclareMiningJob :=
  {| msg_type := MSG_DECLARE_MINING_JOB; msg_channel := false; msg_encode := encodeDeclareMiningJob; msg_decode := decodeDeclareMiningJob;
     msg_ok := DeclareMiningJob_ok; msg_sent := fun m => m |}.
Proof. message_tac DeclareMiningJob_ok encodeDeclareMiningJob decodeDeclareMiningJob readDeclareMiningJob. Defined.
End JdMessages.

(** *** Template Distribution *)
Module TpMessages.
Import Tp.

Definition CoinbaseOutputDataSize_ok (m : CoinbaseOutputDataSize) : Prop :=
  uint 32 (cods_coinbaseOutputMaxAdditionalSize m).
#[export, refine] Instance CoinbaseOutputDataSize_Message : Message CoinbaseOutputDataSize :=
  {| msg_type := MSG_COINBASE_OUTPUT_DATA_SIZE; msg_channel := false; msg_encode := encodeCoinbaseOutputDataSize; msg_decode := decodeCoinbaseOutputDataSize;
     msg_ok := CoinbaseOutputDataSize_ok; msg_sent := fun m => m |}.
Proof. message_tac CoinbaseOutputDataSize_ok encodeCoinbaseOutputDataSize decodeCoinbaseOutputDataSize readCoinbaseOutputDataSize. Defined.

Definition NewTemplate_ok (m : NewTemplate) : Prop :=
  uint 64 (nt_templateId m) /\ uint 32 (nt_version m) /\ uint 32 (nt_coinbaseTxVersion m) /\
  upto 255 (nt_coinbasePrefix m) /\ uint 32 (nt_coinbaseTxInputSequence m) /\
  uint 64 (nt_coinbaseTxValueRemaining m) /\ uint 32 (nt_coinbaseTxOutputsCount m) /\
  upto 0xffff (nt_coinbaseTxOutputs m) /\ uint 32 (nt_coinbaseTxLocktime m) /\
  hashes 255 (nt_merklePath m).
#[export, refine] Instance NewTemplate_Message : Message NewTemplate :=
  {| msg_type := MSG_NEW_TEMPLATE; msg_channel := false; msg_encode := encodeNewTemplate; msg_decode := decodeNewTemplate;
     msg_ok := NewTemplate_ok; msg_sent := fun m => m |}.
Proof. message_tac NewTemplate_ok encodeNewTemplate decodeNewTemplate readNewTemplate. Defined.

Definition SetNewPrevHashTP_ok (m : SetNewPrevHashTP) : Prop :=
  uint 64 (snpt_templateId m) /\ sized 32 (snpt_prevHash m) /\ uint 32 (snpt_headerTimestamp m) /\
  uint 32 (snpt_nbits m) /\ sized 32 (snpt_target m).
#[export, refine] Instance SetNewPrevHashTP_Message : Message SetNewPrevHashTP :=
  {| msg_type := MSG_SET_NEW_PREV_HASH_TP; msg_channel := false; msg_encode := encodeSetNewPrevHashTP; msg_decode := decodeSetNewPrevHashTP;
     msg_ok := SetNewPrevHashTP_ok; msg_sent := fun m => m |}.
Proof. message_tac SetNewPrevHashTP_ok encodeSetNewPrevHashTP decodeSetNewPrevHashTP readSetNewPrevHashTP. Defined.

Definition RequestTransactionData_ok (m : RequestTransactionData) : Prop :=
  uint 64 (rtd_templateId m).
#[export, refine] Instance RequestTransactionData_Message : Message RequestTransactionData :=
  {| msg_type := MSG_REQUEST_TX_DATA; msg_channel := false; msg_encode := encodeRequestTransactionData; msg_decode := decodeRequestTransactionData;
     msg_ok := RequestTransactionData_ok; msg_sent := fun m => m |}.
Proof. message_tac RequestTransactionData_ok encodeRequestTransactionData decodeRequestTransactionData readRequestTransactionData. Defined.

Definition RequestTransactionDataSuccess_ok (m : RequestTransactionDataSuccess) : Prop :=
  uint 64 (rtds_templateId m) /\ upto 0xffff (rtds_excessData m) /\
  Forall (upto 0xffffff) (rtds_transactionList m) /\ zlen (rtds_transactionList m) <= 0xffff /\ 12 + zlen (rtds_excessData m) + total (fun t => 3 + zlen t) (rtds_transactionList m) <= SV2_MAX_PAYLOAD_LEN.
#[export, refine] Instance RequestTransactionDataSuccess_Message : Message RequestTransactionDataSuccess :=
  {| msg_type := MSG_REQUEST_TX_DATA_SUCCESS; msg_channel := false; msg_encode := encodeRequestTransactionDataSuccess; msg_decode := decodeRequestTransactionDataSuccess;
     msg_ok := RequestTransactionDataSuccess_ok; msg_sent := fun m => m |}.
Proof. message_tac RequestTransactionDataSuccess_ok encodeRequestTransactionDataSuccess decodeRequestTransactionDataSuccess readRequestTransactionDataSuccess. Defined.

Definition SubmitSolutionTP_ok (m : SubmitSolutionTP) : Prop :=
  uint 64 (sst_templateId m) /\ uint 32 (sst_version m) /\ uint 32 (sst_headerTimestamp m) /\
  uint 32 (sst_headerNonce m) /\ upto 0xffff (sst_coinbaseTx m).
#[export, refine] Instance SubmitSolutionTP_Message : Message SubmitSolutionTP :=
  {| msg_type := MSG_SUBMIT_SOLUTION_TP; msg_channel := false; msg_encode := encodeSubmitSolutionTP; msg_decode := decodeSubmitSolutionTP;
     msg_ok := SubmitSolutionTP_ok; msg_sent := fun m => m |}.
Proof. message_tac SubmitSolutionTP_ok encodeSubmitSolutionTP decodeSubmitSolutionTP readSubmitSolutionTP. Defined.
End TpMessages.

(** *** Mining *)
Module MiningMessages.
Import Mining.

Definition OpenStandardMiningChannel_ok (m : OpenStandardMiningChannel) : Prop :=
  uint 32 (osmc_requestId m) /\ str_ok (osmc_userIdentity m) /\ sized 32 (osmc_maxTarget m).
#[export, refine] Instance OpenStandardMiningChannel_Message : Message OpenStandardMiningChannel :=
  {| msg_type := MSG_OPEN_STD_CHANNEL; msg_channel := false; msg_encode := encodeOpenStandardMiningChannel; msg_decode := decodeOpenStandardMiningChannel;
     msg_ok := OpenStandardMiningChannel_ok; msg_sent := fun m => {| osmc_requestId := osmc_requestId m; osmc_userIdentity := osmc_userIdentity m; osmc_nominalHashRate := fround (osmc_nominalHashRate m); osmc_maxTarget := osmc_maxTarget m |} |}.
Proof. message_tac OpenStandardMiningChannel_ok encodeOpenStandardMiningChannel decodeOpenStandardMiningChannel readOpenStandardMiningChannel. Defined.

Definition OpenStandardMiningChannelSuccess_ok (m : OpenStandardMiningChannelSuccess) : Prop :=
  uint 32 (osmcs_requestId m) /\ uint 32 (osmcs_channelId m) /\ sized 32 (osmcs_target m) /\
  upto 255 (osmcs_extranoncePrefix m) /\ uint 32 (osmcs_groupChannelId m).
#[export, refine] Instance OpenStandardMiningChannelSuccess_Message : Message OpenStandardMiningChannelSuccess :=
  {| msg_type := MSG_OPEN_STD_CHANNEL_SUCCESS; msg_channel := false; msg_encode := encodeOpenStandardMiningChannelSuccess; msg_decode := decodeOpenStandardMiningChannelSuccess;
     msg_ok := OpenStandardMiningChannelSuccess_ok; msg_sent := fun m => m |}.
Proof. message_tac OpenStandardMiningChannelSuccess_ok encodeOpenStandardMiningChannelSuccess decodeOpenStandardMiningChannelSuccess readOpenStandardMiningChannelSuccess. Defined.

Definition OpenExtendedMiningChannel_ok (m : OpenExtendedMiningChannel) : Prop :=
  uint 32 (oemc_requestId m) /\ str_ok (oemc_userIdentity m) /\ sized 32 (oemc_maxTarget m) /\
  uint 16 (oemc_minExtranonceSize m).
#[export, refine] Instance OpenExtendedMiningChannel_Message : Message OpenExtendedMiningChannel :=
  {| msg_type := MSG_OPEN_EXT_CHANNEL; msg_channel := false; msg_encode := encodeOpenExtendedMiningChannel; msg_decode := decodeOpenExtendedMiningChannel;
     msg_ok := OpenExtendedMiningChannel_ok; msg_sent := fun m => {| oemc_requestId := oemc_requestId m; oemc_userIdentity := oemc_userIdentity m; oemc_nominalHashRate := fround (oemc_nominalHashRate m); oemc_maxTarget := oemc_maxTarget m; oemc_minExtranonceSize := oemc_minExtranonceSize m |} |}.
Proof. message_tac OpenExtendedMiningChannel_ok encodeOpenExtendedMiningChannel decodeOpenExtendedMiningChannel readOpenExtendedMiningChannel. Defined.

Definition OpenExtendedMiningChannelSuccess_ok (m : OpenExtendedMiningChannelSuccess) : Prop :=
  uint 32 (oemcs_requestId m) /\ uint 32 (oemcs_channelId m) /\ sized 32 (oemcs_target m) /\
  uint 16 (oemcs_extranonceSize m) /\ upto 255 (oemcs_extranoncePrefix m).
#[export, refine] Instance OpenExtendedMiningChannelSuccess_Message : Message OpenExtendedMiningChannelSuccess :=
  {| msg_type := MSG_OPEN_EXT_CHANNEL_SUCCESS; msg_channel := false; msg_encode := encodeOpenExtendedMiningChannelSuccess; msg_decode := decodeOpenExtendedMiningChannelSuccess;
     msg_ok := OpenExtendedMiningChannelSuccess_ok; msg_sent := fun m => m |}.
Proof. message_tac OpenExtendedMiningChannelSuccess_ok encodeOpenExtendedMiningChannelSuccess decodeOpenExtendedMiningChannelSuccess readOpenExtendedMiningChannelSuccess. Defined.

Definition NewMiningJob_ok (m : NewMiningJob) : Prop :=
  uint 32 (nmj_channelId m) /\ uint 32 (nmj_jobId m) /\
  from_option (uint 32) True (nmj_minNtime m) /\ uint 32 (nmj_version m) /\
  sized 32 (nmj_merkleRoot m).
#[export, refine] Instance NewMiningJob_Message : Message NewMiningJob :=
  {| msg_type := MSG_NEW_MINING_JOB; msg_channel := true; msg_encode := encodeNewMiningJob; msg_decode := decodeNewMiningJob;
     msg_ok := NewMiningJob_ok; msg_sent := fun m => m |}.
Proof. message_tac NewMiningJob_ok encodeNewMiningJob decodeNewMiningJob readNewMiningJob. Defined.

Definition NewExtendedMiningJob_ok (m : NewExtendedMiningJob) : Prop :=
  uint 32 (nemj_channelId m) /\ uint 32 (nemj_jobId m) /\
  from_option (uint 32) True (nemj_minNtime m) /\ uint 32 (nemj_version m) /\
  hashes 255 (nemj_merklePath m) /\ upto 0xffff (nemj_coinbaseTxPrefix m) /\
  upto 0xffff (nemj_coinbaseTxSuffix m).
#[export, refine] Instance NewExtendedMiningJob_Message : Message NewExtendedMiningJob :=
  {| msg_type := MSG_NEW_EXT_MINING_JOB; msg_channel := true; msg_encode := encodeNewExtendedMiningJob; msg_decode := decodeNewExtendedMiningJob;
     msg_ok := NewExtendedMiningJob_ok; msg_sent := fun m => m |}.
Proof. message_tac NewExtendedMiningJob_ok encodeNewExtendedMiningJob decodeNewExtendedMiningJob readNewExtendedMiningJob. Defined.

Definition SetNewPrevHash_ok (m : SetNewPrevHash) : Prop :=
  uint 32 (snph_channelId m) /\ uint 32 (snph_jobId m) /\ sized 32 (snph_prevHash m) /\
  uint 32 (snph_minNtime m) /\ uint 32 (snph_nbits m).
#[export, refine] Instance SetNewPrevHash_Message : Message SetNewPrevHash :=
  {| msg_type := MSG_SET_NEW_PREV_HASH; msg_channel := true; msg_encode := encodeSetNewPrevHash; msg_decode := decodeSetNewPrevHash;
     msg_ok := SetNewPrevHash_ok; msg_sent := fun m => m |}.
Proof. message_tac SetNewPrevHash_ok encodeSetNewPrevHash decodeSetNewPrevHash readSetNewPrevHash. Defined.

Definition SetTarget_ok (m : SetTarget) : Prop :=
  uint 32 (st_channelId m) /\ sized 32 (st_maxTarget m).
#[export, refine] Instance SetTarget_Message : Message SetTarget :=
  {| msg_type := MSG_SET_TARGET; msg_channel := true; msg_encode := encodeSetTarget; msg_decode := decodeSetTarget;
     msg_ok := SetTarget_ok; msg_sent := fun m => m |}.
Proof. message_tac SetTarget_ok encodeSetTarget decodeSetTarget readSetTarget. Defined.

Definition SubmitSharesStandard_ok (m : SubmitSharesStandard) : Prop :=
  uint 32 (sss_channelId m) /\ uint 32 (sss_sequenceNumber m) /\ uint 32 (sss_jobId m) /\
  uint 32 (sss_nonce m) /\ uint 32 (sss_ntime m) /\ uint 32 (sss_version m).
#[export, refine] Instance SubmitSharesStandard_Message : Message SubmitSharesStandard :=
  {| msg_type := MSG_SUBMIT_SHARES_STANDARD; msg_channel := true; msg_encode := encodeSubmitSharesStandard; msg_decode := decodeSubmitSharesStandard;
     msg_ok := SubmitSharesStandard_ok; msg_sent := fun m => m |}.
Proof. message_tac SubmitSharesStandard_ok encodeSubmitSharesStandard decodeSubmitSharesStandard readSubmitSharesStandard. Defined.

Definition SubmitSharesExtended_ok (m : SubmitSharesExtended) : Prop :=
  uint 32 (ssx_channelId m) /\ uint 32 (ssx_sequenceNumber m) /\ uint 32 (ssx_jobId m) /\
  uint 32 (ssx_nonce m) /\ uint 32 (ssx_ntime m) /\ uint 32 (ssx_version m) /\
  upto 255 (ssx_extranonce m).
#[export, refine] Instance SubmitSharesExtended_Message : Message SubmitSharesExtended :=
  {| msg_type := MSG_SUBMIT_SHARES_EXTENDED; msg_channel := true; msg_encode := encodeSubmitSharesExtended; msg_decode := decodeSubmitSharesExtended;
     msg_ok := SubmitSharesExtended_ok; msg_sent := fun m => m |}.
Proof. message_tac SubmitSharesExtended_ok encodeSubmitSharesExtended decodeSubmitSharesExtended readSubmitSharesExtended. Defined.

Definition SubmitSharesSuccess_ok (m : SubmitSharesSuccess) : Prop :=
  uint 32 (ssok_channelId m) /\ uint 32 (ssok_lastSequenceNumber m) /\
  uint 32 (ssok_newSubmitsAcceptedCount m) /\ uint 64 (ssok_newSharesSum m).
#[export, refine] Instance SubmitSharesSuccess_Message : Message SubmitSharesSuccess :=
  {| msg_type := MSG_SUBMIT_SHARES_SUCCESS; msg_channel := true; msg_encode := encodeSubmitSharesSuccess; msg_decode := decodeSubmitSharesSuccess;
     msg_ok := SubmitSharesSuccess_ok; msg_sent := fun m => m |}.
Proof. message_tac SubmitSharesSuccess_ok encodeSubmitSharesSuccess decodeSubmitSharesSuccess readSubmitSharesSuccess. Defined.
End MiningMessages.

(** ** Sending messages over a connection *)
Import Tp CommonMessages JdMessages TpMessages MiningMessages.

(** A message of a type that has both directions. *)
Inductive sv2_message :=
| MSetupConnection (m : Common.SetupConnection)
| MSetupConnectionSuccess (m : Common.SetupConnectionSuccess)
| MSetupConnectionError (m : Common.SetupConnectionError)
| MAllocateMiningJobToken (m : Jd.AllocateMiningJobToken)
| MAllocateMiningJobTokenSuccess (m : Jd.AllocateMiningJobTokenSuccess)
| MDeclareMiningJob (m : Jd.DeclareMiningJob)
| MCoinbaseOutputDataSize (m : Tp.CoinbaseOutputDataSize)
| MNewTemplate (m : Tp.NewTemplate)
| MSetNewPrevHashTP (m : Tp.SetNewPrevHashTP)
| MRequestTransactionData (m : Tp.RequestTransactionData)
| MRequestTransactionDataSuccess (m : Tp.RequestTransactionDataSuccess)
| MSubmitSolutionTP (m : Tp.SubmitSolutionTP)
| MOpenStandardMiningChannel (m : Mining.OpenStandardMiningChannel)
| MOpenStandardMiningChannelSuccess (m : Mining.OpenStandardMiningChannelSuccess)
| MOpenExtendedMiningChannel (m : Mining.OpenExtendedMiningChannel)
| MOpenExtendedMiningChannelSuccess (m : Mining.OpenExtendedMiningChannelSuccess)
| MNewMiningJob (m : Mining.NewMiningJob)
| MNewExtendedMiningJob (m : Mining.NewExtendedMiningJob)
| MSetNewPrevHash (m : Mining.SetNewPrevHash)
| MSetTarget (m : Mining.SetTarget)
| MSubmitSharesStandard (m : Mining.SubmitSharesStandard)
| MSubmitSharesExtended (m : Mining.SubmitSharesExtended)
| MSubmitSharesSuccess (m : Mining.SubmitSharesSuccess).

Record packet := Packet { pk_type : Type; pk_message : Message pk_type; pk_msg : pk_type }.
Arguments Packet {_ _} _.

Definition packet_of (m : sv2_message) : packet :=
  match m with
  | MSetupConnection m => Packet m
  | MSetupConnectionSuccess m => Packet m
  | MSetupConnectionError m => Packet m
  | MAllocateMiningJobToken m => Packet m
  | MAllocateMiningJobTokenSuccess m => Packet m
  | MDeclareMiningJob m => Packet m
  | MCoinbaseOutputDataSize m => Packet m
  | MNewTemplate m => Packet m
  | MSetNewPrevHashTP m => Packet m
  | MRequestTransactionData m => Packet m
  | MRequestTransactionDataSuccess m => Packet m
  | MSubmitSolutionTP m => Packet m
  | MOpenStandardMiningChannel m => Packet m
  | MOpenStandardMiningChannelSuccess m => Packet m
  | MOpenExtendedMiningChannel m => Packet m
  | MOpenExtendedMiningChannelSuccess m => Packet m
  | MNewMiningJob m => Packet m
  | MNewExtendedMiningJob m => Packet m
  | MSetNewPrevHash m => Packet m
  | MSetTarget m => Packet m
  | MSubmitSharesStandard m => Packet m
  | MSubmitSharesExtended m => Packet m
  | MSubmitSharesSuccess m => Packet m
  end.

Definition sv2_ok (m : sv2_message) : Prop :=
  let p := packet_of m in @msg_ok _ (pk_message p) (pk_msg p).

(** The encoder of the message's type. *)
Definition sv2_encode (m : sv2_message) : res bytes :=
  let p := packet_of m in @msg_encode _ (pk_message p) (pk_msg p).

(** The frame carries the type and flag of the message, and the decoder of that type
    gives the message back. *)
Definition arrives (m : sv2_message) (f : Sv2Frame) : Prop :=
  let p := packet_of m in
  msgType (header f) = @msg_type _ (pk_message p) /\
  channelMsg (header f) = @msg_channel _ (pk_message p) /\
  @msg_decode _ (pk_message p) (payload f) = Ok (@msg_sent _ (pk_message p) (pk_msg p)).

Lemma sv2_frames ms : Forall sv2_ok ms -> exists fs,
  Forall2 (fun m f => sv2_encode m = Ok (frame_bytes f) /\ arrives m f) ms fs /\
  Forall (fun f => frame_ok f /\ bytes_ok (payload f)) fs.
Proof.
  induction 1 as [|m ms Hm _ (fs & H1 & H2)]; [by exists []|].
  destruct (@msg_law _ (pk_message (packet_of m)) _ Hm) as (p & Hf & Hb & He & Hd).
  eexists (_ :: fs). split; constructor; [split; [exact He|by repeat split]|done|by split|done].
Qed.

(** C28: messages survive the wire.  Every list of SV2 messages whose fields are in
    range is encoded without error, and whatever the chunks the resulting byte stream
    is received in, the receiver gets one frame per message, in order, with the type
    and channel flag of the message, whose payload the decoder of that type turns back
    into the message (hash rates rounded to single precision); nothing is left over. *)
Theorem messages_transported ms : Forall sv2_ok ms -> exists wires,
  Forall2 (fun m w => sv2_encode m = Ok w) ms wires /\
  forall chunks, bconcat chunks = bconcat wires ->
  exists fs, receive_all [] chunks = Ok (fs, []) /\ Forall2 arrives ms fs.
Proof.
  intros Hms. destruct (sv2_frames ms Hms) as (fs & Hfs & Hok). exists (map frame_bytes fs). split.
  - apply Forall2_fmap_r. eapply Forall2_impl; [exact Hfs|]. by intros m f [He _].
  - intros chunks Hc. exists fs. split.
    + apply receive_all_frames; [done|constructor|done|by rewrite app_nil_r].
    + eapply Forall2_impl; [exact Hfs|]. by intros m f [_ Ha].
Qed.

Definition example_messages : list sv2_message :=
  [ MSetTarget {| st_channelId := 7; st_maxTarget := replicate 32 255 |};
    MOpenStandardMiningChannel {| osmc_requestId := 1; osmc_userIdentity := js "tb3.rig"; osmc_nominalHashRate := literal 1 10;
                                  osmc_maxTarget := replicate 32 1 |};
    MRequestTransactionData {| rtd_templateId := 2 ^ 40 |} ].

Lemma messages_transported_witness : exists wires,
  Forall2 (fun m w => sv2_encode m = Ok w) example_messages wires /\
  forall chunks, bconcat chunks = bconcat wires ->
  exists fs, receive_all [] chunks = Ok (fs, []) /\ Forall2 arrives example_messages fs.
Proof.
  apply (messages_transported example_messages).
  repeat constructor; try (vm_compute; congruence); apply bytes_ok_check; reflexivity.
Defined.
