(* ===== verification/Noise.v ===== *)
(** * The Noise channel of Stratum V2 ([pool/src/sv2/lib/noise.ts])

    The NX handshake of both sides and the transport that carries frames as encrypted
    segments.  The primitives (BLAKE2s, HMAC, X25519, ChaCha20-Poly1305) belong to the
    noble packages: they are the class [NoiseCrypto], and [NoiseCryptoOk] states what the
    protocol relies on, that the two sides of a Diffie-Hellman exchange agree and that a
    sealed text opens under the same key, nonce and associated data.  Random bytes are
    arguments.  The theorems: a handshake leaves both sides with the same two keys, the
    transport delivers every frame when no read ends inside a frame after a complete
    segment, and it breaks the connection when one does. *)

From S2P Require Import Prelude JsString Header Effects Sv2Types.

Record KeyPair := { priv : bytes; pub : bytes }.

Class NoiseCrypto := {
  blake2s : bytes -> bytes;
  hmac_blake2s : bytes -> bytes -> bytes;
  x25519_getPublicKey : bytes -> bytes;
  x25519_getSharedSecret : bytes -> bytes -> res bytes;
  (** [chacha20poly1305(key, nonce, ad).encrypt] and [.decrypt]. *)
  aead_encrypt : bytes -> bytes -> bytes -> bytes -> res bytes;
  aead_decrypt : bytes -> bytes -> bytes -> bytes -> res bytes
}.

Class NoiseCryptoOk `{NoiseCrypto} : Prop := {
  hmac_sized k d : zlen (hmac_blake2s k d) = 32;
  public_sized a : zlen a = 32 -> zlen (x25519_getPublicKey a) = 32;
  shared_comm a b : zlen a = 32 -> zlen b = 32 ->
    x25519_getSharedSecret a (x25519_getPublicKey b) = x25519_getSharedSecret b (x25519_getPublicKey a);
  aead_law k n ad p : zlen k = 32 -> zlen n = 12 -> exists c,
    aead_encrypt k n ad p = Ok c /\ zlen c = zlen p + 16 /\ aead_decrypt k n ad c = Ok p
}.

Definition PROTOCOL_NAME : jsstr := js "Noise_NX_25519_ChaChaPoly_BLAKE2s".
Definition HASH_LEN : Z := 32.
Definition TAG_LEN : Z := 16.
Definition MAX_NONCE : Z := 2 ^ 64 - 1.
Definition NOISE_MAX_SEGMENT : Z := 65535.
Definition NOISE_MAX_PLAINTEXT : Z := NOISE_MAX_SEGMENT - TAG_LEN.

(** ** Low-level primitives *)
Definition noise_concat (arrs : list bytes) : res bytes := concatBytes arrs.

Definition nonceBytes (n : Z) : res bytes :=
  _ ← throw_if (n >? MAX_NONCE) "noise nonce overflow";
  Ok (zeros 4 ++ le_bytes 8 n).

(** ** CipherState *)
Record CipherState := { cs_k : option bytes; cs_n : Z }.

Definition new_CipherState (key : option bytes) : CipherState := {| cs_k := key; cs_n := 0 |}.
Definition hasKey (c : CipherState) : bool := bool_decide (is_Some (cs_k c)).

Inductive Role := initiator | responder.
#[global] Instance Role_eq_dec : EqDecision Role.
Proof. solve_decision. Defined.

Record SymmetricState := { sym_h : bytes; sym_ck : bytes; sym_cipher : CipherState }.

Record HandshakeResult := {
  sendCipher : CipherState;
  recvCipher : CipherState;
  handshakeHash : bytes;
  remoteStaticPub : option bytes;
  responderPayload : option bytes
}.

Record NoiseNX := {
  nx_role : Role;
  nx_sym : SymmetricState;
  nx_e : option KeyPair;
  nx_re : option bytes;
  nx_rs : option bytes;
  nx_staticKey : option KeyPair
}.

Record NoiseTransport := { t_send : CipherState; t_recv : CipherState }.

Section Noise.
Context `{NoiseCrypto}.

Definition dh (priv pub : bytes) : res bytes := x25519_getSharedSecret priv pub.
Definition noise_hash (d : bytes) : bytes := blake2s d.
Definition hashConcat (a b : bytes) : res bytes :=
  out ← ta_set (zeros (zlen a + zlen b)) a 0;
  out ← ta_set out b (zlen a);
  Ok (noise_hash out).

(** [hkdf(chainingKey, ikm, 2)], the only arity that is used. *)
Definition hkdf2 (chainingKey ikm : bytes) : res (bytes * bytes) :=
  let tempKey := hmac_blake2s chainingKey ikm in
  let out1 := hmac_blake2s tempKey [1] in
  m ← noise_concat [out1; [2]];
  let out2 := hmac_blake2s tempKey m in
  Ok (out1, out2).

(** The nonce counter is advanced only when the primitive returns. *)
Definition encryptWithAd (ad plaintext : bytes) (c : CipherState) : res (bytes * CipherState) :=
  match cs_k c with
  | None => Ok (plaintext, c)
  | Some key =>
      nb ← nonceBytes (cs_n c);
      out ← aead_encrypt key nb ad plaintext;
      Ok (out, {| cs_k := Some key; cs_n := cs_n c + 1 |})
  end.
Definition decryptWithAd (ad ciphertext : bytes) (c : CipherState) : res (bytes * CipherState) :=
  match cs_k c with
  | None => Ok (ciphertext, c)
  | Some key =>
      nb ← nonceBytes (cs_n c);
      out ← aead_decrypt key nb ad ciphertext;
      Ok (out, {| cs_k := Some key; cs_n := cs_n c + 1 |})
  end.

(** ** SymmetricState *)
Definition new_SymmetricState : SymmetricState :=
  let nameBytes := utf8_encode PROTOCOL_NAME in
  let h0 := if zlen nameBytes <=? HASH_LEN then nameBytes ++ zeros (HASH_LEN - zlen nameBytes)
            else noise_hash nameBytes in
  {| sym_h := h0; sym_ck := h0; sym_cipher := new_CipherState None |}.

Definition mixKey (ikm : bytes) (s : SymmetricState) : res SymmetricState :=
  r ← hkdf2 (sym_ck s) ikm;
  Ok {| sym_h := sym_h s; sym_ck := fst r; sym_cipher := new_CipherState (Some (snd r)) |}.
Definition mixHash (data : bytes) (s : SymmetricState) : res SymmetricState :=
  h' ← hashConcat (sym_h s) data;
  Ok {| sym_h := h'; sym_ck := sym_ck s; sym_cipher := sym_cipher s |}.
Definition encryptAndHash (plaintext : bytes) (s : SymmetricState) : res (bytes * SymmetricState) :=
  r ← encryptWithAd (sym_h s) plaintext (sym_cipher s);
  s' ← mixHash (fst r) {| sym_h := sym_h s; sym_ck := sym_ck s; sym_cipher := snd r |};
  Ok (fst r, s').
Definition decryptAndHash (ciphertext : bytes) (s : SymmetricState) : res (bytes * SymmetricState) :=
  r ← decryptWithAd (sym_h s) ciphertext (sym_cipher s);
  s' ← mixHash ciphertext {| sym_h := sym_h s; sym_ck := sym_ck s; sym_cipher := snd r |};
  Ok (fst r, s').
Definition sym_split (s : SymmetricState) : res (CipherState * CipherState) :=
  r ← hkdf2 (sym_ck s) [];
  Ok (new_CipherState (Some (fst r)), new_CipherState (Some (snd r))).

(** ** HandshakeState *)
Definition new_NoiseNX (r : Role) (key : option KeyPair) : res NoiseNX :=
  _ ← throw_if (bool_decide (r = responder) && negb (bool_decide (is_Some key))) "responder requires a static key";
  Ok {| nx_role := r; nx_sym := new_SymmetricState; nx_e := None; nx_re := None; nx_rs := None; nx_staticKey := key |}.

Definition set_sym (s : SymmetricState) (x : NoiseNX) : NoiseNX :=
  {| nx_role := nx_role x; nx_sym := s; nx_e := nx_e x; nx_re := nx_re x; nx_rs := nx_rs x; nx_staticKey := nx_staticKey x |}.
Definition set_e (p : KeyPair) (x : NoiseNX) : NoiseNX :=
  {| nx_role := nx_role x; nx_sym := nx_sym x; nx_e := Some p; nx_re := nx_re x; nx_rs := nx_rs x; nx_staticKey := nx_staticKey x |}.
Definition set_re (b : bytes) (x : NoiseNX) : NoiseNX :=
  {| nx_role := nx_role x; nx_sym := nx_sym x; nx_e := nx_e x; nx_re := Some b; nx_rs := nx_rs x; nx_staticKey := nx_staticKey x |}.
Definition set_rs (b : bytes) (x : NoiseNX) : NoiseNX :=
  {| nx_role := nx_role x; nx_sym := nx_sym x; nx_e := nx_e x; nx_re := nx_re x; nx_rs := Some b; nx_staticKey := nx_staticKey x |}.

(** A method of [this.sym]. *)
Definition on_sym (f : SymmetricState -> res SymmetricState) : eff NoiseNX unit :=
  x ← get; s ← lift (f (nx_sym x)); modify (set_sym s).
Definition with_sym {A} (f : SymmetricState -> res (A * SymmetricState)) : eff NoiseNX A :=
  x ← get; r ← lift (f (nx_sym x)); _ ← modify (set_sym (snd r)); mret (fst r).

Definition writeMessage1 (ePriv : bytes) : eff NoiseNX bytes :=
  x ← get;
  _ ← lift (throw_if (negb (bool_decide (nx_role x = initiator))) "writeMessage1: wrong role");
  let ePub := x25519_getPublicKey ePriv in
  _ ← modify (set_e {| priv := ePriv; pub := ePub |});
  _ ← on_sym (mixHash ePub);
  mret ePub.

Definition readMessage1 (msg : bytes) : eff NoiseNX unit :=
  x ← get;
  _ ← lift (throw_if (negb (bool_decide (nx_role x = responder))) "readMessage1: wrong role");
  _ ← lift (throw_if (zlen msg <? 32) "noise msg1 too short");
  let r := slice 0 32 msg in
  _ ← modify (set_re r);
  on_sym (mixHash r).

Definition writeMessage2 (ePriv payload : bytes) : eff NoiseNX bytes :=
  x ← get;
  _ ← lift (throw_if (negb (bool_decide (nx_role x = responder))) "writeMessage2: wrong role");
  match nx_staticKey x, nx_re x with
  | Some sk, Some re =>
      let ePub := x25519_getPublicKey ePriv in
      _ ← modify (set_e {| priv := ePriv; pub := ePub |});
      _ ← on_sym (mixHash ePub);
      ee ← lift (dh ePriv re);
      _ ← on_sym (mixKey ee);
      encS ← with_sym (encryptAndHash (pub sk));
      es ← lift (dh (priv sk) re);
      _ ← on_sym (mixKey es);
      encPayload ← with_sym (encryptAndHash payload);
      lift (noise_concat [ePub; encS; encPayload])
  | _, _ => throw "noise: state"
  end.

Definition readMessage2 (msg : bytes) : eff NoiseNX HandshakeResult :=
  x ← get;
  _ ← lift (throw_if (negb (bool_decide (nx_role x = initiator))) "readMessage2: wrong role");
  match nx_e x with
  | None => throw "noise: missing e"
  | Some ek =>
      _ ← lift (throw_if (zlen msg <? 32 + (32 + TAG_LEN)) "noise msg2 too short");
      let off := 0 in
      let re := slice off (off + 32) msg in
      let off := off + 32 in
      _ ← modify (set_re re);
      _ ← on_sym (mixHash re);
      ee ← lift (dh (priv ek) re);
      _ ← on_sym (mixKey ee);
      let encS := slice off (off + 32 + TAG_LEN) msg in
      let off := off + 32 + TAG_LEN in
      rs ← with_sym (decryptAndHash encS);
      _ ← modify (set_rs rs);
      es ← lift (dh (priv ek) rs);
      _ ← on_sym (mixKey es);
      let encPayload := drop (Z.to_nat off) msg in
      payload ← with_sym (decryptAndHash encPayload);
      x ← get;
      c ← lift (sym_split (nx_sym x));
      mret {| sendCipher := fst c; recvCipher := snd c; handshakeHash := sym_h (nx_sym x);
              remoteStaticPub := Some rs; responderPayload := Some payload |}
  end.

Definition finishResponder : eff NoiseNX HandshakeResult :=
  x ← get;
  _ ← lift (throw_if (negb (bool_decide (nx_role x = responder))) "finishResponder: wrong role");
  c ← lift (sym_split (nx_sym x));
  mret {| sendCipher := snd c; recvCipher := fst c; handshakeHash := sym_h (nx_sym x);
          remoteStaticPub := None; responderPayload := None |}.

(** ** NoiseTransport *)
Definition on_send {A} (f : CipherState -> res (A * CipherState)) : eff NoiseTransport A :=
  t ← get; r ← lift (f (t_send t)); _ ← modify (fun t => {| t_send := snd r; t_recv := t_recv t |}); mret (fst r).
Definition on_recv {A} (f : CipherState -> res (A * CipherState)) : eff NoiseTransport A :=
  t ← get; r ← lift (f (t_recv t)); _ ← modify (fun t => {| t_send := t_send t; t_recv := snd r |}); mret (fst r).

(** [while (off < plaintext.length)]: a round takes at least one byte, so the
    length of the plaintext is enough fuel. *)
Fixpoint enc_loop (fuel : nat) (plaintext : bytes) (off : Z) (segments : list bytes)
    : eff NoiseTransport (list bytes) :=
  match fuel with
  | O => mret segments
  | S fuel =>
      if off <? zlen plaintext then
        let end_ := Z.min (off + NOISE_MAX_PLAINTEXT) (zlen plaintext) in
        ct ← on_send (encryptWithAd [] (slice off end_ plaintext));
        let lenPrefix := le_bytes 2 (zlen ct) in
        enc_loop fuel plaintext end_ (segments ++ [lenPrefix; ct])
      else mret segments
  end.

Definition encryptFrame (plaintext : bytes) : eff NoiseTransport bytes :=
  segments ← enc_loop (length plaintext) plaintext 0 [];
  lift (noise_concat (segments ++ [[0; 0]])).

Definition getUint16 (buf : bytes) (off : Z) : Z := le_val (slice off (off + 2) buf).

(** [while (off + 2 <= buf.length)]: a round takes at least two bytes. *)
Fixpoint dec_loop (fuel : nat) (buf : bytes) (off : Z) (cur out : list bytes)
    : eff NoiseTransport (list bytes) :=
  match fuel with
  | O => mret out
  | S fuel =>
      if off + 2 <=? zlen buf then
        let segLen := getUint16 buf off in
        if off + 2 + segLen >? zlen buf then mret out else
        let off := off + 2 in
        if segLen =? 0 then
          f ← lift (noise_concat cur);
          dec_loop fuel buf off [] (out ++ [f])
        else
          let segCt := slice off (off + segLen) buf in
          let off := off + segLen in
          pt ← on_recv (decryptWithAd [] segCt);
          dec_loop fuel buf off (cur ++ [pt]) out
      else mret out
  end.

Fixpoint pending_loop (fuel : nat) (buf : bytes) (completedFrames off frameStart completed : Z) : Z :=
  match fuel with
  | O => frameStart
  | S fuel =>
      if off + 2 <=? zlen buf then
        let segLen := getUint16 buf off in
        if off + 2 + segLen >? zlen buf then frameStart else
        let off := off + (2 + segLen) in
        if segLen =? 0 then
          let completed := completed + 1 in
          let frameStart := off in
          if completed =? completedFrames then off
          else pending_loop fuel buf completedFrames off frameStart completed
        else pending_loop fuel buf completedFrames off frameStart completed
      else frameStart
  end.
Definition pendingFrameStart (buf : bytes) (completedFrames : Z) : Z :=
  pending_loop (length buf) buf completedFrames 0 0 0.

Definition decryptFrames (buf : bytes) : eff NoiseTransport (list bytes * Z) :=
  out ← dec_loop (length buf) buf 0 [] [];
  let pendingStart := pendingFrameStart buf (zlen out) in
  mret (out, pendingStart).

(** What every endpoint does with a chunk read from its socket: append it to [ct],
    decrypt the frames, keep what was not consumed.  The state is the transport and [ct]. *)
Definition receiveCipher (chunk : bytes) : eff (NoiseTransport * bytes) (list bytes) := fun '(t, ct) =>
  let ct := ct ++ chunk in
  match decryptFrames ct t with
  | (Ok (frames, consumed), t) => (Ok frames, (t, drop (Z.to_nat consumed) ct))
  | (Throw e, t) => (Throw e, (t, ct))
  end.

(** A session: frames written one after the other, chunks read one after the other. *)
Fixpoint send_frames (fs : list bytes) : eff NoiseTransport (list bytes) :=
  match fs with
  | [] => mret []
  | f :: fs => w ← encryptFrame f; ws ← send_frames fs; mret (w :: ws)
  end.
Fixpoint receive_chunks (chunks : list bytes) : eff (NoiseTransport * bytes) (list bytes) :=
  match chunks with
  | [] => mret []
  | c :: chunks => fs ← receiveCipher c; gs ← receive_chunks chunks; mret (fs ++ gs)
  end.
End Noise.

(** ** The handshake: lemmas *)
Section Handshake.
Context `{NoiseCryptoOk}.

Lemma hashConcat_ok a b : hashConcat a b = Ok (noise_hash (a ++ b)).
Proof.
  unfold hashConcat. pose proof (zlen_nonneg a). pose proof (zlen_nonneg b).
  rewrite ta_set_zeros by lia. replace (zlen a + zlen b - zlen a) with (zlen b) by lia. cbn [mbind res_bind].
  rewrite (ta_set_ok _ b (zlen a) a (zeros (zlen b)) []); [by rewrite app_nil_r|by rewrite app_nil_r|done|].
  by rewrite zlen_zeros.
Qed.

Lemma hkdf2_ok c i : exists a b, hkdf2 c i = Ok (a, b) /\ zlen a = 32 /\ zlen b = 32.
Proof.
  unfold hkdf2, noise_concat. rewrite concatBytes_ok. cbn [mbind res_bind]. do 2 eexists.
  split; [done|]. split; apply hmac_sized.
Qed.

Lemma mixHash_ok d s : exists s', mixHash d s = Ok s' /\ sym_ck s' = sym_ck s /\ sym_cipher s' = sym_cipher s.
Proof. unfold mixHash. rewrite hashConcat_ok. cbn [mbind res_bind]. eexists. done. Qed.

(** A cipher that has just been keyed. *)
Definition fresh_key (c : CipherState) : Prop := exists key, zlen key = 32 /\ c = new_CipherState (Some key).

Lemma mixKey_ok i s : exists s', mixKey i s = Ok s' /\ fresh_key (sym_cipher s').
Proof.
  unfold mixKey. destruct (hkdf2_ok (sym_ck s) i) as (a & b & -> & _ & Hb). cbn [mbind res_bind].
  eexists. split; [done|]. by exists b.
Qed.

Lemma split_ok s : exists a b, sym_split s = Ok (a, b) /\ fresh_key a /\ fresh_key b.
Proof.
  unfold sym_split. destruct (hkdf2_ok (sym_ck s) []) as (a & b & -> & Ha & Hb). cbn [mbind res_bind].
  do 2 eexists. split; [done|]. split; [by exists a|by exists b].
Qed.

Lemma nonceBytes_ok x : 0 <= x <= MAX_NONCE -> exists nb, nonceBytes x = Ok nb /\ zlen nb = 12.
Proof.
  intros Hx. unfold nonceBytes. rewrite Z.gtb_ltb, (proj2 (Z.ltb_ge _ _)) by lia. cbn [throw_if mbind res_bind].
  eexists. split; [done|]. rewrite zlen_app, zlen_zeros, le_bytes_zlen by lia. done.
Qed.

(** What one side encrypts the other, in the same state, decrypts, and they stay in
    the same state. *)
Lemma encrypt_decrypt p s : fresh_key (sym_cipher s) -> exists c s',
  encryptAndHash p s = Ok (c, s') /\ decryptAndHash c s = Ok (p, s') /\ zlen c = zlen p + 16.
Proof.
  intros (key & Hk & Ec). destruct (nonceBytes_ok 0) as (nb & En & Hn); [unfold MAX_NONCE; lia|].
  destruct (aead_law key nb (sym_h s) p Hk Hn) as (c & E1 & Hc & E2).
  destruct (mixHash_ok c {| sym_h := sym_h s; sym_ck := sym_ck s;
    sym_cipher := {| cs_k := Some key; cs_n := 0 + 1 |} |}) as (s' & E3 & _). exists c, s'.
  unfold encryptAndHash, decryptAndHash, encryptWithAd, decryptWithAd. rewrite Ec. cbn [new_CipherState cs_k cs_n].
  rewrite En. cbn [mbind res_bind]. rewrite E1, E2. cbn [mbind res_bind fst snd]. rewrite E3. done.
Qed.

Lemma new_ok r key : (r = responder -> is_Some key) ->
  new_NoiseNX r key = Ok {| nx_role := r; nx_sym := new_SymmetricState; nx_e := None; nx_re := None; nx_rs := None;
                            nx_staticKey := key |}.
Proof. intros Hk. unfold new_NoiseNX. destruct r; [done|]. destruct (Hk eq_refl) as [? ->]. done. Qed.

Lemma writeMessage1_ok ei x s : nx_role x = initiator -> mixHash (x25519_getPublicKey ei) (nx_sym x) = Ok s ->
  writeMessage1 ei x = (Ok (x25519_getPublicKey ei),
    set_sym s (set_e {| priv := ei; pub := x25519_getPublicKey ei |} x)).
Proof.
  intros Er E. unfold writeMessage1, on_sym. eff_simpl. rewrite Er. cbn [bool_decide negb throw_if nx_sym set_e].
  by rewrite E.
Qed.

Lemma readMessage1_ok m x s : nx_role x = responder -> zlen m = 32 -> mixHash m (nx_sym x) = Ok s ->
  readMessage1 m x = (Ok tt, set_sym s (set_re m x)).
Proof.
  intros Er Hm E. unfold readMessage1, on_sym. eff_simpl. rewrite Er, Hm. cbn [bool_decide negb throw_if Z.ltb].
  assert (slice 0 32 m = m) as -> by (rewrite <- (app_nil_r m) at 1; by apply slice_app_l).
  cbn [set_re nx_sym]. by rewrite E.
Qed.

Lemma writeMessage2_ok er payload sk re x s1 d1 s2 encS s3 d2 s4 encP s5 :
  nx_role x = responder -> nx_staticKey x = Some sk -> nx_re x = Some re ->
  mixHash (x25519_getPublicKey er) (nx_sym x) = Ok s1 -> dh er re = Ok d1 -> mixKey d1 s1 = Ok s2 ->
  encryptAndHash (pub sk) s2 = Ok (encS, s3) -> dh (priv sk) re = Ok d2 -> mixKey d2 s3 = Ok s4 ->
  encryptAndHash payload s4 = Ok (encP, s5) -> exists y, nx_role y = responder /\ nx_sym y = s5 /\
  writeMessage2 er payload x = (Ok (x25519_getPublicKey er ++ encS ++ encP), y).
Proof.
  intros Er Es Ere E1 E2 E3 E4 E5 E6 E7.
  exists (set_sym s5 (set_e {| priv := er; pub := x25519_getPublicKey er |} x)). split; [done|]. split; [done|].
  unfold writeMessage2, on_sym, with_sym. eff_simpl. rewrite Er, Es, Ere. cbn [bool_decide negb throw_if nx_sym set_e].
  rewrite E1. cbn [set_sym nx_sym]. rewrite E2, E3. cbn [set_sym nx_sym]. rewrite E4. cbn [set_sym nx_sym fst snd].
  rewrite E5, E6. cbn [set_sym nx_sym]. rewrite E7. cbn [fst snd]. unfold noise_concat. rewrite concatBytes_ok.
  by rewrite !bconcat_cons, app_nil_r.
Qed.

Lemma readMessage2_ok ek re encS encP x s1 d1 s2 rs s3 d2 s4 payload s5 c1 c2 :
  nx_role x = initiator -> nx_e x = Some ek -> zlen re = 32 -> zlen encS = 48 ->
  mixHash re (nx_sym x) = Ok s1 -> dh (priv ek) re = Ok d1 -> mixKey d1 s1 = Ok s2 ->
  decryptAndHash encS s2 = Ok (rs, s3) -> dh (priv ek) rs = Ok d2 -> mixKey d2 s3 = Ok s4 ->
  decryptAndHash encP s4 = Ok (payload, s5) -> sym_split s5 = Ok (c1, c2) ->
  (readMessage2 (re ++ encS ++ encP) x).1 = Ok {| sendCipher := c1; recvCipher := c2; handshakeHash := sym_h s5;
    remoteStaticPub := Some rs; responderPayload := Some payload |}.
Proof.
  intros Er Ee Hre HeS E1 E2 E3 E4 E5 E6 E7 E8.
  unfold readMessage2, on_sym, with_sym, TAG_LEN. eff_simpl. rewrite Er, Ee. cbn [bool_decide negb throw_if].
  pose proof (zlen_nonneg encP). rewrite !zlen_app, Hre, HeS, (proj2 (Z.ltb_ge _ _)) by lia. cbn [throw_if].
  rewrite slice_app_l by (by rewrite Hre). rewrite (slice_app_mid re encS encP) by (rewrite Hre, ?HeS; lia).
  rewrite (app_assoc re encS encP), drop_app_zlen by (rewrite zlen_app, Hre, HeS; lia).
  cbn [set_re set_rs nx_sym]. rewrite E1. cbn [set_sym nx_sym]. rewrite E2, E3. cbn [set_sym nx_sym]. rewrite E4.
  cbn [set_sym set_rs nx_sym fst snd]. rewrite E5, E6. cbn [set_sym nx_sym]. rewrite E7. cbn [set_sym nx_sym fst snd].
  by rewrite E8.
Qed.

(** The calls of the two sides, in the order in which the messages travel. *)
Definition handshake (sk : KeyPair) (ei er payload : bytes) : res (HandshakeResult * HandshakeResult) :=
  i ← new_NoiseNX initiator None;
  r ← new_NoiseNX responder (Some sk);
  let '(m1, i) := writeMessage1 ei i in
  m1 ← m1;
  let '(ok, r) := readMessage1 m1 r in
  _ ← ok;
  let '(m2, r) := writeMessage2 er payload r in
  m2 ← m2;
  let '(a, i) := readMessage2 m2 i in
  a ← a;
  let '(b, r) := finishResponder r in
  b ← b;
  Ok (a, b).

(** The messages and results of a handshake, one call after the other. *)
Lemma handshake_run sk ei er payload d1 d2 :
  zlen ei = 32 -> zlen er = 32 -> zlen (priv sk) = 32 -> pub sk = x25519_getPublicKey (priv sk) ->
  dh er (x25519_getPublicKey ei) = Ok d1 -> dh (priv sk) (x25519_getPublicKey ei) = Ok d2 ->
  exists i0 m1 i1 r0 r1 m2 r2 a b, new_NoiseNX initiator None = Ok i0 /\ writeMessage1 ei i0 = (Ok m1, i1) /\
    new_NoiseNX responder (Some sk) = Ok r0 /\ readMessage1 m1 r0 = (Ok tt, r1) /\ writeMessage2 er payload r1 = (Ok m2, r2) /\
    (readMessage2 m2 i1).1 = Ok a /\ (finishResponder r2).1 = Ok b /\ zlen m2 = 96 + zlen payload /\
    sendCipher a = recvCipher b /\ recvCipher a = sendCipher b /\ fresh_key (sendCipher a) /\ fresh_key (recvCipher a) /\
    handshakeHash a = handshakeHash b /\ remoteStaticPub a = Some (pub sk) /\ responderPayload a = Some payload.
Proof.
  intros Hi Hr Hs Hp D1 D2. unfold dh in *.
  pose proof (public_sized ei Hi) as Pi. pose proof (public_sized er Hr) as Pr. pose proof (public_sized _ Hs) as Ps.
  assert (x25519_getSharedSecret ei (x25519_getPublicKey er) = Ok d1) as D1' by (by rewrite shared_comm).
  assert (x25519_getSharedSecret ei (pub sk) = Ok d2) as D2' by (by rewrite Hp, shared_comm).
  destruct (mixHash_ok (x25519_getPublicKey ei) new_SymmetricState) as (s1 & E1 & _).
  destruct (mixHash_ok (x25519_getPublicKey er) s1) as (s2 & E2 & _).
  destruct (mixKey_ok d1 s2) as (s3 & E3 & F3).
  destruct (encrypt_decrypt (pub sk) s3 F3) as (encS & s4 & E4 & E4' & L4).
  destruct (mixKey_ok d2 s4) as (s5 & E5 & F5).
  destruct (encrypt_decrypt payload s5 F5) as (encP & s6 & E6 & E6' & L6).
  destruct (split_ok s6) as (c1 & c2 & E7 & K1 & K2).
  assert (zlen encS = 48) as L4' by (rewrite L4, Hp; lia).
  set (i0 := {| nx_role := initiator; nx_sym := new_SymmetricState; nx_e := None; nx_re := None; nx_rs := None; nx_staticKey := None |}).
  set (r0 := {| nx_role := responder; nx_sym := new_SymmetricState; nx_e := None; nx_re := None; nx_rs := None; nx_staticKey := Some sk |}).
  destruct (writeMessage2_ok er payload sk (x25519_getPublicKey ei) (set_sym s1 (set_re (x25519_getPublicKey ei) r0))
    s2 d1 s3 encS s4 d2 s5 encP s6) as (y & Ry & Sy & Ey); [done..|].
  exists i0, (x25519_getPublicKey ei), (set_sym s1 (set_e {| priv := ei; pub := x25519_getPublicKey ei |} i0)), r0. do 5 eexists.
  split; [done|]. split; [by apply writeMessage1_ok|]. split; [done|].
  split; [by apply readMessage1_ok|]. split; [exact Ey|].
  split; [exact (readMessage2_ok {| priv := ei; pub := x25519_getPublicKey ei |} _ encS encP
    (set_sym s1 (set_e {| priv := ei; pub := x25519_getPublicKey ei |} i0)) s2 d1 s3 (pub sk) s4 d2 s5
    payload s6 c1 c2 eq_refl eq_refl Pr L4' E2 D1' E3 E4' D2' E5 E6' E7)|].
  split; [unfold finishResponder; eff_simpl; rewrite Ry, Sy, E7; done|].
  split; [rewrite !zlen_app; lia|]. done.
Qed.

(** C15: the two sides of the NX handshake agree.  For every static key pair of the
    responder, every ephemeral secret of the two sides whose exchanges are defined, and
    every payload, the initiator accepts the responder's answer, learns the responder's
    static public key and the payload, and both sides end with the same handshake hash
    and the same two fresh keys, each side's sending cipher the other's receiving one. *)
Theorem noise_handshake sk ei er payload d1 d2 :
  zlen ei = 32 -> zlen er = 32 -> zlen (priv sk) = 32 -> pub sk = x25519_getPublicKey (priv sk) ->
  dh er (x25519_getPublicKey ei) = Ok d1 -> dh (priv sk) (x25519_getPublicKey ei) = Ok d2 ->
  exists a b, handshake sk ei er payload = Ok (a, b) /\
    sendCipher a = recvCipher b /\ recvCipher a = sendCipher b /\ fresh_key (sendCipher a) /\ fresh_key (recvCipher a) /\
    handshakeHash a = handshakeHash b /\ remoteStaticPub a = Some (pub sk) /\ responderPayload a = Some payload.
Proof.
  intros Hi Hr Hs Hp D1 D2.
  destruct (handshake_run sk ei er payload d1 d2 Hi Hr Hs Hp D1 D2) as
    (i0 & m1 & i1 & r0 & r1 & m2 & r2 & a & b & E1 & E2 & E3 & E4 & E5 & E6 & E7 & _ & Hab).
  exists a, b. split; [|exact Hab]. unfold handshake. rewrite E1, E3. cbn [mbind res_bind]. rewrite E2. cbn [mbind res_bind].
  rewrite E4. cbn [mbind res_bind]. rewrite E5. cbn [mbind res_bind].
  destruct (readMessage2 m2 i1) as [x ?]. cbn [fst] in E6. subst x. cbn [mbind res_bind].
  destruct (finishResponder r2) as [x ?]. cbn [fst] in E7. by subst x.
Qed.
End Handshake.

(** ** The transport: lemmas *)
Section Transport.
Context `{NoiseCryptoOk}.
Context (key : bytes) (Hkey : zlen key = 32).

(** The cipher texts [cs] are the segments [ps] sealed from nonce [x] on. *)
Inductive sealed : Z -> list bytes -> list bytes -> Prop :=
| sealed_nil x : sealed x [] []
| sealed_cons x nb p c ps cs : nonceBytes x = Ok nb -> aead_decrypt key nb [] c = Ok p ->
    0 < zlen c <= NOISE_MAX_SEGMENT -> sealed (x + 1) ps cs -> sealed x (p :: ps) (c :: cs).

(** A segment and a frame on the wire. *)
Definition seg_bytes (c : bytes) : bytes := le_bytes 2 (zlen c) ++ c.
Definition segs_bytes (cs : list bytes) : bytes := bconcat (seg_bytes <$> cs).
Definition frame_wire (cs : list bytes) : bytes := segs_bytes cs ++ [0; 0].

(** The frames [fs] sealed from nonce [x] on, and the nonce after them. *)
Inductive sealed_frames : Z -> list bytes -> list (list bytes) -> Z -> Prop :=
| frames_nil x : sealed_frames x [] [] x
| frames_cons x ps cs fs css y : sealed x ps cs -> sealed_frames (x + zlen cs) fs css y ->
    sealed_frames x (bconcat ps :: fs) (cs :: css) y.

(** What is left of a stream when a read ends inside a segment. *)
Definition incomplete (s : bytes) : Prop := zlen s < 2 \/ zlen s < 2 + getUint16 s 0.

Definition keyed (x : Z) : CipherState := {| cs_k := Some key; cs_n := x |}.

Lemma sealed_length x ps cs : sealed x ps cs -> length ps = length cs.
Proof. induction 1; cbn; congruence. Qed.

Lemma segs_cons c cs : segs_bytes (c :: cs) = seg_bytes c ++ segs_bytes cs.
Proof. unfold segs_bytes. cbn [fmap list_fmap]. by rewrite bconcat_cons. Qed.

Lemma seg_zlen c : zlen (seg_bytes c) = 2 + zlen c.
Proof. unfold seg_bytes. by rewrite zlen_app, le_bytes_zlen. Qed.

Lemma getUint16_at pre c rest : 0 <= zlen c <= NOISE_MAX_SEGMENT ->
  getUint16 (pre ++ seg_bytes c ++ rest) (zlen pre) = zlen c.
Proof.
  intros Hc. unfold getUint16, seg_bytes. rewrite <- app_assoc.
  rewrite (slice_app_mid pre (le_bytes 2 (zlen c))) by (rewrite ?le_bytes_zlen; lia).
  rewrite le_val_bytes, Z.mod_small; [done|]. unfold NOISE_MAX_SEGMENT in Hc. lia.
Qed.

Lemma getUint16_pre pre s : getUint16 (pre ++ s) (zlen pre) = getUint16 s 0.
Proof.
  unfold getUint16. f_equal. pose proof (zlen_nonneg pre).
  pose proof (slice_drop (zlen pre) 0 2 (pre ++ s) ltac:(lia) ltac:(lia)) as E. rewrite Z.add_0_r in E.
  by rewrite E, drop_app_zlen.
Qed.

(** One round of the decoding loop: on a segment, on the end of a frame, and on what
    does not hold a whole segment. *)
Lemma dec_segment fuel pre nb c p rest cur out x tx : nonceBytes x = Ok nb -> aead_decrypt key nb [] c = Ok p ->
  0 < zlen c <= NOISE_MAX_SEGMENT ->
  dec_loop (S fuel) (pre ++ seg_bytes c ++ rest) (zlen pre) cur out {| t_send := tx; t_recv := keyed x |} =
  dec_loop fuel ((pre ++ seg_bytes c) ++ rest) (zlen (pre ++ seg_bytes c)) (cur ++ [p]) out
    {| t_send := tx; t_recv := keyed (x + 1) |}.
Proof.
  intros En Ed Hc. cbn [dec_loop]. rewrite getUint16_at by lia. rewrite !zlen_app, seg_zlen.
  pose proof (zlen_nonneg rest). rewrite (proj2 (Z.leb_le _ _)), Z.gtb_ltb, (proj2 (Z.ltb_ge _ _)), (proj2 (Z.eqb_neq _ _)) by lia.
  assert (slice (zlen pre + 2) (zlen pre + 2 + zlen c) (pre ++ seg_bytes c ++ rest) = c) as ->.
  { unfold seg_bytes. rewrite <- (app_assoc _ c rest), app_assoc. apply slice_app_mid; rewrite zlen_app, le_bytes_zlen; lia. }
  unfold on_recv, decryptWithAd. eff_simpl. cbn [t_recv keyed cs_k cs_n]. rewrite En. cbn [mbind res_bind].
  rewrite Ed. cbn [mbind res_bind fst snd]. rewrite <- app_assoc. f_equal; lia.
Qed.

Lemma dec_end fuel pre rest cur out t :
  dec_loop (S fuel) (pre ++ [0; 0] ++ rest) (zlen pre) cur out t =
  dec_loop fuel ((pre ++ [0; 0]) ++ rest) (zlen (pre ++ [0; 0])) [] (out ++ [bconcat cur]) t.
Proof.
  change [0; 0] with (seg_bytes []). cbn [dec_loop]. rewrite getUint16_at by (unfold NOISE_MAX_SEGMENT; done).
  rewrite !zlen_app, seg_zlen. change (zlen []) with 0. pose proof (zlen_nonneg rest).
  rewrite (proj2 (Z.leb_le _ _)), Z.gtb_ltb, (proj2 (Z.ltb_ge _ _)) by lia. cbn [Z.eqb].
  unfold noise_concat. rewrite concatBytes_ok. eff_simpl. rewrite <- app_assoc. f_equal; lia.
Qed.

Lemma dec_incomplete fuel pre s cur out t : incomplete s -> dec_loop fuel (pre ++ s) (zlen pre) cur out t = (Ok out, t).
Proof.
  intros Hs. destruct fuel as [|fuel]; [done|]. cbn [dec_loop]. rewrite zlen_app.
  rewrite getUint16_pre.
  destruct (Z.leb_spec (zlen pre + 2) (zlen pre + zlen s)); [|done]. destruct Hs as [Hs|Hs]; [lia|].
  by rewrite Z.gtb_ltb, (proj2 (Z.ltb_lt _ _)) by lia.
Qed.

(** The rounds that whole frames take. *)
Fixpoint rounds (css : list (list bytes)) : nat :=
  match css with [] => O | cs :: css => S (length cs) + rounds css end.
Definition wires (css : list (list bytes)) : bytes := bconcat (frame_wire <$> css).

Lemma wires_cons cs css : wires (cs :: css) = segs_bytes cs ++ [0; 0] ++ wires css.
Proof. unfold wires. cbn [fmap list_fmap]. rewrite bconcat_cons. unfold frame_wire. by rewrite <- app_assoc. Qed.

Lemma dec_segments x ps cs : sealed x ps cs -> forall fuel pre rest cur out tx,
  dec_loop (length cs + fuel) (pre ++ segs_bytes cs ++ rest) (zlen pre) cur out {| t_send := tx; t_recv := keyed x |} =
  dec_loop fuel ((pre ++ segs_bytes cs) ++ rest) (zlen (pre ++ segs_bytes cs)) (cur ++ ps) out
    {| t_send := tx; t_recv := keyed (x + zlen cs) |}.
Proof.
  induction 1 as [x|x nb p c ps cs En Ed Hc Hs IH]; intros fuel pre rest cur out tx.
  - cbn [length Nat.add]. change (segs_bytes []) with (@nil Z). change (zlen []) with 0.
    by rewrite !app_nil_r, Z.add_0_r.
  - cbn [length Nat.add]. rewrite segs_cons, <- app_assoc, (dec_segment _ _ nb c p) by done. rewrite IH.
    rewrite <- !app_assoc, zlen_cons. cbn [app]. by rewrite Z.add_assoc.
Qed.

Lemma dec_frames x fs css y : sealed_frames x fs css y -> forall fuel pre rest out tx,
  dec_loop (rounds css + fuel) (pre ++ wires css ++ rest) (zlen pre) [] out {| t_send := tx; t_recv := keyed x |} =
  dec_loop fuel ((pre ++ wires css) ++ rest) (zlen (pre ++ wires css)) [] (out ++ fs) {| t_send := tx; t_recv := keyed y |}.
Proof.
  induction 1 as [x|x ps cs fs css y Hs Hf IH]; intros fuel pre rest out tx.
  - cbn [rounds Nat.add]. change (wires []) with (@nil Z). by rewrite !app_nil_r.
  - replace (rounds (cs :: css) + fuel)%nat with (length cs + S (rounds css + fuel))%nat by (cbn [rounds]; lia).
    rewrite wires_cons, <- !app_assoc, (dec_segments _ _ _ Hs), dec_end, IH. by rewrite <- !app_assoc.
Qed.

Lemma pending_segments cf st comp cs : Forall (fun c => 0 < zlen c <= NOISE_MAX_SEGMENT) cs -> forall fuel pre rest,
  pending_loop (length cs + fuel) (pre ++ segs_bytes cs ++ rest) cf (zlen pre) st comp =
  pending_loop fuel ((pre ++ segs_bytes cs) ++ rest) cf (zlen (pre ++ segs_bytes cs)) st comp.
Proof.
  induction 1 as [|c cs Hc Hs IH]; intros fuel pre rest.
  - cbn [length Nat.add]. change (segs_bytes []) with (@nil Z). by rewrite !app_nil_r.
  - cbn [length Nat.add pending_loop]. rewrite segs_cons, <- app_assoc, getUint16_at by lia.
    pose proof (zlen_nonneg rest). pose proof (zlen_nonneg (segs_bytes cs)).
    rewrite !(zlen_app pre), !(zlen_app (seg_bytes c)), (zlen_app (segs_bytes cs)), seg_zlen.
    rewrite (proj2 (Z.leb_le _ _)), Z.gtb_ltb, (proj2 (Z.ltb_ge _ _)), (proj2 (Z.eqb_neq _ _)) by lia.
    rewrite <- seg_zlen, <- zlen_app, (app_assoc pre (seg_bytes c)), IH. by rewrite <- !app_assoc, !zlen_app.
Qed.

Lemma pending_end fuel cf st comp pre rest :
  pending_loop (S fuel) (pre ++ [0; 0] ++ rest) cf (zlen pre) st comp =
  if comp + 1 =? cf then zlen (pre ++ [0; 0])
  else pending_loop fuel ((pre ++ [0; 0]) ++ rest) cf (zlen (pre ++ [0; 0])) (zlen (pre ++ [0; 0])) (comp + 1).
Proof.
  cbn [pending_loop]. change [0; 0] with (seg_bytes []). rewrite getUint16_at by (unfold NOISE_MAX_SEGMENT; done).
  rewrite !zlen_app, seg_zlen. change (zlen []) with 0. pose proof (zlen_nonneg rest).
  rewrite (proj2 (Z.leb_le _ _)), Z.gtb_ltb, (proj2 (Z.ltb_ge _ _)) by lia. cbn [Z.eqb]. by rewrite <- app_assoc.
Qed.

Lemma pending_incomplete fuel cf st comp pre s : incomplete s -> pending_loop fuel (pre ++ s) cf (zlen pre) st comp = st.
Proof.
  intros Hs. destruct fuel as [|fuel]; [done|]. cbn [pending_loop]. rewrite zlen_app.
  rewrite getUint16_pre.
  destruct (Z.leb_spec (zlen pre + 2) (zlen pre + zlen s)); [|done]. destruct Hs as [Hs|Hs]; [lia|].
  by rewrite Z.gtb_ltb, (proj2 (Z.ltb_lt _ _)) by lia.
Qed.

Lemma pending_frames css : css <> [] -> Forall (Forall (fun c => 0 < zlen c <= NOISE_MAX_SEGMENT)) css ->
  forall fuel pre rest st comp cf, comp + zlen css = cf ->
  pending_loop (rounds css + fuel) (pre ++ wires css ++ rest) cf (zlen pre) st comp = zlen (pre ++ wires css).
Proof.
  intros Hne Hall. induction Hall as [|cs css Hs Hall IH]; [done|]. intros fuel pre rest st comp cf Hcf.
  replace (rounds (cs :: css) + fuel)%nat with (length cs + S (rounds css + fuel))%nat by (cbn [rounds]; lia).
  rewrite zlen_cons in Hcf. rewrite wires_cons, <- !app_assoc, pending_segments, pending_end by done.
  destruct css as [|cs' css].
  - change (zlen []) with 0 in Hcf. rewrite (proj2 (Z.eqb_eq _ _)) by lia. change (wires []) with (@nil Z).
    by rewrite app_nil_r, <- app_assoc.
  - rewrite zlen_cons in Hcf. pose proof (zlen_nonneg css). rewrite (proj2 (Z.eqb_neq _ _)) by lia.
    rewrite IH by (done || rewrite zlen_cons; lia). by rewrite <- !app_assoc.
Qed.

Lemma sealed_bounds x ps cs : sealed x ps cs -> Forall (fun c => 0 < zlen c <= NOISE_MAX_SEGMENT) cs.
Proof. induction 1; by constructor. Qed.
Lemma frames_bounds x fs css y : sealed_frames x fs css y ->
  Forall (Forall (fun c => 0 < zlen c <= NOISE_MAX_SEGMENT)) css /\ zlen fs = zlen css.
Proof.
  induction 1 as [|x ps cs fs css y Hs _ [IH1 IH2]]; [done|]. rewrite !zlen_cons, IH2.
  split; [|done]. constructor; [by eapply sealed_bounds|done].
Qed.

Lemma segs_rounds cs : (length cs <= length (segs_bytes cs))%nat.
Proof.
  induction cs as [|c cs IH]; [done|]. rewrite segs_cons, length_app. pose proof (seg_zlen c) as E.
  unfold zlen in E. cbn [length]. lia.
Qed.
Lemma wires_rounds css : (rounds css <= length (wires css))%nat.
Proof.
  induction css as [|cs css IH]; [done|]. rewrite wires_cons, !length_app. cbn [rounds length].
  pose proof (segs_rounds cs). lia.
Qed.

(** The decoder on whole frames, then some whole segments of the next frame, then part
    of a segment: the frames are returned, and only they are consumed; the receiving
    nonce has also been advanced over the segments that are kept. *)
Lemma decryptFrames_spec x fs css y ps cs tl tx : sealed_frames x fs css y -> sealed y ps cs -> incomplete tl ->
  decryptFrames (wires css ++ segs_bytes cs ++ tl) {| t_send := tx; t_recv := keyed x |} =
  (Ok (fs, zlen (wires css)), {| t_send := tx; t_recv := keyed (y + zlen cs) |}).
Proof.
  intros Hf Hs Ht. unfold decryptFrames, pendingFrameStart.
  assert (exists fuel, length (wires css ++ segs_bytes cs ++ tl) = rounds css + (length cs + fuel))%nat as [fuel ->].
  { rewrite !length_app. pose proof (wires_rounds css). pose proof (segs_rounds cs).
    exists (length (wires css) + (length (segs_bytes cs) + length tl) - rounds css - length cs)%nat. lia. }
  pose proof (dec_frames _ _ _ _ Hf (length cs + fuel) [] (segs_bytes cs ++ tl) [] tx) as E.
  cbn [app] in E. change (zlen []) with 0 in E.
  eff_simpl. rewrite E, (dec_segments _ _ _ Hs), dec_incomplete by done. destruct (frames_bounds _ _ _ _ Hf) as [Hb Hl].
  cbn [app]. destruct css as [|cs' css].
  - rewrite Hl. cbn [rounds Nat.add]. change (wires []) with (@nil Z). cbn [app]. change (zlen (@nil (list bytes))) with 0.
    pose proof (pending_segments 0 0 0 cs (sealed_bounds _ _ _ Hs) fuel [] tl) as E2.
    cbn [app] in E2. change (zlen []) with 0 in E2.
    rewrite E2, pending_incomplete by done. done.
  - pose proof (pending_frames (cs' :: css) ltac:(done) Hb (length cs + fuel) [] (segs_bytes cs ++ tl) 0 0 (zlen fs)) as E2.
    cbn [app] in E2. change (zlen []) with 0 in E2. rewrite E2 by (by rewrite Hl). done.
Qed.

(** The encoder seals a plaintext segment by segment. *)
Lemma enc_segments fuel p : forall off segments x rx, 0 <= off <= zlen p -> 0 <= x -> x + (zlen p - off) <= MAX_NONCE ->
  zlen p - off <= Z.of_nat fuel -> exists ps cs, bconcat ps = drop (Z.to_nat off) p /\ sealed x ps cs /\
    zlen cs <= zlen p - off /\
    enc_loop fuel p off segments {| t_send := keyed x; t_recv := rx |} =
      (Ok (segments ++ mjoin ((fun c => [le_bytes 2 (zlen c); c]) <$> cs)), {| t_send := keyed (x + zlen cs); t_recv := rx |}).
Proof.
  induction fuel as [|fuel IH]; intros off segments x rx Ho Hx Hn Hf; cbn [enc_loop].
  { exists [], []. rewrite drop_ge by (unfold zlen in *; lia). change (zlen []) with 0. rewrite Z.add_0_r, app_nil_r.
    split; [done|]. split; [constructor|]. split; [lia|done]. }
  destruct (Z.ltb_spec off (zlen p)) as [Hlt|]; last first.
  { exists [], []. rewrite drop_ge by (unfold zlen in *; lia). change (zlen []) with 0. rewrite Z.add_0_r, app_nil_r.
    split; [done|]. split; [constructor|]. split; [lia|done]. }
  set (end_ := Z.min (off + NOISE_MAX_PLAINTEXT) (zlen p)). unfold NOISE_MAX_PLAINTEXT, NOISE_MAX_SEGMENT, TAG_LEN in end_.
  destruct (nonceBytes_ok x) as (nb & En & Hnb); [lia|].
  destruct (aead_law key nb [] (slice off end_ p) Hkey Hnb) as (c & E1 & Hc & E2).
  assert (zlen (slice off end_ p) = end_ - off) as Hsl by (apply slice_length; lia).
  destruct (IH end_ (segments ++ [le_bytes 2 (zlen c); c]) (x + 1) rx) as (ps & cs & Hps & Hs & Hl & E3); [lia..|].
  exists (slice off end_ p :: ps), (c :: cs). rewrite bconcat_cons, Hps. split.
  { unfold slice. rewrite <- (take_drop (Z.to_nat (end_ - off)) (drop (Z.to_nat off) p)) at 2. f_equal.
    rewrite drop_drop. f_equal. lia. }
  split; [econstructor; [exact En|exact E2|unfold NOISE_MAX_SEGMENT; lia|exact Hs]|].
  rewrite zlen_cons. split; [lia|]. unfold on_send, encryptWithAd. eff_simpl. cbn [t_send keyed cs_k cs_n].
  rewrite En. cbn [mbind res_bind]. rewrite E1. cbn [mbind res_bind fst snd].
  change {| cs_k := Some key; cs_n := x + 1 |} with (keyed (x + 1)). cbn [t_recv]. rewrite E3. cbn [fmap list_fmap mjoin].
  rewrite <- app_assoc. by replace (x + 1 + zlen cs) with (x + (1 + zlen cs)) by lia.
Qed.

Lemma segs_flat cs : bconcat (mjoin ((fun c => [le_bytes 2 (zlen c); c]) <$> cs)) = segs_bytes cs.
Proof.
  induction cs as [|c cs IH]; [done|]. rewrite segs_cons, <- IH. cbn [fmap list_fmap mjoin].
  cbn [list_join app]. rewrite !bconcat_cons. unfold seg_bytes. by rewrite <- app_assoc.
Qed.

Lemma bconcat_app (l m : list bytes) : bconcat (l ++ m) = bconcat l ++ bconcat m.
Proof. unfold bconcat. apply join_app. Qed.

Lemma encryptFrame_ok p x rx : 0 <= x -> x + zlen p <= MAX_NONCE -> exists ps cs, bconcat ps = p /\ sealed x ps cs /\
  zlen cs <= zlen p /\
  encryptFrame p {| t_send := keyed x; t_recv := rx |} = (Ok (frame_wire cs), {| t_send := keyed (x + zlen cs); t_recv := rx |}).
Proof.
  intros Hx Hn. pose proof (zlen_nonneg p).
  destruct (enc_segments (length p) p 0 [] x rx) as (ps & cs & Hps & Hs & Hl & E); [lia..|unfold zlen; lia|].
  exists ps, cs. split; [done|]. split; [done|]. split; [lia|]. unfold encryptFrame. eff_simpl. rewrite E. cbn [app].
  unfold noise_concat. rewrite concatBytes_ok, bconcat_app, segs_flat. done.
Qed.

(** A whole frame of the peer is decrypted to it, and the two sides stay in step. *)
Lemma decrypt_one x p peer w peer' t : 0 <= x -> x + zlen p <= MAX_NONCE -> t_send peer = keyed x -> t_recv t = keyed x ->
  encryptFrame p peer = (Ok w, peer') ->
  decryptFrames w t = (Ok ([p], zlen w), {| t_send := t_send t; t_recv := t_send peer' |}) /\
  exists y, t_send peer' = keyed y /\ x <= y <= x + zlen p.
Proof.
  intros Hx Hn Ep Et Ee. destruct peer as [ps pr], t as [ts tr]. cbn in Ep, Et. subst ps tr.
  destruct (encryptFrame_ok p x pr Hx Hn) as (pts & cs & Hp & Hs & Hl & E). rewrite Ee in E. injection E as -> ->.
  assert (sealed_frames x [p] [cs] (x + zlen cs)) as Hf by (rewrite <- Hp; econstructor; [exact Hs|constructor]).
  pose proof (decryptFrames_spec x [p] [cs] _ [] [] [] ts Hf (sealed_nil _) ltac:(by left)) as Hd.
  change (segs_bytes []) with (@nil Z) in Hd. rewrite !app_nil_r in Hd. unfold wires in Hd. cbn [fmap list_fmap] in Hd.
  rewrite bconcat_cons in Hd. change (bconcat []) with (@nil Z) in Hd. rewrite app_nil_r, Z.add_0_r in Hd.
  split; [exact Hd|]. exists (x + zlen cs). pose proof (zlen_nonneg cs). split; [done|lia].
Qed.

Lemma send_frames_ok fs : forall x rx, 0 <= x -> x + zlen (bconcat fs) <= MAX_NONCE -> exists css y,
  sealed_frames x fs css y /\ x <= y /\
  send_frames fs {| t_send := keyed x; t_recv := rx |} = (Ok (frame_wire <$> css), {| t_send := keyed y; t_recv := rx |}).
Proof.
  induction fs as [|f fs IH]; intros x rx Hx Hn.
  - exists [], x. split; [constructor|]. done.
  - rewrite bconcat_cons, zlen_app in Hn. pose proof (zlen_nonneg (bconcat fs)).
    destruct (encryptFrame_ok f x rx) as (ps & cs & Hps & Hs & Hl & E); [lia..|]. pose proof (zlen_nonneg cs).
    destruct (IH (x + zlen cs) rx) as (css & y & Hf & Hy & E2); [lia..|].
    exists (cs :: css), y. rewrite <- Hps. split; [by econstructor|]. split; [lia|].
    cbn [send_frames]. eff_simpl. rewrite Hps, E, E2. done.
Qed.

Lemma sealed_frames_app x fs css y css1 css2 : sealed_frames x fs css y -> css = css1 ++ css2 ->
  exists fs1 fs2 z, fs = fs1 ++ fs2 /\ sealed_frames x fs1 css1 z /\ sealed_frames z fs2 css2 y.
Proof.
  intros Hf. revert css1. induction Hf as [x|x ps cs fs css y Hs Hf IH]; intros css1 E.
  - symmetry in E. apply app_nil in E as [-> ->]. exists [], [], x. repeat split; constructor.
  - destruct css1 as [|cs1 css1]; cbn in E.
    + exists [], (bconcat ps :: fs), x. subst css2. split; [done|]. split; [constructor|by constructor].
    + injection E as <- E. destruct (IH css1 E) as (fs1 & fs2 & z & -> & H1 & H2).
      exists (bconcat ps :: fs1), fs2, z. split; [done|]. split; [by constructor|done].
Qed.

Lemma wires_app css1 css2 : wires (css1 ++ css2) = wires css1 ++ wires css2.
Proof. unfold wires. by rewrite fmap_app, bconcat_app. Qed.

(** A whole segment in front is not incomplete. *)
Lemma complete_segment c s : zlen c <= NOISE_MAX_SEGMENT -> ~ incomplete (seg_bytes c ++ s).
Proof.
  intros Hc. unfold incomplete. pose proof (zlen_nonneg c). pose proof (zlen_nonneg s).
  pose proof (getUint16_at [] c s ltac:(lia)) as E. cbn [app] in E. change (zlen []) with 0 in E. rewrite E, zlen_app, seg_zlen. lia.
Qed.
Lemma complete_wires css s : css <> [] -> Forall (Forall (fun c => 0 < zlen c <= NOISE_MAX_SEGMENT)) css ->
  ~ incomplete (wires css ++ s).
Proof.
  intros Hne Hall. destruct Hall as [|cs css' Hcs _]; [done|]. rewrite wires_cons, <- !app_assoc.
  destruct Hcs as [|c cs' Hc _]; [by apply (complete_segment [])|]. rewrite segs_cons, <- app_assoc. apply complete_segment. lia.
Qed.

(** A read may end here: after whole frames and part of one segment. *)
Definition clean_cut (ws : list bytes) (p : bytes) : Prop :=
  exists j tl, p = bconcat (take j ws) ++ tl /\ incomplete tl.

Lemma deliver chunks : forall x fs css y tl tx, sealed_frames x fs css y -> incomplete tl -> tl ++ bconcat chunks = wires css ->
  (forall i, exists css1 css2 t, css = css1 ++ css2 /\ tl ++ bconcat (take i chunks) = wires css1 ++ t /\ incomplete t) ->
  receive_chunks chunks ({| t_send := tx; t_recv := keyed x |}, tl) = (Ok fs, ({| t_send := tx; t_recv := keyed y |}, [])).
Proof.
  induction chunks as [|c chunks IH]; intros x fs css y tl tx Hf Ht E Hcut; cbn [receive_chunks].
  - change (bconcat []) with (@nil Z) in E. rewrite app_nil_r in E. subst tl. destruct Hf as [|x ps cs fs css y Hs Hf]; [done|].
    exfalso. rewrite <- (app_nil_r (wires _)) in Ht. revert Ht. apply complete_wires; [done|].
    eapply frames_bounds. by econstructor.
  - destruct (Hcut 1%nat) as (css1 & css2 & t & Ec & Et & Hti). cbn [take] in Et.
    change (take 0 chunks) with (@nil bytes) in Et. rewrite bconcat_cons in Et. change (bconcat []) with (@nil Z) in Et.
    rewrite app_nil_r in Et. destruct (sealed_frames_app _ _ _ _ css1 css2 Hf Ec) as (fs1 & fs2 & z & -> & H1 & H2).
    pose proof (decryptFrames_spec _ _ _ _ [] [] t tx H1 (sealed_nil _) Hti) as Hd. change (segs_bytes []) with (@nil Z) in Hd.
    change (zlen []) with 0 in Hd. rewrite Z.add_0_r in Hd. cbn [app] in Hd.
    unfold receiveCipher. eff_simpl. rewrite Et, Hd, drop_app_zlen by done. rewrite bconcat_cons, app_assoc, Et in E.
    subst css. rewrite wires_app, <- app_assoc in E. apply app_inv_head in E.
    rewrite (IH z fs2 css2 y t tx); [done..|]. intros i. destruct (Hcut (S i)) as (a & b & t' & Ea & Et' & Hi').
    cbn [take] in Et'. rewrite bconcat_cons, app_assoc, Et in Et'.
    apply app_eq_inv in Ea as [(d & E1 & E2)|(d & E1 & E2)].
    + destruct (decide (d = [])) as [->|Hd0].
      { rewrite app_nil_r in E1. cbn in E2. subst a b. exists [], css2, t'. split; [done|]. rewrite <- app_assoc in Et'.
        apply app_inv_head in Et'. by rewrite Et'. }
      exfalso. subst css1. rewrite wires_app, <- !app_assoc in Et'. apply app_inv_head in Et'.
      rewrite <- Et' in Hi'. revert Hi'. apply complete_wires; [done|].
      destruct (frames_bounds _ _ _ _ H1) as [[_ Hb]%Forall_app _]. done.
    + exists d, b, t'. subst a. split; [done|]. rewrite wires_app, <- !app_assoc in Et'. apply app_inv_head in Et'. done.
Qed.

Lemma clean_split ws css p : ws = frame_wire <$> css -> clean_cut ws p ->
  exists css1 css2 t, css = css1 ++ css2 /\ p = wires css1 ++ t /\ incomplete t.
Proof.
  intros -> (j & tl & -> & Hi). exists (take j css), (drop j css), tl. split; [by rewrite take_drop|].
  split; [|done]. unfold wires. by rewrite fmap_take.
Qed.

Lemma getUint16_take a b : 2 <= zlen a -> getUint16 (a ++ b) 0 = getUint16 a 0.
Proof.
  intros Ha. unfold getUint16. by rewrite !slice_0, take_app_le by (unfold zlen in Ha; lia).
Qed.

Lemma sealed_app x ps cs1 cs2 : sealed x ps (cs1 ++ cs2) -> exists ps1, sealed x ps1 cs1.
Proof.
  revert x ps. induction cs1 as [|c cs1 IH]; intros x ps Hs; [exists []; constructor|]. cbn in Hs.
  inversion Hs as [|? nb p ? ps' ? En Ed Hc Hs' E]; subst. destruct (IH _ _ Hs') as [ps1 H1]. exists (p :: ps1). by econstructor.
Qed.

(** What is left of a frame cut short: whole segments, then part of one. *)
Lemma cut_frame cs : Forall (fun c => 0 < zlen c <= NOISE_MAX_SEGMENT) cs -> forall c1 c2, frame_wire cs = c1 ++ c2 -> c2 <> [] ->
  exists cs1 cs2 tl, cs = cs1 ++ cs2 /\ c1 = segs_bytes cs1 ++ tl /\ incomplete tl.
Proof.
  unfold frame_wire. induction 1 as [|c cs Hc Hcs IH]; intros c1 c2 E Hne.
  - exists [], [], c1. split; [done|]. split; [done|]. left. apply (f_equal zlen) in E. rewrite !zlen_app in E.
    change (zlen (segs_bytes [])) with 0 in E. change (zlen [0; 0]) with 2 in E. destruct c2; [done|]. rewrite zlen_cons in E.
    pose proof (zlen_nonneg c2). lia.
  - rewrite segs_cons, <- app_assoc in E. apply app_eq_inv in E as [(d & E1 & E2)|(d & E1 & E2)].
    + destruct (decide (d = [])) as [->|Hd].
      * rewrite app_nil_r in E1. exists [c], cs, []. split; [done|]. split; [|by left].
        rewrite segs_cons, E1. change (segs_bytes []) with (@nil Z). by rewrite !app_nil_r.
      * exists [], (c :: cs), c1. split; [done|]. split; [done|]. pose proof (getUint16_at [] c [] ltac:(lia)) as G.
        rewrite E1 in G. cbn [app] in G. rewrite app_nil_r in G. apply (f_equal zlen) in E1. rewrite seg_zlen, zlen_app in E1.
        assert (0 < zlen d) by (destruct d; [done|]; rewrite zlen_cons; pose proof (zlen_nonneg d); lia).
        destruct (Z.lt_ge_cases (zlen c1) 2) as [|H2]; [by left|]. right. rewrite <- (getUint16_take c1 d H2). change (zlen []) with 0 in G. lia.
    + destruct (IH d c2 E2 Hne) as (cs1 & cs2 & tl & -> & -> & Hi). exists (c :: cs1), cs2, tl.
      split; [done|]. split; [|done]. by rewrite E1, segs_cons, <- app_assoc.
Qed.

Lemma dec_reject fuel c rest cur out t e : 0 < zlen c <= NOISE_MAX_SEGMENT -> decryptWithAd [] c (t_recv t) = Throw e ->
  dec_loop (S fuel) (seg_bytes c ++ rest) 0 cur out t = (Throw e, t).
Proof.
  intros Hc Hd. cbn [dec_loop]. pose proof (getUint16_at [] c rest ltac:(lia)) as G. cbn [app] in G. change (zlen []) with 0 in G.
  rewrite G, zlen_app, seg_zlen. pose proof (zlen_nonneg rest).
  rewrite (proj2 (Z.leb_le _ _)), Z.gtb_ltb, (proj2 (Z.ltb_ge _ _)), (proj2 (Z.eqb_neq _ _)) by lia.
  assert (slice (0 + 2) (0 + 2 + zlen c) (seg_bytes c ++ rest) = c) as ->.
  { unfold seg_bytes. rewrite <- (app_assoc _ c rest). apply slice_app_mid; rewrite le_bytes_zlen; lia. }
  unfold on_recv. eff_simpl. by rewrite Hd.
Qed.
End Transport.

Section TransportTheorems.
Context `{NoiseCryptoOk}.

(** C16: the transport delivers.  Two sides that share a key and a nonce: the sender
    encrypts any list of frames, of any length, and for every way in which the bytes are
    cut into reads such that no read ends inside a frame after a complete segment, the
    receiver returns exactly those frames in order, keeps nothing, and its receiving
    cipher is then the sender's sending cipher. *)
Theorem transport_delivers key x fs s r :
  zlen key = 32 -> 0 <= x -> x + zlen (bconcat fs) <= MAX_NONCE -> t_send s = keyed key x -> t_recv r = keyed key x ->
  exists ws s', send_frames fs s = (Ok ws, s') /\
    forall chunks, bconcat chunks = bconcat ws -> (forall i, clean_cut ws (bconcat (take i chunks))) ->
    exists r', receive_chunks chunks (r, []) = (Ok fs, (r', [])) /\ t_recv r' = t_send s' /\ t_send r' = t_send r.
Proof.
  intros Hk Hx Hn Es Er. destruct s as [ss sr], r as [rs rr]. cbn in Es, Er. subst ss rr.
  destruct (send_frames_ok key Hk fs x sr Hx Hn) as (css & y & Hf & _ & E). do 2 eexists. split; [exact E|].
  intros chunks Hc Hcut. exists {| t_send := rs; t_recv := keyed key y |}. split; [|done]. apply (deliver key chunks x fs css y []); [done|by left|exact Hc|].
  intros i. destruct (clean_split _ _ _ eq_refl (Hcut i)) as (a & b & t & ? & ? & ?). by exists a, b, t.
Qed.

(** A frame that is read in two pieces breaks the connection when the first piece
    holds a complete segment.  The first read decrypts that segment and advances the
    receiving nonce, but returns no frame and keeps the bytes; the second read decrypts
    the same segment again under a later nonce, which the cipher rejects, and the
    connection is dropped.  The transport is documented to rewind and re-read an
    unfinished frame, for frames of more than one segment in particular. *)
Theorem transport_cut key x f s w s' r c1 c2 :
  zlen key = 32 -> 0 <= x -> x + zlen f <= MAX_NONCE -> t_send s = keyed key x -> t_recv r = keyed key x ->
  encryptFrame f s = (Ok w, s') -> w = c1 ++ c2 -> c2 <> [] -> f <> [] -> 2 + getUint16 w 0 <= zlen c1 ->
  (forall m nb, 0 < m -> nonceBytes (x + m) = Ok nb ->
     exists e, aead_decrypt key nb [] (slice 2 (2 + getUint16 w 0) w) = Throw e) ->
  exists r1 e, receiveCipher c1 (r, []) = (Ok [], (r1, c1)) /\ (receiveCipher c2 (r1, c1)).1 = Throw e.
Proof.
  intros Hk Hx Hn Es Er Ew -> Hc2 Hf Hseg Hrej. destruct s as [ss sr], r as [rs rr]. cbn in Es, Er. subst ss rr.
  destruct (encryptFrame_ok key Hk f x sr Hx Hn) as (ps & cs & Hps & Hs & _ & E). rewrite Ew in E. injection E as E _.
  destruct Hs as [x|x nb p c ps cs En Ed Hc Hs]; [by rewrite <- Hps in Hf|].
  pose proof (getUint16_at [] c (segs_bytes cs ++ [0; 0]) ltac:(lia)) as G. cbn [app] in G. change (zlen []) with 0 in G.
  assert (c1 ++ c2 = seg_bytes c ++ segs_bytes cs ++ [0; 0]) as E' by (rewrite E; unfold frame_wire; by rewrite segs_cons, <- app_assoc).
  rewrite <- E' in G. rewrite G in Hseg, Hrej.
  assert (Forall (fun c => 0 < zlen c <= NOISE_MAX_SEGMENT) (c :: cs)) as Hb by (constructor; [done|by eapply sealed_bounds]).
  destruct (cut_frame _ Hb c1 c2 (eq_sym E) Hc2) as (cs1 & cs2 & tl & Ecs & Ec1 & Hi).
  destruct cs1 as [|c' cs1]; cbn [app] in Ecs.
  { exfalso. change (segs_bytes []) with (@nil Z) in Ec1. cbn [app] in Ec1. subst c1. pose proof (zlen_nonneg c).
    destruct Hi as [Hi|Hi]; [lia|]. rewrite getUint16_take in G; lia. }
  injection Ecs as <- ->.
  destruct (sealed_app key x (p :: ps) (c :: cs1) cs2) as [ps1 H1]; [cbn; by econstructor|].
  pose proof (decryptFrames_spec key x [] [] x ps1 (c :: cs1) tl rs (frames_nil _ _) H1 Hi) as Ed1.
  change (wires []) with (@nil Z) in Ed1. cbn [app] in Ed1. change (zlen []) with 0 in Ed1. rewrite <- Ec1 in Ed1.
  assert (exists e, decryptWithAd [] c (keyed key (x + zlen (c :: cs1))) = Throw e) as [e He].
  { unfold decryptWithAd. cbn [keyed cs_k cs_n]. destruct (nonceBytes (x + zlen (c :: cs1))) as [nb'|e] eqn:Enb; [|by exists e].
    cbn [mbind res_bind]. destruct (Hrej (zlen (c :: cs1)) nb') as [e He]; [rewrite zlen_cons; pose proof (zlen_nonneg cs1); lia|done|].
    rewrite E' in He. unfold seg_bytes in He. rewrite <- app_assoc in He.
    rewrite slice_app_mid in He by (rewrite ?le_bytes_zlen; lia). exists e. by rewrite He. }
  exists {| t_send := rs; t_recv := keyed key (x + zlen (c :: cs1)) |}, e. unfold receiveCipher. cbn [app]. rewrite Ed1.
  split; [done|]. unfold decryptFrames. eff_simpl. rewrite E'.
  assert (length (seg_bytes c ++ segs_bytes (cs1 ++ cs2) ++ [0; 0]) =
    S (pred (length (seg_bytes c ++ segs_bytes (cs1 ++ cs2) ++ [0; 0])))) as -> by (rewrite !length_app; cbn [length]; lia).
  by rewrite (dec_reject _ _ _ _ _ _ e).
Qed.
End TransportTheorems.

(** ** Examples

    A toy suite that satisfies the laws: the tag is made of the nonce and the key. *)
Definition example_tag (key nonce : bytes) : bytes := take 16 (nonce ++ key).
#[local] Instance example_crypto : NoiseCrypto := {
  blake2s := example_digest;
  hmac_blake2s k d := example_digest (k ++ d);
  x25519_getPublicKey a := a;
  x25519_getSharedSecret a b := Ok (zip_with (fun x y => (x + y) mod 256) a b);
  aead_encrypt key nonce ad p := Ok (p ++ example_tag key nonce);
  aead_decrypt key nonce ad c :=
    if bool_decide (drop (length c - 16) c = example_tag key nonce) then Ok (take (length c - 16) c)
    else Throw "invalid tag"
}.

Lemma example_crypto_ok : NoiseCryptoOk.
Proof.
  split.
  - intros k d. exact (@sha256_zlen _ example_digest_ok (k ++ d)).
  - done.
  - intros a b _ _. cbn. f_equal. revert b. induction a as [|x a IH]; intros [|y b]; [done..|]. cbn. by rewrite IH, Z.add_comm.
  - intros key nb ad p Hk Hn. eexists. split; [done|]. unfold zlen in *.
    assert (length (example_tag key nb) = 16%nat) as Ht by (unfold example_tag; rewrite length_take, length_app; lia).
    cbn [aead_decrypt example_crypto]. rewrite length_app, Ht. split; [lia|].
    replace (length p + 16 - 16)%nat with (length p) by lia. rewrite drop_app_length, take_app_length.
    by rewrite bool_decide_true.
Qed.

Definition example_key : KeyPair := {| priv := replicate 32 5; pub := replicate 32 5 |}.

Lemma noise_handshake_witness : exists a b, handshake example_key (replicate 32 1) (replicate 32 2) [7; 8; 9] = Ok (a, b) /\
  sendCipher a = recvCipher b /\ responderPayload a = Some [7; 8; 9].
Proof.
  pose proof example_crypto_ok as Hok.
  destruct (noise_handshake example_key (replicate 32 1) (replicate 32 2) [7; 8; 9] (replicate 32 3) (replicate 32 6))
    as (a & b & E & H1 & _ & _ & _ & _ & _ & H2); [done..|]. exists a, b. split; [exact E|]. split; [exact H1|exact H2].
Defined.

Definition example_side (x : Z) : NoiseTransport :=
  {| t_send := keyed (replicate 32 5) x; t_recv := keyed (replicate 32 5) x |}.

(** Two frames read as a part of the first, the rest of it with the second's first byte,
    and the rest. *)
Lemma transport_delivers_witness : exists ws s', send_frames [[1; 2; 3]; [4]] (example_side 0) = (Ok ws, s') /\
  exists r', receive_chunks [slice 0 5 (bconcat ws); slice 5 24 (bconcat ws); drop 24 (bconcat ws)] (example_side 0, []) =
    (Ok [[1; 2; 3]; [4]], (r', [])).
Proof.
  pose proof example_crypto_ok as Hok.
  destruct (transport_delivers (replicate 32 5) 0 [[1; 2; 3]; [4]] (example_side 0) (example_side 0))
    as (ws & s' & E & Hd); [done|lia|done..|].
  exists ws, s'. split; [exact E|]. vm_compute in E. injection E as <- _.
  edestruct Hd as (r' & Er & _); [| |exists r'; exact Er]; [done|].
  intros i. destruct i as [|[|[|i]]].
  - exists 0%nat, []. split; [done|]. by left.
  - exists 0%nat. eexists. split; [vm_compute; reflexivity|]. right. done.
  - exists 1%nat. eexists. split; [vm_compute; reflexivity|]. left. done.
  - exists 2%nat, []. split; [|by left]. destruct i; vm_compute; reflexivity.
Defined.

(** The frame arrives without its last byte, then the last byte. *)
Lemma transport_cut_witness : exists w s', encryptFrame [1; 2; 3] (example_side 0) = (Ok w, s') /\
  exists r1 e, receiveCipher (slice 0 22 w) (example_side 0, []) = (Ok [], (r1, slice 0 22 w)) /\
    (receiveCipher (drop 22 w) (r1, slice 0 22 w)).1 = Throw e.
Proof.
  pose proof example_crypto_ok as Hok. do 2 eexists. split; [vm_compute; reflexivity|].
  eapply (transport_cut (replicate 32 5) 0 [1; 2; 3] (example_side 0)); [done|lia|done|done|done|vm_compute; reflexivity|done|done|done|done|].
  intros m nb Hm E. cbn [aead_decrypt example_crypto]. unfold nonceBytes in E.
  destruct (_ >? _) eqn:Eg; [done|].
  assert (nb = zeros 4 ++ le_bytes 8 (0 + m)) as -> by (cbn [throw_if mbind res_bind] in E; congruence). eexists. rewrite bool_decide_false; [done|].
  clear E. intros E. apply (f_equal (fun l => le_val (slice 4 12 l))) in E.
  change (slice 4 12 (example_tag (replicate 32 5) (zeros 4 ++ le_bytes 8 (0 + m)))) with (le_bytes 8 (0 + m)) in E.
  rewrite le_val_bytes, Z.mod_small in E; [vm_compute in E; lia|].
  rewrite Z.gtb_ltb, Z.ltb_ge in Eg. unfold MAX_NONCE in Eg. lia.
Defined.
