(* ===== verification/Sv2Keys.v ===== *)
(** * Keys and certificates of the Stratum V2 services

    [pool/src/sv2/lib/keys.ts] and [cert.ts]: the Ed25519 authority key and the X25519
    static key, each kept in a file, and the certificate by which the authority vouches
    for the static key.  The files of the machine are the state, and their reads and
    writes succeed; Ed25519 is the class [Ed25519] with the law that a signature
    verifies. *)

From S2P Require Import Prelude JsString JsMap Header Effects Sv2Types Sv2Messages Noise.

Class Ed25519 := {
  ed25519_getPublicKey : bytes -> bytes;
  ed25519_sign : bytes -> bytes -> bytes;
  (** [ed25519.verify(sig, msg, pub)]; it throws on a malformed key or signature. *)
  ed25519_verify : bytes -> bytes -> bytes -> res bool
}.
Class Ed25519Ok `{Ed25519} : Prop := {
  ed_public_sized p : zlen p = 32 -> sized 32 (ed25519_getPublicKey p);
  ed_sign_sized m p : zlen p = 32 -> sized 64 (ed25519_sign m p);
  ed_verify_sign m p : zlen p = 32 -> ed25519_verify (ed25519_sign m p) m (ed25519_getPublicKey p) = Ok true
}.

Definition files : Type := list (jsstr * bytes).
Definition existsSync (path : jsstr) (f : files) : bool := map_has path f.
Definition readFileSync (path : jsstr) : eff files bytes := f ← get;
  match map_get path f with Some b => mret b | None => throw "ENOENT" end.
Definition writeFileSync (path : jsstr) (b : bytes) : eff files unit := modify (map_set path b).

(** ** Key files: [priv (32) || pub (32)] *)
Definition writeKeyFile (path : jsstr) (k : KeyPair) : eff files unit :=
  _ ← lift (throw_if (negb (zlen (priv k) =? 32) || negb (zlen (pub k) =? 32)) "key must be 32+32 bytes");
  buf ← lift (ta_set (zeros 64) (priv k) 0);
  buf ← lift (ta_set buf (pub k) 32);
  writeFileSync path buf.

Definition readKeyFile (path : jsstr) : eff files KeyPair :=
  buf ← readFileSync path;
  _ ← lift (throw_if (negb (zlen buf =? 64)) "expected 64 bytes");
  mret {| priv := slice 0 32 buf; pub := slice 32 64 buf |}.

Definition SV2_CERT_VERSION : Z := 0.
Definition SV2_CERT_LEN : Z := 2 + 4 + 4 + 32 + 64.
Definition SV2_CERT_DEFAULT_VALIDITY_S : Z := 90 * 24 * 60 * 60.

Record Sv2Certificate := {
  cert_version : Z;
  validFrom : Z;
  notValidAfter : Z;
  cert_publicKey : bytes;
  cert_signature : bytes
}.

Definition signatureMessage (version validFrom notValidAfter : Z) (pub : bytes) : res bytes :=
  written (w_u16 version ▷ w_u32 validFrom ▷ w_u32 notValidAfter ▷ w_pubkey pub).

Definition encodeCertificate (c : Sv2Certificate) : res bytes :=
  written (w_u16 (cert_version c) ▷ w_u32 (validFrom c) ▷ w_u32 (notValidAfter c) ▷ w_pubkey (cert_publicKey c) ▷
           w_signature (cert_signature c)).

Definition readCertificate : reader Sv2Certificate :=
  let_rd version := r_u16 in let_rd validFrom := r_u32 in let_rd notValidAfter := r_u32 in
  let_rd publicKey := r_pubkey in let_rd signature := r_signature in
  rd_ret {| cert_version := version; validFrom := validFrom; notValidAfter := notValidAfter;
            cert_publicKey := publicKey; cert_signature := signature |}.
Definition decodeCertificate (buf : bytes) : res Sv2Certificate :=
  _ ← throw_if (zlen buf <? SV2_CERT_LEN) "SV2 cert too short";
  r ← readCertificate buf;
  Ok (fst r).

Inductive CertVerifyResult := CertOk | CertBad (reason : string).

Section Keys.
Context `{NoiseCrypto} `{Ed25519}.

(** [random] is the private key drawn when a new pair is made. *)
Definition generateAuthorityKey (random : bytes) : KeyPair := {| priv := random; pub := ed25519_getPublicKey random |}.
Definition generateStaticKey (random : bytes) : KeyPair := {| priv := random; pub := x25519_getPublicKey random |}.

Definition loadOrCreateAuthorityKey (path : jsstr) (random : bytes) : eff files KeyPair :=
  f ← get;
  if existsSync path f then
    k ← readKeyFile path;
    let pub' := ed25519_getPublicKey (priv k) in
    _ ← lift (throw_if (negb (bool_decide (pub' = pub k))) "priv/pub mismatch");
    mret {| priv := priv k; pub := pub' |}
  else
    let k := generateAuthorityKey random in
    _ ← writeKeyFile path k;
    mret k.
Definition loadOrCreateStaticKey (path : jsstr) (random : bytes) : eff files KeyPair :=
  f ← get;
  if existsSync path f then
    k ← readKeyFile path;
    let pub' := x25519_getPublicKey (priv k) in
    _ ← lift (throw_if (negb (bool_decide (pub' = pub k))) "priv/pub mismatch");
    mret {| priv := priv k; pub := pub' |}
  else
    let k := generateStaticKey random in
    _ ← writeKeyFile path k;
    mret k.

Definition ed25519Sign (priv msg : bytes) : bytes := ed25519_sign msg priv.
Definition ed25519Verify (pub msg sig : bytes) : bool :=
  match ed25519_verify sig msg pub with Ok b => b | Throw _ => false end.

(** ** Certificates *)
Definition signCertificate (authority : KeyPair) (staticPub : bytes) (validFrom notValidAfter : Z) : res Sv2Certificate :=
  msg ← signatureMessage SV2_CERT_VERSION validFrom notValidAfter staticPub;
  let sig := ed25519Sign (priv authority) msg in
  Ok {| cert_version := SV2_CERT_VERSION; validFrom := validFrom; notValidAfter := notValidAfter;
        cert_publicKey := staticPub; cert_signature := sig |}.

Definition verifyCertificate (cert : Sv2Certificate) (authorityPub : bytes) (nowSeconds : Z) : res CertVerifyResult :=
  if negb (cert_version cert =? SV2_CERT_VERSION) then Ok (CertBad "unknown cert version")
  else if nowSeconds <? validFrom cert then Ok (CertBad "cert not yet valid")
  else if notValidAfter cert <=? nowSeconds then Ok (CertBad "cert expired")
  else
    msg ← signatureMessage (cert_version cert) (validFrom cert) (notValidAfter cert) (cert_publicKey cert);
    if negb (ed25519Verify authorityPub msg (cert_signature cert)) then Ok (CertBad "bad signature")
    else Ok CertOk.

Definition cert_ok (r : CertVerifyResult) : bool := match r with CertOk => true | CertBad _ => false end.

(** The stored certificate, when it is still fresh, of the same key, and verified. *)
Definition reusable (cert : Sv2Certificate) (authority : KeyPair) (staticPub : bytes) (nowSeconds : Z) : res bool :=
  let sevenDays := 7 * 24 * 60 * 60 in
  let stillFresh := notValidAfter cert >? nowSeconds + sevenDays in
  let samePub := bool_decide (cert_publicKey cert = staticPub) in
  v ← verifyCertificate cert (pub authority) nowSeconds;
  let verified := cert_ok v in
  Ok (stillFresh && samePub && verified).

Definition issueCertificate (path : jsstr) (authority : KeyPair) (staticPub : bytes) (validitySeconds nowSeconds : Z)
    : eff files Sv2Certificate :=
  cert ← lift (signCertificate authority staticPub nowSeconds (nowSeconds + validitySeconds));
  b ← lift (encodeCertificate cert);
  _ ← writeFileSync path b;
  mret cert.

Definition loadOrIssueCertificate (path : jsstr) (authority : KeyPair) (staticPub : bytes) (validitySeconds nowSeconds : Z)
    : eff files Sv2Certificate :=
  f ← get;
  if existsSync path f then
    buf ← readFileSync path;
    cert ← lift (decodeCertificate buf);
    ok ← lift (reusable cert authority staticPub nowSeconds);
    if (ok : bool) then mret cert else issueCertificate path authority staticPub validitySeconds nowSeconds
  else issueCertificate path authority staticPub validitySeconds nowSeconds.
End Keys.

(** ** Proofs *)
Section KeyProofs.
Context `{NoiseCryptoOk} `{Ed25519Ok}.

(** A certificate whose fields have their widths. *)
Definition cert_fields (c : Sv2Certificate) : Prop :=
  uint 16 (cert_version c) /\ uint 32 (validFrom c) /\ uint 32 (notValidAfter c) /\
  sized 32 (cert_publicKey c) /\ sized 64 (cert_signature c).

Lemma certificate_roundtrip c : cert_fields c -> exists b, encodeCertificate c = Ok b /\ decodeCertificate b = Ok c.
Proof.
  destruct c as [v f a p s]. unfold cert_fields. cbn [cert_version validFrom notValidAfter cert_publicKey cert_signature]. intros (Hv & Hf & Ha & Hp & Hs).
  assert (encodeCertificate {| cert_version := v; validFrom := f; notValidAfter := a; cert_publicKey := p; cert_signature := s |} =
    Ok (le_bytes 2 v ++ le_bytes 4 f ++ le_bytes 4 a ++ p ++ s)) as E.
  { apply written_ok. cbn [cert_version validFrom notValidAfter cert_publicKey cert_signature].
    unfold w_u16, w_u32, w_pubkey, w_u256, w_signature. rewrite land_65535, !to_u32_id, (proj2 Hp), (proj2 Hs) by done.
    cbn [Z.eqb Pos.eqb negb]. repeat apply writes_chain; apply writes_push. }
  rewrite E. eexists. split; [done|].
  assert (codec 106 (w_u16 v ▷ w_u32 f ▷ w_u32 a ▷ w_u256 p ▷ w_signature s) readCertificate
    {| cert_version := v; validFrom := f; notValidAfter := a; cert_publicKey := p; cert_signature := s |}) as (b & Hw & _ & _ & Hr).
  { eapply codec_weaken; [unfold readCertificate; change r_pubkey with r_u256; repeat codec_step|lia]. }
  pose proof (written_ok _ _ Hw) as E'. unfold encodeCertificate in E.
  cbn [cert_version validFrom notValidAfter cert_publicKey cert_signature] in E. change w_pubkey with w_u256 in E.
  rewrite E in E'. assert (le_bytes 2 v ++ le_bytes 4 f ++ le_bytes 4 a ++ p ++ s = b) as <- by congruence. specialize (Hr []). rewrite app_nil_r in Hr.
  unfold decodeCertificate, SV2_CERT_LEN. rewrite !zlen_app, !le_bytes_zlen, (proj2 Hp), (proj2 Hs).
  cbn [Z.ltb throw_if mbind res_bind]. by rewrite Hr.
Qed.

Lemma r_bytesRaw_split n s : 0 <= n <= zlen s -> exists a s', r_bytesRaw n s = Ok (a, s') /\ zlen a = n /\ zlen s' = zlen s - n.
Proof.
  intros Hn. rewrite r_bytesRaw_ok by done. do 2 eexists. split; [done|]. split; [rewrite slice_length; lia|by apply zlen_drop].
Qed.

(** Any file of the length of a certificate is read as one. *)
Lemma decode_total b : SV2_CERT_LEN <= zlen b -> exists c, decodeCertificate b = Ok c /\ zlen (cert_publicKey c) = 32.
Proof.
  intros Hb. unfold decodeCertificate. rewrite (proj2 (Z.ltb_ge _ _)) by done. cbn [throw_if mbind res_bind].
  unfold SV2_CERT_LEN in Hb. unfold readCertificate, r_u16, r_u32, r_pubkey, r_signature, rd_bind, rd_ret.
  destruct (r_bytesRaw_split 2 b) as (a1 & s1 & -> & _ & L1); [lia|].
  destruct (r_bytesRaw_split 4 s1) as (a2 & s2 & -> & _ & L2); [lia|].
  destruct (r_bytesRaw_split 4 s2) as (a3 & s3 & -> & _ & L3); [lia|].
  destruct (r_bytesRaw_split 32 s3) as (a4 & s4 & -> & L4' & L4); [lia|].
  destruct (r_bytesRaw_split 64 s4) as (a5 & s5 & -> & _ & _); [lia|].
  cbn [mbind res_bind]. eexists. split; [done|]. done.
Qed.

Lemma signatureMessage_ok v f a p : zlen p = 32 -> exists m, signatureMessage v f a p = Ok m.
Proof.
  intros Hp. eexists. apply written_ok. unfold w_u16, w_u32, w_pubkey, w_u256. rewrite Hp. cbn [Z.eqb Pos.eqb negb].
  repeat apply writes_chain; apply writes_push.
Qed.

(** A fresh certificate verifies from its first second to its last. *)
Lemma sign_verifies authority p f a now : zlen (priv authority) = 32 -> pub authority = ed25519_getPublicKey (priv authority) ->
  sized 32 p -> uint 32 f -> uint 32 a -> f <= now < a -> exists c, signCertificate authority p f a = Ok c /\
    cert_fields c /\ cert_publicKey c = p /\ notValidAfter c = a /\ validFrom c = f /\
    verifyCertificate c (pub authority) now = Ok CertOk.
Proof.
  intros Hpriv Hpub Hp Hf Ha Hnow. destruct (signatureMessage_ok SV2_CERT_VERSION f a p (proj2 Hp)) as (m & Em).
  unfold signCertificate. rewrite Em. cbn [mbind res_bind]. eexists. split; [done|].
  unfold ed25519Sign. split; [split; [done|]; split; [done|]; split; [done|]; split; [done|by apply ed_sign_sized]|].
  split; [done|]. split; [done|]. split; [done|]. unfold verifyCertificate. cbn [cert_version validFrom notValidAfter cert_publicKey cert_signature].
  rewrite Z.eqb_refl. cbn [negb]. rewrite (proj2 (Z.ltb_ge _ _)), (proj2 (Z.leb_gt _ _)) by lia. rewrite Em. cbn [mbind res_bind].
  unfold ed25519Verify. by rewrite Hpub, ed_verify_sign.
Qed.

Lemma verify_total c p now : zlen (cert_publicKey c) = 32 -> exists r, verifyCertificate c p now = Ok r.
Proof.
  intros Hc. unfold verifyCertificate. destruct (negb _); [eauto|]. destruct (_ <? _); [eauto|]. destruct (_ <=? _); [eauto|].
  destruct (signatureMessage_ok (cert_version c) (validFrom c) (notValidAfter c) _ Hc) as [m ->]. cbn [mbind res_bind].
  destruct (negb _); eauto.
Qed.

(** The certificate a pool starts with is valid.  Whatever certificate file is there,
    of at least the length of a certificate, or none, the pool starts with a certificate
    for its own static key that verifies under its authority key at that time; it stays
    valid for more than seven days or for the whole validity period, and the file then
    holds that certificate. *)
Theorem certificate_valid path authority staticPub validity now f :
  zlen (priv authority) = 32 -> pub authority = ed25519_getPublicKey (priv authority) -> sized 32 staticPub ->
  0 < validity -> 0 <= now -> now + validity < 2 ^ 32 ->
  (forall b, map_get path f = Some b -> SV2_CERT_LEN <= zlen b) ->
  exists c f', loadOrIssueCertificate path authority staticPub validity now f = (Ok c, f') /\
    cert_publicKey c = staticPub /\ verifyCertificate c (pub authority) now = Ok CertOk /\
    (now + 7 * 24 * 60 * 60 < notValidAfter c \/ notValidAfter c = now + validity) /\
    exists b, map_get path f' = Some b /\ decodeCertificate b = Ok c.
Proof.
  intros Hpriv Hpub Hs Hv Hn Hw Hf.
  assert (exists c f', issueCertificate path authority staticPub validity now f = (Ok c, f') /\
    cert_publicKey c = staticPub /\ verifyCertificate c (pub authority) now = Ok CertOk /\
    (now + 7 * 24 * 60 * 60 < notValidAfter c \/ notValidAfter c = now + validity) /\
    exists b, map_get path f' = Some b /\ decodeCertificate b = Ok c) as Hissue.
  { destruct (sign_verifies authority staticPub now (now + validity) now) as (c & E & Hc & Hp & Ha & _ & Hver);
      [done|done|done|split; lia|split; lia|lia|].
    destruct (certificate_roundtrip c Hc) as (b & Eb & Ed). exists c, (map_set path b f).
    unfold issueCertificate, writeFileSync. eff_simpl. rewrite E, Eb. split; [done|]. split; [done|]. split; [done|].
    split; [by right|]. exists b. by rewrite map_set_get. }
  unfold loadOrIssueCertificate, existsSync, map_has, readFileSync. eff_simpl.
  destruct (map_get path f) as [b|] eqn:Eg; [|exact Hissue]. rewrite bool_decide_true by eauto.
  destruct (decode_total b (Hf b eq_refl)) as (c & Ed & Hc). destruct (verify_total c (pub authority) now Hc) as [r Er].
  rewrite Eg. cbv beta iota. rewrite Ed. unfold reusable. rewrite Er. cbn [mbind res_bind].
  destruct ((notValidAfter c >? now + 7 * 24 * 60 * 60) && bool_decide (cert_publicKey c = staticPub) && cert_ok r) eqn:E;
    [|exact Hissue].
  apply andb_prop in E as [E1 E2]. apply andb_prop in E1 as [E0 E1]. apply bool_decide_eq_true in E1.
  rewrite Z.gtb_ltb in E0. apply Z.ltb_lt in E0. exists c, f. split; [done|]. split; [done|].
  split; [rewrite Er; by destruct r|]. split; [by left|]. exists b. done.
Qed.

(** A key that was created is the key that is loaded later. *)
Lemma authority_key_kept path random random' f : zlen random = 32 -> map_get path f = None ->
  exists k f', loadOrCreateAuthorityKey path random f = (Ok k, f') /\ pub k = ed25519_getPublicKey (priv k) /\
    priv k = random /\ loadOrCreateAuthorityKey path random' f' = (Ok k, f').
Proof.
  intros Hr Hf. destruct (ed_public_sized random Hr) as [_ Hp].
  exists (generateAuthorityKey random), (map_set path (random ++ ed25519_getPublicKey random) f).
  split; [|split; [done|split; [done|]]]; unfold loadOrCreateAuthorityKey, existsSync, map_has; eff_simpl.
  - rewrite Hf, bool_decide_false by (by intros [? [=]]). unfold writeKeyFile, writeFileSync. eff_simpl.
    cbn [generateAuthorityKey priv pub]. rewrite Hr, Hp. cbn [Z.eqb Pos.eqb negb orb throw_if].
    rewrite ta_set_zeros, Hr by lia.
    rewrite (ta_set_ok _ (ed25519_getPublicKey random) 32 random (zeros 32) []) by (rewrite ?app_nil_r, ?zlen_zeros; done || lia).
    by rewrite app_nil_r.
  - rewrite map_set_get, bool_decide_true by eauto. unfold readKeyFile, readFileSync. eff_simpl. rewrite map_set_get.
    cbv beta iota. rewrite zlen_app, Hr, Hp. cbn [Z.eqb Pos.eqb Z.add Pos.add negb throw_if].
    rewrite slice_app_l by done. rewrite <- (app_nil_r (ed25519_getPublicKey random)), slice_app_mid by (rewrite ?Hr, ?Hp; lia).
    change (32 + 32 =? 64) with true. cbn [negb throw_if priv pub]. by rewrite bool_decide_true.
Qed.
End KeyProofs.

(** ** Example

    A toy signature: the public key, then the bytes of the message. *)
#[local] Instance example_ed : Ed25519 := {
  ed25519_getPublicKey p := example_digest p;
  ed25519_sign m p := example_digest p ++ example_digest m;
  ed25519_verify s m p := Ok (bool_decide (s = p ++ example_digest m))
}.
Lemma example_ed_ok : Ed25519Ok.
Proof.
  assert (forall b, sized 32 (example_digest b)) as Hd.
  { intros b. split; [apply (@sha256_bytes _ example_digest_ok)|apply (@sha256_zlen _ example_digest_ok)]. }
  split.
  - intros p _. apply Hd.
  - intros m p _. split; [apply bytes_ok_app; split; apply Hd|]. cbn [ed25519_sign example_ed]. by rewrite zlen_app, !(proj2 (Hd _)).
  - intros m p _. cbn. by rewrite bool_decide_true.
Qed.

Lemma certificate_valid_witness : exists c f,
  loadOrIssueCertificate (js "cert") {| priv := replicate 32 5; pub := example_digest (replicate 32 5) |} (replicate 32 9)
    7776000 1700000000 [] = (Ok c, f) /\ notValidAfter c = 1707776000.
Proof.
  destruct (@certificate_valid _ example_ed_ok (js "cert") {| priv := replicate 32 5; pub := example_digest (replicate 32 5) |}
    (replicate 32 9) 7776000 1700000000 []) as (c & f' & E & _);
    [done|done|split; [apply Forall_replicate; unfold is_byte; lia|done]|done|done|done|done|].
  exists c, f'. split; [exact E|]. vm_compute in E. by injection E as <- _.
Defined.
