(* ===== verification/B3Pow.v ===== *)
(** * B3PoW-Scratch ([pool/src/lib/b3pow-scratch.ts])

    The pool's port of the proof-of-work function, with the JavaScript number and
    [bigint] arithmetic written out, next to the node's consensus implementation
    ([src/src/crypto/b3pow_scratch.cpp], Module [Cpp]).  BLAKE3 itself is a
    parameter: the pool takes it from a package, the node from a vendored C library.
    The theorems: the port computes the hash the node computes, on every header and
    parent, without ever leaving the bounds of the scratchpad. *)

From S2P Require Import Prelude JsString Header Difficulty.

(** [blake3 data n]: the first [n] bytes of the BLAKE3 output stream. *)
Class Blake3 := blake3 : bytes -> Z -> bytes.
Class Blake3Ok `{Blake3} := {
  blake3_zlen : forall d n, 0 <= n -> zlen (blake3 d n) = n;
  blake3_bytes : forall d n, bytes_ok (blake3 d n)
}.

(** ** Constants *)
Definition SPEC_VERSION : Z := 0x00010101.
Definition SCRATCH_BYTES : Z := 1048576.
Definition LANES : Z := 8.
Definition LANE_BYTES : Z := SCRATCH_BYTES / LANES.
Definition BLOCK_BYTES : Z := 64.
Definition LANE_BLOCKS : Z := LANE_BYTES / BLOCK_BYTES.
Definition ITERATIONS : Z := 2048.
Definition INNER_ROUNDS : Z := 2.
Definition SCRATCH_BLOCKS : Z := SCRATCH_BYTES / BLOCK_BYTES.

Definition BLAKE3_IV : list Z :=
  [0x6a09e667; 0xbb67ae85; 0x3c6ef372; 0xa54ff53a; 0x510e527f; 0x9b05688c; 0x1f83d9ab; 0x5be0cd19].
Definition BLAKE3_PERM : list nat := [2; 6; 3; 10; 7; 0; 4; 13; 1; 11; 12; 5; 9; 14; 15; 8]%nat.
Definition ITER_MUL : list Z :=
  [0xA0761D6478BD642F; 0xE7037ED1A0B428DB; 0x8EBC6AF09C88C6E3; 0x589965CC75374CC3;
   0x1D8E4E27C47D124F; 0xEB44ACCAB455D165; 0xC863B19A77C75D70; 0x6E5C6F88AA5BDA77].
Definition LANE_SHUFFLE : list nat := [1; 6; 3; 0; 5; 2; 7; 4]%nat.
Definition MASK64 : Z := 0xffffffffffffffff.

(** [a[i]] of an array of numbers or of buffers, in range. *)
Definition num_at (l : list Z) (i : nat) : Z := default 0 (l !! i).
Notation "a .[ i ]" := (num_at a i) (at level 1, i at level 200, format "a .[ i ]").
Definition buf_at (l : list bytes) (i : nat) : bytes := default [] (l !! i).

(** ** Low-level helpers *)
Definition rotr32 (x n : Z) : Z :=
  let v := js_ushr x 0 in js_ushr (js_or (js_ushr v n) (js_shl v (32 - n))) 0.
Definition rotr64 (x n : Z) : Z :=
  Z.land (Z.lor (Z.shiftr x n) (Z.shiftl x (64 - n))) MASK64.
Definition add32 (a b c : Z) : Z := js_ushr (js_ushr (a + b) 0 + c) 0.

Definition readLEWord (buf : bytes) (off : Z) : Z :=
  js_ushr (js_or (js_or (js_or (at0 buf off) (js_shl (at0 buf (off + 1)) 8))
                        (js_shl (at0 buf (off + 2)) 16))
                 (js_shl (at0 buf (off + 3)) 24)) 0.
Definition readLEUint64 (buf : bytes) (off : Z) : Z :=
  let lo := readLEWord buf off in
  let hi := readLEWord buf (off + 4) in
  Z.lor lo (Z.shiftl hi 32).

Definition word_bytes (w : Z) : bytes :=
  let w := js_ushr w 0 in
  [js_and w 0xff; js_and (js_ushr w 8) 0xff; js_and (js_ushr w 16) 0xff; js_and (js_ushr w 24) 0xff].
Definition writeLEWords (words : list Z) : bytes := bconcat (map word_bytes words).

Definition leWords (buf : bytes) : res (list Z) :=
  _ ← throw_if (negb (zlen buf mod 4 =? 0)) "buffer length must be a multiple of 4";
  Ok (map (fun i => readLEWord buf (Z.of_nat i * 4)) (seq 0 (Z.to_nat (zlen buf / 4)))).

(** ** The BLAKE3 round *)
Definition g (s : list Z) (a b c d : nat) (mx my : Z) : list Z :=
  let s := <[a := add32 (s.[a]) (s.[b]) mx]> s in
  let s := <[d := rotr32 (js_ushr (js_xor (s.[d]) (s.[a])) 0) 16]> s in
  let s := <[c := add32 (s.[c]) (s.[d]) 0]> s in
  let s := <[b := rotr32 (js_ushr (js_xor (s.[b]) (s.[c])) 0) 12]> s in
  let s := <[a := add32 (s.[a]) (s.[b]) my]> s in
  let s := <[d := rotr32 (js_ushr (js_xor (s.[d]) (s.[a])) 0) 8]> s in
  let s := <[c := add32 (s.[c]) (s.[d]) 0]> s in
  <[b := rotr32 (js_ushr (js_xor (s.[b]) (s.[c])) 0) 7]> s.

Definition roundFn (state m : list Z) : list Z :=
  let state := g state 0 4 8 12 (m.[0%nat]) (m.[1%nat]) in
  let state := g state 1 5 9 13 (m.[2%nat]) (m.[3%nat]) in
  let state := g state 2 6 10 14 (m.[4%nat]) (m.[5%nat]) in
  let state := g state 3 7 11 15 (m.[6%nat]) (m.[7%nat]) in
  let state := g state 0 5 10 15 (m.[8%nat]) (m.[9%nat]) in
  let state := g state 1 6 11 12 (m.[10%nat]) (m.[11%nat]) in
  let state := g state 2 7 8 13 (m.[12%nat]) (m.[13%nat]) in
  g state 3 4 9 14 (m.[14%nat]) (m.[15%nat]).

Definition permuteMsg (m : list Z) : list Z := map (fun i => m.[i]) BLAKE3_PERM.

Fixpoint rounds (n : nat) (state m : list Z) : list Z * list Z :=
  match n with
  | O => (state, m)
  | S n => rounds n (roundFn state m) (permuteMsg m)
  end.

(** Returns [newCv] and [permutedMsg]. *)
Definition blake3ShortCompress (cv block : list Z) (innerRounds : Z) : list Z * list Z :=
  let state := [cv.[0%nat]; cv.[1%nat]; cv.[2%nat]; cv.[3%nat]; cv.[4%nat]; cv.[5%nat]; cv.[6%nat]; cv.[7%nat];
                BLAKE3_IV.[0%nat]; BLAKE3_IV.[1%nat]; BLAKE3_IV.[2%nat]; BLAKE3_IV.[3%nat];
                0; 0; BLOCK_BYTES; 0] in
  let '(state, m) := rounds (Z.to_nat innerRounds) state block in
  (map (fun i => js_ushr (js_xor (state.[i]) (state.[(i + 8)%nat])) 0) (seq 0 8), m).


(** ** BLAKE3 wrappers *)
Section B3Pow.
Context `{Blake3}.

Definition blake3Hash (data : bytes) : bytes := blake3 data 32.
Definition blake3Xof (data : bytes) (outLen : Z) : bytes := blake3 data outLen.

(** [buf.set(seed, 0)] and the four index bytes after it. *)
Definition seed_buf (seed : bytes) (i : Z) : bytes :=
  seed ++ [js_and i 0xff; js_and (js_ushr i 8) 0xff; js_and (js_ushr i 16) 0xff; js_and (js_ushr i 24) 0xff].

(** ** The scratchpad *)
Definition initScratchpad (prevBlockHashLE : bytes) : res bytes :=
  _ ← throw_if (negb (zlen prevBlockHashLE =? 32)) "prevBlockHashLE must be 32 bytes";
  res_foldl (fun pad i => ta_set pad (blake3Xof (seed_buf prevBlockHashLE (Z.of_nat i)) BLOCK_BYTES)
                                 (Z.of_nat i * BLOCK_BYTES))
    (zeros SCRATCH_BYTES) (seq 0 (Z.to_nat SCRATCH_BLOCKS)).

Definition initLanes (seed : bytes) : res (list bytes) :=
  _ ← throw_if (negb (zlen seed =? 32)) "seed must be 32 bytes";
  Ok (map (fun L => blake3Hash (seed_buf seed (Z.of_nat L))) (seq 0 (Z.to_nat LANES))).

Definition deriveAddresses (lanes : list bytes) (iterIdx : Z) : list Z :=
  let mask := LANE_BLOCKS - 1 in
  let itr := js_ushr iterIdx 0 in
  map (fun L =>
         let lo := readLEUint64 (buf_at lanes L) 0 in
         let hi := readLEUint64 (buf_at lanes L) 8 in
         let mul := Z.land (Z.lxor hi itr * ITER_MUL.[L]) MASK64 in
         let mixed := Z.lxor lo (rotr64 mul 23) in
         Z.land mixed mask) (seq 0 (Z.to_nat LANES)).

Definition block_base (L : nat) (addr : Z) : Z := Z.of_nat L * LANE_BYTES + addr * BLOCK_BYTES.

(** The views, copied by the caller before the pad is written. *)
Definition readScratchpadBlocks (pad : bytes) (addrs : list Z) : list bytes :=
  map (fun L => slice (block_base L (addrs.[L])) (block_base L (addrs.[L]) + BLOCK_BYTES) pad)
    (seq 0 (Z.to_nat LANES)).

Definition writeScratchpadBlocks (pad : bytes) (addrs : list Z) (newBlocks : list bytes) : res bytes :=
  res_foldl (fun pad L => ta_set pad (buf_at newBlocks L) (block_base L (addrs.[L]))) pad
    (seq 0 (Z.to_nat LANES)).

Definition mix_lane (lane block : bytes) : res (bytes * bytes) :=
  cv ← leWords lane;
  msg ← leWords block;
  let '(newCv, permutedMsg) := blake3ShortCompress cv msg INNER_ROUNDS in
  let permBytes := writeLEWords permutedMsg in
  Ok (writeLEWords newCv,
      map (fun i => js_xor (at0 block (Z.of_nat i)) (at0 permBytes (Z.of_nat i)))
        (seq 0 (Z.to_nat BLOCK_BYTES))).

(** Returns the shuffled [newLanes] and [newBlocks]. *)
Definition mixStep (lanes blocks : list bytes) : res (list bytes * list bytes) :=
  r ← res_map (fun L => mix_lane (buf_at lanes L) (buf_at blocks L)) (seq 0 (Z.to_nat LANES));
  let newLanes := map fst r in
  Ok (map (buf_at newLanes) LANE_SHUFFLE, map snd r).

Definition serialiseLanes (lanes : list bytes) : res bytes :=
  res_foldl (fun out L => ta_set out (buf_at lanes L) (Z.of_nat L * 32)) (zeros (LANES * 32))
    (seq 0 (Z.to_nat LANES)).

(** ** The hash *)
Record B3PowResult := { powHash : bytes; iterations : Z }.

Definition pow_round (st : list bytes * bytes) (r : Z) : res (list bytes * bytes) :=
  let '(lanes, padBuf) := st in
  let addrs := deriveAddresses lanes r in
  let blocks := readScratchpadBlocks padBuf addrs in
  r ← mixStep lanes blocks;
  padBuf ← writeScratchpadBlocks padBuf addrs (snd r);
  Ok (fst r, padBuf).

(** The result, and the contents of the pad it was given (or made) at the end. *)
Definition b3powScratch (header prevBlockHashLE : bytes) (pad : option bytes) : res (B3PowResult * bytes) :=
  _ ← throw_if (negb (zlen header =? 80)) "header must be 80 bytes";
  _ ← throw_if (negb (zlen prevBlockHashLE =? 32)) "prevBlockHashLE must be 32 bytes";
  let nonce := slice 76 80 header in
  let seed := blake3Hash header in
  padBuf ← match pad with Some p => Ok p | None => initScratchpad prevBlockHashLE end;
  _ ← throw_if (negb (zlen padBuf =? SCRATCH_BYTES)) "pad must be 1048576 bytes";
  lanes ← initLanes seed;
  st ← res_foldl (fun st r => pow_round st (Z.of_nat r)) (lanes, padBuf) (seq 0 (Z.to_nat ITERATIONS));
  let '(lanes, padBuf) := st in
  ser ← serialiseLanes lanes;
  tail ← ta_set (zeros (LANES * 32 + 4)) ser 0;
  tail ← ta_set tail nonce (LANES * 32);
  Ok ({| powHash := blake3Hash tail; iterations := ITERATIONS |}, padBuf).

Definition intLE (buf : bytes) : res Z :=
  _ ← throw_if (negb (zlen buf =? 32)) "expected 32-byte buffer";
  Ok (fold_left (fun acc i => Z.lor (Z.shiftl acc 8) (at0 buf i)) (map (fun i => 31 - Z.of_nat i) (seq 0 32)) 0).

Definition nbitsToTarget (nbits : Z) : Z :=
  let size := js_and (js_ushr nbits 24) 0xff in
  let word := js_and nbits 0x007fffff in
  if size <=? 3 then Z.shiftr word (8 * (3 - size)) else Z.shiftl word (8 * (size - 3)).

Definition checkPow (header prevBlockHashLE : bytes) (nbits : Z) (pad : option bytes) : res bool :=
  r ← b3powScratch header prevBlockHashLE pad;
  h ← intLE (powHash (fst r));
  Ok (h <=? nbitsToTarget nbits).

End B3Pow.

(** ** The node's implementation ([src/src/crypto/b3pow_scratch.cpp])

    Unsigned words wrap around; a [memcpy] outside an array, or a failed [Assert],
    is [None]. *)
Module Cpp.

Definition IV : list Z :=
  [0x6A09E667; 0xBB67AE85; 0x3C6EF372; 0xA54FF53A; 0x510E527F; 0x9B05688C; 0x1F83D9AB; 0x5BE0CD19].
Definition PERM : list nat := [2; 6; 3; 10; 7; 0; 4; 13; 1; 11; 12; 5; 9; 14; 15; 8]%nat.
Definition MUL : list Z :=
  [0xA0761D6478BD642F; 0xE7037ED1A0B428DB; 0x8EBC6AF09C88C6E3; 0x589965CC75374CC3;
   0x1D8E4E27C47D124F; 0xEB44ACCAB455D165; 0xC863B19A77C75D70; 0x6E5C6F88AA5BDA77].
Definition SHUFFLE : list nat := [1; 6; 3; 0; 5; 2; 7; 4]%nat.
Definition ADDR_MASK : Z := 2047.
Definition BUDGET_PROBE_STRIDE : Z := 256.

Definition add (a b : Z) : Z := (a + b) mod 2 ^ 32.
Definition rotr (w x n : Z) : Z := Z.lor (Z.shiftr x n) (Z.shiftl x (w - n) mod 2 ^ w).

Definition G (s : list Z) (a b c d : nat) (mx my : Z) : list Z :=
  let s := <[a := add (add (s.[a]) (s.[b])) mx]> s in
  let s := <[d := rotr 32 (Z.lxor (s.[d]) (s.[a])) 16]> s in
  let s := <[c := add (s.[c]) (s.[d])]> s in
  let s := <[b := rotr 32 (Z.lxor (s.[b]) (s.[c])) 12]> s in
  let s := <[a := add (add (s.[a]) (s.[b])) my]> s in
  let s := <[d := rotr 32 (Z.lxor (s.[d]) (s.[a])) 8]> s in
  let s := <[c := add (s.[c]) (s.[d])]> s in
  <[b := rotr 32 (Z.lxor (s.[b]) (s.[c])) 7]> s.

Definition round_fn (state m : list Z) : list Z :=
  let state := G state 0 4 8 12 (m.[0%nat]) (m.[1%nat]) in
  let state := G state 1 5 9 13 (m.[2%nat]) (m.[3%nat]) in
  let state := G state 2 6 10 14 (m.[4%nat]) (m.[5%nat]) in
  let state := G state 3 7 11 15 (m.[6%nat]) (m.[7%nat]) in
  let state := G state 0 5 10 15 (m.[8%nat]) (m.[9%nat]) in
  let state := G state 1 6 11 12 (m.[10%nat]) (m.[11%nat]) in
  let state := G state 2 7 8 13 (m.[12%nat]) (m.[13%nat]) in
  G state 3 4 9 14 (m.[14%nat]) (m.[15%nat]).

Definition permute_msg (m : list Z) : list Z := map (fun i => m.[i]) PERM.

Fixpoint inner (n : nat) (state m : list Z) : list Z * list Z :=
  match n with O => (state, m) | S n => inner n (round_fn state m) (permute_msg m) end.

(** [m] is in/out: the new chaining value and the permuted message. *)
Definition blake3_short_compress (cv_in m : list Z) : list Z * list Z :=
  let state := take 8 cv_in ++ [IV.[0%nat]; IV.[1%nat]; IV.[2%nat]; IV.[3%nat]; 0; 0; BLOCK_BYTES; 0] in
  let '(state, m) := inner 2 state m in
  (map (fun i => Z.lxor (state.[i]) (state.[(i + 8)%nat])) (seq 0 8), m).

(** [ReadLE32] of consecutive words, [WriteLE32], [ReadLE64]. *)
Definition read_u32s (p : bytes) (n : nat) : list Z :=
  map (fun i => le_val (slice (Z.of_nat i * 4) (Z.of_nat i * 4 + 4) p)) (seq 0 n).
Definition write_u32s (words : list Z) : bytes := bconcat (map (le_bytes 4) words).
Definition read_u64_le (p : bytes) (off : Z) : Z := le_val (slice off (off + 8) p).

Section Hash.
Context `{Blake3}.

Definition index_buf (seed : bytes) (i : Z) : bytes := seed ++ le_bytes 4 i.

(** [memcpy] out of, and into, the pad. *)
Definition mem_read (mem : bytes) (off n : Z) : option bytes :=
  if (0 <=? off) && (off + n <=? zlen mem) then Some (slice off (off + n) mem) else None.
Definition mem_write (mem src : bytes) (off : Z) : option bytes :=
  if (0 <=? off) && (off + zlen src <=? zlen mem)
  then Some (take (Z.to_nat off) mem ++ src ++ drop (Z.to_nat off + length src) mem) else None.

Fixpoint opt_foldl {A B} (f : B -> A -> option B) (b : B) (l : list A) : option B :=
  match l with [] => Some b | x :: l => b ← f b x; opt_foldl f b l end.

Definition InitScratchpad (prev_block_hash : bytes) : option bytes :=
  opt_foldl (fun pad i => mem_write pad (blake3 (index_buf prev_block_hash (Z.of_nat i)) BLOCK_BYTES)
                                    (Z.of_nat i * BLOCK_BYTES))
    (zeros SCRATCH_BYTES) (seq 0 (Z.to_nat SCRATCH_BLOCKS)).

Definition DeriveAddresses (lanes : list bytes) (iter_idx : Z) : list Z :=
  map (fun L =>
         let lo := read_u64_le (buf_at lanes L) 0 in
         let hi := read_u64_le (buf_at lanes L) 8 in
         let mul := (Z.lxor hi iter_idx * MUL.[L]) mod 2 ^ 64 in
         let mixed := Z.lxor lo (rotr 64 mul 23) in
         Z.land mixed ADDR_MASK) (seq 0 8).

Definition mix_one (lane block : bytes) : bytes * bytes :=
  let cv_words := read_u32s lane 8 in
  let m := read_u32s block 16 in
  let '(new_cv, m') := blake3_short_compress cv_words m in
  (write_u32s new_cv, write_u32s (zip_with Z.lxor m m')).

(** [lanes_out] and [writebacks]. *)
Definition MixOneStep (lanes blocks : list bytes) : list bytes * list bytes :=
  let r := map (fun L => mix_one (buf_at lanes L) (buf_at blocks L)) (seq 0 8) in
  (map (buf_at (map fst r)) SHUFFLE, map snd r).

Definition PadBlock (lane : nat) (addr : Z) : Z := Z.of_nat lane * LANE_BYTES + addr * BLOCK_BYTES.

Definition iteration (lanes : list bytes) (pad : bytes) (r : Z) : option (list bytes * bytes) :=
  let addrs := DeriveAddresses lanes r in
  blocks ← mapM (fun L => mem_read pad (PadBlock L (addrs.[L])) BLOCK_BYTES) (seq 0 8);
  let '(new_lanes, writebacks) := MixOneStep lanes blocks in
  pad ← opt_foldl (fun pad L => mem_write pad (buf_at writebacks L) (PadBlock L (addrs.[L]))) pad (seq 0 8);
  Some (new_lanes, pad).

(** The loop, with the clock read every 256 rounds; [clock k] is the time in
    milliseconds since the start at the [k]-th reading.  [Some None]: the budget is
    exceeded. *)
Fixpoint iterate (budget : Z) (clock : nat -> Z) (rs : list nat) (lanes : list bytes) (pad : bytes)
    : option (option (list bytes)) :=
  match rs with
  | [] => Some (Some lanes)
  | r :: rs =>
      st ← iteration lanes pad (Z.of_nat r);
      if (0 <? budget) && (Z.of_nat r mod BUDGET_PROBE_STRIDE =? BUDGET_PROBE_STRIDE - 1)
         && (clock r >? budget) then Some None
      else iterate budget clock rs (fst st) (snd st)
  end.

Definition Hash (header_bytes pad : bytes) (budget : Z) (clock : nat -> Z) : option (option bytes * bool) :=
  if negb (zlen header_bytes =? 80) then None else
  let seed := blake3 header_bytes 32 in
  let lanes := map (fun L => blake3 (index_buf seed (Z.of_nat L)) 32) (seq 0 8) in
  r ← iterate budget clock (seq 0 2048) lanes pad;
  match r with
  | None => Some (None, true)
  | Some lanes =>
      let out_bytes := blake3 (bconcat lanes ++ slice 76 80 header_bytes) 32 in
      if (0 <? budget) && (clock 2048%nat >? budget) then Some (None, true) else Some (Some out_bytes, false)
  end.
End Hash.
End Cpp.

(** ** Words: the JavaScript operations are those of unsigned 32-bit integers *)
Lemma to_u32_i32 z : to_u32 (to_i32 z) = to_u32 z.
Proof.
  unfold to_u32, to_i32. case_match; [apply Z.mod_mod; lia|].
  replace (z mod 2 ^ 32 - 2 ^ 32) with (z mod 2 ^ 32 + -1 * 2 ^ 32) by lia.
  rewrite Z.mod_add by lia. apply Z.mod_mod. lia.
Qed.

Lemma to_u32_land z : to_u32 z = Z.land z (Z.ones 32).
Proof. unfold to_u32. by rewrite Z.land_ones by lia. Qed.

Lemma ushr_0 z : js_ushr z 0 = to_u32 z.
Proof. unfold js_ushr. change (0 mod 32) with 0. apply Z.shiftr_0_r. Qed.

Lemma to_u32_or a b : to_u32 (js_or a b) = Z.lor (to_u32 a) (to_u32 b).
Proof.
  unfold js_or. rewrite to_u32_land, Z.land_lor_distr_l, <- !to_u32_land, !to_u32_i32. done.
Qed.

Lemma to_u32_xor a b : to_u32 (js_xor a b) = Z.lxor (to_u32 a) (to_u32 b).
Proof.
  unfold js_xor. rewrite <- (to_u32_i32 a), <- (to_u32_i32 b), !to_u32_land.
  apply Z.bits_inj'. intros n Hn. rewrite ?Z.land_spec, ?Z.lxor_spec, ?Z.land_spec. btauto.
Qed.

Lemma to_u32_shl a n : 0 <= n < 32 -> to_u32 (js_shl a n) = to_u32 (Z.shiftl (to_u32 a) n).
Proof.
  intros Hn. unfold js_shl. rewrite to_u32_i32, (Z.mod_small n 32) by lia.
  rewrite !Z.shiftl_mul_pow2 by lia. unfold to_u32 at 1 2.
  rewrite <- (Z.mul_mod_idemp_l (to_i32 a)) by lia. fold (to_u32 (to_i32 a)). by rewrite to_u32_i32.
Qed.

Lemma rotr32_eq x n : uint 32 x -> 0 < n < 32 -> rotr32 x n = Cpp.rotr 32 x n.
Proof.
  intros Hx Hn. unfold rotr32, Cpp.rotr. rewrite !ushr_0, (to_u32_id x) by done.
  rewrite to_u32_or, to_u32_shl by lia. unfold js_ushr at 1. rewrite (to_u32_id x), Z.mod_small by (done || lia).
  rewrite to_u32_id; [done|]. unfold uint in *. rewrite Z.shiftr_div_pow2 by lia.
  pose proof (Z.pow_pos_nonneg 2 n). split; [apply Z.div_pos; lia|]. apply Z.div_lt_upper_bound; nia.
Qed.

Lemma add32_eq a b c : add32 a b c = Cpp.add (Cpp.add a b) c.
Proof. unfold add32, Cpp.add. by rewrite !ushr_0. Qed.

Lemma add32_0 a b : add32 a b 0 = Cpp.add a b.
Proof. unfold add32, Cpp.add. rewrite !ushr_0, Z.add_0_r. apply to_u32_idemp. Qed.

Lemma xor_eq a b : uint 32 a -> uint 32 b -> js_ushr (js_xor a b) 0 = Z.lxor a b.
Proof. intros Ha Hb. by rewrite ushr_0, to_u32_xor, !to_u32_id by done. Qed.

Lemma uint_lxor a b n : 0 <= n -> uint n a -> uint n b -> uint n (Z.lxor a b).
Proof. apply lxor_range. Qed.

Lemma uint_rotr w x n : 0 < n < w -> uint w x -> uint w (Cpp.rotr w x n).
Proof.
  intros Hn Hx. unfold Cpp.rotr, uint in *.
  assert (0 <= Z.shiftr x n < 2 ^ w) as H1.
  { rewrite Z.shiftr_div_pow2 by lia. pose proof (Z.pow_pos_nonneg 2 n). split; [apply Z.div_pos; lia|].
    apply Z.div_lt_upper_bound; nia. }
  pose proof (Z.mod_pos_bound (Z.shiftl x (w - n)) (2 ^ w)) as H2. pose proof (Z.pow_pos_nonneg 2 w).
  split; [apply Z.lor_nonneg; lia|].
  destruct (Z.eq_dec (Z.lor (Z.shiftr x n) (Z.shiftl x (w - n) mod 2 ^ w)) 0) as [->|Hz]; [lia|].
  apply Z.log2_lt_pow2; [pose proof (proj2 (Z.lor_nonneg (Z.shiftr x n) (Z.shiftl x (w - n) mod 2 ^ w))); lia|].
  rewrite Z.log2_lor by lia. apply Z.max_lub_lt.
  - destruct (Z.eq_dec (Z.shiftr x n) 0) as [->|]; [cbn; lia|]. apply Z.log2_lt_pow2; lia.
  - destruct (Z.eq_dec (Z.shiftl x (w - n) mod 2 ^ w) 0) as [->|]; [cbn; lia|]. apply Z.log2_lt_pow2; lia.
Qed.

Lemma uint_add a b : uint 32 (Cpp.add a b).
Proof. apply Z.mod_pos_bound. lia. Qed.

(** ** The round *)
Abbreviation words := (Forall (uint 32)).

Lemma uint_0 w : 0 <= w -> uint w 0.
Proof. intros Hw. split; [lia|]. apply Z.pow_pos_nonneg; lia. Qed.

Lemma words_at l i : words l -> uint 32 (l.[i]).
Proof.
  intros Hl. unfold num_at. destruct (l !! i) eqn:E; cbn; [|by apply uint_0].
  by eapply Forall_lookup_1.
Qed.
Create HintDb words.
#[local] Hint Resolve words_at uint_add uint_lxor Forall_insert : words.
#[local] Hint Extern 4 (uint 32 (Cpp.rotr 32 _ _)) => apply uint_rotr; [lia|] : words.
#[local] Hint Extern 1 (0 <= 32) => lia : words.

(** Two bindings in step, the state staying a list of words. *)
Lemma let_step x y (f f' : list Z -> list Z) : x = y -> words y ->
  (forall s, words s -> f s = f' s /\ words (f' s)) -> f x = f' y /\ words (f' y).
Proof. intros -> Hy H. by apply H. Qed.

Ltac word_step :=
  rewrite ?add32_0, ?add32_eq, ?rotr32_eq, ?xor_eq
    by first [lia | rewrite ?xor_eq by auto with words; auto with words].
Ltac let_tac :=
  lazymatch goal with
  | |- (let s := ?x in @?f s) = (let s' := ?y in @?f' s') /\ _ =>
      refine (let_step x y f f' _ _ _); [by word_step|by auto with words|intros ? ?; cbv beta]
  | |- _ => split; [by word_step|by auto with words]
  end.

Lemma g_eq s a b c d mx my : words s -> g s a b c d mx my = Cpp.G s a b c d mx my /\ words (Cpp.G s a b c d mx my).
Proof. intros Hs. cbv beta delta [g Cpp.G]. repeat let_tac. Qed.

Lemma round_eq s m : words s -> roundFn s m = Cpp.round_fn s m /\ words (Cpp.round_fn s m).
Proof.
  intros Hs. cbv beta delta [roundFn Cpp.round_fn].
  repeat lazymatch goal with
  | |- (let s := ?x in @?f s) = (let s' := ?y in @?f' s') /\ _ =>
      refine (let_step x y f f' _ _ _); [by apply g_eq|by apply g_eq|intros ? ?; cbv beta]
  end. by apply g_eq.
Qed.

Lemma permute_words m : words m -> words (Cpp.permute_msg m).
Proof. intros Hm. unfold Cpp.permute_msg. apply Forall_fmap, Forall_true. intros i. by apply words_at. Qed.

Lemma rounds_eq n s m : words s -> words m ->
  rounds n s m = Cpp.inner n s m /\ words (Cpp.inner n s m).1 /\ words (Cpp.inner n s m).2.
Proof.
  revert s m. induction n as [|n IH]; intros s m Hs Hm; [done|]. cbn [rounds Cpp.inner].
  destruct (round_eq s m Hs) as [-> Hs']. change (permuteMsg m) with (Cpp.permute_msg m).
  apply IH; [done|by apply permute_words].
Qed.

Lemma compress_eq cv m : length cv = 8%nat -> words cv -> words m ->
  blake3ShortCompress cv m INNER_ROUNDS = Cpp.blake3_short_compress cv m /\
  words (Cpp.blake3_short_compress cv m).1 /\ words (Cpp.blake3_short_compress cv m).2.
Proof.
  intros Hl Hcv Hm. do 8 (destruct cv as [|? cv]; [done|]). destruct cv; [|done].
  unfold blake3ShortCompress, Cpp.blake3_short_compress.
  match goal with |- context [rounds _ ?s m] => set (st := s) end.
  change (take 8 _ ++ _) with st. change (Z.to_nat INNER_ROUNDS) with 2%nat.
  assert (words st) as Hst.
  { unfold st. repeat (apply Forall_cons in Hcv as [? Hcv]).
    repeat (constructor; [first [assumption | by vm_compute]|]). constructor. }
  destruct (rounds_eq 2 st m Hst Hm) as (-> & H1 & H2). destruct (Cpp.inner 2 st m) as [s' m'].
  cbn [fst snd] in *. split; [|split; [|done]].
  - f_equal. apply map_ext. intros i. by apply xor_eq; apply words_at.
  - apply Forall_fmap, Forall_true. intros i. apply uint_lxor; [lia| |]; by apply words_at.
Qed.

(** ** Bytes and words *)
Lemma slice_lookup {A} (l : list A) i j k : 0 <= i -> 0 <= k -> i + k < j ->
  slice i j l !! Z.to_nat k = l !! Z.to_nat (i + k).
Proof.
  intros Hi Hk Hj. unfold slice. rewrite lookup_take_lt by lia. rewrite lookup_drop. f_equal. lia.
Qed.

Lemma list_4 (l : bytes) : length l = 4%nat -> l = [at0 l 0; at0 l 1; at0 l 2; at0 l 3].
Proof. do 4 (destruct l as [|? l]; [done|]). by destruct l. Qed.

Lemma slice_4 (b : bytes) off : 0 <= off -> off + 4 <= zlen b ->
  slice off (off + 4) b = [at0 b off; at0 b (off + 1); at0 b (off + 2); at0 b (off + 3)].
Proof.
  intros Ho Hl. assert (zlen (slice off (off + 4) b) = 4) as Hn by (rewrite slice_length; lia).
  assert (forall k, 0 <= k < 4 -> at0 b (off + k) = at0 (slice off (off + 4) b) k) as Hat.
  { intros k Hk. unfold at0. by rewrite slice_lookup by lia. }
  rewrite <- (Z.add_0_r off) at 3. rewrite !Hat by lia. apply list_4. unfold zlen in Hn. lia.
Qed.

Lemma uint_byte_shl b n : is_byte b -> 0 <= n <= 24 -> to_u32 (js_shl b n) = b * 2 ^ n.
Proof.
  intros Hb Hn. rewrite to_u32_shl by lia. unfold is_byte in Hb. rewrite (to_u32_id b), Z.shiftl_mul_pow2 by lia.
  apply to_u32_id. pose proof (Z.pow_le_mono_r 2 n 24). pose proof (Z.pow_pos_nonneg 2 n). nia.
Qed.

Lemma readLEWord_eq b off : bytes_ok b -> 0 <= off -> off + 4 <= zlen b ->
  readLEWord b off = le_val (slice off (off + 4) b).
Proof.
  intros Hb Ho Hl. rewrite slice_4 by done. unfold readLEWord. rewrite ushr_0, !to_u32_or.
  rewrite !uint_byte_shl by (lia || by apply bytes_ok_at0).
  pose proof (bytes_ok_at0 b off Hb) as H0. pose proof (bytes_ok_at0 b (off + 1) Hb) as H1.
  pose proof (bytes_ok_at0 b (off + 2) Hb) as H2. pose proof (bytes_ok_at0 b (off + 3) Hb) as H3.
  unfold is_byte in *. rewrite to_u32_id by lia.
  rewrite (Z.lor_comm _ (at0 b (off + 1) * _)), lor_add_disjoint by lia.
  rewrite (Z.lor_comm _ (at0 b (off + 2) * _)), lor_add_disjoint by lia.
  rewrite (Z.lor_comm _ (at0 b (off + 3) * _)), lor_add_disjoint by lia.
  cbn [le_val]. lia.
Qed.

Lemma slice_split {A} (l : list A) i j k : 0 <= i <= j -> j <= k -> slice i k l = slice i j l ++ slice j k l.
Proof.
  intros Hi Hk. unfold slice. replace (Z.to_nat (k - i)) with (Z.to_nat (j - i) + Z.to_nat (k - j))%nat by lia.
  rewrite <- take_take_drop. f_equal. rewrite drop_drop. do 2 f_equal. lia.
Qed.

Lemma readLEUint64_eq b off : bytes_ok b -> 0 <= off -> off + 8 <= zlen b ->
  readLEUint64 b off = Cpp.read_u64_le b off.
Proof.
  intros Hb Ho Hl. unfold readLEUint64, Cpp.read_u64_le. rewrite !readLEWord_eq by (done || lia).
  rewrite (slice_split b off (off + 4) (off + 8)) by lia. rewrite le_val_app, slice_length by lia.
  replace (off + 8) with (off + 4 + 4) by lia. rewrite Z.shiftl_mul_pow2 by lia.
  rewrite Z.lor_comm, lor_add_disjoint; [|lia|].
  - replace (off + 4 - off) with 4 by lia. change (8 * 4) with 32. lia.
  - pose proof (le_val_range (slice off (off + 4) b) (bytes_ok_slice _ _ _ Hb)) as H.
    rewrite slice_length in H by lia. by replace (8 * (off + 4 - off)) with 32 in H by lia.
Qed.

Lemma js_byte w n : uint 32 w -> 0 <= n < 32 -> js_and (js_ushr w n) 0xff = w / 2 ^ n mod 256.
Proof.
  intros Hw Hn. unfold js_and, js_ushr. rewrite to_u32_id, Z.mod_small, Z.shiftr_div_pow2 by (done || lia).
  set (x := w / 2 ^ n). change (to_i32 0xff) with (Z.ones 8).
  rewrite Z.land_ones by lia. change (2 ^ 8) with 256.
  assert (256 | 2 ^ 32) as Hd by (by exists 16777216).
  rewrite <- (Z.mod_mod_divide (to_i32 x) (2 ^ 32) 256 Hd). fold (to_u32 (to_i32 x)).
  rewrite to_u32_i32. by apply Z.mod_mod_divide.
Qed.

Lemma js_bytes_eq w : uint 32 w ->
  [js_and w 0xff; js_and (js_ushr w 8) 0xff; js_and (js_ushr w 16) 0xff; js_and (js_ushr w 24) 0xff] = le_bytes 4 w.
Proof.
  intros Hw. replace (js_and w 0xff) with (js_and (js_ushr w 0) 0xff) by (by rewrite ushr_0, to_u32_id).
  rewrite !js_byte by (done || lia). cbn [le_bytes]. rewrite Z.div_1_r, !Z.div_div by lia. done.
Qed.

Lemma word_bytes_eq w : uint 32 w -> word_bytes w = le_bytes 4 w.
Proof. intros Hw. unfold word_bytes. rewrite ushr_0, to_u32_id by done. by apply js_bytes_eq. Qed.

Lemma writeLEWords_eq l : words l -> writeLEWords l = Cpp.write_u32s l.
Proof.
  intros Hl. unfold writeLEWords, Cpp.write_u32s. f_equal. apply map_ext_Forall.
  eapply Forall_impl; [exact Hl|]. apply word_bytes_eq.
Qed.

Lemma write_u32s_sized l : bytes_ok (Cpp.write_u32s l) /\ zlen (Cpp.write_u32s l) = 4 * zlen l.
Proof.
  induction l as [|w l [IH1 IH2]]; [by split; [constructor|]|]. unfold Cpp.write_u32s in *. cbn [map].
  rewrite bconcat_cons, zlen_app, le_bytes_zlen, zlen_cons, bytes_ok_app. split; [split; [apply le_bytes_ok|done]|].
  rewrite IH2. lia.
Qed.

Lemma read_u32s_words b n : bytes_ok b -> 4 * Z.of_nat n <= zlen b -> words (Cpp.read_u32s b n).
Proof.
  intros Hb Hn. apply Forall_fmap, Forall_forall. intros i Hi. apply elem_of_seq in Hi. cbn.
  pose proof (le_val_range (slice (Z.of_nat i * 4) (Z.of_nat i * 4 + 4) b) (bytes_ok_slice _ _ _ Hb)) as H.
  rewrite slice_length in H by lia. by replace (8 * (Z.of_nat i * 4 + 4 - Z.of_nat i * 4)) with 32 in H by lia.
Qed.

Lemma leWords_eq b n : bytes_ok b -> zlen b = 4 * Z.of_nat n -> leWords b = Ok (Cpp.read_u32s b n).
Proof.
  intros Hb Hn. unfold leWords, Cpp.read_u32s. rewrite Hn, Z.mul_comm, Z.mod_mul, Z.div_mul by lia.
  cbn [Z.eqb negb throw_if mbind res_bind]. f_equal. rewrite Nat2Z.id. apply map_ext_in. intros i Hi.
  apply in_seq in Hi. apply readLEWord_eq; [done|lia|lia].
Qed.

(** Writing back word by word or byte by byte is the same exclusive or. *)
Lemma le_bytes_lxor n a b : le_bytes n (Z.lxor a b) = zip_with Z.lxor (le_bytes n a) (le_bytes n b).
Proof.
  revert a b. induction n as [|n IH]; intros a b; [done|]. cbn [le_bytes zip_with].
  change 256 with (2 ^ 8). rewrite <- !Z.shiftr_div_pow2 by lia. rewrite <- IH, Z.shiftr_lxor.
  f_equal. rewrite <- !Z.land_ones by lia. apply Z.bits_inj'. intros k Hk.
  rewrite ?Z.land_spec, ?Z.lxor_spec, ?Z.land_spec. btauto.
Qed.

Lemma write_u32s_lxor l k : length l = length k ->
  Cpp.write_u32s (zip_with Z.lxor l k) = zip_with Z.lxor (Cpp.write_u32s l) (Cpp.write_u32s k).
Proof.
  intros Hl. unfold Cpp.write_u32s. revert k Hl. induction l as [|a l IH]; intros [|b k] Hl; [done..|].
  cbn [zip_with map]. rewrite !bconcat_cons, le_bytes_lxor, IH by (by injection Hl).
  rewrite zip_with_app by (by rewrite !le_bytes_length). done.
Qed.

Lemma read_write_u32s b n : bytes_ok b -> zlen b = 4 * Z.of_nat n -> Cpp.write_u32s (Cpp.read_u32s b n) = b.
Proof.
  intros Hb Hn. unfold Cpp.write_u32s, Cpp.read_u32s. rewrite map_map.
  assert (forall k i, (i + k = n)%nat -> bconcat (map (fun i => le_bytes 4 (le_val (slice (Z.of_nat i * 4) (Z.of_nat i * 4 + 4) b)))
    (seq i k)) = drop (4 * i) b) as H.
  { induction k as [|k IH]; intros i Hi.
    - symmetry. apply drop_ge. unfold zlen in Hn. lia.
    - cbn [seq map]. rewrite bconcat_cons, (IH (S i)) by lia.
      assert (length (slice (Z.of_nat i * 4) (Z.of_nat i * 4 + 4) b) = 4%nat) as Hl.
      { pose proof (slice_length b (Z.of_nat i * 4) (Z.of_nat i * 4 + 4)). unfold zlen in *. lia. }
      rewrite <- Hl at 1. rewrite le_bytes_val by (by apply bytes_ok_slice).
      unfold slice. replace (Z.to_nat (Z.of_nat i * 4 + 4 - Z.of_nat i * 4)) with 4%nat by lia.
      replace (Z.to_nat (Z.of_nat i * 4)) with (4 * i)%nat by lia.
      rewrite <- (take_drop 4 (drop (4 * i) b)) at 2. rewrite drop_drop. do 2 f_equal. lia. }
  rewrite (H n 0%nat) by lia. done.
Qed.

Lemma xor_bytes n (a b : bytes) : bytes_ok a -> bytes_ok b -> length a = n -> length b = n ->
  map (fun i => js_xor (at0 a (Z.of_nat i)) (at0 b (Z.of_nat i))) (seq 0 n) = zip_with Z.lxor a b.
Proof.
  intros Ha Hb Hla Hlb. apply list_eq. intros i. change (map ?f ?l) with (f <$> l).
  rewrite list_lookup_fmap, lookup_zip_with. destruct (decide (i < n)%nat) as [Hi|Hi].
  - rewrite lookup_seq_lt by done. cbn [fmap option_fmap option_map Nat.add].
    destruct (lookup_lt_is_Some_2 a i ltac:(lia)) as [x Hx].
    destruct (lookup_lt_is_Some_2 b i ltac:(lia)) as [y Hy]. rewrite Hx, Hy. cbn.
    unfold at0. rewrite Nat2Z.id, Hx, Hy. cbn. f_equal.
    pose proof (Forall_lookup_1 _ _ _ _ Ha Hx). pose proof (Forall_lookup_1 _ _ _ _ Hb Hy).
    unfold is_byte in *. apply js_xor_id; lia.
  - rewrite lookup_seq_ge by lia. rewrite (lookup_ge_None_2 a) by lia. done.
Qed.

Lemma length_map_seq {A} (f : nat -> A) n : length (map f (seq 0 n)) = n.
Proof. by rewrite length_map, length_seq. Qed.

Lemma inner_length n s m : length m = 16%nat -> length (Cpp.inner n s m).2 = 16%nat.
Proof. revert s m. induction n as [|n IH]; intros s m Hm; [done|]. cbn [Cpp.inner]. by apply IH. Qed.

Lemma compress_length cv m : length m = 16%nat ->
  length (Cpp.blake3_short_compress cv m).1 = 8%nat /\ length (Cpp.blake3_short_compress cv m).2 = 16%nat.
Proof.
  intros Hm. unfold Cpp.blake3_short_compress.
  match goal with |- context [Cpp.inner 2 ?s m] => pose proof (inner_length 2 s m Hm) as H; destruct (Cpp.inner 2 s m) end.
  split; [|exact H]. apply length_map_seq.
Qed.

Lemma mix_lane_eq lane block : sized 32 lane -> sized 64 block ->
  mix_lane lane block = Ok (Cpp.mix_one lane block) /\
  sized 32 (Cpp.mix_one lane block).1 /\ sized 64 (Cpp.mix_one lane block).2.
Proof.
  intros [Hl Hl'] [Hb Hb']. unfold mix_lane, Cpp.mix_one.
  rewrite (leWords_eq lane 8), (leWords_eq block 16) by done. cbn [mbind res_bind].
  pose proof (read_u32s_words lane 8 Hl ltac:(lia)) as Hcv. pose proof (read_u32s_words block 16 Hb ltac:(lia)) as Hm.
  set (cv := Cpp.read_u32s lane 8) in *. set (m := Cpp.read_u32s block 16) in *.
  assert (length cv = 8%nat /\ length m = 16%nat) as [Hcl Hml] by (split; apply length_map_seq).
  destruct (compress_eq cv m Hcl Hcv Hm) as (-> & H1 & H2).
  destruct (compress_length cv m Hml) as [H3 H4].
  destruct (Cpp.blake3_short_compress cv m) as [ncv m']. cbn [fst snd] in *.
  destruct (write_u32s_sized ncv) as [S1 S2]. destruct (write_u32s_sized m') as [S3 S4].
  assert (Cpp.write_u32s (zip_with Z.lxor m m') = zip_with Z.lxor block (Cpp.write_u32s m')) as Hz.
  { rewrite write_u32s_lxor by lia. unfold m. by rewrite read_write_u32s. }
  split; [|split].
  - rewrite !writeLEWords_eq by done. do 2 f_equal. rewrite Hz. apply xor_bytes; [done|done| |].
    + unfold zlen in Hb'. change (Z.to_nat BLOCK_BYTES) with 64%nat. lia.
    + unfold zlen in S4. change (Z.to_nat BLOCK_BYTES) with 64%nat. lia.
  - split; [done|]. rewrite S2. unfold zlen. lia.
  - split; [apply write_u32s_sized|]. rewrite (proj2 (write_u32s_sized _)). unfold zlen.
    rewrite length_zip_with. lia.
Qed.

(** ** Addresses stay inside a lane *)
Lemma rotr64_eq x n : uint 64 x -> 0 < n < 64 -> rotr64 x n = Cpp.rotr 64 x n.
Proof.
  intros Hx Hn. unfold rotr64, Cpp.rotr, MASK64. change 0xffffffffffffffff with (Z.ones 64).
  rewrite Z.land_lor_distr_l, !Z.land_ones by lia. f_equal. apply Z.mod_small.
  unfold uint in Hx. rewrite Z.shiftr_div_pow2 by lia. pose proof (Z.pow_pos_nonneg 2 n).
  split; [apply Z.div_pos; lia|]. apply Z.div_lt_upper_bound; nia.
Qed.

Definition lanes_ok (n : Z) (l : list bytes) : Prop := length l = 8%nat /\ Forall (sized n) l.

Lemma lanes_at n l i : lanes_ok n l -> (i < 8)%nat -> sized n (buf_at l i).
Proof.
  intros [Hl Hs] Hi. unfold buf_at. destruct (lookup_lt_is_Some_2 l i ltac:(lia)) as [b Hb]. rewrite Hb.
  by eapply Forall_lookup_1.
Qed.

Lemma deriveAddresses_eq lanes r : lanes_ok 32 lanes -> 0 <= r < 2 ^ 32 ->
  deriveAddresses lanes r = Cpp.DeriveAddresses lanes r.
Proof.
  intros Hl Hr. unfold deriveAddresses, Cpp.DeriveAddresses. rewrite ushr_0, to_u32_id by done.
  apply map_ext_in. intros i Hi. apply in_seq in Hi. change (Z.to_nat LANES) with 8%nat in Hi.
  destruct (lanes_at 32 lanes i Hl ltac:(lia)) as [Hb Hn]. rewrite !readLEUint64_eq by (done || lia).
  unfold MASK64. change 0xffffffffffffffff with (Z.ones 64). rewrite (Z.land_ones _ 64) by lia.
  rewrite rotr64_eq by (apply Z.mod_pos_bound || idtac; lia). done.
Qed.

Lemma DeriveAddresses_range lanes r i : 0 <= (Cpp.DeriveAddresses lanes r).[i] < 2048.
Proof.
  unfold num_at. destruct (Cpp.DeriveAddresses lanes r !! i) as [a|] eqn:E; [|cbn; lia]. cbn.
  apply list_lookup_fmap_Some in E as (j & -> & _). cbv zeta. unfold Cpp.ADDR_MASK.
  change 2047 with (Z.ones 11). rewrite Z.land_ones by lia. apply Z.mod_pos_bound. lia.
Qed.

Lemma block_in_range lanes r i : (i < 8)%nat ->
  0 <= block_base i ((Cpp.DeriveAddresses lanes r).[i]) /\
  block_base i ((Cpp.DeriveAddresses lanes r).[i]) + 64 <= SCRATCH_BYTES.
Proof.
  intros Hi. pose proof (DeriveAddresses_range lanes r i). unfold block_base, LANE_BYTES, SCRATCH_BYTES, LANES, BLOCK_BYTES.
  change (1048576 / 8) with 131072. lia.
Qed.

(** ** The scratchpad *)
Lemma res_map_ok {A B} (f : A -> res B) (h : A -> B) l : (forall x, x ∈ l -> f x = Ok (h x)) ->
  res_map f l = Ok (map h l).
Proof.
  intros H. induction l as [|x l IH]; [done|]. cbn [res_map]. rewrite H by constructor.
  cbn [mbind res_bind]. rewrite IH; [done|]. intros y Hy. apply H. by constructor.
Qed.

Lemma mem_write_ok pad src off n : sized n pad -> bytes_ok src -> 0 <= off -> off + zlen src <= n ->
  exists pad', ta_set pad src off = Ok pad' /\ Cpp.mem_write pad src off = Some pad' /\ sized n pad'.
Proof.
  intros [Hb Hn] Hs Ho Hl. unfold ta_set, Cpp.mem_write. rewrite (proj2 (Z.leb_le _ _)) by lia.
  rewrite (proj2 (Z.leb_le 0 off)) by lia. cbn [andb]. eexists. split; [done|]. split; [done|]. split.
  - rewrite !bytes_ok_app. split; [by apply bytes_ok_take|]. split; [done|by apply bytes_ok_drop].
  - unfold zlen in *. rewrite !length_app, length_take, length_drop. lia.
Qed.

Lemma writes_ok (f : nat -> bytes) (o : nat -> Z) n l pad : sized n pad ->
  (forall i, i ∈ l -> bytes_ok (f i) /\ 0 <= o i /\ o i + zlen (f i) <= n) ->
  exists pad', res_foldl (fun pad i => ta_set pad (f i) (o i)) pad l = Ok pad' /\
    Cpp.opt_foldl (fun pad i => Cpp.mem_write pad (f i) (o i)) pad l = Some pad' /\ sized n pad'.
Proof.
  revert pad. induction l as [|i l IH]; intros pad Hp H; [by exists pad|].
  destruct (H i ltac:(constructor)) as (H1 & H2 & H3).
  destruct (mem_write_ok pad (f i) (o i) n Hp H1 H2 H3) as (p1 & E1 & E2 & Hp1).
  destruct (IH p1 Hp1) as (p2 & E3 & E4 & Hp2); [intros j Hj; apply H; by constructor|].
  exists p2. cbn [res_foldl Cpp.opt_foldl]. rewrite E1, E2. done.
Qed.

Lemma mixStep_eq lanes blocks : lanes_ok 32 lanes -> lanes_ok 64 blocks ->
  mixStep lanes blocks = Ok (Cpp.MixOneStep lanes blocks) /\
  lanes_ok 32 (Cpp.MixOneStep lanes blocks).1 /\ lanes_ok 64 (Cpp.MixOneStep lanes blocks).2.
Proof.
  intros Hl Hb. unfold mixStep, Cpp.MixOneStep. change (Z.to_nat LANES) with 8%nat.
  set (h := fun L => Cpp.mix_one (buf_at lanes L) (buf_at blocks L)).
  assert (forall L, (L < 8)%nat -> mix_lane (buf_at lanes L) (buf_at blocks L) = Ok (h L) /\
    sized 32 (h L).1 /\ sized 64 (h L).2) as Hh.
  { intros L HL. apply mix_lane_eq; by apply lanes_at. }
  clearbody h.
  rewrite (res_map_ok _ h) by (intros L HL; apply elem_of_seq in HL; apply Hh; lia). cbn [mbind res_bind fst snd].
  split; [done|].
  assert (lanes_ok 32 (map fst (map h (seq 0 8)))) as H1.
  { split; [by rewrite !length_map|]. rewrite map_map. apply Forall_fmap, Forall_forall. intros L HL.
    apply elem_of_seq in HL. cbn. apply Hh. lia. }
  split.
  - split; [done|]. apply Forall_fmap. repeat (constructor; [apply (lanes_at 32); [done|lia]|]). constructor.
  - split; [by rewrite !length_map|]. rewrite map_map. apply Forall_fmap, Forall_forall. intros L HL.
    apply elem_of_seq in HL. cbn. apply Hh. lia.
Qed.

Lemma blocks_eq pad lanes r : sized SCRATCH_BYTES pad ->
  mapM (fun L => Cpp.mem_read pad (Cpp.PadBlock L ((Cpp.DeriveAddresses lanes r).[L])) BLOCK_BYTES) (seq 0 8) =
    Some (readScratchpadBlocks pad (Cpp.DeriveAddresses lanes r)) /\
  lanes_ok 64 (readScratchpadBlocks pad (Cpp.DeriveAddresses lanes r)).
Proof.
  intros [Hb Hn]. unfold readScratchpadBlocks. change (Z.to_nat LANES) with 8%nat.
  pose proof (block_in_range lanes r) as Hr. generalize dependent (Cpp.DeriveAddresses lanes r). intros addrs Hr.
  change Cpp.PadBlock with block_base. unfold BLOCK_BYTES in *. split.
  - apply mapM_Some, Forall2_fmap_r, Forall_Forall2_diag, Forall_forall. intros L HL. apply elem_of_seq in HL.
    destruct (Hr L ltac:(lia)) as [H1 H2]. unfold Cpp.mem_read.
    rewrite (proj2 (Z.leb_le _ _)) by lia. by rewrite (proj2 (Z.leb_le _ _)) by lia.
  - split; [apply length_map_seq|]. apply Forall_fmap, Forall_forall. intros L HL. apply elem_of_seq in HL.
    destruct (Hr L ltac:(lia)) as [H1 H2]. split; [by apply bytes_ok_slice|]. rewrite slice_length by lia. lia.
Qed.

(** One round of the loop. *)
Lemma round_step lanes pad r : lanes_ok 32 lanes -> sized SCRATCH_BYTES pad -> 0 <= r < 2 ^ 32 ->
  exists st, pow_round (lanes, pad) r = Ok st /\ Cpp.iteration lanes pad r = Some st /\
    lanes_ok 32 st.1 /\ sized SCRATCH_BYTES st.2.
Proof.
  intros Hl Hp Hr. unfold pow_round, Cpp.iteration. rewrite deriveAddresses_eq by done.
  destruct (blocks_eq pad lanes r Hp) as [Hrd Hbl].
  set (addrs := Cpp.DeriveAddresses lanes r) in *. set (blocks := readScratchpadBlocks pad addrs) in *.
  destruct (mixStep_eq lanes blocks Hl Hbl) as (-> & H1 & H2).
  rewrite Hrd. cbn [mbind res_bind option_bind]. destruct (Cpp.MixOneStep lanes blocks) as [nl nb]. cbn [fst snd] in *.
  unfold writeScratchpadBlocks.
  destruct (writes_ok (buf_at nb) (fun L => block_base L (addrs.[L])) SCRATCH_BYTES (seq 0 8) pad Hp) as (p' & E1 & E2 & Hp').
  { intros L HL. apply elem_of_seq in HL. destruct (lanes_at 64 nb L H2 ltac:(lia)) as [Hb Hn].
    destruct (block_in_range lanes r L ltac:(lia)) as [H3 H4]. fold addrs in H3, H4. rewrite Hn. done. }
  exists (nl, p'). change (Z.to_nat LANES) with 8%nat. rewrite E1.
  change Cpp.PadBlock with block_base. rewrite E2. done.
Qed.

Lemma loop_eq budget clock rs lanes pad : lanes_ok 32 lanes -> sized SCRATCH_BYTES pad ->
  Forall (fun r => Z.of_nat r < 2 ^ 32) rs ->
  exists st, res_foldl (fun st r => pow_round st (Z.of_nat r)) (lanes, pad) rs = Ok st /\
    lanes_ok 32 st.1 /\ sized SCRATCH_BYTES st.2 /\
    (Cpp.iterate budget clock rs lanes pad = Some (Some st.1) \/
     (0 < budget /\ Cpp.iterate budget clock rs lanes pad = Some None)).
Proof.
  intros Hl Hp Hrs. revert lanes pad Hl Hp. induction Hrs as [|r rs Hr _ IH]; intros lanes pad Hl Hp.
  - exists (lanes, pad). do 3 (split; [done|]). by left.
  - destruct (round_step lanes pad (Z.of_nat r) Hl Hp ltac:(lia)) as ([l1 p1] & E1 & E2 & Hl1 & Hp1).
    destruct (IH l1 p1 Hl1 Hp1) as (st & E3 & H1 & H2 & H3). exists st. cbn [res_foldl Cpp.iterate].
    rewrite E1, E2. cbn [mbind res_bind option_bind fst snd]. repeat (split; [done|]).
    destruct (0 <? budget) eqn:Eb; [|exact H3]. cbn [andb]. case_match; [right|exact H3].
    split; [by apply Z.ltb_lt|done].
Qed.

(** ** The whole hash *)
Lemma seed_buf_eq seed i : uint 32 i -> seed_buf seed i = Cpp.index_buf seed i.
Proof. intros Hi. unfold seed_buf, Cpp.index_buf. by rewrite js_bytes_eq. Qed.

Lemma ta_set_append p k src off : off = zlen p -> zlen src <= k ->
  ta_set (p ++ zeros k) src off = Ok ((p ++ src) ++ zeros (k - zlen src)).
Proof.
  intros -> Hk. pose proof (zlen_nonneg src).
  rewrite (ta_set_ok _ src (zlen p) p (zeros (zlen src)) (zeros (k - zlen src))); [by rewrite app_assoc| |done|].
  - f_equal. unfold zeros. rewrite <- replicate_add. f_equal. lia.
  - by rewrite zlen_zeros by lia.
Qed.

Lemma fill_lanes k all ls : Forall (fun l => zlen l = k) ls -> forall i p, drop i all = ls ->
  zlen p = Z.of_nat i * k ->
  res_foldl (fun out L => ta_set out (buf_at all L) (Z.of_nat L * k)) (p ++ zeros (zlen ls * k)) (seq i (length ls))
  = Ok (p ++ bconcat ls).
Proof.
  induction 1 as [|l ls Hl _ IH]; intros i p Hd Hp; [done|]. cbn [length seq res_foldl].
  assert (buf_at all i = l) as ->.
  { unfold buf_at. replace i with (i + 0)%nat by lia. by rewrite <- lookup_drop, Hd. }
  pose proof (zlen_nonneg l). pose proof (zlen_nonneg ls).
  rewrite ta_set_append by (rewrite ?zlen_cons; nia). cbn [mbind res_bind].
  replace (zlen (l :: ls) * k - zlen l) with (zlen ls * k) by (rewrite zlen_cons; nia).
  rewrite IH.
  - by rewrite bconcat_cons, app_assoc.
  - replace (S i) with (i + 1)%nat by lia. by rewrite <- drop_drop, Hd.
  - rewrite zlen_app. lia.
Qed.

Lemma serialiseLanes_eq lanes : lanes_ok 32 lanes ->
  serialiseLanes lanes = Ok (bconcat lanes) /\ zlen (bconcat lanes) = 256.
Proof.
  intros [Hl Hs]. assert (Forall (fun l : bytes => zlen l = 32) lanes) as Hz.
  { eapply Forall_impl; [exact Hs|]. by intros l [_ ?]. }
  assert (zlen lanes = 8) as Hn by (unfold zlen; lia). split.
  - pose proof (fill_lanes 32 lanes lanes Hz 0 [] eq_refl eq_refl) as H. rewrite Hn, Hl in H. exact H.
  - clear Hs. do 8 (destruct lanes as [|? lanes]; [done|]). destruct lanes; [|done].
    repeat (apply Forall_cons in Hz as [? Hz]). rewrite !bconcat_cons, !zlen_app. change (zlen (bconcat [])) with 0. lia.
Qed.

Section Node.
Context `{Blake3Ok}.

Lemma initLanes_eq seed : zlen seed = 32 ->
  exists lanes, initLanes seed = Ok lanes /\ lanes_ok 32 lanes /\
    lanes = map (fun L => blake3 (Cpp.index_buf seed (Z.of_nat L)) 32) (seq 0 8).
Proof.
  intros Hs. unfold initLanes. rewrite Hs. cbn [Z.eqb negb throw_if mbind res_bind].
  eexists. split; [done|]. split.
  - split; [apply length_map_seq|]. apply Forall_fmap, Forall_true. intros L. unfold compose, blake3Hash.
    split; [apply blake3_bytes|by apply blake3_zlen].
  - apply map_ext_in. intros L HL. apply in_seq in HL. change (Z.to_nat LANES) with 8%nat in HL.
    unfold blake3Hash. by rewrite seed_buf_eq by (split; lia).
Qed.

Lemma initScratchpad_eq prev : zlen prev = 32 -> exists pad,
  initScratchpad prev = Ok pad /\ Cpp.InitScratchpad prev = Some pad /\ sized SCRATCH_BYTES pad.
Proof.
  intros Hp. unfold initScratchpad, Cpp.InitScratchpad. rewrite Hp. cbn [Z.eqb negb throw_if mbind res_bind].
  set (n := Z.to_nat SCRATCH_BLOCKS).
  assert (forall i, i ∈ seq 0 n -> Z.of_nat i < 16384) as Hi.
  { intros i Hi. apply elem_of_seq in Hi. unfold n in Hi.
    change SCRATCH_BLOCKS with 16384 in Hi. lia. }
  destruct (writes_ok (fun i => blake3 (Cpp.index_buf prev (Z.of_nat i)) BLOCK_BYTES) (fun i => Z.of_nat i * BLOCK_BYTES)
    SCRATCH_BYTES (seq 0 n) (zeros SCRATCH_BYTES)) as (pad & E1 & E2 & Hs).
  { split; [apply bytes_ok_zeros|]. by apply zlen_zeros. }
  { intros i Hin. specialize (Hi i Hin). split; [apply blake3_bytes|].
    unfold BLOCK_BYTES, SCRATCH_BYTES. rewrite blake3_zlen by lia. lia. }
  exists pad. split; [|done]. rewrite <- E1. clear E1 E2.
  generalize (zeros SCRATCH_BYTES). induction (seq 0 n) as [|i l IH]; intros z; [done|]. cbn [res_foldl].
  unfold blake3Xof at 1. rewrite seed_buf_eq by (specialize (Hi i ltac:(constructor)); split; lia).
  destruct (ta_set _ _ _); cbn [mbind res_bind]; [|done]. apply IH. intros j Hj. apply Hi. by constructor.
Qed.

(** What a pad of the right size gives: the port's result and the node's. *)
Lemma pow_core header prev pad : zlen header = 80 -> zlen prev = 32 -> sized SCRATCH_BYTES pad ->
  exists h pad', b3powScratch header prev (Some pad) = Ok ({| powHash := h; iterations := ITERATIONS |}, pad') /\
    sized 32 h /\ sized SCRATCH_BYTES pad' /\
    forall budget clock, Cpp.Hash header pad budget clock = Some (Some h, false) \/
                         (0 < budget /\ Cpp.Hash header pad budget clock = Some (None, true)).
Proof.
  intros Hh Hp Hpad. unfold b3powScratch, Cpp.Hash. rewrite Hh, Hp.
  cbn [Z.eqb Pos.eqb negb throw_if mbind res_bind]. rewrite (proj2 Hpad).
  change (SCRATCH_BYTES =? SCRATCH_BYTES) with true. cbn [negb throw_if mbind res_bind].
  destruct (initLanes_eq (blake3Hash header)) as (lanes & -> & Hl & Hle); [by apply blake3_zlen|].
  cbn [mbind res_bind]. unfold blake3Hash at 1 in Hle. rewrite <- Hle.
  assert (Forall (fun r => Z.of_nat r < 2 ^ 32) (seq 0 (Z.to_nat ITERATIONS))) as Hrs.
  { apply Forall_forall. intros r Hr. apply elem_of_seq in Hr. change (Z.to_nat ITERATIONS) with 2048%nat in Hr. lia. }
  destruct (loop_eq 0 (fun _ => 0) _ lanes pad Hl Hpad Hrs) as ([l' p'] & E & Hl' & Hp' & _).
  rewrite E. cbn [mbind res_bind fst snd] in *. destruct (serialiseLanes_eq l' Hl') as [-> Hz]. cbn [mbind res_bind].
  change (zeros (LANES * 32 + 4)) with ([] ++ zeros 260). rewrite ta_set_append by (done || lia).
  cbn [mbind res_bind app]. rewrite Hz. change (260 - 256) with 4.
  assert (zlen (slice 76 80 header) = 4) as Hn by (rewrite slice_length; lia).
  rewrite ta_set_append, Hn by (done || lia). cbn [mbind res_bind]. change (zeros (4 - 4)) with (@nil Z). rewrite app_nil_r.
  eexists _, p'. split; [done|]. split; [split; [apply blake3_bytes|by apply blake3_zlen]|]. split; [done|].
  intros budget clock. destruct (loop_eq budget clock _ lanes pad Hl Hpad Hrs) as (st & E' & _ & _ & Hit).
  rewrite E in E'. injection E' as <-. cbn [fst] in Hit. change (Z.to_nat ITERATIONS) with 2048%nat in Hit.
  destruct Hit as [-> | [Hb ->]]; cbn [mbind option_bind]; [|by right]. unfold blake3Hash.
  destruct (0 <? budget) eqn:Eb; cbn [andb]; [|by left]. apply Z.ltb_lt in Eb. case_match; [by right|by left].
Qed.

(** C5: the pool's proof of work is the node's.  For every 80-byte header and 32-byte
    parent hash the TypeScript port terminates with a 32-byte hash, with or without a
    prepared scratchpad, and [b3pow::Hash] on the scratchpad that [InitScratchpad]
    builds never reads or writes outside it and returns the same hash; with a
    wall-clock budget it returns that hash or reports the budget exceeded. *)
Theorem b3powScratch_matches_node header prev : zlen header = 80 -> zlen prev = 32 ->
  exists h pad pad',
    initScratchpad prev = Ok pad /\ Cpp.InitScratchpad prev = Some pad /\ sized 32 h /\
    b3powScratch header prev None = Ok ({| powHash := h; iterations := ITERATIONS |}, pad') /\
    b3powScratch header prev (Some pad) = Ok ({| powHash := h; iterations := ITERATIONS |}, pad') /\
    forall clock, Cpp.Hash header pad 0 clock = Some (Some h, false) /\
    forall budget, Cpp.Hash header pad budget clock = Some (Some h, false) \/
                   Cpp.Hash header pad budget clock = Some (None, true).
Proof.
  intros Hh Hp. destruct (initScratchpad_eq prev Hp) as (pad & E1 & E2 & Hs).
  destruct (pow_core header prev pad Hh Hp Hs) as (h & pad' & E & Hsz & _ & Hc). exists h, pad, pad'.
  do 3 (split; [done|]). split; [|split; [done|]].
  - rewrite <- E. unfold b3powScratch. by rewrite E1.
  - intros clock. split; [by destruct (Hc 0 clock) as [|[? _]]; [|lia]|]. intros budget.
    destruct (Hc budget clock) as [|[_ ?]]; tauto.
Qed.
End Node.

(** A concrete stream function of the right shape. *)
Definition example_stream : Blake3 := fun d n => replicate (Z.to_nat n) (zlen d mod 256).
Lemma example_stream_ok : @Blake3Ok example_stream.
Proof.
  split; intros d n; unfold blake3, example_stream.
  - intros Hn. unfold zlen. rewrite length_replicate. lia.
  - apply Forall_replicate. apply Z.mod_pos_bound. lia.
Qed.

Lemma b3powScratch_matches_node_witness : exists h pad pad',
    @initScratchpad example_stream (zeros 32) = Ok pad /\ @Cpp.InitScratchpad example_stream (zeros 32) = Some pad /\
    sized 32 h /\
    @b3powScratch example_stream (zeros 80) (zeros 32) None = Ok ({| powHash := h; iterations := ITERATIONS |}, pad') /\
    @b3powScratch example_stream (zeros 80) (zeros 32) (Some pad) = Ok ({| powHash := h; iterations := ITERATIONS |}, pad') /\
    forall clock, @Cpp.Hash example_stream (zeros 80) pad 0 clock = Some (Some h, false) /\
    forall budget, @Cpp.Hash example_stream (zeros 80) pad budget clock = Some (Some h, false) \/
                   @Cpp.Hash example_stream (zeros 80) pad budget clock = Some (None, true).
Proof. exact (@b3powScratch_matches_node example_stream example_stream_ok (zeros 80) (zeros 32) eq_refl eq_refl). Defined.
