(* ===== verification/PadCache.v ===== *)
(** * The scratchpad cache ([pool/src/lib/pad-cache.ts])

    [b3powScratch] mutates the pad it is handed, and the cache keeps pads between
    shares, so what matters is which buffers are shared: buffers live in a heap, the
    cache holds references to pristine pads, and callers hold references to the
    copies they were given and may write anything into those. *)

From S2P Require Import Prelude JsString JsMap Header B3Pow.

Record Entry := { e_pad : nat; lastUsedMs : Z }.

Record PadCache := {
  capacity : Z;
  pmap : list (jsstr * Entry);
  hits : Z;
  misses : Z;
  evictions : Z
}.

Definition new_PadCache (capacity : Z) : res PadCache :=
  _ ← throw_if (capacity <? 1) "capacity must be >= 1";
  Ok {| capacity := capacity; pmap := []; hits := 0; misses := 0; evictions := 0 |}.

Definition bytesKey (b : bytes) : jsstr :=
  b ≫= fun v => (if v <? 16 then js "0" else []) ++ to_radix 16 v.

(** [while (size > capacity)]: every round deletes one entry, so the number of
    entries is enough fuel. *)
Fixpoint evict_loop (fuel : nat) (c : PadCache) : PadCache :=
  match fuel with
  | O => c
  | S fuel =>
      if zlen (pmap c) >? capacity c then
        match pmap c with
        | [] => c
        | (oldestKey, _) :: _ =>
            evict_loop fuel {| capacity := capacity c; pmap := map_delete oldestKey (pmap c); hits := hits c;
                               misses := misses c; evictions := evictions c + 1 |}
        end
      else c
  end.
Definition evictOldest (c : PadCache) : PadCache := evict_loop (length (pmap c)) c.

Definition clear (c : PadCache) : PadCache :=
  {| capacity := capacity c; pmap := []; hits := hits c; misses := misses c; evictions := evictions c |}.

(** The buffers of the process. *)
Abbreviation store := (list bytes).

Section PadCache.
Context `{Blake3}.

(** The entry of a parent hash, made on a miss, moved to the end on a hit; [now] is
    [Date.now()]. *)
Definition find_entry (now : Z) (prevBlockHashLE : bytes) (h : store) (c : PadCache)
    : res (Entry * store * PadCache) :=
  let key := bytesKey prevBlockHashLE in
  match map_get key (pmap c) with
  | None =>
      pad ← initScratchpad prevBlockHashLE;
      let entry := {| e_pad := length h; lastUsedMs := now |} in
      Ok (entry, h ++ [pad],
          evictOldest {| capacity := capacity c; pmap := map_set key entry (pmap c); hits := hits c;
                         misses := misses c + 1; evictions := evictions c |})
  | Some entry =>
      let entry := {| e_pad := e_pad entry; lastUsedMs := now |} in
      Ok (entry, h,
          {| capacity := capacity c; pmap := map_set key entry (map_delete key (pmap c));
             hits := hits c + 1; misses := misses c; evictions := evictions c |})
  end.

(** The copy that is returned, the buffers and the cache afterwards. *)
Definition getFresh (now : Z) (prevBlockHashLE : bytes) (h : store) (c : PadCache) : res (nat * store * PadCache) :=
  _ ← throw_if (negb (zlen prevBlockHashLE =? 32)) "prevBlockHashLE must be 32 bytes";
  r ← find_entry now prevBlockHashLE h c;
  let '(entry, h, c) := r in
  copy ← ta_set (zeros SCRATCH_BYTES) (default [] (h !! e_pad entry)) 0;
  Ok (length h, h ++ [copy], c).

(** ** The world around the cache

    Requests for pads, arbitrary writes of callers into the buffers they hold, and
    [clear]. *)
Record world := { w_store : store; w_cache : PadCache; handed : list nat }.

Inductive pstep : world -> world -> Prop :=
| step_get w now prev ref h c : bytes_ok prev ->
    getFresh now prev (w_store w) (w_cache w) = Ok (ref, h, c) ->
    pstep w {| w_store := h; w_cache := c; handed := ref :: handed w |}
| step_write w ref b : ref ∈ handed w ->
    pstep w {| w_store := <[ref := b]> (w_store w); w_cache := w_cache w; handed := handed w |}
| step_clear w : pstep w {| w_store := w_store w; w_cache := clear (w_cache w); handed := handed w |}.

Inductive reachable (cap : Z) : world -> Prop :=
| reach_new c h : new_PadCache cap = Ok c -> reachable cap {| w_store := h; w_cache := c; handed := [] |}
| reach_step w w' : reachable cap w -> pstep w w' -> reachable cap w'.

(** A cached entry is pristine, and nobody outside the cache can write to it. *)
Definition entry_ok (h : store) (out : list nat) (ke : jsstr * Entry) : Prop :=
  exists prev pad, sized 32 prev /\ ke.1 = bytesKey prev /\ initScratchpad prev = Ok pad /\
    h !! e_pad ke.2 = Some pad /\ (e_pad ke.2 ∉ out).

Record cache_inv (cap : Z) (w : world) : Prop := {
  ci_cap : capacity (w_cache w) = cap /\ 1 <= cap;
  ci_size : zlen (pmap (w_cache w)) <= cap;
  ci_nodup : NoDup (pmap (w_cache w)).*1;
  ci_entries : Forall (entry_ok (w_store w) (handed w)) (pmap (w_cache w));
  ci_handed : Forall (fun r => (r < length (w_store w))%nat) (handed w)
}.
End PadCache.

(** ** Lemmas *)
Lemma bytesKey_hex b : bytes_ok b -> bytesKey b = bytesToHex b.
Proof.
  induction 1 as [|x b Hx _ IH]; [done|]. unfold bytesKey, bytesToHex in *. rewrite !bind_cons, IH. f_equal.
  revert Hx. clear. unfold is_byte. intros Hx. do 2 (replace x with (Z.of_nat (Z.to_nat x)) by lia).
  assert (Z.to_nat x < 256)%nat as Hn by lia. revert Hn. generalize (Z.to_nat x). clear. intros n Hn.
  do 256 (destruct n as [|n]; [vm_compute; reflexivity|]). lia.
Qed.

Lemma bytesKey_inj a b : bytes_ok a -> bytes_ok b -> bytesKey a = bytesKey b -> a = b.
Proof.
  intros Ha Hb. rewrite !bytesKey_hex by done. intros E. apply (f_equal hexToBytes) in E.
  rewrite !hexToBytes_bytesToHex in E by done. by injection E.
Qed.

Lemma evict_loop_spec fuel c : NoDup (pmap c).*1 -> 0 <= capacity c -> zlen (pmap c) <= Z.of_nat fuel ->
  let c' := evict_loop fuel c in
  capacity c' = capacity c /\ zlen (pmap c') <= capacity c /\ NoDup (pmap c').*1 /\
  (forall x, x ∈ pmap c' -> x ∈ pmap c).
Proof.
  revert c. induction fuel as [|fuel IH]; intros c Hnd Hc Hf; cbn [evict_loop]; [repeat split; [lia|done..]|].
  rewrite Z.gtb_ltb. destruct (Z.ltb_spec (capacity c) (zlen (pmap c))); [|by repeat split; [lia|..]].
  destruct (pmap c) as [|[k e] m] eqn:E; [rewrite E in *; change (zlen []) with 0 in *; lia|]. rewrite <- E in *.
  assert (k ∈ (pmap c).*1) as Hk by (rewrite E; left).
  pose proof (map_delete_zlen k (pmap c) Hk). destruct (map_delete_keys k (pmap c) Hnd) as [Hnd' _].
  match goal with |- context [evict_loop fuel ?c1] => destruct (IH c1) as (H1 & H2 & H3 & H4) end;
    [done|done|cbn [pmap]; lia|]. cbn [capacity pmap] in *. repeat split; [done|done|done|].
  intros x Hx. eapply map_delete_subset, H4, Hx.
Qed.

Lemma map_entries {K A} `{EqDecision K} (P : K * A -> Prop) k v m :
  P (k, v) -> Forall P m -> Forall P (map_set k v m).
Proof.
  intros Hv Hm. apply Forall_forall. intros x Hx. apply map_set_elem in Hx as [->|Hx]; [done|].
  by eapply Forall_forall in Hm.
Qed.

Lemma map_subset {A} (P : A -> Prop) (m m' : list A) : (forall x, x ∈ m' -> x ∈ m) -> Forall P m -> Forall P m'.
Proof. intros Hs Hm. apply Forall_forall. intros x Hx. eapply Forall_forall in Hm; [exact Hm|by apply Hs]. Qed.

Section Proofs.
Context `{Blake3Ok}.

Lemma entry_ok_extend h h' out out' ke : entry_ok h out ke ->
  (forall i p, h !! i = Some p -> h' !! i = Some p) -> (forall i, i ∈ out' -> i ∈ out \/ (length h <= i)%nat) ->
  entry_ok h' out' ke.
Proof.
  intros (prev & pad & H1 & H2 & H3 & H4 & H5) Hh Ho. exists prev, pad. repeat (split; [eauto|]).
  intros Hin. destruct (Ho _ Hin) as [|Hge]; [done|]. apply lookup_lt_Some in H4. lia.
Qed.

(** A copy of a whole pad. *)
Lemma copy_pad n pad : sized n pad -> ta_set (zeros n) pad 0 = Ok pad.
Proof.
  intros [_ Hs]. rewrite ta_set_zeros by lia. rewrite Hs, Z.sub_diag. change (zeros 0) with (@nil Z). by rewrite app_nil_r.
Qed.

(** Growing the store, with the new buffers possibly handed out. *)
Lemma inv_extend cap h h' c out out' : cache_inv cap {| w_store := h; w_cache := c; handed := out |} ->
  (forall i p, h !! i = Some p -> h' !! i = Some p) ->
  (forall i, i ∈ out' -> i ∈ out \/ (length h <= i)%nat) -> Forall (fun r => (r < length h')%nat) out' ->
  cache_inv cap {| w_store := h'; w_cache := c; handed := out' |}.
Proof.
  intros [Hc Hs Hn He Ho] Hh Ho' Hl. split; [done..| |done]. eapply Forall_impl; [exact He|]. cbn.
  intros ke Hke. by eapply entry_ok_extend.
Qed.

Lemma store_snoc (h : store) p i q : h !! i = Some q -> (h ++ [p]) !! i = Some q.
Proof. apply lookup_app_l_Some. Qed.

(** Looking an entry up keeps the invariant and finds the pristine pad. *)
Lemma find_entry_inv cap h c out now prev pad :
  cache_inv cap {| w_store := h; w_cache := c; handed := out |} -> sized 32 prev -> initScratchpad prev = Ok pad ->
  exists e h' c', find_entry now prev h c = Ok (e, h', c') /\ h' !! e_pad e = Some pad /\
    cache_inv cap {| w_store := h'; w_cache := c'; handed := out |}.
Proof.
  intros Hinv Hsz Ei. pose proof Hinv as [[Hcap Hc1] Hsize Hnd Hent Hout]. cbn [w_store w_cache handed] in *.
  unfold find_entry. destruct (map_get (bytesKey prev) (pmap c)) as [e|] eqn:Eg.
  - assert ((bytesKey prev, e) ∈ pmap c) as Hin by (by apply map_get_elem).
    pose proof (proj1 (Forall_forall _ _) Hent _ Hin) as (prev' & pad' & Hsz' & Hk & Hi & Hlk & Hno). cbn in Hk, Hlk, Hno.
    apply bytesKey_inj in Hk; [|apply Hsz|apply Hsz']. subst prev'. rewrite Ei in Hi. injection Hi as <-.
    eexists _, h, _. split; [done|]. split; [done|].
    destruct (map_delete_keys (bytesKey prev) (pmap c) Hnd) as [Hnd' _].
    pose proof (map_delete_zlen (bytesKey prev) (pmap c) ltac:(apply list_elem_of_fmap; by exists (bytesKey prev, e))).
    split; cbn [w_store w_cache handed capacity pmap]; [done| |by apply map_set_nodup| |done].
    + pose proof (map_set_zlen (bytesKey prev) {| e_pad := e_pad e; lastUsedMs := now |} (map_delete (bytesKey prev) (pmap c))). lia.
    + apply map_entries; [by exists prev, pad|]. by eapply map_subset; [apply map_delete_subset|].
  - rewrite Ei. cbn [mbind res_bind]. eexists _, _, _. split; [done|]. split; [by apply list_lookup_middle|].
    assert (Forall (fun r => (r < length (h ++ [pad]))%nat) out) as Hout'.
    { eapply Forall_impl; [exact Hout|]. intros r Hr. cbn in Hr. rewrite length_app. lia. }
    pose proof (inv_extend cap h (h ++ [pad]) c out out Hinv (store_snoc h pad) ltac:(auto) Hout') as [_ _ _ Hent' _].
    set (c1 := {| capacity := _; pmap := map_set _ _ _ |}).
    destruct (evict_loop_spec (length (pmap c1)) c1) as (H1 & H2 & H3 & H4);
      [by apply map_set_nodup|cbn; lia|done|]. cbn [capacity c1] in H1, H2. fold (evictOldest c1) in *.
    split; cbn [w_store w_cache handed]; [by rewrite H1|by rewrite <- Hcap|done| |done].
    eapply map_subset; [exact H4|]. apply map_entries; [|exact Hent']. exists prev, pad. cbn.
    do 3 (split; [done|]). split; [by apply list_lookup_middle|]. intros Hin.
    pose proof (proj1 (Forall_forall _ _) Hout _ Hin). cbn in *. lia.
Qed.

(** The result of a request, and the invariant after it. *)
Lemma getFresh_inv cap w now prev : cache_inv cap w -> sized 32 prev ->
  exists pad ref h c, initScratchpad prev = Ok pad /\
    getFresh now prev (w_store w) (w_cache w) = Ok (ref, h, c) /\ h !! ref = Some pad /\
    (ref ∉ handed w) /\ cache_inv cap {| w_store := h; w_cache := c; handed := ref :: handed w |}.
Proof.
  intros Hinv Hsz. destruct w as [h0 c0 out]. cbn [w_store w_cache handed] in *.
  destruct (initScratchpad_eq prev (proj2 Hsz)) as (pad & Ei & _ & Hp). unfold getFresh. rewrite (proj2 Hsz).
  destruct (find_entry_inv cap h0 c0 out now prev pad Hinv Hsz Ei) as (e & h & c & E & Hl & Hinv').
  cbn [Z.eqb Pos.eqb negb throw_if mbind res_bind]. rewrite E. cbn [mbind res_bind]. rewrite Hl. cbn [default].
  unfold id. rewrite copy_pad by done. cbn [mbind res_bind]. pose proof Hinv' as [_ _ _ _ Hout]. cbn in Hout.
  assert (length h ∉ out) as Hno.
  { intros Hin. pose proof (proj1 (Forall_forall _ _) Hout _ Hin). cbn in *. lia. }
  exists pad, (length h), (h ++ [pad]), c. do 2 (split; [done|]). split; [by apply list_lookup_middle|]. split; [done|].
  eapply inv_extend; [exact Hinv'|apply store_snoc| |].
  - intros i [->|Hi]%elem_of_cons; [by right|by left].
  - constructor; [rewrite length_app; cbn; lia|]. eapply Forall_impl; [exact Hout|]. cbn. intros r Hr. rewrite length_app. lia.
Qed.

Lemma reachable_inv cap w : reachable cap w -> cache_inv cap w.
Proof.
  induction 1 as [c h Hc|w w' _ IH Hs].
  - unfold new_PadCache in Hc. destruct (Z.ltb_spec cap 1); [done|]. injection Hc as <-.
    split; cbn; [lia|change (zlen []) with 0; lia|constructor..].
  - destruct Hs as [w now prev ref h c Hb Hg|w ref b Hin|w].
    + assert (sized 32 prev) as Hsz.
      { split; [done|]. unfold getFresh in Hg. destruct (Z.eqb_spec (zlen prev) 32); [done|done]. }
      destruct (getFresh_inv cap w now prev IH Hsz) as (pad & ref' & h' & c' & _ & Hg' & _ & _ & Hinv).
      rewrite Hg in Hg'. by injection Hg' as <- <- <-.
    + destruct IH as [H1 H2 H3 H4 H5]. split; cbn [w_store w_cache handed]; [done..| |].
      * eapply Forall_impl; [exact H4|]. intros ke (prev & pad & A1 & A2 & A3 & A4 & A5). exists prev, pad.
        do 3 (split; [done|]). split; [|done]. rewrite list_lookup_insert_ne; [done|]. congruence.
      * eapply Forall_impl; [exact H5|]. cbn. intros r Hr. by rewrite length_insert.
    + destruct IH as [H1 H2 H3 H4 H5]. split; cbn; [done|change (zlen []) with 0; lia|constructor|constructor|done].
Qed.

(** The scratchpad cache never shows.  Whatever was requested before, and whatever
    the callers wrote into the pads they were given, [getFresh] returns a buffer nobody
    else holds, whose contents are the pad [initScratchpad] makes for that parent, so
    that hashing with it gives the hash of a run without a cache; and the cache never
    holds more than its capacity. *)
Theorem getFresh_transparent cap w now prev : reachable cap w -> sized 32 prev ->
  exists pad ref h c, getFresh now prev (w_store w) (w_cache w) = Ok (ref, h, c) /\
    initScratchpad prev = Ok pad /\ h !! ref = Some pad /\ (ref ∉ handed w) /\
    (forall ke, ke ∈ pmap c -> e_pad ke.2 <> ref) /\ zlen (pmap c) <= cap /\
    forall header, b3powScratch header prev (h !! ref) = b3powScratch header prev None.
Proof.
  intros Hr Hsz. destruct (getFresh_inv cap w now prev (reachable_inv cap w Hr) Hsz)
    as (pad & ref & h & c & Ei & Hg & Hl & Hno & [_ Hs _ He _]).
  exists pad, ref, h, c. do 4 (split; [done|]). split; [|split; [done|]].
  - intros ke Hin. pose proof (proj1 (Forall_forall _ _) He _ Hin) as (? & ? & _ & _ & _ & _ & Hout).
    intros Heq. apply Hout. rewrite Heq. left.
  - intros header. rewrite Hl. unfold b3powScratch. by rewrite Ei.
Qed.
End Proofs.

Lemma getFresh_transparent_witness : exists pad ref h c,
    @getFresh example_stream 0 (zeros 32) [] {| capacity := 8; pmap := []; hits := 0; misses := 0; evictions := 0 |} = Ok (ref, h, c) /\
    @initScratchpad example_stream (zeros 32) = Ok pad /\ h !! ref = Some pad /\ (ref ∉ []) /\
    (forall ke, ke ∈ pmap c -> e_pad ke.2 <> ref) /\ zlen (pmap c) <= 8 /\
    forall header, @b3powScratch example_stream header (zeros 32) (h !! ref) = @b3powScratch example_stream header (zeros 32) None.
Proof.
  refine (@getFresh_transparent example_stream example_stream_ok 8
    {| w_store := []; w_cache := {| capacity := 8; pmap := []; hits := 0; misses := 0; evictions := 0 |}; handed := [] |}
    0 (zeros 32) _ _).
  - apply (reach_new 8). reflexivity.
  - split; [apply bytes_ok_zeros|reflexivity].
Defined.
