(* ===== verification/Numeric.v ===== *)
(** * Amounts: NUMERIC(20,8) columns and doubles

    The ledger stores amounts as decimals with 8 places.  The code reads them with
    [parseFloat] and writes them with [toFixed(8)].  An amount is its number of
    [10^-8] units; [None] is the decimal [NaN], which the column type accepts. *)

From S2P Require Import Prelude JsString JsNumber JsRound JsFormat.

Definition numeric : Type := option Z.

(** [parseFloat(row.amount)], for the text of the decimal. *)
Definition of_numeric (n : numeric) : jsnum :=
  match n with
  | None => S754_nan
  | Some u => let v := decimal (Z.abs u) (-8) in if u <? 0 then SFopp v else v
  end.

(** The column takes the text of [x.toFixed(8)]: [Infinity] and what has more than 12
    digits before the point are errors. *)
Definition to_numeric (x : jsnum) : res numeric :=
  match x with
  | S754_nan => Ok None
  | S754_infinity _ => Throw "numeric field overflow"
  | S754_zero _ => Ok (Some 0)
  | S754_finite s _ _ =>
      if fixed_units 8 x <? 10 ^ 20 then Ok (Some (if s then - fixed_units 8 x else fixed_units 8 x))
      else Throw "numeric field overflow"
  end.

(** [Number(x.toFixed(8))]; from [10^21] on [toFixed] is [String], which reads back as [x]. *)
Definition Number_toFixed8 (x : jsnum) : jsnum :=
  match x with
  | S754_zero _ => n0
  | S754_finite _ _ _ => if (let '(n, d) := num_frac x in 10 ^ 21 * d <=? n) then x else fixed_number 8 x
  | _ => x
  end.

(** [NaN] absorbs. *)
Definition numeric_add (a b : numeric) : numeric :=
  match a, b with Some x, Some y => Some (x + y) | _, _ => None end.
Definition numeric_sum (l : list numeric) : numeric := foldl numeric_add (Some 0) l.

(** ** Lemmas *)
Lemma fixed_units_fin x a : fin x a -> fixed_units 8 x = (2 * (a * 10 ^ 8) + 2 ^ 1074) / (2 * 2 ^ 1074).
Proof.
  intros Hx. destruct (fin_zero_or x a Hx) as [[-> ->]|(m & e & -> & _ & He & ->)].
  { symmetry. apply Z.div_small. lia. }
  unfold fixed_units, num_frac. destruct (Z.leb_spec 0 e) as [Hp|Hn].
  - replace (e + 1074) with (1074 + e) by lia. rewrite Z.pow_add_r by lia.
    generalize (eq_refl : (0 <? 2 ^ 1074) = true). generalize (2 ^ 1074) as K, (2 ^ e) as E. intros K E HK%Z.ltb_lt.
    replace (2 * (Zpos m * (K * E) * 10 ^ 8) + K) with ((2 * (Zpos m * E * 10 ^ 8) + 1) * K) by ring.
    replace (2 * K) with (2 * 1 * K) by ring. by rewrite Z.div_mul_cancel_r by lia.
  - assert (0 < 2 ^ (- e)) by (apply Z.pow_pos_nonneg; lia).
    assert (0 < 2 ^ (e + 1074)) by (apply Z.pow_pos_nonneg; lia).
    replace (2 ^ 1074) with (2 ^ (- e) * 2 ^ (e + 1074)) by (rewrite <- Z.pow_add_r by lia; f_equal; lia).
    replace (2 * (Zpos m * 2 ^ (e + 1074) * 10 ^ 8) + 2 ^ (- e) * 2 ^ (e + 1074))
      with ((2 * (Zpos m * 10 ^ 8) + 2 ^ (- e)) * 2 ^ (e + 1074)) by ring.
    replace (2 * (2 ^ (- e) * 2 ^ (e + 1074))) with (2 * 2 ^ (- e) * 2 ^ (e + 1074)) by ring. by rewrite Z.div_mul_cancel_r by lia.
Qed.

(** The double of an amount, in units of [2^-1074]. *)
Definition units_val (u : Z) : Z := rnd (u * 2 ^ 1074) (10 ^ 8).

Lemma pow_digits n k : 0 <= n < 2 ^ k -> 0 <= k -> Zdigits2 n <= k.
Proof.
  intros Hn Hk. destruct (decide (n = 0)) as [->|]; [done|]. rewrite Zdigits2_log2 by lia.
  assert (Z.log2 n < k); [|lia]. apply Z.log2_lt_pow2; lia.
Qed.

Lemma units_val_near u : 0 <= u < 2 ^ 52 -> 2 * Z.abs (units_val u * 10 ^ 8 - u * 2 ^ 1074) < 2 ^ 1074.
Proof.
  intros Hu. pose proof (rnd_error (u * 2 ^ 1074) (10 ^ 8) ltac:(lia) ltac:(lia)) as He. unfold units_val.
  set (a := rnd _ _) in *. assert (quantum (u * 2 ^ 1074 / 10 ^ 8) <= 1047) as Hq.
  { unfold quantum. apply Z.max_lub; [lia|]. assert (Zdigits2 (u * 2 ^ 1074 / 10 ^ 8) <= 1100); [|lia].
    apply pow_digits; [|lia]. split; [apply Z.div_pos; lia|]. apply Z.div_lt_upper_bound; lia. }
  eapply Z.le_lt_trans; [exact He|]. eapply Z.le_lt_trans; [apply Z.mul_le_mono_nonneg_l, (Z.pow_le_mono_r 2 _ 1047); [lia|lia|done]|].
  lia.
Qed.

Lemma decimal8_fin u : 0 <= u < 2 ^ 52 -> fin (decimal u (-8)) (units_val u).
Proof.
  intros Hu. unfold decimal. cbn [Z.leb Z.compare Z.opp]. destruct u as [|p|]; [|..|lia].
  { unfold units_val. rewrite Z.mul_0_l, rnd_0 by lia. apply n0_fin. }
  apply finite_small_fin.
  - unfold units_val. replace (rnd (Zpos p * 2 ^ 1074) (10 ^ 8)) with (rnd (Zpos p * 2 ^ (0 + 1074) * 2 ^ 1074) (100000000 * 2 ^ (0 + 1074))).
    + apply (SFdiv_val false p 0 100000000 0); lia.
    + change (0 + 1074) with 1074. apply rnd_ratio; [lia|lia|lia|]. change (10 ^ 8) with 100000000. generalize (2 ^ 1074). intros. ring.
  - apply rnd_small; lia.
Qed.

Lemma of_numeric_fin u : 0 <= u < 2 ^ 52 -> fin (of_numeric (Some u)) (units_val u).
Proof.
  intros Hu. cbn [of_numeric]. destruct (Z.ltb_spec u 0); [lia|]. rewrite Z.abs_eq by lia. by apply decimal8_fin.
Qed.

(** An amount below [2^52] units survives the trip through a double. *)
Lemma fixed_units_val x u : 0 <= u < 2 ^ 52 -> fin x (units_val u) -> fixed_units 8 x = u.
Proof.
  intros Hu Hx. rewrite (fixed_units_fin _ _ Hx). pose proof (units_val_near u Hu) as Hn.
  revert Hn. generalize (eq_refl : (0 <? 2 ^ 1074) = true). generalize (2 ^ 1074) as K, (units_val u) as a. intros K a HK%Z.ltb_lt Hn.
  symmetry. apply (Z.div_unique _ _ u (2 * (a * 10 ^ 8) + K - 2 * K * u)); lia.
Qed.

Lemma units_val_mono u v : 0 <= u -> u <= v -> units_val u <= units_val v.
Proof. intros Hu Hv. apply rnd_mono; lia. Qed.

Lemma units_val_inj u v : 0 <= u < 2 ^ 52 -> 0 <= v < 2 ^ 52 -> units_val u = units_val v -> u = v.
Proof.
  intros Hu Hv E. rewrite <- (fixed_units_val (of_numeric (Some u)) u), <- (fixed_units_val (of_numeric (Some u)) v); try done.
  - rewrite <- E. by apply of_numeric_fin.
  - by apply of_numeric_fin.
Qed.

Lemma units_val_lt u v : 0 <= u < 2 ^ 52 -> 0 <= v < 2 ^ 52 -> (units_val u <? units_val v) = (u <? v).
Proof.
  intros Hu Hv. destruct (Z.ltb_spec u v).
  - apply Z.ltb_lt. pose proof (units_val_mono u v ltac:(lia) ltac:(lia)).
    destruct (decide (units_val u = units_val v)) as [E|]; [apply units_val_inj in E; lia|lia].
  - apply Z.ltb_ge. apply units_val_mono; lia.
Qed.

Lemma fin_form x a : fin x a -> x = n0 \/ exists m e, x = S754_finite false m e.
Proof. intros Hx. destruct (fin_zero_or x a Hx) as [[-> _]|(m & e & -> & _)]; eauto. Qed.

Lemma to_numeric_val x u : 0 <= u < 2 ^ 52 -> fin x (units_val u) -> to_numeric x = Ok (Some u).
Proof.
  intros Hu Hx. pose proof (fixed_units_val x u Hu Hx) as E. destruct (fin_form _ _ Hx) as [->|(m & e & ->)].
  - cbn in E. cbn. by rewrite <- E.
  - cbn [to_numeric]. rewrite E. destruct (Z.ltb_spec u (10 ^ 20)); [done|lia].
Qed.

Lemma to_numeric_opp x u : 0 <= u < 2 ^ 52 -> fin x (units_val u) -> to_numeric (SFopp x) = Ok (Some (- u)).
Proof.
  intros Hu Hx. pose proof (fixed_units_val x u Hu Hx) as E. destruct (fin_form _ _ Hx) as [->|(m & e & ->)].
  - cbn in E. cbn. by rewrite <- E.
  - cbn [to_numeric SFopp negb]. change (fixed_units 8 (S754_finite true m e)) with (fixed_units 8 (S754_finite false m e)).
    rewrite E. destruct (Z.ltb_spec u (10 ^ 20)); [done|lia].
Qed.

Lemma Number_toFixed8_val x u : 0 <= u < 2 ^ 52 -> fin x (units_val u) -> fin (Number_toFixed8 x) (units_val u).
Proof.
  intros Hu Hx. pose proof (fixed_units_val x u Hu Hx) as E. destruct (fin_form _ _ Hx) as [->|(m & e & ->)]; [done|].
  unfold Number_toFixed8. case_match; [done|]. unfold fixed_number. rewrite E. cbn [num_sign]. by apply decimal8_fin.
Qed.

Lemma of_numeric_neg u : u < 0 -> nle (of_numeric (Some u)) n0 = true.
Proof.
  intros Hu. cbn [of_numeric]. destruct (Z.ltb_spec u 0); [|lia]. unfold decimal. cbn [Z.leb Z.compare Z.opp].
  destruct u as [|p|p]; [lia|lia|]. change (10 ^ (- (-8))) with 100000000. change (Z.abs (Z.neg p)) with (Z.pos p).
  pose proof (SFdiv_val false p 0 100000000 0 ltac:(lia) ltac:(lia)) as Hv.
  set (d := SFdiv _ _ _ _) in Hv. change (nle (SFopp d) n0 = true). clearbody d.
  destruct d as [[]|[]| |[]]; cbn [has_val] in Hv; try done; by destruct Hv.
Qed.

Lemma of_numeric_lt u v : 0 <= u < 2 ^ 52 -> 0 <= v < 2 ^ 52 -> nlt (of_numeric (Some u)) (of_numeric (Some v)) = (u <? v).
Proof. intros Hu Hv. rewrite (nlt_fin _ _ _ _ (of_numeric_fin u Hu) (of_numeric_fin v Hv)). by apply units_val_lt. Qed.

Lemma of_numeric_le0 u : -(2 ^ 52) < u < 2 ^ 52 -> nle (of_numeric (Some u)) n0 = (u <=? 0).
Proof.
  intros Hu. destruct (Z.leb_spec u 0) as [Hle|Hgt].
  - destruct (decide (u = 0)) as [->|]; [done|]. apply of_numeric_neg. lia.
  - rewrite (nle_fin _ _ _ _ (of_numeric_fin u ltac:(lia)) n0_fin). apply Z.leb_gt.
    pose proof (units_val_lt 0 u ltac:(lia) ltac:(lia)) as E. unfold units_val in E at 1. rewrite Z.mul_0_l, rnd_0 in E by lia.
    apply Z.ltb_lt. rewrite E. lia.
Qed.

Lemma numeric_sum_app l k : numeric_sum (l ++ k) = numeric_add (numeric_sum l) (numeric_sum k).
Proof.
  unfold numeric_sum. rewrite foldl_app. generalize (foldl numeric_add (Some 0) l) as a. intros a.
  enough (forall a b, foldl numeric_add (numeric_add a b) k = numeric_add a (foldl numeric_add b k)) as E.
  { rewrite <- E. f_equal. destruct a; cbn; [f_equal; lia|done]. }
  clear a. induction k as [|x k IH]; intros a b; [done|]. cbn [foldl]. rewrite <- IH. f_equal.
  destruct a, b, x; cbn; try done. f_equal. lia.
Qed.
