(* ===== verification/Ipc.v ===== *)
(** * Events for the pool daemon ([pool/src/lib/ipc.ts], [lib/reject-reason.ts])

    The Stratum service sends events to the pool daemon as lines of JSON over a socket.
    [IpcServer.handle] cuts the stream into lines, whatever its chunks are;
    [IpcClient] keeps at most one connection and queues what it cannot write. *)

From S2P Require Import Prelude JsString JsNumber JsFormat Effects Json.

(** [lib/reject-reason.ts]. *)
Inductive RejectReason := RDuplicate | RLowDiff | RInvalid | ROther.

Definition normalizeRejectReason (reason : jsstr) : RejectReason :=
  if bool_decide (reason = js "duplicate") then RDuplicate
  else if bool_decide (reason = js "low-diff") then RLowDiff
  else if bool_decide (reason = js "invalid") then RInvalid
  else ROther.

Definition rejectColumn (reason : jsstr) : jsstr :=
  match normalizeRejectReason reason with
  | RDuplicate => js "rejected_duplicate"
  | RLowDiff => js "rejected_low_diff"
  | RInvalid => js "rejected_invalid"
  | ROther => js "rejected_other"
  end.

(** ** Events ([ShareEvent], [ShareSigEvent], [RejectEvent]) *)
Inductive AttestResult := R_valid | R_invalid | R_missing.
#[export] Instance AttestResult_eq_dec : EqDecision AttestResult.
Proof. solve_decision. Defined.

Record ShareAttest := {
  sa_jobId : jsstr;
  sa_nonce : jsstr;
  sa_pubkey : option jsstr;
  sa_signature : option jsstr;
  sa_result : AttestResult
}.
Record ShareEvent := {
  se_user : jsstr;
  se_workerName : jsstr;
  se_diff : jsnum;
  se_isBlock : bool;
  se_blockHash : option jsstr;
  se_blockHeight : option Z;
  se_networkDifficulty : option jsnum;
  se_timestampMs : Z;
  se_attest : option ShareAttest
}.
Record ShareSigEvent := { ss_user : jsstr; ss_workerName : jsstr; ss_timestampMs : Z; ss_attest : ShareAttest }.
Record RejectEvent := { re_user : jsstr; re_workerName : jsstr; re_reason : RejectReason; re_diff : jsnum; re_timestampMs : Z }.
Inductive IpcMessage := IpcShare (e : ShareEvent) | IpcSig (e : ShareSigEvent) | IpcReject (e : RejectEvent).


(** ** JSON.stringify *)

(** The messages as the objects the code builds, members in order. *)
Definition opt {A} (f : A -> jval) (o : option A) : jval := match o with Some a => f a | None => JUndef end.
Definition or_null (o : option jsstr) : jval := match o with Some s => JStr s | None => JNull end.

Definition reject_value (r : RejectReason) : jsstr :=
  match r with RDuplicate => js "duplicate" | RLowDiff => js "low-diff" | RInvalid => js "invalid" | ROther => js "other" end.
Definition result_value (r : AttestResult) : jsstr :=
  match r with R_valid => js "valid" | R_invalid => js "invalid" | R_missing => js "missing" end.
Definition attest_value (a : ShareAttest) : jval := JObj [
  (js "jobId", JStr (sa_jobId a)); (js "nonce", JStr (sa_nonce a)); (js "pubkey", or_null (sa_pubkey a));
  (js "signature", or_null (sa_signature a)); (js "result", JStr (result_value (sa_result a)))].
Definition message_members (m : IpcMessage) : list (jsstr * jval) :=
  match m with
  | IpcShare e => [
      (js "type", JStr (js "share")); (js "user", JStr (se_user e)); (js "workerName", JStr (se_workerName e));
      (js "diff", JNum (se_diff e)); (js "isBlock", JBool (se_isBlock e)); (js "blockHash", opt JStr (se_blockHash e));
      (js "blockHeight", opt (fun z => JNum (num_of_Z z)) (se_blockHeight e));
      (js "networkDifficulty", opt JNum (se_networkDifficulty e));
      (js "timestampMs", JNum (num_of_Z (se_timestampMs e))); (js "attest", opt attest_value (se_attest e))]
  | IpcSig e => [
      (js "type", JStr (js "share_sig")); (js "user", JStr (ss_user e)); (js "workerName", JStr (ss_workerName e));
      (js "timestampMs", JNum (num_of_Z (ss_timestampMs e))); (js "attest", attest_value (ss_attest e))]
  | IpcReject e => [
      (js "type", JStr (js "reject")); (js "user", JStr (re_user e)); (js "workerName", JStr (re_workerName e));
      (js "reason", JStr (reject_value (re_reason e))); (js "diff", JNum (re_diff e));
      (js "timestampMs", JNum (num_of_Z (re_timestampMs e)))]
  end.

Definition escape_unit (c : Z) : jsstr :=
  if (c =? 34) || (c =? 92) then [92; c]
  else if c =? 8 then js "\b"
  else if c =? 9 then js "\t"
  else if c =? 10 then js "\n"
  else if c =? 12 then js "\f"
  else if c =? 13 then js "\r"
  else if (c <? 32) || ((55296 <=? c) && (c <=? 57343)) then js "\u" ++ padStart 4 48 (to_radix 16 c)
  else [c].
(** A surrogate pair is kept, a lone surrogate is escaped. *)
Fixpoint escape (s : jsstr) : jsstr :=
  match s with
  | c :: ((d :: s') as r) =>
      if (55296 <=? c) && (c <=? 56319) && (56320 <=? d) && (d <=? 57343) then c :: d :: escape s'
      else escape_unit c ++ escape r
  | [c] => escape_unit c
  | [] => []
  end.
Definition quote (s : jsstr) : jsstr := [34] ++ escape s ++ [34].

Fixpoint join (sep : jsstr) (l : list jsstr) : jsstr :=
  match l with
  | [] => []
  | [s] => s
  | s :: l => s ++ sep ++ join sep l
  end.

(** [None] is [undefined], a member that is left out. *)
Fixpoint JSON_stringify (v : jval) : option jsstr :=
  match v with
  | JUndef => None
  | JNull => Some (js "null")
  | JBool b => Some (if b then js "true" else js "false")
  | JNum x => Some (if isFinite x then num_String x else js "null")
  | JStr s => Some (quote s)
  | JArr l => Some (js "[" ++ join (js ",") (map (fun v => default (js "null") (JSON_stringify v)) l) ++ js "]")
  | JObj l => Some (js "{" ++
      join (js ",") (concat (map (fun '(k, v) => match JSON_stringify v with Some s => [quote k ++ js ":" ++ s] | None => [] end) l))
      ++ js "}")
  end.

(** [JSON.stringify(msg)] of a message, which is an object. *)
Definition message_json (m : IpcMessage) : jsstr := default [] (JSON_stringify (JObj (message_members m))).
Definition message_line (m : IpcMessage) : jsstr := message_json m ++ [10].

(** ** IpcServer *)
Section Handle.
Context {S : Type} (onMessage : jval -> eff S unit).

(** The event [parse-error] has no listener. *)
Definition handle_line (line : jsstr) : eff S unit :=
  if bool_decide (line = []) then mret tt
  else try_catch (msg ← lift (JSON_parse line); onMessage msg) (fun _ => mret tt).

(** [while ((idx = buf.indexOf("\n")) >= 0)]; every round removes a line.  The result is
    what [buf] is afterwards. *)
Fixpoint handle_loop (fuel : nat) (buf : jsstr) : eff S jsstr :=
  match fuel with
  | O => mret buf
  | Datatypes.S fuel =>
      let idx := indexOf 10 buf in
      if idx <? 0 then mret buf
      else
        let line := trim (take (Z.to_nat idx) buf) in
        let buf := drop (Z.to_nat (idx + 1)) buf in
        _ ← handle_line line;
        handle_loop fuel buf
  end.
Definition handle (buf chunk : jsstr) : eff S jsstr :=
  let buf := buf ++ chunk in handle_loop (length buf) buf.

(** The chunks of a connection. *)
Fixpoint handle_all (chunks : list jsstr) (buf : jsstr) : eff S jsstr :=
  match chunks with
  | [] => mret buf
  | c :: chunks => buf ← handle buf c; handle_all chunks buf
  end.
End Handle.

(** ** IpcClient

    [attempts], [opened] and [timers] count the connections being set up, the open ones
    and the reconnection timers that the runtime holds for this object; [written] is what
    was written to a socket.  [sock] is [this.sock !== null] and [usable] is
    [!sock.destroyed && sock.writable], which a socket that breaks never is again. *)
Record IpcClient := {
  sock : bool;
  usable : bool;
  connecting : bool;
  retryMs : Z;
  buffered : list jsstr;
  closed : bool;
  attempts : nat;
  opened : nat;
  timers : nat;
  written : list jsstr
}.
Definition maxBuffer : Z := 5000.
Definition new_IpcClient : IpcClient := {|
  sock := false; usable := false; connecting := false; retryMs := 500; buffered := []; closed := false;
  attempts := 0; opened := 0; timers := 0; written := [] |}.

Definition connect (c : IpcClient) : IpcClient :=
  if connecting c || closed c then c
  else {| sock := sock c; usable := usable c; connecting := true; retryMs := retryMs c; buffered := buffered c; closed := closed c;
          attempts := S (attempts c); opened := opened c; timers := timers c; written := written c |}.

Definition stop (c : IpcClient) : IpcClient := {|
  sock := false; usable := usable c; connecting := connecting c; retryMs := retryMs c; buffered := buffered c; closed := true;
  attempts := attempts c; opened := opened c; timers := timers c; written := written c |}.

Definition send (line : jsstr) (c : IpcClient) : IpcClient :=
  let write := sock c && usable c in
  let keep := negb write && (zlen (buffered c) <? maxBuffer) in
  {| sock := sock c; usable := usable c; connecting := connecting c; retryMs := retryMs c;
     buffered := if keep then buffered c ++ [line] else buffered c; closed := closed c;
     attempts := attempts c; opened := opened c; timers := timers c;
     written := if write then written c ++ [line] else written c |}.

(** The callback of [net.createConnection]. *)
Definition on_connect (c : IpcClient) : IpcClient := {|
  sock := true; usable := true; connecting := false; retryMs := 500; buffered := []; closed := closed c;
  attempts := pred (attempts c); opened := S (opened c); timers := timers c; written := written c ++ buffered c |}.

(** The socket is destroyed or ended, and will be closed. *)
Definition on_broken (c : IpcClient) : IpcClient := {|
  sock := sock c; usable := false; connecting := connecting c; retryMs := retryMs c; buffered := buffered c; closed := closed c;
  attempts := attempts c; opened := opened c; timers := timers c; written := written c |}.

(** The event [close], of a connection that was open or could not be opened. *)
Definition on_close (c : IpcClient) (was_open : bool) : IpcClient :=
  {| sock := false; usable := false; connecting := false;
     retryMs := if closed c then retryMs c else Z.min (retryMs c * 2) 10000; buffered := buffered c; closed := closed c;
     attempts := if was_open then attempts c else pred (attempts c);
     opened := if was_open then pred (opened c) else opened c;
     timers := if closed c then timers c else S (timers c); written := written c |}.

(** The timer of a reconnection. *)
Definition on_timer (c : IpcClient) : IpcClient :=
  connect {| sock := sock c; usable := usable c; connecting := connecting c; retryMs := retryMs c; buffered := buffered c; closed := closed c;
             attempts := attempts c; opened := opened c; timers := pred (timers c); written := written c |}.

(** What can happen after [start()]; [client_reach sent c]: the lines [sent] were given to
    [send], in order, and the client is now [c]. *)
Inductive client_reach : list jsstr -> IpcClient -> Prop :=
| reach_start : client_reach [] (connect new_IpcClient)
| reach_send sent c line : client_reach sent c -> client_reach (sent ++ [line]) (send line c)
| reach_connect sent c : client_reach sent c -> (0 < attempts c)%nat -> client_reach sent (on_connect c)
| reach_broken sent c : client_reach sent c -> client_reach sent (on_broken c)
| reach_failed sent c : client_reach sent c -> (0 < attempts c)%nat -> client_reach sent (on_close c false)
| reach_closed sent c : client_reach sent c -> (0 < opened c)%nat -> client_reach sent (on_close c true)
| reach_timer sent c : client_reach sent c -> (0 < timers c)%nat -> client_reach sent (on_timer c)
| reach_stop sent c : client_reach sent c -> client_reach sent (stop c).

(** ** Lines and chunks: lemmas *)
Section Chunks.
Context {S : Type} (onMessage : jval -> eff S unit).
Notation loop := (handle_loop onMessage).

Lemma loop_none n b s : 10 ∉ b -> loop n b s = (Ok b, s).
Proof. intros Hb. destruct n; cbn; [done|]. by rewrite indexOf_none. Qed.

Lemma loop_line n l r s : 10 ∉ l -> loop (Datatypes.S n) (l ++ 10 :: r) s = (_ ← handle_line onMessage (trim l); loop n r) s.
Proof.
  intros Hl. cbn [handle_loop]. rewrite indexOf_app by done. unfold zlen.
  destruct (Z.ltb_spec (Z.of_nat (length l)) 0); [lia|].
  replace (Z.to_nat (Z.of_nat (length l) + 1)) with (length l + 1)%nat by lia. rewrite Nat2Z.id, take_app_length.
  by rewrite drop_app_add.
Qed.

Lemma handle_line_ok l s : exists s', handle_line onMessage l s = (Ok tt, s').
Proof.
  unfold handle_line, try_catch. case_bool_decide; [by exists s|].
  destruct ((msg ← lift (JSON_parse l); onMessage msg) s) as [[[]|e] s']; by exists s'.
Qed.

Lemma loop_fuel n m b s : (length b <= n)%nat -> (length b <= m)%nat -> loop n b s = loop m b s.
Proof.
  revert m b s. induction n as [|n IH]; intros m b s Hn Hm.
  { destruct b; [|cbn in Hn; lia]. rewrite loop_none by apply not_elem_of_nil. symmetry. apply loop_none, not_elem_of_nil. }
  destruct (first_line 10 b) as [Hb|(l & r & -> & Hl)]; [by rewrite !loop_none|].
  rewrite length_app in Hn, Hm. cbn in Hn, Hm. destruct m as [|m]; [lia|]. rewrite !loop_line by done. eff_simpl.
  destruct (handle_line_ok (trim l) s) as [s' ->]. apply IH; lia.
Qed.

(** What two chunks do is what their concatenation does. *)
Lemma loop_app n a b s : (length a <= n)%nat ->
  (buf ← loop n a; loop (length (buf ++ b)) (buf ++ b)) s = loop (length (a ++ b)) (a ++ b) s.
Proof.
  revert a s. induction n as [|n IH]; intros a s Hn.
  { destruct a; [|cbn in Hn; lia]. done. }
  destruct (first_line 10 a) as [Ha|(l & r & -> & Hl)].
  { unfold mbind, eff_bind. by rewrite loop_none. }
  rewrite length_app in Hn. cbn in Hn. rewrite <- app_assoc. cbn [app].
  rewrite (loop_fuel (length (l ++ 10 :: r ++ b)) (Datatypes.S (length (l ++ r ++ b))))
    by (rewrite ?length_app; cbn; rewrite ?length_app; lia).
  rewrite loop_line by done. unfold mbind at 1, eff_bind at 1. rewrite loop_line by done. eff_simpl.
  destruct (handle_line_ok (trim l) s) as [s' ->].
  rewrite (loop_fuel (length (l ++ r ++ b)) (length (r ++ b))) by (rewrite !length_app; lia).
  apply (IH r s'). lia.
Qed.

Lemma loop_rest n b s : (length b <= n)%nat -> exists r s', loop n b s = (Ok r, s') /\ (10 ∉ r).
Proof.
  revert b s. induction n as [|n IH]; intros b s Hn.
  { destruct b; [|cbn in Hn; lia]. exists [], s. split; [done|apply not_elem_of_nil]. }
  destruct (first_line 10 b) as [Hb|(l & r & -> & Hl)]; [exists b, s; by rewrite loop_none|].
  rewrite loop_line by done. eff_simpl. destruct (handle_line_ok (trim l) s) as [s' ->].
  rewrite length_app in Hn. cbn in Hn. apply IH. lia.
Qed.

Lemma handle_all_concat cs b s : 10 ∉ b -> handle_all onMessage cs b s = handle onMessage b (concat cs) s.
Proof.
  revert b s. induction cs as [|c cs IH]; intros b s Hb.
  { cbn [handle_all concat]. unfold handle. rewrite app_nil_r. by rewrite loop_none. }
  cbn [handle_all concat]. unfold handle at 2. rewrite app_assoc, <- (loop_app (length (b ++ c))) by done.
  destruct (loop_rest (length (b ++ c)) (b ++ c) s ltac:(done)) as (r & s' & E & Hr).
  eff_simpl. unfold handle at 1. rewrite E. by apply IH.
Qed.

(** A stream of whole lines. *)
Lemma loop_lines ls s : Forall (fun l => 10 ∉ l) ls ->
  let b := concat (map (fun l => l ++ [10]) ls) in
  loop (length b) b s = (_ ← for_each (fun l => handle_line onMessage (trim l)) ls; mret []) s.
Proof.
  revert s. induction ls as [|l ls IH]; intros s Hls; [done|]. apply Forall_cons in Hls as [Hl Hls].
  cbn [map concat for_each]. cbv zeta. rewrite <- app_assoc. cbn [app].
  set (b := concat _) in *. rewrite (loop_fuel _ (Datatypes.S (length (l ++ b)))) by (rewrite ?length_app; cbn; lia).
  rewrite loop_line by done. eff_simpl. destruct (handle_line_ok (trim l) s) as [s' ->].
  rewrite (loop_fuel _ (length b)) by (rewrite ?length_app; lia). by rewrite (IH s').
Qed.
End Chunks.

(** ** What JSON.stringify writes *)
Definition printable (s : jsstr) : Prop := Forall (fun c => 32 <= c) s.

Lemma printable_app s t : printable s -> printable t -> printable (s ++ t).
Proof. apply Forall_app_2. Qed.
Lemma js_printable s : forallb (fun c => 32 <=? c) (js s) = true -> printable (js s).
Proof. intros Hs%Is_true_true. rewrite forallb_True in Hs. eapply Forall_impl; [exact Hs|]. intros c Hc%Is_true_true. lia. Qed.
Lemma digits_printable b n : 0 < b -> printable (digits b n).
Proof.
  intros Hb. unfold digits. enough (forall f m acc, printable acc -> printable (digits_aux f b m acc)) as E.
  { apply E. constructor. }
  induction f as [|f IH]; intros m acc Hacc; cbn [digits_aux]; [done|].
  pose proof (Z.mod_pos_bound m b Hb). assert (printable (digit_char (m mod b) :: acc)).
  { constructor; [|done]. unfold digit_char. case_match; lia. }
  case_match; [done|]. by apply IH.
Qed.
Lemma to_radix_printable b n : 0 < b -> printable (to_radix b n).
Proof. intros Hb. unfold to_radix. case_match; [constructor; [lia|]|]; by apply digits_printable. Qed.
Lemma replicate_printable n : printable (replicate n 48).
Proof. by apply Forall_replicate. Qed.
Lemma take_printable n s : printable s -> printable (take n s).
Proof. apply Forall_take. Qed.
Lemma drop_printable n s : printable s -> printable (drop n s).
Proof. apply Forall_drop. Qed.

Create HintDb printable.
#[local] Hint Resolve printable_app digits_printable to_radix_printable replicate_printable take_printable drop_printable : printable.
#[local] Hint Extern 1 (printable (js _)) => apply js_printable; reflexivity : printable.
#[local] Hint Extern 1 (0 < _) => lia : printable.
#[local] Hint Extern 1 (printable []) => constructor : printable.

Lemma num_String_printable x : printable (num_String x).
Proof.
  assert (printable (String_pos x)) as Hp.
  { unfold String_pos. destruct (shortest _ _ _) as [[? ?] ?]. repeat case_match; auto 10 with printable. }
  unfold num_String. destruct x as [| [] | |[]]; auto with printable.
Qed.

Lemma escape_unit_printable c : printable (escape_unit c).
Proof.
  unfold escape_unit, padStart. repeat case_match; auto 10 with printable; repeat constructor; lia.
Qed.

Lemma escape_printable s : printable (escape s).
Proof.
  enough (forall n s, (length s <= n)%nat -> printable (escape s)) by eauto. clear s. induction n as [|n IH]; intros s Hs.
  { destruct s; [constructor|cbn in Hs; lia]. }
  destruct s as [|c [|d s]]; [constructor|apply escape_unit_printable|]. cbn in Hs. cbn [escape].
  case_match; [repeat constructor; [lia|lia|apply IH; lia]|].
  apply printable_app; [apply escape_unit_printable|]. apply (IH (d :: s)). cbn. lia.
Qed.

Lemma quote_printable s : printable (quote s).
Proof. unfold quote. repeat apply printable_app; [repeat constructor|apply escape_printable|repeat constructor]; lia. Qed.

Lemma join_printable sep l : printable sep -> Forall printable l -> printable (join sep l).
Proof.
  intros Hs. induction 1 as [|s l H1 H2 IH]; [constructor|]. cbn. destruct l; [done|]. by repeat apply printable_app.
Qed.
#[local] Hint Resolve num_String_printable quote_printable : printable.

Lemma JSON_stringify_printable v s : JSON_stringify v = Some s -> printable s.
Proof.
  revert v s. fix IH 1. intros [| |b|x|t|l|l] s; cbn [JSON_stringify]; intros E; [done|..]; apply (inj Some) in E as <-.
  - auto with printable.
  - destruct b; auto with printable.
  - case_match; auto with printable.
  - auto with printable.
  - apply printable_app; [auto with printable|]. apply printable_app; [|auto with printable].
    apply join_printable; [auto with printable|]. induction l as [|v l IHl]; constructor; [|exact IHl].
    destruct (JSON_stringify v) eqn:Ev; [by eapply IH|apply js_printable; reflexivity].
  - apply printable_app; [auto with printable|]. apply printable_app; [|auto with printable].
    apply join_printable; [auto with printable|]. induction l as [|[k v] l IHl]; cbn [map concat]; [constructor|].
    apply Forall_app_2; [|exact IHl]. destruct (JSON_stringify v) eqn:Ev; constructor; [|constructor].
    apply printable_app; [auto with printable|]. apply printable_app; [auto with printable|]. by eapply IH.
Qed.

(** A message is one line, with nothing to trim. *)
Lemma message_json_line m : 10 ∉ message_json m.
Proof.
  unfold message_json. destruct (JSON_stringify _) as [s|] eqn:E; cbn [default from_option id]; [|apply not_elem_of_nil].
  apply JSON_stringify_printable in E. intros Hin. unfold printable in E. rewrite list.Forall_forall in E. specialize (E _ Hin). lia.
Qed.

Lemma trim_braces s : trim (123 :: s ++ [125]) = 123 :: s ++ [125].
Proof.
  unfold trim. change (trimStart (123 :: s ++ [125])) with (123 :: s ++ [125]).
  rewrite app_comm_cons, reverse_app. change (trimStart (reverse [125] ++ reverse (123 :: s))) with (reverse [125] ++ reverse (123 :: s)).
  by rewrite <- reverse_app, reverse_involutive.
Qed.

Lemma message_json_trim m : trim (message_json m) = message_json m.
Proof. unfold message_json. cbn [JSON_stringify default from_option id]. apply trim_braces. Qed.

(** The event stream is framed correctly.  However the connection cuts the lines of a
    sequence of messages into chunks, the pool daemon handles exactly those messages, each
    as one line of JSON, once and in order, and keeps nothing in its buffer; an exception
    in the handling of a message does not affect the others. *)
Theorem ipc_framing {S} (onMessage : jval -> eff S unit) (ms : list IpcMessage) (chunks : list jsstr) (s : S) :
  concat chunks = concat (map message_line ms) ->
  handle_all onMessage chunks [] s = (_ ← for_each (fun m => handle_line onMessage (message_json m)) ms; mret []) s.
Proof.
  intros E. rewrite handle_all_concat by apply not_elem_of_nil. rewrite E. unfold handle. cbn [app].
  replace (map message_line ms) with (map (fun l => l ++ [10]) (map message_json ms)) by (by rewrite map_map).
  rewrite loop_lines.
  - unfold mbind, eff_bind. enough (for_each (fun l => handle_line onMessage (trim l)) (map message_json ms) s =
      for_each (fun m => handle_line onMessage (message_json m)) ms s) as -> by done.
    clear E. revert s. induction ms as [|m ms IH]; intros s; [done|]. cbn [map for_each]. rewrite message_json_trim. eff_simpl.
    destruct (handle_line onMessage (message_json m) s) as [[]]; [apply IH|done].
  - apply Forall_map, Forall_true. intros m. apply message_json_line.
Qed.

(** ** The client *)

(** It has at most one of: an attempt, a connection, a timer; exactly one until it is stopped. *)
Record client_inv (c : IpcClient) : Prop := {
  inv_one : (attempts c + opened c + timers c <= 1)%nat;
  inv_live : closed c = false -> (attempts c + opened c + timers c = 1)%nat;
  inv_connecting : connecting c = bool_decide (attempts c = 1%nat);
  inv_sock : sock c = true -> opened c = 1%nat;
  inv_queue : sock c && usable c = true -> buffered c = [];
  inv_retry : 500 <= retryMs c <= 10000;
  inv_buffer : zlen (buffered c) <= maxBuffer
}.

Lemma connect_inv c : (attempts c + opened c + timers c = 0)%nat -> connecting c = false -> sock c = false ->
  500 <= retryMs c <= 10000 -> zlen (buffered c) <= maxBuffer -> client_inv (connect c).
Proof.
  intros H1 H2 H3 H4 H5. unfold connect. rewrite H2. destruct (closed c) eqn:E; constructor; cbn; rewrite ?E, ?H2, ?H3; try done; try lia.
  - by rewrite bool_decide_false by lia.
  - by rewrite bool_decide_true by lia.
Qed.

Lemma send_inv line c : client_inv c -> client_inv (send line c).
Proof.
  intros []. constructor; cbn; try done.
  - intros Hs. rewrite Hs. by auto.
  - destruct (Z.ltb_spec (zlen (buffered c)) maxBuffer), (sock c && usable c); cbn; try done.
    unfold zlen in *. rewrite length_app. cbn. lia.
Qed.

Lemma close_inv c (o : bool) : client_inv c -> (0 < if o then opened c else attempts c)%nat -> client_inv (on_close c o).
Proof.
  intros [] Ho. unfold on_close. destruct o, (closed c) eqn:E; constructor; cbn; try done; try lia; by rewrite bool_decide_false by lia.
Qed.

Lemma client_reach_inv sent c : client_reach sent c -> client_inv c.
Proof.
  induction 1 as [|sent c line _ IH|sent c _ IH Ha|sent c _ IH|sent c _ IH Ha|sent c _ IH Ho|sent c _ IH Ht|sent c _ IH].
  - by apply connect_inv.
  - by apply send_inv.
  - destruct IH. constructor; cbn; try done; try lia. by rewrite bool_decide_false by lia.
  - destruct IH. constructor; cbn; try done. by rewrite andb_false_r.
  - by apply close_inv.
  - by apply close_inv.
  - destruct IH. apply connect_inv; cbn; try done; try lia.
    + rewrite inv_connecting0. by rewrite bool_decide_false by lia.
    + destruct (sock c); [|done]. specialize (inv_sock0 eq_refl). lia.
  - destruct IH. constructor; cbn; try done.
Qed.

(** The connection to the pool daemon.  Whatever happens to its sockets, the client has at
    most one of: an attempt to connect, a connection, a timer to reconnect, and it always
    has one until it is stopped; it waits between 0.5 and 10 seconds; and it writes events
    in the order in which they were sent, none twice, and drops none of the first 5000. *)
Theorem ipc_client_order sent c : client_reach sent c ->
  (attempts c + opened c + timers c <= 1)%nat /\
  (closed c = false -> (attempts c + opened c + timers c = 1)%nat) /\
  500 <= retryMs c <= 10000 /\
  written c ++ buffered c `sublist_of` sent /\
  (zlen sent <= maxBuffer -> written c ++ buffered c = sent).
Proof.
  intros Hr. pose proof (client_reach_inv _ _ Hr) as []. do 3 (split; [done|]).
  clear inv_one0 inv_live0 inv_connecting0 inv_sock0 inv_queue0 inv_retry0 inv_buffer0.
  induction Hr as [|sent c line Hr IH|sent c _ IH _|sent c _ IH|sent c _ IH _|sent c _ IH _|sent c _ IH _|sent c _ IH];
    try done.
  - destruct IH as [IH1 IH2]. pose proof (inv_queue c (client_reach_inv _ _ Hr)) as Hq. unfold send. cbn.
    destruct (sock c && usable c); cbn.
    + rewrite (Hq eq_refl) in *. rewrite !app_nil_r in *. split; [by apply sublist_app|].
      unfold zlen. rewrite length_app. cbn. intros Hl. f_equal. apply IH2. unfold zlen. lia.
    + destruct (Z.ltb_spec (zlen (buffered c)) maxBuffer).
      * rewrite app_assoc. split; [by apply sublist_app|].
        unfold zlen. rewrite length_app. cbn. intros Hl. f_equal. apply IH2. unfold zlen. lia.
      * split; [by apply sublist_inserts_r|]. unfold zlen in *. rewrite length_app. cbn. intros Hl.
        rewrite <- IH2 in Hl by lia. rewrite length_app in Hl. lia.
  - unfold on_connect. cbn. by rewrite app_nil_r.
  - unfold on_timer, connect. cbn. by case_match.
Qed.

Definition example_reject (n : Z) : IpcMessage :=
  IpcReject {| re_user := js "alice@example.com"; re_workerName := js "rig"; re_reason := RLowDiff; re_diff := n1; re_timestampMs := n |}.

(** Two events in three chunks, the first cut in the middle of a line. *)
Definition example_chunks : list jsstr :=
  let s := message_line (example_reject 1) ++ message_line (example_reject 2) in
  [take 30 s; take 100 (drop 30 s); drop 100 (drop 30 s)].

Lemma ipc_framing_witness :
  handle_all (S := nat) (fun _ => modify Datatypes.S) example_chunks [] 0%nat =
    (_ ← for_each (fun m => handle_line (fun _ => modify Datatypes.S) (message_json m)) [example_reject 1; example_reject 2];
     mret []) 0%nat.
Proof.
  apply ipc_framing. unfold example_chunks. cbn [map concat]. rewrite !app_nil_r. by rewrite !take_drop.
Defined.

Lemma ipc_client_order_witness :
  let c := on_connect (send (js "b") (on_timer (on_close (send (js "a") (connect new_IpcClient)) false))) in
  written c ++ buffered c = [js "a"; js "b"].
Proof.
  intros c. apply ipc_client_order; [|done].
  apply reach_connect; [|cbn; lia]. apply (reach_send [js "a"]). apply reach_timer; [|cbn; lia].
  apply reach_failed; [|cbn; lia]. apply (reach_send []). apply reach_start.
Defined.
