(* ===== verification/Ledger.v ===== *)
(** * The ledger of the pool daemon ([pool/src/pool/block-recorder.ts], [block-confirmer.ts],
      [pplns.ts], [payout-job.ts], [lib/pplns-math.ts], [lib/payout-readiness.ts],
      [lib/db.ts], [cli/recompute-pplns.ts])

    A found block is recorded, confirmed or orphaned as the node reports it, credited
    once to the users of the last N shares, and balances are paid out.  The tables are
    lists of rows; a statement is the function on them that it denotes, with the
    constraints of the schema as exceptions.

    The functions are asynchronous, and other work runs while they await the database, the
    node or the wallet.  Each is cut at its awaits: an inductive type names the awaits
    ([credit_at], [check_at], [record_at], [pay_at], [recompute_at]), and the function takes one of them, with
    what the code holds in its variables there, runs what is awaited and the code up to
    the next await, and answers where it is then ([None] when it has returned).  [world]
    has the answers of the outside to one step.  What [tx] brackets is taken as one step,
    at its commit. *)

From S2P Require Import Prelude JsString JsMap JsNumber JsRound JsFormat Effects Numeric Address Ipc.

(** ** Tables *)
Record user_row := {
  u_id : Z;
  u_email : jsstr;
  email_verified : bool;
  payout_address : option jsstr;
  minimum_payout : numeric
}.
Record worker_row := {
  w_id : Z;
  w_user : Z;
  w_name : jsstr;
  last_seen_at : option Z;
  last_difficulty : option jsnum;
  rejected_duplicate : Z;
  rejected_low_diff : Z;
  rejected_invalid : Z;
  rejected_other : Z;
  last_reject : option (RejectReason * Z)
}.
Record share_row := {
  sh_id : Z;
  sh_user : Z;
  sh_worker : Z;
  sh_diff : jsnum;
  sh_isBlock : bool;
  sh_blockHash : option jsstr;
  submitted_at : Z
}.
Record block_row := {
  b_id : Z;
  b_height : Z;
  b_hash : jsstr;
  finder_user_id : option Z;
  finder_worker_id : option Z;
  reward_b3c : numeric;
  pool_fee_b3c : numeric;
  confirmations : Z;
  is_confirmed : bool;
  is_orphan : bool;
  pplns_credited : bool;
  found_at : Z
}.
Inductive entry_kind := K_credit | K_debit.
Record entry_row := { e_user : Z; e_block : option Z; e_payout : option Z; delta_b3c : numeric; e_kind : entry_kind }.
Record payout_row := { p_id : Z; p_txid : jsstr; total_b3c : numeric }.
Record recipient_row := { r_payout : Z; r_user : Z; r_address : jsstr; r_amount : numeric }.

Record signature_row := {
  sg_share : option Z;
  sg_user : option Z;
  sg_worker : option Z;
  sg_attest : ShareAttest;
  sg_submitted_at : Z
}.
Record bucket_row := { hb_user : Z; hb_at : Z; hb_hashrate : jsnum; hb_shares : Z }.
Record pool_bucket_row := { pb_at : Z; pb_hashrate : jsnum; pb_shares : Z; pb_miners : Z }.

(** The tables that the share writer fills. *)
Record share_tables := {
  workers : list worker_row;
  shares : list share_row;
  signatures : list signature_row;
  hashrate_buckets : list bucket_row;
  pool_hashrate_buckets : list pool_bucket_row;
  next_worker : Z;
  next_share : Z
}.

(** The database, and the transactions that the wallet has sent. *)
Record ledger := {
  users : list user_row;
  tables :> share_tables;
  blocks : list block_row;
  entries : list entry_row;
  payouts : list payout_row;
  recipients : list recipient_row;
  next_block : Z;
  next_payout : Z;
  sent : list (jsstr * list (jsstr * jsnum))
}.

Definition set_blocks (bs : list block_row) (n : Z) (d : ledger) : ledger := {|
  users := users d; tables := tables d; blocks := bs; entries := entries d;
  payouts := payouts d; recipients := recipients d; next_block := n; next_payout := next_payout d; sent := sent d |}.
Definition set_entries (es : list entry_row) (d : ledger) : ledger := {|
  users := users d; tables := tables d; blocks := blocks d; entries := es;
  payouts := payouts d; recipients := recipients d; next_block := next_block d; next_payout := next_payout d; sent := sent d |}.
Definition set_payouts (ps : list payout_row) (rs : list recipient_row) (n : Z) (d : ledger) : ledger := {|
  users := users d; tables := tables d; blocks := blocks d; entries := entries d;
  payouts := ps; recipients := rs; next_block := next_block d; next_payout := n; sent := sent d |}.
Definition add_sent (txid : jsstr) (targets : list (jsstr * jsnum)) (d : ledger) : ledger := {|
  users := users d; tables := tables d; blocks := blocks d; entries := entries d;
  payouts := payouts d; recipients := recipients d; next_block := next_block d; next_payout := next_payout d;
  sent := sent d ++ [(txid, targets)] |}.

Definition update_block (id : Z) (f : block_row -> block_row) : eff ledger unit :=
  modify (fun d => set_blocks ((fun b => if b_id b =? id then f b else b) <$> blocks d) (next_block d) d).

Definition set_orphan (n : Z) (b : block_row) : block_row := {|
  b_id := b_id b; b_height := b_height b; b_hash := b_hash b; finder_user_id := finder_user_id b;
  finder_worker_id := finder_worker_id b; reward_b3c := reward_b3c b; pool_fee_b3c := pool_fee_b3c b; confirmations := n;
  is_confirmed := is_confirmed b; is_orphan := true; pplns_credited := pplns_credited b; found_at := found_at b |}.
Definition set_confirmations (n : Z) (b : block_row) : block_row := {|
  b_id := b_id b; b_height := b_height b; b_hash := b_hash b; finder_user_id := finder_user_id b;
  finder_worker_id := finder_worker_id b; reward_b3c := reward_b3c b; pool_fee_b3c := pool_fee_b3c b; confirmations := n;
  is_confirmed := is_confirmed b; is_orphan := is_orphan b; pplns_credited := pplns_credited b; found_at := found_at b |}.
Definition set_confirmed (b : block_row) : block_row := {|
  b_id := b_id b; b_height := b_height b; b_hash := b_hash b; finder_user_id := finder_user_id b;
  finder_worker_id := finder_worker_id b; reward_b3c := reward_b3c b; pool_fee_b3c := pool_fee_b3c b;
  confirmations := confirmations b; is_confirmed := true; is_orphan := is_orphan b; pplns_credited := pplns_credited b;
  found_at := found_at b |}.
Definition set_credited (c : bool) (fee : numeric) (b : block_row) : block_row := {|
  b_id := b_id b; b_height := b_height b; b_hash := b_hash b; finder_user_id := finder_user_id b;
  finder_worker_id := finder_worker_id b; reward_b3c := reward_b3c b; pool_fee_b3c := fee; confirmations := confirmations b;
  is_confirmed := is_confirmed b; is_orphan := is_orphan b; pplns_credited := c; found_at := found_at b |}.

(** The foreign key of [balance_entries.user_id]. *)
Definition insert_entry (e : entry_row) : eff ledger unit :=
  d ← get;
  if bool_decide (e_user e ∈ u_id <$> users d) then modify (fun d => set_entries (entries d ++ [e]) d)
  else throw "violates foreign key constraint".

(** [SELECT SUM(delta_b3c) ... WHERE user_id = $1], 0 when there is no row. *)
Definition balance (d : ledger) (uid : Z) : numeric :=
  numeric_sum (delta_b3c <$> filter (fun e => e_user e = uid) (entries d)).

(** ** db.ts

    A statement or a commit is done and answered; or the connection is lost before it takes
    effect; or after, so that it is done and the caller gets an exception all the same. *)
Inductive outcome := Answered | Lost | Unanswered.
#[export] Instance outcome_eq_dec : EqDecision outcome.
Proof. solve_decision. Defined.

Definition tx {A} (c : outcome) (fn : eff ledger A) : eff ledger A := fun s =>
  match fn s with
  | (Ok a, s') => match c with
                  | Answered => (Ok a, s')
                  | Lost => (Throw "connection terminated", s)
                  | Unanswered => (Throw "connection terminated", s')
                  end
  | (Throw e, _) => (Throw e, s)
  end.
(** One statement, which is a transaction of its own. *)
Definition query {A} (c : outcome) (stmt : eff ledger A) : eff ledger A := tx c stmt.

(** Text parameters: PostgreSQL has no NUL in a text. *)
Definition pg_texts (l : list jsstr) : eff ledger unit :=
  when (existsb (includes 0) l) (throw "invalid byte sequence for encoding UTF8: 0x00").

(** ** The outside world

    [getBlock] answers [None] for a block that the node does not know;
    [getrawtransaction] the outputs, and their values where present.  The wallet may send
    although the call fails. *)
Record block_info := { info_height : option Z; info_tx : option (list jsstr); info_confirmations : Z }.
Inductive send_answer := Sent (txid : jsstr) | NotSent | SentUnanswered (txid : jsstr).
Record world := {
  db_answer : outcome;
  now : Z;
  getBlock : jsstr -> res (option block_info);
  getrawtransaction : jsstr -> jsstr -> res (option (list (option jsnum)));
  walletBalance : res jsnum;
  sendMany : list (jsstr * jsnum) -> send_answer
}.

(** ** Configuration *)
Record pool_config := {
  feePercent : jsnum;
  pplnsNShares : nat;
  blockConfirmations : Z;
  cfg_network : network_t
}.

Section Daemon.
Context (cfg : pool_config).

(** ** pplns-math.ts *)

(** The sums of the loop: all shares, and those of one user. *)
Definition credit_sums (uid : Z) (l : list (Z * jsnum)) : jsnum * jsnum :=
  foldl (fun '(sum, mine) '(u, d) =>
    if negb (isFinite d) || nle d n0 then (sum, mine)
    else (nadd sum d, if u =? uid then nadd mine d else mine)) (n0, n0) l.

Definition userCreditFromShares (l : list (Z * jsnum)) (uid : Z) (reward fee : jsnum) : jsnum :=
  if negb (isFinite reward) || nle reward n0 then n0
  else
    let '(sum, mine) := credit_sums uid l in
    if nle sum n0 || nle mine n0 then n0
    else
      let distributable := nsub reward (nmul reward (ndiv fee (num_of_Z 100))) in
      let amount := nmul (ndiv mine sum) distributable in
      if negb (isFinite amount) || nle amount n0 then n0 else Number_toFixed8 amount.

(** ** pplns.ts *)

(** The last N shares at or before a time: newest first, the larger id first. *)
Definition last_shares (d : ledger) (t : Z) : list (Z * jsnum) :=
  (fun s => (sh_user s, sh_diff s)) <$>
    take (pplnsNShares cfg)
      (sort_by (fun s => - submitted_at s) (sort_by (fun s => - sh_id s) (filter (fun s => submitted_at s <= t) (shares d)))).

(** The totals of the users, in the order of their first shares, and the sum. *)
Definition share_totals (l : list (Z * jsnum)) : list (Z * jsnum) * jsnum :=
  foldl (fun '(totals, sum) '(uid, d) =>
    (map_set uid (nadd (default n0 (map_get uid totals)) d) totals, nadd sum d)) ([], n0) l.

(** What [creditPplns] has read of a block that it will credit. *)
Record credit_plan := { c_reward : jsnum; c_shares : list (Z * jsnum) }.

Definition gross_fee (reward : jsnum) : jsnum := nmul reward (ndiv (feePercent cfg) (num_of_Z 100)).

(** One user's row, if the rounded amount is not zero. *)
Definition credit_user (blockId : Z) (sum distributable : jsnum) (t : Z * jsnum) : eff ledger unit :=
  let share := nmul (ndiv t.2 sum) distributable in
  let rounded := Number_toFixed8 share in
  if nle rounded n0 then mret tt
  else
    amount ← lift (to_numeric rounded);
    insert_entry {| e_user := t.1; e_block := Some blockId; e_payout := None; delta_b3c := amount; e_kind := K_credit |}.

Definition write_credit (c : outcome) (blockId : Z) (p : credit_plan) : eff ledger unit :=
  match c_shares p with
  | [] => tx c (fee ← lift (to_numeric (c_reward p)); update_block blockId (set_credited true fee))
  | l =>
      let grossFee := gross_fee (c_reward p) in
      let distributable := nsub (c_reward p) grossFee in
      let '(totals, sum) := share_totals l in
      tx c (
        _ ← for_each (credit_user blockId sum distributable) totals;
        fee ← lift (to_numeric grossFee);
        update_block blockId (set_credited true fee))
  end.

(** [SELECT ... WHERE id = $1 AND is_confirmed = TRUE AND is_orphan = FALSE LIMIT 1]. *)
Definition select_confirmed (blockId : Z) : eff ledger (option block_row) :=
  d ← get; mret (arr_find (fun b => (b_id b =? blockId) && is_confirmed b && negb (is_orphan b)) (blocks d)).

(** The awaits: the row of the block, the shares, the transaction. *)
Inductive credit_at := CrBlock | CrShares (b : block_row) | CrWrite (p : credit_plan).

Definition creditPplns (c : outcome) (blockId : Z) (k : credit_at) : eff ledger (option credit_at) :=
  match k with
  | CrBlock =>
      row ← query c (select_confirmed blockId);
      match row with
      | None => mret None
      | Some b => mret (if pplns_credited b then None else Some (CrShares b))
      end
  | CrShares b =>
      l ← query c (d ← get; mret (last_shares d (found_at b)));
      mret (Some (CrWrite {| c_reward := of_numeric (reward_b3c b); c_shares := l |}))
  | CrWrite p => _ ← write_credit c blockId p; mret None
  end.

Definition previewImmatureB3c (d : ledger) (uid : Z) : jsnum :=
  let rows := sort_by b_id (filter (fun b => is_confirmed b = false /\ is_orphan b = false) (blocks d)) in
  let total := foldl (fun t b => nadd t
    (userCreditFromShares (last_shares d (found_at b)) uid (of_numeric (reward_b3c b)) (feePercent cfg))) n0 rows in
  Number_toFixed8 total.

(** Per user: the difficulty and the part of the window. *)
Definition projectedPplns (d : ledger) (now : Z) : list (Z * (jsnum * jsnum)) :=
  let '(totals, sum) := share_totals (last_shares d now) in
  if neq sum n0 then [] else (fun '(uid, x) => (uid, (x, ndiv x sum))) <$> totals.

(** ** block-recorder.ts *)

(** [INSERT INTO blocks]; its hashes are unique. *)
Definition insert_block (height : Z) (hash : jsstr) (finder worker : option Z) (reward : numeric) (foundAt : Z) : eff ledger unit :=
  d ← get;
  if bool_decide (hash ∈ b_hash <$> blocks d) then throw "duplicate key value violates unique constraint"
  else modify (fun d => set_blocks (blocks d ++ [{|
    b_id := next_block d; b_height := height; b_hash := hash; finder_user_id := finder;
    finder_worker_id := worker; reward_b3c := reward; pool_fee_b3c := Some 0; confirmations := 0;
    is_confirmed := false; is_orphan := false; pplns_credited := false; found_at := foundAt |}])
    (next_block d + 1) d).

(** The awaits: is it recorded, the block, its first transaction, the user, the worker, the
    row. *)
Inductive record_at :=
| RcExisting
| RcInfo
| RcReward (height : Z) (txid : jsstr)
| RcFinder (height : Z) (reward : jsnum)
| RcWorker (height : Z) (reward : jsnum) (finderId : Z)
| RcInsert (height : Z) (reward : jsnum) (finderId workerId : option Z).

(** Up to the first await: the hash of the block to record. *)
Definition block_to_record (s : ShareEvent) : option jsstr :=
  match se_isBlock s, se_blockHash s with
  | true, Some ((_ :: _) as hash) => Some hash
  | _, _ => None
  end.

Definition recordFoundBlock (o : world) (s : ShareEvent) (hash : jsstr) (k : record_at) : eff ledger (option record_at) :=
  match k with
  | RcExisting =>
      known ← query (db_answer o) (_ ← pg_texts [hash]; d ← get; mret (bool_decide (hash ∈ b_hash <$> blocks d)));
      mret (if known : bool then None else Some RcInfo)
  | RcInfo =>
      let info := match getBlock o hash with Ok i => i | Throw _ => None end in
      let height := default (default 0 (se_blockHeight s)) (info ≫= info_height) in
      mret (Some (match info ≫= info_tx with
                  | Some (((_ :: _) as txid) :: _) => RcReward height txid
                  | _ => RcFinder height n0
                  end))
  | RcReward height txid =>
      let vout := match getrawtransaction o txid hash with Ok v => default [] v | Throw _ => [] end in
      mret (Some (RcFinder height (foldl (fun r v => nadd r (default n0 v)) n0 vout)))
  | RcFinder height reward =>
      finder ← query (db_answer o) (_ ← pg_texts [se_user s]; d ← get;
        mret (u_id <$> arr_find (fun u => bool_decide (u_email u = se_user s)) (users d)));
      mret (Some (match finder with
                  | Some uid => RcWorker height reward uid
                  | None => RcInsert height reward None None
                  end))
  | RcWorker height reward uid =>
      worker ← query (db_answer o) (_ ← pg_texts [se_workerName s]; d ← get;
        mret (w_id <$> arr_find (fun w => (w_user w =? uid) && bool_decide (w_name w = se_workerName s)) (workers (tables d))));
      mret (Some (RcInsert height reward (Some uid) worker))
  | RcInsert height reward finderId workerId =>
      _ ← query (db_answer o) (reward ← lift (to_numeric reward); insert_block height hash finderId workerId reward (se_timestampMs s));
      mret None
  end.

(** ** block-confirmer.ts *)

(** The awaits of [checkOne]: the block, the three updates, the credit. *)
Inductive check_at := ChInfo | ChOrphan (n : Z) | ChCount (n : Z) | ChConfirm | ChCredit (k : credit_at).

Definition checkOne (o : world) (id : Z) (hash : jsstr) (k : check_at) : eff ledger (option check_at) :=
  match k with
  | ChInfo =>
      info ← lift (getBlock o hash);
      mret (Some (match info with
                  | None => ChOrphan 0
                  | Some info => if info_confirmations info <? 0 then ChOrphan (info_confirmations info)
                                 else ChCount (info_confirmations info)
                  end))
  | ChOrphan n => _ ← query (db_answer o) (update_block id (set_orphan n)); mret None
  | ChCount n =>
      _ ← query (db_answer o) (update_block id (set_confirmations n));
      mret (if blockConfirmations cfg <=? n then Some ChConfirm else None)
  | ChConfirm => _ ← query (db_answer o) (update_block id set_confirmed); mret (Some (ChCredit CrBlock))
  | ChCredit k => k ← creditPplns (db_answer o) id k; mret (ChCredit <$> k)
  end.

(** The rows of a tick: ids and hashes. *)
Definition confirmer_rows (d : ledger) : list (Z * jsstr) :=
  (fun b => (b_id b, b_hash b)) <$>
    take 200 (sort_by b_id (filter (fun b => is_confirmed b = false /\ is_orphan b = false) (blocks d))).

(** ** payout-job.ts *)
Record debit := { d_user : Z; d_amount : jsnum; d_address : jsstr }.

(** The accumulators of the loop over the candidates. *)
Record payout_plan := { targets : list (jsstr * jsnum); debits : list debit; total : jsnum }.

(** [SELECT ... WHERE u.email_verified AND u.payout_address IS NOT NULL ORDER BY u.id]. *)
Definition candidates (d : ledger) : list (user_row * jsstr) :=
  omap (fun u => addr ← payout_address u; if email_verified u then Some (u, addr) else None) (sort_by u_id (users d)).

Definition plan_one (d : ledger) (p : payout_plan) (c : user_row * jsstr) : payout_plan :=
  let '(u, addr) := c in
  let bal := of_numeric (balance d (u_id u)) in
  let min := of_numeric (minimum_payout u) in
  if nlt bal min || nle bal n0 then p
  else if negb (isValidB3AddressForNetwork addr (cfg_network cfg)) then p
  else
    let amount := Number_toFixed8 bal in
    {| targets := map_set addr (nadd (default n0 (map_get addr (targets p))) amount) (targets p);
       debits := debits p ++ [{| d_user := u_id u; d_amount := amount; d_address := addr |}];
       total := nadd (total p) amount |}.

Definition plan_payouts (d : ledger) : payout_plan :=
  foldl (plan_one d) {| targets := []; debits := []; total := n0 |} (candidates d).

(** [INSERT INTO payout_recipients], whose primary key is the payout and the user. *)
Definition insert_recipient (r : recipient_row) : eff ledger unit :=
  d ← get;
  if negb (bool_decide (r_user r ∈ u_id <$> users d)) then throw "violates foreign key constraint"
  else if bool_decide ((r_payout r, r_user r) ∈ (fun x => (r_payout x, r_user x)) <$> recipients d) then throw "duplicate key"
  else modify (fun d => set_payouts (payouts d) (recipients d ++ [r]) (next_payout d) d).

Definition write_debit (payoutId : Z) (x : debit) : eff ledger unit :=
  amount ← lift (to_numeric (d_amount x));
  _ ← insert_recipient {| r_payout := payoutId; r_user := d_user x; r_address := d_address x; r_amount := amount |};
  delta ← lift (to_numeric (SFopp (d_amount x)));
  insert_entry {| e_user := d_user x; e_block := None; e_payout := Some payoutId; delta_b3c := delta; e_kind := K_debit |}.

Definition write_payout (c : outcome) (txid : jsstr) (p : payout_plan) : eff ledger unit :=
  tx c (
    tot ← lift (to_numeric (total p));
    d ← get;
    let payoutId := next_payout d in
    _ ← modify (fun d => set_payouts (payouts d ++ [{| p_id := payoutId; p_txid := txid; total_b3c := tot |}])
                           (recipients d) (payoutId + 1) d);
    for_each (write_debit payoutId) (debits p)).

(** The argument of [sendMany]. *)
Definition send_targets (p : payout_plan) : list (jsstr * jsnum) := prod_map id Number_toFixed8 <$> targets p.

(** The awaits: the candidates, the wallet's balance, the payment, the transaction that
    records it, the mails. *)
Inductive pay_at :=
| PyCandidates
| PyWallet (p : payout_plan)
| PySend (p : payout_plan)
| PyRecord (txid : jsstr) (p : payout_plan)
| PyMails (p : payout_plan).

Definition doPayouts (o : world) (k : pay_at) : eff ledger (option pay_at) :=
  match k with
  | PyCandidates =>
      p ← query (db_answer o) (d ← get; mret (plan_payouts d));
      mret (match debits p with [] => None | _ => Some (PyWallet p) end)
  | PyWallet p =>
      mret (match walletBalance o with
            | Throw _ => None
            | Ok walletBal => if nlt walletBal (total p) then None else Some (PySend p)
            end)
  | PySend p =>
      match sendMany o (send_targets p) with
      | Sent txid => _ ← modify (add_sent txid (send_targets p)); mret (Some (PyRecord txid p))
      | NotSent => mret None
      | SentUnanswered txid => _ ← modify (add_sent txid (send_targets p)); mret None
      end
  | PyRecord txid p => _ ← write_payout (db_answer o) txid p; mret (Some (PyMails p))
  | PyMails _ => mret None
  end.

(** ** cli/recompute-pplns.ts, for one block id *)
Inductive recompute_at := ReDelete | ReReset | ReCredit (k : credit_at).

Definition recompute (c : outcome) (blockId : Z) (k : recompute_at) : eff ledger (option recompute_at) :=
  match k with
  | ReDelete =>
      _ ← query c (modify (fun d => set_entries (filter (fun e => ~ (e_block e = Some blockId /\ e_payout e = None)) (entries d)) d));
      mret (Some ReReset)
  | ReReset =>
      _ ← query c (update_block blockId (fun b => set_credited false (pool_fee_b3c b) b));
      mret (Some (ReCredit CrBlock))
  | ReCredit k => k ← creditPplns c blockId k; mret (ReCredit <$> k)
  end.
End Daemon.

(** ** payout-readiness.ts *)
Inductive PayoutBlocker := not_verified | no_address | invalid_address | below_minimum | eligible.
#[export] Instance PayoutBlocker_eq_dec : EqDecision PayoutBlocker.
Proof. solve_decision. Defined.

Record PayoutReadinessInput := {
  emailVerified : bool;
  payoutAddress : option jsstr;
  ri_balance : jsnum;
  ri_minimum : jsnum;
  ri_network : network_t
}.
Record PayoutReadiness := { code : PayoutBlocker; message : jsstr }.

Definition payoutReadiness (i : PayoutReadinessInput) : PayoutReadiness :=
  if negb (emailVerified i) then {| code := not_verified; message := js "Verify your email before a payout can be sent." |}
  else
    let addr := trim (default [] (payoutAddress i)) in
    if bool_decide (addr = []) then {| code := no_address; message := js "Set a payout address in Settings." |}
    else if negb (isValidB3AddressForNetwork addr (ri_network i)) then
      {| code := invalid_address; message := js "The payout address is not valid for this network." |}
    else if negb (isFinite (ri_balance i)) || nle (ri_balance i) n0 || nlt (ri_balance i) (ri_minimum i) then
      {| code := below_minimum;
         message := js "Balance is below the " ++ toFixed 2 (ri_minimum i) ++
           js " B3C minimum. The hourly job skips this account until it reaches that amount." |}
    else {| code := eligible; message := js "Eligible on the next hourly payout run." |}.

(** What the payouts page of [web/routes/dashboard.ts] shows to a user. *)
Definition readiness_of (cfg : pool_config) (d : ledger) (u : user_row) : PayoutReadiness :=
  let spendable := of_numeric (balance d (u_id u)) in
  payoutReadiness {| emailVerified := email_verified u; payoutAddress := payout_address u; ri_balance := spendable;
                     ri_minimum := of_numeric (minimum_payout u); ri_network := cfg_network cfg |}.

(** ** event-cursor.ts *)
Definition consumeNew {A} (id_of : A -> Z) (cursor : Z) (rows : list A) : Z * list A :=
  let fresh := filter (fun r => cursor < id_of r) rows in
  (foldl (fun m r => if m <? id_of r then id_of r else m) cursor fresh, fresh).
