(* ===== verification/LedgerProofs.v ===== *)
(** * The ledger: theorems

    Payouts settle exactly what the ledger owes; the preview of a credit is the credit;
    credits of a block add up to at most its reward, up to rounding; every block is
    credited at most once by the daemon. *)

From S2P Require Import Prelude JsString JsMap JsNumber JsRound JsFormat Effects Numeric Address Ipc Ledger.

(** ** Payouts *)
Section Payouts.
Context (cfg : pool_config).
Implicit Types (d : ledger) (u : user_row) (x : debit).

(** Balances and minimums are decimals of at most [2^52] units: 45 million coins. *)
Definition amounts_ok d : Prop := forall u, u ∈ users d ->
  (exists b, balance d (u_id u) = Some b /\ -(2 ^ 52) < b < 2 ^ 52) /\ (exists m, minimum_payout u = Some m /\ 0 <= m < 2 ^ 52).

(** Who is to be paid, in units: a positive balance that reaches the minimum, a verified
    mail address, a valid payout address. *)
Definition due d u : bool :=
  match balance d (u_id u), minimum_payout u, payout_address u with
  | Some b, Some m, Some addr =>
      email_verified u && isValidB3AddressForNetwork addr (cfg_network cfg) && (m <=? b) && (0 <? b)
  | _, _, _ => false
  end.

(** The debit of a candidate. *)
Definition debit_of d (c : user_row * jsstr) : option debit :=
  let bal := of_numeric (balance d (u_id c.1)) in
  if nlt bal (of_numeric (minimum_payout c.1)) || nle bal n0 then None
  else if negb (isValidB3AddressForNetwork c.2 (cfg_network cfg)) then None
  else Some {| d_user := u_id c.1; d_amount := Number_toFixed8 bal; d_address := c.2 |}.

Definition add_target (t : list (jsstr * jsnum)) x : list (jsstr * jsnum) :=
  map_set (d_address x) (nadd (default n0 (map_get (d_address x) t)) (d_amount x)) t.

Lemma plan_payouts_debits d : debits (plan_payouts cfg d) = omap (debit_of d) (candidates d) /\
  targets (plan_payouts cfg d) = foldl add_target [] (debits (plan_payouts cfg d)).
Proof.
  unfold plan_payouts. set (p0 := {| targets := []; debits := []; total := n0 |}).
  assert (targets p0 = foldl add_target [] (debits p0)) as H0 by done.
  change (omap (debit_of d) (candidates d)) with (debits p0 ++ omap (debit_of d) (candidates d)).
  clearbody p0. revert p0 H0. induction (candidates d) as [|[u addr] l IH]; intros p H0; cbn [foldl omap list_omap].
  { by rewrite app_nil_r. }
  unfold plan_one at 2 4 6. unfold debit_of at 1. cbn [fst snd]. case_match; [by apply IH|]. case_match; [by apply IH|].
  set (q := Build_payout_plan _ _ _). destruct (IH q) as [IH1 IH2].
  { cbn [targets debits q]. rewrite foldl_app. cbn [foldl]. by rewrite <- H0. }
  split; [|exact IH2]. rewrite IH1. cbn [debits q]. by rewrite <- app_assoc.
Qed.

(** A debit of exactly [b] units. *)
Definition debit_ok x (b : Z) : Prop := 0 <= b < 2 ^ 52 /\ fin (d_amount x) (units_val b).

Lemma debit_of_due d u addr : u ∈ users d -> amounts_ok d -> payout_address u = Some addr -> email_verified u = true ->
  if due d u then exists x b, debit_of d (u, addr) = Some x /\ d_user x = u_id u /\ d_address x = addr /\
    balance d (u_id u) = Some b /\ debit_ok x b
  else debit_of d (u, addr) = None.
Proof.
  intros Hu Hok Ha Hv. destruct (Hok u Hu) as [(b & Eb & Hb) (m & Em & Hm)]. unfold due, debit_of. cbn [fst snd].
  rewrite Eb, Em, Ha, Hv. cbn [andb]. rewrite of_numeric_le0 by done.
  destruct (Z.leb_spec b 0) as [Hle|Hgt].
  { rewrite orb_true_r. destruct (Z.ltb_spec 0 b); [lia|]. by rewrite andb_false_r. }
  rewrite of_numeric_lt by lia. rewrite orb_false_r. destruct (Z.ltb_spec 0 b); [|lia]. rewrite andb_true_r.
  destruct (isValidB3AddressForNetwork _ _), (Z.ltb_spec b m), (Z.leb_spec m b); try lia; cbn [andb negb]; try done.
  eexists _, b. do 4 (split; [done|]). split; [lia|]. cbn [d_amount]. apply Number_toFixed8_val; [lia|]. apply of_numeric_fin. lia.
Qed.

(** ** Writing a payout *)
Definition debit_entry (pid : Z) x : entry_row := {|
  e_user := d_user x; e_block := None; e_payout := Some pid; delta_b3c := Some (- fixed_units 8 (d_amount x)); e_kind := K_debit |}.
Definition debit_recipient (pid : Z) x : recipient_row := {|
  r_payout := pid; r_user := d_user x; r_address := d_address x; r_amount := Some (fixed_units 8 (d_amount x)) |}.

Lemma write_debit_spec pid x b d : debit_ok x b -> forall d', write_debit pid x d = (Ok tt, d') ->
  users d' = users d /\ sent d' = sent d /\ entries d' = entries d ++ [debit_entry pid x] /\
  recipients d' = recipients d ++ [debit_recipient pid x].
Proof.
  intros [Hb Hx] d'. unfold write_debit, debit_entry, debit_recipient. rewrite (fixed_units_val (d_amount x) b) by done.
  rewrite (to_numeric_val (d_amount x) b), (to_numeric_opp (d_amount x) b) by done. unfold insert_recipient, insert_entry. eff_simpl.
  cbn [r_user r_payout e_user]. repeat case_match; intros E; by simplify_eq.
Qed.

Lemma write_debits_spec pid xs d d' : Forall (fun x => exists b, debit_ok x b) xs -> for_each (write_debit pid) xs d = (Ok tt, d') ->
  sent d' = sent d /\ entries d' = entries d ++ (debit_entry pid <$> xs) /\
  recipients d' = recipients d ++ (debit_recipient pid <$> xs).
Proof.
  intros Hxs. revert d. induction Hxs as [|x xs [b Hx] Hxs IH]; intros d; cbn [for_each fmap list_fmap].
  { intros [= <-]. by rewrite !app_nil_r. }
  eff_simpl. destruct (write_debit pid x d) as [[[]|] d1] eqn:E; [|done]. intros H.
  destruct (write_debit_spec _ _ _ _ Hx _ E) as (E1 & E2 & E3 & E4). destruct (IH _ H) as (-> & -> & ->).
  rewrite E2, E3, E4. by rewrite <- !app_assoc.
Qed.

(** ** Balances *)
Definition deltas (uid : Z) (es : list entry_row) : numeric := numeric_sum (delta_b3c <$> filter (fun e => e_user e = uid) es).

Lemma balance_app d d' es uid : entries d' = entries d ++ es -> balance d' uid = numeric_add (balance d uid) (deltas uid es).
Proof. intros E. unfold balance, deltas. rewrite E. by rewrite filter_app, fmap_app, numeric_sum_app. Qed.

Lemma numeric_add_0 n : numeric_add n (Some 0) = n.
Proof. destruct n; cbn; [f_equal; lia|done]. Qed.

Lemma deltas_cons uid e es : deltas uid (e :: es) = numeric_add (if bool_decide (e_user e = uid) then delta_b3c e else Some 0) (deltas uid es).
Proof.
  unfold deltas. change (e :: es) with ([e] ++ es). rewrite filter_app, fmap_app, numeric_sum_app. f_equal.
  rewrite filter_cons, filter_nil. case_decide; case_bool_decide; try done. cbn. by destruct (delta_b3c e).
Qed.

Lemma deltas_debits pid xs uid : NoDup (d_user <$> xs) ->
  (uid ∉ d_user <$> xs -> deltas uid (debit_entry pid <$> xs) = Some 0) /\
  (forall x, x ∈ xs -> d_user x = uid -> deltas uid (debit_entry pid <$> xs) = Some (- fixed_units 8 (d_amount x))).
Proof.
  induction xs as [|y xs IH]; cbn [fmap list_fmap].
  { intros _. split; [done|]. intros x Hx. by apply elem_of_nil in Hx. }
  rewrite NoDup_cons. intros [Hy Hnd]. destruct (IH Hnd) as [IH1 IH2]. rewrite deltas_cons. cbn [e_user debit_entry delta_b3c].
  split.
  - rewrite not_elem_of_cons. intros [Hne Hn]. rewrite bool_decide_false by done. by rewrite IH1.
  - intros x Hx Hu. apply elem_of_cons in Hx as [->|Hx].
    + rewrite bool_decide_true by done. rewrite IH1 by (by rewrite <- Hu). apply numeric_add_0.
    + rewrite bool_decide_false; [by rewrite (IH2 x)|]. intros E. apply Hy. rewrite E, <- Hu. by apply list_elem_of_fmap_2.
Qed.

Lemma candidates_elem d u addr : (u, addr) ∈ candidates d <-> u ∈ users d /\ payout_address u = Some addr /\ email_verified u = true.
Proof.
  unfold candidates. rewrite list_elem_of_omap. split.
  - intros (v & Hv & E). apply sort_by_elem in Hv. destruct (payout_address v) as [a|] eqn:Ea; [|done]. cbn in E.
    destruct (email_verified v) eqn:Ev; [|done]. by simplify_eq.
  - intros (Hu & Ha & Hv). exists u. rewrite sort_by_elem, Ha. cbn. by rewrite Hv.
Qed.

Lemma debits_nodup d : NoDup (u_id <$> users d) -> NoDup (d_user <$> debits (plan_payouts cfg d)).
Proof.
  intros Hnd. rewrite (proj1 (plan_payouts_debits d)). apply (omap_nodup _ (fun c => u_id c.1)).
  { intros [u addr] x. unfold debit_of. repeat case_match; [done..|]. by intros [= <-]. }
  unfold candidates. apply (omap_nodup _ u_id); [|by rewrite sort_by_perm].
  intros u [u' addr]. destruct (payout_address u); [|done]. cbn. destruct (email_verified u); [|done]. by intros [= <- _].
Qed.

Lemma debits_due d : amounts_ok d -> Forall (fun x => exists u addr b, u ∈ users d /\ due d u = true /\ payout_address u = Some addr /\
  debit_of d (u, addr) = Some x /\ d_user x = u_id u /\ d_address x = addr /\ balance d (u_id u) = Some b /\ debit_ok x b)
  (debits (plan_payouts cfg d)).
Proof.
  intros Hok. rewrite (proj1 (plan_payouts_debits d)), list.Forall_forall. intros x Hx.
  apply list_elem_of_omap in Hx as ([u addr] & Hc & E). apply candidates_elem in Hc as (Hu & Ha & Hv).
  pose proof (debit_of_due d u addr Hu Hok Ha Hv) as H. destruct (due d u) eqn:Ed; [|congruence].
  destruct H as (x' & b & E' & H1 & H2 & H3 & H4). replace x' with x in * by congruence. exists u, addr, b. done.
Qed.

Lemma due_debit d u : u ∈ users d -> amounts_ok d -> due d u = true -> exists x addr b, x ∈ debits (plan_payouts cfg d) /\
  payout_address u = Some addr /\ d_user x = u_id u /\ d_address x = addr /\ balance d (u_id u) = Some b /\ debit_ok x b.
Proof.
  intros Hu Hok Hd. assert (exists addr, payout_address u = Some addr /\ email_verified u = true) as (addr & Ha & Hv).
  { unfold due in Hd. destruct (balance _ _), (minimum_payout u), (payout_address u) as [a|]; try done. exists a.
    split; [done|]. by destruct (email_verified u). }
  pose proof (debit_of_due d u addr Hu Hok Ha Hv) as H. rewrite Hd in H. destruct H as (x & b & E & H1 & H2 & H3 & H4).
  exists x, addr, b. split; [|done]. rewrite (proj1 (plan_payouts_debits d)), list_elem_of_omap. exists (u, addr).
  by rewrite candidates_elem.
Qed.

(** ** The amounts sent *)
Lemma targets_other ds t a : (forall y, y ∈ ds -> d_address y <> a) -> map_get a (foldl add_target t ds) = map_get a t.
Proof.
  revert t. induction ds as [|y ds IH]; intros t Hy; [done|]. cbn [foldl]. rewrite IH.
  - unfold add_target. apply map_set_other. intros E. by apply (Hy y); [left|].
  - intros z Hz. apply Hy. by right.
Qed.

Lemma fin_add_0 (x : jsnum) a : fin x a -> fin (nadd n0 x) a.
Proof.
  intros Hx. pose proof (nadd_val n0 x 0 a n0_fin Hx) as H. rewrite Z.add_0_l, (rnd_fin x a Hx) in H.
  apply finite_small_fin; [done|]. by eapply fin_bound.
Qed.

Lemma target_once ds x b : NoDup (d_user <$> ds) -> x ∈ ds -> (forall y, y ∈ ds -> d_address y = d_address x -> y = x) ->
  debit_ok x b -> exists v, map_get (d_address x) (foldl add_target [] ds) = Some v /\ fin v (units_val b).
Proof.
  intros Hnd Hx Hone [Hb Hfin]. apply list_elem_of_split in Hx as (l & r & ->).
  apply NoDup_fmap_1 in Hnd. apply NoDup_app in Hnd as (Hl & Hlr & Hr). apply NoDup_cons in Hr as [Hxr _].
  rewrite foldl_app. cbn [foldl]. rewrite targets_other.
  2: { intros y Hy E. apply Hxr. rewrite <- (Hone y); [done| |done]. rewrite elem_of_app, elem_of_cons. auto. }
  unfold add_target at 1. rewrite map_set_get, targets_other.
  2: { intros y Hy E. eapply (Hlr y Hy). rewrite (Hone y); [left| |done]. rewrite elem_of_app. auto. }
  eexists. split; [done|]. cbn [map_get default from_option id]. by apply fin_add_0.
Qed.

(** The transaction of a payout. *)
Lemma record_run o txid p d k d' : doPayouts cfg o (PyRecord txid p) d = (Ok k, d') ->
  exists d1 pid, for_each (write_debit pid) (debits p) d1 = (Ok tt, d') /\ entries d1 = entries d /\ recipients d1 = recipients d /\
    sent d1 = sent d.
Proof.
  cbn [doPayouts]. unfold write_payout, tx. eff_simpl. destruct (to_numeric _) as [tot|]; [|done]. set (d1 := set_payouts _ _ _ _).
  destruct (for_each _ _ _) as [[[]|] d2] eqn:Ef; [|done]. destruct (db_answer o); try done. intros [= <- <-].
  exists d1, (next_payout d). done.
Qed.
End Payouts.

(** C4: a payout settles the ledger exactly.  Follow a payout run that succeeds through its
    awaits: it reads the candidates in [d0], the wallet has enough in [d1], it pays in [d2] and records the
    payment in [d3], with any other work of the daemon in between.  For every user who was
    due when the candidates were read (verified, with a valid address and a positive balance
    that reaches the minimum), the whole balance of that time is taken off the balance at
    the time of the record, which leaves zero when nothing came in between, and a recipient
    row records it; every other balance is unchanged; and the transaction sent pays each due
    user whose address no other due user has exactly the old balance, to the last unit. *)
Theorem payout_settles cfg o0 o1 o2 o3 d0 d1 d2 d3 e0 e1 e2 d' p txid k :
  amounts_ok d0 -> NoDup (u_id <$> users d0) ->
  doPayouts cfg o0 PyCandidates d0 = (Ok (Some (PyWallet p)), e0) ->
  doPayouts cfg o1 (PyWallet p) d1 = (Ok (Some (PySend p)), e1) ->
  doPayouts cfg o2 (PySend p) d2 = (Ok (Some (PyRecord txid p)), e2) ->
  doPayouts cfg o3 (PyRecord txid p) d3 = (Ok k, d') ->
  sendMany o2 (send_targets p) = Sent txid /\ sent e2 = sent d2 ++ [(txid, send_targets p)] /\ sent d' = sent d3 /\
  forall u, u ∈ users d0 ->
    (due cfg d0 u = false -> balance d' (u_id u) = balance d3 (u_id u)) /\
    (due cfg d0 u = true -> exists old addr r, balance d0 (u_id u) = Some old /\
      balance d' (u_id u) = numeric_add (balance d3 (u_id u)) (Some (- old)) /\
      (balance d3 (u_id u) = balance d0 (u_id u) -> balance d' (u_id u) = Some 0) /\
      payout_address u = Some addr /\ r ∈ recipients d' /\ r_user r = u_id u /\ r_address r = addr /\ r_amount r = Some old /\
      ((forall v, v ∈ users d0 -> due cfg d0 v = true -> payout_address v = Some addr -> u_id v = u_id u) ->
       exists v, (addr, v) ∈ send_targets p /\ to_numeric v = Ok (Some old))).
Proof.
  intros Hok Hnd H0 H1 H2 H3. assert (p = plan_payouts cfg d0) as ->.
  { cbn [doPayouts] in H0. unfold query, tx in H0. revert H0. eff_simpl. destruct (db_answer o0); [|done..].
    destruct (debits _); [done|]. by intros [= <-]. }
  destruct (record_run _ _ _ _ _ _ _ H3) as (d4 & pid & Hf & E1 & E2 & E3).
  pose proof (debits_due cfg d0 Hok) as Hds. pose proof (debits_nodup cfg d0 Hnd) as Hdn.
  apply write_debits_spec in Hf as (W1 & W2 & W3).
  2: { eapply Forall_impl; [exact Hds|]. intros x (u & addr & b & Hx). exists b. apply Hx. }
  assert (sendMany o2 (send_targets (plan_payouts cfg d0)) = Sent txid /\
    sent e2 = sent d2 ++ [(txid, send_targets (plan_payouts cfg d0))]) as [Hs Es].
  { cbn [doPayouts] in H2. revert H2. destruct (sendMany o2 _); eff_simpl; [|done..]. by intros [= -> <-]. }
  split; [done|]. split; [done|]. split; [by rewrite W1|]. rewrite E1 in W2. intros u Hu. rewrite (balance_app _ _ _ _ W2).
  destruct (deltas_debits pid _ (u_id u) Hdn) as [D1 D2]. split; intros Hd.
  - rewrite D1; [apply numeric_add_0|]. rewrite list_elem_of_fmap. intros (x & E & Hx). rewrite list.Forall_forall in Hds.
    destruct (Hds x Hx) as (u' & addr & b & Hu' & Hd' & _ & _ & Ex & _). rewrite <- E in Ex.
    assert (u = u') by (by apply (nodup_inj u_id (users d0))). congruence.
  - destruct (due_debit cfg d0 u Hu Hok Hd) as (x & addr & b & Hx & Ha & Ex & Eaddr & Eb & Hb).
    pose proof Hb as [Hb1 Hb2]. rewrite (D2 x Hx Ex), Eb, (fixed_units_val _ b) by done.
    exists b, addr, (debit_recipient pid x). do 2 (split; [done|]). split; [intros ->; cbn; f_equal; lia|]. split; [done|]. split.
    { rewrite W3, elem_of_app. right. by apply list_elem_of_fmap_2. }
    cbn. rewrite (fixed_units_val _ b) by done. do 3 (split; [done|]). intros Hone.
    destruct (target_once (debits (plan_payouts cfg d0)) x b Hdn Hx) as (v & Hv & Hvf); [|done|].
    { intros y Hy Ey. rewrite list.Forall_forall in Hds. destruct (Hds y Hy) as (u' & a' & b' & Hu' & Hd' & Ha' & _ & Ey' & Eya & _).
      apply (nodup_inj d_user (debits (plan_payouts cfg d0))); [done..|]. rewrite Ey', Ex. apply Hone; [done|done|]. congruence. }
    exists (Number_toFixed8 v). split; [|apply to_numeric_val; [done|]; by apply Number_toFixed8_val].
    unfold send_targets. rewrite (proj2 (plan_payouts_debits cfg d0)), <- Eaddr.
    apply map_get_elem in Hv. by apply (list_elem_of_fmap_2 (prod_map id Number_toFixed8)) in Hv.
Qed.

(** The dashboard and the payout job agree.  For a user whose stored address has no space
    around it, as the web service stores it, the payouts page says that the next run will
    pay exactly when the job has a debit for that user. *)
Theorem readiness_is_due cfg d u addr :
  amounts_ok d -> NoDup (u_id <$> users d) -> u ∈ users d -> payout_address u = Some addr -> trim addr = addr ->
  (code (readiness_of cfg d u) = eligible <-> exists x, x ∈ debits (plan_payouts cfg d) /\ d_user x = u_id u).
Proof.
  intros Hok Hnd Hu Ha Ht. transitivity (due cfg d u = true).
  - destruct (Hok u Hu) as [(b & Eb & Hb) (m & Em & Hm)]. unfold readiness_of, payoutReadiness, due.
    cbn [emailVerified payoutAddress ri_balance ri_minimum ri_network]. rewrite Eb, Em, Ha. cbn [default from_option id]. rewrite Ht.
    destruct (email_verified u); cbn [negb andb]; [|done]. case_bool_decide as He; [by rewrite He|].
    destruct (isValidB3AddressForNetwork addr (cfg_network cfg)); cbn [negb andb]; [|done].
    rewrite of_numeric_le0 by done. destruct (Z.leb_spec b 0).
    + destruct (Z.ltb_spec 0 b); [lia|]. rewrite andb_false_r, orb_true_r. done.
    + destruct (Z.ltb_spec 0 b); [|lia]. rewrite (proj1 (of_numeric_fin b ltac:(lia))), of_numeric_lt by lia. cbn [negb orb].
      destruct (Z.ltb_spec b m), (Z.leb_spec m b); try lia; done.
  - split.
    + intros Hd. destruct (due_debit cfg d u Hu Hok Hd) as (x & a & b & Hx & _ & Ex & _). by exists x.
    + intros (x & Hx & Ex). pose proof (debits_due cfg d Hok) as Hds. rewrite list.Forall_forall in Hds.
      destruct (Hds x Hx) as (v & a & b & Hv & Hd & _ & _ & Ev & _).
      assert (v = u) as -> by (apply (nodup_inj u_id (users d)); [done..|congruence]). done.
Qed.
