(* ===== verification/PplnsProofs.v ===== *)
(** * PPLNS: what a block credits

    The credits of a block are computed in doubles: sums of difficulties, a quotient, a
    product, and a decimal rounding.  The preview of an immature block is what will be
    credited, and the credits of a block exceed what is to be distributed by at most half
    a unit per user. *)

From S2P Require Import Prelude JsString JsMap JsNumber JsRound JsFormat Effects Numeric Address Ipc Ledger LedgerProofs.

(** ** Relative errors *)
Lemma rnd_upper A B : 0 <= A -> 0 < B -> 2 ^ 54 * (rnd A B * B) <= 2 * (2 ^ 53 + 1) * A + 2 ^ 53 * B.
Proof.
  intros HA HB. pose proof (rnd_error A B HA HB) as He. pose proof (Z.div_pos A B HA HB) as Hd.
  assert (2 ^ 52 * 2 ^ quantum (A / B) <= 2 ^ 52 + A / B) as Hq.
  { destruct (quantum_floor (A / B) Hd) as [_ Hq]. pose proof (quantum_nonneg (A / B)).
    destruct (decide (quantum (A / B) = 0)) as [->|]; [lia|]. specialize (Hq ltac:(lia)).
    pose proof (quantum_pow_pos (A / B)). pose proof (Z.mul_div_le (A / B) (2 ^ quantum (A / B)) ltac:(lia)). nia. }
  pose proof (Z.mul_div_le A B HB). nia.
Qed.

(** Between integers the error is relative. *)
Lemma rnd_int_error A : 0 <= A -> 2 ^ 53 * Z.abs (rnd A 1 - A) <= A.
Proof.
  intros HA. pose proof (rnd_error A 1 HA ltac:(lia)) as He. rewrite Z.div_1_r, Z.mul_1_r, Z.mul_1_l in He.
  destruct (quantum_floor A HA) as [_ Hq]. pose proof (quantum_nonneg A).
  destruct (decide (quantum A = 0)) as [E|]; [rewrite E in He; lia|]. specialize (Hq ltac:(lia)).
  pose proof (quantum_pow_pos A). pose proof (Z.mul_div_le A (2 ^ quantum A) ltac:(lia)). nia.
Qed.

(** ** Sums of doubles *)
Definition nsum (l : list jsnum) : jsnum := foldl nadd n0 l.
Definition fsum (l : list Z) : Z := foldl (fun s a => rnd (s + a) 1) 0 l.
Definition zsum (l : list Z) : Z := foldr Z.add 0 l.

Lemma nsum_snoc l x : nsum (l ++ [x]) = nadd (nsum l) x.
Proof. unfold nsum. by rewrite foldl_app. Qed.
Lemma fsum_snoc l x : fsum (l ++ [x]) = rnd (fsum l + x) 1.
Proof. unfold fsum. by rewrite foldl_app. Qed.
Lemma zsum_app l k : zsum (l ++ k) = zsum l + zsum k.
Proof. unfold zsum. induction l; cbn; lia. Qed.
Lemma zsum_nonneg l : Forall (fun a => 0 <= a) l -> 0 <= zsum l.
Proof. unfold zsum. induction 1; cbn; lia. Qed.
Lemma fsum_nonneg l : Forall (fun a => 0 <= a) l -> 0 <= fsum l.
Proof.
  induction l as [|x l IH] using rev_ind; intros Hl; [done|]. apply Forall_app in Hl as [Hl [Hx _]%Forall_cons].
  rewrite fsum_snoc. apply rnd_nonneg; [|lia]. specialize (IH Hl). lia.
Qed.

(** One more rounded addition adds to the relative error. *)
Lemma upper_step P n s z x r : 0 < P -> 0 <= n -> 2 * n <= P -> 0 <= z -> 0 <= x ->
  P * (r - (s + x)) <= s + x -> P * s <= (P + 2 * n) * z -> P * r <= (P + 2 * (n + 1)) * (z + x).
Proof.
  intros HP Hn Hs Hz Hx Hr H. apply (Z.mul_le_mono_pos_l _ _ P HP).
  assert ((P + 1) * (P * s) <= (P + 1) * ((P + 2 * n) * z)) by (apply Z.mul_le_mono_nonneg_l; lia).
  assert (P * (P * r) <= (P + 1) * (P * s) + (P + 1) * P * x) by nia.
  assert ((P + 1) * (P + 2 * n) * z <= P * (P + 2 * (n + 1)) * z) by (apply Z.mul_le_mono_nonneg_r; nia).
  assert ((P + 1) * P * x <= P * (P + 2 * (n + 1)) * x) by (apply Z.mul_le_mono_nonneg_r; nia). nia.
Qed.

Lemma lower_step P n s z x r : 0 < P -> 0 <= n < P -> 0 <= z -> 0 <= x ->
  P * (s + x - r) <= s + x -> (P - n) * z <= P * s -> (P - (n + 1)) * (z + x) <= P * r.
Proof.
  intros HP Hn Hz Hx Hr H. apply (Z.mul_le_mono_pos_l _ _ P HP).
  assert ((P - 1) * ((P - n) * z) <= (P - 1) * (P * s)) by (apply Z.mul_le_mono_nonneg_l; lia).
  assert ((P - 1) * (P * s) + (P - 1) * P * x <= P * (P * r)) by nia.
  assert (P * (P - (n + 1)) * z <= (P - 1) * (P - n) * z) by (apply Z.mul_le_mono_nonneg_r; nia).
  assert (P * (P - (n + 1)) * x <= (P - 1) * P * x) by (apply Z.mul_le_mono_nonneg_r; nia). nia.
Qed.

Lemma fsum_bounds l : Forall (fun a => 0 <= a) l -> zlen l < 2 ^ 50 ->
  2 ^ 53 * fsum l <= (2 ^ 53 + 2 * zlen l) * zsum l /\ (2 ^ 53 - zlen l) * zsum l <= 2 ^ 53 * fsum l.
Proof.
  induction l as [|x l IH] using rev_ind; intros Hl Hn; [done|]. apply Forall_app in Hl as [Hl [Hx _]%Forall_cons].
  rewrite fsum_snoc, zsum_app. unfold zlen in *. rewrite length_app in *. cbn [length zsum foldr] in *.
  destruct (IH Hl ltac:(lia)) as [IH1 IH2]. pose proof (fsum_nonneg l Hl). pose proof (zsum_nonneg l Hl).
  pose proof (rnd_int_error (fsum l + x) ltac:(lia)) as He. rewrite Z.add_0_r, Nat2Z.inj_add.
  split; [apply (upper_step _ _ (fsum l))|apply (lower_step _ _ (fsum l))]; lia.
Qed.

(** ** The sums of the users *)
Definition num_units (x : jsnum) : Z := match x with S754_finite _ m e => Zpos m * 2 ^ (e + 1074) | _ => 0 end.
Definition all_diffs (l : list (Z * jsnum)) : list jsnum := l.*2.
Definition of_user (uid : Z) (l : list (Z * jsnum)) : list jsnum := (filter (fun p => p.1 = uid) l).*2.
Definition pos_shares (l : list (Z * jsnum)) : Prop := Forall (fun p => pos_num p.2) l.

Lemma fin_units x a : fin x a -> num_units x = a.
Proof. intros Hx. by destruct (fin_zero_or x a Hx) as [[-> ->]|(m & e & -> & _ & _ & ->)]. Qed.
Lemma pos_units x : pos_num x -> fin x (num_units x) /\ 0 < num_units x.
Proof. intros (a & Hx & Ha)%pos_num_fin. by rewrite (fin_units x a). Qed.

Lemma nadd_finite x y : isFinite (nadd x y) = true -> isFinite x = true.
Proof. destruct x as [|[]| |], y as [|[]| |[]]; done. Qed.

Lemma of_user_snoc uid l u x : of_user uid (l ++ [(u, x)]) = if bool_decide (u = uid) then of_user uid l ++ [x] else of_user uid l.
Proof.
  unfold of_user. rewrite filter_app, fmap_app. rewrite filter_cons, filter_nil. cbn [fst].
  case_decide; case_bool_decide; try done. by rewrite app_nil_r.
Qed.
Lemma of_user_none uid l : uid ∉ l.*1 -> of_user uid l = [].
Proof.
  unfold of_user. induction l as [|p l IH]; cbn [fmap list_fmap]; [done|]. rewrite not_elem_of_cons. intros [Hp Hl].
  rewrite filter_cons_False by congruence. by apply IH.
Qed.
Lemma all_snoc l (p : Z * jsnum) : all_diffs (l ++ [p]) = all_diffs l ++ [p.2].
Proof. unfold all_diffs. by rewrite fmap_app. Qed.

(** The sum is finite, so every partial sum is, and a user's sum is at most the sum. *)
Lemma share_sums uid l : pos_shares l -> isFinite (nsum (all_diffs l)) = true ->
  fin (nsum (all_diffs l)) (fsum (num_units <$> all_diffs l)) /\
  fin (nsum (of_user uid l)) (fsum (num_units <$> of_user uid l)) /\
  fsum (num_units <$> of_user uid l) <= fsum (num_units <$> all_diffs l).
Proof.
  induction l as [|[u x] l IH] using rev_ind; intros Hp Hf; [by split; [apply n0_fin|split; [apply n0_fin|]]|].
  apply Forall_app in Hp as [Hp [[Hx Hx0]%pos_units _]%Forall_cons]. cbn [snd] in *.
  rewrite all_snoc, nsum_snoc in Hf. pose proof (nadd_finite _ _ Hf) as Hf'. destruct (IH Hp Hf') as (IH1 & IH2 & IH3).
  pose proof (nadd_val _ _ _ _ IH1 Hx) as Hv. rewrite all_snoc, nsum_snoc, fmap_app. cbn [snd fmap list_fmap]. rewrite fsum_snoc.
  set (s := fsum _) in *. set (a := num_units x) in *. assert (fin (nadd (nsum (all_diffs l)) x) (rnd (s + a) 1)) as Hs.
  { by split. }
  assert (s <= rnd (s + a) 1) as Hmono.
  { rewrite <- (rnd_fin _ _ IH1) at 1. apply rnd_mono; try lia. by apply fin_nonneg in IH1. }
  rewrite of_user_snoc. case_bool_decide; (split; [done|]); [|split; [done|lia]].
  rewrite nsum_snoc, fmap_app. cbn [fmap list_fmap]. rewrite fsum_snoc. fold a.
  pose proof (nadd_val _ _ _ _ IH2 Hx) as Hm. fold a in Hm.
  set (m := fsum (num_units <$> of_user uid l)) in *. assert (rnd (m + a) 1 <= rnd (s + a) 1).
  { apply rnd_mono; try lia. apply fin_nonneg in IH2. lia. }
  split; [|done]. apply finite_small_fin; [done|]. apply fin_bound in Hs. lia.
Qed.

Lemma share_totals_spec l : exists totals, share_totals l = (totals, nsum (all_diffs l)) /\ NoDup totals.*1 /\
  forall uid, map_get uid totals = if bool_decide (uid ∈ l.*1) then Some (nsum (of_user uid l)) else None.
Proof.
  induction l as [|[u x] l IH] using rev_ind.
  { exists []. split; [done|]. split; [apply NoDup_nil_2|]. done. }
  destruct IH as (totals & E & Hnd & Hget). unfold share_totals in *. rewrite foldl_app. cbn [foldl]. rewrite E.
  eexists. split; [by rewrite all_snoc, nsum_snoc|]. split; [by apply map_set_nodup|]. intros uid.
  rewrite fmap_app. cbn [fmap list_fmap fst]. rewrite of_user_snoc. destruct (decide (u = uid)) as [->|Hne].
  - rewrite map_set_get. rewrite (bool_decide_true (uid ∈ _ ++ _)) by (rewrite elem_of_app, list_elem_of_singleton; auto).
    rewrite bool_decide_true by done. rewrite nsum_snoc, Hget. do 2 f_equal. case_bool_decide as Hin; [done|].
    by rewrite of_user_none.
  - rewrite map_set_other by done. rewrite Hget. rewrite (bool_decide_false (u = uid)) by done.
    erewrite bool_decide_ext; [done|]. rewrite elem_of_app, list_elem_of_singleton. split; [auto|]. intros [?|Hu]; [done|congruence].
Qed.

(** ** Rounding to units *)
Lemma fixed_units_nonneg x a : fin x a -> 0 <= fixed_units 8 x.
Proof. intros Hx. rewrite (fixed_units_fin x a Hx). apply fin_nonneg in Hx. apply Z.div_pos; lia. Qed.

Lemma fixed_units_mono x y a b : fin x a -> fin y b -> a <= b -> fixed_units 8 x <= fixed_units 8 y.
Proof. intros Hx Hy Hab. rewrite (fixed_units_fin x a Hx), (fixed_units_fin y b Hy). apply Z.div_le_mono; lia. Qed.

Lemma Number_toFixed8_units x a : fin x a -> fixed_units 8 x < 2 ^ 52 -> fin (Number_toFixed8 x) (units_val (fixed_units 8 x)).
Proof.
  intros Hx Hu. pose proof (fixed_units_nonneg x a Hx) as H0. destruct (fin_form _ _ Hx) as [->|(m & e & ->)]; [done|].
  unfold Number_toFixed8. destruct (num_frac (S754_finite false m e)) as [n d] eqn:E.
  destruct (Z.leb_spec (10 ^ 21 * d) n) as [Hbig|_].
  - exfalso. unfold fixed_units in Hu. rewrite E in Hu. assert (0 < d).
    { unfold num_frac in E. destruct (Z.leb_spec 0 e); injection E as <- <-; [lia|]. apply Z.pow_pos_nonneg; lia. }
    assert (10 ^ 29 <= (2 * (n * 10 ^ 8) + d) / (2 * d)); [|lia]. apply Z.div_le_lower_bound; lia.
  - unfold fixed_number. cbn [num_sign]. apply decimal8_fin. lia.
Qed.

(** ** One user's credit *)
Section Credit.
Context (cfg : pool_config) (f r : Z) (reward : jsnum).
Hypothesis Hfee : fin (feePercent cfg) f.
Hypothesis Hfee100 : f <= 100 * 2 ^ 1074.
Hypothesis Hreward : fin reward r.

Definition distributable : jsnum := nsub reward (gross_fee cfg reward).

Lemma rnd_le A B M j : 0 <= A -> 0 < B -> 0 <= M < 2 ^ 53 -> 0 <= j -> A <= M * 2 ^ j * B -> rnd A B <= M * 2 ^ j.
Proof. intros HA HB HM Hj Hle. rewrite <- (rnd_exact M j B HM Hj HB) at 1. apply rnd_mono; nia. Qed.

(** A part of a finite number, at most all of it. *)
Lemma part_fin x y a b : fin x a -> a <= 2 ^ 1074 -> fin y b -> fin (nmul y x) (rnd (b * a) (2 ^ 1074)) /\ rnd (b * a) (2 ^ 1074) <= b.
Proof.
  intros Hx Ha Hy. pose proof (fin_nonneg _ _ Hx). pose proof (fin_nonneg _ _ Hy) as Hb.
  assert (rnd (b * a) (2 ^ 1074) <= b) as Hle.
  { rewrite <- (rnd_fin y b Hy) at 2. apply rnd_mono; nia. }
  split; [|done]. apply finite_small_fin; [by apply nmul_val|]. apply fin_bound in Hy. lia.
Qed.

Lemma distributable_fin : exists t, fin distributable t /\ t <= r.
Proof.
  unfold distributable, gross_fee. pose proof (fin_nonneg _ _ Hfee). pose proof (fin_nonneg _ _ Hreward).
  pose proof (num_of_Z_exact 100 ltac:(lia)) as H100. pose proof (ndiv_val _ _ _ _ Hfee H100 ltac:(lia)) as Hq.
  set (q := rnd _ _) in *. assert (q <= 1 * 2 ^ 1074) as Hq1 by (apply rnd_le; lia).
  assert (fin (ndiv (feePercent cfg) (num_of_Z 100)) q) as Hqf by (apply finite_small_fin; [done|lia]).
  destruct (part_fin _ reward q r Hqf ltac:(lia) Hreward) as [Hg Hgr]. set (g := rnd (r * q) (2 ^ 1074)) in *.
  pose proof (nsub_val _ _ _ _ Hreward Hg Hgr) as Hd. pose proof (fin_nonneg _ _ Hg).
  assert (rnd (r - g) 1 <= r) by (rewrite <- (rnd_fin _ _ Hreward) at 2; apply rnd_mono; lia).
  exists (rnd (r - g) 1). split; [|done]. apply finite_small_fin; [done|]. apply fin_bound in Hreward. lia.
Qed.

Context (l : list (Z * jsnum)).
Hypothesis Hl : pos_shares l.
Hypothesis Hsum : isFinite (nsum (all_diffs l)) = true.

(** The amount of a user: of the sums, then of the distributable reward. *)
Definition amount (uid : Z) : jsnum := nmul (ndiv (nsum (of_user uid l)) (nsum (all_diffs l))) distributable.
Definition user_val (uid : Z) : Z := fsum (num_units <$> of_user uid l).
Definition sum_val : Z := fsum (num_units <$> all_diffs l).
Definition part_val (uid : Z) : Z := rnd (user_val uid * 2 ^ 1074) sum_val.

Lemma units_nonneg (k : list jsnum) : Forall (fun a => 0 <= a) (num_units <$> k).
Proof. apply Forall_fmap, Forall_true. intros x. unfold num_units, compose. destruct x; lia. Qed.

Lemma fsum_pos k : Forall (fun a => 0 < a) k -> k <> [] -> 0 < fsum k.
Proof.
  intros Hk Hne. destruct k as [|x k _] using rev_ind; [done|]. apply Forall_app in Hk as [Hk [Hx _]%Forall_cons].
  rewrite fsum_snoc. assert (0 <= fsum k) by (apply fsum_nonneg; eapply Forall_impl; [exact Hk|]; cbn; lia).
  pose proof (rnd_int_error (fsum k + x) ltac:(lia)). lia.
Qed.

(** A user with a share has a positive sum. *)
Lemma user_val_pos uid : uid ∈ l.*1 -> 0 < user_val uid.
Proof.
  intros Hu. apply fsum_pos.
  - unfold of_user. rewrite <- list_fmap_compose. apply Forall_fmap. apply list.Forall_forall. intros p Hp.
    apply list_elem_of_filter in Hp as [_ Hp]. unfold pos_shares in Hl. rewrite list.Forall_forall in Hl. cbn.
    by apply (pos_units (snd p)), Hl.
  - apply list_elem_of_fmap in Hu as (p & -> & Hp). intros E%fmap_nil_inv. unfold of_user in E. apply fmap_nil_inv in E.
    by apply (filter_nil_not_elem_of _ _ p E).
Qed.

Lemma sums_fin uid : fin (nsum (all_diffs l)) sum_val /\ fin (nsum (of_user uid l)) (user_val uid) /\ user_val uid <= sum_val.
Proof. by apply share_sums. Qed.

Lemma part_val_fin uid : uid ∈ l.*1 -> fin (ndiv (nsum (of_user uid l)) (nsum (all_diffs l))) (part_val uid) /\ 0 <= part_val uid <= 2 ^ 1074.
Proof.
  intros Hu. pose proof (user_val_pos uid Hu) as Hp. destruct (sums_fin uid) as (H1 & H2 & H3).
  assert (part_val uid <= 1 * 2 ^ 1074) as Hle by (apply rnd_le; lia).
  assert (0 <= part_val uid) by (apply rnd_nonneg; lia). split; [|lia].
  apply finite_small_fin; [by apply ndiv_val; [| |lia]|]. lia.
Qed.

Lemma amount_fin uid t : uid ∈ l.*1 -> fin distributable t ->
  fin (amount uid) (rnd (part_val uid * t) (2 ^ 1074)) /\ rnd (part_val uid * t) (2 ^ 1074) <= t.
Proof.
  intros Hu Ht. destruct (part_val_fin uid Hu) as (Hp & Hp1). pose proof (fin_nonneg _ _ Ht).
  assert (rnd (part_val uid * t) (2 ^ 1074) <= t) as Hle.
  { rewrite <- (rnd_fin _ _ Ht) at 2. apply rnd_mono; nia. }
  split; [|done]. apply finite_small_fin; [by apply nmul_val|]. apply fin_bound in Ht. lia.
Qed.

(** In units. *)
Hypothesis Hunits : fixed_units 8 distributable < 2 ^ 52.
Definition credit_units (uid : Z) : Z := if bool_decide (uid ∈ l.*1) then fixed_units 8 (amount uid) else 0.

Lemma credit_units_range uid : 0 <= credit_units uid <= fixed_units 8 distributable.
Proof.
  destruct distributable_fin as (t & Ht & _). unfold credit_units. case_bool_decide as Hu.
  - destruct (amount_fin uid t Hu Ht) as [Ha Hle]. split; [by eapply fixed_units_nonneg|by eapply fixed_units_mono].
  - split; [lia|]. by eapply fixed_units_nonneg.
Qed.

Lemma rounded_amount uid : uid ∈ l.*1 ->
  fin (Number_toFixed8 (amount uid)) (units_val (credit_units uid)) /\ to_numeric (Number_toFixed8 (amount uid)) = Ok (Some (credit_units uid)) /\
  nle (Number_toFixed8 (amount uid)) n0 = (credit_units uid =? 0).
Proof.
  intros Hu. destruct distributable_fin as (t & Ht & _). destruct (amount_fin uid t Hu Ht) as [Ha _].
  pose proof (credit_units_range uid) as Hr. assert (credit_units uid = fixed_units 8 (amount uid)) as Ec.
  { unfold credit_units. by rewrite bool_decide_true. }
  pose proof (Number_toFixed8_units _ _ Ha ltac:(lia)) as Hf. rewrite <- Ec in Hf. split; [done|].
  split; [apply to_numeric_val; [lia|done]|]. rewrite (nle_fin _ _ _ _ Hf n0_fin).
  pose proof (units_val_lt 0 (credit_units uid) ltac:(lia) ltac:(lia)) as Hlt. unfold units_val in Hlt at 1.
  rewrite Z.mul_0_l, rnd_0 in Hlt by lia. lia.
Qed.

(** ** The rows of a block *)
Definition credit_row (bid uid : Z) : option entry_row :=
  if credit_units uid =? 0 then None
  else Some {| e_user := uid; e_block := Some bid; e_payout := None; delta_b3c := Some (credit_units uid); e_kind := K_credit |}.

Lemma credit_rows_spec bid ts d d' : Forall (fun t => t.1 ∈ l.*1 /\ t.2 = nsum (of_user t.1 l)) ts ->
  for_each (credit_user bid (nsum (all_diffs l)) distributable) ts d = (Ok tt, d') ->
  d' = set_entries (entries d ++ omap (credit_row bid) ts.*1) d.
Proof.
  intros Hts. revert d. induction Hts as [|[uid x] ts [Hu Ex] Hts IH]; intros d; cbn [for_each fmap list_fmap omap list_omap fst].
  { intros [= <-]. rewrite app_nil_r. by destruct d. }
  cbn [fst snd] in Hu, Ex. subst x. unfold mbind at 1, eff_bind at 1.
  change (credit_user bid (nsum (all_diffs l)) distributable (uid, nsum (of_user uid l))) with
    (let rounded := Number_toFixed8 (amount uid) in if nle rounded n0 then mret tt else
     amount ← lift (to_numeric rounded); insert_entry {| e_user := uid; e_block := Some bid; e_payout := None;
       delta_b3c := amount; e_kind := K_credit |}). cbv zeta.
  destruct (rounded_amount uid Hu) as (_ & E1 & E2). rewrite E2. unfold credit_row at 1.
  destruct (credit_units uid =? 0); [apply IH|]. rewrite E1. unfold insert_entry. eff_simpl. cbn [e_user].
  case_bool_decide; [|done]. intros H1. rewrite (IH _ H1). unfold set_entries. cbn. by rewrite <- app_assoc.
Qed.

Lemma write_credit_spec c bid d d' : l <> [] ->
  write_credit cfg c bid {| c_reward := reward; c_shares := l |} d = (Ok tt, d') ->
  exists ks, NoDup ks /\ (forall uid, uid ∈ ks <-> uid ∈ l.*1) /\ entries d' = entries d ++ omap (credit_row bid) ks /\ users d' = users d.
Proof.
  intros Hne. unfold write_credit. cbn [c_shares c_reward]. destruct (share_totals_spec l) as (ts & E & Hnd & Hget).
  assert (forall {A} (a : A) (g : list (Z * jsnum) -> A), match l with [] => a | q :: k => g (q :: k) end = g l) as Hm
    by (by destruct l).
  rewrite (Hm _ _ (fun l => let '(totals, sum) := share_totals l in _)). cbv beta. rewrite E. clear Hm.
  unfold tx. eff_simpl. fold distributable. destruct (for_each _ _ _) as [[[]|] d1] eqn:Ef; [|done].
  destruct (to_numeric _) as [fee|]; [|done]. destruct c; [|done..]. intros [= <-].
  apply credit_rows_spec in Ef as ->.
  - exists ts.*1. split; [done|]. split; [|done]. intros uid. pose proof (Hget uid) as H. case_bool_decide as Hin.
    + split; [done|]. intros _. apply map_get_elem in H. by apply (list_elem_of_fmap_2 fst) in H.
    + split; [|done]. intros Hk. by apply map_get_None in H.
  - apply list.Forall_forall. intros [uid x] Hx. cbn [fst snd]. pose proof (Hget uid) as H.
    rewrite (map_get_in uid x ts Hnd Hx) in H. case_bool_decide; [|done]. split; [done|]. congruence.
Qed.

Lemma deltas_credits bid ks uid : NoDup ks -> (forall k, k ∈ ks <-> k ∈ l.*1) ->
  deltas uid (omap (credit_row bid) ks) = Some (credit_units uid).
Proof.
  intros Hnd Hks. assert (deltas uid (omap (credit_row bid) ks) = Some (if bool_decide (uid ∈ ks) then credit_units uid else 0)) as ->.
  { clear Hks. induction ks as [|k ks IH]; cbn [omap list_omap]; [done|]. apply NoDup_cons in Hnd as [Hk Hnd]. specialize (IH Hnd).
    unfold credit_row at 1. destruct (Z.eqb_spec (credit_units k) 0) as [E|E].
    - rewrite IH. f_equal. destruct (decide (k = uid)) as [->|Hne].
      + rewrite (bool_decide_true (uid ∈ uid :: ks)) by (by left). rewrite bool_decide_false by done. done.
      + erewrite bool_decide_ext; [done|]. rewrite elem_of_cons. split; [auto|]. intros [?|?]; [congruence|done].
    - rewrite deltas_cons, IH. cbn [e_user delta_b3c]. destruct (decide (k = uid)) as [->|Hku].
      + rewrite (bool_decide_false (uid ∈ ks)) by done. rewrite !bool_decide_true by (done || by left). apply numeric_add_0.
      + rewrite (bool_decide_false (k = uid)) by done. cbn. f_equal. erewrite bool_decide_ext; [done|]. rewrite elem_of_cons. split; [auto|]. intros [?|?]; [congruence|done]. }
  f_equal. case_bool_decide as Hin; [done|]. unfold credit_units. rewrite bool_decide_false; [done|]. by rewrite <- Hks.
Qed.

(** ** The preview *)
Lemma credit_sums_spec uid (k : list (Z * jsnum)) : pos_shares k -> credit_sums uid k = (nsum (all_diffs k), nsum (of_user uid k)).
Proof.
  induction k as [|[u x] k IH] using rev_ind; intros Hk; [done|]. apply Forall_app in Hk as [Hk [Hx _]%Forall_cons].
  unfold credit_sums in *. rewrite foldl_app. cbn [foldl]. rewrite (IH Hk). destruct (pos_units x Hx) as [Hf Hp].
  rewrite (nle_fin _ _ _ _ Hf n0_fin). destruct Hf as [-> _]. destruct (Z.leb_spec (num_units x) 0); [lia|]. cbn [negb orb].
  rewrite all_snoc, nsum_snoc, of_user_snoc. cbn [snd]. destruct (Z.eqb_spec u uid), (bool_decide_reflect (u = uid)); try done.
  by rewrite nsum_snoc.
Qed.

Lemma preview_units uid : 0 < r -> to_numeric (userCreditFromShares l uid reward (feePercent cfg)) = Ok (Some (credit_units uid)).
Proof.
  intros Hr. unfold userCreditFromShares. rewrite (nle_fin _ _ _ _ Hreward n0_fin), (proj1 Hreward).
  destruct (Z.leb_spec r 0); [lia|]. cbn [negb orb]. rewrite credit_sums_spec by done.
  destruct (sums_fin uid) as (H1 & H2 & H3). rewrite (nle_fin _ _ _ _ H1 n0_fin), (nle_fin _ _ _ _ H2 n0_fin).
  destruct (decide (uid ∈ l.*1)) as [Hu|Hu].
  - pose proof (user_val_pos uid Hu). destruct (Z.leb_spec sum_val 0), (Z.leb_spec (user_val uid) 0); try lia. cbn [orb].
    change (nmul _ _) with (amount uid). destruct distributable_fin as (t & Ht & _). destruct (amount_fin uid t Hu Ht) as [Ha _].
    rewrite (nle_fin _ _ _ _ Ha n0_fin), (proj1 Ha). cbn [negb orb]. destruct (rounded_amount uid Hu) as (_ & E & _).
    destruct (Z.leb_spec (rnd (part_val uid * t) (2 ^ 1074)) 0) as [Hle|]; [|done].
    pose proof (fin_nonneg _ _ Ha). replace (rnd _ _) with 0 in Ha by lia. unfold credit_units.
    rewrite bool_decide_true by done. rewrite (fixed_units_fin _ _ Ha). rewrite Z.div_small; [done|]. lia.
  - unfold credit_units. rewrite bool_decide_false by done. unfold user_val. rewrite of_user_none by done. by rewrite orb_true_r.
Qed.
End Credit.

(** ** Sums over users *)
Lemma zsum_le {A} (F G : A -> Z) a b c ks : (forall k, k ∈ ks -> a * F k <= b * G k + c) ->
  a * zsum (F <$> ks) <= b * zsum (G <$> ks) + c * zlen ks.
Proof.
  intros H. induction ks as [|k ks IH]; [unfold zlen; cbn; lia|]. unfold zlen in *. cbn [fmap list_fmap zsum foldr length].
  pose proof (H k ltac:(left)). assert (a * zsum (F <$> ks) <= b * zsum (G <$> ks) + c * Z.of_nat (length ks)).
  { apply IH. intros j Hj. apply H. by right. }
  unfold zsum in *. lia.
Qed.

Lemma zsum_delta (ks : list Z) u a : NoDup ks -> u ∈ ks -> zsum ((fun k => if bool_decide (u = k) then a else 0) <$> ks) = a.
Proof.
  induction ks as [|k ks IH]; intros Hnd Hu; [by apply elem_of_nil in Hu|]. apply NoDup_cons in Hnd as [Hk Hnd].
  cbn [fmap list_fmap zsum foldr]. fold (zsum ((fun k => if bool_decide (u = k) then a else 0) <$> ks)).
  apply elem_of_cons in Hu as [->|Hu].
  - rewrite bool_decide_true by done. enough (zsum ((fun j => if bool_decide (k = j) then a else 0) <$> ks) = 0) as -> by lia.
    clear IH Hnd. induction ks as [|j ks IH]; [done|]. rewrite not_elem_of_cons in Hk. cbn. rewrite bool_decide_false by tauto. apply IH. tauto.
  - rewrite bool_decide_false by (by intros ->). rewrite IH by done. lia.
Qed.

Lemma zsum_add {A} (F G : A -> Z) ks : zsum ((fun k => F k + G k) <$> ks) = zsum (F <$> ks) + zsum (G <$> ks).
Proof. unfold zsum. induction ks; cbn; lia. Qed.

(** Every share belongs to one user. *)
Lemma user_sums ks l : NoDup ks -> (forall u, u ∈ l.*1 -> u ∈ ks) ->
  zsum ((fun u => zsum (num_units <$> of_user u l)) <$> ks) = zsum (num_units <$> all_diffs l).
Proof.
  intros Hnd. induction l as [|[u x] l IH] using rev_ind; intros Hks.
  { clear Hnd Hks. induction ks as [|k ks IH]; [done|]. cbn [fmap list_fmap].
    change (0 + zsum ((fun u => zsum (num_units <$> of_user u [])) <$> ks) = 0). by rewrite IH. }
  rewrite all_snoc, fmap_app, zsum_app. cbn [fmap list_fmap snd zsum foldr]. rewrite Z.add_0_r, <- IH.
  2: { intros v Hv. apply Hks. rewrite fmap_app, elem_of_app. auto. }
  rewrite <- (zsum_delta ks u (num_units x) Hnd) at 1.
  2: { apply Hks. rewrite fmap_app, elem_of_app. right. by apply list_elem_of_singleton. }
  rewrite <- zsum_add. f_equal. apply list_fmap_ext. intros _ v _. rewrite of_user_snoc. case_bool_decide; [|lia].
  rewrite fmap_app, zsum_app. cbn. lia.
Qed.

(** The rounding errors of the steps, added up. *)
Lemma error_chain P K G n m w S T s q p u :
  n < 2 ^ 50 -> m < 2 ^ 50 -> w < 2 ^ 50 -> 0 < S -> 0 <= n -> 0 <= m -> 0 <= T -> 0 <= w -> P = 2 ^ 53 -> 0 <= G <= 2 ^ 27 -> 2 ^ 110 <= K ->
  P * s <= (P + 4 * n) * S ->
  2 * P * S * q <= 2 * (P + 1) * K * s + P * S * m ->
  2 * P * K * p <= 2 * (P + 1) * T * q + P * K * m ->
  2 * K * u <= 2 * G * p + K * m ->
  2 * G * T <= K * (2 * w + 1) -> (n + 1) * (w + 1) <= 2 ^ 50 ->
  2 * u <= 2 * w + m + 3.
Proof.
  intros Bn Bm Bw HS Hn Hm HT Hw EP EG EK H1 H2 H3 H4 H5 H6. assert (0 < K) as HK by lia. assert (0 < P) by lia.
  assert (2 * P * q <= 2 * (P + 4 * n + 2) * K + P * m) as Q.
  { apply (Z.mul_le_mono_pos_l _ _ (P * S)); [nia|].
    assert (2 * (P + 1) * K * (P * s) <= 2 * (P + 1) * K * ((P + 4 * n) * S)) by (apply Z.mul_le_mono_nonneg_l; nia).
    assert ((P + 1) * (P + 4 * n) * (K * S) <= P * (P + 4 * n + 2) * (K * S)) by (apply Z.mul_le_mono_nonneg_r; nia). nia. }
  assert (2 * P * K * p <= 2 * (P + 4 * n + 4) * T * K + 2 * P * T * m + P * K * m) as PP.
  { apply (Z.mul_le_mono_pos_l _ _ P); [lia|].
    assert ((P + 1) * T * (2 * P * q) <= (P + 1) * T * (2 * (P + 4 * n + 2) * K + P * m)) by (apply Z.mul_le_mono_nonneg_l; nia).
    assert ((P + 1) * (P + 4 * n + 2) * (T * K) <= P * (P + 4 * n + 4) * (T * K)) by (apply Z.mul_le_mono_nonneg_r; nia).
    assert ((P + 1) * P * (T * m) <= 2 * P * P * (T * m)) by (apply Z.mul_le_mono_nonneg_r; nia). nia. }
  assert (2 * P * K * u <= (P + 4 * n + 4) * K * (2 * w + 1) + P * m * (2 * w + 1 + G) + P * K * m) as U.
  { apply (Z.mul_le_mono_pos_l _ _ K HK).
    assert (P * K * (2 * K * u) <= P * K * (2 * G * p + K * m)) by (apply Z.mul_le_mono_nonneg_l; nia).
    assert (G * (2 * P * K * p) <= G * (2 * (P + 4 * n + 4) * T * K + 2 * P * T * m + P * K * m)) by (apply Z.mul_le_mono_nonneg_l; lia).
    assert ((P + 4 * n + 4) * K * (2 * G * T) <= (P + 4 * n + 4) * K * (K * (2 * w + 1))) by (apply Z.mul_le_mono_nonneg_l; nia).
    assert (P * m * (2 * G * T) <= P * m * (K * (2 * w + 1))) by (apply Z.mul_le_mono_nonneg_l; nia). lia. }
  assert ((4 * n + 4) * (2 * w + 1) <= P) by nia.
  assert (m * (2 * w + 1 + G) <= K) as HmK.
  { transitivity (2 ^ 50 * 2 ^ 60); [|exact EK]. apply Z.mul_le_mono_nonneg; lia. }
  assert (P * (m * (2 * w + 1 + G)) <= P * K) by (apply Z.mul_le_mono_nonneg_l; lia).
  assert (K * ((4 * n + 4) * (2 * w + 1)) <= K * P) by (apply Z.mul_le_mono_nonneg_l; lia).
  apply (Z.mul_le_mono_pos_l _ _ (P * K)); [nia|]. lia.
Qed.

(** ** The total of a block *)
Section Total.
Context (cfg : pool_config) (f r : Z) (reward : jsnum).
Hypothesis Hfee : fin (feePercent cfg) f.
Hypothesis Hfee100 : f <= 100 * 2 ^ 1074.
Hypothesis Hreward : fin reward r.
Context (l : list (Z * jsnum)).
Hypothesis Hl : pos_shares l.
Hypothesis Hsum : isFinite (nsum (all_diffs l)) = true.
Context (ks : list Z).
Hypothesis Hnd : NoDup ks.
Hypothesis Hks : forall u, u ∈ ks <-> u ∈ l.*1.
Hypothesis Hn : zlen l < 2 ^ 50.

Lemma of_user_length uid : zlen (num_units <$> of_user uid l) <= zlen l.
Proof. unfold zlen, of_user. rewrite !length_fmap. apply Nat2Z.inj_le, length_filter. Qed.

(** The rounded sums of the users against the rounded sum of all. *)
Lemma user_vals_sum : 2 ^ 53 * zsum (user_val l <$> ks) <= (2 ^ 53 + 4 * zlen l) * sum_val l.
Proof.
  set (n := zlen l) in *. assert (0 <= n) by apply zlen_nonneg.
  pose proof (zsum_le (user_val l) (fun u => zsum (num_units <$> of_user u l)) (2 ^ 53) (2 ^ 53 + 2 * n) 0 ks) as H1.
  rewrite user_sums in H1; [|done|by intros u; apply Hks].
  destruct (fsum_bounds (num_units <$> all_diffs l) (units_nonneg _)) as [_ H2].
  { unfold zlen, all_diffs. rewrite !length_fmap. exact Hn. }
  assert (zlen (num_units <$> all_diffs l) = n) as En by (unfold zlen, all_diffs; by rewrite !length_fmap). rewrite En in H2.
  fold (sum_val l) in H2. set (E := zsum (num_units <$> all_diffs l)) in *.
  assert (0 <= E) by (apply zsum_nonneg, units_nonneg).
  assert (2 ^ 53 * zsum (user_val l <$> ks) <= (2 ^ 53 + 2 * n) * E) as H3.
  { rewrite Z.mul_0_l, Z.add_0_r in H1. apply H1. intros k _. rewrite Z.add_0_r. pose proof (of_user_length k).
    destruct (fsum_bounds (num_units <$> of_user k l) (units_nonneg _) ltac:(lia)) as [H4 _]. fold (user_val l k) in H4.
    pose proof (zsum_nonneg _ (units_nonneg (of_user k l))). nia. }
  revert H3. generalize (zsum (user_val l <$> ks)) as s. intros s H3. set (S := sum_val l) in *. clearbody S E n. clear - H2 H3 Hn H H0.
  apply (Z.mul_le_mono_pos_l _ _ (2 ^ 53 - n)); [lia|].
  assert ((2 ^ 53 - n) * (2 ^ 53 * s) <= (2 ^ 53 - n) * ((2 ^ 53 + 2 * n) * E)) by (apply Z.mul_le_mono_nonneg_l; lia).
  assert ((2 ^ 53 + 2 * n) * ((2 ^ 53 - n) * E) <= (2 ^ 53 + 2 * n) * (2 ^ 53 * S)) by (apply Z.mul_le_mono_nonneg_l; lia).
  assert (0 <= S) by nia. assert (2 ^ 53 * (2 ^ 53 + 2 * n) * S <= (2 ^ 53 - n) * (2 ^ 53 + 4 * n) * S) by (apply Z.mul_le_mono_nonneg_r; nia). lia.
Qed.

Lemma credit_total : ks <> [] -> (zlen l + 1) * (fixed_units 8 (distributable cfg reward) + 1) <= 2 ^ 50 -> zlen ks <= zlen l ->
  2 * zsum (credit_units cfg reward l <$> ks) <= 2 * fixed_units 8 (distributable cfg reward) + zlen ks + 3.
Proof.
  intros Hne Hb Hm. remember (fixed_units 8 (distributable cfg reward)) as w eqn:Ew.
  destruct (distributable_fin cfg f r reward Hfee Hfee100 Hreward) as (t & Ht & _).
  assert (0 <= w) by (subst w; by eapply fixed_units_nonneg). assert (0 <= t) by (by apply fin_nonneg in Ht).
  assert (0 <= zlen l /\ 0 <= zlen ks) as [? ?] by (split; apply zlen_nonneg).
  assert (0 < sum_val l) as HS.
  { destruct ks as [|k ?]; [done|]. assert (k ∈ l.*1) as Hk by (apply Hks; left).
    pose proof (user_val_pos l Hl k Hk). destruct (sums_fin l Hl Hsum k) as (_ & _ & ?). lia. }
  set (q := zsum (part_val l <$> ks)). set (p := zsum ((fun u => rnd (part_val l u * t) (2 ^ 1074)) <$> ks)).
  assert (1 * (w + 1) <= (zlen l + 1) * (w + 1)) by (apply Z.mul_le_mono_nonneg_r; lia).
  apply (error_chain (2 ^ 53) (2 ^ 1074) (10 ^ 8) (zlen l) (zlen ks) w (sum_val l) t (zsum (user_val l <$> ks)) q p); try lia.
  - exact user_vals_sum.
  - apply (zsum_le (part_val l) (user_val l) (2 * 2 ^ 53 * sum_val l) (2 * (2 ^ 53 + 1) * 2 ^ 1074) (2 ^ 53 * sum_val l) ks). intros k Hk. apply Hks, (user_val_pos l Hl) in Hk.
    pose proof (rnd_upper (user_val l k * 2 ^ 1074) (sum_val l) ltac:(lia) HS) as H'. fold (part_val l k) in H'. lia.
  - apply (zsum_le (fun u => rnd (part_val l u * t) (2 ^ 1074)) (part_val l) (2 * 2 ^ 53 * 2 ^ 1074) (2 * (2 ^ 53 + 1) * t) (2 ^ 53 * 2 ^ 1074) ks).
    intros k Hk. apply Hks, (part_val_fin l Hl Hsum) in Hk as [_ [Hk _]].
    pose proof (rnd_upper (part_val l k * t) (2 ^ 1074) ltac:(nia) ltac:(lia)) as H'. lia.
  - apply (zsum_le (credit_units cfg reward l) (fun u => rnd (part_val l u * t) (2 ^ 1074)) (2 * 2 ^ 1074) (2 * 10 ^ 8) (2 ^ 1074) ks).
    intros k Hk. unfold credit_units. pose proof (proj1 (Hks k) Hk) as Hk'.
    rewrite bool_decide_true by done. edestruct (amount_fin cfg) as [Ha _]; [exact Hfee100|exact Hl|exact Hsum|exact Hk'|exact Ht|].
    rewrite (fixed_units_fin _ _ Ha). set (x := 2 * (_ * 10 ^ 8) + 2 ^ 1074).
    pose proof (Z.mul_div_le x (2 * 2 ^ 1074) ltac:(lia)). subst x. lia.
  - rewrite Ew, (fixed_units_fin _ _ Ht). set (x := 2 * (t * 10 ^ 8) + 2 ^ 1074).
    pose proof (Z.mul_succ_div_gt x (2 * 2 ^ 1074) ltac:(lia)). subst x. lia.
Qed.
End Total.

(** What is assumed of a block to be credited: a fee between 0 and 100 percent, a positive
    reward below [2^52] units, positive difficulties with a finite sum. *)
Record credit_ok (cfg : pool_config) (p : credit_plan) : Prop := {
  ok_fee : exists f, fin (feePercent cfg) f /\ f <= 100 * 2 ^ 1074;
  ok_reward : exists r, fin (c_reward p) r /\ 0 < r;
  ok_shares : pos_shares (c_shares p);
  ok_sum : isFinite (nsum (all_diffs (c_shares p))) = true;
  ok_units : fixed_units 8 (distributable cfg (c_reward p)) < 2 ^ 52
}.

(** The three steps of a credit, with any other work in between: the row is read in [d0],
    the shares in [d1], and the credit is written in [d2]. *)
Definition credit_steps (cfg : pool_config) (bid : Z) (d0 d1 d2 : ledger) (b : block_row) (p : credit_plan) (d' : ledger) : Prop :=
  (exists c e, creditPplns cfg c bid CrBlock d0 = (Ok (Some (CrShares b)), e)) /\
  (exists c e, creditPplns cfg c bid (CrShares b) d1 = (Ok (Some (CrWrite p)), e)) /\
  (exists c, creditPplns cfg c bid (CrWrite p) d2 = (Ok None, d')).

Lemma credit_steps_run cfg bid d0 d1 d2 b p d' : credit_steps cfg bid d0 d1 d2 b p d' ->
  (b ∈ blocks d0 /\ b_id b = bid /\ is_confirmed b = true /\ is_orphan b = false /\ pplns_credited b = false) /\
  p = {| c_reward := of_numeric (reward_b3c b); c_shares := last_shares cfg d1 (found_at b) |} /\
  exists c, write_credit cfg c bid p d2 = (Ok tt, d').
Proof.
  intros ((c0 & e0 & H0) & (c1 & e1 & H1) & (c2 & H2)). cbn [creditPplns] in *. unfold query, select_confirmed, tx in H0, H1.
  revert H0 H1 H2. eff_simpl. destruct c0; [|done..]. destruct (arr_find _ _) as [b'|] eqn:Ef; [|done].
  destruct (pplns_credited b') eqn:Ec; [done|]. intros [= <- _]. destruct c1; [|done..]. intros [= <- _] H2.
  apply arr_find_some in Ef as [Hb Hp]. apply andb_prop in Hp as [Hp Ho]. apply andb_prop in Hp as [Hp Hc].
  apply Z.eqb_eq in Hp. apply negb_true_iff in Ho. split; [done|]. split; [done|]. exists c2.
  destruct (write_credit _ _ _ _ _) as [[[]|] d3]; [|done]. congruence.
Qed.

(** The preview is the credit.  For a confirmed block with shares in its window, the amount
    that the dashboard previews for a user is, to the last unit, what the credit adds to
    that user's balance, for the users who have shares and for those who have none. *)
Theorem preview_is_credit cfg bid d0 d1 d2 b p d' :
  credit_steps cfg bid d0 d1 d2 b p d' -> credit_ok cfg p -> c_shares p <> [] ->
  forall uid, exists u, 0 <= u /\
    to_numeric (userCreditFromShares (c_shares p) uid (c_reward p) (feePercent cfg)) = Ok (Some u) /\
    balance d' uid = numeric_add (balance d2 uid) (Some u).
Proof.
  intros (_ & _ & c & Hw)%credit_steps_run [(f & Hf & Hf1) (r & Hrw & Hr0) Hs Hsum Hu] Hne uid. destruct p as [rw l]. cbn in *.
  destruct (write_credit_spec cfg f r rw Hf Hf1 Hrw l Hs Hsum Hu c bid d2 d' Hne Hw) as (ks & Hnd & Hks & He & _).
  exists (credit_units cfg rw l uid). split; [|split].
  - by eapply (credit_units_range cfg f r).
  - by eapply (preview_units cfg f r).
  - rewrite (balance_app _ _ _ uid He). f_equal. by eapply deltas_credits.
Qed.

Lemma credit_rows_sum cfg rw l bid ks :
  numeric_sum (delta_b3c <$> omap (credit_row cfg rw l bid) ks) = Some (zsum (credit_units cfg rw l <$> ks)).
Proof.
  induction ks as [|k ks IH]; [done|]. cbn [omap list_omap fmap list_fmap]. unfold credit_row at 1.
  change (zsum (?x :: ?y)) with (x + zsum y). destruct (Z.eqb_spec (credit_units cfg rw l k) 0) as [->|_]; [by rewrite IH|].
  cbn [fmap list_fmap delta_b3c]. match goal with |- numeric_sum (?x :: ?y) = _ => change (x :: y) with ([x] ++ y) end.
  by rewrite numeric_sum_app, IH.
Qed.

Lemma credit_rows_users cfg rw l bid ks : NoDup ks -> NoDup (e_user <$> omap (credit_row cfg rw l bid) ks).
Proof.
  intros Hnd. apply (omap_nodup _ id); [|by rewrite list_fmap_id]. intros k e. unfold credit_row. case_match; [done|]. by intros [= <-].
Qed.

Lemma remove_dups_length (ks l : list Z) : NoDup ks -> (forall u, u ∈ ks <-> u ∈ l) -> zlen ks = zlen (remove_dups l).
Proof.
  intros Hnd H. unfold zlen. f_equal. apply Permutation_length, NoDup_Permutation; [done|apply NoDup_remove_dups|].
  intros u. by rewrite elem_of_remove_dups.
Qed.

Lemma remove_dups_le (l : list Z) : zlen (remove_dups l) <= zlen l.
Proof. unfold zlen. apply Nat2Z.inj_le. induction l; cbn; [done|]. case_decide; cbn; lia. Qed.

(** C9: a block credits at most its reward.  Follow a credit through its awaits, with any
    other work in between.  It is for a confirmed block that is neither an orphan nor
    credited when its row is read, and for the last N shares up to the time it was found.
    The rows that it adds are for this block, at most one per user of those shares, and
    their sum exceeds the distributable reward, which is at most the reward, by at most half
    a unit (of [10^-8]) per user and one and a half units, whatever the rounding of the
    additions, the division and the product. *)
Theorem credits_bounded cfg bid d0 d1 d2 b p d' :
  credit_steps cfg bid d0 d1 d2 b p d' -> credit_ok cfg p -> c_shares p <> [] ->
  (zlen (c_shares p) + 1) * (fixed_units 8 (distributable cfg (c_reward p)) + 1) <= 2 ^ 50 ->
  (b ∈ blocks d0 /\ b_id b = bid /\ is_confirmed b = true /\ is_orphan b = false /\ pplns_credited b = false) /\
  p = {| c_reward := of_numeric (reward_b3c b); c_shares := last_shares cfg d1 (found_at b) |} /\
  exists es total, entries d' = entries d2 ++ es /\ NoDup (e_user <$> es) /\
    Forall (fun e => e_block e = Some bid /\ e_user e ∈ (c_shares p).*1) es /\ numeric_sum (delta_b3c <$> es) = Some total /\
    2 * total <= 2 * fixed_units 8 (distributable cfg (c_reward p)) + zlen (remove_dups (c_shares p).*1) + 3 /\
    fixed_units 8 (distributable cfg (c_reward p)) <= fixed_units 8 (c_reward p).
Proof.
  intros (Hb0 & Hp & c & Hw)%credit_steps_run [(f & Hf & Hf1) (r & Hrw & Hr0) Hs Hsum Hu] Hne Hb. do 2 (split; [done|]).
  clear Hp. destruct p as [rw l]. cbn in *.
  destruct (write_credit_spec cfg f r rw Hf Hf1 Hrw l Hs Hsum Hu c bid d2 d' Hne Hw) as (ks & Hnd & Hks & He & _).
  destruct (distributable_fin cfg f r rw Hf Hf1 Hrw) as (t & Ht & Htr).
  assert (0 <= fixed_units 8 (distributable cfg rw)) by (by eapply fixed_units_nonneg).
  assert (0 <= zlen l) by apply zlen_nonneg.
  assert ((zlen l + 1) * 1 <= (zlen l + 1) * (fixed_units 8 (distributable cfg rw) + 1)) by (apply Z.mul_le_mono_nonneg_l; lia).
  exists (omap (credit_row cfg rw l bid) ks), (zsum (credit_units cfg rw l <$> ks)).
  split; [done|]. split; [by apply credit_rows_users|]. split; [|split; [apply credit_rows_sum|]].
  - apply list.Forall_forall. intros e (k & Hk & E)%list_elem_of_omap. unfold credit_row in E. case_match; [done|].
    injection E as <-. cbn. split; [done|]. by apply Hks.
  - rewrite <- (remove_dups_length ks l.*1 Hnd Hks). split; [|by eapply fixed_units_mono].
    apply (credit_total cfg f r rw Hf Hf1 Hrw l Hs Hsum ks Hnd Hks); [lia| |done|].
    + intros ->. destruct l as [|p l]; [done|]. by apply (elem_of_nil p.1), Hks, list_elem_of_here.
    + rewrite (remove_dups_length ks l.*1 Hnd Hks). etransitivity; [apply remove_dups_le|]. unfold zlen. by rewrite length_fmap.
Qed.
