(* ===== verification/ShareWriter.v ===== *)
(** * The share writer and the pool daemon ([pool/src/pool/share-writer.ts], [main.ts])

    Events from the Stratum service are resolved to a user and a worker, buffered, and
    written in batches; a batch that fails goes back to the front of the buffer.  The
    process runs one handler at a time up to its next await: what is awaited is a [task],
    and [step] is one event of the process.  The tasks of the writer, of the recorder of
    blocks, of the ticks of the confirmer and of the payout job interleave in any order; two
    ticks of the confirmer may be under way at once, as nothing keeps them apart, while the
    payout job has a flag ([paying]).  An exception in a promise that nothing catches ends
    the process ([crashed]). *)

From S2P Require Import Prelude JsString JsMap JsNumber JsRound JsFormat Effects Numeric Address Difficulty Ipc Ledger.

(** ** State *)
Record BufferedShare := { bs_event : ShareEvent; bs_userId : option Z; bs_workerId : option Z }.
Record BufferedReject := { br_event : RejectEvent; br_userId : Z; br_workerId : Z }.
Record BufferedSig := { bg_event : ShareSigEvent; bg_userId : option Z; bg_workerId : option Z }.

(** What an asynchronous function awaits.  [TUser]: the user of a message, already known
    ([Some]) or to be asked; [TWorker]: likewise the worker; [TFlush]: the transaction of
    a batch; [TBucket]: the roll of a minute; [TRecord]: the recording of a found block;
    [TTick]: the rows of a tick of the confirmer; [TCheck]: one of them, with those that
    follow; [TPay]: a payout run. *)
Inductive task :=
| TUser (m : IpcMessage) (known : option (option Z))
| TWorker (m : IpcMessage) (uid : Z) (known : option Z)
| TFlush (batch : list BufferedShare) (rejects : list BufferedReject) (sigs : list BufferedSig)
| TBucket (target : Z)
| TRecord (e : ShareEvent) (hash : jsstr) (k : record_at)
| TTick
| TCheck (id : Z) (hash : jsstr) (k : check_at) (rest : list (Z * jsstr))
| TPay (k : pay_at).

Record writer := {
  buf : list BufferedShare;
  rejectBuf : list BufferedReject;
  sigBuf : list BufferedSig;
  userIdCache : list (jsstr * Z);
  workerIdCache : list ((Z * jsstr) * Z);
  lastBucketAt : option Z;
  anonByMinute : list (Z * (jsnum * Z));
  tasks : list task;
  crashed : bool
}.

Record daemon := { w : writer; paying : bool; db : ledger }.

Definition set_bufs (b : list BufferedShare) (r : list BufferedReject) (g : list BufferedSig) (x : daemon) : daemon :=
  {| w := {| buf := b; rejectBuf := r; sigBuf := g; userIdCache := userIdCache (w x); workerIdCache := workerIdCache (w x);
             lastBucketAt := lastBucketAt (w x); anonByMinute := anonByMinute (w x); tasks := tasks (w x); crashed := crashed (w x) |};
     paying := paying x; db := db x |}.
Definition set_caches (u : list (jsstr * Z)) (k : list ((Z * jsstr) * Z)) (x : daemon) : daemon :=
  {| w := {| buf := buf (w x); rejectBuf := rejectBuf (w x); sigBuf := sigBuf (w x); userIdCache := u; workerIdCache := k;
             lastBucketAt := lastBucketAt (w x); anonByMinute := anonByMinute (w x); tasks := tasks (w x); crashed := crashed (w x) |};
     paying := paying x; db := db x |}.
Definition set_minutes (l : option Z) (a : list (Z * (jsnum * Z))) (x : daemon) : daemon :=
  {| w := {| buf := buf (w x); rejectBuf := rejectBuf (w x); sigBuf := sigBuf (w x); userIdCache := userIdCache (w x);
             workerIdCache := workerIdCache (w x); lastBucketAt := l; anonByMinute := a; tasks := tasks (w x); crashed := crashed (w x) |};
     paying := paying x; db := db x |}.
Definition set_tasks (t : list task) (x : daemon) : daemon :=
  {| w := {| buf := buf (w x); rejectBuf := rejectBuf (w x); sigBuf := sigBuf (w x); userIdCache := userIdCache (w x);
             workerIdCache := workerIdCache (w x); lastBucketAt := lastBucketAt (w x); anonByMinute := anonByMinute (w x);
             tasks := t; crashed := crashed (w x) |};
     paying := paying x; db := db x |}.
Definition set_crashed (x : daemon) : daemon :=
  {| w := {| buf := buf (w x); rejectBuf := rejectBuf (w x); sigBuf := sigBuf (w x); userIdCache := userIdCache (w x);
             workerIdCache := workerIdCache (w x); lastBucketAt := lastBucketAt (w x); anonByMinute := anonByMinute (w x);
             tasks := tasks (w x); crashed := true |};
     paying := paying x; db := db x |}.
Definition set_db (d : ledger) (x : daemon) : daemon := {| w := w x; paying := paying x; db := d |}.
Definition set_paying (b : bool) (x : daemon) : daemon := {| w := w x; paying := b; db := db x |}.

Definition await (t : task) : eff daemon unit := modify (fun x => set_tasks (tasks (w x) ++ [t]) x).

(** A computation on the database, from the daemon. *)
Definition on_db {A} (m : eff ledger A) : eff daemon A := fun x => let '(r, d) := m (db x) in (r, set_db d x).

(** ** Statements *)
Definition set_tables (t : share_tables) (d : ledger) : ledger := {|
  users := users d; tables := t; blocks := blocks d; entries := entries d; payouts := payouts d; recipients := recipients d;
  next_block := next_block d; next_payout := next_payout d; sent := sent d |}.

Definition select_user (email : jsstr) : eff ledger (option Z) :=
  _ ← pg_texts [email];
  d ← get;
  mret (u_id <$> arr_find (fun u => bool_decide (u_email u = email)) (users d)).

Definition see_worker (now : Z) (k : worker_row) : worker_row := {|
  w_id := w_id k; w_user := w_user k; w_name := w_name k; last_seen_at := Some now; last_difficulty := last_difficulty k;
  rejected_duplicate := rejected_duplicate k; rejected_low_diff := rejected_low_diff k; rejected_invalid := rejected_invalid k;
  rejected_other := rejected_other k; last_reject := last_reject k |}.
Definition set_difficulty (x : jsnum) (k : worker_row) : worker_row := {|
  w_id := w_id k; w_user := w_user k; w_name := w_name k; last_seen_at := last_seen_at k; last_difficulty := Some x;
  rejected_duplicate := rejected_duplicate k; rejected_low_diff := rejected_low_diff k; rejected_invalid := rejected_invalid k;
  rejected_other := rejected_other k; last_reject := last_reject k |}.
(** [SET ${column} = ${column} + 1, last_reject_reason = $2, last_reject_at = ...]. *)
Definition count_reject (r : RejectReason) (t : Z) (k : worker_row) : worker_row := {|
  w_id := w_id k; w_user := w_user k; w_name := w_name k; last_seen_at := last_seen_at k; last_difficulty := last_difficulty k;
  rejected_duplicate := rejected_duplicate k + (if r is RDuplicate then 1 else 0);
  rejected_low_diff := rejected_low_diff k + (if r is RLowDiff then 1 else 0);
  rejected_invalid := rejected_invalid k + (if r is RInvalid then 1 else 0);
  rejected_other := rejected_other k + (if r is ROther then 1 else 0); last_reject := Some (r, t) |}.

Definition set_workers (ks : list worker_row) (n : Z) (d : ledger) : ledger := set_tables {|
  workers := ks; shares := shares d; signatures := signatures d; hashrate_buckets := hashrate_buckets d;
  pool_hashrate_buckets := pool_hashrate_buckets d; next_worker := n; next_share := next_share d |} d.
Definition add_share (s : share_row) (d : ledger) : ledger := set_tables {|
  workers := workers d; shares := shares d ++ [s]; signatures := signatures d; hashrate_buckets := hashrate_buckets d;
  pool_hashrate_buckets := pool_hashrate_buckets d; next_worker := next_worker d; next_share := next_share d + 1 |} d.
Definition add_signature (s : signature_row) (d : ledger) : ledger := set_tables {|
  workers := workers d; shares := shares d; signatures := signatures d ++ [s]; hashrate_buckets := hashrate_buckets d;
  pool_hashrate_buckets := pool_hashrate_buckets d; next_worker := next_worker d; next_share := next_share d |} d.
Definition set_buckets (h : list bucket_row) (p : list pool_bucket_row) (d : ledger) : ledger := set_tables {|
  workers := workers d; shares := shares d; signatures := signatures d; hashrate_buckets := h;
  pool_hashrate_buckets := p; next_worker := next_worker d; next_share := next_share d |} d.

Definition update_worker (id : Z) (f : worker_row -> worker_row) : eff ledger unit :=
  modify (fun d : ledger => set_workers ((fun k => if w_id k =? id then f k else k) <$> workers d) (next_worker d) d).

(** [INSERT INTO workers ... ON CONFLICT (user_id, name) DO UPDATE ... RETURNING id]. *)
Definition upsert_worker (uid : Z) (name : jsstr) (now : Z) : eff ledger Z :=
  _ ← pg_texts [name];
  d ← get;
  match arr_find (fun k => (w_user k =? uid) && bool_decide (w_name k = name)) (workers (tables d)) with
  | Some k => _ ← update_worker (w_id k) (see_worker now); mret (w_id k)
  | None =>
      if negb (bool_decide (uid ∈ u_id <$> users d)) then throw "violates foreign key constraint"
      else
        let k := {| w_id := next_worker d; w_user := uid; w_name := name; last_seen_at := Some now; last_difficulty := None;
                    rejected_duplicate := 0; rejected_low_diff := 0; rejected_invalid := 0; rejected_other := 0; last_reject := None |} in
        _ ← modify (fun d : ledger => set_workers (workers d ++ [k]) (next_worker d + 1) d);
        mret (w_id k)
  end.

Definition opt_text (o : option jsstr) : list jsstr := match o with Some s => [s] | None => [] end.

Definition insertSignature (shareId userId workerId : option Z) (a : ShareAttest) (timestampMs : Z) : eff ledger unit :=
  _ ← pg_texts ([sa_jobId a; sa_nonce a] ++ opt_text (sa_pubkey a) ++ opt_text (sa_signature a));
  modify (add_signature {| sg_share := shareId; sg_user := userId; sg_worker := workerId; sg_attest := a; sg_submitted_at := timestampMs |}).

(** [INSERT INTO shares ... RETURNING id]. *)
Definition insert_share (uid wid : Z) (e : ShareEvent) : eff ledger Z :=
  _ ← pg_texts (opt_text (se_blockHash e));
  d ← get;
  let id := next_share (tables d) in
  _ ← modify (add_share {| sh_id := id; sh_user := uid; sh_worker := wid; sh_diff := se_diff e; sh_isBlock := se_isBlock e;
                           sh_blockHash := se_blockHash e; submitted_at := se_timestampMs e |});
  mret id.

(** ** The transaction of a flush *)
Definition write_share (s : BufferedShare) : eff ledger unit :=
  let e := bs_event s in
  shareId ← (match bs_userId s, bs_workerId s with
             | Some uid, Some wid =>
                 id ← insert_share uid wid e;
                 _ ← update_worker wid (fun k => see_worker (se_timestampMs e) (set_difficulty (se_diff e) k));
                 mret (Some id)
             | _, _ => mret None
             end);
  match se_attest e with
  | Some a => insertSignature shareId (bs_userId s) (bs_workerId s) a (se_timestampMs e)
  | None => mret tt
  end.

Definition write_sig (g : BufferedSig) : eff ledger unit :=
  insertSignature None (bg_userId g) (bg_workerId g) (ss_attest (bg_event g)) (ss_timestampMs (bg_event g)).

Definition write_reject (r : BufferedReject) : eff ledger unit :=
  let e := br_event r in
  update_worker (br_workerId r) (fun k => see_worker (re_timestampMs e) (count_reject (re_reason e) (re_timestampMs e) k)).

Definition write_batch (batch : list BufferedShare) (rejects : list BufferedReject) (sigs : list BufferedSig) : eff ledger unit :=
  _ ← for_each write_share batch;
  _ ← for_each write_sig sigs;
  for_each write_reject rejects.

(** ** Minutes *)
Definition minuteStartMs (timestampMs : Z) : Z := timestampMs - timestampMs mod 60000.

Definition addAnon (timestampMs : Z) (diff : jsnum) : eff daemon unit :=
  modify (fun x =>
    let key := minuteStartMs timestampMs in
    let '(d, n) := default (n0, 0) (map_get key (anonByMinute (w x))) in
    set_minutes (lastBucketAt (w x)) (map_set key (nadd d diff, n + 1) (anonByMinute (w x))) x).

Definition estimateHashrate (totalDiff windowSeconds : jsnum) : jsnum := hashrateFromShares totalDiff windowSeconds.

(** ** ShareWriter *)

(** [flush], up to its transaction. *)
Definition flush : eff daemon unit :=
  x ← get;
  if bool_decide (buf (w x) = []) && bool_decide (rejectBuf (w x) = []) && bool_decide (sigBuf (w x) = []) then mret tt
  else
    _ ← modify (set_bufs [] [] []);
    await (TFlush (buf (w x)) (rejectBuf (w x)) (sigBuf (w x))).

Definition msg_user (m : IpcMessage) : jsstr :=
  match m with IpcShare e => se_user e | IpcSig e => ss_user e | IpcReject e => re_user e end.
Definition msg_worker (m : IpcMessage) : jsstr :=
  match m with IpcShare e => se_workerName e | IpcSig e => ss_workerName e | IpcReject e => re_workerName e end.

(** [resolveUserId] up to its query: the answer, if it is known without one. *)
Definition user_known (x : daemon) (email : jsstr) : option (option Z) :=
  if bool_decide (email = []) || includes 58 email then Some None
  else Some <$> map_get email (userIdCache (w x)).

(** The rest of it. *)
Definition resolveUserId (c : outcome) (email : jsstr) (known : option (option Z)) : eff daemon (option Z) :=
  match known with
  | Some r => mret r
  | None =>
      r ← on_db (query c (select_user email));
      match r with
      | None => mret None
      | Some id =>
          _ ← modify (fun x => set_caches (map_set email id (userIdCache (w x))) (workerIdCache (w x)) x);
          mret (Some id)
      end
  end.

Definition resolveWorkerId (c : outcome) (uid : Z) (name : jsstr) (now : Z) (known : option Z) : eff daemon Z :=
  match known with
  | Some id => mret id
  | None =>
      id ← on_db (query c (upsert_worker uid name now));
      _ ← modify (fun x => set_caches (userIdCache (w x)) (map_set (uid, name) id (workerIdCache (w x))) x);
      mret id
  end.

(** The end of [accept], [acceptReject] and [acceptSig]: push, and flush a long buffer. *)
Definition push (m : IpcMessage) (uid wid : option Z) : eff daemon unit :=
  x ← get;
  let '(b, r, g) := (buf (w x), rejectBuf (w x), sigBuf (w x)) in
  match m, uid, wid with
  | IpcShare e, _, _ =>
      let b := b ++ [{| bs_event := e; bs_userId := uid; bs_workerId := wid |}] in
      _ ← modify (set_bufs b r g);
      when (500 <? zlen b) flush
  | IpcSig e, _, _ =>
      let g := g ++ [{| bg_event := e; bg_userId := uid; bg_workerId := wid |}] in
      _ ← modify (set_bufs b r g);
      when (500 <? zlen g) flush
  | IpcReject e, Some uid, Some wid =>
      let r := r ++ [{| br_event := e; br_userId := uid; br_workerId := wid |}] in
      _ ← modify (set_bufs b r g);
      when (500 <? zlen r) flush
  | IpcReject _, _, _ => mret tt
  end.

(** The start of [accept], [acceptReject] and [acceptSig]. *)
Definition accept (m : IpcMessage) : eff daemon unit :=
  x ← get;
  await (TUser m (user_known x (msg_user m))).

(** Once the user is known: no worker for a message of nobody. *)
Definition after_user (m : IpcMessage) (uid : option Z) : eff daemon unit :=
  match uid with
  | None => push m None None
  | Some uid => x ← get; await (TWorker m uid (map_get (uid, msg_worker m) (workerIdCache (w x))))
  end.

Definition after_flush (c : outcome) (batch : list BufferedShare) (rejects : list BufferedReject) (sigs : list BufferedSig) : eff daemon unit :=
  try_catch
    (_ ← on_db (tx c (write_batch batch rejects sigs));
     for_each (fun s => when (bool_decide (bs_userId s = None)) (addAnon (se_timestampMs (bs_event s)) (se_diff (bs_event s)))) batch)
    (fun _ => modify (fun x => set_bufs (batch ++ buf (w x)) (rejects ++ rejectBuf (w x)) (sigs ++ sigBuf (w x)) x)).

(** ** Buckets *)
Definition rollBucket (now : Z) : eff daemon unit :=
  x ← get;
  let target := minuteStartMs now - 60000 in
  if bool_decide (lastBucketAt (w x) = Some target) then mret tt
  else
    _ ← modify (fun x => set_minutes (Some target) (anonByMinute (w x)) x);
    await (TBucket target).

Definition minute_shares (target : Z) (l : list share_row) : list share_row :=
  filter (fun s => target <= submitted_at s < target + 60000) l.

(** [SUM(diff) * 4294967296.0 / 60.0]. *)
Definition sum_hashrate (l : list share_row) : jsnum :=
  ndiv (nmul (foldl nadd n0 (sh_diff <$> l)) (num_of_Z 4294967296)) (num_of_Z 60).

(** [INSERT ... ON CONFLICT (key) DO UPDATE]. *)
Definition upsert {A K} `{EqDecision K} (key : A -> K) (a : A) (l : list A) : list A :=
  if bool_decide (key a ∈ key <$> l) then (fun b => if bool_decide (key b = key a) then a else b) <$> l else l ++ [a].

Definition roll_users (target : Z) (d : ledger) : list bucket_row :=
  let l := minute_shares target (shares d) in
  foldl (fun h uid =>
      let mine := filter (fun s => sh_user s = uid) l in
      upsert (fun r => (hb_user r, hb_at r)) {| hb_user := uid; hb_at := target; hb_hashrate := sum_hashrate mine; hb_shares := zlen mine |} h)
    (hashrate_buckets d) (remove_dups (sh_user <$> l)).

Definition roll_pool (target : Z) (d : ledger) : list pool_bucket_row :=
  let l := minute_shares target (shares d) in
  upsert pb_at {| pb_at := target; pb_hashrate := (match l with [] => n0 | _ => sum_hashrate l end); pb_shares := zlen l;
                  pb_miners := zlen (remove_dups (sh_user <$> l)) |} (pool_hashrate_buckets d).

(** The shares of no user are added to the row of the pool. *)
Definition add_anon (target : Z) (anon : option (jsnum * Z)) (l : list pool_bucket_row) : list pool_bucket_row :=
  match anon with
  | Some (diff, count) =>
      if 0 <? count then
        (fun r => if pb_at r =? target then
           {| pb_at := pb_at r; pb_hashrate := nadd (pb_hashrate r) (hashrateFromShares diff (num_of_Z 60));
              pb_shares := pb_shares r + count; pb_miners := pb_miners r |} else r) <$> l
      else l
  | None => l
  end.

Definition after_bucket (c : outcome) (target : Z) : eff daemon unit :=
  x ← get;
  try_catch
    (_ ← on_db (tx c (modify (fun d =>
       set_buckets (roll_users target d) (add_anon target (map_get target (anonByMinute (w x))) (roll_pool target d)) d)));
     modify (fun x => set_minutes (lastBucketAt (w x)) (map_delete target (anonByMinute (w x))) x))
    (fun _ => mret tt).

(** ** The process ([main.ts])

    The handler of a message; [void promise]: nothing awaits it. *)
Definition on_message (m : IpcMessage) : eff daemon unit :=
  _ ← accept m;
  match m with
  | IpcShare e => match block_to_record e with Some hash => await (TRecord e hash RcExisting) | None => mret tt end
  | _ => mret tt
  end.

(** The next row of a tick. *)
Definition next_row (rows : list (Z * jsstr)) : eff daemon unit :=
  match rows with
  | [] => mret tt
  | (id, hash) :: rest => await (TCheck id hash ChInfo rest)
  end.

(** [BlockConfirmer.tick]; nothing catches the failure of its query. *)
Definition confirmer_tick (o : world) : eff daemon unit :=
  rows ← on_db (query (db_answer o) (d ← get; mret (confirmer_rows d)));
  next_row rows.

(** [PayoutJob.tick]: up to its first await, unless a run is under way. *)
Definition payout_tick : eff daemon unit :=
  x ← get;
  if paying x then mret tt
  else _ ← modify (set_paying true); await (TPay PyCandidates).

Section Process.
Context (cfg : pool_config).

Definition run_task (o : world) (t : task) : eff daemon unit :=
  match t with
  | TUser m known => uid ← resolveUserId (db_answer o) (msg_user m) known; after_user m uid
  | TWorker m uid known => wid ← resolveWorkerId (db_answer o) uid (msg_worker m) (now o) known; push m (Some uid) (Some wid)
  | TFlush batch rejects sigs => after_flush (db_answer o) batch rejects sigs
  | TBucket target => after_bucket (db_answer o) target
  | TRecord e hash k =>
      k ← on_db (recordFoundBlock o e hash k);
      match k with Some k => await (TRecord e hash k) | None => mret tt end
  | TTick => confirmer_tick o
  | TCheck id hash k rest =>
      k ← try_catch (on_db (checkOne cfg o id hash k)) (fun _ => mret None);
      match k with Some k => await (TCheck id hash k rest) | None => next_row rest end
  | TPay k =>
      k ← try_catch (on_db (doPayouts cfg o k)) (fun _ => mret None);
      match k with Some k => await (TPay k) | None => modify (set_paying false) end
  end.

(** Events: a message, the two timers of the writer, the timers of the confirmer and of the
    payout job, the progress of a task. *)
Inductive event :=
| EvMessage (m : IpcMessage)
| EvFlush
| EvBucket (t : Z)
| EvConfirm
| EvPayout
| EvTask (i : nat) (o : world).

Definition handle_event (e : event) : eff daemon unit :=
  match e with
  | EvMessage m => on_message m
  | EvFlush => flush
  | EvBucket t => rollBucket t
  | EvConfirm => await TTick
  | EvPayout => payout_tick
  | EvTask i o =>
      x ← get;
      match tasks (w x) !! i with
      | None => mret tt
      | Some t => _ ← modify (set_tasks (delete i (tasks (w x)))); run_task o t
      end
  end.

(** A rejected promise without a handler ends the process. *)
Definition step (x : daemon) (e : event) : daemon :=
  if crashed (w x) then x
  else match handle_event e x with
       | (Ok _, x) => x
       | (Throw _, x) => set_crashed x
       end.
Definition run (es : list event) (x : daemon) : daemon := foldl step x es.
End Process.

Definition init_writer : writer := {|
  buf := []; rejectBuf := []; sigBuf := []; userIdCache := []; workerIdCache := []; lastBucketAt := None; anonByMinute := [];
  tasks := []; crashed := false |}.
Definition init_daemon (d : ledger) : daemon := {| w := init_writer; paying := false; db := d |}.
