(* ===== verification/DaemonProofs.v ===== *)
(** * The pool daemon: theorems

    Every share event is written, to the user it names, whatever fails and whatever order
    the handlers run in, and written again only with a batch whose commit succeeded without
    an answer; one message can end the process. *)

From S2P Require Import Prelude JsString JsMap JsNumber JsRound JsFormat Effects Numeric Address Difficulty Ipc Ledger ShareWriter.

(** ** Where a share event is *)
Definition task_events (t : task) : list ShareEvent :=
  match t with
  | TUser (IpcShare e) _ | TWorker (IpcShare e) _ _ => [e]
  | TFlush batch _ _ => bs_event <$> batch
  | _ => []
  end.

(** In a task or in the buffer: not yet in the table. *)
Definition waiting (x : daemon) : list ShareEvent := (tasks (w x) ≫= task_events) ++ (bs_event <$> buf (w x)).

(** The events that the process was given. *)
Definition delivered (es : list event) : list ShareEvent :=
  omap (fun e => match e with EvMessage (IpcShare s) => Some s | _ => None end) es.

(** The events of a batch that is committed although the writer gets an exception, and
    that it therefore queues again. *)
Definition resent_by (o : world) (t : task) (d : ledger) : list ShareEvent :=
  match t with
  | TFlush batch rejects sigs =>
      if bool_decide (db_answer o = Unanswered) && is_ok (write_batch batch rejects sigs d).1 then bs_event <$> batch else []
  | _ => []
  end.
Definition resent_at (x : daemon) (e : event) : list ShareEvent :=
  match e with
  | EvTask i o => match tasks (w x) !! i with Some t => resent_by o t (db x) | None => [] end
  | _ => []
  end.
Fixpoint resent (cfg : pool_config) (es : list event) (x : daemon) : list ShareEvent :=
  match es with
  | [] => []
  | e :: es => resent_at x e ++ resent cfg es (step cfg x e)
  end.

(** The user that an event names: the first with that mail address. *)
Definition user_of (d : ledger) (email : jsstr) : option Z :=
  if bool_decide (email = []) || includes 58 email then None
  else u_id <$> arr_find (fun u => bool_decide (u_email u = email)) (users d).

(** A row of [shares] but for the ids of the row and of the worker. *)
Definition share_data (s : share_row) : Z * jsnum * bool * option jsstr * Z :=
  (sh_user s, sh_diff s, sh_isBlock s, sh_blockHash s, submitted_at s).
Definition share_of (d : ledger) (e : ShareEvent) : option (Z * jsnum * bool * option jsstr * Z) :=
  (fun uid => (uid, se_diff e, se_isBlock e, se_blockHash e, se_timestampMs e)) <$> user_of d (se_user e).

Section Once.
Context (cfg : pool_config) (d0 : ledger).

(** What is known of a message is right: users do not change. *)
Definition share_ok (b : BufferedShare) : Prop :=
  bs_userId b = user_of d0 (se_user (bs_event b)) /\ (is_Some (bs_userId b) -> is_Some (bs_workerId b)).
Definition task_ok (t : task) : Prop :=
  match t with
  | TUser m (Some r) => r = user_of d0 (msg_user m)
  | TUser m None => user_of d0 (msg_user m) = u_id <$> arr_find (fun u => bool_decide (u_email u = msg_user m)) (users d0)
  | TWorker m uid _ => user_of d0 (msg_user m) = Some uid
  | TFlush batch _ _ => Forall share_ok batch
  | _ => True
  end.

Record daemon_ok (x : daemon) : Prop := {
  ok_users : users (db x) = users d0;
  ok_cache : forall email id, map_get email (userIdCache (w x)) = Some id ->
    user_of d0 email = Some id;
  ok_tasks : Forall task_ok (tasks (w x));
  ok_buf : Forall share_ok (buf (w x))
}.

Definition rows (x : daemon) : list (Z * jsnum * bool * option jsstr * Z) := share_data <$> shares (db x).

(** A computation that is given the events [es], writes some, and keeps the rest waiting. *)
Definition takes (es : list ShareEvent) (x x' : daemon) : Prop :=
  daemon_ok x -> daemon_ok x' /\ exists written,
    waiting x ++ es ≡ₚ waiting x' ++ written /\ rows x' = rows x ++ omap (share_of d0) written.

#[local] Instance takes_refl : Reflexive (takes []).
Proof. intros x Hx. split; [done|]. exists []. by rewrite !app_nil_r. Qed.

(** Nothing that matters here has changed. *)
Lemma takes_same x x' : users (db x') = users (db x) -> shares (db x') = shares (db x) ->
  userIdCache (w x') = userIdCache (w x) -> tasks (w x') = tasks (w x) -> buf (w x') = buf (w x) -> takes [] x x'.
Proof.
  intros E1 E2 E3 E4 E5 [H1 H2 H3 H4]. split; [constructor; by rewrite ?E1, ?E3, ?E4, ?E5|].
  exists []. rewrite !app_nil_r. unfold waiting, rows. by rewrite E2, E4, E5.
Qed.

Lemma takes_trans es es' x y z : takes es x y -> takes es' y z -> takes (es ++ es') x z.
Proof.
  intros H1 H2 Hx. destruct (H1 Hx) as (Hy & w1 & P1 & E1). destruct (H2 Hy) as (Hz & w2 & P2 & E2). split; [done|].
  exists (w1 ++ w2). rewrite E2, E1, omap_app, <- app_assoc. split; [|done].
  rewrite (app_assoc (waiting x)), P1, <- app_assoc, (Permutation_app_comm w1), app_assoc, P2, <- app_assoc.
  by rewrite (Permutation_app_comm w2).
Qed.

Lemma takes_perm es es' x x' : es ≡ₚ es' -> takes es x x' -> takes es' x x'.
Proof. intros Hp H Hx. destruct (H Hx) as (Hx' & wr & P & E). split; [done|]. exists wr. by rewrite <- Hp. Qed.

(** ** Database work that leaves users and shares alone *)
Definition same_shares (d d' : ledger) : Prop := users d' = users d /\ shares d' = shares d.
#[local] Instance same_shares_refl : Reflexive same_shares.
Proof. by intros d. Qed.
#[local] Instance same_shares_trans : Transitive same_shares.
Proof. intros d1 d2 d3 [A1 B1] [A2 B2]. split; congruence. Qed.

Lemma keeps_tx (R : ledger -> ledger -> Prop) `{!Reflexive R} {A} c (m : eff ledger A) : keeps R m -> keeps R (tx c m).
Proof. intros Hm d. unfold tx. specialize (Hm d). destruct (m d) as [[a|e] d']; [|done]. destruct c; done. Qed.
Lemma keeps_query (R : ledger -> ledger -> Prop) `{!Reflexive R} {A} c (m : eff ledger A) : keeps R m -> keeps R (query c m).
Proof. apply keeps_tx. exact _. Qed.

Lemma on_db_takes {A} (m : eff ledger A) x : keeps same_shares m -> takes [] x (on_db m x).2.
Proof.
  intros Hm. unfold on_db. destruct (Hm (db x)) as [E1 E2]. destruct (m (db x)) as [r d]. by apply takes_same.
Qed.

Lemma shares_modify f : (forall d, same_shares d (f d)) -> keeps same_shares (modify f).
Proof. apply keeps_modify. Qed.

(** The operations of the monad; statements on other tables. *)
Create HintDb shares.
Ltac keep_shares := repeat match goal with
  | |- keeps _ _ => solve [auto 2 with shares nocore]
  | |- Reflexive _ => exact same_shares_refl
  | |- Transitive _ => exact same_shares_trans
  | |- keeps _ (match _ with _ => _ end) => case_match
  | |- keeps _ _ => first [ apply keeps_bind | apply keeps_ret | apply keeps_throw | apply keeps_lift | apply keeps_get | apply keeps_try
      | apply keeps_when | apply keeps_for_each | apply keeps_tx | apply keeps_query | apply shares_modify; intros ?; split; reflexivity ]
  | |- forall _, _ => intros
  end.

Lemma recordFoundBlock_shares o e hash k : keeps same_shares (recordFoundBlock o e hash k).
Proof. unfold recordFoundBlock, insert_block, pg_texts. keep_shares. Qed.
Lemma creditPplns_shares c id k : keeps same_shares (creditPplns cfg c id k).
Proof. unfold creditPplns, select_confirmed, write_credit, update_block, credit_user, insert_entry. keep_shares. Qed.
#[local] Hint Resolve creditPplns_shares : shares.
Lemma checkOne_shares o id hash k : keeps same_shares (checkOne cfg o id hash k).
Proof. unfold checkOne, update_block. keep_shares. Qed.
Lemma doPayouts_shares o k : keeps same_shares (doPayouts cfg o k).
Proof. unfold doPayouts, write_payout, write_debit, insert_recipient, insert_entry. keep_shares. Qed.
Lemma upsert_worker_shares uid name t : keeps same_shares (upsert_worker uid name t).
Proof. unfold upsert_worker, pg_texts, update_worker. keep_shares. Qed.
Lemma select_user_shares email : keeps same_shares (select_user email).
Proof. unfold select_user, pg_texts. keep_shares. Qed.

(** ** Writing a batch *)
Lemma write_sig_shares g : keeps same_shares (write_sig g).
Proof. unfold write_sig, insertSignature, pg_texts. keep_shares. Qed.
Lemma write_reject_shares r : keeps same_shares (write_reject r).
Proof. unfold write_reject, update_worker. keep_shares. Qed.
#[local] Hint Resolve write_sig_shares write_reject_shares : shares.

Definition data (d : ledger) : list (Z * jsnum * bool * option jsstr * Z) := share_data <$> shares d.

Lemma write_share_spec b d d' : share_ok b -> write_share b d = (Ok tt, d') ->
  users d' = users d /\ data d' = data d ++ option_list (share_of d0 (bs_event b)).
Proof.
  intros [Hu Hw]. unfold write_share, share_of. rewrite <- Hu. destruct (bs_userId b) as [uid|]; cbn.
  - destruct (Hw (ex_intro _ uid eq_refl)) as [wid ->]. unfold insert_share, pg_texts, update_worker, when, insertSignature. eff_simpl.
    destruct (existsb _ _); eff_simpl; [done|]. unfold data.
    destruct (se_attest _) as [a|]; eff_simpl; [unfold pg_texts, when; destruct (existsb _ _); eff_simpl; [done|]|];
      intros [= <-]; cbn; split; try done; by rewrite fmap_app.
  - eff_simpl. rewrite app_nil_r. destruct (se_attest _) as [a|]; [|by intros [= <-]].
    unfold insertSignature, pg_texts, when. eff_simpl. destruct (existsb _ _); eff_simpl; [done|]. by intros [= <-].
Qed.

Lemma write_shares_spec bs d d' : Forall share_ok bs -> for_each write_share bs d = (Ok tt, d') ->
  users d' = users d /\ data d' = data d ++ omap (share_of d0) (bs_event <$> bs).
Proof.
  intros Hbs. revert d. induction Hbs as [|b bs Hb Hbs IH]; intros d; cbn [for_each fmap list_fmap omap list_omap].
  { intros [= <-]. by rewrite app_nil_r. }
  eff_simpl. destruct (write_share b d) as [[[]|] d1] eqn:E; [|done]. intros H.
  destruct (write_share_spec b d d1 Hb E) as [E1 E2]. destruct (IH d1 H) as [-> ->]. rewrite E1, E2. split; [done|].
  rewrite <- app_assoc. by destruct (share_of d0 (bs_event b)).
Qed.

Lemma write_batch_spec bs rs gs d d' : Forall share_ok bs -> write_batch bs rs gs d = (Ok tt, d') ->
  users d' = users d /\ data d' = data d ++ omap (share_of d0) (bs_event <$> bs).
Proof.
  intros Hbs. unfold write_batch. eff_simpl. destruct (for_each write_share bs d) as [[[]|] d1] eqn:E; [|done].
  destruct (write_shares_spec bs d d1 Hbs E) as [E1 E2].
  assert (keeps same_shares (_ ← for_each write_sig gs; for_each write_reject rs)) as Hk by keep_shares.
  intros H. specialize (Hk d1). unfold mbind, eff_bind in Hk. rewrite H in Hk. destruct Hk as [Hk1 Hk2]. cbn in *.
  unfold data in *. by rewrite Hk1, Hk2, E1, E2.
Qed.

(** ** The steps of the writer *)
Lemma await_takes t x : task_ok t -> takes (task_events t) x (set_tasks (tasks (w x) ++ [t]) x).
Proof.
  intros Ht [H1 H2 H3 H4]. split; [constructor; cbn; try done; by apply Forall_app; split; [|constructor]|]. exists []. split.
  - unfold waiting. cbn. rewrite bind_app. cbn. rewrite !app_nil_r, <- !app_assoc. by rewrite (Permutation_app_comm (task_events t)).
  - by rewrite app_nil_r.
Qed.

Lemma flush_takes x : exists x', flush x = (Ok tt, x') /\ takes [] x x'.
Proof.
  unfold flush, await. eff_simpl. destruct (_ && _); [exists x; by split|]. eexists. split; [reflexivity|].
  intros [H1 H2 H3 H4]. split; [constructor; cbn; try done; by apply Forall_app; split; [|constructor]|]. exists [].
  split; [|by rewrite app_nil_r]. unfold waiting. cbn. rewrite bind_app. cbn. by rewrite !app_nil_r.
Qed.

Lemma when_flush b x x' : when b flush x = (Ok tt, x') -> takes [] x x'.
Proof.
  destruct b; cbn; [|by intros [= <-]]. destruct (flush_takes x) as (y & E & H). rewrite E. by intros [= <-].
Qed.

(** The events of a message. *)
Definition msg_events (m : IpcMessage) : list ShareEvent := match m with IpcShare e => [e] | _ => [] end.

Lemma push_takes m uid wid x x' : uid = user_of d0 (msg_user m) -> (is_Some uid -> is_Some wid) -> push m uid wid x = (Ok tt, x') ->
  takes (msg_events m) x x'.
Proof.
  intros Hu Hw. unfold push. eff_simpl. destruct m as [e|e|e]; cbn [msg_events msg_user] in *; eff_simpl.
  - intros Hf%when_flush. eapply (takes_trans [e] []); [|exact Hf]. intros [H1 H2 H3 H4].
    split; [constructor; cbn; try done; apply Forall_app; split; [done|]; constructor; [by split|constructor]|].
    exists []. split; [|by rewrite app_nil_r]. unfold waiting. cbn. by rewrite fmap_app, app_nil_r, <- app_assoc.
  - intros Hf%when_flush. eapply (takes_trans [] []); [|exact Hf]. by apply takes_same.
  - destruct uid, wid; eff_simpl; try (by intros [= <-]). intros Hf%when_flush. eapply (takes_trans [] []); [|exact Hf].
    by apply takes_same.
Qed.

Lemma accept_takes m x x' : accept m x = (Ok tt, x') -> takes (msg_events m) x x'.
Proof.
  unfold accept. eff_simpl. unfold await, modify. intros [= <-] Hx.
  assert (task_ok (TUser m (user_known x (msg_user m)))) as Ht.
  { cbn. unfold user_known, user_of. destruct (bool_decide _ || _) eqn:E; [done|].
    destruct (map_get _ _) as [id|] eqn:Eg; cbn; [|done]. apply (ok_cache x Hx) in Eg. unfold user_of in Eg. by rewrite E in Eg. }
  destruct m; by apply (await_takes _ x Ht).
Qed.

Lemma resolveUserId_takes c m k x r x' : task_ok (TUser m k) -> resolveUserId c (msg_user m) k x = (Ok r, x') ->
  takes [] x x' /\ (daemon_ok x -> r = user_of d0 (msg_user m)).
Proof.
  intros Ht. unfold resolveUserId. destruct k as [r'|]; [by intros [= <- <-]|]. cbn in Ht.
  unfold on_db, query, tx, select_user, pg_texts, when. eff_simpl. destruct (existsb _ _); eff_simpl; [done|]. destruct c; [|done..].
  destruct (arr_find _ (users (db x))) as [u|] eqn:E; cbn [fmap option_fmap option_map]; eff_simpl.
  - intros [= <- <-]. split.
    + intros [H1 H2 H3 H4]. rewrite H1 in E. rewrite E in Ht. split; [|exists []; by rewrite !app_nil_r].
      constructor; cbn; try done. intros email id. destruct (decide (email = msg_user m)) as [->|Hne].
      * rewrite map_set_get. by intros [= <-].
      * rewrite map_set_other by done. apply H2.
    + intros [H1 _ _ _]. rewrite H1 in E. by rewrite Ht, E.
  - intros [= <- <-]. split; [|intros [H1 _ _ _]; rewrite H1 in E; by rewrite Ht, E].
    by apply takes_same.
Qed.

Lemma after_user_takes m uid x x' : uid = user_of d0 (msg_user m) -> after_user m uid x = (Ok tt, x') -> takes (msg_events m) x x'.
Proof.
  intros Hu. destruct uid as [uid|]; cbn [after_user].
  - eff_simpl. unfold await, modify. intros [= <-]. set (t := TWorker _ _ _).
    assert (task_ok t) as Ht by (cbn; done). destruct m; by apply (await_takes t x Ht).
  - intros H. eapply push_takes; [exact Hu|by intros [? ?]|exact H].
Qed.

Lemma resolveWorkerId_takes c uid name t k x r x' : resolveWorkerId c uid name t k x = (Ok r, x') -> takes [] x x'.
Proof.
  unfold resolveWorkerId. destruct k as [r'|]; [by intros [= <- <-]|]. unfold mbind, eff_bind.
  pose proof (on_db_takes (query c (upsert_worker uid name t)) x (keeps_query _ _ _ (upsert_worker_shares uid name t))) as H.
  destruct (on_db _ x) as [[id|] y]; [|done]. intros [= <- <-]. eapply (takes_trans [] []); [exact H|].
  by apply takes_same.
Qed.

Lemma anon_takes bs x : exists x', for_each (fun s => when (bool_decide (bs_userId s = None))
  (addAnon (se_timestampMs (bs_event s)) (se_diff (bs_event s)))) bs x = (Ok tt, x') /\ takes [] x x'.
Proof.
  revert x. induction bs as [|b bs IH]; intros x; cbn [for_each]; [exists x; by split|]. eff_simpl.
  unfold when. case_bool_decide; eff_simpl; [|apply IH]. unfold addAnon. eff_simpl.
  set (y := let '(_, _) := _ in _). destruct (IH y) as (z & E & Hz). exists z. split; [exact E|].
  eapply (takes_trans [] []); [|exact Hz]. subst y. destruct (default _ _). by apply takes_same.
Qed.

Lemma after_flush_takes o bs rs gs x x' : Forall share_ok bs -> after_flush (db_answer o) bs rs gs x = (Ok tt, x') ->
  takes ((bs_event <$> bs) ++ resent_by o (TFlush bs rs gs) (db x)) x x'.
Proof.
  intros Hbs. unfold after_flush, try_catch, resent_by. unfold mbind, eff_bind. unfold on_db at 1, tx at 1.
  set (requeued := fun d => set_bufs (bs ++ buf (w x)) (rs ++ rejectBuf (w x)) (gs ++ sigBuf (w x)) (set_db d x)).
  assert (forall d, users d = users (db x) -> forall wr, data d = data (db x) ++ omap (share_of d0) wr ->
    takes ((bs_event <$> bs) ++ wr) x (requeued d)) as Hq.
  { intros d Eu wr Ed [H1 H2 H3 H4]. split; [constructor; cbn; try done; [by rewrite Eu|by apply Forall_app]|]. exists wr. split; [|exact Ed].
    unfold waiting. cbn. rewrite fmap_app, !app_assoc. f_equiv. rewrite <- !app_assoc. by rewrite (Permutation_app_comm (bs_event <$> buf (w x))). }
  pose proof (Hq (db x) eq_refl [] ltac:(by rewrite app_nil_r)) as Hlost.
  destruct (write_batch bs rs gs (db x)) as [[[]|e] d] eqn:E; cbn [fst is_ok].
  2: { rewrite andb_false_r. by intros [= <-]. }
  destruct (write_batch_spec _ _ _ _ _ Hbs E) as [E1 E2]. destruct (db_answer o); cbn [bool_decide andb decide].
  - destruct (anon_takes bs (set_db d x)) as (y & -> & Hy). intros [= <-]. eapply takes_trans; [|exact Hy]. intros [H1 H2 H3 H4].
    split; [constructor; cbn; try done; by rewrite E1|]. by exists (bs_event <$> bs).
  - by intros [= <-].
  - intros [= <-]. by apply Hq.
Qed.

Lemma after_bucket_takes c t x x' : after_bucket c t x = (Ok tt, x') -> takes [] x x'.
Proof.
  unfold after_bucket, try_catch. eff_simpl. unfold on_db at 1, tx at 1. cbn [set_buckets].
  destruct c; intros [= <-]; by apply takes_same.
Qed.

(** A task that goes on or ends, without events of its own. *)
Lemma goes_on_takes {A} (m : eff daemon (option A)) (next : A -> task) (stop : eff daemon unit) x x' :
  takes [] x (m x).2 -> (forall k, task_ok (next k) /\ task_events (next k) = []) ->
  (forall y y', stop y = (Ok tt, y') -> takes [] y y') ->
  (k ← m; match k with Some k => await (next k) | None => stop end) x = (Ok tt, x') -> takes [] x x'.
Proof.
  intros Hm Hn Hs. unfold mbind, eff_bind. destruct (m x) as [[[k|]|e] y]; cbn [snd] in Hm; [|..|done].
  - unfold await, modify. intros [= <-]. eapply (takes_trans [] []); [exact Hm|]. destruct (Hn k) as [Ht <-]. by apply await_takes.
  - intros Hy%Hs. by eapply (takes_trans [] []).
Qed.

Lemma next_row_takes rows x x' : next_row rows x = (Ok tt, x') -> takes [] x x'.
Proof.
  destruct rows as [|[id hash] rest]; [by intros [= <-]|]. unfold next_row, await, modify. intros [= <-].
  exact (await_takes (TCheck id hash ChInfo rest) x I).
Qed.

Lemma caught_takes {A} (m : eff ledger (option A)) x : keeps same_shares m -> takes [] x (try_catch (on_db m) (fun _ => mret None) x).2.
Proof. intros Hm. unfold try_catch. pose proof (on_db_takes m x Hm) as H. by destruct (on_db m x) as [[]]. Qed.

Lemma run_task_takes o t x x' : task_ok t -> run_task cfg o t x = (Ok tt, x') -> takes (task_events t ++ resent_by o t (db x)) x x'.
Proof.
  intros Ht. destruct t as [m k|m uid k|bs rs gs|t|e hash k| |id hash k rest|k]; cbn [run_task];
    try (cbn [task_events resent_by]; rewrite app_nil_r).
  - unfold mbind, eff_bind. destruct (resolveUserId _ _ _ _) as [[uid|] y] eqn:E; [|done]. intros H Hx.
    destruct (resolveUserId_takes _ _ _ _ _ _ Ht E) as [H1 H2]. specialize (H2 Hx).
    pose proof (takes_trans _ _ _ _ _ H1 (after_user_takes _ _ _ _ H2 H) Hx) as Hr. by destruct m.
  - unfold mbind, eff_bind. destruct (resolveWorkerId _ _ _ _ _ _) as [[wid|] y] eqn:E; [|done]. intros H.
    pose proof (resolveWorkerId_takes _ _ _ _ _ _ _ _ E) as H1.
    apply push_takes in H; [|done|by eexists]. pose proof (takes_trans _ _ _ _ _ H1 H) as Hr. by destruct m.
  - by apply after_flush_takes.
  - apply after_bucket_takes.
  - apply (goes_on_takes _ (TRecord e hash) (mret tt)); [|done|by intros y y' [= <-]].
    apply on_db_takes, recordFoundBlock_shares.
  - unfold confirmer_tick, mbind, eff_bind.
    pose proof (on_db_takes (query (db_answer o) (d ← get; mret (confirmer_rows d))) x ltac:(keep_shares)) as H.
    destruct (on_db _ x) as [[rows|] y]; [|done]. intros Hr%next_row_takes. by eapply (takes_trans [] []).
  - apply (goes_on_takes _ (fun k => TCheck id hash k rest) (next_row rest)); [|done|apply next_row_takes].
    apply caught_takes, checkOne_shares.
  - apply (goes_on_takes _ TPay (modify (set_paying false))); [|done|by intros y y' [= <-]; apply takes_same].
    apply caught_takes, doPayouts_shares.
Qed.

(** ** All events *)
Lemma handle_takes e x x' : handle_event cfg e x = (Ok tt, x') ->
  takes ((match e with EvMessage m => msg_events m | _ => [] end) ++ resent_at x e) x x'.
Proof.
  destruct e as [m| |t| | |i o]; cbn [handle_event resent_at]; try rewrite app_nil_r.
  - unfold on_message, mbind, eff_bind. destruct (accept m x) as [[[]|] y] eqn:E; [|done]. apply accept_takes in E.
    destruct m as [s| |]; [|by intros [= <-]..]. destruct (block_to_record s) as [hash|]; [|by intros [= <-]].
    unfold await, modify. intros [= <-]. exact (takes_trans [s] [] _ _ _ E (await_takes (TRecord s hash RcExisting) y I)).
  - destruct (flush_takes x) as (y & E & H). rewrite E. by intros [= <-].
  - unfold rollBucket. eff_simpl. case_bool_decide; [by intros [= <-]|]. unfold await, modify. intros [= <-].
    set (y := set_minutes _ _ x). assert (takes [] x y) as Hy by (by apply takes_same).
    exact (takes_trans [] [] _ _ _ Hy (await_takes (TBucket _) y I)).
  - unfold await, modify. intros [= <-]. exact (await_takes TTick x I).
  - unfold payout_tick. eff_simpl. destruct (paying x); [by intros [= <-]|]. unfold await, modify. intros [= <-].
    set (y := set_paying true x). assert (takes [] x y) as Hy by (by apply takes_same).
    exact (takes_trans [] [] _ _ _ Hy (await_takes (TPay _) y I)).
  - eff_simpl. destruct (tasks (w x) !! i) as [t|] eqn:Et; [|by intros [= <-]]. intros H Hx. pose proof Hx as [H1 H2 H3 H4].
    assert (task_ok t) as Ht by (by eapply Forall_lookup_1). apply run_task_takes in H; [|done].
    destruct H as (H' & wr & P & E).
    { constructor; cbn; try done. by apply Forall_delete. }
    split; [done|]. exists wr. split; [|done]. rewrite <- P. unfold waiting. cbn. rewrite !app_assoc. f_equiv.
    rewrite <- app_assoc, (Permutation_app_comm (bs_event <$> _)), app_assoc. f_equiv.
    pose proof (delete_Permutation (tasks (w x)) i t Et) as Pd. rewrite Pd at 1. cbn. by rewrite Permutation_app_comm.
Qed.

Lemma run_crashed es x : crashed (w x) = true -> run cfg es x = x.
Proof.
  intros Hx. induction es as [|e es IH]; [done|]. change (run cfg es (step cfg x e) = x).
  replace (step cfg x e) with x; [done|]. unfold step. by rewrite Hx.
Qed.

Lemma step_alive e x : crashed (w (step cfg x e)) = false -> handle_event cfg e x = (Ok tt, step cfg x e).
Proof. unfold step. destruct (crashed (w x)) eqn:Ex; [congruence|]. by destruct (handle_event cfg e x) as [[[]|err] y]. Qed.

Lemma run_takes es x : crashed (w (run cfg es x)) = false -> takes (delivered es ++ resent cfg es x) x (run cfg es x).
Proof.
  revert x. induction es as [|e es IH]; intros x; [intros _; apply takes_refl|].
  change (run cfg (e :: es) x) with (run cfg es (step cfg x e)). intros Hc. pose proof (IH _ Hc) as Hr.
  assert (crashed (w (step cfg x e)) = false) as Hs.
  { destruct (crashed (w (step cfg x e))) eqn:E; [|done]. by rewrite run_crashed, E in Hc. }
  apply step_alive, handle_takes in Hs. pose proof (takes_trans _ _ _ _ _ Hs Hr) as H. eapply takes_perm; [|exact H].
  cbn [resent]. set (given := match e with EvMessage m => msg_events m | _ => [] end).
  assert (delivered (e :: es) = given ++ delivered es) as -> by (subst given; by destruct e as [[]| | | | |]).
  rewrite <- !app_assoc. f_equiv. rewrite !app_assoc. f_equiv. apply Permutation_app_comm.
Qed.

Lemma init_ok : daemon_ok (init_daemon d0).
Proof. constructor; try done; constructor. Qed.
End Once.


Lemma user_unknown d email : 0 ∈ email -> includes 58 email = false -> user_known (init_daemon d) email = None.
Proof.
  intros H0 H58. unfold user_known. rewrite H58, bool_decide_false by (by intros E; rewrite E in H0; apply elem_of_nil in H0). done.
Qed.

(** C35: one message ends the daemon.  A rejected share whose user name has a NUL character
    (which any connection may choose, and JSON may carry) makes the lookup of its user fail;
    nothing catches this, so the process ends, with all that its buffers hold. *)
Theorem nul_user_ends_daemon cfg d o e : 0 ∈ re_user e -> includes 58 (re_user e) = false ->
  crashed (w (run cfg [EvMessage (IpcReject e); EvTask 0 o] (init_daemon d))) = true.
Proof.
  intros H0 H58. unfold run. cbn [foldl].
  replace (step cfg (init_daemon d) (EvMessage (IpcReject e))) with (set_tasks [TUser (IpcReject e) None] (init_daemon d)).
  2: { rewrite <- (user_unknown d (re_user e)) by done. reflexivity. }
  unfold step. cbn [crashed w set_tasks init_daemon init_writer handle_event]. eff_simpl.
  cbn [tasks w set_tasks lookup list_lookup delete list_delete run_task resolveUserId msg_user]. eff_simpl. unfold when.
  unfold on_db, query, tx, select_user, pg_texts, when. eff_simpl. cbn [existsb orb]. unfold includes. by rewrite bool_decide_true.
Qed.
