(* ===== verification/CreditProofs.v ===== *)
(** * Blocks are credited once

    An invariant of the ledger in every run of the daemon in which no two ticks of the
    confirmer overlap: the users of a block are credited at most once each, and only for a
    block that is confirmed, not orphaned and marked as credited.  What the separation of
    confirmation and credit can lose, and what a payout that is not recorded pays. *)

From S2P Require Import Prelude JsString JsMap JsNumber JsRound JsFormat Effects Numeric Address Difficulty Ipc Ledger.
From S2P Require Import LedgerProofs PplnsProofs ShareWriter DaemonProofs.

(** ** The invariant *)
Definition credits (es : list entry_row) : list (Z * Z) := omap (fun e => (fun b => (b, e_user e)) <$> e_block e) es.
Definition settled (b : block_row) : Prop := pplns_credited b = true /\ is_confirmed b = true /\ is_orphan b = false.

Record ledger_inv (d : ledger) : Prop := {
  inv_ids : NoDup (b_id <$> blocks d);
  inv_next : Forall (fun b => b_id b < next_block d) (blocks d);
  inv_credit : forall k, k ∈ credits (entries d) -> exists b, b ∈ blocks d /\ b_id b = k.1 /\ settled b;
  inv_once : NoDup (credits (entries d))
}.

Lemma credits_app l k : credits (l ++ k) = credits l ++ credits k.
Proof. apply omap_app. Qed.
Lemma credits_none l : Forall (fun e => e_block e = None) l -> credits l = [].
Proof. induction 1 as [|e l He _ IH]; [done|]. cbn. rewrite He. exact IH. Qed.
Lemma credits_of bid l : Forall (fun e => e_block e = Some bid) l -> credits l = (fun u => (bid, u)) <$> (e_user <$> l).
Proof. induction 1 as [|e l He _ IH]; [done|]. cbn. rewrite He. cbn. f_equal. exact IH. Qed.

(** Rows that no part of the invariant mentions. *)
Lemma inv_same d d' : blocks d' = blocks d -> next_block d' = next_block d -> credits (entries d') = credits (entries d) ->
  ledger_inv d -> ledger_inv d'.
Proof. intros E1 E2 E3 [H1 H2 H3 H4]. constructor; by rewrite ?E1, ?E2, ?E3. Qed.

(** ** Changing a block *)
Definition changed (id : Z) (f : block_row -> block_row) (d : ledger) : ledger :=
  set_blocks ((fun b => if b_id b =? id then f b else b) <$> blocks d) (next_block d) d.

Lemma update_block_run id f d : update_block id f d = (Ok tt, changed id f d).
Proof. done. Qed.

Lemma changed_ids id f d : (forall b, b_id (f b) = b_id b) -> b_id <$> blocks (changed id f d) = b_id <$> blocks d.
Proof.
  intros Hf. cbn. rewrite <- list_fmap_compose. apply list_fmap_ext. intros _ b _. unfold compose. case_match; [apply Hf|done].
Qed.

Lemma changed_inv id f d : (forall b, b_id (f b) = b_id b) -> (forall b, b ∈ blocks d -> b_id b = id -> settled b -> settled (f b)) ->
  ledger_inv d -> ledger_inv (changed id f d).
Proof.
  intros Hf Hd [H1 H2 H3 H4]. constructor.
  - by rewrite changed_ids.
  - change (Forall ((fun i => i < next_block d) ∘ b_id) (blocks (changed id f d))).
    rewrite <- Forall_fmap, changed_ids by exact Hf. by apply Forall_fmap.
  - intros k Hk. destruct (H3 k Hk) as (b & Hb & E & Hdone). exists (if b_id b =? id then f b else b). split; [|split].
    + cbn. by apply (list_elem_of_fmap_2 (fun b => if b_id b =? id then f b else b)).
    + case_match; [by rewrite Hf|done].
    + destruct (Z.eqb_spec (b_id b) id); [by apply Hd|done].
  - done.
Qed.

(** ** Crediting *)
Lemma insert_entry_run e d d' : insert_entry e d = (Ok tt, d') -> d' = set_entries (entries d ++ [e]) d.
Proof. unfold insert_entry. eff_simpl. case_bool_decide; [|done]. by intros [= <-]. Qed.

Lemma set_entries_twice l k d : set_entries l (set_entries k d) = set_entries l d.
Proof. done. Qed.

Lemma credit_users_run bid sum dist ts d d' : for_each (credit_user bid sum dist) ts d = (Ok tt, d') ->
  exists es, d' = set_entries (entries d ++ es) d /\ Forall (fun e => e_block e = Some bid) es /\ (e_user <$> es) `sublist_of` ts.*1.
Proof.
  revert d. induction ts as [|t ts IH]; intros d; cbn [for_each].
  { intros [= <-]. exists []. rewrite app_nil_r. split; [by destruct d|]. by split; [constructor|]. }
  eff_simpl. destruct (credit_user bid sum dist t d) as [[[]|] d1] eqn:E; [|done]. intros (es & -> & Hb & Hs)%IH.
  unfold credit_user in E. cbn [fmap list_fmap]. destruct (nle _ _).
  { injection E as <-. exists es. split; [done|]. split; [done|]. by apply sublist_cons. }
  revert E. eff_simpl. destruct (to_numeric _) as [a|]; [|done]. intros E%insert_entry_run. subst d1.
  eexists (_ :: es). split; [cbn; by rewrite <- app_assoc|]. split; [by constructor|]. by apply sublist_skip.
Qed.

Lemma arr_find_block (p : block_row -> bool) d b : arr_find p (blocks d) = Some b -> b ∈ blocks d /\ p b = true.
Proof. apply arr_find_some. Qed.

(** A block of the invariant that is not marked has no credit. *)
Lemma unmarked_no_credit d bid u : ledger_inv d -> (forall b, b ∈ blocks d -> b_id b = bid -> ~ settled b) -> (bid, u) ∉ credits (entries d).
Proof. intros Hi Hn Hk. destruct (inv_credit d Hi _ Hk) as (b & Hb & E & Hs). exact (Hn b Hb E Hs). Qed.

Lemma credit_inv d bid b es fee : ledger_inv d -> b ∈ blocks d -> b_id b = bid -> is_confirmed b = true -> is_orphan b = false ->
  pplns_credited b = false -> Forall (fun e => e_block e = Some bid) es -> NoDup (e_user <$> es) ->
  ledger_inv (changed bid (set_credited true fee) (set_entries (entries d ++ es) d)).
Proof.
  intros Hi Hb Eb Hc Ho Hp Hes Hnd. assert (forall u, (bid, u) ∉ credits (entries d)) as Hno.
  { intros u. apply unmarked_no_credit; [done|]. intros b' Hb' Eb' (Hs & _).
    assert (b' = b) by (by apply (nodup_inj b_id (blocks d)); [apply Hi|..|congruence]). congruence. }
  destruct Hi as [H1 H2 H3 H4]. constructor.
  - by rewrite changed_ids.
  - change (Forall ((fun i => i < next_block d) ∘ b_id) (blocks (changed bid (set_credited true fee) d))).
    rewrite <- Forall_fmap, changed_ids by done. by apply Forall_fmap.
  - cbn [changed entries set_blocks set_entries]. intros k. rewrite credits_app, elem_of_app.
    set (g := fun b0 => if b_id b0 =? bid then set_credited true fee b0 else b0).
    change (blocks (changed _ _ _)) with (g <$> blocks d). intros [Hk|Hk].
    + destruct (H3 k Hk) as (c & Hc' & Ec & Hs). exists (g c). split; [by apply (list_elem_of_fmap_2 g)|]. subst g. cbv beta.
      destruct (Z.eqb_spec (b_id c) bid); [split; [done|]; by destruct Hs as (_ & ? & ?)|done].
    + rewrite (credits_of bid es Hes) in Hk. apply list_elem_of_fmap in Hk as (u & -> & _). exists (g b). cbn [fst].
      split; [by apply (list_elem_of_fmap_2 g)|]. subst g. cbv beta. rewrite Eb, Z.eqb_refl. by split; [|split].
  - cbn [changed entries set_blocks set_entries]. rewrite credits_app, (credits_of bid es Hes). apply NoDup_app. split; [done|]. split.
    + intros [b' u] Hk (u' & E & _)%list_elem_of_fmap. injection E as -> ->. by apply (Hno u').
    + by apply NoDup_fmap_2; [intros ?? [= ->]|].
Qed.

(** No row of this id is confirmed. *)
Definition unconfirmed (d : ledger) (id : Z) : Prop := forall b, b ∈ blocks d -> b_id b = id -> is_confirmed b = false.

Lemma changed_unconfirmed id f d j : (forall b, b_id (f b) = b_id b) -> (forall b, is_confirmed (f b) = is_confirmed b) \/ j <> id ->
  unconfirmed d j -> unconfirmed (changed id f d) j.
Proof.
  intros Hf Hc Hu b. cbn. rewrite list_elem_of_fmap. intros (c & -> & Hcin). destruct (Z.eqb_spec (b_id c) id) as [E|]; [|by apply Hu].
  rewrite Hf. intros Ej. destruct Hc as [Hc|Hc]; [rewrite Hc; by apply Hu|congruence].
Qed.

(** A row that may be credited. *)
Definition creditable (d : ledger) (id : Z) : Prop :=
  exists b, b ∈ blocks d /\ b_id b = id /\ is_confirmed b = true /\ is_orphan b = false /\ pplns_credited b = false.

(** What a tick knows of the row that it is at. *)
Definition check_ok (d : ledger) (id : Z) (k : check_at) : Prop :=
  match k with
  | ChInfo | ChOrphan _ | ChCount _ | ChConfirm => unconfirmed d id
  | ChCredit CrBlock => True
  | ChCredit (CrShares _) | ChCredit (CrWrite _) => creditable d id
  end.

(** A statement on a block. *)
Lemma query_cases {A} c (m : eff ledger A) d d1 a : m d = (Ok a, d1) ->
  query c m d = (Ok a, d1) \/ (exists e, query c m d = (Throw e, d)) \/ (exists e, query c m d = (Throw e, d1)).
Proof. intros E. unfold query, tx. rewrite E. destruct c; eauto. Qed.

Section Confirm.
Context (cfg : pool_config).

(** The transaction of a credit. *)
Lemma write_credit_inv c id p d : ledger_inv d -> creditable d id ->
  let d' := (write_credit cfg c id p d).2 in ledger_inv d' /\ forall j, unconfirmed d j -> unconfirmed d' j.
Proof.
  intros Hi (blk & Hb & Eb & Hc & Ho & Ecr) d'. subst d'.
  assert (forall es fee, Forall (fun e => e_block e = Some id) es -> NoDup (e_user <$> es) ->
    let d' := changed id (set_credited true fee) (set_entries (entries d ++ es) d) in
    ledger_inv d' /\ forall j, unconfirmed d j -> unconfirmed d' j) as Hkey.
  { intros es fee Hes Hnd. split; [by eapply credit_inv|]. intros j Hj.
    change (unconfirmed (changed id (set_credited true fee) d) j). apply changed_unconfirmed; auto. }
  unfold write_credit. destruct (c_shares p) as [|s l]; unfold tx; eff_simpl.
  - destruct (to_numeric _) as [fee|]; [|done]. rewrite update_block_run.
    specialize (Hkey [] fee ltac:(constructor) ltac:(constructor)). rewrite app_nil_r in Hkey. by destruct c, d.
  - destruct (share_totals_spec (s :: l)) as (ts & -> & Hnd & _).
    destruct (for_each _ _ _) as [[[]|] d1] eqn:E; [|done]. apply credit_users_run in E as (es & -> & Hes & Hs).
    destruct (to_numeric _) as [fee|]; [|done]. rewrite update_block_run.
    specialize (Hkey es fee Hes ltac:(by eapply sublist_NoDup)). by destruct c.
Qed.

(** An update of the row, answered or not, that keeps it unconfirmed or confirms it. *)
Lemma update_query_inv c id f d (P : ledger -> Prop) : ledger_inv d -> ledger_inv (changed id f d) -> P d -> P (changed id f d) ->
  ledger_inv (query c (update_block id f) d).2 /\ P (query c (update_block id f) d).2.
Proof.
  intros H1 H2 H3 H4. destruct (query_cases c (update_block id f) d _ _ (update_block_run id f d)) as [->|[[e ->]|[e ->]]]; auto.
Qed.

Lemma unconfirmed_update id f d : (forall b, b_id (f b) = b_id b) -> unconfirmed d id -> ledger_inv d -> ledger_inv (changed id f d).
Proof. intros Hf Hu Hi. apply changed_inv; [done| |done]. intros b Hb E (_ & Hc & _). by rewrite (Hu b Hb E) in Hc. Qed.

(** One step of [checkOne]; the rows [ids] are others. *)
Definition others (ids : list Z) (d : ledger) : Prop := Forall (unconfirmed d) ids.
Lemma others_changed ids id f d : (forall b, b_id (f b) = b_id b) -> (id ∉ ids) -> others ids d -> others ids (changed id f d).
Proof.
  intros Hf Hid Ho. unfold others in *. rewrite list.Forall_forall in *. intros j Hj. apply changed_unconfirmed; [done|right; congruence|].
  by apply Ho.
Qed.

Lemma creditPplns_inv c id k ids d : ledger_inv d -> (id ∉ ids) -> check_ok d id (ChCredit k) -> others ids d ->
  let r := creditPplns cfg c id k d in ledger_inv r.2 /\ others ids r.2 /\
    forall k', r.1 = Ok (Some k') -> check_ok r.2 id (ChCredit k').
Proof.
  intros Hi Hid Hk Ho. destruct k as [|b|p]; cbn [creditPplns check_ok] in *; cbv zeta.
  - unfold query, select_confirmed, tx. eff_simpl. destruct c; [|done..].
    destruct (arr_find _ _) as [b|] eqn:Ef; [|done]. destruct (pplns_credited b) eqn:Ec; [done|]. split; [done|]. split; [done|].
    intros k' [= <-]. apply arr_find_some in Ef as [Hb Hp]. apply andb_prop in Hp as [Hp Hor]. apply andb_prop in Hp as [Hp Hc].
    apply Z.eqb_eq in Hp. apply negb_true_iff in Hor. by exists b.
  - unfold query, tx. eff_simpl. destruct c; [|done..]. split; [done|]. split; [done|]. by intros k' [= <-].
  - destruct (write_credit_inv c id p d Hi Hk) as [H1 H2]. eff_simpl. destruct (write_credit cfg c id p d) as [[[]|e] d']; cbn in *.
    all: (split; [done|]; split; [|done]; eapply Forall_impl; [exact Ho|]; auto).
Qed.

Lemma checkOne_inv o id hash k ids d : ledger_inv d -> (id ∉ ids) -> check_ok d id k -> others ids d ->
  let r := checkOne cfg o id hash k d in ledger_inv r.2 /\ others ids r.2 /\ forall k', r.1 = Ok (Some k') -> check_ok r.2 id k'.
Proof.
  intros Hi Hid Hk Ho. destruct k as [|n|n| |k]; cbn [checkOne check_ok] in *; cbv zeta; unfold mbind at 1 2 3 4, eff_bind at 1 2 3 4.
  - unfold lift. destruct (getBlock o hash) as [[info|]|]; [|..|done]; (split; [done|]; split; [done|]; intros k' [= <-]); [by case_match|done].
  - destruct (update_query_inv (db_answer o) id (set_orphan n) d (others ids)) as [H1 H2]; [done|by apply unconfirmed_update|done|by apply others_changed|].
    by destruct (query _ _ _) as [[[]|] d'].
  - destruct (update_query_inv (db_answer o) id (set_confirmations n) d (fun d => others ids d /\ unconfirmed d id)) as [H1 [H2 H3]];
      [done|by apply unconfirmed_update|done|split; [by apply others_changed|by apply changed_unconfirmed; auto]|].
    destruct (query _ _ _) as [[[]|] d']; cbn [fst snd] in *; [|done]. split; [done|]. split; [done|]. by case_match; intros k' [= <-].
  - destruct (update_query_inv (db_answer o) id set_confirmed d (others ids)) as [H1 H2]; [done|by apply unconfirmed_update|done|by apply others_changed|].
    destruct (query _ _ _) as [[[]|] d']; cbn [fst snd] in *; [|done]. split; [done|]. split; [done|]. by intros k' [= <-].
  - destruct (creditPplns_inv (db_answer o) id k ids d Hi Hid Hk Ho) as (H1 & H2 & H3).
    destruct (creditPplns _ _ _ _ _) as [[[k'|]|e] d']; cbn [fst snd] in *; (split; [done|]; split; [done|]); [|done..].
    intros k2 [= <-]. by apply H3.
Qed.

Lemma confirmer_rows_ok d : NoDup (b_id <$> blocks d) -> NoDup (confirmer_rows d).*1 /\ Forall (unconfirmed d) (confirmer_rows d).*1.
Proof.
  intros H1. unfold confirmer_rows. rewrite <- list_fmap_compose. change (fst ∘ (fun b => (b_id b, b_hash b))) with b_id.
  set (l := filter _ (blocks d)).
  assert (NoDup (b_id <$> sort_by b_id l)) as Hs.
  { rewrite sort_by_perm. eapply sublist_NoDup; [exact H1|]. apply fmap_sublist, sublist_filter. }
  split.
  - rewrite <- (take_drop 200 (sort_by b_id l)), fmap_app in Hs. by apply NoDup_app in Hs as [Hs _].
  - apply Forall_fmap, list.Forall_forall. intros r Hr b Hb E. apply elem_of_take in Hr as (i & Hr & _). apply list_elem_of_lookup_2, sort_by_elem in Hr.
    apply list_elem_of_filter in Hr as [[Hc _] Hr]. by replace b with r by (by apply (nodup_inj b_id (blocks d))).
Qed.
End Confirm.

(** ** Everything else the daemon does *)

(** Other work keeps the invariant, adds no confirmed row and removes none. *)
Definition frame (d d' : ledger) : Prop := ledger_inv d ->
  ledger_inv d' /\ (forall b, b ∈ blocks d -> b ∈ blocks d') /\ forall j, unconfirmed d j -> unconfirmed d' j.
#[global] Instance frame_refl : Reflexive frame.
Proof. intros d H. auto. Qed.
#[global] Instance frame_trans : Transitive frame.
Proof. intros d1 d2 d3 H1 H2 H. destruct (H1 H) as (A1 & B1 & C1). destruct (H2 A1) as (A2 & B2 & C2). auto. Qed.

Lemma frame_same d d' : blocks d' = blocks d -> next_block d' = next_block d -> credits (entries d') = credits (entries d) -> frame d d'.
Proof. intros E1 E2 E3 H. split; [by apply (inv_same d)|]. unfold unconfirmed. by rewrite E1. Qed.
Lemma frame_modify f : (forall d, frame d (f d)) -> keeps frame (modify f).
Proof. apply keeps_modify. Qed.

Create HintDb kinv.
Ltac keep_inv := repeat match goal with
  | |- keeps _ _ => solve [auto 2 with kinv nocore]
  | |- Reflexive _ => exact frame_refl
  | |- Transitive _ => exact frame_trans
  | |- keeps _ (match _ with _ => _ end) => case_match
  | |- keeps _ _ => first [ apply keeps_bind | apply keeps_ret | apply keeps_throw | apply keeps_lift | apply keeps_get | apply keeps_try
      | apply keeps_when | apply keeps_for_each | apply keeps_tx | apply keeps_query | apply frame_modify; intros ?; apply frame_same; reflexivity ]
  | |- forall _, _ => intros
  end.

Lemma insert_debit_inv e : e_block e = None -> keeps frame (insert_entry e).
Proof.
  intros He. unfold insert_entry. keep_inv. apply frame_modify. intros d. apply frame_same; [done..|].
  cbn. rewrite credits_app. cbn. rewrite He. by rewrite app_nil_r.
Qed.
#[local] Hint Extern 1 (keeps frame (insert_entry _)) => apply insert_debit_inv; reflexivity : kinv.
Lemma write_debit_inv pid x : keeps frame (write_debit pid x).
Proof. unfold write_debit, insert_recipient. keep_inv. Qed.
#[local] Hint Resolve write_debit_inv : kinv.
Lemma doPayouts_inv cfg o k : keeps frame (doPayouts cfg o k).
Proof. unfold doPayouts, write_payout. keep_inv. Qed.

Lemma insert_block_inv height hash finder worker reward t : keeps frame (insert_block height hash finder worker reward t).
Proof.
  unfold insert_block. keep_inv. apply frame_modify. intros d [I1 I2 I3 I4]. split; [constructor; cbn|split; cbn].
  - rewrite fmap_app. apply NoDup_app. split; [done|]. split; [|apply NoDup_singleton]. intros i Hi Hn.
    apply list_elem_of_singleton in Hn. apply list_elem_of_fmap in Hi as (c & -> & Hc). rewrite list.Forall_forall in I2.
    specialize (I2 c Hc). cbn in Hn. lia.
  - apply Forall_app. split; [eapply Forall_impl; [exact I2|]; cbn; lia|]. constructor; [cbn; lia|constructor].
  - intros k Hk. destruct (I3 k Hk) as (c & Hc & ?). exists c. by rewrite elem_of_app; auto.
  - done.
  - intros b Hb. rewrite elem_of_app. by left.
  - intros j Hj b. cbn. rewrite elem_of_app, list_elem_of_singleton. intros [Hb| ->]; [by apply Hj|done].
Qed.
#[local] Hint Resolve insert_block_inv : kinv.
Lemma recordFoundBlock_inv o e hash k : keeps frame (recordFoundBlock o e hash k).
Proof. unfold recordFoundBlock, pg_texts. keep_inv. Qed.

(** ** From the database to the daemon

    What every computation on the database that is not part of a tick keeps, every event
    of the daemon that is not part of a tick keeps, and it leaves the ticks alone. *)
Definition is_tick (t : task) : bool := match t with TTick | TCheck _ _ _ _ => true | _ => false end.
Definition ticks (x : daemon) : list task := filter (fun t => is_tick t = true) (tasks (w x)).

Section Lift.
Context (cfg : pool_config) (R : ledger -> ledger -> Prop) `{!Reflexive R} `{!Transitive R}.
Hypothesis R_tables : forall d t, R d (set_tables t d).
Hypothesis R_record : forall o e hash k, keeps R (recordFoundBlock o e hash k).
Hypothesis R_pay : forall o k, keeps R (doPayouts cfg o k).

Definition kd (x x' : daemon) : Prop := R (db x) (db x') /\ ticks x' = ticks x.
#[local] Instance kd_refl : Reflexive kd.
Proof. intros x. split; reflexivity. Qed.
#[local] Instance kd_trans : Transitive kd.
Proof. intros x y z [H1 E1] [H2 E2]. split; [by etransitivity|congruence]. Qed.

Lemma kd_on_db {A} (m : eff ledger A) : keeps R m -> keeps kd (on_db m).
Proof. intros Hm x. unfold on_db, kd. specialize (Hm (db x)). by destruct (m (db x)). Qed.
Lemma kd_modify f : (forall x, db (f x) = db x) -> (forall x, tasks (w (f x)) = tasks (w x)) -> keeps kd (modify f).
Proof. intros Hf Ht x. unfold kd, ticks. cbn. rewrite Hf, Ht. split; reflexivity. Qed.
Lemma kd_await t : is_tick t = false -> keeps kd (await t).
Proof. intros Ht x. split; [reflexivity|]. unfold ticks. cbn. rewrite filter_app, filter_cons, decide_False by congruence. cbn. by rewrite app_nil_r. Qed.
Lemma R_modify f : (forall d, exists t, f d = set_tables t d) -> keeps R (modify f).
Proof. intros Hf d. cbn. destruct (Hf d) as [t ->]. apply R_tables. Qed.

Ltac keep_kd := repeat match goal with
  | H : keeps ?Q ?m |- keeps ?Q ?m => exact H
  | |- Reflexive _ => first [exact kd_refl|assumption]
  | |- Transitive _ => first [exact kd_trans|assumption]
  | |- keeps _ (match _ with _ => _ end) => case_match
  | |- keeps kd (on_db _) => apply kd_on_db
  | |- keeps kd (await _) => apply kd_await; reflexivity
  | |- keeps kd (modify _) => apply kd_modify; intros ?; repeat case_match; reflexivity
  | |- keeps R (modify _) => apply R_modify; intros ?; eexists; reflexivity
  | |- keeps _ _ => first [ apply keeps_bind | apply keeps_ret | apply keeps_throw | apply keeps_lift | apply keeps_get | apply keeps_try
      | apply keeps_when | apply keeps_for_each | apply keeps_tx | apply keeps_query | solve [auto] ]
  | |- forall _, _ => intros
  end.

Lemma write_batch_keeps bs rs gs : keeps R (write_batch bs rs gs).
Proof. unfold write_batch, write_share, write_sig, write_reject, insert_share, insertSignature, update_worker, pg_texts. keep_kd. Qed.
Lemma upsert_worker_keeps uid name t : keeps R (upsert_worker uid name t).
Proof. unfold upsert_worker, pg_texts, update_worker. keep_kd. Qed.
Lemma select_user_keeps email : keeps R (select_user email).
Proof. unfold select_user, pg_texts. keep_kd. Qed.
Lemma flush_keeps : keeps kd flush.
Proof. unfold flush. keep_kd. Qed.
Lemma push_keeps m uid wid : keeps kd (push m uid wid).
Proof. pose proof flush_keeps as Hf. unfold push. keep_kd. Qed.

Lemma run_task_keeps o t : is_tick t = false -> keeps kd (run_task cfg o t).
Proof.
  intros Ht. destruct t as [m k|m uid k|bs rs gs|t|e hash k| |id hash k rest|k]; cbn [run_task]; [..|done|done|].
  - pose proof (push_keeps m None None) as Hp. pose proof (select_user_keeps (msg_user m)) as Hu.
    unfold resolveUserId, after_user. keep_kd.
  - pose proof (upsert_worker_keeps uid (msg_worker m) (now o)) as Hu. unfold resolveWorkerId.
    apply keeps_bind; [keep_kd..|]. intros wid. apply push_keeps.
  - pose proof (write_batch_keeps bs rs gs) as Hw. unfold after_flush, addAnon. keep_kd.
  - unfold after_bucket. keep_kd.
  - pose proof (R_record o e hash k) as Hr. keep_kd.
  - pose proof (R_pay o k) as Hr. keep_kd.
Qed.

Lemma handle_event_keeps e : match e with EvConfirm | EvTask _ _ => True | _ => keeps kd (handle_event cfg e) end.
Proof.
  pose proof flush_keeps as Hf. destruct e as [m| |t| | |i o]; cbn [handle_event]; try done.
  - unfold on_message, accept. keep_kd.
  - unfold rollBucket. keep_kd.
  - unfold payout_tick. keep_kd.
Qed.

(** A step is such work, the start of a tick, or the progress of one. *)
Lemma step_cases x e : crashed (w x) = false ->
  kd x (step cfg x e) \/ (e = EvConfirm /\ db (step cfg x e) = db x /\ ticks (step cfg x e) = ticks x ++ [TTick]) \/
  exists i o t, e = EvTask i o /\ tasks (w x) !! i = Some t /\ is_tick t = true /\
    let y := (run_task cfg o t (set_tasks (delete i (tasks (w x))) x)).2 in
    db (step cfg x e) = db y /\ ticks (step cfg x e) = ticks y.
Proof.
  intros Hc. assert (db (step cfg x e) = db (handle_event cfg e x).2 /\ ticks (step cfg x e) = ticks (handle_event cfg e x).2) as [E1 E2].
  { unfold step. rewrite Hc. by destruct (handle_event cfg e x) as [[]]. }
  unfold kd. rewrite E1, E2. clear E1 E2. pose proof (handle_event_keeps e) as Hk.
  destruct e as [m| |t| | |i o]; try (left; apply Hk); clear Hk; cbn [handle_event].
  - right. left. split; [done|]. split; [done|]. unfold ticks. cbn. by rewrite filter_app.
  - eff_simpl. destruct (tasks (w x) !! i) as [t|] eqn:Et; [|left; split; reflexivity].
    destruct (is_tick t) eqn:Ht; [right; right; by exists i, o, t|]. left.
    destruct (run_task_keeps o t Ht (set_tasks (delete i (tasks (w x))) x)) as [H1 H2]. split; [exact H1|]. rewrite H2.
    unfold ticks. cbn. rewrite <- (take_drop_middle _ _ _ Et) at 2.
    by rewrite delete_take_drop, !filter_app, filter_cons, decide_False by congruence.
Qed.
End Lift.

(** ** Ticks that do not overlap *)

(** The timer of the confirmer finds no earlier tick under way. *)
Fixpoint ticks_apart (cfg : pool_config) (es : list event) (x : daemon) : bool :=
  match es with
  | [] => true
  | e :: es =>
      match e with EvConfirm => negb (existsb is_tick (tasks (w x))) | _ => true end && ticks_apart cfg es (step cfg x e)
  end.

Definition tick_ok (d : ledger) (t : task) : Prop :=
  match t with TCheck id _ k rest => NoDup (id :: rest.*1) /\ check_ok d id k /\ others rest.*1 d | _ => True end.
Definition daemon_inv (x : daemon) : Prop :=
  ledger_inv (db x) /\ (ticks x = [] \/ exists t, ticks x = [t] /\ tick_ok (db x) t).

Section Runs.
Context (cfg : pool_config).

Lemma tick_ok_frame d d' t : ledger_inv d -> frame d d' -> tick_ok d t -> tick_ok d' t.
Proof.
  intros Hi Hf. destruct (Hf Hi) as (_ & Hb & Hu). destruct t as [| | | | | |id hash k rest|]; try done. intros (H1 & H2 & H3). split; [done|].
  split; [|eapply Forall_impl; [exact H3|]; auto].
  assert (creditable d id -> creditable d' id) by (intros (b & ? & ?); exists b; auto).
  destruct k as [| | | |[]]; cbn in *; auto.
Qed.

Lemma next_row_inv rows x : ledger_inv (db x) -> ticks x = [] -> NoDup rows.*1 -> others rows.*1 (db x) -> daemon_inv (next_row rows x).2.
Proof.
  intros Hi Ht Hnd Ho. destruct rows as [|[id hash] rest]; cbn [next_row]; [split; [done|by left]|]. split; [done|]. right.
  exists (TCheck id hash ChInfo rest). unfold ticks in *. cbn. rewrite filter_app, Ht. split; [done|]. inversion Ho; subst. done.
Qed.

(** The progress of the only tick. *)
Lemma run_tick_inv o t x : is_tick t = true -> ledger_inv (db x) -> ticks x = [] -> tick_ok (db x) t -> daemon_inv (run_task cfg o t x).2.
Proof.
  intros Ht Hi Hx Hok. assert (daemon_inv x) as Hx' by (split; [done|by left]).
  destruct t as [| | | | | |id hash k rest|]; try done; cbn [run_task].
  - unfold confirmer_tick, on_db, query, tx. eff_simpl. destruct (db_answer o); [|done..]. destruct (confirmer_rows_ok (db x) (inv_ids _ Hi)) as [H1 H2].
    by apply next_row_inv.
  - destruct Hok as (Hnd & Hk & Ho). apply NoDup_cons in Hnd as [Hid Hnd].
    destruct (checkOne_inv cfg o id hash k rest.*1 (db x) Hi Hid Hk Ho) as (H1 & H2 & H3).
    unfold mbind, eff_bind, try_catch, on_db. destruct (checkOne cfg o id hash k (db x)) as [[[k'|]|e] d']; cbn [fst snd] in *.
    + split; [done|]. right. exists (TCheck id hash k' rest). unfold ticks in *. cbn. rewrite filter_app, Hx. split; [done|].
      split; [by constructor|]. auto.
    + by apply next_row_inv.
    + by apply next_row_inv.
Qed.

Lemma idle_ticks x : existsb is_tick (tasks (w x)) = false -> ticks x = [].
Proof.
  unfold ticks. induction (tasks (w x)) as [|t l IH]; [done|]. cbn [existsb]. intros H. apply orb_false_iff in H as [H1 H2].
  rewrite filter_cons, decide_False by congruence. auto.
Qed.

Lemma take_tick x i t : tasks (w x) !! i = Some t -> is_tick t = true -> ticks x ≡ₚ t :: ticks (set_tasks (delete i (tasks (w x))) x).
Proof.
  intros Hi Ht. unfold ticks. cbn. rewrite (delete_Permutation _ _ _ Hi) at 1. by rewrite filter_cons, decide_True.
Qed.

Lemma step_inv x e : daemon_inv x -> ticks_apart cfg [e] x = true -> daemon_inv (step cfg x e).
Proof.
  intros Hinv Hap. pose proof Hinv as [Hi Ht]. destruct (crashed (w x)) eqn:Hc; [unfold step; by rewrite Hc|].
  destruct (step_cases cfg frame) with (x := x) (e := e) as [[H1 H2]|[(-> & H1 & H2)|(i & o & t & -> & Hl & Htick & H1 & H2)]]; [..|done| | |].
  1: intros d t; by apply frame_same.
  1: apply recordFoundBlock_inv.
  1: apply doPayouts_inv.
  - destruct (H1 Hi) as [H3 _]. split; [done|]. rewrite H2. destruct Ht as [Ht|(t & Ht & Hok)]; [by left|]. right. exists t.
    split; [done|]. by apply (tick_ok_frame (db x)).
  - cbn in Hap. rewrite andb_true_r in Hap. apply negb_true_iff, idle_ticks in Hap. split; [by rewrite H1|]. right. exists TTick. by rewrite H2, Hap.
  - pose proof (take_tick x i t Hl Htick) as Hp. destruct Ht as [Ht|(t' & Ht & Hok)]; rewrite Ht in Hp; [by apply Permutation_nil_cons in Hp|].
    apply Permutation_length_1_inv in Hp. injection Hp as -> Hp.
    destruct (run_tick_inv o t' (set_tasks (delete i (tasks (w x))) x)) as [H3 H4]; [done..|]. split; [by rewrite H1|]. by rewrite H2, H1.
Qed.

Lemma run_inv es x : daemon_inv x -> ticks_apart cfg es x = true -> daemon_inv (run cfg es x).
Proof.
  revert x. induction es as [|e es IH]; intros x Hx Hap; [done|]. apply andb_prop in Hap as [H1 H2].
  apply IH; [|exact H2]. apply step_inv; [done|]. cbn [ticks_apart]. by rewrite H1.
Qed.
End Runs.


(** ** What can go wrong *)

(** A run of the payout job, alone. *)
Definition paying_at (k : pay_at) (d : ledger) : daemon := set_paying true (set_tasks [TPay k] (init_daemon d)).
Lemma step_pay cfg o k d : step cfg (paying_at k d) (EvTask 0 o) =
  match doPayouts cfg o k d with (Ok (Some k'), d') => paying_at k' d' | (_, d') => init_daemon d' end.
Proof.
  set (x := init_daemon d). transitivity (match run_task cfg o (TPay k) (set_paying true x) with (Ok _, y) => y | (Throw _, y) => set_crashed y end);
    [reflexivity|]. cbn [run_task]. cbv [mbind eff_bind try_catch on_db]. change (db (set_paying true x)) with d.
  by destruct (doPayouts cfg o k d) as [[[]|] d'].
Qed.

(** C36: a payout can be sent twice.  The wallet sends before the ledger records it.  When the
    database is lost in between, the run of the job ends with every balance as before, and
    the next run of the job computes the same payments and sends them again.  [o] and [o']
    answer the steps of the two runs up to the send, [l] the record. *)
Theorem payout_sent_twice cfg d bal txid txid' (o o' l : world) :
  let p := plan_payouts cfg d in
  debits p <> [] -> nlt bal (total p) = false ->
  db_answer o = Answered -> walletBalance o = Ok bal -> sendMany o (send_targets p) = Sent txid ->
  db_answer o' = Answered -> walletBalance o' = Ok bal -> sendMany o' (send_targets p) = Sent txid' ->
  db_answer l = Lost ->
  let es := [EvPayout; EvTask 0 o; EvTask 0 o; EvTask 0 o; EvTask 0 l; EvPayout; EvTask 0 o'; EvTask 0 o'; EvTask 0 o'; EvTask 0 l] in
  let x := run cfg es (init_daemon d) in
  crashed (w x) = false /\ sent (db x) = sent d ++ [(txid, send_targets p); (txid', send_targets p)] /\
  entries (db x) = entries d /\ forall uid, balance (db x) uid = balance d uid.
Proof.
  intros p Hd Hb O1 O2 O3 O1' O2' O3' Hl es x.
  assert (forall o txid d, plan_payouts cfg d = p -> db_answer o = Answered -> walletBalance o = Ok bal -> sendMany o (send_targets p) = Sent txid ->
    run cfg [EvPayout; EvTask 0 o; EvTask 0 o; EvTask 0 o; EvTask 0 l] (init_daemon d) = init_daemon (add_sent txid (send_targets p) d)) as Hrun.
  { clear - Hd Hb Hl. clearbody p. clear d. intros o txid d Ep H1 H2 H3. unfold run. cbn [foldl].
    change (step cfg (init_daemon d) EvPayout) with (paying_at PyCandidates d).
    rewrite step_pay. cbn [doPayouts]. unfold query, tx. eff_simpl. rewrite H1, Ep. destruct (debits p) as [|y ys] eqn:E; [done|].
    rewrite step_pay. cbn [doPayouts]. eff_simpl. rewrite H2, Hb, step_pay. cbn [doPayouts]. rewrite H3. eff_simpl. rewrite step_pay.
    cbn [doPayouts]. unfold write_payout, tx. rewrite Hl. eff_simpl. destruct (to_numeric _); [|done]. by destruct (for_each _ _ _) as [[[]|]]. }
  assert (x = init_daemon (add_sent txid' (send_targets p) (add_sent txid (send_targets p) d))) as ->.
  { subst x es. change (run cfg ([EvPayout; EvTask 0 o; EvTask 0 o; EvTask 0 o; EvTask 0 l] ++
      [EvPayout; EvTask 0 o'; EvTask 0 o'; EvTask 0 o'; EvTask 0 l]) (init_daemon d) = init_daemon (add_sent txid' (send_targets p) (add_sent txid (send_targets p) d))).
    unfold run. rewrite foldl_app. fold (run cfg [EvPayout; EvTask 0 o; EvTask 0 o; EvTask 0 o; EvTask 0 l] (init_daemon d)).
    rewrite (Hrun o txid d) by done. by apply Hrun. }
  split; [done|]. split; [cbn; by rewrite <- app_assoc|]. done.
Qed.

(** ** A confirmed block that was not credited *)
Section Stuck.
Context (cfg : pool_config) (b : block_row).

Definition no_check (t : task) : Prop := match t with TCheck id _ _ rest => (b_id b ∉ id :: rest.*1) | _ => True end.
Record stuck (d : ledger) : Prop := {
  st_ids : NoDup (b_id <$> blocks d);
  st_next : Forall (fun c => b_id c < next_block d) (blocks d);
  st_row : b ∈ blocks d;
  st_none : forall u, (b_id b, u) ∉ credits (entries d)
}.
Definition stays (d d' : ledger) : Prop := stuck d -> stuck d'.
#[local] Instance stays_refl : Reflexive stays.
Proof. intros d H. exact H. Qed.
#[local] Instance stays_trans : Transitive stays.
Proof. intros d1 d2 d3 H1 H2 H. auto. Qed.
Lemma stays_same d d' : blocks d' = blocks d -> next_block d' = next_block d -> credits (entries d') = credits (entries d) -> stays d d'.
Proof. intros E1 E2 E3 [H1 H2 H3 H4]. constructor; by rewrite ?E1, ?E2, ?E3. Qed.

Lemma update_stays id f : (forall c, b_id (f c) = b_id c) -> b_id b <> id -> keeps stays (update_block id f).
Proof.
  intros Hf Hid d [H1 H2 H3 H4]. rewrite update_block_run. cbn [snd].
  assert (b_id <$> blocks (changed id f d) = b_id <$> blocks d) as Eid.
  { cbn. rewrite <- list_fmap_compose. apply list_fmap_ext. intros i c _. unfold compose. by destruct (b_id c =? id). }
  constructor; [by rewrite Eid| |cbn; apply list_elem_of_fmap; exists b; by destruct (Z.eqb_spec (b_id b) id)|done].
  rewrite <- (Forall_fmap b_id (fun i => i < next_block d)) in *. by rewrite Eid.
Qed.

Lemma entry_stays e : e_block e <> Some (b_id b) -> keeps stays (insert_entry e).
Proof.
  intros He d. unfold insert_entry. eff_simpl. case_bool_decide; eff_simpl; [|apply stays_refl]. intros [H1 H2 H3 H4]. constructor; [done..|].
  intros u. cbn. rewrite credits_app, elem_of_app. intros [Hu|Hu]; [by apply (H4 u)|]. apply list_elem_of_omap in Hu as (e' & Hin & Hu).
  apply list_elem_of_singleton in Hin as ->. destruct (e_block e) as [bid|]; [|done]. cbn in Hu. congruence.
Qed.

Ltac keep_stuck := repeat match goal with
  | H : keeps ?Q ?m |- keeps ?Q ?m => exact H
  | |- Reflexive _ => exact stays_refl
  | |- Transitive _ => exact stays_trans
  | |- keeps _ (update_block _ _) => apply update_stays; [done|congruence]
  | H : forall _ _ _ _ _ _, keeps ?Q _ |- keeps ?Q (insert_block _ _ _ _ _ _) => apply H
  | |- keeps _ (insert_entry _) => apply entry_stays; cbn; congruence
  | |- keeps _ (match _ with _ => _ end) => case_match
  | |- keeps _ (modify _) => intros ?; apply stays_same; reflexivity
  | |- keeps _ _ => first [ apply keeps_bind | apply keeps_ret | apply keeps_throw | apply keeps_lift | apply keeps_get | apply keeps_try
      | apply keeps_when | apply keeps_for_each | apply keeps_tx | apply keeps_query ]
  | |- forall _, _ => intros
  end.

Lemma doPayouts_stays o k : keeps stays (doPayouts cfg o k).
Proof. unfold doPayouts, write_payout, write_debit, insert_recipient. keep_stuck. Qed.
Lemma insert_block_stays height hash finder worker reward t : keeps stays (insert_block height hash finder worker reward t).
Proof.
  intros d Hst. pose proof Hst as [H1 H2 H3 H4]. unfold insert_block. eff_simpl. case_bool_decide; eff_simpl; [done|]. constructor; cbn.
  - rewrite fmap_app. apply NoDup_app. split; [done|]. split; [|apply NoDup_singleton]. intros i Hi Hn.
    apply list_elem_of_singleton in Hn. apply list_elem_of_fmap in Hi as (c & -> & Hc). rewrite list.Forall_forall in H2.
    specialize (H2 c Hc). cbn in Hn. lia.
  - apply Forall_app. split; [eapply Forall_impl; [exact H2|]; cbn; lia|]. constructor; [cbn; lia|constructor].
  - rewrite elem_of_app. by left.
  - done.
Qed.
Lemma recordFoundBlock_stays o e hash k : keeps stays (recordFoundBlock o e hash k).
Proof.
  pose proof insert_block_stays as Hins. unfold recordFoundBlock, pg_texts. keep_stuck.
Qed.
Lemma checkOne_stays o id hash k : b_id b <> id -> keeps stays (checkOne cfg o id hash k).
Proof.
  intros Hid. unfold checkOne, creditPplns, write_credit, credit_user, select_confirmed. keep_stuck.
Qed.

Lemma next_row_clear rows x : (b_id b ∉ rows.*1) -> stuck (db x) -> Forall no_check (ticks x) ->
  stuck (db (next_row rows x).2) /\ Forall no_check (ticks (next_row rows x).2).
Proof.
  intros Hr Hs Ht. destruct rows as [|[id hash] rest]; cbn [next_row]; [done|]. split; [done|]. unfold ticks in *. cbn.
  rewrite filter_app. apply Forall_app. split; [done|]. by constructor.
Qed.

Lemma run_tick_stuck o t x : is_confirmed b = true -> is_tick t = true -> no_check t -> stuck (db x) -> Forall no_check (ticks x) ->
  stuck (db (run_task cfg o t x).2) /\ Forall no_check (ticks (run_task cfg o t x).2).
Proof.
  intros Hconf Ht Hn Hs Hx. destruct t as [| | | | | |id hash k rest|]; try done; cbn [run_task].
  - unfold confirmer_tick, on_db, query, tx. eff_simpl. destruct (db_answer o); [|done..].
    apply next_row_clear; [|done..].
    intros Hin. destruct (confirmer_rows_ok (db x) (st_ids _ Hs)) as [_ Hu]. rewrite list.Forall_forall in Hu.
    rewrite (Hu _ Hin b (st_row _ Hs) eq_refl) in Hconf. done.
  - apply not_elem_of_cons in Hn as [Hid Hrest]. pose proof (checkOne_stays o id hash k Hid (db x) Hs) as Hs'.
    unfold mbind, eff_bind, try_catch, on_db. destruct (checkOne cfg o id hash k (db x)) as [[[k'|]|e] d']; cbn [fst snd] in *.
    + split; [done|]. unfold ticks in *. cbn. rewrite filter_app. apply Forall_app. split; [done|]. constructor; [|constructor].
      by apply not_elem_of_cons.
    + by apply next_row_clear.
    + by apply next_row_clear.
Qed.

Lemma step_stuck x e : is_confirmed b = true -> stuck (db x) -> Forall no_check (ticks x) ->
  stuck (db (step cfg x e)) /\ Forall no_check (ticks (step cfg x e)).
Proof.
  intros Hconf Hs Hx. destruct (crashed (w x)) eqn:Hc; [unfold step; by rewrite Hc|].
  destruct (step_cases cfg stays) with (x := x) (e := e) as [[H1 H2]|[(-> & H1 & H2)|(i & o & t & -> & Hl & Htick & H1 & H2)]]; [..|done| | |].
  1: intros d t; by apply stays_same.
  1: apply recordFoundBlock_stays.
  1: apply doPayouts_stays.
  - rewrite H2. auto.
  - rewrite H1, H2. split; [done|]. apply Forall_app. split; [done|]. by constructor.
  - rewrite H1, H2. pose proof (take_tick x i t Hl Htick) as Hp. rewrite Hp in Hx. apply Forall_cons in Hx as [Hn Hx]. by apply run_tick_stuck.
Qed.
End Stuck.

(** A credit that fails is never retried.  Confirmation and credit are separate.  Once a
    block is confirmed and not credited, and no tick of the confirmer has it in hand, as
    after a credit that failed or a restart, no run of the daemon changes its row or gives
    a user a credit for it. *)
Theorem lost_credit_stays_lost cfg es x b :
  NoDup (b_id <$> blocks (db x)) -> Forall (fun c => b_id c < next_block (db x)) (blocks (db x)) ->
  b ∈ blocks (db x) -> is_confirmed b = true -> (forall u, (b_id b, u) ∉ credits (entries (db x))) ->
  Forall (fun t => match t with TCheck id _ _ rest => (b_id b ∉ id :: rest.*1) | _ => True end) (tasks (w x)) ->
  let d := db (run cfg es x) in b ∈ blocks d /\ forall u, (b_id b, u) ∉ credits (entries d).
Proof.
  intros H1 H2 Hb Hc Hn Ht d. assert (stuck b (db x)) as Hs by done. assert (Forall (no_check b) (ticks x)) as Hx.
  { unfold ticks. rewrite list.Forall_forall in *. intros t Hin. apply list_elem_of_filter in Hin as [_ Hin]. by apply Ht. }
  assert (stuck b d) as [_ _ ? ?]; [|done]. subst d. clear H1 H2 Hb Hn Ht. revert x Hs Hx. induction es as [|e es IH]; intros x Hs Hx; [done|].
  destruct (step_stuck cfg b x e Hc Hs Hx). by apply IH.
Qed.
