(* ===== verification/DaemonExamples.v ===== *)
(** * The pool daemon: concrete states and runs

    A small ledger on which the theorems of the daemon are applied. *)

From S2P Require Import Prelude JsString JsMap JsNumber JsRound JsFormat Effects Numeric Address Difficulty Ipc Ledger.
From S2P Require Import LedgerProofs PplnsProofs ShareWriter DaemonProofs CreditProofs.

(** Fee 1 percent, the last 4032 shares, 100 confirmations. *)
Definition example_pool : pool_config := {| feePercent := n1; pplnsNShares := 4032; blockConfirmations := 100; cfg_network := testnet |}.

Definition alice : user_row := {| u_id := 1; u_email := js "alice@example.com"; email_verified := true;
  payout_address := Some example_address; minimum_payout := Some 100000000 |}.
Definition bob : user_row := {| u_id := 2; u_email := js "bob@example.com"; email_verified := false;
  payout_address := None; minimum_payout := Some 100000000 |}.

Definition example_share (id uid t : Z) : share_row := {| sh_id := id; sh_user := uid; sh_worker := uid; sh_diff := num_of_Z 2;
  sh_isBlock := false; sh_blockHash := None; submitted_at := t |}.
Definition example_tables (l : list share_row) : share_tables := {| workers := []; shares := l; signatures := [];
  hashrate_buckets := []; pool_hashrate_buckets := []; next_worker := 1; next_share := 10 |}.

(** A block of 50 coins, with shares of both users; [conf]: confirmed already. *)
Definition example_block (conf : bool) : block_row := {| b_id := 1; b_height := 7; b_hash := js "00ab"; finder_user_id := Some 1;
  finder_worker_id := None; reward_b3c := Some 5000000000; pool_fee_b3c := Some 0; confirmations := 0; is_confirmed := conf;
  is_orphan := false; pplns_credited := false; found_at := 1000 |}.
Definition example_ledger (conf : bool) : ledger := {| users := [alice; bob];
  tables := example_tables [example_share 1 1 900; example_share 2 2 950; example_share 3 1 2000];
  blocks := [example_block conf]; entries := []; payouts := []; recipients := []; next_block := 2; next_payout := 1; sent := [] |}.

(** Alice has 1.5 coins. *)
Definition rich_ledger : ledger :=
  set_entries [{| e_user := 1; e_block := None; e_payout := None; delta_b3c := Some 150000000; e_kind := K_credit |}] (example_ledger false).

Definition deep_info : block_info := {| info_height := Some 7; info_tx := None; info_confirmations := 120 |}.
(** The node and the wallet answer; the database answers [c]; the wallet sends [txid]. *)
Definition answers (c : outcome) (txid : jsstr) : world := {| db_answer := c; now := 5000; getBlock := fun _ => Ok (Some deep_info);
  getrawtransaction := fun _ _ => Ok None; walletBalance := Ok (num_of_Z 1000); sendMany := fun _ => Sent txid |}.
Definition online : world := answers Answered (js "f00d").
Definition offline : world := answers Lost (js "f00d").
Definition unanswered : world := answers Unanswered (js "f00d").

Lemma rich_amounts : amounts_ok rich_ledger.
Proof.
  intros u Hu. cbn in Hu. apply elem_of_cons in Hu as [->|Hu]; [|apply list_elem_of_singleton in Hu as ->].
  - split; [exists 150000000|exists 100000000]; (split; [reflexivity|lia]).
  - split; [exists 0|exists 100000000]; (split; [reflexivity|lia]).
Qed.
Lemma rich_users : NoDup (u_id <$> users rich_ledger).
Proof. apply (bool_decide_unpack _). vm_compute. exact I. Qed.

Definition rich_plan : payout_plan := plan_payouts example_pool rich_ledger.
Definition rich_sent : ledger := add_sent (js "f00d") (send_targets rich_plan) rich_ledger.
Definition rich_paid : ledger := (doPayouts example_pool online (PyRecord (js "f00d") rich_plan) rich_sent).2.

Lemma payout_settles_witness :
  balance rich_paid 1 = Some 0 /\ exists v, (example_address, v) ∈ send_targets rich_plan /\ to_numeric v = Ok (Some 150000000).
Proof.
  destruct (payout_settles example_pool online online online online rich_ledger rich_ledger rich_ledger rich_sent rich_ledger rich_ledger
    rich_sent rich_paid rich_plan (js "f00d") (Some (PyMails rich_plan)) rich_amounts rich_users) as (_ & _ & _ & H);
    [vm_compute; reflexivity..|].
  destruct (H alice ltac:(left)) as [_ Ha].
  destruct Ha as (old & addr & r & Eo & _ & H0 & [= <-] & _ & _ & _ & _ & Hone); [vm_compute; reflexivity|].
  assert (old = 150000000) as -> by (vm_compute in Eo; congruence). split; [apply H0; reflexivity|]. apply Hone. intros v Hv Hd _. cbn in Hv.
  apply elem_of_cons in Hv as [->|Hv]; [reflexivity|]. apply list_elem_of_singleton in Hv as ->. vm_compute in Hd. discriminate.
Defined.

Lemma readiness_is_due_witness :
  exists x, x ∈ debits (plan_payouts example_pool rich_ledger) /\ d_user x = 1.
Proof.
  apply (readiness_is_due example_pool rich_ledger alice example_address rich_amounts rich_users ltac:(left) eq_refl).
  - vm_compute. reflexivity.
  - vm_compute. reflexivity.
Defined.

(** ** Credits *)
Definition example_plan : credit_plan :=
  {| c_reward := of_numeric (Some 5000000000); c_shares := [(2, num_of_Z 2); (1, num_of_Z 2)] |}.
Definition credited_ledger : ledger := (write_credit example_pool Answered 1 example_plan (example_ledger true)).2.
Lemma example_credit : credit_steps example_pool 1 (example_ledger true) (example_ledger true) (example_ledger true) (example_block true)
  example_plan credited_ledger.
Proof. split; [|split]; [exists Answered; eexists..|exists Answered]; vm_compute; reflexivity. Qed.

Lemma example_credit_ok : credit_ok example_pool example_plan.
Proof.
  constructor.
  - exists (1 * 2 ^ 1074). split; [apply (num_of_Z_exact 1); lia|lia].
  - exists (units_val 5000000000). split; [apply of_numeric_fin; lia|].
    pose proof (units_val_lt 0 5000000000 ltac:(lia) ltac:(lia)) as H. unfold units_val in H at 1. rewrite Z.mul_0_l, rnd_0 in H by lia. lia.
  - repeat constructor.
  - vm_compute. reflexivity.
  - apply Z.ltb_lt. vm_compute. reflexivity.
Qed.

Lemma preview_is_credit_witness : exists u, 0 <= u /\
  to_numeric (userCreditFromShares (c_shares example_plan) 1 (c_reward example_plan) n1) = Ok (Some u) /\
  balance credited_ledger 1 = numeric_add (balance (example_ledger true) 1) (Some u).
Proof. apply (preview_is_credit _ _ _ _ _ _ _ _ example_credit example_credit_ok ltac:(done)). Defined.

Lemma credits_bounded_witness : exists es total,
  entries credited_ledger = es /\ numeric_sum (delta_b3c <$> es) = Some total /\
  2 * total <= 2 * fixed_units 8 (distributable example_pool (c_reward example_plan)) + 2 + 3.
Proof.
  destruct (credits_bounded _ _ _ _ _ _ _ _ example_credit example_credit_ok) as (_ & _ & es & total & H1 & _ & _ & H2 & H3 & _).
  - done.
  - apply Z.leb_le. vm_compute. reflexivity.
  - exists es, total. split; [exact H1|]. split; [exact H2|exact H3].
Defined.

(** ** Runs *)
Lemma example_inv conf : ledger_inv (example_ledger conf).
Proof.
  constructor; cbn.
  - apply NoDup_singleton.
  - constructor; [cbn; lia|constructor].
  - intros k Hk. by apply elem_of_nil in Hk.
  - constructor.
Qed.

(** A share of alice's rig.  The first flush is lost and queued again; the answer to the
    second is lost after its commit, so that it is queued and written again. *)
Definition rig_share : ShareEvent := {| se_user := js "alice@example.com"; se_workerName := js "rig"; se_diff := num_of_Z 4; se_isBlock := false;
  se_blockHash := None; se_blockHeight := None; se_networkDifficulty := None; se_timestampMs := 4000; se_attest := None |}.
Definition share_run : list event :=
  [EvMessage (IpcShare rig_share); EvTask 0 online; EvTask 0 online; EvFlush; EvTask 0 offline; EvFlush; EvTask 0 unanswered;
   EvFlush; EvTask 0 online].


(** A tick that confirms and credits the block, with the share in between; and a second
    tick after it. *)
Definition tick_run : list event :=
  EvConfirm :: replicate 3 (EvTask 0 online) ++ [EvMessage (IpcShare rig_share); EvTask 1 online; EvTask 1 online; EvFlush] ++
  replicate 8 (EvTask 0 online) ++ [EvConfirm; EvTask 0 online; EvTask 0 online].


(** Two ticks at a time: the second reads the flag before the first writes its credit, and
    both users have the credit twice. *)
Definition two_ticks : list event :=
  [EvConfirm; EvConfirm; EvTask 0 online; EvTask 0 online] ++ replicate 12 (EvTask 0 online).
Example overlapping_ticks_credit_twice :
  let x := run example_pool two_ticks (init_daemon (example_ledger false)) in
  tasks (w x) = [] /\ credits (entries (db x)) = [(1, 2); (1, 1); (1, 2); (1, 1)].
Proof. vm_compute. split; reflexivity. Qed.

Definition nul_reject : RejectEvent := {| re_user := js "a" ++ [0]; re_workerName := js "rig"; re_reason := ROther; re_diff := n1; re_timestampMs := 1 |}.

Lemma nul_user_ends_daemon_witness :
  crashed (w (run example_pool [EvMessage (IpcReject nul_reject); EvTask 0 online] (init_daemon (example_ledger false)))) = true.
Proof. apply nul_user_ends_daemon; [right; left|vm_compute; reflexivity]. Defined.

Lemma payout_sent_twice_witness :
  let es := [EvPayout; EvTask 0 online; EvTask 0 online; EvTask 0 online; EvTask 0 offline; EvPayout; EvTask 0 (answers Answered (js "beef"));
    EvTask 0 (answers Answered (js "beef")); EvTask 0 (answers Answered (js "beef")); EvTask 0 offline] in
  let d := db (run example_pool es (init_daemon rich_ledger)) in
  zlen (sent d) = 2 /\ balance d 1 = Some 150000000.
Proof.
  destruct (payout_sent_twice example_pool rich_ledger (num_of_Z 1000) (js "f00d") (js "beef") online (answers Answered (js "beef")) offline)
    as (_ & H1 & _ & H2).
  - vm_compute. discriminate.
  - vm_compute. reflexivity.
  - exact eq_refl.
  - exact eq_refl.
  - exact eq_refl.
  - exact eq_refl.
  - exact eq_refl.
  - exact eq_refl.
  - exact eq_refl.
  - split; [exact (f_equal zlen H1)|exact (H2 1)].
Defined.

(** The database is lost when the tick writes its credit. *)
Definition lost_run : list event := EvConfirm :: replicate 6 (EvTask 0 online) ++ [EvTask 0 offline].
Definition lost_state : daemon := run example_pool lost_run (init_daemon (example_ledger false)).

Lemma lost_credit_stays_lost_witness :
  (1, 2) ∉ credits (entries (db (run example_pool (EvConfirm :: replicate 8 (EvTask 0 online)) lost_state))).
Proof.
  apply (lost_credit_stays_lost example_pool (EvConfirm :: replicate 8 (EvTask 0 online)) lost_state
    (set_confirmed (set_confirmations 120 (example_block false)))).
  - apply (bool_decide_unpack _). vm_compute. exact I.
  - vm_compute. repeat constructor.
  - vm_compute. left.
  - reflexivity.
  - intros u. vm_compute. by intros Hu%elem_of_nil.
  - vm_compute. constructor.
Defined.
