(* ===== verification/ShareValidator.v ===== *)
(** * Share validation ([pool/src/stratum/share-validator.ts], [lib/share-digest.ts])

    A submitted share becomes a block header, the header is hashed with the
    scratchpad cache in the loop, and the hash is compared with the share target and
    with the network target.  [DeriveTarget] and [CheckProofOfWorkImpl] are the
    node's check ([src/src/pow.cpp]): the theorems say that the pool calls a share a
    block exactly when the node's proof-of-work check passes on it, and that what it
    then submits parses as the block it means. *)

From S2P Require Import Prelude JsString JsMap JsNumber JsRound JsFormat Header Address Difficulty Node JobManager.
From S2P Require Import B3Pow PadCache.

(** ** Types *)
Record ShareInput := {
  si_job : JobContext;
  extranonce1Hex : jsstr;
  extranonce2Hex : jsstr;
  si_ntime : jsnum;
  si_nonce : jsnum;
  shareDifficulty : jsnum
}.

Record Built := { b_header : bytes; b_coinbase : bytes; merkleRootLE : bytes; prevHashLE : bytes }.

Inductive fail_reason := stale | duplicate | low_diff | invalid.

Record ShareCheckOk := {
  isBlock : bool;
  meetsShare : bool;
  powHashHexBE : jsstr;
  powInt : Z;
  blockHashHexBE : jsstr;
  serializedHeader : bytes;
  serializedBlockHex : option jsstr
}.

Inductive ShareCheck :=
| ShareOk (r : ShareCheckOk)
| ShareFail (reason : fail_reason) (detail : option string).

Definition reason_string (r : fail_reason) : jsstr :=
  match r with stale => js "stale" | duplicate => js "duplicate" | low_diff => js "low-diff" | invalid => js "invalid" end.

Section Validator.
Context `{Sha256} `{Blake3}.

(** ** The header of a share *)
Definition buildHeader (s : ShareInput) : res Built :=
  coinb1 ← hexToBytes (coinb1Hex (si_job s));
  en1 ← hexToBytes (extranonce1Hex s);
  en2 ← hexToBytes (extranonce2Hex s);
  coinb2 ← hexToBytes (coinb2Hex (si_job s));
  coinbase ← concatBytes [coinb1; en1; en2; coinb2];
  let cbTxid := coinbaseTxId coinbase in
  merkleRoot ← computeMerkleRoot cbTxid (merkleBranchesHexBE (si_job s));
  prev ← hexToBytes (jc_prevHashHexBE (si_job s));
  header ← serializeHeader {|
    version := jc_version (si_job s);
    prevHashHexBE := jc_prevHashHexBE (si_job s);
    merkleRootHexBE := bytesToHex (reverseBytes merkleRoot);
    ntime := num_trunc (si_ntime s);
    bits := jc_bits (si_job s);
    nonce := num_trunc (si_nonce s) |};
  Ok {| b_header := header; b_coinbase := coinbase; merkleRootLE := merkleRoot; prevHashLE := reverseBytes prev |}.

(** [None] is the [low-diff] result, otherwise [isBlock] and [meetsShare]. *)
Definition classifyCandidate (powInt shareTarget networkTarget : Z) : option (bool * bool) :=
  let isBlock := powInt <=? networkTarget in
  let meetsShare := powInt <=? shareTarget in
  if negb meetsShare && negb isBlock then None else Some (isBlock, meetsShare).

Definition serializeBlockHex (header : bytes) (txns : list bytes) : res jsstr :=
  b ← concatBytes (header :: varInt (zlen txns) :: txns);
  Ok (bytesToHex b).

(** What follows the hash. *)
Definition finishCheck (s : ShareInput) (b : Built) (powLE : bytes) : res ShareCheck :=
  let powInt := bigIntFromBytesLE powLE in
  nt ← hexToBytes (networkTargetHexBE (si_job s));
  let networkTarget := bigIntFromBytesLE (reverseBytes nt) in
  shareTarget ← targetFromShareDifficulty (shareDifficulty s);
  match classifyCandidate powInt shareTarget networkTarget with
  | None => Ok (ShareFail low_diff None)
  | Some (isBlock, meetsShare) =>
      let blockHashLE := doubleSha256 (b_header b) in
      let blockHashHexBE := bytesToHex (reverseBytes blockHashLE) in
      serializedBlockHex ← (if isBlock then
          txs ← res_map hexToBytes (txnsHex (si_job s));
          h ← serializeBlockHex (b_header b) (b_coinbase b :: txs);
          Ok (Some h)
        else Ok None);
      Ok (ShareOk {| isBlock := isBlock; meetsShare := meetsShare;
                     powHashHexBE := bytesToHex (reverseBytes powLE); powInt := powInt;
                     blockHashHexBE := blockHashHexBE; serializedHeader := b_header b;
                     serializedBlockHex := serializedBlockHex |})
  end.

(** The verdict and the buffers and cache afterwards, exceptions included. *)
Definition validateShare (now : Z) (s : ShareInput) (w : world) : res ShareCheck * world :=
  match buildHeader s with
  | Throw e => (Ok (ShareFail invalid (Some e)), w)
  | Ok b =>
      match getFresh now (prevHashLE b) (w_store w) (w_cache w) with
      | Throw e => (Throw e, w)
      | Ok (ref, h, c) =>
          match b3powScratch (b_header b) (prevHashLE b) (h !! ref) with
          | Throw e => (Throw e, {| w_store := h; w_cache := c; handed := ref :: handed w |})
          | Ok (r, pad) =>
              (finishCheck s b (powHash r),
               {| w_store := <[ref := pad]> h; w_cache := c; handed := ref :: handed w |})
          end
      end
  end.

(** [lib/share-digest.ts]. *)
Definition hex8 (x : jsnum) : jsstr := padStart 8 48 (to_radix 16 (num_u32 x)).
Definition nonceHex (nonce : jsnum) : jsstr := hex8 nonce.
Definition shareDigest (jobId extranonce2Hex : jsstr) (ntime nonce : jsnum) : bytes :=
  let ntimeHex := hex8 ntime in
  let nonceHex := hex8 nonce in
  sha256 (utf8_encode (jobId ++ js "|" ++ toLowerCase extranonce2Hex ++ js "|" ++ ntimeHex ++ js "|" ++ nonceHex)).
End Validator.

(** ** The node's check ([src/src/pow.cpp]) *)
Definition DeriveTarget (nBits pow_limit : Z) : option Z :=
  let '(bnTarget, fNegative, fOverflow) := SetCompact nBits in
  if fNegative || (bnTarget =? 0) || fOverflow || (pow_limit <? bnTarget) then None else Some bnTarget.

Definition CheckProofOfWorkImpl (hash : bytes) (nBits pow_limit : Z) : bool :=
  match DeriveTarget nBits pow_limit with
  | None => false
  | Some bnTarget => negb (bnTarget <? le_val hash)
  end.

(** ** Lemmas *)
Section Proofs.
Context `{Sha256Ok} `{Blake3Ok}.

Lemma computeMerkleRoot_sized cb brs r : sized 32 cb -> computeMerkleRoot cb brs = Ok r -> sized 32 r.
Proof.
  revert cb. induction brs as [|t brs IH]; intros cb Hcb; unfold computeMerkleRoot; cbn [res_foldl].
  - by intros [= <-].
  - destruct (hexToBytes t); [|done]. cbn [mbind res_bind]. destruct (ta_set (zeros 64) cb 0) as [x|]; [|done].
    cbn [mbind res_bind]. destruct (ta_set x _ 32) as [y|]; [|done]. cbn [mbind res_bind]. apply IH.
    split; [apply sha256_bytes|apply sha256_zlen].
Qed.

(** A header that is built: its parts, and what the node reads from it. *)
Lemma buildHeader_ok s b : buildHeader s = Ok b ->
  exists c1 e1 e2 c2 prev, hexToBytes (coinb1Hex (si_job s)) = Ok c1 /\ hexToBytes (extranonce1Hex s) = Ok e1 /\
    hexToBytes (extranonce2Hex s) = Ok e2 /\ hexToBytes (coinb2Hex (si_job s)) = Ok c2 /\
    b_coinbase b = c1 ++ e1 ++ e2 ++ c2 /\
    computeMerkleRoot (doubleSha256 (b_coinbase b)) (merkleBranchesHexBE (si_job s)) = Ok (merkleRootLE b) /\
    hexToBytes (jc_prevHashHexBE (si_job s)) = Ok prev /\ prevHashLE b = reverse prev /\
    sized 32 (prevHashLE b) /\ sized 32 (merkleRootLE b) /\ zlen (b_header b) = 80 /\
    unserialize (b_header b) = {| nVersion := to_i32 (jc_version (si_job s)); hashPrevBlock := prevHashLE b;
      hashMerkleRoot := merkleRootLE b; nTime := num_u32 (si_ntime s); nBits := to_u32 (jc_bits (si_job s));
      nNonce := num_u32 (si_nonce s) |}.
Proof.
  unfold buildHeader.
  destruct (hexToBytes (coinb1Hex _)) as [c1|] eqn:E1; [|done]. destruct (hexToBytes (extranonce1Hex s)) as [e1|] eqn:E2; [|done].
  destruct (hexToBytes (extranonce2Hex s)) as [e2|] eqn:E3; [|done]. destruct (hexToBytes (coinb2Hex _)) as [c2|] eqn:E4; [|done].
  cbn [mbind res_bind]. rewrite concatBytes_ok. cbn [mbind res_bind].
  destruct (computeMerkleRoot _ _) as [mr|] eqn:E5; [|done]. cbn [mbind res_bind].
  destruct (hexToBytes (jc_prevHashHexBE _)) as [prev|] eqn:E6; [|done]. cbn [mbind res_bind].
  destruct (serializeHeader _) as [h|] eqn:E7; [|done]. cbn [mbind res_bind]. intros [= <-].
  cbn [b_coinbase b_header merkleRootLE prevHashLE].
  assert (sized 32 mr) as [Hmb Hml] by (eapply computeMerkleRoot_sized, E5; split; [apply sha256_bytes|apply sha256_zlen]).
  assert (hexToBytes (bytesToHex (reverseBytes mr)) = Ok (reverse mr)) as Hm by (by apply hexToBytes_bytesToHex, bytes_ok_reverse).
  apply serializeHeader_inv in E7 as (p' & m' & Ep' & Em' & Hpl & _ & ->). cbn [prevHashHexBE merkleRootHexBE] in Ep', Em'.
  rewrite E6 in Ep'. rewrite Hm in Em'. injection Ep' as <-. injection Em' as <-.
  exists c1, e1, e2, c2, prev. do 4 (split; [done|]).
  split; [by rewrite !bconcat_cons, app_nil_r|]. do 3 (split; [done|]).
  split; [split; [by apply bytes_ok_reverse; eapply hexToBytes_bytes|unfold reverseBytes; by rewrite zlen_reverse]|].
  split; [done|]. rewrite header_layout_zlen, unserialize_layout by (done || by rewrite ?zlen_reverse).
  split; [done|]. cbn [version ntime bits nonce]. unfold reverseBytes, num_u32. by rewrite reverse_involutive.
Qed.

(** A share whose header is built is hashed as the node hashes it, and the cache is
    left in a state it can be left in. *)
Lemma validate_run cap w now s b : reachable cap w -> buildHeader s = Ok b ->
  exists h pad w', Cpp.InitScratchpad (prevHashLE b) = Some pad /\
    (forall clock, Cpp.Hash (b_header b) pad 0 clock = Some (Some h, false)) /\
    sized 32 h /\ reachable cap w' /\ validateShare now s w = (finishCheck s b h, w').
Proof.
  intros Hw Hb. destruct (buildHeader_ok s b Hb) as (? & ? & ? & ? & ? & _ & _ & _ & _ & _ & _ & _ & _ & Hp & _ & Hh & _).
  destruct (getFresh_inv cap w now (prevHashLE b) (reachable_inv cap w Hw) Hp) as (pad & ref & st & c & Ei & Eg & El & _ & _).
  destruct (initScratchpad_eq (prevHashLE b) (proj2 Hp)) as (pad0 & Ei' & Ec & Hs). rewrite Ei in Ei'. injection Ei' as <-.
  destruct (pow_core (b_header b) (prevHashLE b) pad Hh (proj2 Hp) Hs) as (h & pad' & Er & Hsz & _ & Hc).
  exists h, pad, {| w_store := <[ref := pad']> st; w_cache := c; handed := ref :: handed w |}.
  split; [done|]. split. { intros clock. destruct (Hc 0 clock) as [|[? _]]; [done|lia]. }
  split; [done|]. split.
  - eapply (reach_step cap {| w_store := st; w_cache := c; handed := ref :: handed w |});
      [eapply reach_step; [exact Hw|]; eapply step_get; [apply Hp|exact Eg]|]. by apply step_write; left.
  - unfold validateShare. rewrite Hb, Eg, El, Er. done.
Qed.

(** Where the network target is the largest number, any header is a block. *)
Lemma validate_easy cap w now s b t : reachable cap w -> buildHeader s = Ok b ->
  hexToBytes (networkTargetHexBE (si_job s)) = Ok (replicate 32 255) -> txnsHex (si_job s) = [] ->
  targetFromShareDifficulty (shareDifficulty s) = Ok t ->
  exists r w' hex, validateShare now s w = (Ok (ShareOk r), w') /\ isBlock r = true /\ serializedBlockHex r = Some hex /\
    serializeBlockHex (b_header b) [b_coinbase b] = Ok hex.
Proof.
  intros Hw Eb En Ex Et. destruct (validate_run cap w now s b Hw Eb) as (h & pad & w' & _ & _ & Hs & _ & ->).
  unfold finishCheck. rewrite En, Et, Ex. cbn [mbind res_bind]. rewrite bigIntFromBytesLE_val by apply Hs. unfold classifyCandidate.
  assert ((le_val h <=? bigIntFromBytesLE (reverseBytes (replicate 32 255))) = true) as ->.
  { apply Z.leb_le. destruct Hs as [Hb Hl]. pose proof (le_val_range h Hb) as Hr. rewrite Hl in Hr.
    assert (bigIntFromBytesLE (reverseBytes (replicate 32 255)) = 2 ^ 256 - 1) as -> by (vm_compute; reflexivity). lia. }
  rewrite andb_false_r. cbn [res_map mbind res_bind]. unfold serializeBlockHex. rewrite concatBytes_ok. cbn [mbind res_bind].
  do 3 eexists. split; [reflexivity|]. by repeat split.
Qed.

(** The network target of a job is the one its compact bits stand for. *)
Definition target_of_bits (job : JobContext) (pow_limit : Z) : Prop :=
  uint 32 (jc_bits job) /\
  exists nt, hexToBytes (networkTargetHexBE job) = Ok nt /\
    DeriveTarget (jc_bits job) pow_limit = Some (bigIntFromBytesLE (reverseBytes nt)).

Lemma finishCheck_cases s b h t pow_limit : sized 32 h -> target_of_bits (si_job s) pow_limit ->
  targetFromShareDifficulty (shareDifficulty s) = Ok t -> forall txs, res_map hexToBytes (txnsHex (si_job s)) = Ok txs ->
  let block := CheckProofOfWorkImpl h (jc_bits (si_job s)) pow_limit in
  finishCheck s b h =
    if negb (le_val h <=? t) && negb block then Ok (ShareFail low_diff None)
    else Ok (ShareOk {| isBlock := block; meetsShare := le_val h <=? t;
      powHashHexBE := bytesToHex (reverseBytes h); powInt := le_val h;
      blockHashHexBE := bytesToHex (reverseBytes (doubleSha256 (b_header b))); serializedHeader := b_header b;
      serializedBlockHex := if block then Some (bytesToHex (b_header b ++ varInt (1 + zlen txs) ++ b_coinbase b ++ bconcat txs))
                            else None |}).
Proof.
  intros [Hb _] (_ & nt & Ent & Ed) Et txs Etx. cbv zeta. unfold finishCheck, CheckProofOfWorkImpl, classifyCandidate.
  rewrite Ent, Et, Ed. cbn [mbind res_bind]. rewrite bigIntFromBytesLE_val, <- Z.leb_antisym by done.
  destruct (negb (le_val h <=? t) && negb (le_val h <=? _)); [done|].
  destruct (le_val h <=? bigIntFromBytesLE _); [|done]. rewrite Etx. cbn [mbind res_bind]. unfold serializeBlockHex.
  rewrite concatBytes_ok. cbn [mbind res_bind]. by rewrite !bconcat_cons, zlen_cons.
Qed.

(** C2: the pool's verdict on a share is the node's.  For every share whose header can
    be built, on a job whose network target is the one of its bits, and whatever the
    state of the scratchpad cache, the share is hashed to the node's hash of that header
    under that parent; it is a block exactly when the node's proof-of-work check passes,
    it earns share credit exactly when the hash is at most the share target, and it is
    rejected as low-difficulty exactly when neither holds.  A block is submitted as the
    header, the number of transactions, the coinbase and the template's transactions. *)
Theorem validateShare_verdict cap w now s b t txs pow_limit :
  reachable cap w -> buildHeader s = Ok b -> target_of_bits (si_job s) pow_limit ->
  targetFromShareDifficulty (shareDifficulty s) = Ok t -> res_map hexToBytes (txnsHex (si_job s)) = Ok txs ->
  exists h pad w', Cpp.InitScratchpad (prevHashLE b) = Some pad /\
    (forall clock, Cpp.Hash (b_header b) pad 0 clock = Some (Some h, false)) /\ reachable cap w' /\
    let block := CheckProofOfWorkImpl h (jc_bits (si_job s)) pow_limit in
    let share := le_val h <=? t in
    match validateShare now s w with
    | (Ok (ShareOk r), w1) =>
        w1 = w' /\ isBlock r = block /\ meetsShare r = share /\ (block || share) = true /\
        serializedBlockHex r = (if block then
          Some (bytesToHex (b_header b ++ varInt (1 + zlen txs) ++ b_coinbase b ++ bconcat txs)) else None)
    | (Ok (ShareFail reason detail), w1) => w1 = w' /\ reason = low_diff /\ block = false /\ share = false
    | (Throw _, _) => False
    end.
Proof.
  intros Hw Hb Ht Et Etx. destruct (validate_run cap w now s b Hw Hb) as (h & pad & w' & E1 & E2 & Hsz & Hr & ->).
  exists h, pad, w'. do 3 (split; [done|]). cbv zeta. rewrite (finishCheck_cases s b h t pow_limit Hsz Ht Et txs Etx). cbv zeta.
  destruct (le_val h <=? t), (CheckProofOfWorkImpl h _ _); cbn; auto.
Qed.

(** Whatever becomes of a share, the cache stays usable. *)
Lemma validate_reachable cap w now s : reachable cap w -> reachable cap (validateShare now s w).2.
Proof.
  intros Hw. destruct (buildHeader s) as [b|e] eqn:Hb.
  - destruct (validate_run cap w now s b Hw Hb) as (h & pad & w' & _ & _ & _ & Hr & ->). done.
  - unfold validateShare. by rewrite Hb.
Qed.

(** A share that is not rejected has work for the share target or for the network target. *)
Lemma validate_work cap w now s r w' : reachable cap w -> validateShare now s w = (Ok (ShareOk r), w') ->
  exists b h pad t nt, buildHeader s = Ok b /\ Cpp.InitScratchpad (prevHashLE b) = Some pad /\
    (forall clock, Cpp.Hash (b_header b) pad 0 clock = Some (Some h, false)) /\
    targetFromShareDifficulty (shareDifficulty s) = Ok t /\ hexToBytes (networkTargetHexBE (si_job s)) = Ok nt /\
    meetsShare r = (le_val h <=? t) /\ isBlock r = (le_val h <=? bigIntFromBytesLE (reverseBytes nt)) /\
    (meetsShare r || isBlock r) = true /\ blockHashHexBE r = bytesToHex (reverseBytes (doubleSha256 (b_header b))).
Proof.
  intros Hw E. destruct (buildHeader s) as [b|e] eqn:Hb; [|unfold validateShare in E; by rewrite Hb in E].
  destruct (validate_run cap w now s b Hw Hb) as (h & pad & w1 & E1 & E2 & Hs & _ & E3). rewrite E in E3. injection E3 as E3 _.
  symmetry in E3. unfold finishCheck, classifyCandidate in E3.
  destruct (hexToBytes (networkTargetHexBE _)) as [nt|] eqn:Ent; [|done].
  destruct (targetFromShareDifficulty _) as [t|] eqn:Et; [|done].
  cbn [mbind res_bind] in E3. rewrite bigIntFromBytesLE_val in E3 by apply Hs.
  exists b, h, pad, t, nt. do 5 (split; [done|]).
  destruct (le_val h <=? t), (le_val h <=? bigIntFromBytesLE _); cbn [negb andb] in E3; [| |done..| |].
  all: try discriminate E3.
  all: try (destruct (res_map _ _) as [txs|]; [|done]; cbn [mbind res_bind] in E3; destruct (serializeBlockHex _ _); [|done]).
  all: cbn [mbind res_bind] in E3; injection E3 as <-; done.
Qed.

(** C10: from template to header.  Whatever extranonces, time and nonce a miner submits
    for a job made from a template, the header the pool hashes is, as the node reads it,
    on top of the template's parent, with the template's version and bits, and its merkle
    root is the one the node computes for the block of the submitted coinbase and the
    template's transactions. *)
Theorem share_header_of_template payout counter tpl clean job c hs s b :
  buildJob payout counter tpl clean = Ok (job, c) -> si_job s = ctx job ->
  Forall2 displays ((fun tx => default (tt_hash tx) (tt_txid tx)) <$> transactions tpl) hs ->
  buildHeader s = Ok b ->
  exists prev, hexToBytes (previousblockhash tpl) = Ok prev /\ zlen prev = 32 /\
    unserialize (b_header b) = {|
      nVersion := to_i32 (bt_version tpl); hashPrevBlock := reverse prev;
      hashMerkleRoot := ComputeMerkleRoot (doubleSha256 (b_coinbase b) :: hs);
      nTime := num_u32 (si_ntime s); nBits := to_u32 (default 0 (parseIntHex (bt_bits tpl)));
      nNonce := num_u32 (si_nonce s) |}.
Proof.
  intros Hj Es Hd Hb.
  destruct (buildHeader_ok s b Hb) as (c1 & e1 & e2 & c2 & prev & _ & _ & _ & _ & _ & Em & Ep & Er & Hp & _ & _ & Eu).
  destruct (branches_root _ hs (doubleSha256 (b_coinbase b)) Hd (sha256_zlen _)) as (brs & Eb & Hr).
  rewrite Es in Em, Ep, Eu. revert Hj. unfold buildJob. destruct (buildCoinbase _ _ _); [|done]. rewrite Eb. cbn [mbind res_bind].
  intros [= <- _]. cbn [ctx merkleBranchesHexBE jc_prevHashHexBE jc_version jc_bits] in *.
  rewrite Hr in Em. injection Em as Em. exists prev. rewrite Eu, Er, <- Em.
  rewrite Er in Hp. destruct Hp as [_ Hp]. rewrite zlen_reverse in Hp. done.
Qed.
End Proofs.

Definition example_job : StratumJob :=
  match @buildJob example_digest example_address 0 example_template true with
  | Ok (j, _) => j
  | Throw _ => {| ctx := {| jobId := []; coinb1Hex := []; coinb2Hex := []; merkleBranchesHexBE := []; jc_version := 0;
        jc_bits := 0; jc_prevHashHexBE := []; networkTargetHexBE := []; txnsHex := []; jc_height := 0 |};
      cleanJobs := false; ntimeMin := 0; ntimeRoll := 0 |}
  end.
Definition example_share : ShareInput := {|
  si_job := ctx example_job; extranonce1Hex := js "00000001"; extranonce2Hex := js "0000002a";
  si_ntime := num_of_Z 1700000601; si_nonce := num_of_Z 4000000000; shareDifficulty := num_of_Z 1 |}.
Definition example_built : Built :=
  match @buildHeader example_digest example_share with
  | Ok b => b
  | Throw _ => {| b_header := []; b_coinbase := []; merkleRootLE := []; prevHashLE := [] |}
  end.
Definition empty_cache : world :=
  {| w_store := []; w_cache := {| capacity := 8; pmap := []; hits := 0; misses := 0; evictions := 0 |}; handed := [] |}.

Lemma validateShare_verdict_witness :
  exists h pad w', @Cpp.InitScratchpad example_stream (prevHashLE example_built) = Some pad /\
    (forall clock, @Cpp.Hash example_stream (b_header example_built) pad 0 clock = Some (Some h, false)) /\
    @reachable example_stream 8 w'.
Proof.
  destruct (@validateShare_verdict example_digest example_digest_ok example_stream example_stream_ok 8 empty_cache 5
    example_share example_built (POOL_DIFF1_TARGET) [[0]] (2 ^ 248)) as (h & pad & w' & E1 & E2 & E3 & _).
  - apply (reach_new 8). reflexivity.
  - vm_compute. reflexivity.
  - split; [vm_compute; split; (reflexivity || discriminate)|]. eexists. split; vm_compute; reflexivity.
  - vm_compute. reflexivity.
  - vm_compute. reflexivity.
  - exists h, pad, w'. split; [exact E1|split; [exact E2|exact E3]].
Defined.

Lemma share_header_of_template_witness :
  hashMerkleRoot (unserialize (b_header example_built)) =
    @ComputeMerkleRoot example_digest (@doubleSha256 example_digest (b_coinbase example_built) :: [replicate 32 170]).
Proof.
  destruct (@share_header_of_template example_digest example_digest_ok example_address 0 example_template
    true example_job 1 [replicate 32 170] example_share example_built) as (prev & _ & _ & ->).
  - vm_compute. reflexivity.
  - reflexivity.
  - apply Forall2_cons_2; [|apply Forall2_nil_2].
    change (replicate 32 170) with (reverse (replicate 32 170)). apply displays_intro; [vm_compute; reflexivity|reflexivity].
  - vm_compute. reflexivity.
  - reflexivity.
Defined.
