(* ===== verification/Passports.v ===== *)
(** * Device slots ([pool/src/lib/passports.ts])

    A slot of an account is bound, once, to the public key of a device.  The server is
    written against the interface [PassportStore]; [MemoryPassportStore] and
    [PgPassportStore] implement it.  The SQL statements of the latter are the functions
    on the tables [users] and [device_slots] that they denote, with the unique index on
    [pubkey] as an exception.

    [reserveEmpty] is two steps, as the database answers first and the slot is chosen
    and held when the answer arrives (the user may be [null], whose slots are none): [reserve_query] when the store runs and
    [reserve_pick] when the caller resumes.  The in-memory store does all in the first. *)

From S2P Require Import Prelude JsString JsMap.

Record PassportSlot := { slot_id : Z; slot_user : Z; slotNo : Z; slot_pubkey : option jsstr }.

Class PassportStore (T : Type) := {
  pending_reserve : Type;
  slots_of : T -> list PassportSlot;
  store_ok : T -> Prop;
  findUserId : T -> jsstr -> option Z;
  findSlotByPubkey : T -> jsstr -> option PassportSlot;
  reserve_query : T -> option Z -> list Z -> pending_reserve * list Z;
  reserve_pick : pending_reserve -> list Z -> option PassportSlot * list Z;
  lock : T -> Z -> jsstr -> res (bool * T);
  addEmpty : T -> Z -> PassportSlot * T
}.

Definition bind_slot (id : Z) (pubkey : jsstr) (s : PassportSlot) : PassportSlot :=
  if slot_id s =? id then {| slot_id := slot_id s; slot_user := slot_user s; slotNo := slotNo s; slot_pubkey := Some pubkey |}
  else s.

Definition no_pubkey (s : PassportSlot) : bool := bool_decide (slot_pubkey s = None).
Definition has_pubkey (pubkey : jsstr) (s : PassportSlot) : bool := bool_decide (slot_pubkey s = Some pubkey).

Definition next_slot_no (userId : Z) (l : list PassportSlot) : Z :=
  foldl (fun m s => Z.max m (slotNo s)) 0 (filter (fun s => slot_user s = userId) l) + 1.

(** Ids are unique, and so are the keys of the bound slots. *)
Definition slots_ok (l : list PassportSlot) : Prop := NoDup (slot_id <$> l) /\ NoDup (omap slot_pubkey l).

(** All ids are below the next one. *)
Definition fresh_ids (next : Z) (l : list PassportSlot) : Prop := forall s, s ∈ l -> slot_id s < next.

(** ** In memory *)
Record MemoryPassportStore := { m_users : list (jsstr * Z); m_slots : list PassportSlot; nextId : Z }.

Definition addUser (email : jsstr) (id : Z) (t : MemoryPassportStore) : MemoryPassportStore :=
  {| m_users := map_set email id (m_users t); m_slots := m_slots t; nextId := nextId t |}.

Definition mem_findUserId (t : MemoryPassportStore) (email : jsstr) : option Z := map_get email (m_users t).
Definition mem_findSlotByPubkey (t : MemoryPassportStore) (pubkey : jsstr) : option PassportSlot :=
  arr_find (has_pubkey pubkey) (m_slots t).
Definition mem_reserveEmpty (t : MemoryPassportStore) (userId : option Z) (hold : list Z) : option PassportSlot * list Z :=
  match head (sort_by slotNo
      (filter (fun s => Some (slot_user s) = userId /\ no_pubkey s = true /\ (slot_id s ∉ hold)) (m_slots t))) with
  | None => (None, hold)
  | Some slot => (Some slot, set_add (slot_id slot) hold)
  end.
Definition mem_lock (t : MemoryPassportStore) (id : Z) (pubkey : jsstr) : res (bool * MemoryPassportStore) :=
  match arr_find (fun s => slot_id s =? id) (m_slots t) with
  | None => Ok (false, t)
  | Some slot =>
      if negb (no_pubkey slot) then Ok (false, t)
      else if existsb (has_pubkey pubkey) (m_slots t) then Ok (false, t)
      else Ok (true, {| m_users := m_users t; m_slots := bind_slot id pubkey <$> m_slots t; nextId := nextId t |})
  end.
Definition mem_addEmpty (t : MemoryPassportStore) (userId : Z) : PassportSlot * MemoryPassportStore :=
  let slot := {| slot_id := nextId t; slot_user := userId; slotNo := next_slot_no userId (m_slots t); slot_pubkey := None |} in
  (slot, {| m_users := m_users t; m_slots := m_slots t ++ [slot]; nextId := nextId t + 1 |}).

#[export] Instance memory_store : PassportStore MemoryPassportStore := {|
  pending_reserve := option PassportSlot; slots_of := m_slots;
  store_ok := fun t => slots_ok (m_slots t) /\ fresh_ids (nextId t) (m_slots t); findUserId := mem_findUserId;
  findSlotByPubkey := mem_findSlotByPubkey; reserve_query := mem_reserveEmpty;
  reserve_pick := fun slot hold => (slot, hold); lock := mem_lock; addEmpty := mem_addEmpty |}.

(** ** In the database *)
Record PgPassportStore := { users : list (jsstr * Z); device_slots : list PassportSlot; slot_seq : Z }.

Definition pg_findUserId (t : PgPassportStore) (email : jsstr) : option Z := map_get email (users t).
Definition pg_findSlotByPubkey (t : PgPassportStore) (pubkey : jsstr) : option PassportSlot :=
  head (filter (fun s => has_pubkey pubkey s = true) (device_slots t)).
Definition pg_reserve_query (t : PgPassportStore) (userId : option Z) : list PassportSlot :=
  sort_by slotNo (filter (fun s => Some (slot_user s) = userId /\ no_pubkey s = true) (device_slots t)).
Definition pg_reserve_pick (rows : list PassportSlot) (hold : list Z) : option PassportSlot * list Z :=
  match arr_find (fun r => negb (bool_decide (slot_id r ∈ hold))) rows with
  | None => (None, hold)
  | Some row => (Some row, set_add (slot_id row) hold)
  end.
Definition pg_lock (t : PgPassportStore) (id : Z) (pubkey : jsstr) : res (bool * PgPassportStore) :=
  if existsb (fun s => (slot_id s =? id) && no_pubkey s) (device_slots t) then
    if existsb (has_pubkey pubkey) (device_slots t) then Throw "duplicate key value violates unique constraint"
    else Ok (true, {| users := users t; device_slots := bind_slot id pubkey <$> device_slots t; slot_seq := slot_seq t |})
  else Ok (false, t).
Definition pg_addEmpty (t : PgPassportStore) (userId : Z) : PassportSlot * PgPassportStore :=
  let slot := {| slot_id := slot_seq t; slot_user := userId; slotNo := next_slot_no userId (device_slots t); slot_pubkey := None |} in
  (slot, {| users := users t; device_slots := device_slots t ++ [slot]; slot_seq := slot_seq t + 1 |}).

#[export] Instance pg_store : PassportStore PgPassportStore := {|
  pending_reserve := list PassportSlot; slots_of := device_slots;
  store_ok := fun t => slots_ok (device_slots t) /\ fresh_ids (slot_seq t) (device_slots t); findUserId := pg_findUserId;
  findSlotByPubkey := pg_findSlotByPubkey; reserve_query := fun t u hold => (pg_reserve_query t u, hold);
  reserve_pick := pg_reserve_pick; lock := pg_lock; addEmpty := pg_addEmpty |}.

(** ** What a store promises

    [store_ok] is the invariant of the store itself. *)

(** [l'] is [l] with some empty slots added and at most one empty slot bound. *)
Definition extends (l l' : list PassportSlot) : Prop :=
  forall s k, s ∈ l -> slot_pubkey s = Some k -> s ∈ l'.

Class PassportStoreOk (T : Type) `{PassportStore T} := {
  store_ok_slots t : store_ok t -> slots_ok (slots_of t);
  lock_true t id pk t' : store_ok t -> lock t id pk = Ok (true, t') ->
    store_ok t' /\ slots_of t' = bind_slot id pk <$> slots_of t /\
    exists s, s ∈ slots_of t /\ slot_id s = id /\ slot_pubkey s = None;
  lock_false t id pk t' : lock t id pk = Ok (false, t') -> t' = t;
  findSlot_some t pk s : findSlotByPubkey t pk = Some s -> s ∈ slots_of t /\ slot_pubkey s = Some pk;
  findSlot_none t pk : findSlotByPubkey t pk = None -> forall s, s ∈ slots_of t -> slot_pubkey s <> Some pk;
  (** a slot that is handed out was not held when it was chosen, and was held from then on *)
  reserve_spec t u hold hold1 p hold2 s hold3 : reserve_query t u hold = (p, hold1) ->
    reserve_pick p hold2 = (Some s, hold3) ->
    s ∈ slots_of t /\ Some (slot_user s) = u /\ slot_pubkey s = None /\
    (((slot_id s ∉ hold) /\ slot_id s ∈ hold1 /\ hold3 = hold2) \/
     ((slot_id s ∉ hold2) /\ slot_id s ∈ hold3 /\ hold1 = hold));
  addEmpty_spec t u s t' : store_ok t -> addEmpty t u = (s, t') ->
    store_ok t' /\ slots_of t' = slots_of t ++ [s] /\ slot_user s = u /\ slot_pubkey s = None /\
    forall s', s' ∈ slots_of t -> slot_user s' = u -> slotNo s' < slotNo s
}.

(** ** Lemmas *)
Lemma bind_slot_ids id pk (l : list PassportSlot) : slot_id <$> (bind_slot id pk <$> l) = slot_id <$> l.
Proof.
  rewrite <- list_fmap_compose. apply list_fmap_ext. intros ? s _. unfold compose, bind_slot.
  by destruct (slot_id s =? id).
Qed.

Lemma bind_slot_other id pk s : slot_id s <> id -> bind_slot id pk s = s.
Proof. intros. unfold bind_slot. by rewrite (proj2 (Z.eqb_neq _ _)). Qed.

(** Binding an empty slot to a new key keeps the table in order. *)
Lemma bind_slots_ok id pk (l : list PassportSlot) : slots_ok l -> (forall s, s ∈ l -> slot_pubkey s <> Some pk) ->
  (exists s, s ∈ l /\ slot_id s = id /\ slot_pubkey s = None) -> slots_ok (bind_slot id pk <$> l).
Proof.
  intros [Hi Hk] Hn (s & Hs & Es & En). split; [by rewrite bind_slot_ids|].
  apply list_elem_of_split in Hs as (l1 & l2 & ->). rewrite fmap_app, fmap_cons in Hi. rewrite fmap_app, fmap_cons.
  assert (forall l' : list PassportSlot, (id ∉ slot_id <$> l') -> bind_slot id pk <$> l' = l') as Hsame.
  { intros l' Hl. rewrite <- (list_fmap_id l') at 2. apply list_fmap_ext. intros i x Hx.
    apply bind_slot_other. intros Ex. apply Hl, list_elem_of_fmap. exists x. split; [done|]. by eapply list_elem_of_lookup_2. }
  apply NoDup_app in Hi as (H1 & H12 & H2). apply NoDup_cons in H2 as [H2 _].
  rewrite !Hsame; [|by rewrite <- Es|intros Hin; rewrite <- Es in Hin; apply (H12 _ Hin); left].
  rewrite omap_app in Hk. rewrite omap_app. unfold bind_slot. rewrite (proj2 (Z.eqb_eq _ _) Es). cbn in Hk |- *. rewrite En in Hk.
  rewrite <- Permutation_middle. apply NoDup_cons. split; [|done].
  rewrite <- omap_app, list_elem_of_omap. intros (x & Hx & Ex). apply (Hn x); [|done].
  rewrite elem_of_app, elem_of_cons in *. tauto.
Qed.

(** A bound slot stays as it is when another one is bound. *)
Lemma bind_slot_extends id pk (l : list PassportSlot) : slots_ok l -> (exists s, s ∈ l /\ slot_id s = id /\ slot_pubkey s = None) ->
  extends l (bind_slot id pk <$> l).
Proof.
  intros [Hi _] (s & Hs & Es & En) s' k Hs' Ek. apply list_elem_of_fmap. exists s'. split; [|done].
  symmetry. apply bind_slot_other. intros E. rewrite <- Es in E.
  apply list_elem_of_lookup_1 in Hs as (i & Hi'). apply list_elem_of_lookup_1 in Hs' as (j & Hj).
  assert (i = j) as -> by (eapply NoDup_lookup; [exact Hi|..]; rewrite list_lookup_fmap, ?Hi', ?Hj; cbn; by rewrite ?E).
  congruence.
Qed.

Lemma slots_ok_snoc (l : list PassportSlot) s : slots_ok l -> slot_pubkey s = None -> (slot_id s ∉ slot_id <$> l) -> slots_ok (l ++ [s]).
Proof.
  intros [Hi Hk] En Hs. split.
  - rewrite fmap_app. apply NoDup_app. split; [done|]. split; [|apply NoDup_singleton].
    intros x Hx Hx2. apply list_elem_of_singleton in Hx2 as ->. done.
  - rewrite omap_app. cbn. rewrite En. by rewrite app_nil_r.
Qed.

Lemma next_slot_no_gt u l s : s ∈ l -> slot_user s = u -> slotNo s < next_slot_no u l.
Proof.
  intros Hs Hu. unfold next_slot_no.
  assert (s ∈ filter (fun s => slot_user s = u) l) as Hf by (by apply list_elem_of_filter).
  enough (forall l' a, (s ∈ l' -> slotNo s <= foldl (fun m s => Z.max m (slotNo s)) a l') /\
    a <= foldl (fun m s => Z.max m (slotNo s)) a l') as H by (pose proof (proj1 (H _ 0) Hf); lia).
  clear. induction l' as [|x l' IH]; intros a; cbn; [split; [by intros ?%elem_of_nil|lia]|].
  specialize (IH (Z.max a (slotNo x))) as [IH1 IH2]. split; [|lia].
  rewrite elem_of_cons. intros [->|Hs]; [lia|auto].
Qed.

Lemma existsb_elem {A} (p : A -> bool) l : existsb p l = true <-> exists x, x ∈ l /\ p x = true.
Proof. rewrite existsb_exists. by setoid_rewrite <- list_elem_of_In. Qed.

(** ** The two stores keep the promise *)
Lemma fresh_not_in next l s : fresh_ids next l -> slot_id s = next -> (slot_id s ∉ slot_id <$> l).
Proof. intros Hf E Hin. apply list_elem_of_fmap in Hin as (x & Ex & Hx). specialize (Hf x Hx). lia. Qed.

Lemma fresh_bind next id pk l : fresh_ids next l -> fresh_ids next (bind_slot id pk <$> l).
Proof.
  intros Hf s Hs. apply list_elem_of_fmap in Hs as (x & -> & Hx). specialize (Hf x Hx). unfold bind_slot.
  by destruct (slot_id x =? id).
Qed.

Lemma fresh_snoc next l s : fresh_ids next l -> slot_id s = next -> fresh_ids (next + 1) (l ++ [s]).
Proof.
  intros Hf E x. rewrite elem_of_app, list_elem_of_singleton. intros [Hx| ->]; [specialize (Hf x Hx)|]; lia.
Qed.

Lemma has_pubkey_not pk l : existsb (has_pubkey pk) l = false -> forall s, s ∈ l -> slot_pubkey s <> Some pk.
Proof.
  intros E s Hs Hk. enough (existsb (has_pubkey pk) l = true) by congruence. apply existsb_elem. exists s. split; [done|].
  by apply bool_decide_eq_true.
Qed.

#[export] Instance memory_store_ok : PassportStoreOk MemoryPassportStore.
Proof.
  split.
  - by intros t [? _].
  - intros t id pk t' [Hok Hf]. cbn. unfold mem_lock. destruct (arr_find _ _) as [slot|] eqn:E; [|done].
    destruct (no_pubkey slot) eqn:En; [|done]. destruct (existsb _ _) eqn:Ee; [done|]. cbn. intros [= <-].
    apply arr_find_some in E as [Hs Hid]. apply Z.eqb_eq in Hid. apply bool_decide_eq_true in En.
    assert (exists s, s ∈ m_slots t /\ slot_id s = id /\ slot_pubkey s = None) as Hex by eauto. cbn.
    split; [split; [by apply bind_slots_ok, Hex; [|apply has_pubkey_not]|by apply fresh_bind]|done].
  - intros t id pk t'. cbn. unfold mem_lock. destruct (arr_find _ _) as [slot|]; [|congruence].
    destruct (negb (no_pubkey slot)); [congruence|]. destruct (existsb _ _); congruence.
  - intros t pk s [Hs Hp]%arr_find_some. split; [done|]. by apply bool_decide_eq_true in Hp.
  - intros t pk E s Hs. apply (proj1 (bool_decide_eq_false _)). exact (arr_find_none _ _ _ E Hs).
  - intros t u hold hold1 p hold2 s hold3. cbn. unfold mem_reserveEmpty.
    destruct (head _) as [slot|] eqn:E; intros [= <- <-] [= <- <-]. apply head_elem, sort_by_elem, list_elem_of_filter in E as ((Hu & Hp & Hh) & Hs).
    apply bool_decide_eq_true in Hp. do 3 (split; [done|]). left. split; [done|]. split; [|done].
    apply set_add_elem. by left.
  - intros t u s t' [Hok Hf]. cbn. intros [= <- <-]. cbn. split; [split|].
    + apply slots_ok_snoc; [done|done|]. by eapply fresh_not_in.
    + by apply fresh_snoc.
    + do 3 (split; [done|]). intros s' Hs' Hu. by apply next_slot_no_gt.
Qed.

#[export] Instance pg_store_ok : PassportStoreOk PgPassportStore.
Proof.
  split.
  - by intros t [? _].
  - intros t id pk t' [Hok Hf]. cbn. unfold pg_lock. destruct (existsb (fun s => _) _) eqn:E; [|done].
    destruct (existsb _ _) eqn:Ee in |- *; [done|]. intros [= <-].
    assert (exists s, s ∈ device_slots t /\ slot_id s = id /\ slot_pubkey s = None) as Hex.
    { apply existsb_elem in E as (s & Hs & Hb). apply andb_prop in Hb as [Hid Hn]. apply Z.eqb_eq in Hid.
      apply bool_decide_eq_true in Hn. eauto. }
    cbn. split; [split; [by apply bind_slots_ok, Hex; [|apply has_pubkey_not]|by apply fresh_bind]|done].
  - intros t id pk t'. cbn. unfold pg_lock. destruct (existsb (fun s => _) _); [|congruence].
    destruct (existsb _ _); congruence.
  - intros t pk s E. apply head_elem, list_elem_of_filter in E as [Hp Hs]. by apply bool_decide_eq_true in Hp.
  - intros t pk E s Hs. apply (proj1 (bool_decide_eq_false _)). exact (arr_find_none _ _ _ E Hs).
  - intros t u hold hold1 p hold2 s hold3. cbn. unfold pg_reserve_pick. intros [= <- <-].
    destruct (arr_find _ _) as [row|] eqn:E; [|done]. intros [= <- <-].
    apply arr_find_some in E as [Hr Hh]. apply negb_true_iff, bool_decide_eq_false in Hh.
    unfold pg_reserve_query in Hr. apply sort_by_elem, list_elem_of_filter in Hr as ((Hu & Hp) & Hs).
    apply bool_decide_eq_true in Hp. do 3 (split; [done|]). right. split; [done|]. split; [|done].
    apply set_add_elem. by left.
  - intros t u s t' [Hok Hf]. cbn. intros [= <- <-]. cbn. split; [split|].
    + apply slots_ok_snoc; [done|done|]. by eapply fresh_not_in.
    + by apply fresh_snoc.
    + do 3 (split; [done|]). intros s' Hs' Hu. by apply next_slot_no_gt.
Qed.
