(* ===== verification/Sv2Channel.v ===== *)
(** * Stratum V2 mining: channels, jobs, submissions

    [pool/src/sv2/mining/channel.ts], [jobs.ts] and [submit.ts]: the channels of a
    connection and their extranonce, the frames a job is announced with, and the bridge
    from a submission to the share validator of the V1 server.  The theorems of this file
    say that what a miner is told to hash, on a channel of either kind, is the header
    that the validator checks. *)

From S2P Require Import Prelude JsString JsMap JsNumber JsRound Effects Header Difficulty JobManager B3Pow PadCache.
From S2P Require Import ShareValidator Ipc Sv2Types Sv2Messages.
Import Mining.

Definition SV2_EXTRANONCE_TOTAL : Z := 8.

Inductive ChannelKind := standard | extended.
#[global] Instance ChannelKind_eq_dec : EqDecision ChannelKind.
Proof. solve_decision. Defined.

Record ChannelState := {
  ch_id : Z;
  ch_kind : ChannelKind;
  ch_requestId : Z;
  ch_userIdentity : jsstr;
  ch_extranoncePrefix : bytes;
  ch_extranonceSize : Z;
  ch_groupChannelId : Z;
  ch_targetBE : bytes;
  ch_shareDifficulty : jsnum;
  ch_lastAcceptedSequence : Z;
  ch_lastJobId : Z;
  ch_cleanJobs : bool
}.

(** ** Targets *)

(** [for (let i = 31; i >= 0; i--) { out[i] = v & 0xff; v >>= 8; }]: the bytes from the
    last position back. *)
Definition bigIntToBe32 (n : Z) : bytes := reverse (le_bytes 32 n).
Definition targetU256BE (shareDifficulty : jsnum) : res bytes :=
  t ← targetFromShareDifficulty shareDifficulty;
  Ok (bigIntToBe32 t).
Definition maxTargetU256BE : bytes := bigIntToBe32 POOL_DIFF1_TARGET.

(** ** The channels of a connection *)
Record ChannelTable := { byId : list (Z * ChannelState); nextId : Z }.
Definition new_ChannelTable : ChannelTable := {| byId := []; nextId := 1 |}.

Record OpenOpts := {
  o_kind : ChannelKind;
  o_requestId : Z;
  o_userIdentity : jsstr;
  o_nominalHashRate : jsnum;
  o_defaultDifficulty : jsnum;
  o_prefixLen : option Z
}.

(** The length of the prefix, then [open] with the random bytes drawn for it. *)
Definition prefix_length (opts : OpenOpts) : Z :=
  match o_kind opts with
  | standard => SV2_EXTRANONCE_TOTAL
  | extended => Z.min (default 4 (o_prefixLen opts)) (SV2_EXTRANONCE_TOTAL - 1)
  end.
Definition open_channel (opts : OpenOpts) (random : Z -> bytes) : eff ChannelTable ChannelState :=
  t ← get;
  let id := nextId t in
  _ ← modify (fun t => {| byId := byId t; nextId := nextId t + 1 |});
  let prefixLen := prefix_length opts in
  let extranoncePrefix := random prefixLen in
  let extranonceSize := SV2_EXTRANONCE_TOTAL - prefixLen in
  target ← lift (targetU256BE (o_defaultDifficulty opts));
  let ch := {| ch_id := id; ch_kind := o_kind opts; ch_requestId := o_requestId opts;
               ch_userIdentity := o_userIdentity opts; ch_extranoncePrefix := extranoncePrefix;
               ch_extranonceSize := extranonceSize; ch_groupChannelId := 0; ch_targetBE := target;
               ch_shareDifficulty := o_defaultDifficulty opts; ch_lastAcceptedSequence := 0; ch_lastJobId := 0;
               ch_cleanJobs := true |} in
  _ ← modify (fun t => {| byId := map_set id ch (byId t); nextId := nextId t |});
  mret ch.

Definition get_channel (id : Z) (t : ChannelTable) : option ChannelState := map_get id (byId t).
Definition delete_channel (id : Z) (t : ChannelTable) : ChannelTable :=
  {| byId := map_delete id (byId t); nextId := nextId t |}.
Definition all_channels (t : ChannelTable) : list ChannelState := snd <$> byId t.

(** An assignment to a field of the channel [id]; the objects are shared with the table. *)
Definition update_channel (id : Z) (f : ChannelState -> ChannelState) (t : ChannelTable) : ChannelTable :=
  match map_get id (byId t) with
  | Some c => {| byId := map_set id (f c) (byId t); nextId := nextId t |}
  | None => t
  end.
Definition set_lastJobId (v : Z) (c : ChannelState) : ChannelState :=
  {| ch_id := ch_id c; ch_kind := ch_kind c; ch_requestId := ch_requestId c; ch_userIdentity := ch_userIdentity c;
     ch_extranoncePrefix := ch_extranoncePrefix c; ch_extranonceSize := ch_extranonceSize c;
     ch_groupChannelId := ch_groupChannelId c; ch_targetBE := ch_targetBE c; ch_shareDifficulty := ch_shareDifficulty c;
     ch_lastAcceptedSequence := ch_lastAcceptedSequence c; ch_lastJobId := v; ch_cleanJobs := ch_cleanJobs c |}.
Definition set_lastAcceptedSequence (v : Z) (c : ChannelState) : ChannelState :=
  {| ch_id := ch_id c; ch_kind := ch_kind c; ch_requestId := ch_requestId c; ch_userIdentity := ch_userIdentity c;
     ch_extranoncePrefix := ch_extranoncePrefix c; ch_extranonceSize := ch_extranonceSize c;
     ch_groupChannelId := ch_groupChannelId c; ch_targetBE := ch_targetBE c; ch_shareDifficulty := ch_shareDifficulty c;
     ch_lastAcceptedSequence := v; ch_lastJobId := ch_lastJobId c; ch_cleanJobs := ch_cleanJobs c |}.
Definition set_difficulty (d : jsnum) (target : bytes) (c : ChannelState) : ChannelState :=
  {| ch_id := ch_id c; ch_kind := ch_kind c; ch_requestId := ch_requestId c; ch_userIdentity := ch_userIdentity c;
     ch_extranoncePrefix := ch_extranoncePrefix c; ch_extranonceSize := ch_extranonceSize c;
     ch_groupChannelId := ch_groupChannelId c; ch_targetBE := target; ch_shareDifficulty := d;
     ch_lastAcceptedSequence := ch_lastAcceptedSequence c; ch_lastJobId := ch_lastJobId c; ch_cleanJobs := ch_cleanJobs c |}.

(** The difficulty is assigned before the target is computed. *)
Definition setShareDifficulty (id : Z) (diff : jsnum) : eff ChannelTable unit :=
  t ← get;
  match map_get id (byId t) with
  | None => mret tt
  | Some c =>
      _ ← modify (update_channel id (set_difficulty diff (ch_targetBE c)));
      target ← lift (targetU256BE diff);
      modify (update_channel id (set_difficulty diff target))
  end.

Definition fullExtranonce (ch : ChannelState) (submitted : bytes) : res bytes :=
  _ ← throw_if (negb (zlen submitted =? ch_extranonceSize ch)) "extranonce length mismatch";
  out ← ta_set (zeros SV2_EXTRANONCE_TOTAL) (ch_extranoncePrefix ch) 0;
  ta_set out submitted (zlen (ch_extranoncePrefix ch)).

(** ** Jobs *)
Definition nextSv2JobId (counter : Z) : Z := to_u32 (counter + 1).

Definition merklePathLE (job : JobContext) : res (list bytes) :=
  res_map (fun h => b ← hexToBytes h; Ok (reverseBytes b)) (merkleBranchesHexBE job).

Definition buildNewExtendedJob (ch : ChannelState) (job : JobContext) (jobId : Z) : res (NewExtendedMiningJob * bytes) :=
  path ← merklePathLE job;
  prefix ← hexToBytes (coinb1Hex job);
  suffix ← hexToBytes (coinb2Hex job);
  let msg := {| nemj_channelId := ch_id ch; nemj_jobId := jobId; nemj_minNtime := None; nemj_version := jc_version job;
                nemj_versionRollingAllowed := true; nemj_merklePath := path; nemj_coinbaseTxPrefix := prefix;
                nemj_coinbaseTxSuffix := suffix |} in
  b ← encodeNewExtendedMiningJob msg;
  Ok (msg, b).

Definition buildSetNewPrevHash (ch : ChannelState) (job : StratumJob) (jobId : Z) : res (SetNewPrevHash * bytes) :=
  prev ← hexToBytes (jc_prevHashHexBE (ctx job));
  let msg := {| snph_channelId := ch_id ch; snph_jobId := jobId; snph_prevHash := reverseBytes prev;
                snph_minNtime := ntimeMin job; snph_nbits := jc_bits (ctx job) |} in
  b ← encodeSetNewPrevHash msg;
  Ok (msg, b).

Definition buildSetTarget (ch : ChannelState) : res (SetTarget * bytes) :=
  let msg := {| st_channelId := ch_id ch; st_maxTarget := ch_targetBE ch |} in
  b ← encodeSetTarget msg;
  Ok (msg, b).

Section Jobs.
Context `{Sha256}.

Definition computeMerkleRootLE (coinbaseTxidLE : bytes) (branchesBE : list jsstr) : res bytes :=
  res_foldl (fun cur bBE =>
    b ← hexToBytes bBE;
    let sib := reverseBytes b in
    buf ← ta_set (zeros 64) cur 0;
    buf ← ta_set buf sib 32;
    Ok (sha256 (sha256 buf))) coinbaseTxidLE branchesBE.

Definition buildNewStandardJob (ch : ChannelState) (job : JobContext) (jobId : Z) : res (NewMiningJob * bytes * bytes) :=
  en ← fullExtranonce ch [];
  coinb1 ← hexToBytes (coinb1Hex job);
  coinb2 ← hexToBytes (coinb2Hex job);
  coinbase ← concatBytes [coinb1; en; coinb2];
  let cbTxid := sha256 (sha256 coinbase) in
  merkleRootLE ← computeMerkleRootLE cbTxid (merkleBranchesHexBE job);
  let msg := {| nmj_channelId := ch_id ch; nmj_jobId := jobId; nmj_minNtime := None; nmj_version := jc_version job;
                nmj_merkleRoot := merkleRootLE |} in
  b ← encodeNewMiningJob msg;
  Ok (msg, b, merkleRootLE).
End Jobs.

(** ** Submissions *)
Record SubmitArgs := {
  a_channel : ChannelState;
  a_job : JobContext;
  a_sequenceNumber : Z;
  a_nonce : Z;
  a_ntime : Z;
  a_version : Z;
  a_extranonce : bytes;
  a_blockHeight : Z;
  a_networkDifficulty : option jsnum
}.

Inductive SubmitOutcome :=
| SubmitOk (check : ShareCheckOk) (event : ShareEvent)
| SubmitFail (reason : jsstr).

Definition workerNameFromIdentity (id : jsstr) : jsstr :=
  let dot := indexOf 46 id in
  if 0 <=? dot then drop (Z.to_nat (dot + 1)) id else js "default".

(** The share that a submission stands for; its [version] is not looked at. *)
Definition submit_input (args : SubmitArgs) : res ShareInput :=
  en ← fullExtranonce (a_channel args) (a_extranonce args);
  let p := zlen (ch_extranoncePrefix (a_channel args)) in
  Ok {| si_job := a_job args; extranonce1Hex := bytesToHex (slice 0 p en);
        extranonce2Hex := bytesToHex (drop (Z.to_nat p) en); si_ntime := num_of_Z (a_ntime args);
        si_nonce := num_of_Z (a_nonce args); shareDifficulty := ch_shareDifficulty (a_channel args) |}.

(** The event of an accepted submission. *)
Definition submit_event (args : SubmitArgs) (check : ShareCheckOk) (now : Z) : ShareEvent := {|
  se_user := ch_userIdentity (a_channel args); se_workerName := workerNameFromIdentity (ch_userIdentity (a_channel args));
  se_diff := ch_shareDifficulty (a_channel args); se_isBlock := isBlock check;
  se_blockHash := if isBlock check then Some (blockHashHexBE check) else None;
  se_blockHeight := Some (a_blockHeight args); se_networkDifficulty := a_networkDifficulty args;
  se_timestampMs := now; se_attest := None |}.

(** What [processSubmit] has reached when it first awaits or returns. *)
Inductive submit_progress :=
| Done (r : SubmitOutcome)
| AwaitBlock (blockHex : jsstr) (check : ShareCheckOk).

Section Submit.
Context `{Sha256} `{Blake3}.

Definition processSubmit (args : SubmitArgs) (now : Z) (w : world) : res submit_progress * world :=
  match submit_input args with
  | Throw e => (Throw e, w)
  | Ok s =>
      match validateShare now s w with
      | (Throw e, w) => (Throw e, w)
      | (Ok (ShareFail reason _), w) => (Ok (Done (SubmitFail (reason_string reason))), w)
      | (Ok (ShareOk check), w) =>
          match (if isBlock check then serializedBlockHex check else None) with
          | Some (c :: hex) => (Ok (AwaitBlock (c :: hex) check), w)
          | _ => (Ok (Done (SubmitOk check (submit_event args check now))), w)
          end
      end
  end.
(** After [submitBlock], whatever it answered. *)
Definition processSubmit_after (args : SubmitArgs) (check : ShareCheckOk) (now : Z) : SubmitOutcome :=
  SubmitOk check (submit_event args check now).
End Submit.

(** ** What the miner hashes *)
Section MinerView.
Context `{Sha256Ok}.

(** The header a miner makes of the announced version, parent and bits, a merkle root and
    the fields it rolls. *)
Definition miner_header (version : Z) (root : bytes) (p : SetNewPrevHash) (ntime nonce : Z) : CBlockHeader :=
  {| nVersion := to_i32 version; hashPrevBlock := snph_prevHash p; hashMerkleRoot := root; nTime := ntime;
     nBits := to_u32 (snph_nbits p); nNonce := nonce |}.
(** The merkle root of an extended job: the coinbase around the extranonce, then the path. *)
Definition miner_root (m : NewExtendedMiningJob) (prefix extranonce : bytes) : bytes :=
  foldl (fun cur sib => doubleSha256 (cur ++ sib))
    (doubleSha256 (nemj_coinbaseTxPrefix m ++ prefix ++ extranonce ++ nemj_coinbaseTxSuffix m)) (nemj_merklePath m).

Lemma chain_inv e f w w' : chain e f w = Ok w' -> exists w1, e w = Ok w1 /\ f w1 = Ok w'.
Proof. unfold chain. destruct (e w) as [w1|]; [|done]. cbn [mbind res_bind]. eauto. Qed.

Lemma items_u256_inv l w w' : w_items l w_u256 w = Ok w' -> Forall (fun b => zlen b = 32) l.
Proof.
  revert w. induction l as [|b l IH]; intros w; [done|]. cbn [w_items]. intros (w1 & E1 & E2)%chain_inv.
  constructor; [|by eapply IH]. unfold w_u256 in E1. by destruct (Z.eqb_spec (zlen b) 32).
Qed.

(** A job that is encoded has a path of 32-byte hashes. *)
Lemma extended_path_sized m b : encodeNewExtendedMiningJob m = Ok b -> Forall (fun b => zlen b = 32) (nemj_merklePath m).
Proof.
  unfold encodeNewExtendedMiningJob, written. destruct (chain _ _ new_WriteBuf) as [w|] eqn:E; [|done]. intros _.
  do 5 (apply chain_inv in E as (? & _ & E)). apply chain_inv in E as (? & E & _). unfold w_seq0_255 in E.
  destruct (_ >? 255); [done|]. apply chain_inv in E as (? & _ & E). by eapply items_u256_inv.
Qed.

(** The slot is the prefix and what was submitted, and they fill it. *)
Lemma fullExtranonce_inv ch sub en : zlen (ch_extranoncePrefix ch) + ch_extranonceSize ch = SV2_EXTRANONCE_TOTAL ->
  fullExtranonce ch sub = Ok en -> zlen sub = ch_extranonceSize ch /\ en = ch_extranoncePrefix ch ++ sub.
Proof.
  unfold fullExtranonce, SV2_EXTRANONCE_TOTAL. intros Hw.
  destruct (Z.eqb_spec (zlen sub) (ch_extranonceSize ch)) as [E|]; [|done]. cbn [negb throw_if mbind res_bind].
  pose proof (zlen_nonneg sub). rewrite ta_set_zeros by lia. cbn [mbind res_bind]. intros E2. split; [done|].
  rewrite (ta_set_ok _ sub _ (ch_extranoncePrefix ch) (zeros (8 - zlen (ch_extranoncePrefix ch))) []) in E2;
    [by injection E2 as <-; rewrite app_nil_r|by rewrite app_nil_r|done|rewrite zlen_zeros; lia].
Qed.

Lemma merklePath_root job path cb root : merklePathLE job = Ok path -> Forall (fun b => zlen b = 32) path -> zlen cb = 32 ->
  computeMerkleRoot cb (merkleBranchesHexBE job) = Ok root ->
  root = foldl (fun cur sib => doubleSha256 (cur ++ sib)) cb path.
Proof.
  unfold merklePathLE. revert path cb. induction (merkleBranchesHexBE job) as [|t ts IH]; intros path cb; cbn [res_map].
  - intros [= <-] _ _ [= <-]. done.
  - destruct (hexToBytes t) as [b|] eqn:Eb; [|done]. cbn [mbind res_bind].
    destruct (res_map _ ts) as [path'|] eqn:Ep; [|done]. cbn [mbind res_bind]. intros [= <-] [Hb Hall]%Forall_cons Hcb.
    unfold computeMerkleRoot. cbn [res_foldl]. rewrite Eb. cbn [mbind res_bind].
    pose proof (fill_64 cb (reverseBytes b) Hcb Hb) as Hf. destruct (ta_set (zeros 64) cb 0) as [x|]; [|done].
    cbn [mbind res_bind] in *. rewrite Hf. cbn [mbind res_bind]. apply (IH path' _ eq_refl Hall), sha256_zlen.
Qed.

(** The header of a submission is the one of its job, with the merkle root of the coinbase
    around the channel's prefix and the submitted extranonce. *)
Lemma submitted_header args job jid p bp s b :
  let ch := a_channel args in
  zlen (ch_extranoncePrefix ch) + ch_extranonceSize ch = SV2_EXTRANONCE_TOTAL ->
  bytes_ok (ch_extranoncePrefix ch) -> bytes_ok (a_extranonce args) -> uint 32 (a_ntime args) -> uint 32 (a_nonce args) ->
  a_job args = ctx job -> buildSetNewPrevHash ch job jid = Ok (p, bp) -> submit_input args = Ok s -> buildHeader s = Ok b ->
  exists c1 c2 root, hexToBytes (coinb1Hex (ctx job)) = Ok c1 /\ hexToBytes (coinb2Hex (ctx job)) = Ok c2 /\
    zlen (a_extranonce args) = ch_extranonceSize ch /\
    computeMerkleRoot (doubleSha256 (c1 ++ ch_extranoncePrefix ch ++ a_extranonce args ++ c2)) (merkleBranchesHexBE (ctx job)) = Ok root /\
    unserialize (b_header b) = miner_header (jc_version (ctx job)) root p (a_ntime args) (a_nonce args).
Proof.
  intros ch Hw Hb1 Hb2 Ht Hn Ej Ep Es Eb. unfold submit_input in Es. fold ch in Es.
  destruct (fullExtranonce ch (a_extranonce args)) as [en|] eqn:Een; [|done]. cbn [mbind res_bind] in Es.
  destruct (fullExtranonce_inv ch _ en Hw Een) as [Hsub ->]. rewrite slice_app_l, drop_app_zlen in Es by done.
  destruct (buildHeader_ok s b Eb) as (c1 & e1 & e2 & c2 & prev & H1 & H2 & H3 & H4 & Hcb & Hr & H5 & Hp & _ & _ & _ & ->).
  injection Es as <-. cbn [si_job extranonce1Hex extranonce2Hex si_ntime si_nonce] in *. rewrite Ej in *.
  rewrite hexToBytes_bytesToHex in H2, H3 by done. injection H2 as <-. injection H3 as <-.
  unfold buildSetNewPrevHash in Ep. rewrite H5 in Ep. cbn [mbind res_bind] in Ep.
  destruct (encodeSetNewPrevHash _); [|done]. injection Ep as <- _. exists c1, c2, (merkleRootLE b). rewrite Hcb in Hr.
  unfold miner_header. cbn [snph_prevHash snph_nbits]. by rewrite Hp, !num_u32_of_Z by done.
Qed.

(** The extended job and the header of a submission on it. *)
Lemma extended_header args job jid p bp s b m bm :
  let ch := a_channel args in
  zlen (ch_extranoncePrefix ch) + ch_extranonceSize ch = SV2_EXTRANONCE_TOTAL ->
  bytes_ok (ch_extranoncePrefix ch) -> bytes_ok (a_extranonce args) -> uint 32 (a_ntime args) -> uint 32 (a_nonce args) ->
  a_job args = ctx job -> buildSetNewPrevHash ch job jid = Ok (p, bp) -> submit_input args = Ok s -> buildHeader s = Ok b ->
  buildNewExtendedJob ch (ctx job) jid = Ok (m, bm) ->
  unserialize (b_header b) = miner_header (nemj_version m)
    (miner_root m (ch_extranoncePrefix ch) (a_extranonce args)) p (a_ntime args) (a_nonce args).
Proof.
  intros ch Hw Hb1 Hb2 Ht Hn Ej Ep Es Eb.
  destruct (submitted_header args job jid p bp s b Hw Hb1 Hb2 Ht Hn Ej Ep Es Eb) as (c1 & c2 & root & H1 & H2 & _ & Hr & ->).
  unfold buildNewExtendedJob. destruct (merklePathLE (ctx job)) as [path|] eqn:Epath; [|done].
  cbn [mbind res_bind]. rewrite H1, H2. cbn [mbind res_bind].
  destruct (encodeNewExtendedMiningJob _) as [bm'|] eqn:Em; [|done]. apply extended_path_sized in Em.
  intros [= <- _]. cbn [nemj_version nemj_merklePath] in *. f_equal. unfold miner_root.
  cbn [nemj_coinbaseTxPrefix nemj_coinbaseTxSuffix nemj_merklePath].
  eapply merklePath_root; [exact Epath|exact Em|apply sha256_zlen|exact Hr].
Qed.

Lemma extended_rolling ch job jid m bm : buildNewExtendedJob ch job jid = Ok (m, bm) -> nemj_versionRollingAllowed m = true.
Proof.
  unfold buildNewExtendedJob. destruct (merklePathLE job), (hexToBytes (coinb1Hex job)), (hexToBytes (coinb2Hex job)); try done.
  cbn [mbind res_bind]. destruct (encodeNewExtendedMiningJob _); [|done]. by intros [= <- _].
Qed.

(** Headers that agree but for the version. *)
Lemma miner_header_version v v' root p nt nn :
  miner_header v root p nt nn = miner_header v' root p nt nn <-> to_i32 v' = to_i32 v.
Proof. unfold miner_header. split; [by intros [= ->]|]. by intros ->. Qed.

(** C19: the work a channel is announced is the work that is checked, when the version is
    left alone.  For a submission on a channel whose extranonce fills the slot, the header
    the validator hashes is the one a miner makes of the announced parent hash and bits, the
    submitted time and nonce, the merkle root (on a standard channel the announced root
    itself, on an extended channel the root of the coinbase around the channel's prefix and
    the submitted extranonce, folded along the announced path) and a version exactly when
    that version is the announced one.  The version that is submitted is not looked at, so
    the work of a miner who rolled it, which the announced flag allows, is checked as
    another header. *)
Theorem announced_work_checked args job jid p bp s b :
  let ch := a_channel args in
  zlen (ch_extranoncePrefix ch) + ch_extranonceSize ch = SV2_EXTRANONCE_TOTAL ->
  bytes_ok (ch_extranoncePrefix ch) -> bytes_ok (a_extranonce args) -> uint 32 (a_ntime args) -> uint 32 (a_nonce args) ->
  a_job args = ctx job -> buildSetNewPrevHash ch job jid = Ok (p, bp) ->
  submit_input args = Ok s -> buildHeader s = Ok b ->
  (forall m bm root, buildNewStandardJob ch (ctx job) jid = Ok (m, bm, root) ->
     forall version, unserialize (b_header b) = miner_header version (nmj_merkleRoot m) p (a_ntime args) (a_nonce args) <->
       to_i32 version = to_i32 (nmj_version m)) /\
  (forall m bm, buildNewExtendedJob ch (ctx job) jid = Ok (m, bm) ->
     nemj_versionRollingAllowed m = true /\
     forall version, unserialize (b_header b) = miner_header version
       (miner_root m (ch_extranoncePrefix ch) (a_extranonce args)) p (a_ntime args) (a_nonce args) <->
       to_i32 version = to_i32 (nemj_version m)).
Proof.
  intros ch Hw Hb1 Hb2 Ht Hn Ej Ep Es Eb. split.
  2: { intros m bm Em. split; [by apply extended_rolling in Em|]. intros v.
       rewrite (extended_header args job jid p bp s b m bm Hw Hb1 Hb2 Ht Hn Ej Ep Es Eb Em). apply miner_header_version. }
  destruct (submitted_header args job jid p bp s b Hw Hb1 Hb2 Ht Hn Ej Ep Es Eb) as (c1 & c2 & root & H1 & H2 & Hsub & Hr & ->).
  intros m bm root'. unfold buildNewStandardJob. destruct (fullExtranonce ch []) as [en|] eqn:E0; [|done].
  destruct (fullExtranonce_inv ch [] en Hw E0) as [Hz ->]. cbn [mbind res_bind]. rewrite H1, H2. cbn [mbind res_bind].
  rewrite concatBytes_ok. cbn [mbind res_bind]. rewrite !bconcat_cons. change (bconcat []) with (@nil Z).
  fold ch in Hsub, Hr. assert (a_extranonce args = []) as En.
  { destruct (a_extranonce args) as [|x l]; [done|]. rewrite <- Hz, zlen_cons in Hsub. pose proof (zlen_nonneg l). change (zlen []) with 0 in Hsub. lia. }
  rewrite En in Hr. cbn [app] in Hr. rewrite !app_nil_r. unfold doubleSha256 in Hr.
  change (computeMerkleRootLE ?a ?b) with (computeMerkleRoot a b). rewrite Hr. cbn [mbind res_bind].
  destruct (encodeNewMiningJob _); [|done]. intros [= <- _ _] v. apply miner_header_version.
Qed.
End MinerView.

(** ** Example *)
Definition sv2_job : StratumJob := {|
  ctx := {| jobId := js "0000001"; coinb1Hex := js "0100"; coinb2Hex := js "ffff"; merkleBranchesHexBE := [replicate 64 98];
            jc_version := 0x20000000; jc_bits := 0x207fffff; jc_prevHashHexBE := replicate 64 97;
            networkTargetHexBE := replicate 64 48; txnsHex := []; jc_height := 7 |};
  cleanJobs := true; ntimeMin := 1000; ntimeRoll := 1000 |}.
Definition sv2_channel (kind : ChannelKind) (size : Z) : ChannelState := {|
  ch_id := 1; ch_kind := kind; ch_requestId := 1; ch_userIdentity := js "alice@x.com.rig1";
  ch_extranoncePrefix := replicate (Z.to_nat (8 - size)) 9; ch_extranonceSize := size; ch_groupChannelId := 0;
  ch_targetBE := maxTargetU256BE; ch_shareDifficulty := n1; ch_lastAcceptedSequence := 0; ch_lastJobId := 0;
  ch_cleanJobs := true |}.
Definition sv2_args (kind : ChannelKind) (extranonce : bytes) : SubmitArgs := {|
  a_channel := sv2_channel kind (zlen extranonce); a_job := ctx sv2_job; a_sequenceNumber := 1; a_nonce := 77;
  a_ntime := 1001; a_version := 0x20000004; a_extranonce := extranonce; a_blockHeight := 7; a_networkDifficulty := None |}.

(** A share with the announced version, and one whose version was rolled. *)
Lemma announced_work_checked_witness : exists s b p bp m bm, submit_input (sv2_args extended [1; 2; 3; 4]) = Ok s /\
  @buildHeader example_digest s = Ok b /\ buildSetNewPrevHash (sv2_channel extended 4) sv2_job 5 = Ok (p, bp) /\
  buildNewExtendedJob (sv2_channel extended 4) (ctx sv2_job) 5 = Ok (m, bm) /\
  unserialize (b_header b) = miner_header 0x20000000
    (miner_root (H := example_digest) m (replicate 4 9) [1; 2; 3; 4]) p 1001 77 /\
  unserialize (b_header b) <> miner_header (a_version (sv2_args extended [1; 2; 3; 4]))
    (miner_root (H := example_digest) m (replicate 4 9) [1; 2; 3; 4]) p 1001 77.
Proof.
  destruct (submit_input (sv2_args extended [1; 2; 3; 4])) as [s|] eqn:Es; [|vm_compute in Es; discriminate Es].
  destruct (@buildHeader example_digest s) as [b|] eqn:Eb; [|vm_compute in Es; injection Es as <-; vm_compute in Eb; discriminate Eb].
  destruct (buildSetNewPrevHash (sv2_channel extended 4) sv2_job 5) as [[p bp]|] eqn:Ep; [|vm_compute in Ep; discriminate Ep].
  destruct (buildNewExtendedJob (sv2_channel extended 4) (ctx sv2_job) 5) as [[m bm]|] eqn:Em; [|vm_compute in Em; discriminate Em].
  exists s, b, p, bp, m, bm. do 4 (split; [done|]).
  destruct (announced_work_checked (H := example_digest) (H0 := example_digest_ok) (sv2_args extended [1; 2; 3; 4])
    sv2_job 5 p bp s b) as [_ Hx]; [reflexivity|change (bytes_ok [9; 9; 9; 9]); repeat constructor; unfold is_byte; lia|
    change (bytes_ok [1; 2; 3; 4]); repeat constructor; unfold is_byte; lia|change (uint 32 1001); split; lia|
    change (uint 32 77); split; lia|reflexivity|exact Ep|exact Es|exact Eb|].
  destruct (Hx m bm Em) as [_ Hv]. assert (nemj_version m = 0x20000000) as Ev by (vm_compute in Em; injection Em as <- _; reflexivity).
  rewrite Ev in Hv. split; [apply Hv; reflexivity|]. intros E. apply Hv in E. vm_compute in E. discriminate E.
Defined.
