(* ===== verification/StratumClient.v ===== *)
(** * A Stratum V1 connection ([pool/src/stratum/client.ts])

    The state of one connection and the methods on it.  What is written to the socket is
    kept as the list of messages [sent]; [destroyed] is the state of the socket.  Jobs are
    shared objects: [lastJob] is a location in the heap of the job manager. *)

From S2P Require Import Prelude JsString JsMap JsNumber JsRound JsFormat Effects Json Header Difficulty Vardiff.
From S2P Require Import JobManager ShareValidator.

Inductive ClientState := St_new | St_subscribed | St_authorized.
Inductive Attest := Att_none | Att_pending | Att_valid | Att_invalid.
#[export] Instance ClientState_eq_dec : EqDecision ClientState.
Proof. solve_decision. Defined.
#[export] Instance Attest_eq_dec : EqDecision Attest.
Proof. solve_decision. Defined.

(** The three shapes of message a connection writes, one JSON object per line. *)
Inductive wire :=
| WResult (id result : jval)
| WError (id : jval) (code : Z) (message : jsstr)
| WNotify (method : jsstr) (params : list jval).

Record StratumClient := mkClient {
  connId : Z;
  cstate : ClientState;
  c_extranonce1Hex : jsstr;
  userAgent : jsstr;
  username : jsstr;
  lastShareAt : Z;
  sharesAccepted : Z;
  sharesRejected : Z;
  connectedAt : Z;
  lastJob : option nat;
  jobShareDiff : list (jsstr * jsnum);
  lastNotifiedDiff : option jsnum;
  ip : jsstr;
  seenShares : list jsstr;
  pubkey : option jsstr;
  attest : Attest;
  userId : option Z;
  authorizedAt : Z;
  challenge : option bytes;
  reservedSlotId : option Z;
  buf : jsstr;
  vardiff : Vardiff;
  destroyed : bool;
  sent : list wire
}.

(** One assignment to a field. *)
Definition set_cstate (v : ClientState) (c : StratumClient) : StratumClient :=
  mkClient (connId c) v (c_extranonce1Hex c) (userAgent c) (username c) (lastShareAt c) (sharesAccepted c)
    (sharesRejected c) (connectedAt c) (lastJob c) (jobShareDiff c) (lastNotifiedDiff c) (ip c) (seenShares c) (pubkey
    c) (attest c) (userId c) (authorizedAt c) (challenge c) (reservedSlotId c) (buf c) (vardiff c) (destroyed c) (sent
    c).
Definition set_userAgent (v : jsstr) (c : StratumClient) : StratumClient :=
  mkClient (connId c) (cstate c) (c_extranonce1Hex c) v (username c) (lastShareAt c) (sharesAccepted c)
    (sharesRejected c) (connectedAt c) (lastJob c) (jobShareDiff c) (lastNotifiedDiff c) (ip c) (seenShares c) (pubkey
    c) (attest c) (userId c) (authorizedAt c) (challenge c) (reservedSlotId c) (buf c) (vardiff c) (destroyed c) (sent
    c).
Definition set_username (v : jsstr) (c : StratumClient) : StratumClient :=
  mkClient (connId c) (cstate c) (c_extranonce1Hex c) (userAgent c) v (lastShareAt c) (sharesAccepted c)
    (sharesRejected c) (connectedAt c) (lastJob c) (jobShareDiff c) (lastNotifiedDiff c) (ip c) (seenShares c) (pubkey
    c) (attest c) (userId c) (authorizedAt c) (challenge c) (reservedSlotId c) (buf c) (vardiff c) (destroyed c) (sent
    c).
Definition set_lastShareAt (v : Z) (c : StratumClient) : StratumClient :=
  mkClient (connId c) (cstate c) (c_extranonce1Hex c) (userAgent c) (username c) v (sharesAccepted c) (sharesRejected
    c) (connectedAt c) (lastJob c) (jobShareDiff c) (lastNotifiedDiff c) (ip c) (seenShares c) (pubkey c) (attest c)
    (userId c) (authorizedAt c) (challenge c) (reservedSlotId c) (buf c) (vardiff c) (destroyed c) (sent c).
Definition set_sharesAccepted (v : Z) (c : StratumClient) : StratumClient :=
  mkClient (connId c) (cstate c) (c_extranonce1Hex c) (userAgent c) (username c) (lastShareAt c) v (sharesRejected c)
    (connectedAt c) (lastJob c) (jobShareDiff c) (lastNotifiedDiff c) (ip c) (seenShares c) (pubkey c) (attest c)
    (userId c) (authorizedAt c) (challenge c) (reservedSlotId c) (buf c) (vardiff c) (destroyed c) (sent c).
Definition set_sharesRejected (v : Z) (c : StratumClient) : StratumClient :=
  mkClient (connId c) (cstate c) (c_extranonce1Hex c) (userAgent c) (username c) (lastShareAt c) (sharesAccepted c) v
    (connectedAt c) (lastJob c) (jobShareDiff c) (lastNotifiedDiff c) (ip c) (seenShares c) (pubkey c) (attest c)
    (userId c) (authorizedAt c) (challenge c) (reservedSlotId c) (buf c) (vardiff c) (destroyed c) (sent c).
Definition set_lastJob (v : option nat) (c : StratumClient) : StratumClient :=
  mkClient (connId c) (cstate c) (c_extranonce1Hex c) (userAgent c) (username c) (lastShareAt c) (sharesAccepted c)
    (sharesRejected c) (connectedAt c) v (jobShareDiff c) (lastNotifiedDiff c) (ip c) (seenShares c) (pubkey c)
    (attest c) (userId c) (authorizedAt c) (challenge c) (reservedSlotId c) (buf c) (vardiff c) (destroyed c) (sent
    c).
Definition set_jobShareDiff (v : list (jsstr * jsnum)) (c : StratumClient) : StratumClient :=
  mkClient (connId c) (cstate c) (c_extranonce1Hex c) (userAgent c) (username c) (lastShareAt c) (sharesAccepted c)
    (sharesRejected c) (connectedAt c) (lastJob c) v (lastNotifiedDiff c) (ip c) (seenShares c) (pubkey c) (attest c)
    (userId c) (authorizedAt c) (challenge c) (reservedSlotId c) (buf c) (vardiff c) (destroyed c) (sent c).
Definition set_lastNotifiedDiff (v : option jsnum) (c : StratumClient) : StratumClient :=
  mkClient (connId c) (cstate c) (c_extranonce1Hex c) (userAgent c) (username c) (lastShareAt c) (sharesAccepted c)
    (sharesRejected c) (connectedAt c) (lastJob c) (jobShareDiff c) v (ip c) (seenShares c) (pubkey c) (attest c)
    (userId c) (authorizedAt c) (challenge c) (reservedSlotId c) (buf c) (vardiff c) (destroyed c) (sent c).
Definition set_seenShares (v : list jsstr) (c : StratumClient) : StratumClient :=
  mkClient (connId c) (cstate c) (c_extranonce1Hex c) (userAgent c) (username c) (lastShareAt c) (sharesAccepted c)
    (sharesRejected c) (connectedAt c) (lastJob c) (jobShareDiff c) (lastNotifiedDiff c) (ip c) v (pubkey c) (attest
    c) (userId c) (authorizedAt c) (challenge c) (reservedSlotId c) (buf c) (vardiff c) (destroyed c) (sent c).
Definition set_pubkey (v : option jsstr) (c : StratumClient) : StratumClient :=
  mkClient (connId c) (cstate c) (c_extranonce1Hex c) (userAgent c) (username c) (lastShareAt c) (sharesAccepted c)
    (sharesRejected c) (connectedAt c) (lastJob c) (jobShareDiff c) (lastNotifiedDiff c) (ip c) (seenShares c) v
    (attest c) (userId c) (authorizedAt c) (challenge c) (reservedSlotId c) (buf c) (vardiff c) (destroyed c) (sent
    c).
Definition set_attest (v : Attest) (c : StratumClient) : StratumClient :=
  mkClient (connId c) (cstate c) (c_extranonce1Hex c) (userAgent c) (username c) (lastShareAt c) (sharesAccepted c)
    (sharesRejected c) (connectedAt c) (lastJob c) (jobShareDiff c) (lastNotifiedDiff c) (ip c) (seenShares c) (pubkey
    c) v (userId c) (authorizedAt c) (challenge c) (reservedSlotId c) (buf c) (vardiff c) (destroyed c) (sent c).
Definition set_userId (v : option Z) (c : StratumClient) : StratumClient :=
  mkClient (connId c) (cstate c) (c_extranonce1Hex c) (userAgent c) (username c) (lastShareAt c) (sharesAccepted c)
    (sharesRejected c) (connectedAt c) (lastJob c) (jobShareDiff c) (lastNotifiedDiff c) (ip c) (seenShares c) (pubkey
    c) (attest c) v (authorizedAt c) (challenge c) (reservedSlotId c) (buf c) (vardiff c) (destroyed c) (sent c).
Definition set_authorizedAt (v : Z) (c : StratumClient) : StratumClient :=
  mkClient (connId c) (cstate c) (c_extranonce1Hex c) (userAgent c) (username c) (lastShareAt c) (sharesAccepted c)
    (sharesRejected c) (connectedAt c) (lastJob c) (jobShareDiff c) (lastNotifiedDiff c) (ip c) (seenShares c) (pubkey
    c) (attest c) (userId c) v (challenge c) (reservedSlotId c) (buf c) (vardiff c) (destroyed c) (sent c).
Definition set_challenge (v : option bytes) (c : StratumClient) : StratumClient :=
  mkClient (connId c) (cstate c) (c_extranonce1Hex c) (userAgent c) (username c) (lastShareAt c) (sharesAccepted c)
    (sharesRejected c) (connectedAt c) (lastJob c) (jobShareDiff c) (lastNotifiedDiff c) (ip c) (seenShares c) (pubkey
    c) (attest c) (userId c) (authorizedAt c) v (reservedSlotId c) (buf c) (vardiff c) (destroyed c) (sent c).
Definition set_reservedSlotId (v : option Z) (c : StratumClient) : StratumClient :=
  mkClient (connId c) (cstate c) (c_extranonce1Hex c) (userAgent c) (username c) (lastShareAt c) (sharesAccepted c)
    (sharesRejected c) (connectedAt c) (lastJob c) (jobShareDiff c) (lastNotifiedDiff c) (ip c) (seenShares c) (pubkey
    c) (attest c) (userId c) (authorizedAt c) (challenge c) v (buf c) (vardiff c) (destroyed c) (sent c).
Definition set_buf (v : jsstr) (c : StratumClient) : StratumClient :=
  mkClient (connId c) (cstate c) (c_extranonce1Hex c) (userAgent c) (username c) (lastShareAt c) (sharesAccepted c)
    (sharesRejected c) (connectedAt c) (lastJob c) (jobShareDiff c) (lastNotifiedDiff c) (ip c) (seenShares c) (pubkey
    c) (attest c) (userId c) (authorizedAt c) (challenge c) (reservedSlotId c) v (vardiff c) (destroyed c) (sent c).
Definition set_vardiff (v : Vardiff) (c : StratumClient) : StratumClient :=
  mkClient (connId c) (cstate c) (c_extranonce1Hex c) (userAgent c) (username c) (lastShareAt c) (sharesAccepted c)
    (sharesRejected c) (connectedAt c) (lastJob c) (jobShareDiff c) (lastNotifiedDiff c) (ip c) (seenShares c) (pubkey
    c) (attest c) (userId c) (authorizedAt c) (challenge c) (reservedSlotId c) (buf c) v (destroyed c) (sent c).
Definition set_destroyed (v : bool) (c : StratumClient) : StratumClient :=
  mkClient (connId c) (cstate c) (c_extranonce1Hex c) (userAgent c) (username c) (lastShareAt c) (sharesAccepted c)
    (sharesRejected c) (connectedAt c) (lastJob c) (jobShareDiff c) (lastNotifiedDiff c) (ip c) (seenShares c) (pubkey
    c) (attest c) (userId c) (authorizedAt c) (challenge c) (reservedSlotId c) (buf c) (vardiff c) v (sent c).
Definition set_sent (v : list wire) (c : StratumClient) : StratumClient :=
  mkClient (connId c) (cstate c) (c_extranonce1Hex c) (userAgent c) (username c) (lastShareAt c) (sharesAccepted c)
    (sharesRejected c) (connectedAt c) (lastJob c) (jobShareDiff c) (lastNotifiedDiff c) (ip c) (seenShares c) (pubkey
    c) (attest c) (userId c) (authorizedAt c) (challenge c) (reservedSlotId c) (buf c) (vardiff c) (destroyed c) v.

(** [config.stratum], the part the connections use. *)
Record StratumConfig := {
  defaultDifficulty : jsnum;
  minDifficulty : jsnum;
  maxDifficulty : jsnum;
  vardiffEnabled : bool;
  vardiffTargetSeconds : jsnum;
  vardiffRetuneSeconds : jsnum;
  workerDifficulty : list (jsstr * jsnum)
}.

Definition client_params (cfg : StratumConfig) : VardiffParams := {|
  targetSeconds := vardiffTargetSeconds cfg; retuneSeconds := vardiffRetuneSeconds cfg;
  minDiff := minDifficulty cfg; maxDiff := maxDifficulty cfg; initialDiff := defaultDifficulty cfg;
  maxStep := num_of_Z 4 |}.

Definition extranonce2Size : Z := 4.

(** [allocExtranonce1Hex]: the new counter and the string. *)
Definition allocExtranonce1Hex (nextExtranonce1 : Z) : Z * jsstr :=
  let n := js_and (nextExtranonce1 + 1) 0xffffffff in
  (n, padStart 8 48 (to_radix 16 n)).

(** [new StratumClient(sock, log)]; [now] is [Date.now()]. *)
Definition new_StratumClient (cfg : StratumConfig) (connId : Z) (extranonce1Hex remoteAddress : jsstr) (now : Z) : StratumClient := {|
  connId := connId; cstate := St_new; c_extranonce1Hex := extranonce1Hex; userAgent := []; username := [];
  lastShareAt := 0; sharesAccepted := 0; sharesRejected := 0; connectedAt := now; lastJob := None; jobShareDiff := [];
  lastNotifiedDiff := None; ip := remoteAddress; seenShares := []; pubkey := None; attest := Att_none; userId := None;
  authorizedAt := 0; challenge := None; reservedSlotId := None; buf := []; vardiff := new_vardiff (client_params cfg) now;
  destroyed := false; sent := [] |}.

(** ** Writing *)
Definition write (m : wire) : eff StratumClient unit :=
  modify (fun c => if destroyed c then c else set_sent (sent c ++ [m]) c).
Definition sendResult (id result : jval) : eff StratumClient unit := write (WResult id result).
Definition sendError (id : jval) (code : Z) (message : jsstr) : eff StratumClient unit := write (WError id code message).
Definition sendNotify (method : jsstr) (params : list jval) : eff StratumClient unit := write (WNotify method params).
Definition fail : eff StratumClient unit := modify (set_destroyed true).

Definition pushDifficulty (d : jsnum) : eff StratumClient unit :=
  _ ← modify (set_lastNotifiedDiff (Some d));
  sendNotify (js "mining.set_difficulty") [JNum d].

(** ** Difficulty and jobs *)
Definition wireShareDifficulty (h : list StratumJob) (configured : jsnum) (c : StratumClient) : jsnum :=
  let network := match lastJob c with
    | Some l => (fun j => networkDifficultyFromBits (jc_bits (ctx j))) <$> h !! l
    | None => None
    end in
  assignedShareDifficulty configured network.

Definition stampJob (job : JobContext) : eff StratumClient jsnum :=
  c ← get;
  let network := networkDifficultyFromBits (jc_bits job) in
  let d := currentDiff (vardiff c) in
  let d := if isFinite network && nlt n0 network && nlt network d then network else d in
  match map_get (jobId job) (jobShareDiff c) with
  | Some existing => mret existing
  | None =>
      _ ← lift (throw_if (negb (isFinite d) || nlt d MIN_SHARE_DIFFICULTY) "job share difficulty is below the minimum");
      _ ← modify (set_jobShareDiff (map_set (jobId job) d (jobShareDiff c)));
      mret d
  end.

Definition hex0x (n : Z) : jval := JStr (js "0x" ++ padStart 8 48 (to_radix 16 n)).
Definition notify_params (job : StratumJob) : list jval := [
  JStr (jobId (ctx job)); JStr (jc_prevHashHexBE (ctx job)); JStr (coinb1Hex (ctx job)); JStr (coinb2Hex (ctx job));
  JArr (JStr <$> merkleBranchesHexBE (ctx job)); hex0x (jc_version (ctx job)); hex0x (jc_bits (ctx job));
  hex0x (ntimeRoll job); JBool (cleanJobs job)].

Definition pushJob (l : nat) (job : StratumJob) : eff StratumClient unit :=
  _ ← modify (set_lastJob (Some l));
  assigned ← stampJob (ctx job);
  c ← get;
  let same := match lastNotifiedDiff c with Some d => neq d assigned | None => false end in
  _ ← when (negb same) (pushDifficulty assigned);
  sendNotify (js "mining.notify") (notify_params job).
