(* ===== verification/StratumServer.v ===== *)
(** * The Stratum V1 server ([pool/src/stratum/server.ts], [lib/p256.ts])

    A handler runs until it awaits something: a query on device slots or the submission
    of a block.  What is awaited becomes a [task]: the call, its answer once the other
    side has run it, and what the handler does then.  Handlers of all connections
    interleave at these points, so the server is a state machine whose steps are the
    events of the process ([step]).

    [now] is [Date.now()], read once per event; [rnd] is the result of
    [crypto.randomBytes(32)].  A promise that is rejected without a handler ends the
    process ([crashed]). *)

From S2P Require Import Prelude JsString JsMap JsNumber JsRound JsFormat Effects Json Header Difficulty Vardiff.
From S2P Require Import JobManager B3Pow PadCache ShareValidator Passports Ipc StratumClient.

(** ** Signatures

    [crypto.verify] with the P-256 key of the 64 bytes [x || y], on a digest and an
    [r || s] signature; it throws on a point that is not on the curve. *)
Class P256 := p256_verify : bytes -> bytes -> bytes -> res bool.

(** [/^[0-9a-f]{128}$/]; without the flag [m], [$] is the end of the string. *)
Definition is_hex128 (s : jsstr) : bool := forallb is_hex_char s && (zlen s =? 128).

Definition verifyP256Digest `{P256} (pubHex : jsstr) (digest : bytes) (sigHex : jsstr) : bool :=
  if negb (is_hex128 pubHex) || negb (is_hex128 sigHex) || negb (zlen digest =? 32) then false
  else match (raw ← hexToBytes pubHex; sig ← hexToBytes sigHex; p256_verify raw digest sig) with
       | Ok b => b
       | Throw _ => false
       end.

Definition splitUserName (s : jsstr) : jsstr * jsstr :=
  let dot := lastIndexOf 46 s in
  if (dot <=? 0) || (dot =? zlen s - 1) then (s, js "default")
  else (take (Z.to_nat dot) s, drop (Z.to_nat (dot + 1)) s).

Section Server.
Context `{Sha256} `{Blake3} `{P256} {T : Type} `{PassportStore T}.

(** ** What is awaited *)
Inductive call :=
| CFindUser (email : jsstr)
| CFindSlot (pubkey : jsstr)
| CReserve (user : option Z)
| CLock (slotId : Z) (pubkey : jsstr)
| CSubmitBlock (blockHex : jsstr).

Inductive answer :=
| AUser (u : option Z)
| ASlot (s : option PassportSlot)
| AReserve (p : pending_reserve (T := T))
| ALock (b : bool)
| ABlock (result : option jsstr)
| AError (e : string).

(** What [onSubmit] knows when it awaits [submitBlock]. *)
Record submitted := {
  su_email : jsstr;
  su_worker : jsstr;
  su_meetsShare : bool;
  su_assigned : jsnum;
  su_network : jsnum;
  su_blockHash : jsstr;
  su_height : Z;
  su_attest : ShareAttest
}.

(** The rest of a handler of connection [c] for the request [id]. *)
Inductive cont :=
| KAuthorize (c : nat) (id : jval) (username : jsstr)
| KPubkeyFind (c : nat) (id : jval)
| KPubkeyReserve (c : nat) (id : jval)
| KAttest (c : nat) (id : jval) (slotId : Z)
| KSubmit (c : nat) (id : jval) (d : submitted)
| KSlotAdded (c : nat).

Record task := { t_call : call; t_answer : option answer; t_cont : cont }.

Record server := mkServer {
  nextConnId : Z;
  nextExtranonce1 : Z;
  objs : list StratumClient;
  clients : list nat;
  heldSlots : list Z;
  signatureLog : list ShareSigEvent;
  ipc : list IpcMessage;
  jobs : JobManager;
  pads : world;
  store : T;
  tasks : list task;
  crashed : bool
}.

(** One assignment to a field. *)
Definition set_nextConnId (v : Z) (s : server) : server :=
  mkServer v (nextExtranonce1 s) (objs s) (clients s) (heldSlots s) (signatureLog s) (ipc s) (jobs s) (pads s) (store
    s) (tasks s) (crashed s).
Definition set_nextExtranonce1 (v : Z) (s : server) : server :=
  mkServer (nextConnId s) v (objs s) (clients s) (heldSlots s) (signatureLog s) (ipc s) (jobs s) (pads s) (store s)
    (tasks s) (crashed s).
Definition set_objs (v : list StratumClient) (s : server) : server :=
  mkServer (nextConnId s) (nextExtranonce1 s) v (clients s) (heldSlots s) (signatureLog s) (ipc s) (jobs s) (pads s)
    (store s) (tasks s) (crashed s).
Definition set_clients (v : list nat) (s : server) : server :=
  mkServer (nextConnId s) (nextExtranonce1 s) (objs s) v (heldSlots s) (signatureLog s) (ipc s) (jobs s) (pads s)
    (store s) (tasks s) (crashed s).
Definition set_heldSlots (v : list Z) (s : server) : server :=
  mkServer (nextConnId s) (nextExtranonce1 s) (objs s) (clients s) v (signatureLog s) (ipc s) (jobs s) (pads s) (store
    s) (tasks s) (crashed s).
Definition set_signatureLog (v : list ShareSigEvent) (s : server) : server :=
  mkServer (nextConnId s) (nextExtranonce1 s) (objs s) (clients s) (heldSlots s) v (ipc s) (jobs s) (pads s) (store s)
    (tasks s) (crashed s).
Definition set_ipc (v : list IpcMessage) (s : server) : server :=
  mkServer (nextConnId s) (nextExtranonce1 s) (objs s) (clients s) (heldSlots s) (signatureLog s) v (jobs s) (pads s)
    (store s) (tasks s) (crashed s).
Definition set_jobs (v : JobManager) (s : server) : server :=
  mkServer (nextConnId s) (nextExtranonce1 s) (objs s) (clients s) (heldSlots s) (signatureLog s) (ipc s) v (pads s)
    (store s) (tasks s) (crashed s).
Definition set_pads (v : world) (s : server) : server :=
  mkServer (nextConnId s) (nextExtranonce1 s) (objs s) (clients s) (heldSlots s) (signatureLog s) (ipc s) (jobs s) v
    (store s) (tasks s) (crashed s).
Definition set_store (v : T) (s : server) : server :=
  mkServer (nextConnId s) (nextExtranonce1 s) (objs s) (clients s) (heldSlots s) (signatureLog s) (ipc s) (jobs s)
    (pads s) v (tasks s) (crashed s).
Definition set_tasks (v : list task) (s : server) : server :=
  mkServer (nextConnId s) (nextExtranonce1 s) (objs s) (clients s) (heldSlots s) (signatureLog s) (ipc s) (jobs s)
    (pads s) (store s) v (crashed s).
Definition set_crashed (v : bool) (s : server) : server :=
  mkServer (nextConnId s) (nextExtranonce1 s) (objs s) (clients s) (heldSlots s) (signatureLog s) (ipc s) (jobs s)
    (pads s) (store s) (tasks s) v.

Variable cfg : StratumConfig.
Variable recordSignatures : bool.
Variable payoutAddress : jsstr.

(** A method of the connection [i]. *)
Definition on {A} (i : nat) (m : eff StratumClient A) : eff server A := fun s =>
  match objs s !! i with
  | Some c => let '(r, c') := m c in (r, set_objs (<[i := c']> (objs s)) s)
  | None => (Throw "no such connection", s)
  end.
Definition client (i : nat) : eff server StratumClient := on i get.
Definition upd (i : nat) (f : StratumClient -> StratumClient) : eff server unit := on i (modify f).
Definition await (c : call) (k : cont) : eff server unit :=
  modify (fun s => set_tasks (tasks s ++ [{| t_call := c; t_answer := None; t_cont := k |}]) s).
Definition ipc_send (m : IpcMessage) : eff server unit := modify (fun s => set_ipc (ipc s ++ [m]) s).
Definition release (slot : Z) : eff server unit := modify (fun s => set_heldSlots (set_delete slot (heldSlots s)) s).

(** [msg.id ?? null] and [msg.params]. *)
Definition msg_id (msg : jval) : jval := match prop_of msg (js "id") with Ok v => coalesce v JNull | Throw _ => JNull end.
Definition msg_params (msg : jval) : jval := match prop_of msg (js "params") with Ok v => v | Throw _ => JUndef end.
(** [params?.[0] ?? ""] and [params[0] ?? ""], as a string. *)
Definition first_param (params : jval) : res jsstr :=
  v ← (if nullish params then Ok JUndef else index_of params 0);
  String (coalesce v (JStr [])).

(** ** Reporting *)
Definition sendReject (i : nat) (reason : jsstr) (now : Z) : eff server unit :=
  c ← client i;
  when (negb (bool_decide (username c = [])))
    (let '(user, worker) := splitUserName (username c) in
     ipc_send (IpcReject {| re_user := user; re_workerName := worker; re_reason := normalizeRejectReason reason;
                            re_diff := currentDiff (vardiff c); re_timestampMs := now |})).

Definition noteSignature (evt : ShareSigEvent) : eff server unit :=
  _ ← ipc_send (IpcSig evt);
  when recordSignatures (modify (fun s => set_signatureLog (signatureLog s ++ [evt]) s)).

Definition recordUncredited (i : nat) (a : ShareAttest) (now : Z) : eff server unit :=
  c ← client i;
  let '(user, worker) := splitUserName (username c) in
  noteSignature {| ss_user := user; ss_workerName := worker; ss_timestampMs := now; ss_attest := a |}.

(** [c.sharesRejected++; this.sendReject(c, reason)]. *)
Definition reject (i : nat) (reason : jsstr) (now : Z) : eff server unit :=
  _ ← upd i (fun c => set_sharesRejected (sharesRejected c + 1) c);
  sendReject i reason now.

Record connection_stat := {
  cs_user : jsstr; cs_worker : jsstr; cs_difficulty : jsnum; cs_accepted : Z; cs_rejected : Z;
  cs_lastShareAt : option Z; cs_pubkey : option jsstr; cs_attest : option Attest
}.
Definition connectionStats (s : server) : list connection_stat :=
  omap (fun i => c ← objs s !! i;
    if bool_decide (cstate c = St_authorized) && negb (bool_decide (username c = [])) then
      let '(user, worker) := splitUserName (username c) in
      Some {| cs_user := user; cs_worker := worker; cs_difficulty := default (currentDiff (vardiff c)) (lastNotifiedDiff c);
              cs_accepted := sharesAccepted c; cs_rejected := sharesRejected c;
              cs_lastShareAt := if 0 <? lastShareAt c then Some (lastShareAt c) else None; cs_pubkey := pubkey c;
              cs_attest := if bool_decide (attest c = Att_none) then None else Some (attest c) |}
    else None) (clients s).

Definition estimatedHashrate (now : Z) (s : server) : jsnum :=
  let total := foldl (fun t i =>
    match objs s !! i with
    | Some c => if now - connectedAt c <? 30000 then t
                else nadd t (ndiv (currentDiff (vardiff c)) (targetSeconds (params (vardiff c))))
    | None => t
    end) n0 (clients s) in
  nmul total (num_of_Z 4294967296).

(** ** Subscribing and authorizing *)
Definition onSubscribe (i : nat) (msg : jval) : eff server unit :=
  let params := coalesce (msg_params msg) (JArr []) in
  ua ← lift (first_param params);
  _ ← upd i (set_userAgent ua);
  _ ← upd i (set_cstate St_subscribed);
  c ← client i;
  let subId := JStr (js "b3chain-" ++ to_radix 16 (connId c)) in
  on i (sendResult (msg_id msg) (JArr [
    JArr [JArr [JStr (js "mining.set_difficulty"); subId]; JArr [JStr (js "mining.notify"); subId]];
    JStr (c_extranonce1Hex c); JNum (num_of_Z extranonce2Size)])).

Definition onAuthorize (i : nat) (msg : jval) (now : Z) : eff server unit :=
  let params := coalesce (msg_params msg) (JArr []) in
  name ← lift (first_param params);
  let name := trim name in
  if bool_decide (name = []) then on i (sendResult (msg_id msg) (JBool false))
  else
    _ ← upd i (set_username name);
    _ ← upd i (set_cstate St_authorized);
    _ ← upd i (set_authorizedAt now);
    await (CFindUser (fst (splitUserName name))) (KAuthorize i (msg_id msg) name).

Definition push_current (i : nat) : eff server unit :=
  s ← get;
  match currentJob (jobs s) with
  | Some l => match heap (jobs s) !! l with Some job => on i (pushJob l job) | None => mret tt end
  | None => mret tt
  end.

Definition afterFindUser (i : nat) (id : jval) (name : jsstr) (a : answer) (now : Z) : eff server unit :=
  _ ← upd i (set_userId (match a with AUser u => u | _ => None end));
  _ ← (match map_get name (workerDifficulty cfg) with
       | Some pinned =>
           c ← client i;
           r ← lift (setDiff (vardiff c) pinned now);
           upd i (set_vardiff (snd r))
       | None => mret tt
       end);
  _ ← on i (sendResult id (JBool true));
  push_current i.

(** ** Device slots *)
Definition sendChallenge (i : nat) (rnd : bytes) : eff server unit :=
  _ ← upd i (set_challenge (Some rnd));
  on i (sendNotify (js "mining.challenge") [JStr (bytesToHex rnd)]).

Definition slotAdded (user : Z) : eff server unit :=
  s ← get;
  let waiting (i : nat) := match objs s !! i with
    | Some c => bool_decide (cstate c = St_authorized /\ attest c = Att_pending /\ is_Some (pubkey c) /\ userId c = Some user)
    | None => false
    end in
  let since (i : nat) := match objs s !! i with Some c => authorizedAt c | None => 0 end in
  match sort_by since (filter (fun i => waiting i = true) (clients s)) with
  | [] => mret tt
  | i :: _ => await (CReserve (Some user)) (KSlotAdded i)
  end.

(** The second half of [reserveEmpty]. *)
Definition take_slot (a : answer) : eff server (option PassportSlot) :=
  match a with
  | AReserve p =>
      s ← get;
      let '(slot, hold) := reserve_pick p (heldSlots s) in
      _ ← modify (set_heldSlots hold);
      mret slot
  | AError e => throw e
  | _ => mret None
  end.

Definition afterSlotAdded (i : nat) (a : answer) (rnd : bytes) : eff server unit :=
  slot ← take_slot a;
  match slot with
  | None => mret tt
  | Some slot =>
      _ ← upd i (set_reservedSlotId (Some (slot_id slot)));
      _ ← upd i (set_attest Att_none);
      sendChallenge i rnd
  end.

Definition onPubkey (i : nat) (msg : jval) : eff server unit :=
  c ← client i;
  if negb (bool_decide (cstate c = St_authorized)) || bool_decide (username c = []) then
    on i (sendError (msg_id msg) 24 (js "Unauthorized worker"))
  else
    raw ← lift (first_param (msg_params msg));
    let hex := toLowerCase raw in
    if negb (is_hex128 hex) then on i (sendError (msg_id msg) 23 (js "bad public key"))
    else
      _ ← upd i (set_pubkey (Some hex));
      match userId c with
      | None =>
          _ ← upd i (set_attest Att_pending);
          on i (sendResult (msg_id msg) (JBool true))
      | Some _ => await (CFindSlot hex) (KPubkeyFind i (msg_id msg))
      end.

Definition afterFindSlot (i : nat) (id : jval) (a : answer) (rnd : bytes) : eff server unit :=
  existing ← (match a with ASlot s => mret s | AError e => throw e | _ => mret None end);
  c ← client i;
  match existing with
  | Some slot =>
      if bool_decide (userId c = Some (slot_user slot)) then
        _ ← upd i (set_attest Att_none);
        _ ← on i (sendResult id (JBool true));
        sendChallenge i rnd
      else
        _ ← upd i (set_attest Att_invalid);
        on i (sendResult id (JBool true))
  | None => await (CReserve (userId c)) (KPubkeyReserve i id)
  end.

Definition afterReserve (i : nat) (id : jval) (a : answer) (rnd : bytes) : eff server unit :=
  slot ← take_slot a;
  match slot with
  | None =>
      _ ← upd i (set_attest Att_pending);
      on i (sendResult id (JBool true))
  | Some slot =>
      _ ← upd i (set_reservedSlotId (Some (slot_id slot)));
      _ ← upd i (set_attest Att_none);
      _ ← on i (sendResult id (JBool true));
      sendChallenge i rnd
  end.

Definition onAttest (i : nat) (msg : jval) : eff server unit :=
  raw ← lift (first_param (msg_params msg));
  let sigHex := toLowerCase raw in
  c ← client i;
  _ ← upd i (set_challenge None);
  let ok := match challenge c, pubkey c with
    | Some ch, Some pk => verifyP256Digest pk ch sigHex
    | _, _ => false
    end in
  if negb ok then
    _ ← (match reservedSlotId c with
         | Some slot => _ ← release slot; upd i (set_reservedSlotId None)
         | None => mret tt
         end);
    _ ← upd i (set_attest Att_invalid);
    on i (sendResult (msg_id msg) (JBool false))
  else
    match reservedSlotId c with
    | Some slotId => await (CLock slotId (default [] (pubkey c))) (KAttest i (msg_id msg) slotId)
    | None =>
        _ ← upd i (set_attest Att_valid);
        on i (sendResult (msg_id msg) (JBool true))
    end.

Definition afterLock (i : nat) (id : jval) (slotId : Z) (a : answer) : eff server unit :=
  locked ← (match a with ALock b => mret b | AError e => throw e | _ => mret false end);
  _ ← release slotId;
  _ ← upd i (set_reservedSlotId None);
  if negb locked then
    _ ← upd i (set_attest Att_invalid);
    on i (sendResult id (JBool false))
  else
    _ ← upd i (set_attest Att_valid);
    on i (sendResult id (JBool true)).

(** ** Shares *)
Definition shareAttest (c : StratumClient) (jobId en2 : jsstr) (ntime nonce : jsnum) (sigAny : jval) : res ShareAttest :=
  signature ← (if nullish sigAny || (match sigAny with JStr [] => true | _ => false end) then Ok None
               else s ← String sigAny; Ok (Some (toLowerCase s)));
  let result := match signature with
    | None => R_missing
    | Some sig =>
        match pubkey c with
        | Some pk => if verifyP256Digest pk (shareDigest jobId en2 ntime nonce) sig then R_valid else R_invalid
        | None => R_invalid
        end
    end in
  Ok {| sa_jobId := jobId; sa_nonce := nonceHex nonce; sa_pubkey := pubkey c; sa_signature := signature; sa_result := result |}.

Definition dedupKey (jobId en2 : jsstr) (ntime nonce : jsnum) : jsstr :=
  jobId ++ js ":" ++ en2 ++ js ":" ++ num_String ntime ++ js ":" ++ num_String nonce.

(** [seenShares.add(key)], then the 10,000 oldest go when there are more than 50,000. *)
Definition remember (key : jsstr) (seen : list jsstr) : list jsstr :=
  let seen := set_add key seen in
  if 50000 <? zlen seen then drop (Z.to_nat 10000) seen else seen.

(** The event of an accepted share. *)
Definition share_event (d : submitted) (accepted : bool) (now : Z) : ShareEvent := {|
  se_user := su_email d; se_workerName := su_worker d;
  se_diff := if su_meetsShare d then su_assigned d else su_network d;
  se_isBlock := accepted && negb (bool_decide (su_blockHash d = []));
  se_blockHash := if accepted then Some (su_blockHash d) else None;
  se_blockHeight := if accepted then Some (su_height d) else None;
  se_networkDifficulty := Some (su_network d); se_timestampMs := now; se_attest := Some (su_attest d) |}.
Definition send_share (d : submitted) (accepted : bool) (now : Z) : eff server unit := ipc_send (IpcShare (share_event d accepted now)).

(** What is known of an accepted share; [c] is the connection when it submitted. *)
Definition accepted_share (c : StratumClient) (job : JobContext) (assigned : jsnum) (check : ShareCheckOk) (a : ShareAttest) : submitted :=
  let '(email, worker) := splitUserName (username c) in
  {| su_email := email; su_worker := worker; su_meetsShare := meetsShare check; su_assigned := assigned;
     su_network := networkDifficultyFromBits (jc_bits job); su_blockHash := blockHashHexBE check;
     su_height := jc_height job; su_attest := a |}.

Definition share_input (c : StratumClient) (job : JobContext) (en2 : jsstr) (ntime nonce assigned : jsnum) : ShareInput := {|
  si_job := job; ShareValidator.extranonce1Hex := c_extranonce1Hex c; ShareValidator.extranonce2Hex := en2;
  si_ntime := ntime; si_nonce := nonce; shareDifficulty := assigned |}.

(** From the duplicate check on; the arguments are the locals of [onSubmit]. *)
Definition submit_signed (i : nat) (id : jval) (job : StratumJob) (jobId en2 : jsstr) (ntime nonce : jsnum)
    (a : ShareAttest) (now : Z) : eff server unit :=
  c ← client i;
  let key := dedupKey jobId en2 ntime nonce in
  if bool_decide (key ∈ seenShares c) then
    _ ← recordUncredited i a now;
    _ ← reject i (js "duplicate") now;
    on i (sendError id 22 (js "Duplicate share"))
  else
    _ ← upd i (set_seenShares (remember key (seenShares c)));
    let assigned := default (currentDiff (vardiff c)) (map_get jobId (jobShareDiff c)) in
    s ← get;
    let '(r, w) := validateShare now (share_input c (ctx job) en2 ntime nonce assigned) (pads s) in
    _ ← modify (set_pads w);
    check ← lift r;
    match check with
    | ShareFail reason _ =>
        _ ← recordUncredited i a now;
        _ ← reject i (reason_string reason) now;
        on i (sendError id 23 (js "low difficulty: " ++ reason_string reason))
    | ShareOk check =>
        _ ← when (meetsShare check)
              (_ ← upd i (fun c => set_sharesAccepted (sharesAccepted c + 1) c);
               upd i (fun c => set_vardiff (onShareAccepted (vardiff c)) c));
        _ ← upd i (set_lastShareAt now);
        _ ← on i (sendResult id (JBool true));
        let d := accepted_share c (ctx job) assigned check a in
        match (if isBlock check then serializedBlockHex check else None) with
        | Some (c :: hex) => await (CSubmitBlock (c :: hex)) (KSubmit i id d)
        | _ => send_share d false now
        end
    end.

Definition onSubmit (i : nat) (msg : jval) (now : Z) : eff server unit :=
  c ← client i;
  if negb (bool_decide (cstate c = St_authorized)) then
    _ ← reject i (js "other") now;
    on i (sendError (msg_id msg) 24 (js "Unauthorized worker"))
  else
    let p := coalesce (msg_params msg) (JArr []) in
    args ← lift (iterate p);
    let arg (k : nat) := String (coalesce (default JUndef (args !! k)) (JStr [])) in
    jobId ← lift (arg 1%nat);
    en2 ← lift (arg 2%nat);
    let en2 := toLowerCase en2 in
    ntimeS ← lift (arg 3%nat);
    nonceS ← lift (arg 4%nat);
    let ntime := default S754_nan (parseInt16 ntimeS) in
    let nonce := default S754_nan (parseInt16 nonceS) in
    if bool_decide (jobId = []) || negb (zlen en2 =? extranonce2Size * 2) || negb (isFinite ntime) || negb (isFinite nonce) then
      _ ← reject i (js "other") now;
      on i (sendError (msg_id msg) 23 (js "Invalid params"))
    else
      s ← get;
      match getById (jobs s) jobId with
      | None =>
          _ ← reject i (js "other") now;
          on i (sendResult (msg_id msg) (JBool false))
      | Some job =>
          sigAny ← lift (index_of p 5);
          a ← lift (shareAttest c jobId en2 ntime nonce sigAny);
          if negb (bool_decide (sa_result a = R_valid)) then
            _ ← recordUncredited i a now;
            _ ← reject i (js "invalid") now;
            on i (sendError (msg_id msg) 23
              (if bool_decide (sa_result a = R_missing) then js "signature required" else js "bad signature"))
          else submit_signed i (msg_id msg) job jobId en2 ntime nonce a now
      end.

(** [result === null || result === ""] means the node took the block. *)
Definition afterSubmitBlock (d : submitted) (a : answer) (now : Z) : eff server unit :=
  let accepted := match a with ABlock None | ABlock (Some []) => true | _ => false end in
  send_share d accepted now.

(** ** Requests *)
Definition internal_error (i : nat) (id : jval) : eff server unit := on i (sendError id (-32603) (js "internal error")).

Definition suggest_difficulty (i : nat) (msg : jval) (now : Z) : eff server unit :=
  v ← lift (index_of (msg_params msg) 0);
  want ← lift (Number (coalesce v (JNum n0)));
  try_catch
    (c ← client i;
     r ← lift (setDiff (vardiff c) want now);
     let '(applied, v) := r in
     _ ← upd i (set_vardiff v);
     s ← get;
     c ← client i;
     _ ← on i (pushDifficulty (wireShareDifficulty (heap (jobs s)) applied c));
     on i (sendResult (msg_id msg) (JBool true)))
    (fun e => on i (sendError (msg_id msg) 23 (js e))).

Definition dispatch (i : nat) (msg method : jval) (now : Z) : eff server unit :=
  let called (m : string) := match method with JStr s => bool_decide (s = js m) | _ => false end in
  if called "mining.subscribe" then onSubscribe i msg
  else if called "mining.authorize" then onAuthorize i msg now
  else if called "mining.pubkey" then onPubkey i msg
  else if called "mining.attest" then onAttest i msg
  else if called "mining.submit" then onSubmit i msg now
  else if called "mining.extranonce.subscribe" then on i (sendResult (msg_id msg) (JBool true))
  else if called "mining.suggest_difficulty" then suggest_difficulty i msg now
  else if called "mining.suggest_target" then on i (sendError (msg_id msg) 23 (js "use mining.suggest_difficulty"))
  else
    m ← lift (String method);
    on i (sendError (msg_id msg) (-3) (js "unknown method " ++ m)).

(** The promise of an [async] function that nobody waits for. *)
Definition detached (m : eff server unit) : eff server unit := try_catch m (fun _ => modify (set_crashed true)).

(** The handler up to its first [await]; the [catch] clause reads [msg.method] again. *)
Definition handleRpc (i : nat) (msg : jval) (now : Z) : eff server unit :=
  try_catch
    (method ← lift (prop_of msg (js "method")); dispatch i msg method now)
    (fun _ => _ ← lift (prop_of msg (js "method")); internal_error i (msg_id msg)).

(** [while ((idx = this.buf.indexOf("\n")) >= 0)]; every round removes a line. *)
Fixpoint data_loop (fuel : nat) (i : nat) (now : Z) : eff server unit :=
  match fuel with
  | O => mret tt
  | S fuel =>
      c ← client i;
      let idx := indexOf 10 (buf c) in
      if idx <? 0 then mret tt
      else
        let line := trim (take (Z.to_nat idx) (buf c)) in
        _ ← upd i (set_buf (drop (Z.to_nat (idx + 1)) (buf c)));
        _ ← (if bool_decide (line = []) then mret tt
             else match JSON_parse line with
                  | Ok m => detached (handleRpc i m now)
                  | Throw _ => mret tt
                  end);
        data_loop fuel i now
  end.

Definition onData (i : nat) (chunk : jsstr) (now : Z) : eff server unit :=
  _ ← upd i (fun c => set_buf (buf c ++ chunk) c);
  c ← client i;
  if 1024 * 16 <? zlen (buf c) then on i fail
  else data_loop (S (length (buf c))) i now.

(** ** Connections, jobs, timers *)
Definition onConnection (remoteAddress : jsstr) (now : Z) : eff server unit :=
  modify (fun s =>
    let '(n, en1) := allocExtranonce1Hex (nextExtranonce1 s) in
    let c := new_StratumClient cfg (nextConnId s) en1 remoteAddress now in
    set_nextConnId (nextConnId s + 1) (set_nextExtranonce1 n
      (set_clients (clients s ++ [length (objs s)]) (set_objs (objs s ++ [c]) s)))).

Definition onClose (i : nat) : eff server unit :=
  _ ← upd i (set_destroyed true);
  c ← client i;
  _ ← (match reservedSlotId c with
       | Some slot => _ ← release slot; upd i (set_reservedSlotId None)
       | None => mret tt
       end);
  modify (fun s => set_clients (set_delete i (clients s)) s).

Definition subscribe_timeout (i : nat) : eff server unit :=
  c ← client i;
  when (bool_decide (cstate c = St_new)) (on i fail).

Definition broadcastJob (l : nat) : eff server unit :=
  s ← get;
  for_each (fun i =>
    c ← client i;
    when (bool_decide (cstate c = St_authorized))
      (s ← get; match heap (jobs s) !! l with Some job => on i (pushJob l job) | None => mret tt end)) (clients s).

Definition retune_tick (now : Z) : eff server unit :=
  s ← get;
  for_each (fun i => when (vardiffEnabled cfg)
    (c ← client i;
     let '(next, v) := maybeRetune (vardiff c) now in
     _ ← upd i (set_vardiff v);
     match next with
     | None => mret tt
     | Some next =>
         s ← get;
         c ← client i;
         on i (pushDifficulty (wireShareDifficulty (heap (jobs s)) next c))
     end)) (clients s).

Definition close_all : eff server unit :=
  s ← get; for_each (fun i => upd i (set_destroyed true)) (clients s).

(** The job manager polls; its [job] event is handled by [broadcastJob] inside [poll]. *)
Definition on_poll (tpl : option BlockTemplate) : eff server unit :=
  s ← get;
  let '(m, evs, e) := poll payoutAddress tpl (jobs s) in
  _ ← modify (set_jobs m);
  _ ← for_each (fun ev => match ev with JobEvent l => broadcastJob l | TemplateError => mret tt end) evs;
  match e with Some e => throw e | None => mret tt end.

(** ** Tasks *)

(** The other side runs the call.  [None] is a failure of the store; [block] is the
    answer of the node to [submitblock]. *)
Definition run_call (c : call) (ok : bool) (block : answer) (s : server) : answer * server :=
  if negb ok then (AError "query failed", s)
  else match c with
  | CFindUser email => (AUser (findUserId (store s) email), s)
  | CFindSlot pk => (ASlot (findSlotByPubkey (store s) pk), s)
  | CReserve user =>
      let '(p, hold) := reserve_query (store s) user (heldSlots s) in
      (AReserve p, set_heldSlots hold s)
  | CLock id pk =>
      match lock (store s) id pk with
      | Ok (b, t) => (ALock b, set_store t s)
      | Throw e => (AError e, s)
      end
  | CSubmitBlock _ => (block, s)
  end.

Definition execute (k : nat) (ok : bool) (block : answer) (s : server) : server :=
  match tasks s !! k with
  | Some {| t_call := c; t_answer := None; t_cont := kont |} =>
      let '(a, s) := run_call c ok block s in
      set_tasks (<[k := {| t_call := c; t_answer := Some a; t_cont := kont |}]> (tasks s)) s
  | _ => s
  end.

(** The handler goes on, inside the [try] of [handleRpc] except for [slotAdded], whose
    caller handles the rejection. *)
Definition resume_cont (k : cont) (a : answer) (now : Z) (rnd : bytes) : eff server unit :=
  let rpc i id m := detached (try_catch m (fun _ => internal_error i id)) in
  match k with
  | KAuthorize i id name => rpc i id (afterFindUser i id name a now)
  | KPubkeyFind i id => rpc i id (afterFindSlot i id a rnd)
  | KPubkeyReserve i id => rpc i id (afterReserve i id a rnd)
  | KAttest i id slotId => rpc i id (afterLock i id slotId a)
  | KSubmit i id d => rpc i id (afterSubmitBlock d a now)
  | KSlotAdded i => try_catch (afterSlotAdded i a rnd) (fun _ => mret tt)
  end.

Definition resume (k : nat) (now : Z) (rnd : bytes) : eff server unit :=
  s ← get;
  match tasks s !! k with
  | Some {| t_call := _; t_answer := Some a; t_cont := kont |} =>
      _ ← modify (fun s => set_tasks (delete k (tasks s)) s);
      resume_cont kont a now rnd
  | _ => mret tt
  end.

(** ** The process *)
Inductive event :=
| EvConnect (remoteAddress : jsstr) (now : Z)
| EvData (i : nat) (chunk : jsstr) (now : Z)
| EvClose (i : nat)
| EvTimeout (i : nat)
| EvRetune (now : Z)
| EvPoll (tpl : option BlockTemplate)
| EvSlotAdded (user : Z)
| EvAddEmpty (user : Z)
| EvExecute (k : nat) (ok : bool) (block : answer)
| EvResume (k : nat) (now : Z) (rnd : bytes).

Definition open (i : nat) (s : server) : bool :=
  match objs s !! i with Some c => negb (destroyed c) | None => false end.

Definition step (e : event) (s : server) : server :=
  if crashed s then s
  else match e with
  | EvConnect addr now => snd (onConnection addr now s)
  | EvData i chunk now => if open i s then snd (onData i chunk now s) else s
  | EvClose i => if bool_decide (i ∈ clients s) then snd (onClose i s) else s
  | EvTimeout i => snd (subscribe_timeout i s)
  | EvRetune now => snd (retune_tick now s)
  | EvPoll tpl => snd (detached (on_poll tpl) s)
  | EvSlotAdded user => snd (slotAdded user s)
  | EvAddEmpty user => set_store (snd (addEmpty (store s) user)) s
  | EvExecute k ok block => execute k ok block s
  | EvResume k now rnd => snd (resume k now rnd s)
  end.

Definition run (es : list event) (s : server) : server := foldl (fun s e => step e s) s es.

Definition init_server (t : T) (w : world) : server := {|
  nextConnId := 1; nextExtranonce1 := 0; objs := []; clients := []; heldSlots := []; signatureLog := []; ipc := [];
  jobs := jm_init; pads := w; store := t; tasks := []; crashed := false |}.
End Server.
