(* ===== verification/StratumRequests.v ===== *)
(** * The requests of a run of the Stratum V1 server

    A run is a list of events; its chunks of data hold the requests.  [requests] lists those
    that are handled, in order, each with the connection, the time and the state in which
    its handler starts: the theorems about shares are about the entries of this list.  A
    [submission] is what a [mining.submit] request says, read from the request and from the
    state of its connection, without the code that handles it. *)

From S2P Require Import Prelude JsString JsMap JsNumber JsRound JsFormat Effects Json Header Difficulty Vardiff.
From S2P Require Import JobManager B3Pow PadCache ShareValidator Passports Ipc StratumClient StratumServer.

Section Requests.
Context `{Sha256} `{Blake3} `{P256} {T : Type} `{PassportStore T}.
Variable cfg : StratumConfig.
Variable recordSignatures : bool.
Variable payoutAddress : jsstr.
Abbreviation server := (server (T := T)).

Record request := { rq_conn : nat; rq_msg : jval; rq_now : Z; rq_state : server }.

(** After the handler of a request, up to its first [await]. *)
Definition handled (r : request) : server :=
  (detached (handleRpc recordSignatures (rq_conn r) (rq_msg r) (rq_now r)) (rq_state r)).2.

(** The requests in the buffer of a connection. *)
Fixpoint data_requests (fuel : nat) (i : nat) (now : Z) (s : server) : list request :=
  match fuel, objs s !! i with
  | S fuel, Some c =>
      let idx := indexOf 10 (buf c) in
      if idx <? 0 then []
      else
        let line := trim (take (Z.to_nat idx) (buf c)) in
        let s1 := set_objs (<[i := set_buf (drop (Z.to_nat (idx + 1)) (buf c)) c]> (objs s)) s in
        match (if bool_decide (line = []) then Throw "empty" else JSON_parse line) with
        | Ok m => let r := {| rq_conn := i; rq_msg := m; rq_now := now; rq_state := s1 |} in r :: data_requests fuel i now (handled r)
        | Throw _ => data_requests fuel i now s1
        end
  | _, _ => []
  end.

Definition step_requests (e : event) (s : server) : list request :=
  match e with
  | EvData i chunk now =>
      match objs s !! i with
      | Some c =>
          let text := buf c ++ chunk in
          if crashed s || destroyed c || (1024 * 16 <? zlen text) then []
          else data_requests (S (length text)) i now (set_objs (<[i := set_buf text c]> (objs s)) s)
      | None => []
      end
  | _ => []
  end.

Fixpoint requests (es : list event) (s : server) : list request :=
  match es with
  | [] => []
  | e :: es => step_requests e s ++ requests es (step cfg recordSignatures payoutAddress e s)
  end.

Lemma requests_app es1 es2 s : requests (es1 ++ es2) s =
  requests es1 s ++ requests es2 (run cfg recordSignatures payoutAddress es1 s).
Proof. revert s. induction es1 as [|e es1 IH]; intros s; [done|]. cbn. by rewrite IH, app_assoc. Qed.

(** ** Submissions *)
Record submission := {
  sb_conn : StratumClient;
  sb_job : StratumJob;
  sb_jobId : jsstr;
  sb_en2 : jsstr;
  sb_ntime : jsnum;
  sb_nonce : jsnum;
  sb_key : jsstr;
  sb_sig : jsstr
}.

(** The fields of a [mining.submit] request: [[user, job, extranonce2, ntime, nonce, signature]]. *)
Definition submits (msg : jval) (x : submission) : Prop :=
  exists params args en2 ntime nonce sigAny sig,
    prop_of msg (js "method") = Ok (JStr (js "mining.submit")) /\
    params = coalesce (msg_params msg) (JArr []) /\ iterate params = Ok args /\
    let arg (k : nat) := String (coalesce (default JUndef (args !! k)) (JStr [])) in
    arg 1%nat = Ok (sb_jobId x) /\
    arg 2%nat = Ok en2 /\ sb_en2 x = toLowerCase en2 /\
    arg 3%nat = Ok ntime /\ parseInt16 ntime = Some (sb_ntime x) /\
    arg 4%nat = Ok nonce /\ parseInt16 nonce = Some (sb_nonce x) /\
    index_of params 5 = Ok sigAny /\ String sigAny = Ok sig /\ sb_sig x = toLowerCase sig.

(** A well-formed submission of an authorized connection for a job that the server knows,
    signed with the key that the connection has announced. *)
Definition submission_of (r : request) (x : submission) : Prop :=
  objs (rq_state r) !! rq_conn r = Some (sb_conn x) /\ cstate (sb_conn x) = St_authorized /\
  submits (rq_msg r) x /\ sb_jobId x <> [] /\ zlen (sb_en2 x) = 8 /\
  isFinite (sb_ntime x) = true /\ isFinite (sb_nonce x) = true /\
  getById (jobs (rq_state r)) (sb_jobId x) = Some (sb_job x) /\
  pubkey (sb_conn x) = Some (sb_key x) /\
  verifyP256Digest (sb_key x) (shareDigest (sb_jobId x) (sb_en2 x) (sb_ntime x) (sb_nonce x)) (sb_sig x) = true.

(** The difficulty that the connection was given for the job. *)
Definition sb_assigned (x : submission) : jsnum :=
  default (currentDiff (vardiff (sb_conn x))) (map_get (sb_jobId x) (jobShareDiff (sb_conn x))).

(** The share: the job's template with the extranonce of the connection and what it sent. *)
Definition sb_share (x : submission) : ShareInput := {|
  si_job := ctx (sb_job x);
  ShareValidator.extranonce1Hex := c_extranonce1Hex (sb_conn x);
  ShareValidator.extranonce2Hex := sb_en2 x;
  si_ntime := sb_ntime x;
  si_nonce := sb_nonce x;
  shareDifficulty := sb_assigned x |}.

(** What the connection signed. *)
Definition sb_attest (x : submission) : ShareAttest := {|
  sa_jobId := sb_jobId x; sa_nonce := nonceHex (sb_nonce x); sa_pubkey := Some (sb_key x);
  sa_signature := Some (sb_sig x); sa_result := R_valid |}.

Definition sb_dedup (x : submission) : jsstr := dedupKey (sb_jobId x) (sb_en2 x) (sb_ntime x) (sb_nonce x).
End Requests.
