(* ===== verification/StratumProofs.v ===== *)
(** * The Stratum V1 server: what holds in every run

    Three groups of facts about the state machine of [StratumServer]: what a connection is
    told and what is remembered about it, what is credited, and which device slots get
    bound.  Each is a relation or an invariant that every handler keeps, whatever the
    interleaving of the handlers at their [await]s. *)

From S2P Require Import Prelude JsString JsMap JsNumber JsRound JsFormat Effects Json Header Node Difficulty Vardiff.
From S2P Require Import JobManager B3Pow PadCache ShareValidator Passports Ipc StratumClient StratumServer StratumRequests.

(** The lemmas about handlers that the walks below use. *)
Create HintDb leaves.

(** ** What a connection remembers *)

(** [k] is remembered, and at most [n] keys were remembered after it. *)
Definition behind (k : jsstr) (n : nat) (seen : list jsstr) : Prop :=
  exists l1 l2, seen = l1 ++ k :: l2 /\ (length l2 <= n)%nat.

Lemma remember_length k seen : zlen seen <= 50000 -> zlen (remember k seen) <= 50000.
Proof.
  intros Hl. unfold remember. destruct (Z.ltb_spec 50000 (zlen (set_add k seen))) as [Hgt|]; [|done].
  unfold set_add in *. case_bool_decide; [lia|]. rewrite zlen_app in Hgt. change (zlen [k]) with 1 in Hgt.
  unfold zlen in *. rewrite length_drop, length_app. cbn [length]. lia.
Qed.

(** The key that is recorded last is the last of the list. *)
Lemma behind_recorded k seen : (k ∉ seen) -> zlen seen <= 50000 -> behind k 0 (remember k seen).
Proof.
  intros Hk Hl. unfold remember, set_add. rewrite bool_decide_false by done. destruct (Z.ltb_spec 50000 (zlen (seen ++ [k]))) as [Hgt|].
  - rewrite zlen_app in Hgt. change (zlen [k]) with 1 in Hgt. unfold zlen in *. rewrite drop_app_le by lia.
    by exists (drop (Z.to_nat 10000) seen), [].
  - by exists seen, [].
Qed.

(** Fewer than 40,000 later keys do not push it out. *)
Lemma behind_remember k k' n seen : (k' ∉ seen) -> zlen seen <= 50000 -> behind k n seen -> (n < Z.to_nat 40000)%nat ->
  behind k (S n) (remember k' seen).
Proof.
  intros Hk Hl (l1 & l2 & -> & H2) Hn. unfold remember, set_add. rewrite bool_decide_false by done. rewrite <- app_assoc. cbn [app].
  destruct (Z.ltb_spec 50000 (zlen (l1 ++ k :: l2 ++ [k']))) as [Hgt|].
  - assert (Z.to_nat 10000 <= length l1)%nat as Hd by (unfold zlen in *; repeat first [rewrite length_app in *|cbn [length] in *]; lia).
    rewrite drop_app_le by done. exists (drop (Z.to_nat 10000) l1), (l2 ++ [k']). split; [done|]. rewrite length_app. cbn. lia.
  - exists l1, (l2 ++ [k']). split; [done|]. rewrite length_app. cbn. lia.
Qed.

(** ** What is written to a connection *)

(** The difficulty in force for the reader of the messages. *)
Definition difficulty_after (cur : option jsnum) (w : wire) : option jsnum :=
  match w with
  | WNotify m [JNum d] => if bool_decide (m = js "mining.set_difficulty") then Some d else cur
  | _ => cur
  end.
Definition last_difficulty (l : list wire) : option jsnum := foldl difficulty_after None l.

(** A [mining.notify] for a job follows a [mining.set_difficulty] with the difficulty the
    job is stamped with. *)
Definition notify_ok (stamps : list (jsstr * jsnum)) (before : list wire) (w : wire) : Prop :=
  match w with
  | WNotify m ps => m = js "mining.notify" -> exists id d d', head ps = Some (JStr id) /\
      map_get id stamps = Some d /\ last_difficulty before = Some d' /\ neq d' d = true
  | _ => True
  end.
Definition announced (stamps : list (jsstr * jsnum)) (l : list wire) : Prop :=
  forall l1 w l2, l = l1 ++ w :: l2 -> notify_ok stamps l1 w.

Definition stamps_ok (c : StratumClient) : Prop :=
  forall k d, map_get k (jobShareDiff c) = Some d -> isFinite d = true /\ nlt d MIN_SHARE_DIFFICULTY = false.

Definition talk_ok (c : StratumClient) : Prop :=
  stamps_ok c /\ announced (jobShareDiff c) (sent c) /\
  (destroyed c = false -> lastNotifiedDiff c = last_difficulty (sent c)).

(** What every handler keeps about a connection: its extranonce, the difficulties stamped
    on jobs, the order of the messages, and the bound on the remembered shares; one that
    records no share ([rec = false]) leaves the remembered shares alone. *)
Definition conn_rel (rec : bool) (c c' : StratumClient) : Prop :=
  c_extranonce1Hex c' = c_extranonce1Hex c /\
  (forall k d, map_get k (jobShareDiff c) = Some d -> map_get k (jobShareDiff c') = Some d) /\
  (talk_ok c -> talk_ok c') /\
  (if rec then zlen (seenShares c) <= 50000 -> zlen (seenShares c') <= 50000 else seenShares c' = seenShares c).

#[export] Instance conn_rel_refl rec : Reflexive (conn_rel rec).
Proof. intros c. split; [done|]. split; [auto|]. split; [auto|]. by destruct rec. Qed.
#[export] Instance conn_rel_trans rec : Transitive (conn_rel rec).
Proof.
  intros c1 c2 c3 (E1 & S1 & T1 & K1) (E2 & S2 & T2 & K2). split; [congruence|]. split; [auto|]. split; [auto|].
  destruct rec; [auto|congruence].
Qed.

(** When the remembered shares are the same. *)
Lemma conn_rel_intro rec c c' : c_extranonce1Hex c' = c_extranonce1Hex c ->
  (forall k d, map_get k (jobShareDiff c) = Some d -> map_get k (jobShareDiff c') = Some d) ->
  (talk_ok c -> talk_ok c') -> seenShares c' = seenShares c -> conn_rel rec c c'.
Proof. intros ? ? ? E. do 3 (split; [done|]). rewrite E. by destruct rec. Qed.

Lemma announced_snoc stamps l w : announced stamps l -> notify_ok stamps l w -> announced stamps (l ++ [w]).
Proof.
  intros Hl Hw l1 x l2 E. destruct l2 as [|y l2' _] using rev_ind.
  - apply app_inj_tail in E as [-> ->]. done.
  - rewrite app_comm_cons, app_assoc in E. apply app_inj_tail in E as [E _]. by eapply Hl.
Qed.

Lemma announced_mono stamps stamps' l :
  (forall k d, map_get k stamps = Some d -> map_get k stamps' = Some d) -> announced stamps l -> announced stamps' l.
Proof.
  intros Hm Hl l1 w l2 E. specialize (Hl l1 w l2 E). destruct w as [| |m ps]; try done. intros Em.
  destruct (Hl Em) as (id & d & d' & ? & ? & ? & ?). exists id, d, d'. auto.
Qed.

Lemma last_difficulty_snoc l w : last_difficulty (l ++ [w]) = difficulty_after (last_difficulty l) w.
Proof. unfold last_difficulty. by rewrite foldl_app. Qed.

(** The relation holds for every assignment to another field. *)
Lemma conn_rel_set rec c c' : c_extranonce1Hex c' = c_extranonce1Hex c -> jobShareDiff c' = jobShareDiff c ->
  sent c' = sent c -> lastNotifiedDiff c' = lastNotifiedDiff c -> (destroyed c' = false -> destroyed c = false) ->
  seenShares c' = seenShares c -> conn_rel rec c c'.
Proof.
  intros E1 E2 E3 E4 E5 E6. apply conn_rel_intro; [done|by rewrite E2| |done]. intros (T0 & T1 & T2). unfold talk_ok, stamps_ok.
  rewrite E2, E3, E4. auto.
Qed.

(** A message that is neither of the two leaves the difficulty alone. *)
Definition quiet (w : wire) : Prop :=
  match w with WNotify m _ => m <> js "mining.set_difficulty" /\ m <> js "mining.notify" | _ => True end.

Lemma write_keeps rec w : quiet w -> keeps (conn_rel rec) (write w).
Proof.
  intros Hq c. unfold write, modify. cbn [snd]. destruct (destroyed c) eqn:Ed; [reflexivity|]. apply conn_rel_intro; [done|done| |done].
  intros (T0 & T1 & T2). split; [done|]. split; unfold set_sent; cbn [sent jobShareDiff destroyed lastNotifiedDiff].
  - apply announced_snoc; [done|]. destruct w as [| |m ps]; [done..|]. intros ->. by destruct Hq.
  - intros _. rewrite last_difficulty_snoc, T2 by done. destruct w as [| |m ps]; [done..|].
    unfold difficulty_after. rewrite bool_decide_false by apply Hq. by destruct ps as [|[] []].
Qed.

Lemma pushDifficulty_keeps rec d : keeps (conn_rel rec) (pushDifficulty d).
Proof.
  intros c. unfold pushDifficulty, sendNotify, write, mbind, eff_bind, modify. cbn [snd].
  change (destroyed (set_lastNotifiedDiff _ _)) with (destroyed c).
  destruct (destroyed c) eqn:Ed; (apply conn_rel_intro; [done|done| |done]; intros (T0 & T1 & T2)).
  - split; [done|]. split; [done|]. cbn. congruence.
  - split; [done|]. split; cbn; [by apply announced_snoc|]. intros _. by rewrite last_difficulty_snoc.
Qed.

(** [stampJob] leaves the connection stamped with what it returns. *)
Lemma stampJob_spec rec job c : match stampJob job c with
  | (Ok d, c') => conn_rel rec c c' /\ map_get (jobId job) (jobShareDiff c') = Some d
  | (Throw _, c') => c' = c
  end.
Proof.
  unfold stampJob. eff_simpl. cbv zeta.
  generalize (if isFinite (networkDifficultyFromBits (jc_bits job)) && nlt n0 (networkDifficultyFromBits (jc_bits job)) &&
    nlt (networkDifficultyFromBits (jc_bits job)) (currentDiff (vardiff c))
    then networkDifficultyFromBits (jc_bits job) else currentDiff (vardiff c)) as d. intros d.
  destruct (map_get (jobId job) (jobShareDiff c)) as [ex|] eqn:E; [by split; [reflexivity|]|].
  unfold throw_if. destruct (negb (isFinite d) || nlt d MIN_SHARE_DIFFICULTY) eqn:Ed; [done|].
  apply orb_false_elim in Ed as [Hf Hm]. apply negb_false_iff in Hf. cbn.
  assert (forall k d', map_get k (jobShareDiff c) = Some d' -> map_get k (map_set (jobId job) d (jobShareDiff c)) = Some d') as Hmono.
  { intros k d' Hk. rewrite map_set_other; [done|]. congruence. }
  split; [|apply map_set_get]. apply conn_rel_intro; [done|exact Hmono| |done]. intros (T0 & T1 & T2). split; [|split]; cbn.
  - intros k d'. cbn. destruct (decide (k = jobId job)) as [->|Hk]; [rewrite map_set_get; intros [= <-]; auto|].
    rewrite map_set_other by done. apply T0.
  - by eapply announced_mono.
  - done.
Qed.

(** The difficulty of the stamp is announced, unless it already is. *)
Lemma announce_spec rec assigned c :
  exists c', when (negb (match lastNotifiedDiff c with Some d => neq d assigned | None => false end))
       (pushDifficulty assigned) c = (Ok tt, c') /\ conn_rel rec c c' /\ jobShareDiff c' = jobShareDiff c /\
    (isFinite assigned = true -> exists d', lastNotifiedDiff c' = Some d' /\ neq d' assigned = true).
Proof.
  destruct (match lastNotifiedDiff c with Some d => neq d assigned | None => false end) eqn:E; cbn [negb when].
  - exists c. split; [done|]. split; [reflexivity|]. split; [done|]. destruct (lastNotifiedDiff c); [eauto|done].
  - eexists. split; [reflexivity|]. split; [exact (pushDifficulty_keeps rec assigned c)|].
    unfold pushDifficulty, sendNotify, write. eff_simpl.
    assert (forall c2 : StratumClient, jobShareDiff c2 = jobShareDiff c -> lastNotifiedDiff c2 = Some assigned ->
      jobShareDiff c2 = jobShareDiff c /\
      (isFinite assigned = true -> exists d', lastNotifiedDiff c2 = Some d' /\ neq d' assigned = true)) as Hc
      by eauto using neq_refl.
    destruct (destroyed _); by apply Hc.
Qed.

Lemma notify_keeps job d d' c : isFinite d = true -> map_get (jobId (ctx job)) (jobShareDiff c) = Some d ->
  lastNotifiedDiff c = Some d' -> neq d' d = true -> talk_ok c ->
  talk_ok (sendNotify (js "mining.notify") (notify_params job) c).2.
Proof.
  intros Hf Hm Hl Hn (T0 & T1 & T2). unfold sendNotify, write, modify. cbn [snd]. destruct (destroyed c) eqn:Ed; [split; [done|by split; [|congruence]]|].
  split; [done|]. split; unfold set_sent; cbn [sent jobShareDiff destroyed lastNotifiedDiff].
  - apply announced_snoc; [done|]. intros _. exists (jobId (ctx job)), d, d'. by rewrite <- T2.
  - intros _. by rewrite last_difficulty_snoc, T2.
Qed.

Lemma pushJob_keeps rec l job : keeps (conn_rel rec) (pushJob l job).
Proof.
  intros c. unfold pushJob. eff_simpl. pose proof (stampJob_spec rec (ctx job) (set_lastJob (Some l) c)) as Hs.
  assert (conn_rel rec c (set_lastJob (Some l) c)) as H1 by (by apply conn_rel_set).
  destruct (stampJob _ _) as [[d|e] c2]; cbn [snd]; [|by subst c2]. destruct Hs as [H2 Hm].
  pose proof (conn_rel_trans rec _ _ _ H1 H2) as H12.
  destruct (announce_spec rec d c2) as (c3 & -> & H3 & Es & Hd). etransitivity; [exact (conn_rel_trans rec _ _ _ H12 H3)|].
  rewrite <- Es in Hm. apply conn_rel_intro.
  1, 2, 4: unfold sendNotify, write, modify; cbn [snd]; by destruct (destroyed c3).
  intros Ht. destruct (proj1 Ht _ _ Hm) as [Hf _]. destruct (Hd Hf) as (d' & El & En).
  by eapply notify_keeps.
Qed.

(** ** Every handler keeps the connections *)
Section Runs.
Context `{Sha256} `{Blake3} `{P256} {T : Type} `{PassportStore T}.
Variable cfg : StratumConfig.
Variable recordSignatures : bool.
Variable payoutAddress : jsstr.
Abbreviation server := (server (T := T)).

Definition serv_rel (rec : bool) (s s' : server) : Prop :=
  Forall2 (conn_rel rec) (objs s) (objs s') /\ nextExtranonce1 s' = nextExtranonce1 s /\ store s' = store s.

#[export] Instance serv_rel_refl rec : Reflexive (serv_rel rec).
Proof. intros s. split; [|done]. apply Forall2_same_length_lookup. split; [done|]. intros i c c' E E'. by simplify_eq. Qed.
#[export] Instance serv_rel_trans rec : Transitive (serv_rel rec).
Proof.
  intros s1 s2 s3 (F1 & N1 & S1) (F2 & N2 & S2). split; [by etransitivity|]. split; congruence.
Qed.

Lemma on_keeps rec {A} i (m : eff StratumClient A) : keeps (conn_rel rec) m -> keeps (serv_rel rec) (on i m).
Proof.
  intros Hm s. unfold on. destruct (objs s !! i) as [c|] eqn:E; [|reflexivity]. specialize (Hm c).
  destruct (m c) as [r c']. cbn in *. split; [|done]. cbn. rewrite <- (list_insert_id (objs s) i c E) at 1.
  apply Forall2_insert; [apply serv_rel_refl|done].
Qed.

Lemma modify_keeps rec f : (forall s, objs (f s) = objs s) -> (forall s, nextExtranonce1 (f s) = nextExtranonce1 s) ->
  (forall s, store (f s) = store s) -> keeps (serv_rel rec) (modify f).
Proof. intros E1 E2 E3 s. cbn. split; [rewrite E1; apply serv_rel_refl|auto]. Qed.

Lemma upd_keeps rec i f : (forall c, conn_rel rec c (f c)) -> keeps (serv_rel rec) (upd i f).
Proof. intros Hf. apply on_keeps. intros c. apply Hf. Qed.

Lemma on_ok {A} (s : server) i c (m : eff StratumClient A) : objs s !! i = Some c ->
  on i m s = ((m c).1, set_objs (<[i := (m c).2]> (objs s)) s).
Proof. intros E. unfold on. rewrite E. by destruct (m c). Qed.

Lemma on_lookup (s : server) i c c' : objs s !! i = Some c -> objs (set_objs (<[i := c']> (objs s)) s) !! i = Some c'.
Proof. intros E. apply list_lookup_insert_eq. by eapply lookup_lt_Some. Qed.

Lemma client_bind {A} (f : StratumClient -> eff server A) i c s : objs s !! i = Some c -> (client i ≫= f) s = f c s.
Proof.
  intros Hi. unfold client, mbind, eff_bind. rewrite (on_ok _ _ _ _ Hi). cbn. rewrite list_insert_id by done. by destruct s.
Qed.

Lemma upd_bind {A} (f : unit -> eff server A) g i c s : objs s !! i = Some c ->
  (upd i g ≫= f) s = f tt (set_objs (<[i := g c]> (objs s)) s).
Proof. intros Hi. unfold upd, mbind, eff_bind. by rewrite (on_ok _ _ _ _ Hi). Qed.

(** Walk through a handler, with the lemmas of what it calls. *)
Ltac walk :=
  repeat first
    [ solve [auto 2 with leaves nocore]
    | match goal with |- Reflexive _ => exact _ | |- Transitive _ => exact _ end
    | progress intros
    | assumption
    | apply keeps_ret | apply keeps_throw | apply keeps_lift | apply keeps_get
    | apply keeps_bind | apply keeps_when | apply keeps_try | apply keeps_for_each
    | apply on_keeps, write_keeps; cbn; try done; by split
    | apply on_keeps, pushDifficulty_keeps
    | apply on_keeps, pushJob_keeps
    | apply upd_keeps; intros; by apply conn_rel_set
    | apply on_keeps, keeps_get
    | apply on_keeps, keeps_modify; intros; by apply conn_rel_set
    | apply modify_keeps; done
    | progress unfold client, await, ipc_send, release, sendResult, sendError, sendNotify, internal_error, fail
    | match goal with
      | |- keeps _ (let '(_, _) := ?x in _) => destruct x
      | |- keeps _ (if ?b then _ else _) => destruct b
      | |- keeps _ (match ?x with _ => _ end) => destruct x
      end
    | solve [eauto with keeps] ].

Ltac by_walk := match goal with |- serv_rel ?rec ?s1 (?m ?s1).2 => let Hk := fresh in assert (keeps (serv_rel rec) m) as Hk; [|apply Hk] end.

Lemma sendReject_keeps rec i r now : keeps (serv_rel rec) (sendReject i r now).
Proof. unfold sendReject. walk. Qed.
Lemma recordUncredited_keeps rec i a now : keeps (serv_rel rec) (recordUncredited recordSignatures i a now).
Proof. unfold recordUncredited, noteSignature. walk. Qed.
#[local] Hint Resolve sendReject_keeps recordUncredited_keeps : leaves.
Lemma reject_keeps rec i r now : keeps (serv_rel rec) (reject i r now).
Proof. unfold reject. walk. Qed.
Lemma sendChallenge_keeps rec i rnd : keeps (serv_rel rec) (sendChallenge i rnd).
Proof. unfold sendChallenge. walk. Qed.
#[local] Hint Resolve reject_keeps sendChallenge_keeps : leaves.

(** A share that is not remembered is recorded; what follows records nothing. *)
Lemma submit_signed_new s i c id job jid en2 nt nn a now : objs s !! i = Some c -> (dedupKey jid en2 nt nn ∉ seenShares c) ->
  serv_rel false (set_objs (<[i := set_seenShares (remember (dedupKey jid en2 nt nn) (seenShares c)) c]> (objs s)) s)
    (submit_signed recordSignatures i id job jid en2 nt nn a now s).2.
Proof.
  intros Hi Hin. unfold submit_signed. rewrite (client_bind _ _ _ _ Hi). cbv zeta. rewrite bool_decide_false by done.
  rewrite (upd_bind _ _ _ _ _ Hi). by_walk. unfold send_share. walk.
Qed.

Lemma submit_signed_old s i c id job jid en2 nt nn a now : objs s !! i = Some c -> (dedupKey jid en2 nt nn ∈ seenShares c) ->
  serv_rel false s (submit_signed recordSignatures i id job jid en2 nt nn a now s).2.
Proof.
  intros Hi Hin. unfold submit_signed. rewrite (client_bind _ _ _ _ Hi). cbv zeta. rewrite bool_decide_true by done. by_walk. walk.
Qed.

(** [s'] has the connections of [s], with at most one more share remembered, for [i]. *)
Definition records_one (i : nat) (s s' : server) : Prop :=
  serv_rel false s s' \/ exists c k, objs s !! i = Some c /\ (k ∉ seenShares c) /\
    serv_rel false (set_objs (<[i := set_seenShares (remember k (seenShares c)) c]> (objs s)) s) s'.

Lemma records_quiet {A} i (m : eff server A) : keeps (serv_rel false) m -> keeps (records_one i) m.
Proof. intros Hm s. by left. Qed.
Lemma records_lift {A B} i (r : res A) (f : A -> eff server B) : (forall a, keeps (records_one i) (f a)) -> keeps (records_one i) (lift r ≫= f).
Proof. intros Hf s. unfold lift, mbind, eff_bind. destruct r; [apply Hf|]. left. reflexivity. Qed.
Lemma records_client {A} i (f : StratumClient -> eff server A) : (forall c, keeps (records_one i) (f c)) -> keeps (records_one i) (client i ≫= f).
Proof.
  intros Hf s. destruct (objs s !! i) as [c|] eqn:Hi; [rewrite (client_bind _ _ _ _ Hi); apply Hf|].
  left. unfold client, on, mbind, eff_bind. rewrite Hi. reflexivity.
Qed.

Lemma submit_signed_records i id job jid en2 nt nn a now :
  keeps (records_one i) (submit_signed recordSignatures i id job jid en2 nt nn a now).
Proof.
  intros s. destruct (objs s !! i) as [c|] eqn:Hi.
  2: { left. unfold submit_signed, client, on, mbind, eff_bind. rewrite Hi. reflexivity. }
  destruct (decide (dedupKey jid en2 nt nn ∈ seenShares c)); [left; by eapply submit_signed_old|].
  right. exists c, (dedupKey jid en2 nt nn). do 2 (split; [done|]). by apply submit_signed_new.
Qed.

Lemma onSubmit_records i msg now : keeps (records_one i) (onSubmit recordSignatures i msg now).
Proof.
  unfold onSubmit. apply records_client. intros c. destruct (negb _); [apply records_quiet; walk|]. cbv zeta.
  repeat (apply records_lift; intros ?). destruct (_ || _); [apply records_quiet; walk|].
  intros s. unfold get, mbind at 1, eff_bind at 1. destruct (getById (jobs s) a0) as [job|].
  - match goal with |- records_one _ _ (?m _).2 => cut (keeps (records_one i) m); [intros Hk; apply Hk|] end.
    repeat (apply records_lift; intros ?). destruct (negb _); [apply records_quiet; walk|]. apply submit_signed_records.
  - match goal with |- records_one _ _ (?m _).2 => cut (keeps (records_one i) m); [intros Hk; apply Hk|] end. apply records_quiet. walk.
Qed.

Lemma dispatch_records i msg m now : keeps (records_one i) (dispatch recordSignatures i msg m now).
Proof.
  unfold dispatch. cbv zeta. repeat match goal with |- keeps _ (if ?b then _ else _) => destruct b end.
  all: try apply onSubmit_records.
  all: apply records_quiet; unfold onSubscribe, onAuthorize, onPubkey, onAttest, suggest_difficulty; cbv zeta; walk.
Qed.

Lemma records_trans i s1 s2 s3 : records_one i s1 s2 -> serv_rel false s2 s3 -> records_one i s1 s3.
Proof.
  intros [H12|(c & k & Hi & Hk & H12)] H23; [left; by etransitivity|]. right. exists c, k. do 2 (split; [done|]). by etransitivity.
Qed.

Lemma handleRpc_records i msg now : keeps (records_one i) (handleRpc recordSignatures i msg now).
Proof.
  intros s. unfold handleRpc, try_catch. unfold lift at 1. unfold mbind at 1, eff_bind at 1.
  assert (keeps (serv_rel false) (_ ← lift (prop_of msg (js "method")); internal_error i (msg_id msg))) as Hc by walk.
  destruct (prop_of msg (js "method")) as [m|e]; [|left; apply Hc]. pose proof (dispatch_records i msg m now s) as Hd.
  destruct (dispatch _ _ _ _ _ _) as [[u|e] s']; [done|]. eapply records_trans; [exact Hd|apply Hc].
Qed.

Lemma detached_records i msg now : keeps (records_one i) (detached (handleRpc recordSignatures i msg now)).
Proof.
  intros s. unfold detached, try_catch. pose proof (handleRpc_records i msg now s) as Hd.
  destruct (handleRpc _ _ _ _ _) as [[u|e] s']; [done|]. eapply records_trans; [exact Hd|]. by apply modify_keeps.
Qed.

Lemma serv_rel_weaken s s' : serv_rel false s s' -> serv_rel true s s'.
Proof.
  intros (Hf & Hr). split; [|done]. eapply Forall2_impl; [exact Hf|]. intros c c' (E & S & T1 & K). do 3 (split; [done|]). by rewrite K.
Qed.
Lemma records_rel i s s' : records_one i s s' -> serv_rel true s s'.
Proof.
  intros [Hr|(c & k & Hi & _ & Hr)]; [by apply serv_rel_weaken|]. etransitivity; [|by apply serv_rel_weaken]. split; [|done].
  rewrite <- (list_insert_id (objs s) i c Hi) at 1. apply Forall2_insert; [apply (serv_rel_refl true)|].
  do 3 (split; [done|]). apply remember_length.
Qed.

Lemma dispatch_keeps i msg m now : keeps (serv_rel true) (dispatch recordSignatures i msg m now).
Proof. intros s. by eapply records_rel, dispatch_records. Qed.
Lemma handleRpc_keeps i msg now : keeps (serv_rel true) (handleRpc recordSignatures i msg now).
Proof. intros s. by eapply records_rel, handleRpc_records. Qed.
#[local] Hint Resolve handleRpc_keeps : leaves.
Lemma data_loop_keeps fuel i now : keeps (serv_rel true) (data_loop recordSignatures fuel i now).
Proof. induction fuel as [|fuel IH]; cbn [data_loop]; unfold detached; cbv zeta; walk. Qed.
#[local] Hint Resolve data_loop_keeps : leaves.
Lemma onData_keeps i chunk now : keeps (serv_rel true) (onData recordSignatures i chunk now).
Proof. unfold onData. cbv zeta. walk. Qed.
Lemma resume_keeps rec k now rnd : keeps (serv_rel rec) (resume cfg k now rnd).
Proof.
  unfold resume, resume_cont, detached, afterFindUser, afterFindSlot, afterReserve, afterLock, afterSubmitBlock, afterSlotAdded,
    push_current, take_slot, send_share. cbv zeta. walk.
Qed.
Lemma on_poll_keeps rec tpl : keeps (serv_rel rec) (on_poll payoutAddress tpl).
Proof. unfold on_poll, broadcastJob. cbv zeta. walk. Qed.
Lemma retune_keeps rec now : keeps (serv_rel rec) (retune_tick cfg now).
Proof. unfold retune_tick. cbv zeta. walk. Qed.
Lemma onClose_keeps rec i : keeps (serv_rel rec) (onClose i).
Proof. unfold onClose. cbv zeta. walk. Qed.
Lemma timeout_keeps rec i : keeps (serv_rel rec) (subscribe_timeout i).
Proof. unfold subscribe_timeout. walk. Qed.
Lemma slotAdded_keeps rec u : keeps (serv_rel rec) (slotAdded u).
Proof. unfold slotAdded. cbv zeta. walk. Qed.

Abbreviation step := (step cfg recordSignatures payoutAddress).
Abbreviation run := (run cfg recordSignatures payoutAddress).

Lemma run_call_fields c ok b s : objs (run_call c ok b s).2 = objs s /\ nextExtranonce1 (run_call c ok b s).2 = nextExtranonce1 s /\
  ipc (run_call c ok b s).2 = ipc s /\ tasks (run_call c ok b s).2 = tasks s /\ pads (run_call c ok b s).2 = pads s /\
  jobs (run_call c ok b s).2 = jobs s /\ crashed (run_call c ok b s).2 = crashed s.
Proof.
  unfold run_call. destruct ok; [|done]. destruct c; cbn; try done.
  - by destruct (reserve_query _ _ _).
  - by destruct (lock _ _ _) as [[]|].
Qed.

(** The steps that are not a new connection, an answer of the store or a new slot; only
    data may bring a share to be recorded. *)
Lemma step_rel rec e s : match e with
  | EvConnect _ _ | EvExecute _ _ _ | EvAddEmpty _ => True
  | EvData _ _ _ => serv_rel true s (step e s)
  | _ => serv_rel rec s (step e s)
  end.
Proof.
  unfold StratumServer.step. destruct e, (crashed s); try done; try reflexivity.
  - destruct (open i s); [apply onData_keeps|reflexivity].
  - destruct (bool_decide _); [apply onClose_keeps|reflexivity].
  - apply timeout_keeps.
  - apply retune_keeps.
  - assert (keeps (serv_rel rec) (detached (on_poll payoutAddress tpl))) as Hk; [|apply Hk].
    apply keeps_try; [exact _|apply on_poll_keeps|]. intros _. by apply modify_keeps.
  - apply slotAdded_keeps.
  - apply resume_keeps.
Qed.

(** Connections stay, and are kept by every step. *)
Lemma step_conn rec e s i c : match e with EvData _ _ _ => rec = true | _ => True end -> objs s !! i = Some c ->
  exists c', objs (step e s) !! i = Some c' /\ conn_rel rec c c'.
Proof.
  intros He Hi. assert (forall s', serv_rel rec s s' -> exists c', objs s' !! i = Some c' /\ conn_rel rec c c') as Hs.
  { intros s' (Hf & _). exact (Forall2_lookup_l _ _ _ _ _ Hf Hi). }
  assert (forall l, exists c', (objs s ++ l) !! i = Some c' /\ conn_rel rec c c') as Ha.
  { intros l. exists c. split; [by apply lookup_app_l_Some|reflexivity]. }
  pose proof (step_rel rec e s) as Hr. destruct e; try subst rec; try (by apply Hs); clear Hr; unfold StratumServer.step; destruct (crashed s).
  1, 3, 5: exists c; split; [done|reflexivity].
  - unfold onConnection. eff_simpl. destruct (allocExtranonce1Hex _). apply (Ha [_]).
  - exists c. split; [done|reflexivity].
  - unfold execute. destruct (tasks s !! k) as [[? [] ?]|]; try (exists c; split; [done|reflexivity]).
    pose proof (run_call_fields t_call ok block s) as (E & _). destruct (run_call _ _ _ _) as [x s']. cbn in *.
    exists c. rewrite E. split; [done|reflexivity].
Qed.

Lemma run_conn es s i c : objs s !! i = Some c -> exists c', objs (run es s) !! i = Some c' /\ conn_rel true c c'.
Proof.
  revert s c. induction es as [|e es IH]; intros s c Hi; [exists c; split; [done|reflexivity]|].
  destruct (step_conn true e s i c ltac:(by destruct e) Hi) as (c1 & L1 & R1). destruct (IH _ _ L1) as (c2 & L2 & R2).
  exists c2. split; [done|]. by etransitivity.
Qed.

(** All connections talk in order, and the [i]-th one (from 0) has extranonce [i + 1]. *)
Definition conns_ok (s : server) : Prop :=
  (forall i c, objs s !! i = Some c -> talk_ok c /\ zlen (seenShares c) <= 50000 /\
     (Z.of_nat i < 2 ^ 31 - 1 -> c_extranonce1Hex c = padStart 8 48 (to_radix 16 (Z.of_nat i + 1)))) /\
  (zlen (objs s) < 2 ^ 31 -> nextExtranonce1 s = zlen (objs s)).

Lemma serv_rel_conns s s' : serv_rel true s s' -> conns_ok s -> conns_ok s'.
Proof.
  intros (Hf & En & _) [Hc Hn]. split.
  - intros i c' Hi. destruct (Forall2_lookup_r _ _ _ _ _ Hf Hi) as (c & Hi' & Ee & _ & Ht & Hk).
    destruct (Hc i c Hi') as (T1 & K1 & E1). rewrite Ee. auto.
  - unfold zlen. rewrite <- (Forall2_length _ _ _ Hf), En. exact Hn.
Qed.

Lemma new_client_talk id en addr now : talk_ok (new_StratumClient cfg id en addr now).
Proof. split; [by intros ? ?|]. split; [|done]. intros l1 w l2 E. by destruct l1. Qed.

Lemma step_conns_ok e s : conns_ok s -> conns_ok (step e s).
Proof.
  intros Hok. pose proof (step_rel true e s) as Hr. destruct e; try (by eapply serv_rel_conns); clear Hr; unfold StratumServer.step;
    destruct (crashed s); try done.
  - unfold onConnection. eff_simpl. destruct Hok as [Hc Hn]. unfold allocExtranonce1Hex. cbn.
    unfold js_and. change (to_i32 0xffffffff) with (-1). rewrite Z.land_m1_r. split; cbn.
    + intros i c. rewrite lookup_snoc_Some. intros [[Hl Hi]|[-> <-]]; [by apply Hc|]. split; [apply new_client_talk|].
      split; [done|]. cbn. intros Hb. unfold zlen in Hn. rewrite Hn by lia. rewrite to_i32_id by lia. done.
    + unfold zlen in *. rewrite length_app. cbn [length]. intros Hb. rewrite Hn by lia. rewrite to_i32_id by lia. lia.
  - unfold execute. destruct (tasks s !! k) as [[? [] ?]|]; try done.
    pose proof (run_call_fields t_call ok block s) as (E & E2 & _). destruct (run_call _ _ _ _) as [x s']. cbn in *.
    destruct Hok as [Hc Hn]. unfold conns_ok. cbn. by rewrite E, E2.
Qed.

Lemma run_conns_ok es s : conns_ok s -> conns_ok (run es s).
Proof. revert s. induction es as [|e es IH]; intros s Hs; [done|]. by apply IH, step_conns_ok. Qed.

Lemma init_conns_ok t w : conns_ok (init_server t w).
Proof. split; [by intros i c|done]. Qed.

(** What a miner is told.  In every run of the server, whatever the order of requests,
    timers, new jobs and database answers, a job is only announced to a connection when
    the last difficulty announced before it is the one its shares will be judged by; that
    difficulty is finite and at least the minimum, and never changes for the connection
    and job afterwards. *)
Theorem announced_difficulty es1 es2 t w i c :
  objs (run es1 (init_server t w)) !! i = Some c ->
  announced (jobShareDiff c) (sent c) /\ stamps_ok c /\
  exists c', objs (run es2 (run es1 (init_server t w))) !! i = Some c' /\
    forall job d, map_get job (jobShareDiff c) = Some d -> map_get job (jobShareDiff c') = Some d.
Proof.
  intros Hi. destruct (run_conns_ok es1 _ (init_conns_ok t w)) as [Hc _]. destruct (Hc i c Hi) as ((T0 & T1 & _) & _ & _).
  do 2 (split; [done|]). destruct (run_conn es2 _ i c Hi) as (c' & E & _ & S & _). eauto.
Qed.

Definition first_extranonce (s : server) (i : nat) : option jsstr := c_extranonce1Hex <$> objs s !! i.

(** The search spaces of two connections do not overlap: of the first 2^31 - 1
    connections of a process no two have the same first extranonce.  (The next one gets a
    string with a sign and an odd number of digits, with which no share can be checked.) *)
Theorem extranonce1_unique es t w i j x y :
  first_extranonce (run es (init_server t w)) i = Some x -> first_extranonce (run es (init_server t w)) j = Some y ->
  Z.of_nat i < 2 ^ 31 - 1 -> Z.of_nat j < 2 ^ 31 - 1 -> i <> j ->
  x <> y /\ zlen x = 8 /\
  snd (allocExtranonce1Hex (2 ^ 31 - 1)) = js "-80000000" /\ is_ok (hexToBytes (js "-80000000")) = false.
Proof.
  intros Hx Hy Li Lj Hne. destruct (run_conns_ok es _ (init_conns_ok t w)) as [Hc _].
  apply fmap_Some in Hx as (ci & Hi & ->). apply fmap_Some in Hy as (cj & Hj & ->).
  rewrite (proj2 (proj2 (Hc i ci Hi)) Li), (proj2 (proj2 (Hc j cj Hj)) Lj). split; [|split].
  - intros E. apply padStart_hex_inj in E; lia.
  - apply padStart_hex_length; lia.
  - by vm_compute.
Qed.

(** No share event is added, and no other task or buffer is touched. *)
Definition uncredited (s s' : server) : Prop :=
  tasks s' = tasks s /\ pads s' = pads s /\ forall e, IpcShare e ∈ ipc s' -> IpcShare e ∈ ipc s.

Lemma uncredited_send s s' m : uncredited s s' -> (forall e, m <> IpcShare e) ->
  uncredited s (set_ipc (ipc s' ++ [m]) s').
Proof.
  intros (E1 & E2 & E3) Hm. do 2 (split; [done|]). cbn. intros e. rewrite elem_of_app, list_elem_of_singleton.
  intros [?|<-]; [auto|]. by destruct (Hm e).
Qed.

Lemma recordUncredited_spec s i c a now : objs s !! i = Some c ->
  exists s', recordUncredited recordSignatures i a now s = (Ok tt, s') /\ objs s' = objs s /\ uncredited s s'.
Proof.
  intros Hi. unfold recordUncredited. rewrite (client_bind _ _ _ _ Hi). destruct (splitUserName _) as [u wk].
  unfold noteSignature, ipc_send, when. eff_simpl.
  assert (forall m, (forall e, m <> IpcShare e) -> uncredited s (set_ipc (ipc s ++ [m]) s)) as Hu by (intros; by apply uncredited_send).
  destruct recordSignatures; eexists; (split; [reflexivity|]; split; [done|]; by apply Hu).
Qed.

Lemma reject_spec s i c r now : objs s !! i = Some c ->
  exists s', reject i r now s = (Ok tt, s') /\ objs s' = <[i := set_sharesRejected (sharesRejected c + 1) c]> (objs s) /\ uncredited s s'.
Proof.
  intros Hi. unfold reject. rewrite (upd_bind _ _ _ _ _ Hi). unfold sendReject.
  rewrite (client_bind _ _ _ _ (on_lookup _ _ _ _ Hi)). destruct (negb _); cbn [when]; [|by eexists].
  destruct (splitUserName _) as [u wk]. eexists. split; [reflexivity|]. split; [done|]. by apply uncredited_send.
Qed.

(** A share that is remembered. *)
Lemma submit_signed_dup s i c id job jid en2 nt nn a now : objs s !! i = Some c -> (dedupKey jid en2 nt nn ∈ seenShares c) ->
  exists s' c', submit_signed recordSignatures i id job jid en2 nt nn a now s = (Ok tt, s') /\ uncredited s s' /\
    objs s' !! i = Some c' /\ sharesAccepted c' = sharesAccepted c /\ sharesRejected c' = sharesRejected c + 1 /\
    sent c' = if destroyed c then sent c else sent c ++ [WError id 22 (js "Duplicate share")].
Proof.
  intros Hi Hs. unfold submit_signed. rewrite (client_bind _ _ _ _ Hi). cbv zeta. rewrite bool_decide_true by done.
  destruct (recordUncredited_spec s i c a now Hi) as (s1 & E1 & O1 & U1).
  assert (objs s1 !! i = Some c) as Hi1 by (by rewrite O1).
  destruct (reject_spec s1 i c (js "duplicate") now Hi1) as (s2 & E2 & O2 & U2).
  assert (objs s2 !! i = Some (set_sharesRejected (sharesRejected c + 1) c)) as Hi2.
  { rewrite O2. apply list_lookup_insert_eq. by eapply lookup_lt_Some. }
  unfold mbind, eff_bind. rewrite E1, E2, (on_ok _ _ _ _ Hi2). do 2 eexists. split; [reflexivity|]. split.
  - destruct U1 as (A1 & A2 & A3), U2 as (B1 & B2 & B3). split; [cbn; congruence|]. split; [cbn; congruence|]. cbn. auto.
  - split; [by eapply on_lookup|]. unfold sendError, write, modify. cbn [snd]. cbn. by destruct (destroyed c).
Qed.

(** What does not change when a share is checked. *)
Definition same_worker (s s' : server) (c c' : StratumClient) : Prop :=
  jobs s' = jobs s /\ crashed s' = crashed s /\ buf c' = buf c /\ cstate c' = cstate c /\ pubkey c' = pubkey c /\ destroyed c' = destroyed c.

(** What becomes of a signed share that the validator accepts. *)
Lemma submit_signed_ok s i c id job jid en2 nt nn a now r w :
  let assigned := default (currentDiff (vardiff c)) (map_get jid (jobShareDiff c)) in
  let d := accepted_share c (ctx job) assigned r a in
  objs s !! i = Some c -> (dedupKey jid en2 nt nn ∉ seenShares c) ->
  validateShare now (share_input c (ctx job) en2 nt nn assigned) (pads s) = (Ok (ShareOk r), w) ->
  exists s' c', submit_signed recordSignatures i id job jid en2 nt nn a now s = (Ok tt, s') /\
    objs s' !! i = Some c' /\ same_worker s s' c c' /\
    sharesAccepted c' = sharesAccepted c + (if meetsShare r then 1 else 0) /\ sharesRejected c' = sharesRejected c /\
    sent c' = (if destroyed c then sent c else sent c ++ [WResult id (JBool true)]) /\
    match (if isBlock r then serializedBlockHex r else None) with
    | Some (x :: hex) => ipc s' = ipc s /\
        tasks s' = tasks s ++ [{| t_call := CSubmitBlock (x :: hex); t_answer := None; t_cont := KSubmit i id d |}]
    | _ => ipc s' = ipc s ++ [IpcShare (share_event d false now)] /\ tasks s' = tasks s
    end.
Proof.
  intros assigned d Hi Hk Hv. unfold submit_signed. rewrite (client_bind _ _ _ _ Hi). cbv zeta.
  rewrite bool_decide_false by done. rewrite (upd_bind _ _ _ _ _ Hi). fold assigned. set (s1 := set_objs _ s).
  assert (objs s1 !! i = Some (set_seenShares (remember (dedupKey jid en2 nt nn) (seenShares c)) c)) as Hi1
    by (by apply on_lookup with c).
  set (c1 := set_seenShares _ c) in Hi1. unfold get. unfold mbind at 1, eff_bind at 1.
  change (pads s1) with (pads s). rewrite Hv. unfold modify at 1. unfold mbind at 1, eff_bind at 1. unfold lift at 1.
  unfold mbind at 1, eff_bind at 1. set (s2 := set_pads w s1). assert (objs s2 !! i = Some c1) as Hi2 by exact Hi1.
  (* the counters *)
  assert (exists s3 c3, when (meetsShare r) (_ ← upd i (fun c => set_sharesAccepted (sharesAccepted c + 1) c);
      upd i (fun c => set_vardiff (onShareAccepted (vardiff c)) c)) s2 = (Ok tt, s3) /\ objs s3 !! i = Some c3 /\
      same_worker s s3 c c3 /\ ipc s3 = ipc s /\ tasks s3 = tasks s /\ sent c3 = sent c /\
      sharesRejected c3 = sharesRejected c /\ sharesAccepted c3 = sharesAccepted c + (if meetsShare r then 1 else 0))
    as (s3 & c3 & E3 & Hi3 & W3 & I3 & T3 & N3 & R3 & A3).
  { destruct (meetsShare r); cbn [when].
    - rewrite (upd_bind _ _ _ _ _ Hi2). unfold upd. rewrite (on_ok _ _ _ _ (on_lookup _ _ _ _ Hi2)).
      do 2 eexists. split; [reflexivity|]. split; [by eapply on_lookup, on_lookup|]. repeat split; done.
    - exists s2, c1. repeat split; try done. cbn. lia. }
  unfold mbind at 1, eff_bind at 1. rewrite E3. rewrite (upd_bind _ _ _ _ _ Hi3).
  set (s4 := set_objs _ s3). assert (objs s4 !! i = Some (set_lastShareAt now c3)) as Hi4 by (by apply on_lookup with c3).
  unfold mbind at 1, eff_bind at 1. rewrite (on_ok _ _ _ _ Hi4). unfold sendResult, write, modify. cbn [fst snd].
  change (destroyed (set_lastShareAt now c3)) with (destroyed c3).
  destruct W3 as (J3 & C3 & U3 & S3 & K3 & D3). rewrite D3. fold d.
  assert (forall s5 : server, objs s5 = <[i := if destroyed c then set_lastShareAt now c3
      else set_sent (sent (set_lastShareAt now c3) ++ [WResult id (JBool true)]) (set_lastShareAt now c3)]> (objs s4) ->
    jobs s5 = jobs s3 -> crashed s5 = crashed s3 ->
    exists c', objs s5 !! i = Some c' /\ same_worker s s5 c c' /\ sharesAccepted c' = sharesAccepted c + (if meetsShare r then 1 else 0) /\
      sharesRejected c' = sharesRejected c /\ sent c' = (if destroyed c then sent c else sent c ++ [WResult id (JBool true)])) as Hfin.
  { intros s5 -> Ej Ec. eexists. split; [apply list_lookup_insert_eq; by eapply lookup_lt_Some|].
    unfold same_worker. rewrite Ej, Ec. destruct (destroyed c); cbn; rewrite ?N3; done. }
  clear E3 Hi3. destruct (if isBlock r then serializedBlockHex r else None) as [[|x hex]|].
  all: unfold await, send_share, ipc_send, modify.
  all: match goal with |- exists s' c', (Ok tt, ?s6) = _ /\ _ => destruct (Hfin s6 eq_refl eq_refl eq_refl) as (c' & L & A0 & A & B & C); exists s6, c' end.
  all: split; [done|]; split; [done|]; do 4 (split; [done|]); cbn; by rewrite I3, T3.
Qed.

(** A [mining.submit] request. *)
Definition submit_request (id : jval) (user jid en2 ntimeS nonceS sig : jsstr) : jval := JObj [
  (js "id", id); (js "method", JStr (js "mining.submit"));
  (js "params", JArr [JStr user; JStr jid; JStr en2; JStr ntimeS; JStr nonceS; JStr sig])].

Definition valid_attest (jid pk sig : jsstr) (nn : jsnum) : ShareAttest := {|
  sa_jobId := jid; sa_nonce := nonceHex nn; sa_pubkey := Some pk; sa_signature := Some sig; sa_result := R_valid |}.

(** A submission gets to the check of the share. *)
Lemma submission_reaches r x : submission_of r x ->
  onSubmit recordSignatures (rq_conn r) (rq_msg r) (rq_now r) (rq_state r) =
    submit_signed recordSignatures (rq_conn r) (msg_id (rq_msg r)) (sb_job x) (sb_jobId x) (sb_en2 x) (sb_ntime x) (sb_nonce x)
      (sb_attest x) (rq_now r) (rq_state r).
Proof.
  intros (Hi & Hs & (ps & args & e2 & nts & nns & sa & sg & Em & -> & Ea & E1 & E2 & L2 & E3 & P3 & E4 & P4 & E5 & E6 & L6)
    & Hj & Hz & Fn & Fm & Eg & Hpk & Hv).
  unfold onSubmit. rewrite (client_bind _ _ _ _ Hi). rewrite bool_decide_true by done. cbv zeta. cbn [negb].
  rewrite Ea. unfold lift. unfold mbind at 1, eff_bind at 1. cbv beta iota. rewrite E1, E2, E3, E4. unfold mbind at 1, eff_bind at 1.
  unfold mbind at 1, eff_bind at 1. unfold mbind at 1, eff_bind at 1. unfold mbind at 1, eff_bind at 1. cbv beta iota.
  rewrite P3, P4. change (default S754_nan (Some ?n)) with n.
  rewrite <- L2, bool_decide_false, Hz by done. rewrite Fn, Fm. change (negb (8 =? extranonce2Size * 2)) with false. cbn [orb negb].
  unfold get, mbind at 1, eff_bind at 1. rewrite Eg. unfold mbind at 1, eff_bind at 1. rewrite E5. unfold mbind at 1, eff_bind at 1.
  assert (shareAttest (sb_conn x) (sb_jobId x) (sb_en2 x) (sb_ntime x) (sb_nonce x) sa = Ok (sb_attest x)) as ->; [|done].
  unfold shareAttest. assert (nullish sa || (match sa with JStr [] => true | _ => false end) = false) as ->.
  { assert (forall s, sb_sig x = s -> is_hex128 s = false -> False) as Hsig.
    { intros t <- Hx. unfold verifyP256Digest in Hv. rewrite Hx in Hv. by rewrite orb_true_r in Hv. }
    destruct sa as [| |?|?|[|? ?]|?|?]; try done; injection E6 as <-; by destruct (Hsig _ L6). }
  rewrite E6. cbn [mbind res_bind]. by rewrite <- L6, Hpk, Hv.
Qed.

Lemma handle_submission r x : submission_of r x ->
  handleRpc recordSignatures (rq_conn r) (rq_msg r) (rq_now r) (rq_state r) =
    try_catch (submit_signed recordSignatures (rq_conn r) (msg_id (rq_msg r)) (sb_job x) (sb_jobId x) (sb_en2 x) (sb_ntime x) (sb_nonce x)
      (sb_attest x) (rq_now r)) (fun _ => internal_error (rq_conn r) (msg_id (rq_msg r))) (rq_state r).
Proof.
  intros Hx. pose proof Hx as (_ & _ & (? & ? & ? & ? & ? & ? & ? & Em & _) & _). unfold handleRpc, try_catch. rewrite Em. unfold lift, mbind, eff_bind.
  change (dispatch recordSignatures ?i ?m (JStr (js "mining.submit")) ?n) with (onSubmit (T := T) recordSignatures i m n).
  by rewrite (submission_reaches r x Hx).
Qed.

Lemma handled_submission r x s' : submission_of r x ->
  submit_signed recordSignatures (rq_conn r) (msg_id (rq_msg r)) (sb_job x) (sb_jobId x) (sb_en2 x) (sb_ntime x) (sb_nonce x)
    (sb_attest x) (rq_now r) (rq_state r) = (Ok tt, s') -> handled recordSignatures r = s'.
Proof. intros Hx E. unfold handled, detached, try_catch. rewrite (handle_submission r x Hx). unfold try_catch. by rewrite E. Qed.

(** Such a request, when its parameters are in order and its signature is that of the key of
    the connection. *)
Lemma submit_reaches s i c id user jid en2 ntS nnS sig pk nt nn job now :
  objs s !! i = Some c -> cstate c = St_authorized -> pubkey c = Some pk -> jid <> [] -> zlen (toLowerCase en2) = 8 ->
  parseInt16 ntS = Some nt -> isFinite nt = true -> parseInt16 nnS = Some nn -> isFinite nn = true ->
  getById (jobs s) jid = Some job ->
  verifyP256Digest pk (shareDigest jid (toLowerCase en2) nt nn) (toLowerCase sig) = true ->
  submission_of {| rq_conn := i; rq_msg := submit_request id user jid en2 ntS nnS sig; rq_now := now; rq_state := s |}
    {| sb_conn := c; sb_job := job; sb_jobId := jid; sb_en2 := toLowerCase en2; sb_ntime := nt; sb_nonce := nn; sb_key := pk;
       sb_sig := toLowerCase sig |}.
Proof.
  intros Hi Hs Hpk Hj Hz En Fn Em Fm Eg Hv. do 2 (split; [done|]). split; [|done].
  exists (JArr [JStr user; JStr jid; JStr en2; JStr ntS; JStr nnS; JStr sig]), [JStr user; JStr jid; JStr en2; JStr ntS; JStr nnS; JStr sig],
    en2, ntS, nnS, (JStr sig), sig. repeat split; done.
Qed.

(** ** From one request to the next *)

(** No share is recorded; a new connection has none. *)
Definition no_share (s s' : server) : Prop :=
  (forall i c, objs s !! i = Some c -> exists c', objs s' !! i = Some c' /\ conn_rel false c c') /\
  (forall i c', objs s !! i = None -> objs s' !! i = Some c' -> seenShares c' = []).

Lemma no_share_refl s : no_share s s.
Proof. split; [intros i c Hi; exists c; split; [done|reflexivity]|]. intros i c' E1 E2. congruence. Qed.
Lemma no_share_trans s1 s2 s3 : no_share s1 s2 -> no_share s2 s3 -> no_share s1 s3.
Proof.
  intros [H12 N12] [H23 N23]. split.
  - intros i c Hi. destruct (H12 i c Hi) as (c1 & H1' & R1). destruct (H23 i c1 H1') as (c2 & H2' & R2).
    exists c2. split; [done|]. by etransitivity.
  - intros i c3 E1 E3. destruct (objs s2 !! i) as [c2|] eqn:E2; [|by eapply N23].
    destruct (H23 i c2 E2) as (c3' & E3' & _ & _ & _ & R). rewrite E3 in E3'. injection E3' as <-. rewrite R. by eapply N12.
Qed.
Lemma no_share_rel s s' : serv_rel false s s' -> no_share s s'.
Proof.
  intros (Hf & _). split; [intros i c Hi; exact (Forall2_lookup_l _ _ _ _ _ Hf Hi)|]. intros i c' E E'.
  destruct (Forall2_lookup_r _ _ _ _ _ Hf E') as (c & E2 & _). congruence.
Qed.
Lemma no_share_objs s s' : objs s' = objs s -> no_share s s'.
Proof. intros E. split; rewrite E; apply no_share_refl. Qed.

Lemma step_no_share e s : match e with EvData _ _ _ => False | _ => True end -> no_share s (step e s).
Proof.
  intros He. pose proof (step_rel false e s) as Hr. destruct e; try (by apply no_share_rel); try done; clear Hr He;
    unfold StratumServer.step; destruct (crashed s); try apply no_share_refl.
  - unfold onConnection. eff_simpl. destruct (allocExtranonce1Hex _). split; cbn.
    + intros i c Hi. exists c. split; [by apply lookup_app_l_Some|reflexivity].
    + intros i c E. rewrite lookup_snoc_Some. intros [[_ E']|[_ <-]]; [congruence|done].
  - by apply no_share_objs.
  - apply no_share_objs. unfold execute. destruct (tasks s !! k) as [[? [] ?]|]; try done.
    pose proof (run_call_fields t_call ok block s) as (E & _). by destruct (run_call _ _ _ _) as [x s'].
Qed.

(** The run between two states handles these requests and records shares nowhere else. *)
Inductive handles : server -> list request -> server -> Prop :=
| handles_none s s' : no_share s s' -> handles s [] s'
| handles_one s r rs s' : no_share s (rq_state r) -> handles (handled recordSignatures r) rs s' -> handles s (r :: rs) s'.

Lemma handles_quiet s1 s2 rs s3 : no_share s1 s2 -> handles s2 rs s3 -> handles s1 rs s3.
Proof. intros H12 Hh. destruct Hh; constructor; try done; by eapply no_share_trans. Qed.
Lemma handles_app s1 rs s2 rs' s3 : handles s1 rs s2 -> handles s2 rs' s3 -> handles s1 (rs ++ rs') s3.
Proof. induction 1; intros Hs3; [by eapply handles_quiet|]. cbn. constructor; auto. Qed.
Lemma handles_between s1 rs1 r rs2 s3 : handles s1 (rs1 ++ r :: rs2) s3 -> handles s1 rs1 (rq_state r) /\ handles (handled recordSignatures r) rs2 s3.
Proof.
  revert s1. induction rs1 as [|r1 rs1 IH]; intros s1; cbn [app]; intros Hh; inversion_clear Hh.
  - by split; [constructor|].
  - destruct (IH _ ltac:(eassumption)). by split; [constructor|].
Qed.

Lemma set_buf_no_share s i c b : objs s !! i = Some c -> no_share s (set_objs (<[i := set_buf b c]> (objs s)) s).
Proof.
  intros Hi. apply no_share_rel. split; [|done]. rewrite <- (list_insert_id (objs s) i c Hi) at 1.
  apply Forall2_insert; [apply (serv_rel_refl false)|]. by apply conn_rel_set.
Qed.

Lemma detached_ok m s : detached m s = (Ok tt, (detached (T := T) m s).2).
Proof. unfold detached, try_catch. by destruct (m s) as [[[]|] s']. Qed.

Lemma data_handles fuel i now s : handles s (data_requests recordSignatures fuel i now s) (data_loop recordSignatures fuel i now s).2.
Proof.
  revert s. induction fuel as [|fuel IH]; intros s; [constructor; apply no_share_refl|]. cbn [data_loop data_requests].
  destruct (objs s !! i) as [c|] eqn:Hi; [|unfold client, on, mbind, eff_bind; rewrite Hi; constructor; apply no_share_refl].
  rewrite (client_bind _ _ _ _ Hi). cbv zeta. destruct (_ <? 0); [constructor; apply no_share_refl|]. rewrite (upd_bind _ _ _ _ _ Hi).
  pose proof (set_buf_no_share s i c (drop (Z.to_nat (indexOf 10 (buf c) + 1)) (buf c)) Hi) as Hb. set (s1 := set_objs _ s) in *.
  case_bool_decide; [eapply handles_quiet; [exact Hb|]; apply IH|].
  destruct (JSON_parse _) as [m|]; [|eapply handles_quiet; [exact Hb|]; apply IH]. constructor; [exact Hb|].
  unfold mbind at 1, eff_bind at 1. rewrite detached_ok. apply IH.
Qed.

Lemma step_handles e s : handles s (step_requests recordSignatures e s) (step e s).
Proof.
  pose proof (step_no_share e s) as Hq. destruct e; try (constructor; by apply Hq). clear Hq. unfold StratumServer.step, open. cbn [step_requests].
  destruct (objs s !! i) as [c|] eqn:Hi; [|destruct (crashed s); constructor; apply no_share_refl].
  destruct (crashed s); [constructor; apply no_share_refl|]. destruct (destroyed c); [constructor; apply no_share_refl|]. cbn [orb negb].
  unfold onData. rewrite (upd_bind _ _ _ _ _ Hi). pose proof (set_buf_no_share s i c (buf c ++ chunk) Hi) as Hb.
  rewrite (client_bind _ _ _ _ (on_lookup _ _ _ _ Hi)). cbn [buf set_buf].
  destruct (_ <? _); [|eapply handles_quiet; [exact Hb|]; apply data_handles].
  constructor. eapply no_share_trans; [exact Hb|]. apply no_share_rel. match goal with |- serv_rel _ _ (?m _).2 => assert (keeps (serv_rel false) m) as Hk; [walk|apply Hk] end.
Qed.

Lemma run_handles es s : handles s (requests cfg recordSignatures payoutAddress es s) (run es s).
Proof.
  revert s. induction es as [|e es IH]; intros s; [constructor; apply no_share_refl|]. cbn. eapply handles_app; [apply step_handles|apply IH].
Qed.

(** What handling one request does to the remembered shares of a connection. *)
Lemma handled_seen r i c : objs (rq_state r) !! i = Some c -> exists c', objs (handled recordSignatures r) !! i = Some c' /\
  (seenShares c' = seenShares c \/ rq_conn r = i /\ exists k, (k ∉ seenShares c) /\ seenShares c' = remember k (seenShares c)).
Proof.
  intros Hi. destruct (detached_records (rq_conn r) (rq_msg r) (rq_now r) (rq_state r)) as [(Hf & _)|(c0 & k & Hc & Hk & (Hf & _))].
  - destruct (Forall2_lookup_l _ _ _ _ _ Hf Hi) as (c' & Hi' & _ & _ & _ & R). eauto.
  - cbn in Hf. destruct (decide (rq_conn r = i)) as [<-|Hne].
    + destruct (Forall2_lookup_l _ _ _ _ _ Hf (on_lookup _ _ _ _ Hi)) as (c' & Hi' & _ & _ & _ & R). exists c'. split; [done|].
      right. split; [done|]. exists k. rewrite Hi in Hc. by injection Hc as ->.
    + destruct (Forall2_lookup_l _ _ _ i c Hf) as (c' & Hi' & _ & _ & _ & R); [by rewrite list_lookup_insert_ne|]. eauto.
Qed.

(** A remembered key stays, until 40,000 requests of the connection later. *)
Lemma handles_behind s rs s' i k n c : handles s rs s' -> objs s !! i = Some c -> zlen (seenShares c) <= 50000 -> behind k n (seenShares c) ->
  (n + length (filter (fun r => rq_conn r = i) rs) <= Z.to_nat 40000)%nat ->
  exists c', objs s' !! i = Some c' /\ k ∈ seenShares c'.
Proof.
  intros Hh. revert n c. induction Hh as [s s' [Hq _]|s r rs s' [Hq _] Hh IH]; intros n c Hi Hz Hb Hn.
  - destruct (Hq i c Hi) as (c' & Hi' & _ & _ & _ & R). exists c'. split; [done|]. rewrite R. destruct Hb as (l1 & l2 & -> & _).
    apply elem_of_app. right. left.
  - destruct (Hq i c Hi) as (c1 & Hi1 & _ & _ & _ & R1). rewrite <- R1 in Hz, Hb.
    destruct (handled_seen r i c1 Hi1) as (c2 & Hi2 & [R2|(Er & k' & Hk' & R2)]).
    + apply (IH n c2 Hi2); rewrite ?R2; try done. rewrite filter_cons in Hn. destruct (decide _); cbn [length] in Hn; lia.
    + rewrite filter_cons, decide_True in Hn by done. cbn [length] in Hn.
      apply (IH (S n) c2 Hi2); rewrite ?R2; [by apply remember_length|apply behind_remember; try done; lia|lia].
Qed.

(** No connection remembers more than 50,000 shares. *)
Definition seen_bound (s : server) : Prop := forall i c, objs s !! i = Some c -> zlen (seenShares c) <= 50000.
Lemma no_share_bound s s' : no_share s s' -> seen_bound s -> seen_bound s'.
Proof.
  intros [Hq Hn] Hs i c' Hi'. destruct (objs s !! i) as [c|] eqn:Hi.
  - destruct (Hq i c Hi) as (c1 & Hi1 & _ & _ & _ & R). rewrite Hi' in Hi1. injection Hi1 as ->. rewrite R. by eapply Hs.
  - by rewrite (Hn i c' Hi Hi').
Qed.
Lemma handled_bound r : seen_bound (rq_state r) -> seen_bound (handled recordSignatures r).
Proof.
  intros Hs i c' Hi'. destruct (records_rel _ _ _ (detached_records (rq_conn r) (rq_msg r) (rq_now r) (rq_state r))) as (Hf & _).
  destruct (Forall2_lookup_r _ _ _ _ _ Hf Hi') as (c & Hi & _ & _ & _ & R). apply R. by eapply Hs.
Qed.
Lemma handles_bound s rs s' : handles s rs s' -> seen_bound s -> seen_bound s'.
Proof. induction 1; intros Hs; [by eapply no_share_bound|]. apply IHhandles, handled_bound. by eapply no_share_bound. Qed.

Lemma detached_objs m s : objs (detached (T := T) m s).2 = objs (m s).2.
Proof. unfold detached, try_catch. by destruct (m s) as [[[]|] s']. Qed.

(** A submission that is not remembered is remembered from then on. *)
Lemma handled_new r x : submission_of r x -> (sb_dedup x ∉ seenShares (sb_conn x)) ->
  exists c, objs (handled recordSignatures r) !! rq_conn r = Some c /\ seenShares c = remember (sb_dedup x) (seenShares (sb_conn x)).
Proof.
  intros Hx Hnew. pose proof Hx as (Hi & _). unfold handled. rewrite detached_objs, (handle_submission r x Hx).
  pose proof (submit_signed_new _ _ _ (msg_id (rq_msg r)) (sb_job x) _ _ _ _ (sb_attest x) (rq_now r) Hi Hnew) as Hs.
  assert (forall s', serv_rel false (set_objs (<[rq_conn r := set_seenShares (remember (sb_dedup x) (seenShares (sb_conn x))) (sb_conn x)]>
    (objs (rq_state r))) (rq_state r)) s' -> exists c, objs s' !! rq_conn r = Some c /\ seenShares c = remember (sb_dedup x) (seenShares (sb_conn x))) as Hfin.
  { intros s' (Hf & _). destruct (Forall2_lookup_l _ _ _ _ _ Hf (on_lookup _ _ _ _ Hi)) as (c' & Hi' & _ & _ & _ & R). eauto. }
  unfold try_catch. destruct (submit_signed _ _ _ _ _ _ _ _ _ _ _) as [[u|e] s1]; cbn [snd] in Hs; apply Hfin; [exact Hs|].
  etransitivity; [exact Hs|]. by_walk. walk.
Qed.


(** A chunk that is one line, on a connection that has nothing pending. *)
Lemma rebuffer s i c b : objs s !! i = Some c -> buf c = [] -> set_objs (<[i := set_buf [] (set_buf b c)]> (objs s)) s = s.
Proof.
  intros Hi Hb. replace (set_buf [] (set_buf b c)) with c; [rewrite list_insert_id by done; by destruct s|].
  destruct c. cbn in Hb. by subst.
Qed.

Lemma step_line s i c line msg now :
  let r := {| rq_conn := i; rq_msg := msg; rq_now := now; rq_state := s |} in
  crashed s = false -> objs s !! i = Some c -> destroyed c = false -> buf c = [] ->
  indexOf 10 (line ++ [10]) = zlen line -> zlen line < 1024 * 16 -> trim line <> [] -> JSON_parse (trim line) = Ok msg ->
  step (EvData i (line ++ [10]) now) s = (data_loop recordSignatures (S (length line)) i now (handled recordSignatures r)).2 /\
  step_requests recordSignatures (EvData i (line ++ [10]) now) s =
    r :: data_requests recordSignatures (S (length line)) i now (handled recordSignatures r).
Proof.
  intros r Hc Hi Hd Hb Hx Hl Ht Hp. unfold StratumServer.step, step_requests, open. rewrite Hc, Hi, Hd. cbn [negb orb].
  unfold onData. rewrite (upd_bind _ _ _ _ _ Hi), Hb. cbn [app]. set (c1 := set_buf (line ++ [10]) c).
  set (s1 := set_objs _ s). assert (objs s1 !! i = Some c1) as Hi1 by (by apply on_lookup with c).
  rewrite (client_bind _ _ _ _ Hi1). change (buf c1) with (line ++ [10]). rewrite zlen_app. change (zlen [10]) with 1.
  rewrite (proj2 (Z.ltb_ge _ _)) by lia. rewrite length_app, Nat.add_comm. cbn [length Nat.add].
  generalize (S (length line)) at 1 2 3 4 as fuel. intros fuel. cbn [data_loop data_requests].
  rewrite (client_bind _ _ _ _ Hi1), Hi1. cbv zeta. change (buf c1) with (line ++ [10]). pose proof (zlen_nonneg line).
  rewrite Hx, (proj2 (Z.ltb_ge _ _)) by lia. rewrite (upd_bind _ _ _ _ _ Hi1).
  replace (Z.to_nat (zlen line)) with (length line) by (unfold zlen; lia). rewrite take_app_length, bool_decide_false, Hp by done.
  replace (Z.to_nat (zlen line + 1)) with (length line + 1)%nat by (unfold zlen; lia).
  rewrite <- drop_drop, drop_app_length. change (drop 1 [10]) with (@nil Z).
  assert (set_objs (<[i := set_buf [] c1]> (objs s1)) s1 = s) as ->.
  { transitivity (set_objs (<[i := set_buf [] c1]> (objs s)) s); [|by apply rebuffer].
    unfold s1, set_objs. cbn. by rewrite list_insert_insert_eq. }
  fold r. unfold mbind at 1, eff_bind at 1. rewrite detached_ok. done.
Qed.
Lemma data_loop_done fuel i c now s : objs s !! i = Some c -> buf c = [] -> (data_loop recordSignatures (S fuel) i now s).2 = s.
Proof. intros Hi Hb. cbn [data_loop]. by rewrite (client_bind _ _ _ _ Hi), Hb. Qed.

(** C20: an honest share is credited.  A well-formed [mining.submit] for a known job, signed
    with the key of an authorized connection, not seen before, and accepted by the
    validator, is answered with [true]; it counts as an accepted share when it meets the
    share target, and either a share event with the difficulty of the job goes to the pool
    daemon, or, when it is a block, the block is submitted to the node and the event
    follows with the node's answer. *)
Theorem honest_share_credited s i c id user jid en2 ntS nnS sig pk nt nn job r w now :
  let assigned := default (currentDiff (vardiff c)) (map_get jid (jobShareDiff c)) in
  let d := accepted_share c (ctx job) assigned r (valid_attest jid pk (toLowerCase sig) nn) in
  objs s !! i = Some c -> cstate c = St_authorized -> pubkey c = Some pk -> jid <> [] -> zlen (toLowerCase en2) = 8 ->
  parseInt16 ntS = Some nt -> isFinite nt = true -> parseInt16 nnS = Some nn -> isFinite nn = true ->
  getById (jobs s) jid = Some job ->
  verifyP256Digest pk (shareDigest jid (toLowerCase en2) nt nn) (toLowerCase sig) = true ->
  (dedupKey jid (toLowerCase en2) nt nn ∉ seenShares c) ->
  validateShare now (share_input c (ctx job) (toLowerCase en2) nt nn assigned) (pads s) = (Ok (ShareOk r), w) ->
  exists s' c', handleRpc recordSignatures i (submit_request id user jid en2 ntS nnS sig) now s = (Ok tt, s') /\
    objs s' !! i = Some c' /\ sharesAccepted c' = sharesAccepted c + (if meetsShare r then 1 else 0) /\
    sent c' = (if destroyed c then sent c else sent c ++ [WResult (coalesce id JNull) (JBool true)]) /\
    match (if isBlock r then serializedBlockHex r else None) with
    | Some (x :: hex) => ipc s' = ipc s /\
        tasks s' = tasks s ++ [{| t_call := CSubmitBlock (x :: hex); t_answer := None; t_cont := KSubmit i (coalesce id JNull) d |}] /\
        forall accepted now', ipc (afterSubmitBlock d (ABlock accepted) now' s').2 =
          ipc s ++ [IpcShare (share_event d (match accepted with None | Some [] => true | _ => false end) now')]
    | _ => ipc s' = ipc s ++ [IpcShare (share_event d false now)] /\ tasks s' = tasks s
    end.
Proof.
  intros assigned d Hi Hs Hpk Hj Hz En Fn Em Fm Eg Hv Hk Hc.
  pose proof (handle_submission _ _ (submit_reaches s i c id user jid en2 ntS nnS sig pk nt nn job now Hi Hs Hpk Hj Hz En Fn Em Fm Eg Hv)) as E.
  cbn [rq_conn rq_msg rq_now rq_state] in E. rewrite E. unfold try_catch.
  change (msg_id (submit_request id user jid en2 ntS nnS sig)) with (coalesce id JNull).
  destruct (submit_signed_ok s i c (coalesce id JNull) job jid (toLowerCase en2) nt nn (valid_attest jid pk (toLowerCase sig) nn) now r w Hi Hk Hc)
    as (s' & c' & E' & L & _ & A & _ & B & D). cbn [sb_job sb_jobId sb_en2 sb_ntime sb_nonce].
  change (sb_attest _) with (valid_attest jid pk (toLowerCase sig) nn). rewrite E'. exists s', c'. do 4 (split; [done|]).
  destruct (if isBlock r then serializedBlockHex r else None) as [[|x hex]|]; [done| |done].
  destruct D as [Di Dt]. split; [done|]. split; [done|]. intros acc now'. rewrite <- Di. by destruct acc as [[]|].
Qed.
End Runs.

(** ** Requests that end the process *)
Section Crash.
Context `{Sha256} `{Blake3} `{P256} {T : Type} `{PassportStore T}.
Variable cfg : StratumConfig.
Variable recordSignatures : bool.
Variable payoutAddress : jsstr.
Abbreviation server := (server (T := T)).

(** The promise of the handler is not rejected. *)
Definition returns (m : eff server unit) (s : server) : bool := is_ok (m s).1.

(** The handler of a request that is an object never throws, as the connection is there
    for the answer in the [catch] clause. *)
Lemma handleRpc_total (s : server) i c msg now : objs s !! i = Some c ->
  returns (handleRpc recordSignatures i msg now) s = negb (nullish msg).
Proof.
  intros Hi. unfold returns, handleRpc, try_catch.
  destruct (prop_of msg (js "method")) as [method|e] eqn:Em; eff_simpl.
  - assert (nullish msg = false) as -> by (by destruct msg).
    pose proof (dispatch_keeps recordSignatures i msg method now s) as (Hf & _).
    destruct (dispatch _ _ _ _ _ _) as [[u|e] s1]; [done|]. cbn [snd] in Hf.
    destruct (Forall2_lookup_l _ _ _ _ _ Hf Hi) as (c1 & Hi1 & _). unfold internal_error. by rewrite (on_ok _ _ _ _ Hi1).
  - by destruct msg.
Qed.

Lemma null_line : indexOf 10 (js "null" ++ [10]) = 4 /\ trim (take 4 (js "null" ++ [10])) = js "null" /\ JSON_parse (js "null") = Ok JNull.
Proof. by vm_compute. Qed.

(** One turn of the loop over a buffer that is the line [null]. *)
Lemma null_data fuel i c now (s : server) : objs s !! i = Some c -> buf c = js "null" ++ [10] ->
  crashed (data_loop recordSignatures (S (S fuel)) i now s).2 = true.
Proof.
  intros Hi Hb. cbn [data_loop]. rewrite (client_bind _ _ _ _ Hi). cbv zeta. rewrite Hb. destruct null_line as (-> & E2 & E3).
  change (4 <? 0) with false. cbv iota. rewrite (upd_bind _ _ _ _ _ Hi). change (Z.to_nat 4) with 4%nat.
  rewrite E2, E3, bool_decide_false by done. set (s1 := set_objs _ s).
  assert (objs s1 !! i = Some (set_buf [] c)) as Hi1 by (by apply on_lookup with c).
  assert (detached (handleRpc recordSignatures i JNull now) s1 = (Ok tt, set_crashed true s1)) as Ed by reflexivity.
  unfold mbind at 1, eff_bind at 1. rewrite Ed. by rewrite client_bind with (c := set_buf [] c) by exact Hi1.
Qed.

(** A request that is the JSON value [null] ends the process.  The handler of any other
    request returns, whatever the request contains; on [null] both the handler and its
    [catch] clause read a property of [null], the rejection has no handler, and every
    connection of the server is gone.  No authorization is needed. *)
Theorem null_request_ends_process (s : server) i c : objs s !! i = Some c ->
  (forall msg now, returns (handleRpc recordSignatures i msg now) s = negb (nullish msg)) /\
  (buf c = [] -> destroyed c = false -> forall now,
     crashed (step cfg recordSignatures payoutAddress (EvData i (js "null" ++ [10]) now) s) = true).
Proof.
  intros Hi. split; [intros; by eapply handleRpc_total|]. intros Hb Hd now. unfold step.
  destruct (crashed s) eqn:Ec; [done|]. unfold open. rewrite Hi, Hd. cbn [negb]. unfold onData.
  rewrite (upd_bind _ _ _ _ _ Hi). rewrite Hb. cbn [app]. set (c1 := set_buf _ c).
  assert (objs (set_objs (<[i := c1]> (objs s)) s) !! i = Some c1) as Hi1 by (by apply on_lookup with c).
  rewrite (client_bind _ _ _ _ Hi1). change (1024 * 16 <? zlen (buf c1)) with false. cbv iota.
  by apply (null_data 4 i c1).
Qed.
End Crash.

(** ** What is credited *)
Section Credit.
Context `{Sha256Ok} `{Blake3Ok} `{P256} {T : Type} `{PassportStore T}.
Variable cfg : StratumConfig.
Variable recordSignatures : bool.
Variable payoutAddress : jsstr.
Variable cap : Z.
Abbreviation server := (server (T := T)).

(** The header of the share, hashed as the node hashes it. *)
Definition node_hash (s : ShareInput) (b : Built) (h : bytes) : Prop :=
  buildHeader s = Ok b /\ exists pad, Cpp.InitScratchpad (prevHashLE b) = Some pad /\
    forall clock, Cpp.Hash (b_header b) pad 0 clock = Some (Some h, false).

(** The hash reaches the target of the difficulty: that of the share, or the network's. *)
Definition worth (s : ShareInput) (h : bytes) (diff : jsnum) : Prop :=
  (diff = shareDifficulty s /\ exists t, targetFromShareDifficulty diff = Ok t /\ le_val h <= t) \/
  (diff = networkDifficultyFromBits (jc_bits (si_job s)) /\
   exists nt, hexToBytes (networkTargetHexBE (si_job s)) = Ok nt /\ le_val h <= bigIntFromBytesLE (reverseBytes nt)).

(** The requests that shares may come from. *)
Section Backed.
Variable Q : request (T := T) -> Prop.

(** What a share is credited for: a new submission among these requests, and its work. *)
Definition backed (d : submitted) : Prop :=
  exists r x b h, Q r /\ submission_of r x /\ (sb_dedup x ∉ seenShares (sb_conn x)) /\ jobId (ctx (sb_job x)) = sb_jobId x /\
    node_hash (sb_share x) b h /\ worth (sb_share x) h (if su_meetsShare d then su_assigned d else su_network d) /\
    su_attest d = sb_attest x /\ (su_email d, su_worker d) = splitUserName (username (sb_conn x)) /\
    su_blockHash d = bytesToHex (reverseBytes (doubleSha256 (b_header b))) /\ su_height d = jc_height (ctx (sb_job x)).

(** Someone who holds the private key signed a challenge. *)
Definition proved (pk : jsstr) : Prop := exists ch sig, verifyP256Digest pk ch sig = true.

Definition task_ok (t : task (T := T)) : Prop :=
  (match t_call t with CLock _ pk => proved pk | _ => True end) /\
  (match t_cont t with KSubmit _ _ d => backed d | _ => True end).

Definition event_ok (m : IpcMessage) : Prop :=
  match m with
  | IpcShare e => exists d accepted, backed d /\ se_attest e = Some (su_attest d) /\
      (se_user e, se_workerName e) = (su_email d, su_worker d) /\
      se_diff e = (if su_meetsShare d then su_assigned d else su_network d) /\
      se_isBlock e = accepted && negb (bool_decide (su_blockHash d = [])) /\
      se_blockHash e = (if accepted then Some (su_blockHash d) else None) /\
      se_blockHeight e = (if accepted then Some (su_height d) else None)
  | _ => True
  end.

Definition rest_ok (s : server) : Prop := Forall task_ok (tasks s) /\ Forall event_ok (ipc s) /\ reachable cap (pads s).

(** What a handler keeps: the jobs, and that everything recorded is backed. *)
Definition work_rel (s s' : server) : Prop := jm_inv (jobs s) -> rest_ok s ->
  jobs s' = jobs s /\ (crashed s' = false -> crashed s = false) /\ rest_ok s'.

#[local] Instance work_rel_refl : Reflexive work_rel.
Proof. intros s Hj Hr. done. Qed.
#[local] Instance work_rel_trans : Transitive work_rel.
Proof.
  intros s1 s2 s3 H12 H23 Hj Hr. destruct (H12 Hj Hr) as (J1 & C1 & R1). rewrite <- J1 in Hj.
  destruct (H23 Hj R1) as (J2 & C2 & R2). split; [congruence|]. auto.
Qed.

Lemma work_rel_intro s s' : (jm_inv (jobs s) -> rest_ok s -> work_rel s s') -> work_rel s s'.
Proof. intros Hw Hj Hr. exact (Hw Hj Hr Hj Hr). Qed.

Lemma on_work {A} i (m : eff StratumClient A) : keeps work_rel (on i m).
Proof. intros s. unfold on. destruct (objs s !! i) as [c|]; [|reflexivity]. destruct (m c). intros Hj Hr. done. Qed.

Lemma modify_work f : (forall s, jobs (f s) = jobs s) -> (forall s, crashed (f s) = false -> crashed s = false) ->
  (forall s, tasks (f s) = tasks s) -> (forall s, ipc (f s) = ipc s) -> (forall s, pads (f s) = pads s) -> keeps work_rel (modify f).
Proof.
  intros E1 E2 E3 E4 E5 s Hj Hr. split; [apply E1|]. split; [apply E2|]. unfold rest_ok. cbn. by rewrite E3, E4, E5.
Qed.

Lemma await_work c k : task_ok {| t_call := c; t_answer := None; t_cont := k |} -> keeps work_rel (await c k).
Proof.
  intros Ht s Hj (R1 & R2 & R3). split; [done|]. split; [done|]. split; [|done]. cbn.
  apply Forall_app. split; [done|]. by constructor.
Qed.

Lemma ipc_work m : event_ok m -> keeps work_rel (ipc_send m).
Proof.
  intros He s Hj (R1 & R2 & R3). split; [done|]. split; [done|]. split; [done|]. split; [|done]. cbn.
  apply Forall_app. split; [done|]. by constructor.
Qed.

Ltac walk_work :=
  repeat first
    [ solve [auto 2 with leaves nocore]
    | match goal with |- Reflexive _ => exact _ | |- Transitive _ => exact _ end
    | progress intros
    | assumption
    | apply keeps_ret | apply keeps_throw | apply keeps_lift | apply keeps_get
    | apply keeps_bind | apply keeps_when | apply keeps_try | apply keeps_for_each
    | apply on_work
    | apply modify_work; done
    | apply await_work; by split
    | apply ipc_work; exact I
    | progress unfold client, upd, release, internal_error
    | match goal with
      | |- keeps _ (let '(_, _) := ?x in _) => destruct x
      | |- keeps _ (if ?b then _ else _) => destruct b
      | |- keeps _ (match ?x with _ => _ end) => destruct x
      end
    | solve [eauto with keeps] ].

Lemma sendReject_work i r now : keeps work_rel (sendReject i r now).
Proof. unfold sendReject. walk_work. Qed.
Lemma recordUncredited_work i a now : keeps work_rel (recordUncredited recordSignatures i a now).
Proof. unfold recordUncredited, noteSignature. walk_work. Qed.
#[local] Hint Resolve sendReject_work recordUncredited_work : leaves.
Lemma reject_work i r now : keeps work_rel (reject i r now).
Proof. unfold reject. walk_work. Qed.
Lemma sendChallenge_work i rnd : keeps work_rel (sendChallenge i rnd).
Proof. unfold sendChallenge. walk_work. Qed.
#[local] Hint Resolve reject_work sendChallenge_work : leaves.

Lemma send_share_work d accepted now : backed d -> keeps work_rel (send_share d accepted now).
Proof. intros Hd. apply ipc_work. exists d, accepted. done. Qed.
#[local] Hint Resolve send_share_work : leaves.

(** What follows the check of a share that passes it. *)
Lemma accepted_work i id (check : ShareCheckOk) d now : backed d ->
  keeps work_rel (
    _ ← when (meetsShare check)
          (_ ← upd i (fun c => set_sharesAccepted (sharesAccepted c + 1) c);
           upd i (fun c => set_vardiff (onShareAccepted (vardiff c)) c));
    _ ← upd i (set_lastShareAt now);
    _ ← on i (sendResult id (JBool true));
    match (if isBlock check then serializedBlockHex check else None) with
    | Some (c :: hex) => await (CSubmitBlock (c :: hex)) (KSubmit i id d)
    | _ => send_share d false now
    end : eff server unit).
Proof. intros Hd. walk_work. Qed.

Ltac by_keeps := match goal with |- work_rel ?s1 (?m ?s1).2 => let Hk := fresh in assert (keeps work_rel m) as Hk; [|apply Hk] end.

Lemma submit_signed_work r x : Q r -> submission_of r x -> jobId (ctx (sb_job x)) = sb_jobId x ->
  work_rel (rq_state r) (submit_signed recordSignatures (rq_conn r) (msg_id (rq_msg r)) (sb_job x) (sb_jobId x) (sb_en2 x) (sb_ntime x)
    (sb_nonce x) (sb_attest x) (rq_now r) (rq_state r)).2.
Proof.
  intros Hq Hx Ej. pose proof Hx as (Hi & _). unfold submit_signed. rewrite (client_bind _ _ _ _ Hi). cbv zeta.
  case_bool_decide as Hk; [by_keeps; walk_work|]. rewrite (upd_bind _ _ _ _ _ Hi). set (s := rq_state r) in *.
  set (s1 := set_objs _ s). assert (work_rel s s1) as Hs1 by (intros Hj Hr; done). refine (work_rel_trans s s1 _ Hs1 _). clear Hs1.
  apply work_rel_intro. intros Hj Hr. change (share_input _ _ _ _ _ _) with (sb_share x). unfold get at 1. unfold mbind at 1, eff_bind at 1.
  pose proof (validate_reachable cap (pads s1) (rq_now r) (sb_share x) (proj2 (proj2 Hr))) as Hp.
  destruct (validateShare (rq_now r) (sb_share x) (pads s1)) as [v w] eqn:Ev. cbn [snd] in Hp.
  assert (work_rel s1 (set_pads w s1)) as Hs by (intros _ (R1 & R2 & _); done).
  refine (work_rel_trans s1 (set_pads w s1) _ Hs _). clear Hs.
  unfold mbind at 1, eff_bind at 1, modify at 1, lift at 1. unfold mbind at 1, eff_bind at 1.
  destruct v as [[check|reason det]|e]; [|by_keeps; walk_work|reflexivity].
  destruct (validate_work cap (pads s1) (rq_now r) (sb_share x) check w (proj2 (proj2 Hr)) Ev)
    as (b & h & pad & t & ntb & Eb & Ei & Eh & Et & Ent & Em & Ek & Eor & Ebh).
  by_keeps. apply accepted_work. exists r, x, b, h. unfold accepted_share. destruct (splitUserName (username (sb_conn x))) as [email worker].
  cbn [su_attest su_meetsShare su_assigned su_network su_blockHash su_height su_email su_worker].
  do 4 (split; [done|]). split; [split; eauto|]. split; [|done].
  unfold worth. destruct (meetsShare check); [left; split; [done|]; exists t; split; [exact Et|]; by apply Z.leb_le|].
  right. split; [done|]. exists ntb. split; [exact Ent|]. apply Z.leb_le. rewrite <- Ek. exact Eor.
Qed.

Lemma shareAttest_valid c jid en2 nt nn v a : shareAttest c jid en2 nt nn v = Ok a -> sa_result a = R_valid ->
  exists sg pk, String v = Ok sg /\ pubkey c = Some pk /\ verifyP256Digest pk (shareDigest jid en2 nt nn) (toLowerCase sg) = true /\
    a = {| sa_jobId := jid; sa_nonce := nonceHex nn; sa_pubkey := Some pk; sa_signature := Some (toLowerCase sg); sa_result := R_valid |}.
Proof.
  unfold shareAttest. destruct (nullish v || _); [by intros [= <-]|]. destruct (String v) as [sg|] eqn:Es; [|done].
  cbn [mbind res_bind]. intros [= <-]. cbn. destruct (pubkey c) as [pk|]; [|done]. destruct (verifyP256Digest _ _ _) eqn:E; [|done].
  intros _. by exists sg, pk.
Qed.

Lemma finite_parsed s : isFinite (default S754_nan (parseInt16 s)) = true -> parseInt16 s = Some (default S754_nan (parseInt16 s)).
Proof. by destruct (parseInt16 s). Qed.

Lemma onSubmit_work r : Q r -> prop_of (rq_msg r) (js "method") = Ok (JStr (js "mining.submit")) ->
  work_rel (rq_state r) (onSubmit recordSignatures (rq_conn r) (rq_msg r) (rq_now r) (rq_state r)).2.
Proof.
  intros Hq Em. unfold onSubmit. destruct (objs (rq_state r) !! rq_conn r) as [c|] eqn:Hi.
  2: { unfold client, on, mbind, eff_bind. rewrite Hi. reflexivity. }
  rewrite (client_bind _ _ _ _ Hi). case_bool_decide as Hc; cbn [negb]; [|by_keeps; walk_work]. cbv zeta.
  unfold lift. unfold mbind at 1, eff_bind at 1. destruct (iterate _) as [args|] eqn:Ea; [|reflexivity].
  unfold mbind at 1, eff_bind at 1. destruct (String (coalesce (default JUndef (args !! 1%nat)) _)) as [jid|] eqn:E1; [|reflexivity].
  unfold mbind at 1, eff_bind at 1. destruct (String (coalesce (default JUndef (args !! 2%nat)) _)) as [en2|] eqn:E2; [|reflexivity].
  unfold mbind at 1, eff_bind at 1. destruct (String (coalesce (default JUndef (args !! 3%nat)) _)) as [nts|] eqn:E3; [|reflexivity].
  unfold mbind at 1, eff_bind at 1. destruct (String (coalesce (default JUndef (args !! 4%nat)) _)) as [nns|] eqn:E4; [|reflexivity].
  destruct (_ || _) eqn:Ec; [by_keeps; walk_work|]. apply orb_false_elim in Ec as [Ec Fm]. apply orb_false_elim in Ec as [Ec Fn].
  apply orb_false_elim in Ec as [Ejid Ez]. apply bool_decide_eq_false in Ejid. apply negb_false_iff in Ez, Fn, Fm. apply Z.eqb_eq in Ez.
  apply work_rel_intro. intros Hj _. unfold get. unfold mbind at 1, eff_bind at 1.
  destruct (getById (jobs (rq_state r)) jid) as [job|] eqn:Ejob; [|by_keeps; walk_work].
  assert (jobId (ctx job) = jid) as Hid.
  { unfold getById in Ejob. destruct (map_get jid (jobsById (jobs (rq_state r)))) as [l|] eqn:El; [|done]. cbn in Ejob.
    destruct (inv_keys _ Hj _ _ (map_get_elem _ _ _ El)) as (j & Ej1 & Ej2). congruence. }
  unfold mbind at 1, eff_bind at 1. destruct (index_of _ 5) as [sigAny|] eqn:E5; [|reflexivity].
  unfold mbind at 1, eff_bind at 1. destruct (shareAttest _ _ _ _ _ _) as [a|] eqn:Esa; [|reflexivity].
  case_bool_decide as Hv; cbn [negb]; [|by_keeps; walk_work].
  destruct (shareAttest_valid _ _ _ _ _ _ _ Esa Hv) as (sg & pk & E6 & Hpk & Hver & ->).
  refine (submit_signed_work r {| sb_conn := c; sb_job := job; sb_jobId := jid; sb_en2 := toLowerCase en2; sb_ntime := _; sb_nonce := _;
    sb_key := pk; sb_sig := toLowerCase sg |} Hq _ Hid).
  do 2 (split; [done|]). split; [|done]. do 7 eexists. split; [exact Em|]. split; [reflexivity|]. split; [exact Ea|]. cbn.
  split; [exact E1|]. split; [exact E2|]. split; [done|]. split; [exact E3|]. split; [by apply finite_parsed|]. split; [exact E4|].
  split; [by apply finite_parsed|]. split; [exact E5|]. by split.
Qed.

Lemma onAttest_work i msg : keeps work_rel (onAttest i msg).
Proof.
  unfold onAttest. apply keeps_bind_lift; [exact _|]. intros sig _. cbv zeta. apply keeps_bind; [exact _|walk_work|]. intros c.
  apply keeps_bind; [exact _|walk_work|]. intros _.
  destruct (challenge c) as [ch|]; [|walk_work]. destruct (pubkey c) as [pk|]; [|walk_work].
  destruct (verifyP256Digest pk ch _) eqn:E; [|walk_work]. cbn [negb default].
  destruct (reservedSlotId c); [|walk_work]. apply await_work. split; [|done]. cbn. by exists ch, (toLowerCase sig).
Qed.
#[local] Hint Resolve onAttest_work : leaves.

Lemma handleRpc_work r : Q r -> work_rel (rq_state r) (handleRpc recordSignatures (rq_conn r) (rq_msg r) (rq_now r) (rq_state r)).2.
Proof.
  intros Hq. unfold handleRpc, try_catch. unfold lift at 1. unfold mbind at 1, eff_bind at 1.
  assert (keeps work_rel (_ ← lift (prop_of (rq_msg r) (js "method")); internal_error (rq_conn r) (msg_id (rq_msg r)))) as Hc by walk_work.
  destruct (prop_of (rq_msg r) (js "method")) as [m|e] eqn:Em; [|apply Hc].
  assert (work_rel (rq_state r) (dispatch recordSignatures (rq_conn r) (rq_msg r) m (rq_now r) (rq_state r)).2) as Hd.
  { unfold dispatch. cbv zeta. repeat match goal with |- work_rel _ ((if ?b then _ else _) _).2 => destruct b eqn:? end.
    all: try (by_keeps; unfold onSubscribe, onAuthorize, onPubkey, suggest_difficulty; cbv zeta; by walk_work).
    apply onSubmit_work; [done|]. destruct m; try done. rewrite Em. do 2 f_equal. by eapply bool_decide_eq_true. }
  destruct (dispatch _ _ _ _ _ _) as [[u|e] s']; [exact Hd|]. eapply work_rel_trans; [exact Hd|]. apply Hc.
Qed.

Lemma handled_work r : Q r -> work_rel (rq_state r) (handled recordSignatures r).
Proof.
  intros Hq. unfold handled, detached, try_catch. pose proof (handleRpc_work r Hq) as Hd. destruct (handleRpc _ _ _ _ _) as [[u|e] s']; [exact Hd|].
  eapply work_rel_trans; [exact Hd|]. by apply modify_work.
Qed.

Lemma data_loop_work fuel i now s : Forall Q (data_requests recordSignatures fuel i now s) ->
  work_rel s (data_loop recordSignatures fuel i now s).2.
Proof.
  revert s. induction fuel as [|fuel IH]; intros s; [reflexivity|]. cbn [data_loop data_requests].
  destruct (objs s !! i) as [c|] eqn:Hi; [|intros _; unfold client, on, mbind, eff_bind; rewrite Hi; reflexivity].
  rewrite (client_bind _ _ _ _ Hi). cbv zeta. destruct (_ <? 0); [reflexivity|]. rewrite (upd_bind _ _ _ _ _ Hi).
  set (s1 := set_objs _ s). assert (work_rel s s1) as Hs by (intros ? ?; done).
  case_bool_decide; [intros Hq; refine (work_rel_trans _ _ _ Hs _); by apply IH|].
  destruct (JSON_parse _) as [m|]; [|intros Hq; refine (work_rel_trans _ _ _ Hs _); by apply IH].
  intros [Hq Hqs]%Forall_cons. refine (work_rel_trans _ _ _ Hs _). unfold mbind at 1, eff_bind at 1. rewrite detached_ok.
  refine (work_rel_trans _ _ _ (handled_work _ Hq) _). by apply IH.
Qed.

Lemma onData_work i chunk now s : crashed s = false -> open i s = true -> Forall Q (step_requests recordSignatures (EvData i chunk now) s) ->
  work_rel s (onData recordSignatures i chunk now s).2.
Proof.
  intros Hc. unfold open, onData. cbn [step_requests]. rewrite Hc. destruct (objs s !! i) as [c|] eqn:Hi; [|done].
  destruct (destroyed c); [done|]. intros _. cbn [orb]. rewrite (upd_bind _ _ _ _ _ Hi), (client_bind _ _ _ _ (on_lookup _ _ _ _ Hi)). cbn [buf set_buf].
  set (s1 := set_objs _ s). assert (work_rel s s1) as Hs by (intros ? ?; done). intros Hq. refine (work_rel_trans _ _ _ Hs _).
  destruct (_ <? _); [apply on_work|]. by apply data_loop_work.
Qed.
Lemma retune_work now : keeps work_rel (retune_tick cfg now).
Proof. unfold retune_tick. cbv zeta. walk_work. Qed.
Lemma onClose_work i : keeps work_rel (onClose i).
Proof. unfold onClose. cbv zeta. walk_work. Qed.
Lemma timeout_work i : keeps work_rel (subscribe_timeout (T := T) i).
Proof. unfold subscribe_timeout. walk_work. Qed.
Lemma slotAdded_work u : keeps work_rel (slotAdded u).
Proof. unfold slotAdded. cbv zeta. walk_work. Qed.
Lemma broadcast_work l : keeps work_rel (broadcastJob l).
Proof. unfold broadcastJob. cbv zeta. walk_work. Qed.

Lemma resume_cont_work k a now rnd : (match k with KSubmit _ _ d => backed d | _ => True end) ->
  keeps work_rel (resume_cont cfg k a now rnd).
Proof.
  intros Hk. unfold resume_cont, detached, afterFindUser, afterFindSlot, afterReserve, afterLock, afterSubmitBlock, afterSlotAdded,
    push_current, take_slot. cbv zeta. destruct k; walk_work.
Qed.

Abbreviation step := (step cfg recordSignatures payoutAddress).
Abbreviation run := (run cfg recordSignatures payoutAddress).

Definition work_inv (s : server) : Prop := rest_ok s /\ (crashed s = false -> jm_inv (jobs s)).

Lemma work_rel_inv s s' : crashed s = false -> work_inv s -> work_rel s s' -> work_inv s'.
Proof.
  intros Hc [Hr Hj] Hw. destruct (Hw (Hj Hc) Hr) as (E & C & R). split; [done|]. intros Hc'. rewrite E. auto.
Qed.

Lemma resume_inv k now rnd s : crashed s = false -> work_inv s -> work_inv (resume cfg k now rnd s).2.
Proof.
  intros Hc Hi. unfold resume. eff_simpl. destruct (tasks s !! k) as [[c [a|] kont]|] eqn:Ek; [|done..].
  apply (work_rel_inv (set_tasks (delete k (tasks s)) s)); [done| |].
  - destruct Hi as [(R1 & R2 & R3) Hj]. split; [|done]. split; [|done]. cbn. by apply Forall_delete.
  - apply resume_cont_work. destruct Hi as [(R1 & _) _]. rewrite Forall_lookup in R1. apply (R1 _ _ Ek).
Qed.

Lemma execute_inv k ok block s : work_inv s -> work_inv (execute k ok block s).
Proof.
  intros Hi. unfold execute. destruct (tasks s !! k) as [[c [a|] kont]|] eqn:Ek; [done| |done].
  pose proof (run_call_fields c ok block s) as (_ & _ & E1 & E2 & E3 & E4 & E5).
  destruct (run_call c ok block s) as [x s']. cbn [snd] in *. destruct Hi as [(R1 & R2 & R3) Hj].
  unfold work_inv, rest_ok. cbn. rewrite E1, E2, E3, E4, E5. split; [|done]. split; [|done].
  apply Forall_insert; [done|]. rewrite Forall_lookup in R1. apply (R1 _ _ Ek).
Qed.

Lemma poll_inv tpl s : crashed s = false -> work_inv s -> work_inv (detached (on_poll payoutAddress tpl) s).2.
Proof.
  intros Hc [Hr Hj]. specialize (Hj Hc). unfold detached, try_catch, on_poll. eff_simpl.
  destruct (poll payoutAddress tpl (jobs s)) as [[m evs] e] eqn:Ep.
  set (s1 := set_jobs m s). match goal with |- context [for_each ?f _ _] => set (each := f) end.
  assert (keeps work_rel (for_each each evs)) as Hk by (apply keeps_for_each; [exact _..|]; intros []; [intros s'; reflexivity|apply broadcast_work]).
  assert (rest_ok s1) as Hr1 by exact Hr.
  assert (forall s2, rest_ok s2 -> jm_inv (jobs s2) \/ crashed s2 = true -> work_inv s2) as Hin.
  { intros s2 ? [?|?]; split; auto; congruence. }
  destruct e as [e|].
  - (* the exception of [poll] comes without events *)
    assert (evs = []) as ->.
    { revert Ep. unfold poll, poll_new. destruct tpl as [t|]; [|congruence]. destruct (_ && _); [congruence|].
      destruct (currentJob _); [destruct (negb _ && _); [congruence|]|]; destruct (buildJob _ _ _ _) as [[]|]; congruence. }
    cbn. apply Hin; [exact Hr|by right].
  - assert (jm_inv m) as Hm.
    { destruct tpl as [t|]; [by destruct (poll_spec _ _ _ _ _ Hj Ep)|]. cbn in Ep. by injection Ep as <- <-. }
    destruct (Hk s1 Hm Hr1) as (E & C & R). destruct (for_each each evs s1) as [[u|err] s2]; cbn [snd] in *.
    + apply Hin; [exact R|left]. rewrite E. exact Hm.
    + apply Hin; [exact R|by right].
Qed.

Lemma step_work e s : Forall Q (step_requests recordSignatures e s) -> work_inv s -> work_inv (step e s).
Proof.
  intros Hq Hi. unfold StratumServer.step. destruct (crashed s) eqn:Hc; [done|]. destruct e.
  - unfold onConnection. eff_simpl. by destruct (allocExtranonce1Hex _).
  - destruct (open i s) eqn:Ho; [|done]. eapply work_rel_inv; [done..|]. by apply onData_work.
  - destruct (bool_decide _); [|done]. eapply work_rel_inv; [done..|]. apply onClose_work.
  - eapply work_rel_inv; [done..|]. apply timeout_work.
  - eapply work_rel_inv; [done..|]. apply retune_work.
  - by apply poll_inv.
  - eapply work_rel_inv; [done..|]. apply slotAdded_work.
  - exact Hi.
  - by apply execute_inv.
  - by apply resume_inv.
Qed.

Lemma run_work es s : Forall Q (requests cfg recordSignatures payoutAddress es s) -> work_inv s -> work_inv (run es s).
Proof. revert s. induction es as [|e es IH]; intros s; [done|]. cbn. intros [H1' H2']%Forall_app Hs. by apply IH, step_work. Qed.

Lemma init_work t w : reachable cap w -> work_inv (init_server t w).
Proof. intros Hw. split; [split; [constructor|split; [constructor|done]]|]. intros _. apply jm_init_inv. Qed.
End Backed.

Abbreviation step := (step cfg recordSignatures payoutAddress).
Abbreviation run := (run cfg recordSignatures payoutAddress).
Abbreviation requests := (requests cfg recordSignatures payoutAddress).

(** C1: nothing is credited without work and a signature.  In every run of the server, with
    its connections, requests, jobs and database answers in any order, every share event
    sent to the pool daemon comes from a request that the run handled: a [mining.submit] of
    an authorized connection for a job the server knew, not a remembered one, signed with
    the key that this connection had announced.  The header made of the template of that
    job, the extranonce of that connection and the extranonce, time and nonce of that
    request is hashed by the node to a value that reaches the target of the credited
    difficulty, which is the one this connection was given for the job or, when the hash
    reaches the network target, the network difficulty.  The event names the user and the
    worker of the connection and carries its signature; a share reported as a block carries
    the hash of that header and the height of the job. *)
Theorem credited_shares es t w e :
  reachable cap w -> IpcShare e ∈ ipc (run es (init_server t w)) ->
  exists r x b h, r ∈ requests es (init_server t w) /\ submission_of r x /\ (sb_dedup x ∉ seenShares (sb_conn x)) /\
    jobId (ctx (sb_job x)) = sb_jobId x /\
    node_hash (sb_share x) b h /\ worth (sb_share x) h (se_diff e) /\ se_attest e = Some (sb_attest x) /\
    (se_user e, se_workerName e) = splitUserName (username (sb_conn x)) /\
    (se_isBlock e = true -> se_blockHeight e = Some (jc_height (ctx (sb_job x))) /\
       se_blockHash e = Some (bytesToHex (reverseBytes (doubleSha256 (b_header b))))).
Proof.
  intros Hw He. set (Q := fun r => r ∈ requests es (init_server t w)).
  assert (Forall Q (requests es (init_server t w))) as HQ by (apply list.Forall_forall; auto).
  destruct (run_work Q es _ HQ (init_work Q t w Hw)) as [(_ & R2 & _) _]. rewrite list.Forall_forall in R2.
  destruct (R2 _ He) as (d & acc & (r & x & b & h & Hr & Hx & Hk & Hj & Hn & Hwo & Ea & Eu & Eb & Eh) & -> & -> & -> & -> & -> & ->).
  exists r, x, b, h. rewrite Ea. do 8 (split; [done|]). destruct acc; [|done]. intros _. by rewrite Eb, Eh.
Qed.

(** ** Duplicates that are not recognised *)
Definition with_nonce (s : ShareInput) (n : jsnum) : ShareInput := {|
  si_job := si_job s; extranonce1Hex := extranonce1Hex s; extranonce2Hex := extranonce2Hex s; si_ntime := si_ntime s;
  si_nonce := n; shareDifficulty := shareDifficulty s |}.

Lemma buildHeader_nonce s n n' : uint32LE (num_trunc n) = uint32LE (num_trunc n') ->
  buildHeader (with_nonce s n) = buildHeader (with_nonce s n').
Proof.
  intros E. unfold buildHeader, with_nonce. cbn [si_job extranonce1Hex extranonce2Hex si_ntime si_nonce].
  do 7 (apply res_bind_ext; intros ?). unfold serializeHeader. cbn [prevHashHexBE merkleRootHexBE version ntime bits nonce]. by rewrite E.
Qed.

(** The duplicate check can be bypassed.  The nonce is read as a number of any size and
    the key of the duplicate check is that number, but only its low 32 bits reach the
    header and the signed digest: the nonces [00000001] and [100000001] have different
    keys, the same digest, so the same signature is valid for both, and every share gets
    the same verdict with either. *)
Theorem dedup_wraparound s jid en2 ntime :
  exists n n', parseInt16 (js "00000001") = Some n /\ parseInt16 (js "100000001") = Some n' /\
    dedupKey jid en2 ntime n <> dedupKey jid en2 ntime n' /\
    shareDigest jid en2 ntime n = shareDigest jid en2 ntime n' /\
    forall now now' w w', reachable cap w -> reachable cap w' ->
      (validateShare now (with_nonce s n) w).1 = (validateShare now' (with_nonce s n') w').1.
Proof.
  exists (num_of_Z 1), (num_of_Z (2 ^ 32 + 1)). split; [by vm_compute|]. split; [by vm_compute|]. split; [|split].
  - unfold dedupKey. intros E. do 6 apply app_inv_head in E. revert E. vm_compute. discriminate.
  - unfold shareDigest. change (hex8 (num_of_Z (2 ^ 32 + 1))) with (hex8 (num_of_Z 1)). done.
  - intros now now' w w' Hw Hw'.
    assert (buildHeader (with_nonce s (num_of_Z 1)) = buildHeader (with_nonce s (num_of_Z (2 ^ 32 + 1)))) as E
      by (apply buildHeader_nonce; by vm_compute).
    destruct (buildHeader (with_nonce s (num_of_Z (2 ^ 32 + 1)))) as [b|e] eqn:Eb; [|unfold validateShare; by rewrite E, Eb].
    destruct (validate_run cap w now _ b Hw E) as (h & pad & w1 & Ei & Eh & _ & _ & ->).
    destruct (validate_run cap w' now' _ b Hw' Eb) as (h' & pad' & w2 & Ei' & Eh' & _ & _ & ->).
    assert (pad' = pad) as -> by congruence. assert (h' = h) as -> by (specialize (Eh (fun _ => 0)); specialize (Eh' (fun _ => 0)); congruence).
    done.
Qed.

(** ** Which device slots get bound *)
Section Slots.
Context `{!PassportStoreOk T}.

(** From [l] to [l']: bound slots stay, and a slot that is bound anew is bound to a key
    whose holder signed a challenge. *)
Definition slots_grow (l l' : list PassportSlot) : Prop :=
  extends l l' /\ forall s pk, s ∈ l' -> slot_pubkey s = Some pk -> s ∈ l \/ proved pk.

Lemma slots_grow_refl l : slots_grow l l.
Proof. split; [by intros s k|]. auto. Qed.
Lemma slots_grow_trans l1 l2 l3 : slots_grow l1 l2 -> slots_grow l2 l3 -> slots_grow l1 l3.
Proof.
  intros [E1 P1] [E2 P2]. split; [intros s k Hs Hk; eapply E2; [by eapply E1|done]|].
  intros s pk Hs Hk. destruct (P2 s pk Hs Hk) as [Hs2|]; [|auto]. auto.
Qed.

Lemma any_request l : Forall (fun _ : request (T := T) => True) l.
Proof. by apply list.Forall_forall. Qed.

Lemma execute_slots k ok block s : work_inv (fun _ => True) s -> store_ok (store s) ->
  store_ok (store (execute k ok block s)) /\ slots_grow (slots_of (store s)) (slots_of (store (execute k ok block s))).
Proof.
  intros [(R1 & _) _] Hs. unfold execute. destruct (tasks s !! k) as [[c [a|] kont]|] eqn:Ek; [split; [done|apply slots_grow_refl]..| |split; [done|apply slots_grow_refl]].
  rewrite Forall_lookup in R1. destruct (R1 _ _ Ek) as [Hp _]. cbn in Hp. clear R1.
  unfold run_call. destruct ok; [|split; [done|apply slots_grow_refl]]. cbn [negb].
  destruct c; cbn; try (split; [done|apply slots_grow_refl]).
  - destruct (reserve_query _ _ _). split; [done|apply slots_grow_refl].
  - destruct (lock (store s) slotId pubkey) as [[[] t]|e] eqn:El; cbn; [|apply lock_false in El as ->; split; [done|apply slots_grow_refl]|split; [done|apply slots_grow_refl]].
    destruct (lock_true _ _ _ _ Hs El) as (Hok & -> & Hex). split; [done|]. split.
    + apply bind_slot_extends; [by apply store_ok_slots|done].
    + intros x pk Hx Hk. apply list_elem_of_fmap in Hx as (y & -> & Hy). unfold bind_slot in *.
      destruct (slot_id y =? slotId); [right; cbn in Hk; congruence|by left].
Qed.

Lemma step_slots e s : work_inv (fun _ => True) s -> store_ok (store s) ->
  store_ok (store (step e s)) /\ slots_grow (slots_of (store s)) (slots_of (store (step e s))).
Proof.
  intros Hw Hs. assert (forall s', store s' = store s -> store_ok (store s') /\ slots_grow (slots_of (store s)) (slots_of (store s'))) as Hsame.
  { intros s' ->. split; [done|apply slots_grow_refl]. }
  pose proof (step_rel cfg recordSignatures payoutAddress true e s) as Hr.
  destruct e; try (apply Hsame, Hr); clear Hr; unfold StratumServer.step; destruct (crashed s); try (by apply Hsame).
  - cbn. destruct (addEmpty (store s) user) as [x t] eqn:E. destruct (addEmpty_spec _ _ _ _ Hs E) as (Hok & El & _ & En & _).
    cbn. rewrite El. split; [done|]. split; [intros y k Hy _; apply elem_of_app; by left|].
    intros y pk Hy Hk. apply elem_of_app in Hy as [Hy|Hy]; [by left|]. apply list_elem_of_singleton in Hy as ->. congruence.
  - by apply execute_slots.
Qed.

Lemma run_slots es s : work_inv (fun _ => True) s -> store_ok (store s) ->
  store_ok (store (run es s)) /\ slots_grow (slots_of (store s)) (slots_of (store (run es s))).
Proof.
  revert s. induction es as [|e es IH]; intros s Hw Hs; [split; [done|apply slots_grow_refl]|].
  destruct (step_slots e s Hw Hs) as [H1' G1]. destruct (IH _ (step_work _ e s (any_request _) Hw) H1') as [H2' G2].
  split; [done|]. by eapply slots_grow_trans.
Qed.

(** C22: device slots are bound once, to one device each.  For any store that keeps the
    promises of [PassportStore] and in every run of the server, however the handlers
    interleave: two slots never carry the same key, a bound slot keeps its key for good,
    and every slot bound during the run is bound to a key that verified a signature. *)
Theorem slots_bound_once es1 es2 t w : reachable cap w -> store_ok t ->
  let s1 := run es1 (init_server t w) in
  let s2 := run es2 s1 in
  slots_ok (slots_of (store s2)) /\ extends (slots_of (store s1)) (slots_of (store s2)) /\
  forall s pk, s ∈ slots_of (store s2) -> slot_pubkey s = Some pk -> s ∈ slots_of t \/ proved pk.
Proof.
  intros Hw Ht s1 s2. pose proof (init_work (fun _ => True) t w Hw) as Hi. destruct (run_slots es1 _ Hi Ht) as [O1 G1].
  destruct (run_slots es2 s1 (run_work _ es1 _ (any_request _) Hi) O1) as [O2 G2]. split; [by apply store_ok_slots|].
  split; [apply G2|]. exact (proj2 (slots_grow_trans _ _ _ G1 G2)).
Qed.
End Slots.
End Credit.
