(* ===== verification/StratumExamples.v ===== *)
(** * The Stratum V1 server: runs

    Concrete runs of the server with the in-memory slot store: the witnesses of the
    theorems of [StratumProofs], and two runs in which slots are handled wrongly. *)

From S2P Require Import Prelude JsString JsMap JsNumber JsRound JsFormat Effects Json Header Address Node Difficulty.
From S2P Require Import Vardiff JobManager B3Pow PadCache ShareValidator Passports Ipc StratumClient StratumServer.
From S2P Require Import StratumRequests StratumProofs.

(** A signature scheme for the examples: the signature of anything is the key. *)
#[local] Instance example_p256 : P256 := fun key _ sig => Ok (bool_decide (sig = key)).
#[local] Instance ex_sha : Sha256 := example_digest.
#[local] Instance ex_sha_ok : Sha256Ok := example_digest_ok.
#[local] Instance ex_blake : Blake3 := example_stream.
#[local] Instance ex_blake_ok : Blake3Ok := example_stream_ok.

Definition example_config : StratumConfig := {|
  defaultDifficulty := num_of_Z 1024; minDifficulty := MIN_SHARE_DIFFICULTY; maxDifficulty := num_of_Z 16000000;
  vardiffEnabled := false; vardiffTargetSeconds := num_of_Z 600; vardiffRetuneSeconds := num_of_Z 30; workerDifficulty := [] |}.

(** One line: a request with string parameters. *)
Definition quoted (s : jsstr) : jsstr := [34] ++ s ++ [34].
Fixpoint comma (l : list jsstr) : jsstr :=
  match l with [] => [] | [x] => x | x :: l => x ++ js "," ++ comma l end.
Definition request_text (method : string) (params : list jsstr) : jsstr :=
  js "{" ++ quoted (js "id") ++ js ":1," ++ quoted (js "method") ++ js ":" ++ quoted (js method) ++ js "," ++
  quoted (js "params") ++ js ":[" ++ comma (quoted <$> params) ++ js "]}".
Definition request (method : string) (params : list jsstr) : jsstr := request_text method params ++ [10].

Definition key_a : jsstr := replicate 128 97.
Definition key_b : jsstr := replicate 128 98.

Definition store_with (slots : list PassportSlot) : MemoryPassportStore :=
  {| m_users := [(js "alice", 1)]; m_slots := slots; nextId := 2 |}.
Definition one_slot (pk : option jsstr) : list PassportSlot := [{| slot_id := 1; slot_user := 1; slotNo := 1; slot_pubkey := pk |}].

Abbreviation example_run := (run example_config false example_address).

(** Connect, authorize as the user of the store, and wait for the user id. *)
Definition login : list (event (T := MemoryPassportStore)) :=
  [EvConnect (js "10.0.0.1") 1000; EvData 0 (request "mining.authorize" [js "alice.rig"]) 1001;
   EvExecute 0 true (AUser None); EvResume 0 1002 []].

(** A key that has no slot is attested with the challenge that was sent for another key. *)
Definition two_keys : list (event (T := MemoryPassportStore)) := login ++
  [EvData 0 (request "mining.pubkey" [key_a]) 1003; EvExecute 0 true (AUser None); EvResume 0 1004 (zeros 32);
   EvData 0 (request "mining.pubkey" [key_b]) 1005; EvExecute 0 true (AUser None); EvResume 0 1006 (zeros 32);
   EvExecute 0 true (AUser None); EvResume 0 1007 (zeros 32);
   EvData 0 (request "mining.attest" [key_b]) 1008].

(** Attestation does not need a slot.  A connection whose account has one slot, bound to
    one key, gets a challenge for that key, then announces another key, for which there is
    no slot, and signs the old challenge with it: the server reports the connection as
    attested although no slot has its key. *)
Theorem attested_without_slot :
  let s := example_run two_keys (init_server (store_with (one_slot (Some key_a))) empty_cache) in
  exists c, objs s !! 0%nat = Some c /\ attest c = Att_valid /\ pubkey c = Some key_b /\
    slots_of (store s) = one_slot (Some key_a).
Proof. cbv zeta. eexists. split; [vm_compute; reflexivity|]. by vm_compute. Qed.

(** The connection closes while its slot is being reserved: the slot stays held, with no
    connection to release it. *)
Definition close_early : list (event (T := MemoryPassportStore)) := login ++
  [EvData 0 (request "mining.pubkey" [key_a]) 1003; EvExecute 0 true (AUser None); EvResume 0 1004 (zeros 32);
   EvClose 0; EvExecute 0 true (AUser None); EvResume 0 1005 (zeros 32)].

Example held_slot_leak :
  let s := example_run close_early (init_server (store_with (one_slot None)) empty_cache) in
  clients s = [] /\ tasks s = [] /\ heldSlots s = [1] /\
  fst (reserve_query (store s) (Some 1) (heldSlots s)) = None.
Proof. by vm_compute. Qed.

(** ** Witnesses *)

(** A template every hash is a block for. *)
Definition easy_template : BlockTemplate := {|
  bt_version := 536870912; previousblockhash := replicate 64 49; transactions := [];
  coinbasevalue := 5000000000; bt_target := replicate 64 102; mintime := 1700000000; curtime := 1700000600;
  bt_bits := js "1f00ffff"; bt_height := 1000; default_witness_commitment := None |}.

(** A job, a connection that is authorized and has announced its key. *)
Definition ready : list (event (T := MemoryPassportStore)) :=
  [EvPoll (Some easy_template)] ++ login ++ [EvData 0 (request "mining.pubkey" [key_a]) 1003].
Definition ready_start : server (T := MemoryPassportStore) := init_server (store_with (one_slot None)) empty_cache.
Definition ready_server : server (T := MemoryPassportStore) := Eval vm_compute in example_run ready ready_start.
Lemma ready_run : example_run ready ready_start = ready_server.
Proof. vm_compute. reflexivity. Qed.

Definition ready_client : StratumClient :=
  match objs ready_server !! 0%nat with Some c => c | None => new_StratumClient example_config 0 [] [] 0 end.
Definition ready_job : StratumJob := match heap (jobs ready_server) !! 0%nat with Some j => j | None => example_job end.
Definition ready_assigned : jsnum := default n0 (map_get (js "0000001") (jobShareDiff ready_client)).
Definition ready_input : ShareInput :=
  share_input ready_client (ctx ready_job) (js "0000002a") (num_of_Z 1700000600) (num_of_Z 7) ready_assigned.

Definition ready_built : Built := Eval vm_compute in
  match buildHeader ready_input with Ok b => b | Throw _ => example_built end.
Lemma ready_header : buildHeader ready_input = Ok ready_built.
Proof. vm_compute. reflexivity. Qed.

Lemma empty_cache_reachable : reachable 8 empty_cache.
Proof. apply (reach_new 8). reflexivity. Qed.

(** The share is accepted and is a block, whatever its hash is. *)
Lemma ready_share : exists r w x hex, validateShare 1004 ready_input (pads ready_server) = (Ok (ShareOk r), w) /\
  isBlock r = true /\ serializedBlockHex r = Some (x :: hex).
Proof.
  destruct (targetFromShareDifficulty (shareDifficulty ready_input)) as [t|] eqn:Et; [|vm_compute in Et; discriminate Et].
  destruct (validate_easy 8 (pads ready_server) 1004 ready_input ready_built t empty_cache_reachable ready_header)
    as (r & w & hex & Ev & Ek & Eh & Es); [vm_compute; reflexivity|vm_compute; reflexivity|exact Et|].
  vm_compute in Es. injection Es as <-. do 4 eexists. split; [exact Ev|]. split; [exact Ek|exact Eh].
Qed.

Definition submit_params : list jsstr := [js "alice.rig"; js "0000001"; js "0000002a"; js "6553f358"; js "00000007"; key_a].
Definition ready_msg : jval :=
  submit_request (JNum n1) (js "alice.rig") (js "0000001") (js "0000002a") (js "6553f358") (js "00000007") key_a.
Definition ready_attest : ShareAttest := valid_attest (js "0000001") key_a key_a (num_of_Z 7).

Definition ready_request : StratumRequests.request (T := MemoryPassportStore) := {| rq_conn := 0; rq_msg := ready_msg; rq_now := 1004; rq_state := ready_server |}.
Definition ready_submission (c : StratumClient) : submission := {|
  sb_conn := c; sb_job := ready_job; sb_jobId := js "0000001"; sb_en2 := js "0000002a"; sb_ntime := num_of_Z 1700000600;
  sb_nonce := num_of_Z 7; sb_key := key_a; sb_sig := key_a |}.

(** The request is a submission in every state with that job and connection. *)
Lemma submits_share (s : server (T := MemoryPassportStore)) c now : objs s !! 0%nat = Some c -> cstate c = St_authorized -> pubkey c = Some key_a ->
  jobs s = jobs ready_server ->
  submission_of {| rq_conn := 0; rq_msg := ready_msg; rq_now := now; rq_state := s |} (ready_submission c).
Proof.
  intros Hi Hs Hk Hj. apply (submit_reaches s 0 c (JNum n1) (js "alice.rig") (js "0000001") (js "0000002a") (js "6553f358") (js "00000007") key_a).
  1: exact Hi. 1: exact Hs. 1: exact Hk. 1: discriminate. 1, 2, 3, 4, 5: vm_compute; reflexivity. 2: vm_compute; reflexivity.
  rewrite Hj. vm_compute. reflexivity.
Qed.

(** The share goes to the node as a block, and what is left to do is report it. *)
Lemma ready_handled : exists c' r hex, objs (handled false ready_request) !! 0%nat = Some c' /\
  same_worker ready_server (handled false ready_request) ready_client c' /\
  tasks (handled false ready_request) !! 1%nat = Some {| t_call := CSubmitBlock hex; t_answer := None;
    t_cont := KSubmit 0 (JNum n1) (accepted_share ready_client (ctx ready_job) ready_assigned r ready_attest) |} /\
  ipc (handled false ready_request) = [].
Proof.
  destruct ready_share as (r & w & x & hex & Ev & Ek & Eh).
  destruct (submit_signed_ok false ready_server 0 ready_client (JNum n1) ready_job (js "0000001") (js "0000002a") (num_of_Z 1700000600)
    (num_of_Z 7) ready_attest 1004 r w eq_refl) as (s' & c' & E & L & W & _ & _ & _ & D).
  { apply not_elem_of_nil. }
  { exact Ev. }
  rewrite Ek, Eh in D. destruct D as [Di Dt].
  assert (handled false ready_request = s') as ->.
  { exact (handled_submission false ready_request (ready_submission ready_client) s'
      (submits_share ready_server ready_client 1004 eq_refl eq_refl eq_refl eq_refl) E). }
  exists c', r, (x :: hex). split; [exact L|]. split; [exact W|]. rewrite Dt, Di. split; vm_compute; reflexivity.
Qed.

(** The line with the request, on a connection that has nothing pending. *)
Lemma submit_step (s : server (T := MemoryPassportStore)) c now :
  let r := {| rq_conn := 0; rq_msg := ready_msg; rq_now := now; rq_state := s |} in
  crashed s = false -> objs s !! 0%nat = Some c -> destroyed c = false -> buf c = [] ->
  (forall c', objs (handled false r) !! 0%nat = Some c' -> buf c' = [] ->
     step example_config false example_address (EvData 0 (request "mining.submit" submit_params) now) s = handled false r /\
     step_requests false (EvData 0 (request "mining.submit" submit_params) now) s = [r]) /\
  exists rs, step_requests false (EvData 0 (request "mining.submit" submit_params) now) s = r :: rs.
Proof.
  intros r Hc Hi Hd Hb.
  destruct (step_line example_config false example_address s 0 c (request_text "mining.submit" submit_params) ready_msg now Hc Hi Hd Hb) as [E1 E2].
  1, 2, 3, 4: vm_compute; (reflexivity || discriminate).
  fold r in E1, E2. split; [|exact (ex_intro _ _ E2)]. intros c' Hi' Hb'. unfold request.
  rewrite E1, E2, (data_loop_done _ _ _ c' _ _ Hi' Hb'). split; [reflexivity|]. f_equal.
  cbn [data_requests]. rewrite Hi', Hb'. reflexivity.
Qed.

Definition submit_again (now : Z) : event (T := MemoryPassportStore) := EvData 0 (request "mining.submit" submit_params) now.

Definition block_found : list (event (T := MemoryPassportStore)) := ready ++ [submit_again 1004; EvExecute 1 true (ABlock None); EvResume 1 1005 []].

Lemma block_reported : exists e, IpcShare e ∈ ipc (example_run block_found ready_start) /\ se_user e = js "alice".
Proof.
  destruct ready_handled as (c' & r & hex & L & (_ & C & B & _) & T1 & I1).
  set (d := accepted_share ready_client (ctx ready_job) ready_assigned r ready_attest) in T1.
  destruct (proj1 (submit_step ready_server ready_client 1004 eq_refl eq_refl eq_refl eq_refl) c' L) as [E _]; [by rewrite B|].
  exists (share_event d true 1005). split.
  - unfold block_found, run. rewrite foldl_app. change (foldl _ ready_start ready) with (example_run ready ready_start). rewrite ready_run.
    cbn [foldl]. unfold submit_again. rewrite E. fold ready_request. clear E L B. revert C T1 I1.
    generalize (handled false ready_request). intros s' C T1 I1. change (crashed ready_server) with false in C. unfold step at 2. rewrite C. unfold execute. rewrite T1. cbn [run_call negb].
    unfold step, resume. cbn [crashed set_tasks]. rewrite C. eff_simpl. cbn [tasks set_tasks].
    rewrite list_lookup_insert_eq by (by eapply lookup_lt_Some). cbn. rewrite I1. left.
  - reflexivity.
Qed.

Lemma credited_shares_witness : exists e r x, IpcShare e ∈ ipc (example_run block_found ready_start) /\ se_user e = js "alice" /\ submission_of r x /\
  r ∈ requests example_config false example_address block_found ready_start /\ se_attest e = Some (sb_attest x).
Proof.
  destruct block_reported as (e & He & Hu).
  destruct (credited_shares example_config false example_address 8 block_found (store_with (one_slot None)) empty_cache e
    empty_cache_reachable He) as (r & x & b & h & H1 & H2 & _ & _ & _ & _ & H3 & _).
  exists e, r, x. split; [exact He|]. split; [exact Hu|]. split; [exact H2|]. split; [exact H1|exact H3].
Defined.

(** The same share twice. *)
Definition submitted_twice : list (event (T := MemoryPassportStore)) := ready ++ [submit_again 1004; submit_again 1005].

Lemma twice_requests : exists c, objs (handled false ready_request) !! 0%nat = Some c /\
  same_worker ready_server (handled false ready_request) ready_client c /\
  exists rs, requests example_config false example_address submitted_twice ready_start =
    requests example_config false example_address ready ready_start ++ ready_request :: [] ++
    {| rq_conn := 0; rq_msg := ready_msg; rq_now := 1005; rq_state := handled false ready_request |} :: rs.
Proof.
  destruct ready_handled as (c & r & hex & L & W & _). exists c. split; [exact L|]. split; [exact W|]. destruct W as (_ & C & B & _ & _ & D).
  destruct (proj1 (submit_step ready_server ready_client 1004 eq_refl eq_refl eq_refl eq_refl) c L) as [E1 R1]; [by rewrite B|].
  change (crashed ready_server) with false in C. change (destroyed ready_client) with false in D. change (buf ready_client) with (@nil Z) in B.
  destruct (proj2 (submit_step (handled false ready_request) c 1005 C L D B)) as [rs R2].
  exists (rs ++ []). unfold submitted_twice. rewrite requests_app, ready_run. apply (f_equal (app _)). cbn [requests]. unfold submit_again. rewrite R1, E1.
  fold ready_request. rewrite R2. reflexivity.
Qed.

Lemma ready_client_at : objs (example_run ready ready_start) !! 0%nat = Some ready_client.
Proof. rewrite ready_run. vm_compute. reflexivity. Qed.

Lemma announced_difficulty_witness :
  announced (jobShareDiff ready_client) (sent ready_client) /\ jobShareDiff ready_client <> [] /\ length (sent ready_client) = 3%nat.
Proof.
  destruct (announced_difficulty example_config false example_address ready [] (store_with (one_slot None)) empty_cache 0 ready_client
    ready_client_at) as (Ha & _ & _).
  split; [exact Ha|]. split; [vm_compute; discriminate|vm_compute; reflexivity].
Defined.

Lemma extranonce1_unique_witness :
  let s := example_run [EvConnect [] 1; EvConnect [] 2] (init_server (store_with []) empty_cache) in
  exists x y, first_extranonce s 0 = Some x /\ first_extranonce s 1 = Some y /\ x <> y.
Proof.
  cbv zeta. eexists _, _. split; [reflexivity|]. split; [reflexivity|].
  refine (proj1 (extranonce1_unique example_config false example_address [EvConnect [] 1; EvConnect [] 2] (store_with []) empty_cache
    0 1 _ _ eq_refl eq_refl _ _ _)); [reflexivity|reflexivity|discriminate].
Defined.


Lemma null_request_ends_process_witness :
  crashed (step example_config false example_address (EvData 0 (js "null" ++ [10]) 1005) ready_server) = true.
Proof.
  destruct (null_request_ends_process example_config false example_address ready_server 0 ready_client) as [_ Hn];
    [vm_compute; reflexivity|]. apply Hn; vm_compute; reflexivity.
Defined.

Lemma honest_share_credited_witness : exists s' c',
  handleRpc false 0 ready_msg 1004 ready_server = (Ok tt, s') /\ objs s' !! 0%nat = Some c' /\
  sent c' = sent ready_client ++ [WResult (JNum n1) (JBool true)].
Proof.
  destruct ready_share as (r & w & x & hex & Ev & _ & _).
  destruct (honest_share_credited false ready_server 0 ready_client (JNum n1) (js "alice.rig") (js "0000001") (js "0000002a")
    (js "6553f358") (js "00000007") key_a key_a (num_of_Z 1700000600) (num_of_Z 7) ready_job r w 1004)
    as (s' & c' & E & L & _ & S & _).
  1, 2, 3, 5, 6, 7, 8, 9, 10, 11: vm_compute; reflexivity.
  - discriminate.
  - apply not_elem_of_nil.
  - exact Ev.
  - exists s', c'. split; [exact E|]. split; [exact L|]. exact S.
Defined.

Lemma dedup_wraparound_witness : exists n n', parseInt16 (js "00000001") = Some n /\ parseInt16 (js "100000001") = Some n' /\
  (validateShare 1 (with_nonce ready_input n) empty_cache).1 = (validateShare 2 (with_nonce ready_input n') empty_cache).1.
Proof.
  destruct (dedup_wraparound 8 ready_input (js "0000001") (js "0000002a") (num_of_Z 1700000600)) as (n & n' & E & E' & _ & _ & Hv).
  exists n, n'. split; [exact E|]. split; [exact E'|]. apply Hv; exact empty_cache_reachable.
Defined.

(** A slot gets bound: reserve, challenge, attest, lock. *)
Definition binding : list (event (T := MemoryPassportStore)) := login ++
  [EvData 0 (request "mining.pubkey" [key_a]) 1003; EvExecute 0 true (AUser None); EvResume 0 1004 (zeros 32);
   EvExecute 0 true (AUser None); EvResume 0 1005 (zeros 32); EvData 0 (request "mining.attest" [key_a]) 1006;
   EvExecute 0 true (AUser None); EvResume 0 1007 []].

Lemma slots_bound_once_witness :
  let s := example_run [] (example_run binding (init_server (store_with (one_slot None)) empty_cache)) in
  slots_of (store s) = one_slot (Some key_a) /\ slots_ok (slots_of (store s)).
Proof.
  cbv zeta. split; [vm_compute; reflexivity|].
  refine (proj1 (slots_bound_once example_config false example_address 8 binding [] (store_with (one_slot None)) empty_cache
    empty_cache_reachable _)).
  split; [split; [apply NoDup_singleton|constructor]|]. intros s Hs. apply list_elem_of_singleton in Hs as ->. reflexivity.
Defined.
