(* ===== verification/Sv2Template.v ===== *)
(** * Template distribution ([pool/src/sv2/tp/poller.ts], [pool/src/sv2/tp/server.ts])

    The service that polls block templates, hands them to job declaration clients as
    Stratum V2 messages, answers with the transactions of a template, and submits the
    blocks that clients solve.  The requests to the node are events of the model: a poll
    carries the template it answered, or nothing when it failed; blocks that are submitted
    are recorded, whatever the node says of them. *)

From S2P Require Import Prelude JsString JsMap JsNumber Effects Header Address Node JobManager Sv2Types Sv2Messages Sv2Channel.
Import Tp.

(** [TpTemplateBundle]. *)
Record TpTemplateBundle := {
  tb_templateId : Z; tb_height : Z; tb_bits : Z; tb_coinbaseValue : Z;
  tb_newTemplate : NewTemplate; tb_newTemplateBytes : bytes;
  tb_setNewPrevHash : SetNewPrevHashTP; tb_setNewPrevHashBytes : bytes;
  tb_transactionList : list bytes; tb_sig : jsstr
}.

(** ** Building a bundle *)

(** [scriptNumPush] of this file, which drops the sign. *)
Definition tp_scriptNumPush (n : Z) : bytes :=
  if n =? 0 then [0] else
  let b := num_bytes 5 (Z.abs n) in
  let last := List.last b 0 in
  let b := if negb (js_and last 0x80 =? 0) then b ++ [0] else b in
  zlen b mod 256 :: b.

Section Template.
Context `{Sha256}.

Definition hash_pair (left right : bytes) : res bytes :=
  buf ← ta_set (zeros 64) left 0;
  buf ← ta_set buf right 32;
  Ok (sha256 (sha256 buf)).
Definition path_entry (left right : option bytes) : res (option bytes) :=
  match left, right with
  | Some l, Some r => h ← hash_pair l r; Ok (Some h)
  | _, _ => Ok None
  end.
(** The loop [for (let i = 2; i < level.length; i += 2)], from index 2 on. *)
Fixpoint path_level (l : list (option bytes)) : res (list (option bytes)) :=
  match l with
  | [] => Ok []
  | [a] => x ← path_entry a a; Ok [x]
  | a :: b :: l => x ← path_entry a b; xs ← path_level l; Ok (x :: xs)
  end.
(** [while (level.length > 1)]; each round halves the level. *)
Fixpoint path_loop (fuel : nat) (level : list (option bytes)) (branches : list bytes) : res (list bytes) :=
  match fuel with
  | O => Ok branches
  | S fuel =>
      match level with
      | first :: sibling :: rest =>
          let branches := match sibling with Some s => branches ++ [s] | None => branches end in
          next ← path_level rest;
          path_loop fuel (None :: next) branches
      | _ => Ok branches
      end
  end.
Definition merklePathFromTxids (txidsHexBE : list jsstr) : res (list bytes) :=
  if zlen txidsHexBE =? 0 then Ok [] else
  hs ← res_map (fun h => b ← hexToBytes h; Ok (reverseBytes b)) txidsHexBE;
  path_loop (S (length txidsHexBE)) (None :: (Some <$> hs)) [].

Definition tp_tag : jsstr := js "/B3Chain Pool SV2/".
Definition coinbase_prefix (tpl : BlockTemplate) : res bytes :=
  let heightPush := tp_scriptNumPush (bt_height tpl) in
  let tag := utf8_encode tp_tag in
  tagPush ← concatBytes [[zlen tag mod 256]; tag];
  let prevout := zeros 32 ++ replicate 4 0xff in
  let scriptSigLen := zlen heightPush + 8 + zlen tagPush in
  concatBytes [uint32LE 1; [1]; prevout; varInt scriptSigLen; heightPush].
Definition tp_outputs (tpl : BlockTemplate) (spk : bytes) : res (list bytes) :=
  vout0 ← concatBytes [le_bytes 8 (coinbasevalue tpl); varInt (zlen spk); spk];
  match default_witness_commitment tpl with
  | Some (c :: wc) =>
      wcSpk ← hexToBytes (c :: wc);
      v ← concatBytes [zeros 8; varInt (zlen wcSpk); wcSpk];
      Ok [vout0; v]
  | _ => Ok [vout0]
  end.
(** The ids and the raw transactions, read in one loop. *)
Definition tx_id (tx : TemplateTx) : jsstr := default (tt_hash tx) (tt_txid tx).
Definition tx_list (tpl : BlockTemplate) : res (list bytes) := res_map (fun tx => hexToBytes (tt_data tx)) (transactions tpl).

Definition new_template (tid : Z) (tpl : BlockTemplate) (prefix : bytes) (vouts : list bytes) (outputs : bytes) (path : list bytes) : NewTemplate := {|
  nt_templateId := tid; nt_futureTemplate := false; nt_version := bt_version tpl; nt_coinbaseTxVersion := 1;
  nt_coinbasePrefix := prefix; nt_coinbaseTxInputSequence := 0xffffffff; nt_coinbaseTxValueRemaining := coinbasevalue tpl;
  nt_coinbaseTxOutputsCount := zlen vouts; nt_coinbaseTxOutputs := outputs; nt_coinbaseTxLocktime := 0;
  nt_merklePath := path |}.

Definition buildBundle (payoutAddress : jsstr) (tid : Z) (tpl : BlockTemplate) : res TpTemplateBundle :=
  match addressToScriptPubKey payoutAddress with
  | None => Throw "B3POOL_PAYOUT_ADDRESS invalid"
  | Some spk =>
      coinbasePrefix ← coinbase_prefix tpl;
      vouts ← tp_outputs tpl spk;
      coinbaseTxOutputs ← concatBytes vouts;
      transactionList ← tx_list tpl;
      merklePath ← merklePathFromTxids (tx_id <$> transactions tpl);
      let newTemplate := new_template tid tpl coinbasePrefix vouts coinbaseTxOutputs merklePath in
      prev ← hexToBytes (previousblockhash tpl);
      target ← hexToBytes (bt_target tpl);
      let bits := default 0 (parseIntHex (bt_bits tpl)) in
      let setNewPrevHash := {| snpt_templateId := tid; snpt_prevHash := reverseBytes prev; snpt_headerTimestamp := curtime tpl;
                               snpt_nbits := bits; snpt_target := reverseBytes target |} in
      newTemplateBytes ← encodeNewTemplate newTemplate;
      setNewPrevHashBytes ← encodeSetNewPrevHashTP setNewPrevHash;
      Ok {| tb_templateId := tid; tb_height := bt_height tpl; tb_bits := bits; tb_coinbaseValue := coinbasevalue tpl;
            tb_newTemplate := newTemplate; tb_newTemplateBytes := newTemplateBytes;
            tb_setNewPrevHash := setNewPrevHash; tb_setNewPrevHashBytes := setNewPrevHashBytes;
            tb_transactionList := transactionList;
            tb_sig := bytesToHex (sha256 (utf8_encode (previousblockhash tpl ++ js "|" ++ to_radix 10 (curtime tpl)))) |}
  end.

(** ** A solution *)
Definition reconstructMerkleRoot (coinbaseTx : bytes) (merklePath : list bytes) : res bytes :=
  res_foldl hash_pair (sha256 (sha256 coinbaseTx)) merklePath.

(** The block that is submitted, in hexadecimal. *)
Definition solution_block (b : TpTemplateBundle) (sol : SubmitSolutionTP) : res jsstr :=
  merkleRootLE ← reconstructMerkleRoot (sst_coinbaseTx sol) (nt_merklePath (tb_newTemplate b));
  header ← serializeHeader {|
    version := sst_version sol;
    prevHashHexBE := bytesToHex (reverseBytes (snpt_prevHash (tb_setNewPrevHash b)));
    merkleRootHexBE := bytesToHex (reverseBytes merkleRootLE);
    ntime := sst_headerTimestamp sol;
    bits := tb_bits b;
    nonce := sst_headerNonce sol |};
  let txCount := 1 + zlen (tb_transactionList b) in
  block ← concatBytes ([header; varInt txCount; sst_coinbaseTx sol] ++ tb_transactionList b);
  Ok (bytesToHex block).
End Template.

(** ** The service *)
Inductive TpState := TP_AWAIT_CODS | TP_READY | TP_DEAD.
#[global] Instance TpState_eq_dec : EqDecision TpState.
Proof. solve_decision. Defined.

Record TpConn := mkTpConn {
  tc_state : TpState;
  tc_maxSize : Z;
  tc_buf : bytes;
  tc_destroyed : bool;
  tc_written : list bytes
}.

(** One assignment to a field. *)
Definition set_tc_state (v : TpState) (c : TpConn) : TpConn :=
  mkTpConn v (tc_maxSize c) (tc_buf c) (tc_destroyed c) (tc_written c).
Definition set_tc_maxSize (v : Z) (c : TpConn) : TpConn :=
  mkTpConn (tc_state c) v (tc_buf c) (tc_destroyed c) (tc_written c).
Definition set_tc_buf (v : bytes) (c : TpConn) : TpConn :=
  mkTpConn (tc_state c) (tc_maxSize c) v (tc_destroyed c) (tc_written c).
Definition set_tc_destroyed (v : bool) (c : TpConn) : TpConn :=
  mkTpConn (tc_state c) (tc_maxSize c) (tc_buf c) v (tc_written c).
Definition set_tc_written (v : list bytes) (c : TpConn) : TpConn :=
  mkTpConn (tc_state c) (tc_maxSize c) (tc_buf c) (tc_destroyed c) v.

(** The poller, the connections that were accepted, those in [conns], and the blocks
    given to [submitBlock]. *)
Record tp := mkTp {
  templateCounter : Z;
  tp_lastSig : jsstr;
  tp_current : option TpTemplateBundle;
  templateCache : list (Z * TpTemplateBundle);
  tp_objs : list TpConn;
  tp_conns : list nat;
  tp_submitted : list jsstr;
  tp_crashed : bool
}.
Definition set_templateCounter (v : Z) (s : tp) : tp :=
  mkTp v (tp_lastSig s) (tp_current s) (templateCache s) (tp_objs s) (tp_conns s) (tp_submitted s) (tp_crashed
    s).
Definition set_tp_lastSig (v : jsstr) (s : tp) : tp :=
  mkTp (templateCounter s) v (tp_current s) (templateCache s) (tp_objs s) (tp_conns s) (tp_submitted s)
    (tp_crashed s).
Definition set_tp_current (v : option TpTemplateBundle) (s : tp) : tp :=
  mkTp (templateCounter s) (tp_lastSig s) v (templateCache s) (tp_objs s) (tp_conns s) (tp_submitted s)
    (tp_crashed s).
Definition set_templateCache (v : list (Z * TpTemplateBundle)) (s : tp) : tp :=
  mkTp (templateCounter s) (tp_lastSig s) (tp_current s) v (tp_objs s) (tp_conns s) (tp_submitted s) (tp_crashed
    s).
Definition set_tp_objs (v : list TpConn) (s : tp) : tp :=
  mkTp (templateCounter s) (tp_lastSig s) (tp_current s) (templateCache s) v (tp_conns s) (tp_submitted s)
    (tp_crashed s).
Definition set_tp_conns (v : list nat) (s : tp) : tp :=
  mkTp (templateCounter s) (tp_lastSig s) (tp_current s) (templateCache s) (tp_objs s) v (tp_submitted s)
    (tp_crashed s).
Definition set_tp_submitted (v : list jsstr) (s : tp) : tp :=
  mkTp (templateCounter s) (tp_lastSig s) (tp_current s) (templateCache s) (tp_objs s) (tp_conns s) v
    (tp_crashed s).
Definition set_tp_crashed (v : bool) (s : tp) : tp :=
  mkTp (templateCounter s) (tp_lastSig s) (tp_current s) (templateCache s) (tp_objs s) (tp_conns s)
    (tp_submitted s) v.

Section Service.
Context `{Sha256}.
Context (payoutAddress : jsstr).

Definition tp_on {A} (i : nat) (m : eff TpConn A) : eff tp A := fun s =>
  match tp_objs s !! i with
  | Some c => let '(r, c') := m c in (r, set_tp_objs (<[i := c']> (tp_objs s)) s)
  | None => (Throw "no such connection", s)
  end.
Definition tp_write (b : bytes) : eff TpConn unit :=
  modify (fun c => if tc_destroyed c then c else set_tc_written (tc_written c ++ [b]) c).

Definition sendCurrent (i : nat) (b : TpTemplateBundle) : eff tp unit :=
  _ ← tp_on i (tp_write (tb_setNewPrevHashBytes b));
  tp_on i (tp_write (tb_newTemplateBytes b)).
Definition tp_broadcast (b : TpTemplateBundle) : eff tp unit :=
  s ← get;
  for_each (fun i => c ← tp_on i get; when (bool_decide (tc_state c = TP_READY)) (sendCurrent i b)) (tp_conns s).

(** *** The poller *)
Definition tp_signature (tpl : BlockTemplate) : jsstr :=
  previousblockhash tpl ++ js "|" ++ to_radix 10 (zlen (transactions tpl)) ++ js "|" ++ to_radix 10 (curtime tpl).
Definition next_templateId (n : Z) : Z := Z.land (n + 1) 0xffffffffffffffff.
Definition trim_templates (m : list (Z * TpTemplateBundle)) : list (Z * TpTemplateBundle) := if 256 <? zlen m then tail m else m.
Definition tp_getById (templateId : Z) (s : tp) : option TpTemplateBundle := map_get templateId (templateCache s).

(** [poll] after its request; [template] is handled by [broadcast] inside it. *)
Definition tp_poll (tpl : option BlockTemplate) : eff tp unit :=
  match tpl with
  | None => mret tt
  | Some tpl =>
      s ← get;
      let sig := tp_signature tpl in
      if bool_decide (sig = tp_lastSig s) && bool_decide (is_Some (tp_current s)) then mret tt else
      _ ← modify (set_tp_lastSig sig);
      _ ← modify (fun s => set_templateCounter (next_templateId (templateCounter s)) s);
      s ← get;
      bundle ← lift (buildBundle payoutAddress (templateCounter s) tpl);
      _ ← modify (set_tp_current (Some bundle));
      _ ← modify (fun s => set_templateCache (trim_templates (map_set (tb_templateId bundle) bundle (templateCache s))) s);
      tp_broadcast bundle
  end.

(** *** Messages *)
Definition handleSolution (sol : SubmitSolutionTP) : eff tp unit :=
  s ← get;
  match tp_getById (sst_templateId sol) s with
  | None => mret tt
  | Some b => hex ← lift (solution_block b sol); modify (fun s => set_tp_submitted (tp_submitted s ++ [hex]) s)
  end.

(** A promise that nobody waits for, and an exception in an event handler, end the
    process. *)
Definition tp_detached (m : eff tp unit) : eff tp unit := try_catch m (fun _ => modify (set_tp_crashed true)).

Definition tp_dispatch (i : nat) (msgType : Z) (payload : bytes) : eff tp unit :=
  if msgType =? MSG_COINBASE_OUTPUT_DATA_SIZE then
    m ← lift (decodeCoinbaseOutputDataSize payload);
    _ ← tp_on i (modify (set_tc_maxSize (cods_coinbaseOutputMaxAdditionalSize m)));
    _ ← tp_on i (modify (set_tc_state TP_READY));
    s ← get;
    match tp_current s with Some cur => sendCurrent i cur | None => mret tt end
  else if msgType =? MSG_REQUEST_TX_DATA then
    m ← lift (decodeRequestTransactionData payload);
    s ← get;
    match tp_getById (rtd_templateId m) s with
    | None => mret tt
    | Some b =>
        wire ← lift (encodeRequestTransactionDataSuccess {| rtds_templateId := rtd_templateId m; rtds_excessData := [];
          rtds_transactionList := tb_transactionList b |});
        tp_on i (tp_write wire)
    end
  else if msgType =? MSG_SUBMIT_SOLUTION_TP then
    m ← lift (decodeSubmitSolutionTP payload);
    tp_detached (handleSolution m)
  else mret tt.

Definition tp_onData (i : nat) (chunk : bytes) : eff tp unit :=
  c ← tp_on i get;
  if bool_decide (tc_state c = TP_DEAD) then mret tt else
  merged ← lift (out ← ta_set (zeros (zlen (tc_buf c) + zlen chunk)) (tc_buf c) 0; ta_set out chunk (zlen (tc_buf c)));
  r ← lift (splitFrames merged);
  _ ← tp_on i (modify (set_tc_buf (drop (Z.to_nat (snd r)) merged)));
  for_each (fun f => tp_dispatch i (msgType (header f)) (payload f)) (fst r).

(** *** Connections *)
Definition tp_accept : eff tp unit :=
  modify (fun s => set_tp_conns (tp_conns s ++ [length (tp_objs s)])
    (set_tp_objs (tp_objs s ++ [mkTpConn TP_AWAIT_CODS 0 [] false []]) s)).
Definition tp_onClose (i : nat) : eff tp unit :=
  _ ← tp_on i (modify (set_tc_state TP_DEAD));
  _ ← tp_on i (modify (set_tc_destroyed true));
  modify (fun s => set_tp_conns (set_delete i (tp_conns s)) s).
Definition tp_close : eff tp unit :=
  s ← get; for_each (fun i => tp_on i (modify (set_tc_destroyed true))) (tp_conns s).

Inductive tp_event :=
| TpConnect
| TpData (i : nat) (chunk : bytes)
| TpClose (i : nat)
| TpPoll (tpl : option BlockTemplate).

Definition tp_open (i : nat) (s : tp) : bool := match tp_objs s !! i with Some c => negb (tc_destroyed c) | None => false end.

Definition tp_step (e : tp_event) (s : tp) : tp :=
  if tp_crashed s then s
  else match e with
  | TpConnect => snd (tp_accept s)
  | TpData i chunk => if tp_open i s then snd (tp_detached (tp_onData i chunk) s) else s
  | TpClose i => if bool_decide (i ∈ tp_conns s) then snd (tp_onClose i s) else s
  | TpPoll tpl => snd (tp_detached (tp_poll tpl) s)
  end.
Definition tp_run (es : list tp_event) (s : tp) : tp := foldl (fun s e => tp_step e s) s es.
Definition init_tp : tp := {|
  templateCounter := 0; tp_lastSig := []; tp_current := None; templateCache := []; tp_objs := []; tp_conns := [];
  tp_submitted := []; tp_crashed := false |}.
End Service.
