(* ===== verification/Sv2TemplateProofs.v ===== *)
(** * Template distribution: theorems

    What clients get and what the node gets from the service of [Sv2Template]. *)

From S2P Require Import Prelude JsString JsMap JsNumber Effects Header Address Node JobManager Sv2Types Sv2Messages Sv2Channel Sv2Template.
Import Tp.

(** ** The merkle path *)
Section Path.
Context `{Sha256Ok}.

Lemma hash_pair_ok l r : zlen l = 32 -> zlen r = 32 -> hash_pair l r = Ok (doubleSha256 (l ++ r)).
Proof.
  intros Hl Hr. unfold hash_pair. pose proof (fill_64 l r Hl Hr) as Hf.
  destruct (ta_set (zeros 64) l 0); [|done]. cbn [mbind res_bind] in *. by rewrite Hf.
Qed.

Lemma path_level_ok hs : Forall (fun h => zlen h = 32) hs ->
  path_level (Some <$> hs) = Ok (Some <$> merkle_level hs) /\ Forall (fun h => zlen h = 32) (merkle_level hs).
Proof.
  assert (forall n hs, (length hs <= n)%nat -> Forall (fun h => zlen h = 32) hs ->
    path_level (Some <$> hs) = Ok (Some <$> merkle_level hs) /\ Forall (fun h => zlen h = 32) (merkle_level hs)) as Hn; [|by eapply Hn].
  clear hs. induction n as [|n IH]; intros [|a [|b l]] Hl Hs; cbn [length] in Hl; try lia; try (split; [done|by constructor]).
  - apply Forall_cons in Hs as [Ha _]. cbn. rewrite hash_pair_ok by done. cbn. split; [done|]. constructor; [apply sha256_zlen|done].
  - apply Forall_cons in Hs as [Ha [Hb Hs]%Forall_cons]. destruct (IH l ltac:(lia) Hs) as [E Hf].
    cbn [fmap list_fmap path_level path_entry merkle_level]. rewrite hash_pair_ok by done. cbn [mbind res_bind].
    change (list_fmap _ _ Some l) with (Some <$> l). rewrite E. split; [done|]. constructor; [apply sha256_zlen|done].
Qed.

Lemma path_loop_root fuel hs acc : Forall (fun h => zlen h = 32) hs -> (length hs < fuel)%nat ->
  exists path, path_loop fuel (None :: (Some <$> hs)) acc = Ok (acc ++ path) /\
    forall cb fuel', zlen cb = 32 -> (length hs < fuel')%nat -> res_foldl hash_pair cb path = Ok (merkle_rounds fuel' (cb :: hs)).
Proof.
  revert hs acc. induction fuel as [|fuel IH]; intros hs acc Hs Hf; [lia|]. destruct Hs as [|h hs Hh Hs].
  - exists []. split; [cbn; by rewrite app_nil_r|]. intros cb [|fuel'] _ Hl; [lia|]. done.
  - cbn [fmap list_fmap path_loop]. change (list_fmap _ _ Some hs) with (Some <$> hs).
    destruct (path_level_ok hs Hs) as [E Hs']. rewrite E. cbn [mbind res_bind]. pose proof (merkle_level_length hs) as Hl.
    cbn [length] in Hf. destruct (IH (merkle_level hs) (acc ++ [h]) Hs' ltac:(lia)) as (path & Ep & Hp).
    exists (h :: path). split; [by rewrite Ep, <- app_assoc|]. intros cb [|fuel'] Hcb Hl'; cbn [length] in Hl'; [lia|].
    cbn [res_foldl]. rewrite hash_pair_ok by done. cbn [mbind res_bind]. rewrite (Hp _ fuel'); [done|apply sha256_zlen|lia].
Qed.

Lemma txids_path_root txids hs : Forall2 displays txids hs -> exists path, merklePathFromTxids txids = Ok path /\
  forall coinbaseTx, reconstructMerkleRoot coinbaseTx path = Ok (ComputeMerkleRoot (doubleSha256 coinbaseTx :: hs)).
Proof.
  intros Hd. assert (Forall (fun h => zlen h = 32) hs) as Hs.
  { induction Hd as [|t h ts hs (_ & Hl & _) _ IH]; by constructor. }
  assert (res_map (fun h => b ← hexToBytes h; Ok (reverseBytes b)) txids = Ok hs) as Em.
  { clear Hs. induction Hd as [|t h ts hs (Et & _ & _) _ IH]; [done|]. cbn. rewrite Et. cbn [mbind res_bind]. rewrite IH.
    unfold reverseBytes. by rewrite reverse_involutive. }
  unfold merklePathFromTxids. destruct Hd as [|t h ts hs Ht Hd]; [exists []; split; [done|]; intros cb; done|].
  rewrite zlen_cons. pose proof (zlen_nonneg ts). rewrite (proj2 (Z.eqb_neq (1 + zlen ts) 0)) by lia. rewrite Em. cbn [mbind res_bind].
  destruct (path_loop_root (S (length (t :: ts))) (h :: hs) [] Hs) as (path & E & Hp).
  { pose proof (Forall2_length _ _ _ Hd). cbn. lia. }
  exists path. split; [exact E|]. intros cb. apply Hp; [apply sha256_zlen|]. cbn. lia.
Qed.
End Path.

(** ** Solutions *)
Section Solution.
Context `{Sha256Ok} (payoutAddress : jsstr).

(** [hex] is the block that the solution [sol] makes of the template [tpl]: as the node
    reads it, a header on the parent and with the bits of the template, with the merkle
    root of the solution's coinbase and the template's transactions, then these
    transactions in order. *)
Definition block_of (tpl : BlockTemplate) (sol : SubmitSolutionTP) (hex : jsstr) : Prop :=
  exists hdr txs prev, hex = bytesToHex (hdr ++ varInt (1 + zlen txs) ++ sst_coinbaseTx sol ++ bconcat txs) /\ zlen hdr = 80 /\
    tx_list tpl = Ok txs /\ hexToBytes (previousblockhash tpl) = Ok prev /\
    forall hs, Forall2 displays (tx_id <$> transactions tpl) hs -> unserialize hdr = {|
      nVersion := to_i32 (sst_version sol); hashPrevBlock := reverse prev;
      hashMerkleRoot := ComputeMerkleRoot (doubleSha256 (sst_coinbaseTx sol) :: hs); nTime := to_u32 (sst_headerTimestamp sol);
      nBits := to_u32 (default 0 (parseIntHex (bt_bits tpl))); nNonce := to_u32 (sst_headerNonce sol) |}.

Lemma reconstruct_sized cb path r : reconstructMerkleRoot cb path = Ok r -> sized 32 r.
Proof.
  unfold reconstructMerkleRoot. assert (sized 32 (sha256 (sha256 cb))) as Hs by (split; [apply sha256_bytes|apply sha256_zlen]).
  revert Hs. generalize (sha256 (sha256 cb)). induction path as [|h path IH]; intros cur Hs; [by intros [= <-]|].
  cbn [res_foldl]. destruct (hash_pair cur h) as [x|] eqn:E; [|done]. cbn [mbind res_bind]. apply IH.
  unfold hash_pair in E. destruct (ta_set _ _ _) as [b1|]; [|done]. cbn [mbind res_bind] in E.
  destruct (ta_set _ _ _) as [b2|]; [|done]. injection E as <-. split; [apply sha256_bytes|apply sha256_zlen].
Qed.

(** The parts of a bundle. *)
Lemma buildBundle_inv tid tpl b : buildBundle payoutAddress tid tpl = Ok b -> exists txs path prev,
  tx_list tpl = Ok txs /\ tb_transactionList b = txs /\ merklePathFromTxids (tx_id <$> transactions tpl) = Ok path /\
  nt_merklePath (tb_newTemplate b) = path /\ hexToBytes (previousblockhash tpl) = Ok prev /\
  snpt_prevHash (tb_setNewPrevHash b) = reverse prev /\ tb_bits b = default 0 (parseIntHex (bt_bits tpl)) /\ tb_templateId b = tid.
Proof.
  unfold buildBundle. destruct (addressToScriptPubKey _); [|done]. destruct (coinbase_prefix tpl); [|done]. cbn [mbind res_bind].
  destruct (tp_outputs tpl _); [|done]. cbn [mbind res_bind]. rewrite concatBytes_ok. cbn [mbind res_bind].
  destruct (tx_list tpl) as [txs|]; [|done]. cbn [mbind res_bind]. destruct (merklePathFromTxids _) as [path|]; [|done]. cbn [mbind res_bind].
  destruct (hexToBytes (previousblockhash tpl)) as [prev|]; [|done]. cbn [mbind res_bind]. destruct (hexToBytes (bt_target tpl)); [|done].
  cbn [mbind res_bind]. destruct (encodeNewTemplate _); [|done]. cbn [mbind res_bind]. destruct (encodeSetNewPrevHashTP _); [|done].
  intros [= <-]. by exists txs, path, prev.
Qed.

Lemma solution_of tid tpl b sol hex : buildBundle payoutAddress tid tpl = Ok b -> solution_block b sol = Ok hex -> block_of tpl sol hex.
Proof.
  intros (txs & path & prev & Et & Ex & Em & Ep & Ev & Es & Eb & _)%buildBundle_inv. unfold solution_block. rewrite Ep, Ex, Es, Eb.
  destruct (reconstructMerkleRoot _ path) as [mr|] eqn:Er; [|done]. cbn [mbind res_bind].
  destruct (serializeHeader _) as [hdr|] eqn:Eh; [|done]. cbn [mbind res_bind]. rewrite concatBytes_ok. cbn [mbind res_bind]. intros [= <-].
  apply serializeHeader_inv in Eh as (p & m & Hp & Hm & Lp & Lm & ->). cbn [prevHashHexBE merkleRootHexBE] in Hp, Hm.
  unfold reverseBytes in Hp. rewrite reverse_involutive in Hp.
  rewrite hexToBytes_bytesToHex in Hp by (by eapply hexToBytes_bytes). injection Hp as <-.
  rewrite hexToBytes_bytesToHex in Hm by (apply bytes_ok_reverse; by eapply reconstruct_sized). injection Hm as <-.
  eexists _, txs, prev. split; [by rewrite !bconcat_cons|]. split; [by apply header_layout_zlen|]. do 2 (split; [done|]). intros hs Hd.
  rewrite unserialize_layout by done. cbn [version ntime bits nonce]. unfold reverseBytes. rewrite reverse_involutive.
  destruct (txids_path_root _ hs Hd) as (path' & Em' & Hr). rewrite Em in Em'. injection Em' as <-.
  rewrite Hr in Er. by injection Er as <-.
Qed.
End Solution.

(** ** What the node gets *)
Section Blocks.
Context `{Sha256Ok} (payoutAddress : jsstr) (polled : BlockTemplate -> Prop).

Definition from_poll (b : TpTemplateBundle) : Prop :=
  exists tpl tid, polled tpl /\ buildBundle payoutAddress tid tpl = Ok b.
Definition solved (hex : jsstr) : Prop := exists tpl sol, polled tpl /\ block_of tpl sol hex.
Definition good (s : tp) : Prop := Forall (fun x => from_poll x.2) (templateCache s) /\ Forall solved (tp_submitted s).
Definition good_kept (s s' : tp) : Prop := good s -> good s'.
#[local] Instance good_refl : Reflexive good_kept.
Proof. by intros s Hs. Qed.
#[local] Instance good_trans : Transitive good_kept.
Proof. intros a b c H1 H2 Ha. auto. Qed.

Lemma on_good {A} i (m : eff TpConn A) : keeps good_kept (tp_on i m).
Proof. intros s Hs. unfold tp_on. destruct (tp_objs s !! i) as [c|]; [|done]. by destruct (m c). Qed.

Lemma solution_good sol : keeps good_kept (handleSolution sol).
Proof.
  intros s [Hc Hs]. unfold handleSolution, tp_getById. eff_simpl. destruct (map_get _ _) as [b|] eqn:E; [|done].
  destruct (solution_block b sol) as [hex|] eqn:Eb; [|done]. split; [done|]. cbn. apply Forall_app. split; [done|]. constructor; [|done].
  apply map_get_elem in E. eapply Forall_forall in Hc; [|exact E]. destruct Hc as (tpl & tid & Hp & Hb).
  exists tpl, sol. split; [done|]. by eapply solution_of.
Qed.

Ltac good_walk := repeat match goal with
  | |- keeps _ (tp_on _ _) => apply on_good
  | |- keeps _ (handleSolution _) => apply solution_good
  | |- keeps _ (match _ with _ => _ end) => case_match
  | |- keeps _ _ => first [ apply keeps_bind; try typeclasses eauto | apply keeps_ret; typeclasses eauto | apply keeps_throw; typeclasses eauto
      | apply keeps_lift; typeclasses eauto | apply keeps_get; typeclasses eauto | apply keeps_try; try typeclasses eauto
      | apply keeps_when; try typeclasses eauto | apply keeps_for_each; try typeclasses eauto | apply keeps_modify; intros ? ?; done ]
  | |- forall _, _ => intros
  end.

Lemma poll_good tpl : (forall t, tpl = Some t -> polled t) -> keeps good_kept (tp_poll payoutAddress tpl).
Proof.
  intros Hp. unfold tp_poll, tp_broadcast, sendCurrent. destruct tpl as [tpl|]; [|good_walk]. apply keeps_bind; [typeclasses eauto|good_walk|].
  intros s. case_match; [good_walk|]. do 3 (apply keeps_bind; [typeclasses eauto|good_walk|intros ?]).
  apply keeps_bind_lift; [typeclasses eauto|]. intros b Eb. apply keeps_bind; [typeclasses eauto|good_walk|intros _].
  apply keeps_bind; [typeclasses eauto| |good_walk]. apply keeps_modify. intros s2 [Hc Hs]. split; [|done]. cbn.
  assert (Forall (fun x => from_poll x.2) (map_set (tb_templateId b) b (templateCache s2))) as Hf.
  { apply Forall_forall. intros x [->|Hx]%map_set_elem; [exists tpl; by eauto|]. by eapply Forall_forall in Hc. }
  unfold trim_templates. case_match; [|done]. by destruct Hf.
Qed.

Lemma dispatch_good i t payload : keeps good_kept (tp_dispatch i t payload).
Proof. unfold tp_dispatch, sendCurrent, tp_detached. good_walk. Qed.

Lemma step_good e s : (forall t, e = TpPoll (Some t) -> polled t) -> good s -> good (tp_step payoutAddress e s).
Proof.
  intros He Hs. unfold tp_step. destruct (tp_crashed s); [done|].
  assert (forall m, keeps good_kept m -> good (tp_detached m s).2) as Hd.
  { intros m Hm. specialize (Hm s Hs). unfold tp_detached, try_catch. by destruct (m s) as [[|] s']. }
  destruct e as [|i chunk|i|tpl].
  - done.
  - case_match; [|done]. apply Hd. unfold tp_onData. good_walk. apply dispatch_good.
  - case_match; [|done]. assert (keeps good_kept (tp_onClose i)) as Hk by (unfold tp_onClose; good_walk). by apply Hk.
  - apply Hd, poll_good. intros t ->. by apply He.
Qed.
End Blocks.

(** C12: blocks for the node.  In every run of the template service, whatever its clients
    send and the node answers, every block that the service submits is made of a template
    that the node gave it: the header extends the parent of that template with its bits
    and has the merkle root of the client's coinbase and the transactions of the template,
    and the block holds exactly these, in order. *)
Theorem tp_blocks_of_templates `{Sha256Ok} payoutAddress es hex :
  hex ∈ tp_submitted (tp_run payoutAddress es init_tp) -> exists tpl sol, TpPoll (Some tpl) ∈ es /\ block_of tpl sol hex.
Proof.
  assert (forall es' s, (forall t, TpPoll (Some t) ∈ es' -> TpPoll (Some t) ∈ es) ->
    good payoutAddress (fun t => TpPoll (Some t) ∈ es) s -> good payoutAddress (fun t => TpPoll (Some t) ∈ es) (tp_run payoutAddress es' s)) as Hrun.
  { induction es' as [|e es' IH]; intros s Hin Hs; [done|]. apply IH; [intros t Ht; apply Hin; by right|].
    apply step_good; [|done]. intros t ->. apply Hin. by left. }
  intros Hx. destruct (Hrun es init_tp) as [_ Hs]; [done|by split|]. by eapply Forall_forall in Hs.
Qed.

(** ** The coinbase that a client makes *)
Lemma num_bytes_zlen fuel n : zlen (num_bytes fuel n) <= Z.of_nat fuel.
Proof. revert n. induction fuel as [|fuel IH]; intros n; [done|]. cbn [num_bytes]. case_match; [|done]. rewrite zlen_cons. specialize (IH (js_ushr n 8)). lia. Qed.
Lemma tp_scriptNumPush_zlen n : 0 <= zlen (tp_scriptNumPush n) <= 7.
Proof.
  split; [apply zlen_nonneg|]. unfold tp_scriptNumPush. case_match; [done|]. rewrite zlen_cons. pose proof (num_bytes_zlen 5 (Z.abs n)).
  case_match; [rewrite zlen_app; change (zlen [0]) with 1|]; lia.
Qed.

Lemma coinbase_prefix_ok tpl : coinbase_prefix tpl = Ok (uint32LE 1 ++ [1] ++ zeros 32 ++ uint32LE 0xffffffff ++
  varInt (zlen (tp_scriptNumPush (bt_height tpl)) + 27) ++ tp_scriptNumPush (bt_height tpl)).
Proof.
  unfold coinbase_prefix. rewrite concatBytes_ok. cbn [mbind res_bind]. rewrite concatBytes_ok.
  assert (zlen (bconcat [[zlen (utf8_encode tp_tag) mod 256]; utf8_encode tp_tag]) = 19) as -> by (vm_compute; reflexivity).
  rewrite !bconcat_cons, app_nil_r, <- !app_assoc. replace (zlen (tp_scriptNumPush (bt_height tpl)) + 8 + 19)
    with (zlen (tp_scriptNumPush (bt_height tpl)) + 27) by lia. reflexivity.
Qed.

(** The input script takes 19 bytes of what follows the extranonce. *)
Lemma rd_tp_input p en rest i s : zlen p <= 7 -> zlen en = 8 ->
  rd_txin (zeros 32 ++ uint32LE 0xffffffff ++ varInt (zlen p + 27) ++ p ++ en ++ rest) = Ok (i, s) -> scriptSig i = p ++ en ++ take 19 rest.
Proof.
  intros Hp He. pose proof (zlen_nonneg p). unfold rd_txin, rd_outpoint.
  rewrite (rd_bind_ok _ _ _ {| op_hash := zeros 32; op_n := 0xffffffff |} (varInt (zlen p + 27) ++ p ++ en ++ rest)).
  2: { rewrite (rd_bind_ok _ _ _ _ _ (rd_bytes_app 32 (zeros 32) _ eq_refl)). by rewrite (rd_bind_ok _ _ _ _ _ (rd_uint32LE 0xffffffff _)). }
  unfold rd_script. unfold rd_bind at 1. rewrite (rd_bind_ok _ _ _ _ _ (ReadCompactSize_varInt (zlen p + 27) _ ltac:(unfold MAX_SIZE; lia))).
  unfold rd_bytes at 1. destruct (_ <? zlen p + 27); [discriminate|]. cbn [mbind res_bind]. unfold rd_bind. destruct (rd_le 4 _) as [[q s1]|]; [|done]. intros [= <- <-].
  cbn [scriptSig]. rewrite slice_0, app_assoc, take_app. unfold zlen in *. rewrite take_ge by (rewrite length_app; lia). rewrite <- app_assoc. do 2 f_equal.
  f_equal. rewrite length_app. lia.
Qed.

(** The coinbase of a template does not add up.  [coinbase_prefix] announces an input
    script that ends with a tag of 19 bytes, which no field of the template carries.  In
    every transaction that the node reads from the prefix, an extranonce of the 8 bytes
    that are left for it and whatever the client puts after it, the input script holds the
    first 19 bytes of what should be the sequence number and the outputs. *)
Theorem tp_coinbase_swallows_outputs tpl prefix extranonce rest tx r :
  coinbase_prefix tpl = Ok prefix -> zlen extranonce = 8 -> UnserializeTransaction (prefix ++ extranonce ++ rest) = Ok (tx, r) ->
  exists i, vin tx = [i] /\ scriptSig i = tp_scriptNumPush (bt_height tpl) ++ extranonce ++ take 19 rest.
Proof.
  rewrite coinbase_prefix_ok. set (p := tp_scriptNumPush _). intros Ep He.
  assert (prefix = uint32LE 1 ++ [1] ++ zeros 32 ++ uint32LE 0xffffffff ++ varInt (zlen p + 27) ++ p) as -> by congruence. clear Ep.
  rewrite <- !app_assoc. unfold UnserializeTransaction. rewrite (rd_bind_ok _ _ _ _ _ (rd_uint32LE 1 _)). unfold rd_bind at 1. rewrite rd_vector_one.
  destruct (rd_txin _) as [[i s]|] eqn:Ei; [|done]. cbn [mbind res_bind fst snd]. unfold rd_bind.
  destruct (rd_vector rd_txout s) as [[o s1]|]; [|done]. cbn [mbind res_bind]. destruct (rd_le 4 s1) as [[l s2]|]; [|done]. intros [= <- <-].
  exists i. split; [done|]. eapply rd_tp_input; [|exact He|exact Ei]. apply tp_scriptNumPush_zlen.
Qed.

(** ** What clients have *)
Section Clients.
Context `{Sha256Ok} (payoutAddress : jsstr).

Definition reply (w : bytes) : Prop := exists m, encodeRequestTransactionDataSuccess m = Ok w.
(** The last template that was sent on the connection is [b]; answers to requests may
    have followed it. *)
Definition sent (b : TpTemplateBundle) (c : TpConn) : Prop :=
  exists l1 l2, tc_written c = l1 ++ [tb_setNewPrevHashBytes b; tb_newTemplateBytes b] ++ l2 /\ Forall reply l2.
Definition served (s : tp) : Prop :=
  NoDup (tp_conns s) /\ (forall i, i ∈ tp_conns s <-> tp_open i s = true) /\
  forall i c b, i ∈ tp_conns s -> tp_objs s !! i = Some c -> tc_state c = TP_READY -> tp_current s = Some b -> sent b c.
Definition served_kept (s s' : tp) : Prop := served s -> served s'.
#[local] Instance served_refl : Reflexive served_kept.
Proof. by intros s Hs. Qed.
#[local] Instance served_trans : Transitive served_kept.
Proof. intros a b c H1 H2 Ha. auto. Qed.

Definition tp_put (i : nat) (c : TpConn) (s : tp) : tp := set_tp_objs (<[i := c]> (tp_objs s)) s.
Lemma tp_on_put {A} i c c0 (m : eff TpConn A) s : tp_objs s !! i = Some c0 -> tp_on i m (tp_put i c s) = ((m c).1, tp_put i (m c).2 s).
Proof.
  intros Hi. unfold tp_on, tp_put. cbn [tp_objs set_tp_objs]. rewrite list_lookup_insert_eq by (by eapply lookup_lt_Some).
  destruct (m c) as [r c']. cbn [fst snd]. unfold set_tp_objs. cbn. by rewrite list_insert_insert_eq.
Qed.
Lemma tp_put_id i c s : tp_objs s !! i = Some c -> tp_put i c s = s.
Proof. intros Hi. unfold tp_put. rewrite list_insert_id by done. by destruct s. Qed.

(** A connection may change as long as it is not destroyed and has the current template
    if it is ready. *)
Lemma put_served i c c' s : tp_objs s !! i = Some c -> tc_destroyed c' = tc_destroyed c ->
  (forall b, i ∈ tp_conns s -> tc_state c' = TP_READY -> tp_current s = Some b -> sent b c') -> served s -> served (tp_put i c' s).
Proof.
  intros Hi Hd Hc (Hn & Ho & Hs). pose proof (lookup_lt_Some _ _ _ Hi) as Hlt. split; [done|]. split.
  - intros j. unfold tp_open, tp_put. cbn. rewrite Ho. unfold tp_open. destruct (decide (j = i)) as [->|Hji].
    + by rewrite list_lookup_insert_eq, Hi, Hd.
    + by rewrite list_lookup_insert_ne.
  - intros j c2 b Hj Hl Hr Hb. cbn in Hj, Hl, Hb. destruct (decide (j = i)) as [->|Hji].
    + rewrite list_lookup_insert_eq in Hl by done. injection Hl as <-. by apply Hc.
    + rewrite list_lookup_insert_ne in Hl by done. by eapply Hs.
Qed.

Lemma sent_more b c c' l : tc_written c' = tc_written c ++ l -> Forall reply l -> sent b c -> sent b c'.
Proof.
  intros E Hl (l1 & l2 & E2 & Hl2). exists l1, (l2 ++ l). rewrite E, E2. split; [by rewrite <- !app_assoc|by apply Forall_app].
Qed.

(** A method of a connection that leaves it as ready as it was and adds answers at most. *)
Lemma on_served {A} i (m : eff TpConn A) : (forall c, tc_destroyed (m c).2 = tc_destroyed c /\ (tc_state (m c).2 = TP_READY -> tc_state c = TP_READY) /\
    exists l, tc_written (m c).2 = tc_written c ++ l /\ Forall reply l) -> keeps served_kept (tp_on i m).
Proof.
  intros Hm s Hs. unfold tp_on. destruct (tp_objs s !! i) as [c|] eqn:Ei; [|done]. destruct (Hm c) as (Hd & Hr & l & Hw & Hl).
  destruct (m c) as [r c']. cbn in *. apply (put_served i c); [done..| |done]. intros b Hin Hc' Hb. eapply sent_more; [done..|].
  apply (proj2 (proj2 Hs) i); auto.
Qed.

Lemma cods_served i m : keeps served_kept (tp_on i (modify (set_tc_maxSize m)) ≫= fun _ => tp_on i (modify (set_tc_state TP_READY)) ≫= fun _ =>
  get ≫= fun s => match tp_current s with Some cur => sendCurrent i cur | None => mret tt end).
Proof.
  intros s Hs. destruct (tp_objs s !! i) as [c|] eqn:Ei.
  2: { assert (tp_on i (modify (set_tc_maxSize m)) s = (Throw "no such connection", s)) as E by (unfold tp_on; by rewrite Ei).
       unfold mbind, eff_bind. by rewrite E. }
  rewrite <- (tp_put_id i c s Ei) at 1. unfold sendCurrent. eff_simpl. repeat (rewrite (tp_on_put i _ c) by done; cbn [fst snd]).
  change (tp_current (tp_put i _ s)) with (tp_current s). destruct (tp_current s) as [b|] eqn:Eb.
  - repeat (rewrite (tp_on_put i _ c) by done; cbn [fst snd]).
    assert (tc_destroyed c = false \/ i ∉ tp_conns s) as Hd.
    { destruct (tc_destroyed c) eqn:Ed; [right|by left]. rewrite (proj1 (proj2 Hs)). unfold tp_open. by rewrite Ei, Ed. }
    unfold tp_write, modify. cbn [fst snd]. destruct (tc_destroyed c) eqn:Ed; cbn; rewrite ?Ed; cbn; rewrite ?Ed; cbn;
      (apply (put_served i c); [done|done| |done]); intros b' Hin _ Hb'; destruct Hd as [|Hd]; try done.
    rewrite Eb in Hb'. injection Hb' as <-. exists (tc_written c), []. split; [by rewrite <- app_assoc|done].
  - apply (put_served i c); [done|done| |done]. intros b _ _ Hb. congruence.
Qed.

(** The broadcast. *)
Definition pushed (b : TpTemplateBundle) (c : TpConn) : TpConn :=
  if bool_decide (tc_state c = TP_READY) then
    if tc_destroyed c then c else set_tc_written (tc_written c ++ [tb_setNewPrevHashBytes b; tb_newTemplateBytes b]) c
  else c.

Lemma put_alter i c f s : tp_objs s !! i = Some c -> set_tp_objs (alter f i (tp_objs s)) s = tp_put i (f c) s.
Proof.
  intros Ei. unfold tp_put. f_equal. apply list_eq. intros j. destruct (decide (j = i)) as [->|Hj].
  - rewrite list_lookup_alter_eq, list_lookup_insert_eq by (by eapply lookup_lt_Some). by rewrite Ei.
  - by rewrite list_lookup_alter_ne, list_lookup_insert_ne.
Qed.

Lemma push_run b i c s : tp_objs s !! i = Some c ->
  (c ← tp_on i get; when (bool_decide (tc_state c = TP_READY)) (sendCurrent i b)) s = (Ok tt, tp_put i (pushed b c) s).
Proof.
  intros Ei. rewrite <- (tp_put_id i c s Ei) at 1. eff_simpl. rewrite (tp_on_put i _ c) by done. cbn [fst snd]. unfold pushed, when.
  case_bool_decide as Hr; [|done]. unfold sendCurrent. eff_simpl. repeat (rewrite (tp_on_put i _ c) by done; cbn [fst snd]).
  unfold tp_write, modify. cbn [fst snd]. destruct (tc_destroyed c) eqn:Ed; [by rewrite Ed|]. cbn. rewrite Ed. unfold set_tc_written. cbn.
  by rewrite <- app_assoc.
Qed.

Lemma broadcast_run b l s : (forall i, i ∈ l -> is_Some (tp_objs s !! i)) ->
  for_each (fun i => c ← tp_on i get; when (bool_decide (tc_state c = TP_READY)) (sendCurrent i b)) l s =
  (Ok tt, set_tp_objs (foldl (fun o i => alter (pushed b) i o) (tp_objs s) l) s).
Proof.
  revert s. induction l as [|i l IH]; intros s Hl; [by destruct s|]. destruct (Hl i ltac:(by left)) as [c Ei].
  cbn [for_each]. unfold mbind at 1, eff_bind at 1. rewrite (push_run b i c s Ei), <- (put_alter i c _ s Ei). rewrite IH; [by destruct s|].
  intros j Hj. cbn. destruct (decide (j = i)) as [->|Hji]; [rewrite list_lookup_alter_eq, Ei; by eexists|].
  rewrite list_lookup_alter_ne by done. apply Hl. by right.
Qed.

Lemma tp_broadcast_run b s : (forall i, i ∈ tp_conns s -> is_Some (tp_objs s !! i)) ->
  tp_broadcast b s = (Ok tt, set_tp_objs (foldl (fun o i => alter (pushed b) i o) (tp_objs s) (tp_conns s)) s).
Proof. exact (broadcast_run b (tp_conns s) s). Qed.

Lemma foldl_alter {A} (f : A -> A) (l : list nat) (o : list A) (i : nat) : NoDup l -> foldl (fun o i => alter f i o) o l !! i = (if bool_decide (i ∈ l) then f else id) <$> o !! i.
Proof.
  intros Hn. revert o. induction Hn as [|j l Hj Hn IH]; intros o; [rewrite bool_decide_false by apply not_elem_of_nil; cbn; by destruct (o !! i)|].
  cbn. rewrite IH. destruct (decide (i = j)) as [->|Hij].
  - rewrite list_lookup_alter_eq, bool_decide_false, bool_decide_true by (done || by left). cbn. by destruct (o !! j).
  - rewrite list_lookup_alter_ne by done. f_equal. case_bool_decide as H1; case_bool_decide as H2; try done; rewrite elem_of_cons in H2; tauto.
Qed.

Lemma poll_served tpl : keeps served_kept (tp_poll payoutAddress tpl).
Proof.
  intros s Hs. unfold tp_poll. destruct tpl as [tpl|]; [|done]. eff_simpl. case_match; [done|].
  destruct (buildBundle _ _ _) as [b|]; [|exact Hs]. cbn [snd].
  destruct Hs as (Hn & Ho & Hs). rewrite tp_broadcast_run.
  2: { intros i Hi. cbn in *. apply Ho in Hi. unfold tp_open in Hi. destruct (tp_objs s !! i); [by eexists|done]. }
  split; [done|]. split.
  - intros i. cbn. rewrite Ho. unfold tp_open. cbn. rewrite foldl_alter by done. destruct (tp_objs s !! i) as [c|]; [|done]. cbn.
    destruct (bool_decide (i ∈ tp_conns s)); [|done]. unfold pushed.
    destruct (bool_decide (tc_state c = TP_READY)); [|done]. destruct (tc_destroyed c) eqn:Ed; cbn; by rewrite Ed.
  - intros i c b' Hi Hl Hr Hb. cbn in Hi, Hl, Hb. injection Hb as <-. rewrite foldl_alter, bool_decide_true in Hl by done.
    destruct (tp_objs s !! i) as [c0|] eqn:Ei; [|done]. injection Hl as <-. apply Ho in Hi. unfold tp_open in Hi. rewrite Ei in Hi.
    destruct (tc_destroyed c0) eqn:Ed; [done|]. unfold pushed in *. rewrite Ed in *. destruct (bool_decide (tc_state c0 = TP_READY)) eqn:Er; [|by apply bool_decide_eq_false in Er].
    exists (tc_written c0), []. split; [done|done].
Qed.

Lemma dispatch_served i t payload : keeps served_kept (tp_dispatch i t payload).
Proof.
  unfold tp_dispatch. case_match.
  { apply keeps_bind_lift; [typeclasses eauto|]. intros m _. apply cods_served. }
  case_match.
  { apply keeps_bind_lift; [typeclasses eauto|]. intros m _. apply keeps_bind; [typeclasses eauto|apply keeps_get; typeclasses eauto|]. intros s.
    case_match; [|apply keeps_ret; typeclasses eauto]. apply keeps_bind_lift; [typeclasses eauto|]. intros w Ew. apply on_served. intros c.
    unfold tp_write. cbn. destruct (tc_destroyed c) eqn:Ed; [rewrite Ed; split; [done|]; split; [done|]; exists []; by rewrite app_nil_r|].
    cbn. split; [done|]. split; [done|]. exists [w]. split; [done|]. constructor; [by eexists|done]. }
  case_match; [|apply keeps_ret; typeclasses eauto]. apply keeps_bind_lift; [typeclasses eauto|]. intros m _ s Hs.
  unfold tp_detached, try_catch, handleSolution. eff_simpl. destruct (tp_getById _ s); [|done]. by destruct (solution_block _ m).
Qed.

Lemma close_served i s : i ∈ tp_conns s -> served s -> served (tp_onClose i s).2.
Proof.
  intros Hi (Hn & Ho & Hs). destruct (tp_objs s !! i) as [c|] eqn:Ei.
  2: { apply Ho in Hi. unfold tp_open in Hi. by rewrite Ei in Hi. }
  unfold tp_onClose. rewrite <- (tp_put_id i c s Ei) at 1. eff_simpl. repeat (rewrite (tp_on_put i _ c) by done; cbn [fst snd]).
  pose proof (lookup_lt_Some _ _ _ Ei) as Hlt. split; [by apply NoDup_filter|]. split.
  - intros j. transitivity (j ∈ set_delete i (tp_conns s)); [done|]. rewrite set_delete_elem, Ho. unfold tp_open. cbn. destruct (decide (j = i)) as [->|Hj].
    + rewrite list_lookup_insert_eq by done. cbn. split; [tauto|done].
    + rewrite list_lookup_insert_ne by done. tauto.
  - intros j c2 b Hj Hl Hr Hb. cbn in Hj, Hl, Hb. apply set_delete_elem in Hj as [Hji Hj]. rewrite list_lookup_insert_ne in Hl by done. by eapply Hs.
Qed.

Lemma data_served i chunk : keeps served_kept (tp_onData i chunk).
Proof.
  unfold tp_onData. apply keeps_bind; [typeclasses eauto|apply on_served; intros c; split; [done|]; split; [done|]; exists []; by rewrite app_nil_r|].
  intros c. case_match; [apply keeps_ret; typeclasses eauto|]. do 2 (apply keeps_bind; [typeclasses eauto|apply keeps_lift; typeclasses eauto|intros ?]).
  apply keeps_bind; [typeclasses eauto|apply on_served; intros c2; split; [done|]; split; [done|]; exists []; by rewrite app_nil_r|].
  intros _. apply keeps_for_each; [typeclasses eauto..|]. intros f. apply dispatch_served.
Qed.

Lemma accept_served s : served s -> served (tp_accept s).2.
Proof.
  intros (Hn & Ho & Hs). assert (length (tp_objs s) ∉ tp_conns s) as Hl.
  { rewrite Ho. unfold tp_open. by rewrite lookup_ge_None_2. }
  split; [|split].
  - apply NoDup_app. split; [done|]. split; [|apply NoDup_singleton]. intros i Hi ->%list_elem_of_singleton. done.
  - intros i. cbn. rewrite elem_of_app, list_elem_of_singleton, Ho. unfold tp_open. cbn. destruct (decide (i < length (tp_objs s))%nat) as [Hi|Hi].
    + rewrite lookup_app_l by done. split; [|tauto]. intros [?| ->]; [done|lia].
    + rewrite (lookup_ge_None_2 (tp_objs s) i) by lia. rewrite lookup_app_r by lia. destruct (decide (i = length (tp_objs s))) as [->|Hne].
      * rewrite Nat.sub_diag. cbn. tauto.
      * rewrite lookup_ge_None_2 by (cbn; lia). split; [|done]. intros [?| ->]; done.
  - intros i c b Hi Hc Hr Hb. cbn in Hi, Hc, Hb. apply elem_of_app in Hi as [Hi| ->%list_elem_of_singleton].
    + apply (Hs i); [done| |done..]. rewrite lookup_app_l in Hc; [done|]. apply Ho in Hi. unfold tp_open in Hi.
      destruct (tp_objs s !! i) eqn:E; [by eapply lookup_lt_Some|done].
    + rewrite lookup_app_r, Nat.sub_diag in Hc by lia. injection Hc as <-. done.
Qed.

Lemma init_served : served init_tp.
Proof. split; [apply NoDup_nil_2|]. split; [|by intros i c b Hi%not_elem_of_nil]. intros i. split; [by intros Hi%not_elem_of_nil|done]. Qed.
End Clients.

(** Clients mine on the current template.  At any time of any run of the template
    service, the last template sent on every open connection that has announced its output
    size is the service's current one. *)
Theorem tp_clients_current `{Sha256Ok} payoutAddress es i c b :
  let s := tp_run payoutAddress es init_tp in
  tp_objs s !! i = Some c -> tc_destroyed c = false -> tc_state c = TP_READY -> tp_current s = Some b -> sent b c.
Proof.
  assert (forall e s, served s -> served (tp_step payoutAddress e s)) as Hstep.
  { intros e s Hs. unfold tp_step. destruct (tp_crashed s); [done|].
    assert (forall m, keeps served_kept m -> served (tp_detached m s).2) as Hd.
    { intros m Hm. specialize (Hm s Hs). unfold tp_detached, try_catch. by destruct (m s) as [[|] s']. }
    destruct e as [|j chunk|j|tpl].
    - by apply accept_served.
    - case_match; [|done]. apply Hd, data_served.
    - case_bool_decide; [|done]. by apply close_served.
    - apply Hd, poll_served. }
  assert (forall s, served s -> served (tp_run payoutAddress es s)) as Hrun.
  { induction es as [|e es IH]; intros s Hs; [done|]. apply IH. by apply Hstep. }
  intros s Hi Hd Hr Hb. destruct (Hrun init_tp) as (_ & Ho & Hs); [by apply init_served|]. fold s in Ho, Hs.
  apply (Hs i); [|done..]. apply Ho. unfold tp_open. by rewrite Hi, Hd.
Qed.

(** ** Messages that cannot be read *)
Definition tp_unreadable (f : Sv2Frame) : Prop :=
  (msgType (header f) = MSG_COINBASE_OUTPUT_DATA_SIZE /\ exists e, decodeCoinbaseOutputDataSize (payload f) = Throw e) \/
  (msgType (header f) = MSG_REQUEST_TX_DATA /\ exists e, decodeRequestTransactionData (payload f) = Throw e) \/
  (msgType (header f) = MSG_SUBMIT_SOLUTION_TP /\ exists e, decodeSubmitSolutionTP (payload f) = Throw e).

(** One short message ends the template service: on any open connection, whatever it
    has sent before, a message that is too short for its type is an exception in the
    handler of the socket, which nothing catches. *)
Theorem tp_short_message_ends_process `{Sha256Ok} payoutAddress s i c f :
  tp_crashed s = false -> tp_objs s !! i = Some c -> tc_destroyed c = false -> tc_state c <> TP_DEAD -> tc_buf c = [] ->
  frame_ok f -> bytes_ok (payload f) -> tp_unreadable f -> tp_crashed (tp_step payoutAddress (TpData i (frame_bytes f)) s) = true.
Proof.
  intros Hc Hi Hd Hs Hb Hf Hp Hu. unfold tp_step, tp_open. rewrite Hc, Hi, Hd. cbn [negb]. unfold tp_detached, try_catch.
  assert (exists e s', tp_onData i (frame_bytes f) s = (Throw e, s')) as (e & s' & ->); [|done].
  unfold tp_onData. rewrite <- (tp_put_id i c s Hi). eff_simpl. rewrite (tp_on_put i _ c) by done. cbn [fst snd].
  rewrite bool_decide_false, Hb by done. cbn [app]. rewrite ta_set_zeros by (change (zlen []) with 0; pose proof (zlen_nonneg (frame_bytes f)); lia).
  change (zlen []) with 0. rewrite Z.add_0_l, Z.sub_0_r. cbn [mbind res_bind app].
  rewrite (ta_set_ok _ (frame_bytes f) 0 [] (zeros (zlen (frame_bytes f))) []);
    [|by rewrite app_nil_r|done|by rewrite zlen_zeros by apply zlen_nonneg].
  rewrite app_nil_r. cbn [app]. rewrite splitFrames_one by done. cbn [fst snd]. rewrite (tp_on_put i _ c) by done. cbn [fst snd for_each].
  unfold tp_dispatch. destruct Hu as [(-> & e & Ed)|[(-> & e & Ed)|(-> & e & Ed)]]; eff_simpl; cbn [Z.eqb Pos.eqb MSG_COINBASE_OUTPUT_DATA_SIZE
    MSG_REQUEST_TX_DATA MSG_SUBMIT_SOLUTION_TP]; rewrite Ed; eauto.
Qed.

(** ** Witnesses *)
#[local] Instance ex_sha : Sha256 := example_digest.
#[local] Instance ex_sha_ok : Sha256Ok := example_digest_ok.

Definition cods_frame : bytes := [0; 0; 0x70; 4; 0; 0; 100; 0; 0; 0].
Definition solution_frame : bytes := Eval vm_compute in
  match encodeSubmitSolutionTP {| sst_templateId := 1; sst_version := 536870912; sst_headerTimestamp := 1700000700; sst_headerNonce := 7;
    sst_coinbaseTx := [1; 2; 3] |} with Ok w => w | Throw _ => [] end.
Definition tp_events : list tp_event :=
  [TpPoll (Some example_template); TpConnect; TpData 0 cods_frame; TpData 0 (take 9 solution_frame); TpData 0 (drop 9 solution_frame)].
Definition tp_after : tp := Eval vm_compute in tp_run example_address tp_events init_tp.
Lemma tp_after_run : tp_run example_address tp_events init_tp = tp_after.
Proof. vm_compute. reflexivity. Qed.

Lemma tp_blocks_of_templates_witness : exists hex tpl sol, tp_submitted tp_after = [hex] /\ TpPoll (Some tpl) ∈ tp_events /\ block_of tpl sol hex.
Proof.
  eexists. destruct (tp_blocks_of_templates example_address tp_events (default [] (head (tp_submitted tp_after)))) as (tpl & sol & Hp & Hb).
  - rewrite tp_after_run. left.
  - exists tpl, sol. split; [reflexivity|]. split; [exact Hp|exact Hb].
Defined.

Lemma tp_clients_current_witness : exists c b, tp_objs tp_after !! 0%nat = Some c /\ tp_current tp_after = Some b /\ sent b c.
Proof.
  do 2 eexists. split; [reflexivity|]. split; [reflexivity|].
  apply (tp_clients_current example_address tp_events 0).
  - rewrite tp_after_run. reflexivity.
  - reflexivity.
  - reflexivity.
  - rewrite tp_after_run. reflexivity.
Defined.

Lemma tp_short_message_ends_process_witness :
  tp_crashed (tp_step example_address (TpData 0 [0; 0; 0x73; 0; 0; 0]) tp_after) = true.
Proof.
  refine (tp_short_message_ends_process example_address tp_after 0 _
    {| header := {| extensionType := 0; msgType := MSG_REQUEST_TX_DATA; msgLength := 0; channelMsg := false |}; payload := [] |}
    eq_refl eq_refl eq_refl _ eq_refl _ _ _).
  - discriminate.
  - split; [|split; [|split]]; vm_compute; intuition discriminate.
  - constructor.
  - right. left. split; [reflexivity|]. eexists. vm_compute. reflexivity.
Defined.

Definition tp_coinbase_tail : bytes := uint32LE 0xffffffff ++ [1] ++ le_bytes 8 5000000000 ++ varInt 32 ++ replicate 31 0 ++ [0] ++ uint32LE 0.
Lemma tp_coinbase_swallows_outputs_witness : exists i, scriptSig i = tp_scriptNumPush 1000 ++ replicate 8 7 ++ take 19 tp_coinbase_tail.
Proof.
  destruct (coinbase_prefix example_template) as [prefix|] eqn:Ep; [|vm_compute in Ep; discriminate Ep].
  destruct (UnserializeTransaction (prefix ++ replicate 8 7 ++ tp_coinbase_tail)) as [[tx r]|] eqn:Et.
  - destruct (tp_coinbase_swallows_outputs example_template prefix (replicate 8 7) tp_coinbase_tail tx r Ep eq_refl Et) as (i & _ & Hi).
    exists i. exact Hi.
  - vm_compute in Ep. injection Ep as <-. vm_compute in Et. discriminate Et.
Defined.
