(* ===== verification/Sv2Server.v ===== *)
(** * The Stratum V2 mining server ([pool/src/sv2/mining/server.ts], [main.ts])

    One process, many connections: the Noise handshake, the setup exchange, channels and
    shares.  The handlers of share submissions are asynchronous: [processSubmit] awaits
    the submission of a block, and [replySubmit] runs when the promise of [processSubmit]
    has settled, so what is left of a submission is a task, and tasks, reads, closes and
    template polls interleave ([step]).  Nobody waits for the promise of
    [handleSubmitStd] and [handleSubmitExt]: when it is rejected the process ends
    ([crashed]).  A socket is the list of buffers written to it and a flag; writing to a
    destroyed socket does nothing.  [randomBytes k n] are the [n] bytes of the [k]-th draw. *)

From S2P Require Import Prelude JsString JsMap JsNumber Effects Header Difficulty JobManager B3Pow PadCache.
From S2P Require Import ShareValidator Ipc Sv2Types Sv2Messages Noise Sv2Keys Sv2Channel.
Import Common Mining.

Inductive ConnState := HANDSHAKE_M1 | HANDSHAKE_DONE | SETUP_PENDING | READY | DEAD.
#[global] Instance ConnState_eq_dec : EqDecision ConnState.
Proof. solve_decision. Defined.

Inductive hs_phase := PhaseM1 | PhaseM2_SENT.
Record PendingHs := { phase : hs_phase; nx : NoiseNX; hs_buf : bytes }.
Record Setup := { su_protocol : Z; su_usedVersion : Z; su_flags : Z }.

Record Conn := mkConn {
  c_id : Z;
  c_state : ConnState;
  c_hs : option PendingHs;
  c_transport : option NoiseTransport;
  c_plain : bytes;
  c_ct : bytes;
  c_channels : ChannelTable;
  c_setup : option Setup;
  c_destroyed : bool;
  c_written : list bytes
}.

(** One assignment to a field. *)
Definition set_c_id (v : Z) (c : Conn) : Conn :=
  mkConn v (c_state c) (c_hs c) (c_transport c) (c_plain c) (c_ct c) (c_channels c) (c_setup c) (c_destroyed c)
    (c_written c).
Definition set_c_state (v : ConnState) (c : Conn) : Conn :=
  mkConn (c_id c) v (c_hs c) (c_transport c) (c_plain c) (c_ct c) (c_channels c) (c_setup c) (c_destroyed c)
    (c_written c).
Definition set_c_hs (v : option PendingHs) (c : Conn) : Conn :=
  mkConn (c_id c) (c_state c) v (c_transport c) (c_plain c) (c_ct c) (c_channels c) (c_setup c) (c_destroyed c)
    (c_written c).
Definition set_c_transport (v : option NoiseTransport) (c : Conn) : Conn :=
  mkConn (c_id c) (c_state c) (c_hs c) v (c_plain c) (c_ct c) (c_channels c) (c_setup c) (c_destroyed c)
    (c_written c).
Definition set_c_plain (v : bytes) (c : Conn) : Conn :=
  mkConn (c_id c) (c_state c) (c_hs c) (c_transport c) v (c_ct c) (c_channels c) (c_setup c) (c_destroyed c)
    (c_written c).
Definition set_c_ct (v : bytes) (c : Conn) : Conn :=
  mkConn (c_id c) (c_state c) (c_hs c) (c_transport c) (c_plain c) v (c_channels c) (c_setup c) (c_destroyed c)
    (c_written c).
Definition set_c_channels (v : ChannelTable) (c : Conn) : Conn :=
  mkConn (c_id c) (c_state c) (c_hs c) (c_transport c) (c_plain c) (c_ct c) v (c_setup c) (c_destroyed c)
    (c_written c).
Definition set_c_setup (v : option Setup) (c : Conn) : Conn :=
  mkConn (c_id c) (c_state c) (c_hs c) (c_transport c) (c_plain c) (c_ct c) (c_channels c) v (c_destroyed c)
    (c_written c).
Definition set_c_destroyed (v : bool) (c : Conn) : Conn :=
  mkConn (c_id c) (c_state c) (c_hs c) (c_transport c) (c_plain c) (c_ct c) (c_channels c) (c_setup c) v
    (c_written c).
Definition set_c_written (v : list bytes) (c : Conn) : Conn :=
  mkConn (c_id c) (c_state c) (c_hs c) (c_transport c) (c_plain c) (c_ct c) (c_channels c) (c_setup c)
    (c_destroyed c) v.

(** What is left of a submission on connection [i]: the reply, or, before it, the rest of
    [processSubmit] after [submitBlock]. *)
Inductive sv2_task :=
| TReply (i : nat) (channelId seq : Z) (r : SubmitOutcome)
| TBlock (i : nat) (args : SubmitArgs) (blockHex : jsstr) (check : ShareCheckOk).

Record mining := mkMining {
  nextConnId : Z;
  objs : list Conn;
  conns : list nat;
  jobsBySv2Id : list (Z * nat);
  sv2JobIdCounter : Z;
  draws : nat;
  jobs : JobManager;
  pads : world;
  shares : list ShareEvent;
  tasks : list sv2_task;
  crashed : bool
}.

Definition set_nextConnId (v : Z) (s : mining) : mining :=
  mkMining v (objs s) (conns s) (jobsBySv2Id s) (sv2JobIdCounter s) (draws s) (jobs s) (pads s) (shares s)
    (tasks s) (crashed s).
Definition set_objs (v : list Conn) (s : mining) : mining :=
  mkMining (nextConnId s) v (conns s) (jobsBySv2Id s) (sv2JobIdCounter s) (draws s) (jobs s) (pads s) (shares s)
    (tasks s) (crashed s).
Definition set_conns (v : list nat) (s : mining) : mining :=
  mkMining (nextConnId s) (objs s) v (jobsBySv2Id s) (sv2JobIdCounter s) (draws s) (jobs s) (pads s) (shares s)
    (tasks s) (crashed s).
Definition set_jobsBySv2Id (v : list (Z * nat)) (s : mining) : mining :=
  mkMining (nextConnId s) (objs s) (conns s) v (sv2JobIdCounter s) (draws s) (jobs s) (pads s) (shares s) (tasks
    s) (crashed s).
Definition set_sv2JobIdCounter (v : Z) (s : mining) : mining :=
  mkMining (nextConnId s) (objs s) (conns s) (jobsBySv2Id s) v (draws s) (jobs s) (pads s) (shares s) (tasks s)
    (crashed s).
Definition set_draws (v : nat) (s : mining) : mining :=
  mkMining (nextConnId s) (objs s) (conns s) (jobsBySv2Id s) (sv2JobIdCounter s) v (jobs s) (pads s) (shares s)
    (tasks s) (crashed s).
Definition set_jobs (v : JobManager) (s : mining) : mining :=
  mkMining (nextConnId s) (objs s) (conns s) (jobsBySv2Id s) (sv2JobIdCounter s) (draws s) v (pads s) (shares s)
    (tasks s) (crashed s).
Definition set_pads (v : world) (s : mining) : mining :=
  mkMining (nextConnId s) (objs s) (conns s) (jobsBySv2Id s) (sv2JobIdCounter s) (draws s) (jobs s) v (shares s)
    (tasks s) (crashed s).
Definition set_shares (v : list ShareEvent) (s : mining) : mining :=
  mkMining (nextConnId s) (objs s) (conns s) (jobsBySv2Id s) (sv2JobIdCounter s) (draws s) (jobs s) (pads s) v
    (tasks s) (crashed s).
Definition set_tasks (v : list sv2_task) (s : mining) : mining :=
  mkMining (nextConnId s) (objs s) (conns s) (jobsBySv2Id s) (sv2JobIdCounter s) (draws s) (jobs s) (pads s)
    (shares s) v (crashed s).
Definition set_crashed (v : bool) (s : mining) : mining :=
  mkMining (nextConnId s) (objs s) (conns s) (jobsBySv2Id s) (sv2JobIdCounter s) (draws s) (jobs s) (pads s)
    (shares s) (tasks s) v.

(** [Sv2ServerOptions], the part that is data. *)
Record Sv2ServerOptions := {
  opt_staticKey : KeyPair;
  opt_cert : Sv2Certificate;
  opt_defaultDifficulty : jsnum;
  opt_payoutAddress : jsstr
}.

Definition appendBytes (a b : bytes) : res bytes :=
  out ← ta_set (zeros (zlen a + zlen b)) a 0;
  ta_set out b (zlen a).
Definition readU16LE (b : bytes) (off : Z) : Z := le_val (slice off (off + 2) b).
Definition readU32LE (b : bytes) (off : Z) : Z := le_val (slice off (off + 4) b).
Definition hexToReversedBytes (hex : jsstr) : res bytes := b ← hexToBytes hex; Ok (reverse b).

Section Server.
Context `{Sha256} `{Blake3} `{NoiseCrypto} `{Ed25519}.
Context (opts : Sv2ServerOptions) (randomBytes : nat -> Z -> bytes).

(** The connection [i]. *)
Definition on {A} (i : nat) (m : eff Conn A) : eff mining A := fun s =>
  match objs s !! i with
  | Some c => let '(r, c') := m c in (r, set_objs (<[i := c']> (objs s)) s)
  | None => (Throw "no such connection", s)
  end.
Definition conn (i : nat) : eff mining Conn := on i get.
Definition upd (i : nat) (f : Conn -> Conn) : eff mining unit := on i (modify f).
Definition destroy (i : nat) : eff mining unit := upd i (set_c_destroyed true).
Definition write (b : bytes) : eff Conn unit :=
  modify (fun c => if c_destroyed c then c else set_c_written (c_written c ++ [b]) c).

(** A method of an object that the connection holds. *)
Definition on_channels {A} (m : eff ChannelTable A) : eff Conn A := fun c =>
  let '(r, t) := m (c_channels c) in (r, set_c_channels t c).
Definition on_nx {A} (hs : PendingHs) (m : eff NoiseNX A) : eff Conn A := fun c =>
  let '(r, x) := m (nx hs) in (r, set_c_hs (Some {| phase := phase hs; nx := x; hs_buf := hs_buf hs |}) c).
Definition on_transport {A} (t : NoiseTransport) (m : eff NoiseTransport A) : eff Conn A := fun c =>
  let '(r, t) := m t in (r, set_c_transport (Some t) c).

(** The next draw of random bytes. *)
Definition draw : eff mining (Z -> bytes) :=
  s ← get; _ ← modify (fun s => set_draws (S (draws s)) s); mret (randomBytes (draws s)).

(** ** Sending *)
Definition conn_send (plainFrame : bytes) : eff Conn unit :=
  c ← get;
  match c_transport c with
  | None => mret tt
  | Some t =>
      if zlen plainFrame <? SV2_HEADER_LEN then mret tt else
      ct ← on_transport t (encryptFrame plainFrame);
      write ct
  end.
Definition send (i : nat) (plainFrame : bytes) : eff mining unit := on i (conn_send plainFrame).

(** ** Jobs *)
Definition new_job_id : eff mining Z :=
  _ ← modify (fun s => set_sv2JobIdCounter (nextSv2JobId (sv2JobIdCounter s)) s);
  s ← get; mret (sv2JobIdCounter s).

(** [keys().next().value] is the oldest key. *)
Definition trim_jobs (m : list (Z * nat)) : list (Z * nat) := if 4096 <? zlen m then tail m else m.

(** The job at [l] of the job manager's heap. *)
Definition pushJobToChannel (i : nat) (channelId : Z) (l : nat) : eff mining unit :=
  c ← conn i;
  s ← get;
  match get_channel channelId (c_channels c), heap (jobs s) !! l with
  | Some ch, Some job =>
      sv2JobId ← new_job_id;
      _ ← (match ch_kind ch with
           | standard => r ← lift (buildNewStandardJob ch (ctx job) sv2JobId); send i (snd (fst r))
           | extended => r ← lift (buildNewExtendedJob ch (ctx job) sv2JobId); send i (snd r)
           end);
      r ← lift (buildSetNewPrevHash ch job sv2JobId);
      _ ← send i (snd r);
      _ ← upd i (fun c => set_c_channels (update_channel (ch_id ch) (set_lastJobId sv2JobId) (c_channels c)) c);
      modify (fun s => set_jobsBySv2Id (trim_jobs (map_set sv2JobId l (jobsBySv2Id s))) s)
  | _, _ => mret tt
  end.

Definition lookupJob (sv2JobId : Z) (s : mining) : option StratumJob :=
  l ← map_get sv2JobId (jobsBySv2Id s); heap (jobs s) !! l.

Definition broadcastJob (l : nat) : eff mining unit :=
  s ← get;
  for_each (fun i =>
    c ← conn i;
    when (bool_decide (c_state c = READY))
      (for_each (fun ch => pushJobToChannel i (ch_id ch) l) (all_channels (c_channels c)))) (conns s).

Definition push_current (i : nat) (channelId : Z) : eff mining unit :=
  s ← get;
  match currentJob (jobs s) with
  | Some l => pushJobToChannel i channelId l
  | None => mret tt
  end.

(** ** Setup and channels *)
Definition handleSetup (i : nat) (payload : bytes) : eff mining unit :=
  m ← lift (decodeSetupConnection payload);
  if negb (sc_protocol m =? SubProtocol_Mining) then
    wire ← lift (encodeSetupConnectionError {| sce_flags := 0; sce_errorCode := js "unsupported-protocol" |});
    _ ← send i wire;
    destroy i
  else
    let used := Z.min (sc_maxVersion m) 2 in
    if used <? sc_minVersion m then
      wire ← lift (encodeSetupConnectionError {| sce_flags := 0; sce_errorCode := js "protocol-version-mismatch" |});
      _ ← send i wire;
      destroy i
    else
      _ ← upd i (set_c_setup (Some {| su_protocol := sc_protocol m; su_usedVersion := used; su_flags := sc_flags m |}));
      wire ← lift (encodeSetupConnectionSuccess {| scs_usedVersion := used; scs_flags := 0 |});
      _ ← send i wire;
      upd i (set_c_state READY).

Definition open_on (i : nat) (o : OpenOpts) : eff mining ChannelState :=
  random ← draw;
  on i (on_channels (open_channel o random)).

Definition handleOpenStandard (i : nat) (payload : bytes) : eff mining unit :=
  m ← lift (decodeOpenStandardMiningChannel payload);
  ch ← open_on i {| o_kind := standard; o_requestId := osmc_requestId m; o_userIdentity := osmc_userIdentity m;
                    o_nominalHashRate := osmc_nominalHashRate m; o_defaultDifficulty := opt_defaultDifficulty opts;
                    o_prefixLen := None |};
  wire ← lift (encodeOpenStandardMiningChannelSuccess {|
    osmcs_requestId := osmc_requestId m; osmcs_channelId := ch_id ch; osmcs_target := ch_targetBE ch;
    osmcs_extranoncePrefix := ch_extranoncePrefix ch; osmcs_groupChannelId := ch_groupChannelId ch |});
  _ ← send i wire;
  t ← lift (buildSetTarget ch);
  _ ← send i (snd t);
  push_current i (ch_id ch).

Definition handleOpenExtended (i : nat) (payload : bytes) : eff mining unit :=
  m ← lift (decodeOpenExtendedMiningChannel payload);
  let prefixLen := Z.min (Z.max (SV2_EXTRANONCE_TOTAL - oemc_minExtranonceSize m) 1) (SV2_EXTRANONCE_TOTAL - 1) in
  if SV2_EXTRANONCE_TOTAL - 1 <? oemc_minExtranonceSize m then
    wire ← lift (encodeOpenChannelError MSG_OPEN_EXT_CHANNEL_ERROR
      {| oce_requestId := oemc_requestId m; oce_errorCode := js "min-extranonce-size-too-large" |});
    send i wire
  else
    ch ← open_on i {| o_kind := extended; o_requestId := oemc_requestId m; o_userIdentity := oemc_userIdentity m;
                      o_nominalHashRate := oemc_nominalHashRate m; o_defaultDifficulty := opt_defaultDifficulty opts;
                      o_prefixLen := Some prefixLen |};
    wire ← lift (encodeOpenExtendedMiningChannelSuccess {|
      oemcs_requestId := oemc_requestId m; oemcs_channelId := ch_id ch; oemcs_target := ch_targetBE ch;
      oemcs_extranonceSize := ch_extranonceSize ch; oemcs_extranoncePrefix := ch_extranoncePrefix ch |});
    _ ← send i wire;
    t ← lift (buildSetTarget ch);
    _ ← send i (snd t);
    push_current i (ch_id ch).

Definition handleUpdate (i : nat) (payload : bytes) : eff mining unit :=
  _ ← lift (decodeUpdateChannel payload); mret tt.

Definition handleClose (i : nat) (payload : bytes) : eff mining unit :=
  if zlen payload <? 4 then mret tt
  else
    let channelId := readU32LE payload 0 in
    upd i (fun c => set_c_channels (delete_channel channelId (c_channels c)) c).

(** ** Shares *)
Definition submit_error (i : nat) (channelId seq : Z) (code : jsstr) : eff mining unit :=
  wire ← lift (encodeSubmitSharesError {| sserr_channelId := channelId; sserr_sequenceNumber := seq; sserr_errorCode := code |});
  send i wire.

(** The rest of a submission. *)
Definition pending_task (i : nat) (args : SubmitArgs) (p : submit_progress) : sv2_task :=
  match p with
  | Done r => TReply i (ch_id (a_channel args)) (a_sequenceNumber args) r
  | AwaitBlock hex check => TBlock i args hex check
  end.
(** The call of [processSubmit], up to where it awaits or returns. *)
Definition submit (i : nat) (args : SubmitArgs) (now : Z) : eff mining unit :=
  s ← get;
  let '(r, w) := processSubmit args now (pads s) in
  _ ← modify (set_pads w);
  p ← lift r;
  modify (fun s => set_tasks (tasks s ++ [pending_task i args p]) s).

Definition submit_args (ch : ChannelState) (job : StratumJob) (seq nonce ntime version : Z) (extranonce : bytes) : SubmitArgs := {|
  a_channel := ch; a_job := ctx job; a_sequenceNumber := seq; a_nonce := nonce; a_ntime := ntime; a_version := version;
  a_extranonce := extranonce; a_blockHeight := jc_height (ctx job);
  a_networkDifficulty := Some (networkDifficultyFromBits (jc_bits (ctx job))) |}.

Definition handleSubmitStd (i : nat) (payload : bytes) (now : Z) : eff mining unit :=
  m ← lift (decodeSubmitSharesStandard payload);
  c ← conn i;
  match get_channel (sss_channelId m) (c_channels c) with
  | None => submit_error i (sss_channelId m) (sss_sequenceNumber m) (js "no-such-channel")
  | Some ch =>
      s ← get;
      match lookupJob (sss_jobId m) s with
      | None => submit_error i (sss_channelId m) (sss_sequenceNumber m) (js "stale-job")
      | Some job =>
          submit i (submit_args ch job (sss_sequenceNumber m) (sss_nonce m) (sss_ntime m) (sss_version m) []) now
      end
  end.

Definition handleSubmitExt (i : nat) (payload : bytes) (now : Z) : eff mining unit :=
  m ← lift (decodeSubmitSharesExtended payload);
  c ← conn i;
  match get_channel (ssx_channelId m) (c_channels c) with
  | None => submit_error i (ssx_channelId m) (ssx_sequenceNumber m) (js "no-such-channel")
  | Some ch =>
      s ← get;
      match lookupJob (ssx_jobId m) s with
      | None => submit_error i (ssx_channelId m) (ssx_sequenceNumber m) (js "stale-job")
      | Some job =>
          submit i (submit_args ch job (ssx_sequenceNumber m) (ssx_nonce m) (ssx_ntime m) (ssx_version m) (ssx_extranonce m)) now
      end
  end.

(** [BigInt(Math.max(1, Math.floor(d)))]. *)
Definition shares_sum (d : jsnum) : res Z :=
  z ← bigint_of (math_floor d); Ok (Z.max 1 z).

Definition replySubmit (i : nat) (channelId seq : Z) (r : SubmitOutcome) : eff mining unit :=
  match r with
  | SubmitFail reason => submit_error i channelId seq reason
  | SubmitOk _ event =>
      c ← conn i;
      let ch := get_channel channelId (c_channels c) in
      _ ← upd i (fun c => set_c_channels (update_channel channelId (set_lastAcceptedSequence seq) (c_channels c)) c);
      sum ← lift (shares_sum (default n1 (ch_shareDifficulty <$> ch)));
      wire ← lift (encodeSubmitSharesSuccess {| ssok_channelId := channelId; ssok_lastSequenceNumber := seq;
        ssok_newSubmitsAcceptedCount := 1; ssok_newSharesSum := sum |});
      _ ← send i wire;
      modify (fun s => set_shares (shares s ++ [event]) s)
  end.

(** The promise of an [async] function that nobody waits for. *)
Definition detached (m : eff mining unit) : eff mining unit := try_catch m (fun _ => modify (set_crashed true)).

(** ** Frames *)
Definition dispatch (i : nat) (f : Sv2Frame) (now : Z) : eff mining unit :=
  let t := msgType (header f) in
  c ← conn i;
  if bool_decide (c_state c = SETUP_PENDING) then
    if (extensionType (header f) =? 0) && (t =? MSG_SETUP_CONNECTION) then handleSetup i (payload f)
    else destroy i
  else if negb (bool_decide (c_state c = READY)) then mret tt
  else if t =? MSG_OPEN_STD_CHANNEL then handleOpenStandard i (payload f)
  else if t =? MSG_OPEN_EXT_CHANNEL then handleOpenExtended i (payload f)
  else if t =? MSG_SUBMIT_SHARES_STANDARD then detached (handleSubmitStd i (payload f) now)
  else if t =? MSG_SUBMIT_SHARES_EXTENDED then detached (handleSubmitExt i (payload f) now)
  else if t =? MSG_UPDATE_CHANNEL then handleUpdate i (payload f)
  else if t =? MSG_CLOSE_CHANNEL then handleClose i (payload f)
  else mret tt.

(** [splitFrames(conn.plain)]; what is left over stays. *)
Definition plain_frames (i : nat) (plain : bytes) : eff mining (list Sv2Frame) :=
  c ← conn i;
  p ← lift (appendBytes (c_plain c) plain);
  _ ← upd i (set_c_plain p);
  r ← lift (splitFrames p);
  _ ← upd i (set_c_plain (drop (Z.to_nat (snd r)) p));
  mret (fst r).
Definition handlePlainBytes (i : nat) (plain : bytes) (now : Z) : eff mining unit :=
  frames ← plain_frames i plain;
  for_each (fun f => dispatch i f now) frames.

(** [decryptFrames(conn.ct)], and what is done with the frames. *)
Definition cipher_frames (i : nat) (t : NoiseTransport) : eff mining (list bytes) :=
  c ← conn i;
  r ← on i (on_transport t (decryptFrames (c_ct c)));
  _ ← upd i (set_c_ct (drop (Z.to_nat (snd r)) (c_ct c)));
  mret (fst r).
Definition decrypt_ct (i : nat) (t : NoiseTransport) (now : Z) : eff mining unit :=
  frames ← cipher_frames i t;
  for_each (fun fr => handlePlainBytes i fr now) frames.

(** [handleHandshake] up to the bytes that are left over: the transport, when there are any. *)
Definition handshake (i : nat) (chunk : bytes) : eff mining (option NoiseTransport) :=
  c ← conn i;
  match c_hs c with
  | None => throw "hs missing"
  | Some hs =>
      buf ← lift (appendBytes (hs_buf hs) chunk);
      let set_hs p x b := upd i (set_c_hs (Some {| phase := p; nx := x; hs_buf := b |})) in
      _ ← set_hs (phase hs) (nx hs) buf;
      match phase hs with
      | PhaseM2_SENT => mret None
      | PhaseM1 =>
          if zlen buf <? 2 then mret None else
          let len := readU16LE buf 0 in
          if zlen buf <? 2 + len then mret None else
          let m1 := slice 2 (2 + len) buf in
          let buf := drop (Z.to_nat (2 + len)) buf in
          let hs := {| phase := PhaseM1; nx := nx hs; hs_buf := buf |} in
          _ ← upd i (set_c_hs (Some hs));
          _ ← on i (on_nx hs (readMessage1 m1));
          certBytes ← lift (encodeCertificate (opt_cert opts));
          random ← draw;
          c ← conn i;
          let hs := default hs (c_hs c) in
          m2 ← on i (on_nx hs (writeMessage2 (random 32) certBytes));
          out ← lift (ta_set (le_bytes 2 (zlen m2) ++ zeros (zlen m2)) m2 2);
          _ ← on i (write out);
          c ← conn i;
          let hs := default hs (c_hs c) in
          fin ← on i (on_nx hs finishResponder);
          let t := {| t_send := sendCipher fin; t_recv := recvCipher fin |} in
          _ ← upd i (set_c_transport (Some t));
          _ ← upd i (set_c_state SETUP_PENDING);
          _ ← set_hs PhaseM2_SENT (nx hs) buf;
          if zlen buf =? 0 then mret None else
          ct ← lift (appendBytes (c_ct c) buf);
          _ ← upd i (set_c_ct ct);
          _ ← set_hs PhaseM2_SENT (nx hs) [];
          mret (Some t)
      end
  end.
Definition handleHandshake (i : nat) (chunk : bytes) (now : Z) : eff mining unit :=
  rest ← handshake i chunk;
  match rest with
  | None => mret tt
  | Some t => decrypt_ct i t now
  end.

Definition onData (i : nat) (chunk : bytes) (now : Z) : eff mining unit :=
  c ← conn i;
  if bool_decide (c_state c = DEAD) then mret tt else
  try_catch
    (if bool_decide (c_state c = HANDSHAKE_M1) then handleHandshake i chunk now
     else
       ct ← lift (appendBytes (c_ct c) chunk);
       _ ← upd i (set_c_ct ct);
       match c_transport c with
       | None => mret tt
       | Some t => decrypt_ct i t now
       end)
    (fun _ => destroy i).

(** ** Connections and the rest of the process *)
Definition accept : eff mining unit :=
  nx ← lift (new_NoiseNX responder (Some (opt_staticKey opts)));
  modify (fun s =>
    let c := {| c_id := nextConnId s; c_state := HANDSHAKE_M1; c_hs := Some {| phase := PhaseM1; nx := nx; hs_buf := [] |};
                c_transport := None; c_plain := []; c_ct := []; c_channels := new_ChannelTable; c_setup := None;
                c_destroyed := false; c_written := [] |} in
    set_nextConnId (nextConnId s + 1) (set_conns (conns s ++ [length (objs s)]) (set_objs (objs s ++ [c]) s))).

Definition onClose (i : nat) : eff mining unit :=
  _ ← upd i (set_c_state DEAD);
  _ ← destroy i;
  modify (fun s => set_conns (set_delete i (conns s)) s).

(** [close()] of the server. *)
Definition close_all : eff mining unit := s ← get; for_each destroy (conns s).

(** The job manager polls; its [job] event is handled by [broadcastJob] inside [poll]. *)
Definition on_poll (tpl : option BlockTemplate) : eff mining unit :=
  s ← get;
  let '(m, evs, e) := poll (opt_payoutAddress opts) tpl (jobs s) in
  _ ← modify (set_jobs m);
  _ ← for_each (fun ev => match ev with JobEvent l => broadcastJob l | TemplateError => mret tt end) evs;
  match e with Some e => throw e | None => mret tt end.

(** *** The bridge of the job declaration server *)
Record CustomJob := {
  cj_requestId : Z; cj_miningJobToken : bytes; cj_version : Z; cj_coinbasePrefix : bytes; cj_coinbaseSuffix : bytes
}.
Inductive custom_result := CustomOk | CustomError (reason : jsstr).

Definition push_custom (i : nat) (ch : ChannelState) (job : StratumJob) (a : CustomJob) : eff mining custom_result :=
  customJobId ← new_job_id;
  prev ← lift (hexToReversedBytes (jc_prevHashHexBE (ctx job)));
  wire ← lift (encodeSetCustomMiningJob {|
    scmj_channelId := ch_id ch; scmj_requestId := cj_requestId a; scmj_miningJobToken := cj_miningJobToken a;
    scmj_version := cj_version a; scmj_prevHash := prev; scmj_minNtime := ntimeMin job; scmj_nbits := jc_bits (ctx job);
    scmj_coinbaseTxVersion := 1; scmj_coinbasePrefix := cj_coinbasePrefix a; scmj_coinbaseTxInputNSequence := 0xffffffff;
    scmj_coinbaseTxValueRemaining := 0; scmj_coinbaseTxOutputs := cj_coinbaseSuffix a; scmj_coinbaseTxLocktime := 0;
    scmj_merklePath := [] |});
  _ ← send i wire;
  _ ← upd i (fun c => set_c_channels (update_channel (ch_id ch) (set_lastJobId customJobId) (c_channels c)) c);
  mret CustomOk.

(** The loop [for (const conn of this.conns)]. *)
Fixpoint push_loop (userIdentity : jsstr) (a : CustomJob) (l : list nat) : eff mining custom_result :=
  match l with
  | [] => mret (CustomError (js "no-open-extended-channel-for-user"))
  | i :: l =>
      c ← conn i;
      if negb (bool_decide (c_state c = READY)) then push_loop userIdentity a l else
      match arr_find (fun ch => bool_decide (ch_userIdentity ch = userIdentity /\ ch_kind ch = extended))
              (all_channels (c_channels c)) with
      | None => push_loop userIdentity a l
      | Some ch =>
          s ← get;
          match getCurrent (jobs s) with
          | None => mret (CustomError (js "no-current-template"))
          | Some job => push_custom i ch job a
          end
      end
  end.
Definition pushCustomJob (userIdentity : jsstr) (a : CustomJob) : eff mining custom_result :=
  s ← get; push_loop userIdentity a (conns s).

(** ** The process *)

(** A task goes on: [submitBlock] has settled, or [replySubmit] runs. *)
Definition resume (k : nat) (now : Z) : eff mining unit :=
  s ← get;
  match tasks s !! k with
  | None => mret tt
  | Some t =>
      _ ← modify (fun s => set_tasks (delete k (tasks s)) s);
      match t with
      | TReply i channelId seq r => detached (replySubmit i channelId seq r)
      | TBlock i args _ check =>
          let r := processSubmit_after args check now in
          modify (fun s => set_tasks (tasks s ++ [TReply i (ch_id (a_channel args)) (a_sequenceNumber args) r]) s)
      end
  end.

Inductive event :=
| EvConnect
| EvData (i : nat) (chunk : bytes) (now : Z)
| EvClose (i : nat)
| EvPoll (tpl : option BlockTemplate)
| EvCustomJob (userIdentity : jsstr) (a : CustomJob)
| EvResume (k : nat) (now : Z).

Definition is_open (i : nat) (s : mining) : bool :=
  match objs s !! i with Some c => negb (c_destroyed c) | None => false end.

Definition step (e : event) (s : mining) : mining :=
  if crashed s then s
  else match e with
  | EvConnect => snd (accept s)
  | EvData i chunk now => if is_open i s then snd (onData i chunk now s) else s
  | EvClose i => if bool_decide (i ∈ conns s) then snd (onClose i s) else s
  | EvPoll tpl => snd (detached (on_poll tpl) s)
  | EvCustomJob user a => snd (detached (_ ← pushCustomJob user a; mret tt) s)
  | EvResume k now => snd (resume k now s)
  end.

Definition run (es : list event) (s : mining) : mining := foldl (fun s e => step e s) s es.

Definition init_mining (w : world) : mining := {|
  nextConnId := 1; objs := []; conns := []; jobsBySv2Id := []; sv2JobIdCounter := 0; draws := 0; jobs := jm_init;
  pads := w; shares := []; tasks := []; crashed := false |}.
End Server.
