(* ===== verification/Sv2Proofs.v ===== *)
(** * The Stratum V2 mining server: what holds in every run

    Every share the server reports comes from a frame that a ready connection sent, has been
    hashed and has the work: an invariant of the pending tasks and of the reports, which
    every handler keeps.  [frames] lists the frames that a run handles. *)

From S2P Require Import Prelude JsString JsMap JsNumber JsRound Effects Header Difficulty Node JobManager B3Pow PadCache.
From S2P Require Import ShareValidator Ipc Sv2Types Sv2Messages Noise Sv2Keys Sv2Channel Sv2Server.
Import Common Mining.

Section Proofs.
Context `{Sha256Ok} `{Blake3Ok} `{NoiseCryptoOk} `{Ed25519}.
Context (opts : Sv2ServerOptions) (randomBytes : nat -> Z -> bytes) (cap : Z).

(** ** The frames of a run *)

(** A frame, the connection it came from, the time and the state in which it is handled. *)
Record framed := { fr_conn : nat; fr_frame : Sv2Frame; fr_now : Z; fr_state : mining }.

Definition plain_log (i : nat) (plain : bytes) (now : Z) (s : mining) : list framed :=
  match plain_frames i plain s with
  | (Ok fs, s) => (fun v => {| fr_conn := i; fr_frame := v.1; fr_now := now; fr_state := v.2 |}) <$>
                  visits (fun f => dispatch opts randomBytes i f now) fs s
  | (Throw _, _) => []
  end.
Definition cipher_log (i : nat) (t : NoiseTransport) (now : Z) (s : mining) : list framed :=
  match cipher_frames i t s with
  | (Ok frs, s) => visits (fun fr => handlePlainBytes opts randomBytes i fr now) frs s ≫= fun v => plain_log i v.1 now v.2
  | (Throw _, _) => []
  end.
Definition data_log (i : nat) (chunk : bytes) (now : Z) (s : mining) : list framed :=
  match objs s !! i with
  | Some c =>
      if bool_decide (c_state c = DEAD) then []
      else if bool_decide (c_state c = HANDSHAKE_M1) then
        match handshake opts randomBytes i chunk s with
        | (Ok (Some t), s) => cipher_log i t now s
        | _ => []
        end
      else
        match appendBytes (c_ct c) chunk, c_transport c with
        | Ok ct, Some t => cipher_log i t now (set_objs (<[i := set_c_ct ct c]> (objs s)) s)
        | _, _ => []
        end
  | None => []
  end.
Definition step_log (e : event) (s : mining) : list framed :=
  match e with
  | EvData i chunk now => if crashed s || negb (is_open i s) then [] else data_log i chunk now s
  | _ => []
  end.
Fixpoint frames (es : list event) (s : mining) : list framed :=
  match es with
  | [] => []
  | e :: es => step_log e s ++ frames es (step opts randomBytes e s)
  end.

(** ** Submissions *)
Record sv2_submission := {
  vs_channel : ChannelState;
  vs_job : StratumJob;
  vs_nonce : Z;
  vs_ntime : Z;
  vs_extranonce : bytes
}.

(** The frame is a [SubmitSharesStandard] or [SubmitSharesExtended] message of a ready
    connection, for a channel of that connection and a job that the server knows. *)
Definition submitted_in (r : framed) (x : sv2_submission) : Prop :=
  exists c, objs (fr_state r) !! fr_conn r = Some c /\ c_state c = READY /\
    ((msgType (header (fr_frame r)) = MSG_SUBMIT_SHARES_STANDARD /\
      exists m, decodeSubmitSharesStandard (payload (fr_frame r)) = Ok m /\
        get_channel (sss_channelId m) (c_channels c) = Some (vs_channel x) /\ lookupJob (sss_jobId m) (fr_state r) = Some (vs_job x) /\
        vs_nonce x = sss_nonce m /\ vs_ntime x = sss_ntime m /\ vs_extranonce x = []) \/
     (msgType (header (fr_frame r)) = MSG_SUBMIT_SHARES_EXTENDED /\
      exists m, decodeSubmitSharesExtended (payload (fr_frame r)) = Ok m /\
        get_channel (ssx_channelId m) (c_channels c) = Some (vs_channel x) /\ lookupJob (ssx_jobId m) (fr_state r) = Some (vs_job x) /\
        vs_nonce x = ssx_nonce m /\ vs_ntime x = ssx_ntime m /\ vs_extranonce x = ssx_extranonce m)).

(** The share: the template of the job with the prefix of the channel and what was sent.
    The slot has 8 bytes; a prefix that left it short would be followed by zeros. *)
Definition vs_share (x : sv2_submission) : ShareInput := {|
  si_job := ctx (vs_job x);
  extranonce1Hex := bytesToHex (ch_extranoncePrefix (vs_channel x));
  extranonce2Hex := bytesToHex (vs_extranonce x ++ zeros (8 - zlen (ch_extranoncePrefix (vs_channel x)) - zlen (vs_extranonce x)));
  si_ntime := num_of_Z (vs_ntime x);
  si_nonce := num_of_Z (vs_nonce x);
  shareDifficulty := ch_shareDifficulty (vs_channel x) |}.

(** The header of the submission is hashed by the node to a value that reaches the target
    of the channel's difficulty or the network target; the event names the channel's user,
    its difficulty and the height of the job, and as a block the hash of that header. *)
Definition work_of (x : sv2_submission) (e : ShareEvent) : Prop :=
  zlen (vs_extranonce x) = ch_extranonceSize (vs_channel x) /\
  exists b h pad t nt, buildHeader (vs_share x) = Ok b /\
    Cpp.InitScratchpad (prevHashLE b) = Some pad /\ (forall clock, Cpp.Hash (b_header b) pad 0 clock = Some (Some h, false)) /\
    targetFromShareDifficulty (ch_shareDifficulty (vs_channel x)) = Ok t /\ hexToBytes (networkTargetHexBE (ctx (vs_job x))) = Ok nt /\
    (le_val h <= t \/ le_val h <= bigIntFromBytesLE (reverseBytes nt)) /\
    se_isBlock e = (le_val h <=? bigIntFromBytesLE (reverseBytes nt)) /\
    (se_isBlock e = true -> se_blockHash e = Some (bytesToHex (reverseBytes (doubleSha256 (b_header b))))) /\
    se_user e = ch_userIdentity (vs_channel x) /\ se_diff e = ch_shareDifficulty (vs_channel x) /\
    se_blockHeight e = Some (jc_height (ctx (vs_job x))).

(** The arguments of [processSubmit] are those of the submission. *)
Definition args_of (x : sv2_submission) (args : SubmitArgs) : Prop :=
  a_channel args = vs_channel x /\ a_job args = ctx (vs_job x) /\ a_nonce args = vs_nonce x /\ a_ntime args = vs_ntime x /\
  a_extranonce args = vs_extranonce x /\ a_blockHeight args = jc_height (ctx (vs_job x)).

Lemma ta_set_beyond dst src off : zlen dst < off + zlen src -> ta_set dst src off = Throw "offset is out of bounds".
Proof. intros Hl. unfold ta_set. by destruct (Z.leb_spec (off + zlen src) (zlen dst)); [lia|]. Qed.

Lemma submit_input_share args s x : args_of x args -> submit_input args = Ok s ->
  s = vs_share x /\ zlen (vs_extranonce x) = ch_extranonceSize (vs_channel x).
Proof.
  intros (E1 & E2 & E3 & E4 & E5 & _). unfold submit_input, fullExtranonce, SV2_EXTRANONCE_TOTAL. rewrite E1, E2, E3, E4, E5.
  destruct (Z.eqb_spec (zlen (vs_extranonce x)) (ch_extranonceSize (vs_channel x))) as [Ez|]; [|done]. cbn [negb throw_if mbind res_bind].
  set (p := ch_extranoncePrefix (vs_channel x)).
  destruct (Z.le_gt_cases (zlen p) 8) as [Hp|Hp]; [|by rewrite ta_set_beyond by (rewrite ?zlen_zeros; lia)].
  rewrite ta_set_zeros by done. cbn [mbind res_bind].
  destruct (Z.le_gt_cases (zlen (vs_extranonce x)) (8 - zlen p)) as [Hs|Hs].
  - rewrite ta_set_append by done. cbn [mbind res_bind]. intros [= <-]. split; [|done]. unfold vs_share. fold p.
    rewrite <- app_assoc, slice_app_l, drop_app_zlen by done. done.
  - by rewrite ta_set_beyond by (rewrite zlen_app, zlen_zeros; lia).
Qed.

Lemma validate_worked x args s now w check w' now' : args_of x args -> submit_input args = Ok s -> reachable cap w ->
  validateShare now s w = (Ok (ShareOk check), w') -> work_of x (submit_event args check now').
Proof.
  intros Ha Es Hw Ev. destruct (submit_input_share args s x Ha Es) as [-> Hz]. destruct Ha as (E1 & _ & _ & _ & _ & E6).
  destruct (validate_work cap w now _ check w' Hw Ev) as (b & h & pad & t & nt & Eb & Ei & Eh & Et & En & Hm & Hb & Ho & Hh).
  split; [done|]. exists b, h, pad, t, nt. cbn [submit_event se_diff se_isBlock se_blockHash se_user se_blockHeight]. rewrite E1, E6.
  do 5 (split; [done|]). split; [|split; [done|split; [intros ->; by rewrite Hh|done]]].
  rewrite Hm, Hb in Ho. apply orb_prop in Ho as [Ho|Ho]; apply Z.leb_le in Ho; auto.
Qed.

Section From.
(** The frames that shares may come from. *)
Variable Q : framed -> Prop.

Definition worked (e : ShareEvent) : Prop := exists r x, Q r /\ submitted_in r x /\ work_of x e.

Definition task_worked (t : sv2_task) : Prop :=
  match t with
  | TReply _ _ _ (SubmitOk _ e) => worked e
  | TReply _ _ _ (SubmitFail _) => True
  | TBlock _ args _ check => forall now, worked (submit_event args check now)
  end.

Definition work (s : mining) : Prop := reachable cap (pads s) /\ Forall worked (shares s) /\ Forall task_worked (tasks s).
(** What every handler keeps. *)
Definition work_kept (s s' : mining) : Prop := work s -> work s'.
#[local] Instance work_kept_refl : Reflexive work_kept.
Proof. intros s. exact id. Qed.
#[local] Instance work_kept_trans : Transitive work_kept.
Proof. intros s1 s2 s3 E1 E2 Hs. auto. Qed.

Lemma on_mining {A} i (m : eff Conn A) : keeps work_kept (on i m).
Proof. intros s Hs. unfold on. destruct (objs s !! i) as [c|]; [|done]. by destruct (m c). Qed.
Lemma modify_mining f : (forall s, pads (f s) = pads s /\ shares (f s) = shares s /\ tasks (f s) = tasks s) ->
  keeps work_kept (modify f).
Proof. intros Hf. apply keeps_modify. intros s (R1 & R2 & R3). destruct (Hf s) as (E1 & E2 & E3). unfold work. by rewrite E1, E2, E3. Qed.

(** Walk through a handler. *)
Ltac walk := repeat match goal with
  | |- keeps _ (on _ _) => apply on_mining
  | |- keeps _ (modify _) => apply modify_mining; intros ?; done
  | |- keeps _ _ => solve [auto 2 with sv2 nocore]
  | |- Reflexive _ => exact work_kept_refl
  | |- Transitive _ => exact work_kept_trans
  | |- keeps _ (match _ with _ => _ end) => case_match
  | |- keeps _ _ => first [ apply keeps_bind | apply keeps_ret | apply keeps_throw | apply keeps_lift | apply keeps_get | apply keeps_try
      | apply keeps_when | apply keeps_for_each ]
  | |- keeps _ _ => progress unfold conn, upd, destroy, send, draw, new_job_id
  | |- forall _, _ => intros
  end.
Ltac by_keeps := match goal with |- work_kept _ (?m _).2 => let Hk := fresh in assert (keeps work_kept m) as Hk; [|apply Hk] end.
Create HintDb sv2.

Lemma pushJobToChannel_work i ch l : keeps work_kept (pushJobToChannel i ch l).
Proof. unfold pushJobToChannel. walk. Qed.
#[local] Hint Resolve pushJobToChannel_work : sv2.
Lemma broadcastJob_work l : keeps work_kept (broadcastJob l).
Proof. unfold broadcastJob. walk. Qed.
Lemma push_current_work i ch : keeps work_kept (push_current i ch).
Proof. unfold push_current. walk. Qed.
#[local] Hint Resolve broadcastJob_work push_current_work : sv2.
Lemma open_on_work i o : keeps work_kept (open_on randomBytes i o).
Proof. unfold open_on. walk. Qed.
Lemma submit_error_work i ch seq code : keeps work_kept (submit_error i ch seq code).
Proof. unfold submit_error. walk. Qed.
Lemma push_custom_work i ch job a : keeps work_kept (push_custom i ch job a).
Proof. unfold push_custom. walk. Qed.
#[local] Hint Resolve open_on_work submit_error_work push_custom_work : sv2.
Lemma push_loop_work user a l : keeps work_kept (push_loop user a l).
Proof. induction l as [|i l IH]; cbn [push_loop]; walk. Qed.
#[local] Hint Resolve push_loop_work : sv2.
Lemma detached_work m : keeps work_kept m -> keeps work_kept (detached m).
Proof. intros Hm. unfold detached. walk. Qed.

(** The one handler that adds a task: what it adds has been validated. *)
Lemma submit_work r x i args now : Q r -> submitted_in r x -> args_of x args -> keeps work_kept (submit i args now).
Proof.
  intros Hq Hx Ha s (R1 & R2 & R3). unfold submit. eff_simpl. destruct (processSubmit args now (pads s)) as [v w] eqn:Ep.
  assert (reachable cap w /\ (forall p, v = Ok p -> task_worked (pending_task i args p))) as [Hw Hp].
  { unfold processSubmit in Ep. destruct (submit_input args) as [inp|] eqn:Es; [|injection Ep as <- <-; done].
    pose proof (validate_reachable cap (pads s) now inp R1) as Hr.
    destruct (validateShare now inp (pads s)) as [[[check|reason d]|e] w1] eqn:Ev; cbn [snd] in Hr;
      [|injection Ep as <- <-; split; [done|]; intros p; by intros [= <-]|injection Ep as <- <-; split; [done|]; done].
    assert (forall now', worked (submit_event args check now')) as Hwk.
    { intros now'. exists r, x. do 2 (split; [done|]). exact (validate_worked x args inp now (pads s) check w1 now' Ha Es R1 Ev). }
    destruct (if isBlock check then serializedBlockHex check else None) as [[|c hex]|]; injection Ep as <- <-;
      (split; [done|]; intros p [= <-]; cbn; auto). }
  destruct v as [p|e]; cbn [snd]; [|split; [done|split; [done|done]]].
  split; [done|]. split; [done|]. cbn [tasks set_tasks set_pads]. apply Forall_app. split; [done|]. apply Forall_singleton. by apply Hp.
Qed.

Lemma conn_bind {A} (f : Conn -> eff mining A) i c s : objs s !! i = Some c -> (conn i ≫= f) s = f c s.
Proof.
  intros Hi. unfold conn, on, mbind, eff_bind. rewrite Hi. cbn. rewrite list_insert_id by done. by destruct s.
Qed.

Lemma handleSubmitStd_work r c : Q r -> objs (fr_state r) !! fr_conn r = Some c -> c_state c = READY ->
  msgType (header (fr_frame r)) = MSG_SUBMIT_SHARES_STANDARD ->
  work_kept (fr_state r) (handleSubmitStd (fr_conn r) (payload (fr_frame r)) (fr_now r) (fr_state r)).2.
Proof.
  intros Hq Hi Hc Hm. unfold handleSubmitStd. unfold lift, mbind at 1, eff_bind at 1.
  destruct (decodeSubmitSharesStandard _) as [m|] eqn:Em; [|reflexivity]. rewrite (conn_bind _ _ _ _ Hi).
  destruct (get_channel _ _) as [ch|] eqn:Ec; [|apply submit_error_work]. unfold get, mbind, eff_bind.
  destruct (lookupJob _ _) as [job|] eqn:Ej; [|apply submit_error_work].
  set (x := {| vs_channel := ch; vs_job := job; vs_nonce := sss_nonce m; vs_ntime := sss_ntime m; vs_extranonce := [] |}).
  apply (submit_work r x); [done| |done]. exists c. do 2 (split; [done|]). left. split; [done|]. by exists m.
Qed.
Lemma handleSubmitExt_work r c : Q r -> objs (fr_state r) !! fr_conn r = Some c -> c_state c = READY ->
  msgType (header (fr_frame r)) = MSG_SUBMIT_SHARES_EXTENDED ->
  work_kept (fr_state r) (handleSubmitExt (fr_conn r) (payload (fr_frame r)) (fr_now r) (fr_state r)).2.
Proof.
  intros Hq Hi Hc Hm. unfold handleSubmitExt. unfold lift, mbind at 1, eff_bind at 1.
  destruct (decodeSubmitSharesExtended _) as [m|] eqn:Em; [|reflexivity]. rewrite (conn_bind _ _ _ _ Hi).
  destruct (get_channel _ _) as [ch|] eqn:Ec; [|apply submit_error_work]. unfold get, mbind, eff_bind.
  destruct (lookupJob _ _) as [job|] eqn:Ej; [|apply submit_error_work].
  set (x := {| vs_channel := ch; vs_job := job; vs_nonce := ssx_nonce m; vs_ntime := ssx_ntime m; vs_extranonce := ssx_extranonce m |}).
  apply (submit_work r x); [done| |done]. exists c. do 2 (split; [done|]). right. split; [done|]. by exists m.
Qed.

Lemma detached_step m s : work_kept s (m s).2 -> work_kept s (detached m s).2.
Proof.
  intros Hm. unfold detached, try_catch. destruct (m s) as [[u|e] s']; cbn [snd] in *; [done|]. intros Hs. by apply Hm.
Qed.
#[local] Hint Resolve detached_work : sv2.

Lemma dispatch_work r : Q r -> work_kept (fr_state r) (dispatch opts randomBytes (fr_conn r) (fr_frame r) (fr_now r) (fr_state r)).2.
Proof.
  intros Hq. unfold dispatch. destruct (objs (fr_state r) !! fr_conn r) as [c|] eqn:Hi.
  2: { unfold conn, on, mbind, eff_bind. rewrite Hi. reflexivity. }
  cbv zeta. rewrite (conn_bind _ _ _ _ Hi). case_bool_decide as H_s; [|case_bool_decide as Hc; cbn [negb]; [|reflexivity]].
  - match goal with |- work_kept _ (?m _).2 => assert (keeps work_kept m) as Hk; [unfold handleSetup; walk|apply Hk] end.
  - destruct (_ =? MSG_OPEN_STD_CHANNEL); [by_keeps; unfold handleOpenStandard; walk|].
    destruct (_ =? MSG_OPEN_EXT_CHANNEL); [by_keeps; unfold handleOpenExtended; walk|].
    destruct (Z.eqb_spec (msgType (header (fr_frame r))) MSG_SUBMIT_SHARES_STANDARD); [apply detached_step; by eapply handleSubmitStd_work|].
    destruct (Z.eqb_spec (msgType (header (fr_frame r))) MSG_SUBMIT_SHARES_EXTENDED); [apply detached_step; by eapply handleSubmitExt_work|].
    by_keeps. unfold handleUpdate, handleClose. walk.
Qed.

Lemma plain_work i p now s : Forall Q (plain_log i p now s) -> work_kept s (handlePlainBytes opts randomBytes i p now s).2.
Proof.
  unfold handlePlainBytes, plain_log. assert (keeps work_kept (plain_frames i p)) as Hk by (unfold plain_frames; walk). specialize (Hk s).
  unfold mbind at 1, eff_bind at 1. destruct (plain_frames i p s) as [[fs|e] s1]; cbn [snd] in Hk; [|done]. intros HQ.
  refine (work_kept_trans _ _ _ Hk _). apply (for_each_visits work_kept). intros f s' Hf. rewrite list.Forall_forall in HQ.
  apply (dispatch_work {| fr_conn := i; fr_frame := f; fr_now := now; fr_state := s' |}). apply HQ, list_elem_of_fmap. by exists (f, s').
Qed.

Lemma cipher_work i t now s : Forall Q (cipher_log i t now s) -> work_kept s (decrypt_ct opts randomBytes i t now s).2.
Proof.
  intros HQ. unfold cipher_log in HQ. unfold decrypt_ct. assert (keeps work_kept (cipher_frames i t)) as Hk by (unfold cipher_frames; walk). specialize (Hk s).
  unfold mbind at 1, eff_bind at 1. destruct (cipher_frames i t s) as [[frs|e] s1]; cbn [snd] in Hk; [|done].
  refine (work_kept_trans _ _ _ Hk _). apply (for_each_visits work_kept). intros fr s' Hf. apply plain_work.
  rewrite list.Forall_forall in *. intros r Hr. apply HQ, list_elem_of_bind. by exists (fr, s').
Qed.

Lemma caught_work i m s : work_kept s (m s).2 -> work_kept s (try_catch m (fun _ => destroy i) s).2.
Proof.
  intros Hm. unfold try_catch. destruct (m s) as [[u|e] s']; cbn [snd] in *; [done|]. refine (work_kept_trans _ _ _ Hm _).
  by_keeps. walk.
Qed.

Lemma onData_mining i chunk now s : is_open i s = true -> Forall Q (data_log i chunk now s) -> work_kept s (onData opts randomBytes i chunk now s).2.
Proof.
  unfold is_open, onData, data_log. destruct (objs s !! i) as [c|] eqn:Hi; [|done]. intros _. rewrite (conn_bind _ _ _ _ Hi).
  case_bool_decide; [reflexivity|]. intros HQ. apply caught_work. case_bool_decide.
  - unfold handleHandshake. assert (keeps work_kept (handshake opts randomBytes i chunk)) as Hk by (unfold handshake; walk). specialize (Hk s).
    unfold mbind at 1, eff_bind at 1. destruct (handshake _ _ _ _ s) as [[[t|]|e] s1]; cbn [snd] in Hk; [|done..].
    refine (work_kept_trans _ _ _ Hk _). by apply cipher_work.
  - unfold lift, mbind at 1, eff_bind at 1. destruct (appendBytes _ _) as [ct|]; [|reflexivity].
    unfold upd, on, mbind, eff_bind. rewrite Hi. cbn [modify snd fst]. destruct (c_transport c) as [t|]; [|intros Hw; exact Hw].
    set (s1 := set_objs _ s) in *. assert (work_kept s s1) as Hs by (intros Hw; exact Hw). refine (work_kept_trans _ _ _ Hs _). by apply cipher_work.
Qed.

Lemma add_share_work e : worked e -> keeps work_kept (modify (fun s => set_shares (shares s ++ [e]) s)).
Proof.
  intros He. apply keeps_modify. intros s (R1 & R2 & R3). split; [done|]. split; [|done]. cbn. apply Forall_app. split; [done|].
  by apply Forall_singleton.
Qed.
Lemma replySubmit_work i ch seq r : task_worked (TReply i ch seq r) -> keeps work_kept (replySubmit i ch seq r).
Proof.
  intros Hr. unfold replySubmit. destruct r as [check e|reason]; [|walk].
  repeat (apply keeps_bind; [exact _|walk|intros]). by apply add_share_work.
Qed.

Lemma resume_work k now : keeps work_kept (resume k now).
Proof.
  intros s Hs. unfold resume. eff_simpl. destruct (tasks s !! k) as [t|] eqn:Ek; [|done].
  assert (work (set_tasks (delete k (tasks s)) s) /\ task_worked t) as [Hs' Ht].
  { destruct Hs as (R1 & R2 & R3). split; [|by eapply Forall_lookup_1]. split; [done|]. split; [done|]. by apply Forall_delete. }
  destruct t as [i ch seq r|i args hex check]; [by apply detached_work; [apply replySubmit_work|]|].
  destruct Hs' as (R1 & R2 & R3). split; [done|]. split; [done|]. cbn. apply Forall_app. split; [done|].
  apply Forall_singleton. apply Ht.
Qed.

Lemma step_mining e s : Forall Q (step_log e s) -> work s -> work (Sv2Server.step opts randomBytes e s).
Proof.
  intros HQ Hs. unfold step. destruct (crashed s) eqn:Hcr; [done|]. destruct e as [|i chunk now|i|tpl|user a|k now].
  - unfold accept. eff_simpl. by destruct (new_NoiseNX _ _).
  - cbn [step_log] in HQ. rewrite Hcr in HQ. destruct (is_open i s) eqn:Ho; [|done]. by apply onData_mining.
  - destruct (bool_decide _); [|done]. assert (keeps work_kept (onClose i)) as Hk by (unfold onClose; walk). by apply Hk.
  - assert (keeps work_kept (detached (on_poll opts tpl))) as Hk.
    { apply detached_work. unfold on_poll. walk. }
    by apply Hk.
  - assert (keeps work_kept (detached (_ ← pushCustomJob user a; mret tt))) as Hk.
    { apply detached_work. unfold pushCustomJob. walk. }
    by apply Hk.
  - by apply resume_work.
Qed.

Lemma run_mining es s : Forall Q (frames es s) -> work s -> work (run opts randomBytes es s).
Proof. revert s. induction es as [|e es IH]; intros s; [done|]. cbn. intros [HQ1 HQ2]%Forall_app Hs. by apply IH, step_mining. Qed.
End From.

(** C11: nothing is reported without work.  In every run of the Stratum V2 server, whatever
    its connections, reads, closes, templates and the order of its pending replies, every
    share event sent to the pool daemon comes from a frame that the run handled: a
    submission of a ready connection, for a channel of that connection and a job the server
    knew.  The header made of that job, the prefix of that channel and the extranonce, time
    and nonce of that submission is hashed by the node to a value that reaches the target of
    the channel's difficulty or the network target.  The event names the user and the
    difficulty of the channel and the height of the job; it reports a block exactly when the
    hash reaches the network target, with the hash of that header. *)
Theorem sv2_shares_worked es w e : reachable cap w -> e ∈ shares (run opts randomBytes es (init_mining w)) ->
  exists r x, r ∈ frames es (init_mining w) /\ submitted_in r x /\ work_of x e.
Proof.
  intros Hw He. set (Q := fun r => r ∈ frames es (init_mining w)).
  destruct (run_mining Q es (init_mining w)) as (_ & Hsh & _); [apply list.Forall_forall; auto|by split; [|split]|].
  rewrite list.Forall_forall in Hsh. exact (Hsh e He).
Qed.
End Proofs.
