(* ===== verification/Sv2Wire.v ===== *)
(** * The Stratum V2 mining server: from the wire to a handler

    A frame that a peer encrypts reaches the handler of its type, through the transport
    and the framing.  On top of it, what goes wrong: a share can be submitted again for
    the same credit, and a submission that cannot be read ends the process for all
    miners. *)

From S2P Require Import Prelude JsString JsMap JsNumber JsRound Effects Header Difficulty Node JobManager B3Pow PadCache.
From S2P Require Import ShareValidator Ipc Sv2Types Sv2Messages Noise Sv2Keys Sv2Channel Sv2Server.
Import Common Mining.

Section Wire.
Context `{Sha256Ok} `{Blake3Ok} `{NoiseCryptoOk} `{Ed25519}.
Context (opts : Sv2ServerOptions) (randomBytes : nat -> Z -> bytes).

(** ** From the wire to a handler *)

Definition put (i : nat) (c : Conn) (s : mining) : mining := set_objs (<[i := c]> (objs s)) s.

Lemma on_put {A} i c c0 (m : eff Conn A) s : objs s !! i = Some c0 ->
  on i m (put i c s) = ((m c).1, put i (m c).2 s).
Proof.
  intros Hi. unfold on, put. cbn [objs set_objs]. rewrite list_lookup_insert_eq by (by eapply lookup_lt_Some).
  destruct (m c) as [r c']. cbn [fst snd]. unfold set_objs. cbn. by rewrite list_insert_insert_eq.
Qed.
Lemma put_id i c s : objs s !! i = Some c -> put i c s = s.
Proof. intros Hi. unfold put. rewrite list_insert_id by done. by destruct s. Qed.

Lemma appendBytes_ok a b : appendBytes a b = Ok (a ++ b).
Proof.
  unfold appendBytes. pose proof (zlen_nonneg a). pose proof (zlen_nonneg b). rewrite ta_set_zeros by lia.
  replace (zlen a + zlen b - zlen a) with (zlen b) by lia. cbn [mbind res_bind].
  rewrite (ta_set_ok _ b (zlen a) a (zeros (zlen b)) []); [by rewrite app_nil_r|by rewrite app_nil_r|done|by rewrite zlen_zeros].
Qed.

(** A connection that is ready, with nothing left over from earlier reads. *)
Definition ready (key : bytes) (x : Z) (c : Conn) : Prop :=
  c_state c = READY /\ c_ct c = [] /\ c_plain c = [] /\ c_destroyed c = false /\
  exists t, c_transport c = Some t /\ t_recv t = keyed key x.

(** One read that decrypts to a frame, with nothing left over, is the dispatch of the frame. *)
Lemma onData_decrypted i f now s c t t' w : objs s !! i = Some c -> c_state c = READY -> c_ct c = [] -> c_plain c = [] ->
  c_transport c = Some t -> frame_ok f -> bytes_ok (payload f) -> decryptFrames w t = (Ok ([frame_bytes f], zlen w), t') ->
  (onData opts randomBytes i w now s).2 =
    (try_catch (dispatch opts randomBytes i f now) (fun _ => destroy i) (put i (set_c_transport (Some t') c) s)).2.
Proof.
  intros Hi E1 E2 E3 E4 Hf Hb Ed.
  unfold onData, conn. rewrite <- (put_id i c s Hi) at 1. unfold mbind at 1, eff_bind at 1. rewrite (on_put i c c) by done. cbn [fst snd get].
  rewrite E1, !bool_decide_false by done. unfold try_catch. rewrite E2, E4, appendBytes_ok. cbn [app].
  unfold decrypt_ct, handlePlainBytes, cipher_frames, plain_frames, conn, upd. eff_simpl. rewrite !(on_put i _ c) by done. cbn [fst snd].
  cbn [on_transport set_c_ct c_ct]. unfold on_transport. rewrite Ed. cbn [fst snd].
  rewrite (on_put i _ c) by done. cbn [fst snd]. rewrite (on_put i _ c) by done. cbn [fst snd for_each]. eff_simpl.
  rewrite (on_put i _ c) by done. cbn [fst snd set_c_ct set_c_transport c_plain]. rewrite E3, appendBytes_ok. cbn [app].
  rewrite (on_put i _ c) by done. cbn [fst snd]. rewrite splitFrames_one by done. cbn [fst snd].
  rewrite (on_put i _ c) by done. cbn [fst snd for_each]. eff_simpl.
  rewrite !drop_ge by (unfold zlen; lia).
  assert (set_c_plain [] (set_c_plain (frame_bytes f) (set_c_ct [] (set_c_transport (Some t') (set_c_ct w c)))) =
    set_c_transport (Some t') c) as Ec by (destruct c; cbn in E2, E3; by subst).
  cbn in Ec. cbn. rewrite Ec. destruct (dispatch _ _ i f now _) as [[]]; done.
Qed.

(** A frame that the peer of a ready connection encrypts and that arrives in one read is
    dispatched. *)
Lemma onData_frame i f now s c key x peer w peer' : objs s !! i = Some c -> ready key x c -> zlen key = 32 -> 0 <= x ->
  frame_ok f -> bytes_ok (payload f) -> x + zlen (frame_bytes f) <= MAX_NONCE -> t_send peer = keyed key x ->
  encryptFrame (frame_bytes f) peer = (Ok w, peer') ->
  exists t', (onData opts randomBytes i w now s).2 =
    (try_catch (dispatch opts randomBytes i f now) (fun _ => destroy i) (put i (set_c_transport (Some t') c) s)).2.
Proof.
  intros Hi (E1 & E2 & E3 & _ & t & E4 & E5) Hk Hx Hf Hb Hn Ep Ee.
  destruct (decrypt_one key Hk x _ peer w peer' t Hx Hn Ep E5 Ee) as [Ed _]. eexists. by eapply onData_decrypted.
Qed.

(** ** Submissions that cannot be read *)

(** The frame is a submission that does not decode, or one on an open channel and a known
    job whose extranonce does not have the channel's length. *)
Definition unreadable (f : Sv2Frame) (c : Conn) (s : mining) : Prop :=
  (msgType (header f) = MSG_SUBMIT_SHARES_STANDARD /\ exists e, decodeSubmitSharesStandard (payload f) = Throw e) \/
  (msgType (header f) = MSG_SUBMIT_SHARES_EXTENDED /\ exists e, decodeSubmitSharesExtended (payload f) = Throw e) \/
  (msgType (header f) = MSG_SUBMIT_SHARES_EXTENDED /\ exists m ch job, decodeSubmitSharesExtended (payload f) = Ok m /\
     get_channel (ssx_channelId m) (c_channels c) = Some ch /\ lookupJob (ssx_jobId m) s = Some job /\
     zlen (ssx_extranonce m) <> ch_extranonceSize ch).

Lemma detached_throws m s e : (m s).1 = Throw e -> crashed (detached m s).2 = true.
Proof. intros E. unfold detached, try_catch. destruct (m s) as [[|] s']; [done|]. done. Qed.

Lemma dispatch_unreadable i f now s c : objs s !! i = Some c -> c_state c = READY -> unreadable f c s ->
  crashed (dispatch opts randomBytes i f now s).2 = true.
Proof.
  intros Hi Hr Hu. unfold dispatch, conn. rewrite <- (put_id i c s Hi). eff_simpl. rewrite (on_put i c c) by done. cbn [fst snd].
  rewrite Hr. rewrite bool_decide_false, bool_decide_true by done. cbn [negb].
  destruct Hu as [[-> [e Ed]]|[[-> [e Ed]]|[-> (m & ch & job & Ed & Ec & Ej & Hl)]]]; cbn [Z.eqb Pos.eqb MSG_OPEN_STD_CHANNEL MSG_OPEN_EXT_CHANNEL
    MSG_SUBMIT_SHARES_STANDARD MSG_SUBMIT_SHARES_EXTENDED].
  - eapply detached_throws. unfold handleSubmitStd. eff_simpl. by rewrite Ed.
  - eapply detached_throws. unfold handleSubmitExt. eff_simpl. by rewrite Ed.
  - eapply detached_throws. unfold handleSubmitExt, conn. eff_simpl. rewrite Ed, (on_put i c c) by done. cbn [fst snd]. rewrite Ec.
    rewrite (put_id i c s Hi), Ej. unfold submit. eff_simpl. unfold processSubmit, submit_input, fullExtranonce. cbn [submit_args a_channel a_extranonce].
    rewrite (proj2 (Z.eqb_neq _ _) Hl). done.
Qed.

(** C37: one submission ends the pool's Stratum V2 service.  On any connection that has
    completed the handshake and the setup, a share submission that is too short to decode,
    or that carries an extranonce of another length than its channel's, is not answered
    with an error: the promise of its handler is rejected, nobody handles that, and the
    process ends, with it the connections of all miners. *)
Theorem unreadable_submit_ends_process i f now s c key x peer w peer' :
  crashed s = false -> objs s !! i = Some c -> ready key x c -> zlen key = 32 -> 0 <= x ->
  frame_ok f -> bytes_ok (payload f) -> x + zlen (frame_bytes f) <= MAX_NONCE -> t_send peer = keyed key x ->
  encryptFrame (frame_bytes f) peer = (Ok w, peer') -> unreadable f c s ->
  crashed (Sv2Server.step opts randomBytes (EvData i w now) s) = true.
Proof.
  intros Hc Hi Hr Hk Hx Hf Hb Hn Ep Ee Hu. unfold step, is_open. rewrite Hc, Hi.
  destruct Hr as (R1 & R2 & R3 & R4 & R5). rewrite R4. cbn [negb].
  destruct (onData_frame i f now s c key x peer w peer') as [t' ->]; [done|by do 4 (split; [done|])|done..|].
  set (s1 := put i (set_c_transport (Some t') c) s). assert (crashed (dispatch opts randomBytes i f now s1).2 = true) as Hd.
  { apply (dispatch_unreadable i f now s1 (set_c_transport (Some t') c)); [|done|exact Hu].
    unfold s1, put. cbn. apply list_lookup_insert_eq. by eapply lookup_lt_Some. }
  unfold try_catch. destruct (dispatch _ _ i f now s1) as [[|e] s2]; [exact Hd|]. cbn in Hd.
  unfold destroy, upd, on. by destruct (objs s2 !! i).
Qed.

(** ** Replayed shares *)
Context (cap : Z).

(** The share was not refused: it is accepted, or goes to the node as a block. *)
Definition accepted (p : submit_progress) : Prop := match p with Done (SubmitFail _) => False | _ => True end.

Lemma process_again args now w p w' : reachable cap w -> processSubmit args now w = (Ok p, w') -> accepted p ->
  forall w2, reachable cap w2 -> exists w3, reachable cap w3 /\ processSubmit args now w2 = (Ok p, w3).
Proof.
  intros Hw Ep Ha w2 Hw2. unfold processSubmit in *. destruct (submit_input args) as [s|]; [|done].
  destruct (buildHeader s) as [b|e] eqn:Eb; [|unfold validateShare in Ep; rewrite Eb in Ep; by simplify_eq].
  destruct (validate_run cap w now s b Hw Eb) as (h & pad & w1 & E1 & E2 & _ & _ & Ev). rewrite Ev in Ep.
  destruct (validate_run cap w2 now s b Hw2 Eb) as (h' & pad' & w3 & E1' & E2' & _ & Hr & Ev'). rewrite Ev'.
  rewrite E1 in E1'. injection E1' as <-. specialize (E2 (fun _ => 0)). rewrite (E2' (fun _ => 0)) in E2. injection E2 as ->.
  exists w3. split; [done|]. destruct (finishCheck s b h) as [[r|]|]; [|by simplify_eq..].
  destruct (if isBlock r then serializedBlockHex r else None) as [[|]|]; by simplify_eq.
Qed.

(** A share that the pool accepts is one task more. *)
Lemma dispatch_submit i f now s c m ch job p w' :
  let args := submit_args ch job (ssx_sequenceNumber m) (ssx_nonce m) (ssx_ntime m) (ssx_version m) (ssx_extranonce m) in
  objs s !! i = Some c -> c_state c = READY -> msgType (header f) = MSG_SUBMIT_SHARES_EXTENDED ->
  decodeSubmitSharesExtended (payload f) = Ok m -> get_channel (ssx_channelId m) (c_channels c) = Some ch ->
  lookupJob (ssx_jobId m) s = Some job -> processSubmit args now (pads s) = (Ok p, w') ->
  dispatch opts randomBytes i f now s = (Ok tt, set_tasks (tasks s ++ [pending_task i args p]) (set_pads w' s)).
Proof.
  intros args Hi Hr Ht Ed Ec Ej Ep. unfold dispatch, conn.
  rewrite <- (put_id i c s Hi) at 1. eff_simpl. rewrite (on_put i c c) by done. cbn [fst snd].
  rewrite Hr, bool_decide_false, bool_decide_true, Ht by done. cbn [negb Z.eqb Pos.eqb MSG_OPEN_STD_CHANNEL MSG_OPEN_EXT_CHANNEL
    MSG_SUBMIT_SHARES_STANDARD MSG_SUBMIT_SHARES_EXTENDED].
  rewrite (put_id i c s Hi). unfold detached, try_catch, handleSubmitExt, conn. eff_simpl. rewrite Ed.
  rewrite <- (put_id i c s Hi) at 1. rewrite (on_put i c c) by done. cbn [fst snd]. rewrite Ec, (put_id i c s Hi).
  rewrite Ej. unfold submit. eff_simpl. fold args. by rewrite Ep.
Qed.

(** A share can be submitted again.  When the pool accepts a share on an extended
    channel, sending the same frame [n] times is accepted [n] times, and [n] times the same
    share is on its way to be reported for credit: unlike the V1 server, nothing remembers
    what was submitted. *)
Theorem sv2_replay i f now s c m ch job p w' n :
  let args := submit_args ch job (ssx_sequenceNumber m) (ssx_nonce m) (ssx_ntime m) (ssx_version m) (ssx_extranonce m) in
  reachable cap (pads s) -> objs s !! i = Some c -> c_state c = READY -> msgType (header f) = MSG_SUBMIT_SHARES_EXTENDED ->
  decodeSubmitSharesExtended (payload f) = Ok m -> get_channel (ssx_channelId m) (c_channels c) = Some ch ->
  lookupJob (ssx_jobId m) s = Some job -> processSubmit args now (pads s) = (Ok p, w') -> accepted p ->
  tasks (Nat.iter n (fun s => (dispatch opts randomBytes i f now s).2) s) = tasks s ++ replicate n (pending_task i args p).
Proof.
  intros args Hw Hi Hr Ht Ed Ec Ej Ep Ha. set (T := pending_task _ _ _).
  assert (exists w, reachable cap w /\ Nat.iter n (fun s => (dispatch opts randomBytes i f now s).2) s =
    set_tasks (tasks s ++ replicate n T) (set_pads w s)) as (w & _ & ->); [|done].
  induction n as [|n (w & Hwn & IH)].
  - exists (pads s). split; [done|]. cbn. rewrite app_nil_r. by destruct s.
  - cbn [Nat.iter nat_rect]. unfold Nat.iter in IH. rewrite IH. destruct (process_again args now _ p w' Hw Ep Ha w Hwn) as (w3 & Hw3 & Ep3).
    exists w3. split; [done|]. erewrite dispatch_submit; [|exact Hi|exact Hr|exact Ht|exact Ed|exact Ec|exact Ej|exact Ep3].
    cbn [snd]. fold args T. change (tasks (set_tasks ?x _)) with x. by rewrite replicate_S_end, app_assoc.
Qed.
End Wire.
