(* ===== verification/Sv2Examples.v ===== *)
(** * The Stratum V2 mining server: a run

    A miner connects, completes the handshake and the setup, opens an extended channel and
    submits a share, with toy cryptography: the witnesses of the theorems of [Sv2Proofs]
    and [Sv2Wire]. *)

From S2P Require Import Prelude JsString JsMap JsNumber JsRound Effects Header Address Difficulty Node JobManager B3Pow PadCache.
From S2P Require Import ShareValidator Ipc Sv2Types Sv2Messages Noise Sv2Keys Sv2Channel Sv2Server Sv2Proofs Sv2Wire.
Import Common Mining.

#[local] Instance ex_sha : Sha256 := example_digest.
#[local] Instance ex_sha_ok : Sha256Ok := example_digest_ok.
#[local] Instance ex_blake : Blake3 := example_stream.
#[local] Instance ex_blake_ok : Blake3Ok := example_stream_ok.
#[local] Instance ex_crypto : NoiseCrypto := example_crypto.
#[local] Instance ex_crypto_ok : NoiseCryptoOk := example_crypto_ok.
#[local] Instance ex_ed : Ed25519 := example_ed.

Definition sv2_options : Sv2ServerOptions := {|
  opt_staticKey := example_key;
  opt_cert := {| cert_version := 0; validFrom := 0; notValidAfter := 1800000000; cert_publicKey := replicate 32 5;
                 cert_signature := replicate 64 1 |};
  opt_defaultDifficulty := num_of_Z 1024; opt_payoutAddress := example_address |}.
Definition sv2_random (k : nat) (n : Z) : bytes := replicate (Z.to_nat n) (Z.of_nat k + 1).

(** A template every hash is a block for. *)
Definition sv2_template : BlockTemplate := {|
  bt_version := 536870912; previousblockhash := replicate 64 49; transactions := [];
  coinbasevalue := 5000000000; bt_target := replicate 64 102; mintime := 1700000000; curtime := 1700000600;
  bt_bits := js "1f00ffff"; bt_height := 1000; default_witness_commitment := None |}.
Lemma no_pads_reachable : reachable 8 empty_cache.
Proof. apply (reach_new 8). reflexivity. Qed.

Abbreviation sv2_run := (run sv2_options sv2_random).

(** The miner's side of the handshake. *)
Definition run_ok {A S} (m : eff S A) (s : S) (d : A) : A * S := match m s with (Ok a, s') => (a, s') | (Throw _, s') => (d, s') end.
Definition miner0 : NoiseNX :=
  {| nx_role := initiator; nx_sym := new_SymmetricState; nx_e := None; nx_re := None; nx_rs := None; nx_staticKey := None |}.
Definition miner1 : bytes * NoiseNX := Eval vm_compute in run_ok (writeMessage1 (replicate 32 1)) miner0 [].
Definition boot : list event := [EvPoll (Some sv2_template); EvConnect; EvData 0 (le_bytes 2 32 ++ fst miner1) 1000].
Definition booted : mining := Eval vm_compute in sv2_run boot (init_mining empty_cache).

Definition miner2 : NoiseTransport := Eval vm_compute in
  match objs booted !! 0%nat with
  | Some c => match readMessage2 (drop 2 (default [] (head (c_written c)))) (snd miner1) with
              | (Ok r, _) => {| t_send := sendCipher r; t_recv := recvCipher r |}
              | _ => {| t_send := new_CipherState None; t_recv := new_CipherState None |}
              end
  | None => {| t_send := new_CipherState None; t_recv := new_CipherState None |}
  end.

(** The miner encrypts what an encoder made. *)
Definition ok_or {A} (r : res A) (d : A) : A := match r with Ok a => a | Throw _ => d end.
Definition miner3 : bytes * NoiseTransport := Eval vm_compute in run_ok (encryptFrame (ok_or (encodeSetupConnection {|
  sc_protocol := 0; sc_minVersion := 2; sc_maxVersion := 2; sc_flags := 0; sc_endpointHost := js "pool"; sc_endpointPort := 3336;
  sc_vendor := js "v"; sc_hardwareVersion := js "1"; sc_firmware := js "f"; sc_deviceId := js "d" |}) [])) miner2 [].
Definition miner4 : bytes * NoiseTransport := Eval vm_compute in run_ok (encryptFrame (ok_or (encodeOpenExtendedMiningChannel {|
  oemc_requestId := 1; oemc_userIdentity := js "alice@x.com.rig1"; oemc_nominalHashRate := n1; oemc_maxTarget := replicate 32 255;
  oemc_minExtranonceSize := 4 |}) [])) (snd miner3) [].

Definition opening : list event := boot ++ [EvData 0 (fst miner3) 1001; EvData 0 (fst miner4) 1002].
Definition opened : mining := Eval vm_compute in sv2_run opening (init_mining empty_cache).
Lemma opened_run : sv2_run opening (init_mining empty_cache) = opened.
Proof. vm_compute. reflexivity. Qed.

Definition opened_conn : Conn := Eval vm_compute in
  default (mkConn 0 DEAD None None [] [] new_ChannelTable None true []) (objs opened !! 0%nat).

(** ** A share *)

(** A submission without a payload. *)
Definition short_frame : Sv2Frame :=
  {| header := {| extensionType := 0; msgType := MSG_SUBMIT_SHARES_EXTENDED; msgLength := 0; channelMsg := false |}; payload := [] |}.
Definition share_frame : Sv2Frame := Eval vm_compute in
  match encodeSubmitSharesExtended {| ssx_channelId := 1; ssx_sequenceNumber := 9; ssx_jobId := 1; ssx_nonce := 7; ssx_ntime := 1700000600;
    ssx_version := 536870912; ssx_extranonce := [1; 2; 3; 4] |} with
  | Ok w => match splitFrames w with Ok (f :: _, _) => f | _ => short_frame end
  | Throw _ => short_frame
  end.
Definition miner5 : bytes * NoiseTransport := Eval vm_compute in run_ok (encryptFrame (frame_bytes share_frame)) (snd miner4) [].
Definition opened_channel : ChannelState := Eval vm_compute in default (sv2_channel extended 4) (get_channel 1 (c_channels opened_conn)).
Definition opened_job : StratumJob := Eval vm_compute in default example_job (lookupJob 1 opened).
Definition share_args : SubmitArgs := Eval vm_compute in submit_args opened_channel opened_job 9 7 1700000600 536870912 [1; 2; 3; 4].
Definition shared_input : ShareInput := Eval vm_compute in ok_or (submit_input share_args) example_share.
Definition share_built : Built := Eval vm_compute in ok_or (buildHeader shared_input) example_built.

(** The share is accepted, and is a block, whatever its hash is. *)
Lemma share_processed : exists hex check w,
  processSubmit share_args 1003 (pads opened) = (Ok (AwaitBlock hex check), w).
Proof.
  unfold processSubmit. assert (submit_input share_args = Ok shared_input) as -> by (vm_compute; reflexivity).
  destruct (targetFromShareDifficulty (shareDifficulty shared_input)) as [t|] eqn:Et; [|vm_compute in Et; discriminate Et].
  destruct (validate_easy 8 (pads opened) 1003 shared_input share_built t no_pads_reachable)
    as (r & w & hex & -> & -> & -> & Es); [vm_compute; reflexivity|vm_compute; reflexivity|vm_compute; reflexivity|exact Et|].
  vm_compute in Es. injection Es as <-. do 3 eexists. reflexivity.
Qed.

Lemma sv2_replay_witness : exists p, tasks (Nat.iter 3 (fun s => (dispatch sv2_options sv2_random 0 share_frame 1003 s).2) opened) =
  [] ++ replicate 3 (pending_task 0 share_args p).
Proof.
  destruct share_processed as (hex & check & w & Ep). exists (AwaitBlock hex check).
  apply (sv2_replay sv2_options sv2_random 8 0 share_frame 1003 opened opened_conn
    {| ssx_channelId := 1; ssx_sequenceNumber := 9; ssx_jobId := 1; ssx_nonce := 7; ssx_ntime := 1700000600;
       ssx_version := 536870912; ssx_extranonce := [1; 2; 3; 4] |} opened_channel opened_job (AwaitBlock hex check) w 3).
  - exact no_pads_reachable.
  - reflexivity.
  - reflexivity.
  - reflexivity.
  - vm_compute. reflexivity.
  - reflexivity.
  - reflexivity.
  - exact Ep.
  - exact I.
Defined.

(** ** Witnesses on the wire *)

Definition opened_transport : NoiseTransport := Eval vm_compute in default miner2 (c_transport opened_conn).
Definition opened_key : bytes := Eval vm_compute in default [] (cs_k (t_send (snd miner4))).
Definition opened_nonce : Z := Eval vm_compute in cs_n (t_send (snd miner4)).
Definition short_wire : bytes * NoiseTransport := Eval vm_compute in run_ok (encryptFrame (frame_bytes short_frame)) (snd miner4) [].

Lemma unreadable_submit_ends_process_witness : crashed opened = false /\
  crashed (step sv2_options sv2_random (EvData 0 (fst short_wire) 1003) opened) = true.
Proof.
  split; [reflexivity|].
  apply (unreadable_submit_ends_process sv2_options sv2_random 0 short_frame 1003 opened opened_conn opened_key opened_nonce
    (snd miner4) (fst short_wire) (snd short_wire)).
  - reflexivity.
  - reflexivity.
  - do 4 (split; [reflexivity|]). exists opened_transport. split; reflexivity.
  - reflexivity.
  - vm_compute. discriminate.
  - split; [|split; [|split]]; vm_compute; intuition discriminate.
  - constructor.
  - vm_compute. discriminate.
  - reflexivity.
  - vm_compute. reflexivity.
  - right. left. split; [reflexivity|]. eexists. vm_compute. reflexivity.
Defined.

(** The share arrives, is sent to the node as a block, answered and reported. *)
Definition shared : list event := opening ++ [EvData 0 (fst miner5) 1003; EvResume 0 1004; EvResume 0 1005].
Definition after_share : NoiseTransport := Eval vm_compute in snd (decryptFrames (fst miner5) opened_transport).

Lemma share_step : exists hex check w, step sv2_options sv2_random (EvData 0 (fst miner5) 1003) opened =
  set_tasks [TBlock 0 share_args hex check] (set_pads w (put 0 (set_c_transport (Some after_share) opened_conn) opened)).
Proof.
  destruct share_processed as (hex & check & w & Ep). exists hex, check, w.
  change (step sv2_options sv2_random (EvData 0 (fst miner5) 1003) opened)
    with (onData sv2_options sv2_random 0 (fst miner5) 1003 opened).2.
  rewrite (onData_decrypted sv2_options sv2_random 0 share_frame 1003 opened opened_conn opened_transport after_share);
    [|reflexivity|reflexivity|reflexivity|reflexivity|reflexivity| | |vm_compute; reflexivity].
  - unfold try_catch. erewrite dispatch_submit; [|reflexivity|reflexivity|reflexivity|vm_compute; reflexivity|reflexivity|reflexivity|exact Ep].
    reflexivity.
  - split; [|split; [|split]]; vm_compute; intuition discriminate.
  - repeat constructor; discriminate.
Qed.

Lemma share_reported : exists e, e ∈ shares (sv2_run shared (init_mining empty_cache)) /\ se_user e = js "alice@x.com.rig1".
Proof.
  unfold shared, run. rewrite foldl_app. change (foldl _ (init_mining empty_cache) opening) with (sv2_run opening (init_mining empty_cache)).
  rewrite opened_run. cbn [foldl]. destruct share_step as (hex & check & w & ->). exists (submit_event share_args check 1004).
  split; [|reflexivity].
  assert (forall l : list ShareEvent, l = [submit_event share_args check 1004] -> submit_event share_args check 1004 ∈ l) as H by (intros l ->; constructor).
  apply H. vm_compute. reflexivity.
Qed.

Lemma sv2_shares_worked_witness : exists e r x, e ∈ shares (sv2_run shared (init_mining empty_cache)) /\
  r ∈ frames sv2_options sv2_random shared (init_mining empty_cache) /\ submitted_in r x /\ work_of x e /\
  ch_userIdentity (vs_channel x) = js "alice@x.com.rig1".
Proof.
  destruct share_reported as (e & He & Hu).
  destruct (sv2_shares_worked sv2_options sv2_random 8 shared empty_cache e no_pads_reachable He) as (r & x & Hr & Hx & Hw).
  exists e, r, x. do 4 (split; [assumption|]). rewrite <- Hu. destruct Hw as (_ & b & h & pad & t & nt & _ & _ & _ & _ & _ & _ & _ & _ & E & _).
  symmetry. exact E.
Defined.
