(* ===== verification/Sv2Jd.v ===== *)
(** * Job declaration ([pool/src/sv2/jd])

    The tokens ([tokens.ts]), the check of a declared coinbase ([custom_job.ts]) and the
    server ([server.ts]), which runs in the process of the mining server ([Sv2Server]) and
    hands accepted jobs to it.  A handler is cut where it awaits: the tasks that wait for
    the database or for the mining server are part of the state and are resumed in any
    order. *)

From S2P Require Import Prelude JsString JsMap JsNumber Effects Header Address Node JobManager Sv2Types Sv2Messages Noise Sv2Keys.
From S2P Require Import B3Pow PadCache ShareValidator Sv2Channel Sv2Server.
Import Common Jd.

(** ** Tokens *)
Record JdToken := mkToken {
  tk_bytes : bytes; tk_userIdentifier : jsstr; tk_sessionId : option Z; tk_issuedAt : Z; tk_expiresAt : Z;
  tk_coinbaseOutputMaxAdditionalSize : Z; tk_consumed : bool
}.
Definition TOKEN_LEN : Z := 32.
Definition toHex (b : bytes) : jsstr := b ≫= (fun x => padStart 2 48 (to_radix 16 x)).
Definition set_consumed (t : JdToken) : JdToken :=
  mkToken (tk_bytes t) (tk_userIdentifier t) (tk_sessionId t) (tk_issuedAt t) (tk_expiresAt t) (tk_coinbaseOutputMaxAdditionalSize t) true.

(** A row of [sv2_declared_jobs]. *)
Record declared := { dc_version : Z; dc_coinbasePrefix : bytes; dc_coinbaseSuffix : bytes; dc_txCount : Z }.
Record declared_row := {
  row_session : option Z; row_user : jsstr; row_token : bytes; row_maxExtraSize : Z; row_expiresAt : Z;
  row_declared : option declared; row_rejected : option jsstr
}.

(** ** The declared coinbase *)
Definition max_safe_integer : Z := 2 ^ 53 - 1.
Definition readVarInt : reader Z :=
  let_rd first := r_u8 in
  if first <? 0xfd then rd_ret first
  else if first =? 0xfd then r_u16
  else if first =? 0xfe then r_u32
  else let_rd big := r_u64 in
       if max_safe_integer <? big then fun _ => Throw "varInt larger than MAX_SAFE_INTEGER" else rd_ret big.

(** The loop over the outputs, with what has been paid to the pool so far.  Every output
    takes at least 9 bytes, or reading it throws: the length of the suffix is enough fuel. *)
Fixpoint out_loop (fuel : nat) (expectedSpk : bytes) (outCount paidPool : Z) : reader Z :=
  match fuel with
  | O => rd_ret paidPool
  | S fuel =>
      if outCount <=? 0 then rd_ret paidPool else
      let_rd value := r_u64 in
      let_rd spkLen := readVarInt in
      let_rd spk := r_bytesRaw spkLen in
      out_loop fuel expectedSpk (outCount - 1) (if bool_decide (spk = expectedSpk) then paidPool + value else paidPool)
  end.

Inductive CoinbaseValidationResult :=
| CoinbaseOk (poolValueSat : Z)
| CoinbaseBad (reason : jsstr).

Definition validateDeclaredCoinbase (payoutAddress : jsstr) (coinbaseSuffix : bytes) (minValue : Z) : CoinbaseValidationResult :=
  match addressToScriptPubKey payoutAddress with
  | None => CoinbaseBad (js "pool-payout-address-invalid")
  | Some expectedSpk =>
      match (let_rd _ := r_bytesRaw 4 in let_rd outCount := readVarInt in
             out_loop (S (length coinbaseSuffix)) expectedSpk outCount 0) coinbaseSuffix with
      | Throw e => CoinbaseBad (js "coinbase-parse-error: " ++ js e)
      | Ok (paidPool, _) =>
          if paidPool <? minValue then CoinbaseBad (js "coinbase-does-not-pay-pool") else CoinbaseOk paidPool
      end
  end.

(** ** The server *)
Record CustomJobDelivery := {
  cd_requestId : Z; cd_miningJobToken : bytes; cd_version : Z; cd_coinbasePrefix : bytes; cd_coinbaseSuffix : bytes; cd_poolValueSat : Z
}.

Record JdConn := mkJdConn {
  j_state : ConnState;
  j_nx : option NoiseNX;
  j_hsBuf : bytes;
  j_transport : option NoiseTransport;
  j_plain : bytes;
  j_ct : bytes;
  j_userIdentity : jsstr;
  j_destroyed : bool;
  j_written : list bytes
}.
Definition set_j_state (v : ConnState) (c : JdConn) : JdConn :=
  mkJdConn v (j_nx c) (j_hsBuf c) (j_transport c) (j_plain c) (j_ct c) (j_userIdentity c) (j_destroyed c)
    (j_written c).
Definition set_j_nx (v : option NoiseNX) (c : JdConn) : JdConn :=
  mkJdConn (j_state c) v (j_hsBuf c) (j_transport c) (j_plain c) (j_ct c) (j_userIdentity c) (j_destroyed c)
    (j_written c).
Definition set_j_hsBuf (v : bytes) (c : JdConn) : JdConn :=
  mkJdConn (j_state c) (j_nx c) v (j_transport c) (j_plain c) (j_ct c) (j_userIdentity c) (j_destroyed c)
    (j_written c).
Definition set_j_transport (v : option NoiseTransport) (c : JdConn) : JdConn :=
  mkJdConn (j_state c) (j_nx c) (j_hsBuf c) v (j_plain c) (j_ct c) (j_userIdentity c) (j_destroyed c) (j_written
    c).
Definition set_j_plain (v : bytes) (c : JdConn) : JdConn :=
  mkJdConn (j_state c) (j_nx c) (j_hsBuf c) (j_transport c) v (j_ct c) (j_userIdentity c) (j_destroyed c)
    (j_written c).
Definition set_j_ct (v : bytes) (c : JdConn) : JdConn :=
  mkJdConn (j_state c) (j_nx c) (j_hsBuf c) (j_transport c) (j_plain c) v (j_userIdentity c) (j_destroyed c)
    (j_written c).
Definition set_j_userIdentity (v : jsstr) (c : JdConn) : JdConn :=
  mkJdConn (j_state c) (j_nx c) (j_hsBuf c) (j_transport c) (j_plain c) (j_ct c) v (j_destroyed c) (j_written c).
Definition set_j_destroyed (v : bool) (c : JdConn) : JdConn :=
  mkJdConn (j_state c) (j_nx c) (j_hsBuf c) (j_transport c) (j_plain c) (j_ct c) (j_userIdentity c) v (j_written
    c).
Definition set_j_written (v : list bytes) (c : JdConn) : JdConn :=
  mkJdConn (j_state c) (j_nx c) (j_hsBuf c) (j_transport c) (j_plain c) (j_ct c) (j_userIdentity c) (j_destroyed
    c) v.

(** What waits: for the insertion of a token, for the update after a token is consumed,
    for [consume] that has found no token, for the update after a rejection, for the
    mining server. *)
Inductive jd_task :=
| JIssued (i : nat) (requestId : Z) (tok : JdToken)
| JConsumed (i : nat) (m : DeclareMiningJob) (tok : JdToken)
| JNoToken (i : nat) (requestId : Z)
| JRejected (i : nat) (requestId : Z) (token : bytes) (reason : jsstr)
| JDelivered (i : nat) (m : DeclareMiningJob) (r : custom_result).

(** The two servers of the process.  Three fields are logs: [dispatched] of the frames that
    reached [dispatch], with their connections at that time, [issued] of the tokens that
    [issue] has returned, and [delivered] of the calls of [deliverCustomJob]; [j_draws] counts the calls of
    [randomBytes] of this server.  Whether the process has ended is part of the state of
    the mining server. *)
Record jd := mkJd {
  j_objs : list JdConn;
  j_conns : list nat;
  j_draws : nat;
  byHex : list (jsstr * JdToken);
  issued : list JdToken;
  dispatched : list (JdConn * Sv2Frame);
  audit : list declared_row;
  j_tasks : list jd_task;
  delivered : list (CustomJobDelivery * jsstr);
  pool : mining
}.
Definition set_j_objs (v : list JdConn) (s : jd) : jd :=
  mkJd v (j_conns s) (j_draws s) (byHex s) (issued s) (dispatched s) (audit s) (j_tasks s) (delivered s) (pool s).
Definition set_j_conns (v : list nat) (s : jd) : jd :=
  mkJd (j_objs s) v (j_draws s) (byHex s) (issued s) (dispatched s) (audit s) (j_tasks s) (delivered s) (pool s).
Definition set_j_draws (v : nat) (s : jd) : jd :=
  mkJd (j_objs s) (j_conns s) v (byHex s) (issued s) (dispatched s) (audit s) (j_tasks s) (delivered s) (pool s).
Definition set_byHex (v : list (jsstr * JdToken)) (s : jd) : jd :=
  mkJd (j_objs s) (j_conns s) (j_draws s) v (issued s) (dispatched s) (audit s) (j_tasks s) (delivered s) (pool s).
Definition set_issued (v : list JdToken) (s : jd) : jd :=
  mkJd (j_objs s) (j_conns s) (j_draws s) (byHex s) v (dispatched s) (audit s) (j_tasks s) (delivered s) (pool s).
Definition set_dispatched (v : list (JdConn * Sv2Frame)) (s : jd) : jd :=
  mkJd (j_objs s) (j_conns s) (j_draws s) (byHex s) (issued s) v (audit s) (j_tasks s) (delivered s) (pool s).
Definition set_audit (v : list declared_row) (s : jd) : jd :=
  mkJd (j_objs s) (j_conns s) (j_draws s) (byHex s) (issued s) (dispatched s) v (j_tasks s) (delivered s) (pool s).
Definition set_j_tasks (v : list jd_task) (s : jd) : jd :=
  mkJd (j_objs s) (j_conns s) (j_draws s) (byHex s) (issued s) (dispatched s) (audit s) v (delivered s) (pool s).
Definition set_delivered (v : list (CustomJobDelivery * jsstr)) (s : jd) : jd :=
  mkJd (j_objs s) (j_conns s) (j_draws s) (byHex s) (issued s) (dispatched s) (audit s) (j_tasks s) v (pool s).
Definition set_pool (v : mining) (s : jd) : jd :=
  mkJd (j_objs s) (j_conns s) (j_draws s) (byHex s) (issued s) (dispatched s) (audit s) (j_tasks s) (delivered s) v.

Section Jd.
Context `{Sha256} `{Blake3} `{NoiseCrypto} `{Ed25519}.
Context (opts : Sv2ServerOptions) (poolRandom randomBytes : nat -> Z -> bytes) (tokenTtlMs : Z).

Definition j_on {A} (i : nat) (m : eff JdConn A) : eff jd A := fun s =>
  match j_objs s !! i with
  | Some c => let '(r, c') := m c in (r, set_j_objs (<[i := c']> (j_objs s)) s)
  | None => (Throw "no such connection", s)
  end.
Definition j_upd (i : nat) (f : JdConn -> JdConn) : eff jd unit := j_on i (modify f).
Definition j_destroy (i : nat) : eff jd unit := j_upd i (set_j_destroyed true).
Definition j_write (b : bytes) : eff JdConn unit :=
  modify (fun c => if j_destroyed c then c else set_j_written (j_written c ++ [b]) c).
Definition on_pool {A} (m : eff mining A) : eff jd A := fun s => let '(r, p) := m (pool s) in (r, set_pool p s).
Definition j_draw : eff jd (Z -> bytes) :=
  s ← get; _ ← modify (fun s => set_j_draws (S (j_draws s)) s); mret (randomBytes (j_draws s)).
Definition add_task (t : jd_task) : eff jd unit := modify (fun s => set_j_tasks (j_tasks s ++ [t]) s).

Definition with_nx {A} (m : eff NoiseNX A) : eff JdConn A := fun c =>
  match j_nx c with
  | None => (Throw "jd nx missing", c)
  | Some x => let '(r, x) := m x in (r, set_j_nx (Some x) c)
  end.
Definition with_transport {A} (t : NoiseTransport) (m : eff NoiseTransport A) : eff JdConn A := fun c =>
  let '(r, t) := m t in (r, set_j_transport (Some t) c).

Definition j_conn_send (plainFrame : bytes) : eff JdConn unit :=
  c ← get;
  match j_transport c with
  | None => mret tt
  | Some t =>
      if zlen plainFrame <? SV2_HEADER_LEN then mret tt else
      ct ← with_transport t (encryptFrame plainFrame);
      j_write ct
  end.
Definition j_send (i : nat) (plainFrame : bytes) : eff jd unit := j_on i (j_conn_send plainFrame).

(** *** The token store *)
Definition issue (userIdentifier : jsstr) (now : Z) : eff jd JdToken :=
  random ← j_draw;
  let tok := {| tk_bytes := random TOKEN_LEN; tk_userIdentifier := userIdentifier; tk_sessionId := None; tk_issuedAt := now;
                tk_expiresAt := now + tokenTtlMs; tk_coinbaseOutputMaxAdditionalSize := 100; tk_consumed := false |} in
  _ ← modify (fun s => set_byHex (map_set (toHex (tk_bytes tok)) tok (byHex s)) s);
  _ ← modify (fun s => set_issued (issued s ++ [tok]) s);
  mret tok.
Definition issue_row (tok : JdToken) (rows : list declared_row) : list declared_row :=
  if existsb (fun r => bool_decide (row_token r = tk_bytes tok)) rows then rows
  else rows ++ [{| row_session := tk_sessionId tok; row_user := tk_userIdentifier tok; row_token := tk_bytes tok;
                   row_maxExtraSize := tk_coinbaseOutputMaxAdditionalSize tok; row_expiresAt := tk_expiresAt tok / 1000;
                   row_declared := None; row_rejected := None |}].

(** [consume] up to its query, and the query. *)
Definition consume (token : bytes) (now : Z) : eff jd (option JdToken) :=
  let hex := toHex token in
  s ← get;
  match map_get hex (byHex s) with
  | None => mret None
  | Some tok =>
      if tk_consumed tok then mret None
      else if tk_expiresAt tok <=? now then _ ← modify (fun s => set_byHex (map_delete hex (byHex s)) s); mret None
      else
        let tok := set_consumed tok in
        _ ← modify (fun s => set_byHex (map_set hex tok (byHex s)) s);
        mret (Some tok)
  end.
Definition consume_row (m : DeclareMiningJob) (rows : list declared_row) : list declared_row :=
  (fun r => if bool_decide (row_token r = dmj_miningJobToken m)
            then {| row_session := row_session r; row_user := row_user r; row_token := row_token r; row_maxExtraSize := row_maxExtraSize r;
                    row_expiresAt := row_expiresAt r;
                    row_declared := Some {| dc_version := dmj_version m; dc_coinbasePrefix := dmj_coinbasePrefix m;
                      dc_coinbaseSuffix := dmj_coinbaseSuffix m; dc_txCount := zlen (dmj_txShortHashList m) |};
                    row_rejected := row_rejected r |}
            else r) <$> rows.

(** [reject] up to its query, and the query. *)
Definition reject_token (token : bytes) : eff jd unit :=
  modify (fun s => match map_get (toHex token) (byHex s) with
                   | Some tok => set_byHex (map_set (toHex token) (set_consumed tok) (byHex s)) s
                   | None => s
                   end).
Definition reject_row (token : bytes) (reason : jsstr) (rows : list declared_row) : list declared_row :=
  (fun r => if bool_decide (row_token r = token)
            then {| row_session := row_session r; row_user := row_user r; row_token := row_token r; row_maxExtraSize := row_maxExtraSize r;
                    row_expiresAt := row_expiresAt r; row_declared := row_declared r; row_rejected := Some (slice 0 200 reason) |}
            else r) <$> rows.
Definition gc (now : Z) : eff jd unit :=
  modify (fun s => set_byHex (filter (fun x => negb ((tk_expiresAt x.2 <=? now) || tk_consumed x.2) = true) (byHex s)) s).

(** A query whose failure is caught. *)
Definition query (db : bool) (f : list declared_row -> list declared_row) : eff jd unit :=
  when db (modify (fun s => set_audit (f (audit s)) s)).

(** *** Handlers *)
Definition j_handleSetup (i : nat) (payload : bytes) : eff jd unit :=
  m ← lift (decodeSetupConnection payload);
  if negb (sc_protocol m =? SubProtocol_JobDeclaration) then
    wire ← lift (encodeSetupConnectionError {| sce_flags := 0; sce_errorCode := js "unsupported-protocol" |});
    _ ← j_send i wire;
    j_destroy i
  else
    _ ← j_upd i (set_j_userIdentity (if bool_decide (sc_deviceId m = []) then js "jd-anon" else sc_deviceId m));
    wire ← lift (encodeSetupConnectionSuccess {| scs_usedVersion := 2; scs_flags := 0 |});
    _ ← j_send i wire;
    j_upd i (set_j_state READY).

Definition handleAllocate (i : nat) (payload : bytes) (now : Z) : eff jd unit :=
  m ← lift (decodeAllocateMiningJobToken payload);
  c ← j_on i get;
  tok ← issue (if bool_decide (amjt_userIdentifier m = []) then j_userIdentity c else amjt_userIdentifier m) now;
  add_task (JIssued i (amjt_requestId m) tok).
Definition after_issue (db : bool) (i : nat) (requestId : Z) (tok : JdToken) : eff jd unit :=
  _ ← query db (issue_row tok);
  match addressToScriptPubKey (opt_payoutAddress opts) with
  | None => mret tt
  | Some expectedSpk =>
      coinbaseOutput ← lift (concatBytes [zeros 8; varInt (zlen expectedSpk); expectedSpk]);
      wire ← lift (encodeAllocateMiningJobTokenSuccess {| amjts_requestId := requestId; amjts_miningJobToken := tk_bytes tok;
        amjts_coinbaseOutputMaxAdditionalSize := tk_coinbaseOutputMaxAdditionalSize tok; amjts_asyncMiningAllowed := true;
        amjts_coinbaseOutput := coinbaseOutput |});
      j_send i wire
  end.

Definition handleDeclare (i : nat) (payload : bytes) (now : Z) : eff jd unit :=
  m ← lift (decodeDeclareMiningJob payload);
  tok ← consume (dmj_miningJobToken m) now;
  add_task (match tok with Some tok => JConsumed i m tok | None => JNoToken i (dmj_requestId m) end).
Definition declare_error (i : nat) (requestId : Z) (reason : jsstr) : eff jd unit :=
  wire ← lift (encodeDeclareMiningJobError {| dmje_requestId := requestId; dmje_errorCode := reason; dmje_errorDetails := [] |});
  j_send i wire.
Definition refuse (i : nat) (m : DeclareMiningJob) (reason : jsstr) : eff jd unit :=
  _ ← reject_token (dmj_miningJobToken m);
  add_task (JRejected i (dmj_requestId m) (dmj_miningJobToken m) reason).

(** The callback of [main.ts]. *)
Definition deliverCustomJob (job : CustomJobDelivery) (userIdentity : jsstr) : eff jd custom_result :=
  _ ← modify (fun s => set_delivered (delivered s ++ [(job, userIdentity)]) s);
  on_pool (pushCustomJob userIdentity {| cj_requestId := cd_requestId job; cj_miningJobToken := cd_miningJobToken job;
    cj_version := cd_version job; cj_coinbasePrefix := cd_coinbasePrefix job; cj_coinbaseSuffix := cd_coinbaseSuffix job |}).

Definition after_consume (db : bool) (i : nat) (m : DeclareMiningJob) (tok : JdToken) : eff jd unit :=
  _ ← query db (consume_row m);
  match validateDeclaredCoinbase (opt_payoutAddress opts) (dmj_coinbaseSuffix m) 1 with
  | CoinbaseBad reason => refuse i m reason
  | CoinbaseOk poolValueSat =>
      r ← deliverCustomJob {| cd_requestId := dmj_requestId m; cd_miningJobToken := dmj_miningJobToken m; cd_version := dmj_version m;
        cd_coinbasePrefix := dmj_coinbasePrefix m; cd_coinbaseSuffix := dmj_coinbaseSuffix m; cd_poolValueSat := poolValueSat |}
        (tk_userIdentifier tok);
      add_task (JDelivered i m r)
  end.
Definition after_deliver (i : nat) (m : DeclareMiningJob) (r : custom_result) : eff jd unit :=
  match r with
  | CustomError reason => refuse i m reason
  | CustomOk =>
      wire ← lift (encodeDeclareMiningJobSuccess {| dmjs_requestId := dmj_requestId m; dmjs_newMiningJobToken := dmj_miningJobToken m |});
      j_send i wire
  end.

(** A promise that nobody waits for. *)
Definition j_detached (m : eff jd unit) : eff jd unit := try_catch m (fun _ => on_pool (modify (set_crashed true))).

Definition j_dispatch (i : nat) (f : Sv2Frame) (now : Z) : eff jd unit :=
  let t := msgType (header f) in
  c ← j_on i get;
  _ ← modify (fun s => set_dispatched (dispatched s ++ [(c, f)]) s);
  if bool_decide (j_state c = SETUP_PENDING) then
    if t =? MSG_SETUP_CONNECTION then j_handleSetup i (payload f) else j_destroy i
  else if negb (bool_decide (j_state c = READY)) then mret tt
  else if t =? MSG_ALLOCATE_JOB_TOKEN then handleAllocate i (payload f) now
  else if t =? MSG_DECLARE_MINING_JOB then handleDeclare i (payload f) now
  else mret tt.

Definition j_handlePlainBytes (i : nat) (plain : bytes) (now : Z) : eff jd unit :=
  c ← j_on i get;
  p ← lift (appendBytes (j_plain c) plain);
  _ ← j_upd i (set_j_plain p);
  r ← lift (splitFrames p);
  _ ← j_upd i (set_j_plain (drop (Z.to_nat (snd r)) p));
  for_each (fun f => j_detached (j_dispatch i f now)) (fst r).
Definition j_decrypt (i : nat) (t : NoiseTransport) (now : Z) : eff jd unit :=
  c ← j_on i get;
  r ← j_on i (with_transport t (decryptFrames (j_ct c)));
  _ ← j_upd i (set_j_ct (drop (Z.to_nat (snd r)) (j_ct c)));
  for_each (fun fr => j_handlePlainBytes i fr now) (fst r).

Definition j_handshake (i : nat) (chunk : bytes) (now : Z) : eff jd unit :=
  c ← j_on i get;
  match j_nx c with
  | None => throw "jd nx missing"
  | Some _ =>
      buf ← lift (appendBytes (j_hsBuf c) chunk);
      _ ← j_upd i (set_j_hsBuf buf);
      if zlen buf <? 2 then mret tt else
      let len := readU16LE buf 0 in
      if zlen buf <? 2 + len then mret tt else
      let m1 := slice 2 (2 + len) buf in
      let buf := drop (Z.to_nat (2 + len)) buf in
      _ ← j_upd i (set_j_hsBuf buf);
      _ ← j_on i (with_nx (readMessage1 m1));
      cert ← lift (encodeCertificate (opt_cert opts));
      random ← j_draw;
      m2 ← j_on i (with_nx (writeMessage2 (random 32) cert));
      out ← lift (ta_set (le_bytes 2 (zlen m2) ++ zeros (zlen m2)) m2 2);
      _ ← j_on i (j_write out);
      fin ← j_on i (with_nx finishResponder);
      let t := {| t_send := sendCipher fin; t_recv := recvCipher fin |} in
      _ ← j_upd i (set_j_transport (Some t));
      _ ← j_upd i (set_j_state SETUP_PENDING);
      if zlen buf =? 0 then mret tt else
      ct ← lift (appendBytes (j_ct c) buf);
      _ ← j_upd i (set_j_ct ct);
      _ ← j_upd i (set_j_hsBuf []);
      j_decrypt i t now
  end.

Definition j_onData (i : nat) (chunk : bytes) (now : Z) : eff jd unit :=
  c ← j_on i get;
  if bool_decide (j_state c = DEAD) then mret tt else
  try_catch
    (if bool_decide (j_state c = HANDSHAKE_M1) then j_handshake i chunk now
     else
       ct ← lift (appendBytes (j_ct c) chunk);
       _ ← j_upd i (set_j_ct ct);
       match j_transport c with
       | None => mret tt
       | Some t => j_decrypt i t now
       end)
    (fun _ => j_destroy i).

(** *** The process *)
Definition j_accept : eff jd unit :=
  nx ← lift (new_NoiseNX responder (Some (opt_staticKey opts)));
  modify (fun s => set_j_conns (j_conns s ++ [length (j_objs s)])
    (set_j_objs (j_objs s ++ [mkJdConn HANDSHAKE_M1 (Some nx) [] None [] [] [] false []]) s)).
Definition j_onClose (i : nat) : eff jd unit :=
  _ ← j_upd i (set_j_state DEAD);
  _ ← j_destroy i;
  modify (fun s => set_j_conns (set_delete i (j_conns s)) s).
Definition j_close : eff jd unit := s ← get; for_each j_destroy (j_conns s).

Definition j_resume (k : nat) (db : bool) : eff jd unit :=
  s ← get;
  match j_tasks s !! k with
  | None => mret tt
  | Some t =>
      _ ← modify (fun s => set_j_tasks (delete k (j_tasks s)) s);
      j_detached (match t with
        | JIssued i requestId tok => after_issue db i requestId tok
        | JConsumed i m tok => after_consume db i m tok
        | JNoToken i requestId => declare_error i requestId (js "invalid-mining-job-token")
        | JRejected i requestId token reason => _ ← query db (reject_row token reason); declare_error i requestId reason
        | JDelivered i m r => after_deliver i m r
        end)
  end.

Inductive jd_event :=
| JMining (e : event)
| JConnect
| JData (i : nat) (chunk : bytes) (now : Z)
| JClose (i : nat)
| JResume (k : nat) (db : bool)
| JGc (now : Z).

Definition j_open (i : nat) (s : jd) : bool := match j_objs s !! i with Some c => negb (j_destroyed c) | None => false end.

Definition jd_step (e : jd_event) (s : jd) : jd :=
  if crashed (pool s) then s
  else match e with
  | JMining e => set_pool (step opts poolRandom e (pool s)) s
  | JConnect => snd (j_accept s)
  | JData i chunk now => if j_open i s then snd (j_onData i chunk now s) else s
  | JClose i => if bool_decide (i ∈ j_conns s) then snd (j_onClose i s) else s
  | JResume k db => snd (j_resume k db s)
  | JGc now => snd (gc now s)
  end.
Definition jd_run (es : list jd_event) (s : jd) : jd := foldl (fun s e => jd_step e s) s es.
Definition init_jd (w : world) : jd := mkJd [] [] 0 [] [] [] [] [] [] (init_mining w).
End Jd.
