(* ===== verification/Sv2JdProofs.v ===== *)
(** * Job declaration: theorems

    What a declared coinbase that passes the check of [custom_job.ts] pays as the node
    reads it, how the check is evaded, and that a token is good for one job. *)

From S2P Require Import Prelude JsString JsMap JsNumber Effects Header Address Node JobManager Sv2Types Sv2Messages Noise Sv2Keys.
From S2P Require Import B3Pow PadCache ShareValidator Sv2Channel Sv2Server Sv2Jd.
Import Common Jd.

(** ** The declared coinbase *)

(** The two readers of the same bytes: they differ in the messages they throw only. *)
Lemma rd_bytes_raw n s b r : rd_bytes n s = Ok (b, r) -> r_bytesRaw n s = Ok (b, r).
Proof. unfold rd_bytes, r_bytesRaw. by case_match. Qed.
Lemma rd_le_raw n s v r : rd_le n s = Ok (v, r) -> (let_rd b := r_bytesRaw n in rd_ret (le_val b)) s = Ok (v, r).
Proof.
  unfold rd_le, rd_bind. destruct (rd_bytes n s) as [[b s']|] eqn:E; [|done]. rewrite (rd_bytes_raw _ _ _ _ E). done.
Qed.
Lemma rd_le_u8 s v r : rd_le 1 s = Ok (v, r) -> r_u8 s = Ok (v, r).
Proof.
  unfold rd_le, r_u8, rd_bind, rd_ret, rd_bytes, r_bytesRaw. destruct s as [|x s]; [done|]. rewrite zlen_cons. pose proof (zlen_nonneg s).
  rewrite (proj2 (Z.ltb_ge (1 + zlen s) 1)) by lia. cbn. intros [= <- <-]. by rewrite Z.add_0_r.
Qed.

(** What the node reads as a size, the pool reads as the same size. *)
Lemma readVarInt_node s n r : ReadCompactSize s = Ok (n, r) -> readVarInt s = Ok (n, r).
Proof.
  unfold ReadCompactSize, readVarInt, rd_bind. destruct (rd_le 1 s) as [[c s1]|] eqn:E1; [|done]. rewrite (rd_le_u8 _ _ _ E1). cbn [mbind res_bind].
  unfold rd_guard, rd_ret. destruct (c <? 253); [cbn [mbind res_bind]; by destruct (c >? MAX_SIZE)|].
  destruct (c =? 253); [|destruct (c =? 254)].
  - unfold r_u16. destruct (rd_le 2 s1) as [[v s2]|] eqn:E2; [|done]. rewrite (rd_le_raw _ _ _ _ E2). cbn [mbind res_bind].
    destruct (v <? 253); [done|]. cbn [mbind res_bind]. by destruct (v >? MAX_SIZE).
  - unfold r_u32. destruct (rd_le 4 s1) as [[v s2]|] eqn:E2; [|done]. rewrite (rd_le_raw _ _ _ _ E2). cbn [mbind res_bind].
    destruct (v <? 0x10000); [done|]. cbn [mbind res_bind]. by destruct (v >? MAX_SIZE).
  - unfold r_u64. destruct (rd_le 8 s1) as [[v s2]|] eqn:E2; [|done]. rewrite (rd_le_raw _ _ _ _ E2). cbn [mbind res_bind].
    destruct (v <? 0x100000000); [done|]. cbn [mbind res_bind]. destruct (v >? MAX_SIZE) eqn:Em; [done|]. intros [= <- <-].
    rewrite (proj2 (Z.ltb_ge _ _)); [done|]. rewrite Z.gtb_ltb in Em. apply Z.ltb_ge in Em. unfold MAX_SIZE, max_safe_integer in *. lia.
Qed.

(** Reading takes bytes off the front. *)
Definition shortens {A} (d : reader A) (k : Z) : Prop := forall s a r, d s = Ok (a, r) -> zlen r + k <= zlen s /\ (bytes_ok s -> bytes_ok r).
Lemma shortens_raw n k : k <= n -> k = n \/ k = 0 -> shortens (r_bytesRaw n) k.
Proof.
  intros Hk Hk2 s a r. unfold r_bytesRaw. destruct (Z.ltb_spec (zlen s) n); [done|]. intros [= <- <-]. split; [|apply bytes_ok_drop].
  unfold zlen in *. rewrite length_drop. lia.
Qed.
Lemma shortens_ret {A} (a : A) : shortens (rd_ret a) 0.
Proof. intros s b r [= <- <-]. split; [lia|done]. Qed.
Lemma shortens_bind {A B} (d : reader A) (f : A -> reader B) k : shortens d k -> (forall a, shortens (f a) 0) -> shortens (rd_bind d f) k.
Proof.
  intros Hd Hf s b r. unfold rd_bind. destruct (d s) as [[a s1]|] eqn:E; [|done]. cbn [mbind res_bind]. intros Hr.
  apply Hd in E as [E1 E2]. apply Hf in Hr as [Hr1 Hr2]. split; [lia|auto].
Qed.
Lemma shortens_le n k : k <= n -> k = n \/ k = 0 -> shortens (let_rd b := r_bytesRaw n in rd_ret (le_val b)) k.
Proof. intros H1 H2. apply shortens_bind; [by apply shortens_raw|]. intros. apply shortens_ret. Qed.
Lemma shortens_varInt : shortens readVarInt 0.
Proof.
  apply shortens_bind; [apply shortens_bind; [apply shortens_raw; lia|intros; apply shortens_ret]|]. intros c.
  case_match; [apply shortens_ret|]. case_match; [apply shortens_le; lia|]. case_match; [apply shortens_le; lia|].
  apply shortens_bind; [apply shortens_le; lia|]. intros v. case_match; [done|apply shortens_ret].
Qed.

(** An output of the node, as the pool's loop reads it. *)
Lemma rd_txout_inv s o r : rd_txout s = Ok (o, r) -> exists v s1 n s2, r_u64 s = Ok (v, s1) /\ readVarInt s1 = Ok (n, s2) /\
  r_bytesRaw n s2 = Ok (scriptPubKey o, r) /\ nValue o = to_i64 v /\ zlen r < zlen s /\ (bytes_ok s -> bytes_ok r /\ 0 <= v < 2 ^ 64).
Proof.
  unfold rd_txout, rd_script, rd_bind. destruct (rd_le 8 s) as [[v s1]|] eqn:E1; [|done]. cbn [mbind res_bind].
  destruct (ReadCompactSize s1) as [[n s2]|] eqn:E2; [|done]. cbn [mbind res_bind]. destruct (rd_bytes n s2) as [[b s3]|] eqn:E3; [|done].
  intros [= <- <-]. assert (bytes_ok s -> 0 <= v < 2 ^ 64) as Hv.
  { intros Hb. unfold rd_le, rd_bind, rd_bytes in E1. destruct (Z.ltb_spec (zlen s) 8); [done|]. injection E1 as <- <-.
    pose proof (le_val_range (slice 0 8 s) (bytes_ok_slice 0 8 s Hb)) as Hr. assert (zlen (slice 0 8 s) = 8) as Hz; [|by rewrite Hz in Hr].
    unfold zlen in *. rewrite slice_0, length_take. lia. }
  apply readVarInt_node in E2. apply rd_bytes_raw in E3. exists v, s1, n, s2. split; [exact (rd_le_raw _ _ _ _ E1)|]. do 3 (split; [done|]).
  apply rd_le_raw in E1. destruct (shortens_le 8 8 ltac:(lia) ltac:(lia) _ _ _ E1) as [L1 B1]. destruct (shortens_varInt _ _ _ E2) as [L2 B2].
  assert (zlen s3 <= zlen s2 /\ (bytes_ok s2 -> bytes_ok s3)) as [L3 B3].
  { unfold r_bytesRaw in E3. destruct (zlen s2 <? n); [done|]. injection E3 as <- <-. split; [|apply bytes_ok_drop]. unfold zlen. rewrite length_drop. lia. }
  split; [lia|]. intros Hb. split; [auto|auto].
Qed.

(** What outputs to [spk] add up to, as the 64-bit numbers of the wire. *)
Definition paid (spk : bytes) (outs : list CTxOut) : Z :=
  foldr (fun o t => (if bool_decide (scriptPubKey o = spk) then nValue o mod 2 ^ 64 else 0) + t) 0 outs.

Lemma to_i64_mod v : 0 <= v < 2 ^ 64 -> to_i64 v mod 2 ^ 64 = v.
Proof.
  intros Hv. unfold to_i64. rewrite (Z.mod_small v) by done. destruct (v <? 2 ^ 63); [by apply Z.mod_small|].
  replace (v - 2 ^ 64) with (v + (-1) * 2 ^ 64) by lia. rewrite Z_mod_plus_full. by apply Z.mod_small.
Qed.

Lemma out_loop_node spk outs n s r fuel acc : bytes_ok s -> rd_times n rd_txout s = Ok (outs, r) -> zlen s < Z.of_nat fuel ->
  out_loop fuel spk (Z.of_nat n) acc s = Ok (acc + paid spk outs, r).
Proof.
  revert s outs fuel acc. induction n as [|n IH]; intros s outs fuel acc Hb E Hf.
  - injection E as <- <-. destruct fuel; cbn; by rewrite Z.add_0_r.
  - destruct fuel as [|fuel]; [pose proof (zlen_nonneg s); lia|]. cbn [rd_times] in E. unfold rd_bind at 1 in E.
    destruct (rd_txout s) as [[o s']|] eqn:Eo; [|done]. cbn [mbind res_bind] in E. unfold rd_bind in E.
    destruct (rd_times n rd_txout s') as [[outs' r']|] eqn:Et; [|done]. injection E as <- <-.
    destruct (rd_txout_inv _ _ _ Eo) as (v & s1 & len & s2 & E1 & E2 & E3 & Ev & Hl & Hbv). destruct (Hbv Hb) as [Hb' Hv].
    cbn [out_loop]. rewrite (proj2 (Z.leb_gt (Z.of_nat (S n)) 0)) by lia. unfold rd_bind. rewrite E1. cbn [mbind res_bind]. rewrite E2.
    cbn [mbind res_bind]. rewrite E3. cbn [mbind res_bind]. replace (Z.of_nat (S n) - 1) with (Z.of_nat n) by lia.
    rewrite (IH s' outs') by (done || lia). do 2 f_equal. cbn [paid foldr]. fold (paid spk outs'). rewrite Ev, to_i64_mod by done.
    destruct (bool_decide _); lia.
Qed.

Lemma paid_some spk outs : 1 <= paid spk outs -> Forall (fun o => 0 <= nValue o) outs -> exists o, o ∈ outs /\ scriptPubKey o = spk /\ 1 <= nValue o.
Proof.
  induction outs as [|o outs IH]; cbn [paid foldr]; [lia|]. fold (paid spk outs). intros Hp [Ho Hos]%Forall_cons.
  destruct (decide (scriptPubKey o = spk /\ 1 <= nValue o)) as [[H1 H2]|Hn]; [exists o; split; [by left|done]|].
  destruct IH as (o' & Hin & Ho'); [|done|exists o'; split; [by right|done]].
  destruct (bool_decide (scriptPubKey o = spk)) eqn:Eb; [|lia]. apply bool_decide_eq_true in Eb.
  assert (~ 1 <= nValue o) as Hlt by tauto. assert (nValue o = 0) as E0 by lia. rewrite E0 in Hp. change (0 mod 2 ^ 64) with 0 in Hp. lia.
Qed.

(** A transaction whose input script ends before the suffix is read on from there. *)
Lemma rd_tx_suffix version h n script suffix tx r : zlen h = 32 -> zlen script <= MAX_SIZE ->
  UnserializeTransaction (uint32LE version ++ [1] ++ h ++ uint32LE n ++ varInt (zlen script) ++ script ++ suffix) = Ok (tx, r) ->
  exists q s1 k s2 s3, rd_le 4 suffix = Ok (q, s1) /\ ReadCompactSize s1 = Ok (k, s2) /\ rd_times (Z.to_nat k) rd_txout s2 = Ok (vout tx, s3).
Proof.
  intros Hp Hs. unfold UnserializeTransaction. rewrite (rd_bind_ok _ _ _ _ _ (rd_uint32LE version _)). unfold rd_bind at 1. rewrite rd_vector_one.
  rewrite rd_txin_script by done. unfold rd_bind at 1. destruct (rd_le 4 suffix) as [[q s1]|] eqn:E1; [|done]. cbn [mbind res_bind rd_ret fst snd].
  unfold rd_bind at 1, rd_vector, rd_bind at 1. destruct (ReadCompactSize s1) as [[k s2]|] eqn:E2; [|done]. cbn [mbind res_bind].
  destruct (rd_times (Z.to_nat k) rd_txout s2) as [[o s3]|] eqn:E3; [|done]. cbn [mbind res_bind]. unfold rd_bind.
  destruct (rd_le 4 s3) as [[l s4]|]; [|done]. intros [= <- <-]. by exists q, s1, k, s2, s3.
Qed.

(** A job that passes the check pays the pool, provided that its prefix and the
    extranonce end where the input script ends. *)
Lemma validated_pays payoutAddress spk suffix v version h n script tx r :
  addressToScriptPubKey payoutAddress = Some spk -> validateDeclaredCoinbase payoutAddress suffix 1 = CoinbaseOk v -> bytes_ok suffix ->
  zlen h = 32 -> zlen script <= MAX_SIZE ->
  UnserializeTransaction (uint32LE version ++ [1] ++ h ++ uint32LE n ++ varInt (zlen script) ++ script ++ suffix) = Ok (tx, r) ->
  Forall (fun o => 0 <= nValue o) (vout tx) -> exists o, o ∈ vout tx /\ scriptPubKey o = spk /\ 1 <= nValue o.
Proof.
  intros Ea Ev Hb Hh Hs Et. destruct (rd_tx_suffix _ _ _ _ _ _ _ Hh Hs Et) as (q & s1 & k & s2 & s3 & E1 & E2 & E3).
  unfold validateDeclaredCoinbase in Ev. rewrite Ea in Ev. apply rd_le_raw in E1. destruct (shortens_le 4 4 ltac:(lia) ltac:(lia) _ _ _ E1) as [L1 B1].
  apply readVarInt_node in E2 as E2'. destruct (shortens_varInt _ _ _ E2') as [L2 B2].
  unfold rd_bind in E1. destruct (r_bytesRaw 4 suffix) as [[b s1']|] eqn:E0; [|done]. injection E1 as <- <-.
  unfold rd_bind in Ev. rewrite E0 in Ev. cbn [mbind res_bind] in Ev. rewrite E2' in Ev. cbn [mbind res_bind] in Ev.
  destruct (Z.le_gt_cases k 0) as [Hk|Hk]; [cbn [out_loop] in Ev; by rewrite (proj2 (Z.leb_le k 0)) in Ev|].
  rewrite <- (Z2Nat.id k) in Ev by lia. rewrite (out_loop_node spk (vout tx) _ _ s3) in Ev; [|auto|done|unfold zlen in *; lia].
  destruct (Z.ltb_spec (0 + paid spk (vout tx)) 1); [done|]. apply paid_some. lia.
Qed.

(** A suffix that begins with an output for the pool passes, whatever follows. *)
Lemma validate_first payoutAddress spk q v rest : addressToScriptPubKey payoutAddress = Some spk -> 1 <= v < 2 ^ 63 ->
  validateDeclaredCoinbase payoutAddress (uint32LE q ++ [1] ++ le_bytes 8 v ++ varInt (zlen spk) ++ spk ++ rest) 1 = CoinbaseOk v.
Proof.
  intros Ea Hv. destruct (addressToScriptPubKey_facts _ _ Ea) as [Bs Ls]. pose proof (zlen_nonneg spk).
  unfold validateDeclaredCoinbase. rewrite Ea. set (tail := le_bytes 8 v ++ _).
  rewrite (rd_bind_ok _ _ _ (uint32LE q) ([1] ++ tail)) by (apply rd_bytes_raw, rd_bytes_app; by rewrite uint32LE_zlen).
  rewrite (rd_bind_ok _ _ _ 1 tail) by (apply readVarInt_node, (ReadCompactSize_varInt 1); by unfold MAX_SIZE).
  cbn [out_loop Z.leb Z.compare]. unfold tail. pose proof (rd_le_app 8 8 v (varInt (zlen spk) ++ spk ++ rest) eq_refl) as E8.
  rewrite Z.mod_small in E8 by lia. rewrite (rd_bind_ok _ _ _ _ _ (rd_le_raw _ _ _ _ E8)).
  rewrite (rd_bind_ok _ _ _ (zlen spk) (spk ++ rest)) by (apply readVarInt_node, ReadCompactSize_varInt; unfold MAX_SIZE; lia).
  rewrite (rd_bind_ok _ _ _ spk rest) by (by apply rd_bytes_raw, rd_bytes_app). rewrite bool_decide_true by done. change (1 - 1) with 0.
  assert (forall f acc, out_loop f spk 0 acc rest = Ok (acc, rest)) as -> by (by intros []). rewrite (proj2 (Z.ltb_ge _ _)) by lia. done.
Qed.

(** C38: the check of declared coinbases can be evaded.  Whatever the payout address of the
    pool and whatever output [o] a miner prefers, there is a declaration that passes the
    check and whose coinbase, with any extranonce in its slot, is a well-formed transaction
    with [o] as its only output.  The check reads outputs off the suffix and neither looks
    at the input script that the prefix announces nor objects to bytes after the lock time,
    so the output that pays the pool can be made part of the input script, which stays
    within the 100 bytes that consensus allows. *)
Theorem jd_check_evaded payoutAddress spk height o :
  addressToScriptPubKey payoutAddress = Some spk -> 0 <= height < 2 ^ 31 -> 0 <= nValue o < 2 ^ 63 -> zlen (scriptPubKey o) <= MAX_SIZE ->
  exists prefix suffix, validateDeclaredCoinbase payoutAddress suffix 1 = CoinbaseOk 1 /\
    forall extranonce, zlen extranonce = 8 -> exists script tx, UnserializeTransaction (prefix ++ extranonce ++ suffix) = Ok (tx, []) /\
      vin tx = [{| prevout := {| op_hash := zeros 32; op_n := 0xffffffff |}; scriptSig := script; nSequence := 0xffffffff |}] /\
      zlen script <= 100 /\ vout tx = [o].
Proof.
  intros Ea Hh Ho Hl. destruct (scriptNumPush_facts _ Hh) as [_ Lh]. destruct (addressToScriptPubKey_facts _ _ Ea) as [Bs Ls].
  set (push := scriptNumPush height) in *. set (hidden := uint32LE 0 ++ [1] ++ le_bytes 8 1 ++ varInt (zlen spk) ++ spk).
  assert (zlen hidden <= 60) as Lhid.
  { unfold hidden. rewrite !zlen_app, uint32LE_zlen, le_bytes_zlen. unfold varInt. pose proof (zlen_nonneg spk).
    rewrite (proj2 (Z.ltb_lt (zlen spk) 0xfd)) by lia. change (zlen [1]) with 1. change (zlen [_]) with 1. lia. }
  exists (uint32LE 1 ++ [1] ++ (zeros 32 ++ uint32LE 0xffffffff) ++ varInt (zlen push + 8 + zlen hidden) ++ push),
    (hidden ++ uint32LE 0xffffffff ++ [1] ++ enc_txout o ++ uint32LE 0).
  split; [unfold hidden; rewrite <- !app_assoc; by apply validate_first|]. intros en He. exists (push ++ en ++ hidden).
  eexists. split; [|split; [|split]].
  - pose proof (UnserializeTransaction_app (push ++ en ++ hidden) [o]) as HU. cbn [mbind list_bind] in HU. rewrite app_nil_r in HU.
    replace (zlen push + 8 + zlen hidden) with (zlen (push ++ en ++ hidden)) by (rewrite !zlen_app; lia).
    rewrite <- !app_assoc in HU. rewrite <- !app_assoc. apply HU; [rewrite !zlen_app; unfold MAX_SIZE; lia|done|by constructor].
  - done.
  - rewrite !zlen_app. lia.
  - done.
Qed.

(** ** Tokens *)
Section Tokens.
Context `{Sha256} `{Blake3} `{NoiseCrypto} `{Ed25519}.
Context (opts : Sv2ServerOptions) (poolRandom randomBytes : nat -> Z -> bytes) (tokenTtlMs : Z).
(** The random source does not repeat itself in its first [N] draws. *)
Context (N : nat).
Hypothesis fresh : forall k l, (k < N)%nat -> (l < N)%nat -> toHex (randomBytes k TOKEN_LEN) = toHex (randomBytes l TOKEN_LEN) -> k = l.

(** The tokens of declarations that are being checked or have been handed on. *)
Definition task_token (t : jd_task) : option jsstr :=
  match t with JConsumed _ m _ => Some (toHex (dmj_miningJobToken m)) | _ => None end.
Definition job_token (x : CustomJobDelivery * jsstr) : jsstr := toHex (cd_miningJobToken x.1).
Definition used (s : jd) : list jsstr := omap task_token (j_tasks s) ++ (job_token <$> delivered s).
Definition drawn (s : jd) (x : jsstr) : Prop := exists k, (k < j_draws s)%nat /\ x = toHex (randomBytes k TOKEN_LEN).
Definition owner (s : jd) (x user : jsstr) : Prop :=
  exists tok, tok ∈ issued s /\ toHex (tk_bytes tok) = x /\ tk_userIdentifier tok = user.
Definition checked (x : CustomJobDelivery * jsstr) : Prop :=
  validateDeclaredCoinbase (opt_payoutAddress opts) (cd_coinbaseSuffix x.1) 1 = CoinbaseOk (cd_poolValueSat x.1).

Definition entry_ok (s : jd) (x : jsstr * JdToken) : Prop :=
  x.1 = toHex (tk_bytes x.2) /\ drawn s x.1 /\ owner s x.1 (tk_userIdentifier x.2) /\ (tk_consumed x.2 = false -> x.1 ∉ used s).
Definition task_ok (s : jd) (t : jd_task) : Prop :=
  match t with JConsumed _ m tok => owner s (toHex (dmj_miningJobToken m)) (tk_userIdentifier tok) | _ => True end.
Definition job_ok (s : jd) (x : CustomJobDelivery * jsstr) : Prop := owner s (job_token x) x.2 /\ checked x.

Record tokens_ok (s : jd) : Prop := {
  ok_used : NoDup (used s);
  ok_drawn : Forall (drawn s) (used s);
  ok_keys : NoDup (byHex s).*1;
  ok_entries : Forall (entry_ok s) (byHex s);
  ok_tasks : Forall (task_ok s) (j_tasks s);
  ok_jobs : Forall (job_ok s) (delivered s)
}.
Definition tokens_kept (s s' : jd) : Prop := (j_draws s <= j_draws s')%nat /\ ((j_draws s' <= N)%nat -> tokens_ok s -> tokens_ok s').
#[local] Instance tokens_refl : Reflexive tokens_kept.
Proof. intros s. split; [lia|done]. Qed.
#[local] Instance tokens_trans : Transitive tokens_kept.
Proof. intros a b c [Hab1 Hab2] [Hbc1 Hbc2]. split; [lia|]. intros Hn Ha. apply Hbc2; [done|]. apply Hab2; [lia|done]. Qed.
Lemma kept_same s s' : j_draws s' = j_draws s -> (tokens_ok s -> tokens_ok s') -> tokens_kept s s'.
Proof. intros E Hk. split; [by rewrite E|]. auto. Qed.

(** What the invariant is about. *)
Lemma tokens_same s s' : j_draws s' = j_draws s -> byHex s' = byHex s -> issued s' = issued s -> j_tasks s' = j_tasks s -> delivered s' = delivered s ->
  tokens_ok s -> tokens_ok s'.
Proof. destruct s, s'. cbn. intros -> -> -> -> -> [K1 K2 K3 K4 K5 K6]. split; done. Qed.

Lemma on_tokens {A} i (m : eff JdConn A) : keeps tokens_kept (j_on i m).
Proof. intros s. unfold j_on. destruct (j_objs s !! i) as [c|]; [|reflexivity]. destruct (m c). apply kept_same; [done|]. by apply tokens_same. Qed.
Lemma pool_tokens {A} (m : eff mining A) : keeps tokens_kept (on_pool m).
Proof. intros s. unfold on_pool. destruct (m (pool s)). apply kept_same; [done|]. by apply tokens_same. Qed.

(** A task that is not a declaration. *)
Lemma add_task_tokens t : task_token t = None -> keeps tokens_kept (add_task t).
Proof.
  intros Ht s. apply kept_same; [done|]. intros [K1 K2 K3 K4 K5 K6]. unfold add_task, modify. cbn [snd].
  assert (used (set_j_tasks (j_tasks s ++ [t]) s) = used s) as Eu by (unfold used; cbn; rewrite omap_app; cbn; by rewrite Ht, app_nil_r).
  split; rewrite ?Eu; try done.
  - eapply Forall_impl; [exact K4|]. intros x (E1 & E2 & E3 & E4). do 3 (split; [done|]). by rewrite Eu.
  - apply Forall_app. split; [done|]. constructor; [|done]. by destruct t.
Qed.

(** A new token is not one of those before. *)
Lemma issue_tokens user now : keeps tokens_kept (issue randomBytes tokenTtlMs user now).
Proof.
  intros s. unfold issue, j_draw. eff_simpl. cbn [snd]. split; [cbn; lia|]. cbn [j_draws set_issued set_byHex set_j_draws]. intros HN [K1 K2 K3 K4 K5 K6]. set (b := randomBytes (j_draws s) TOKEN_LEN). set (tok := {| tk_bytes := b |}).
  assert (forall x, drawn s x -> x <> toHex b) as Hnew.
  { intros x (k & Hk & ->) E. apply fresh in E; lia. }
  assert (toHex b ∉ (byHex s).*1) as Hk.
  { intros ([k t] & E & Hin)%list_elem_of_fmap. eapply Forall_forall in K4; [|exact Hin]. destruct K4 as (_ & Hd & _). by apply Hnew in Hd. }
  match goal with |- tokens_ok ?x => set (s' := x) end.
  assert (forall x, drawn s x -> drawn s' x) as Hd. { intros x (k & Hlt & ->). exists k. split; [cbn; lia|done]. }
  assert (forall x u, owner s x u -> owner s' x u) as Hown. { intros x u (t & Ht & E). exists t. split; [cbn; apply elem_of_app; by left|done]. }
  assert (used s' = used s) as Eu by done.
  split; rewrite ?Eu.
  - done.
  - by eapply Forall_impl.
  - cbn. rewrite map_set_fresh by done. rewrite fmap_app. apply NoDup_app. split; [done|]. split; [|apply NoDup_singleton].
    by intros x Hx ->%list_elem_of_singleton.
  - cbn. rewrite map_set_fresh by done. apply Forall_app. split.
    + eapply Forall_impl; [exact K4|]. intros x (E1 & E2 & E3 & E4). split; [done|]. split; [by apply Hd|]. split; [by apply Hown|]. by rewrite Eu.
    + constructor; [|done]. split; [done|]. split; [exists (j_draws s); split; [cbn; lia|done]|].
      split; [exists tok; split; [cbn; apply elem_of_app; right; by apply list_elem_of_singleton|done]|]. intros _ Hin. rewrite Eu in Hin.
      eapply Forall_forall in K2; [|exact Hin]. by apply Hnew in K2.
  - eapply Forall_impl; [exact K5|]. intros [] Ht; try done. by apply Hown.
  - eapply Forall_impl; [exact K6|]. intros x [Hx Hc]. split; [by apply Hown|done].
Qed.

(** Entries may go, and may become consumed. *)
Lemma store_tokens s m : NoDup m.*1 -> (forall x, x ∈ m -> x ∈ byHex s \/ exists t, (x.1, t) ∈ byHex s /\ x.2 = set_consumed t) ->
  tokens_ok s -> tokens_ok (set_byHex m s).
Proof.
  intros Hn Hm [K1 K2 K3 K4 K5 K6]. split; try done. apply Forall_forall. intros x Hx.
  destruct (Hm x Hx) as [Hin|(t & Hin & E)]; eapply Forall_forall in K4; [done|exact Hin| |exact Hin].
  destruct K4 as (E1 & E2 & E3 & E4). split; [by rewrite E|]. split; [done|]. split; [by rewrite E|]. by rewrite E.
Qed.

Lemma map_set_entries s k t : (k, t) ∈ byHex s -> NoDup (byHex s).*1 ->
  tokens_ok s -> tokens_ok (set_byHex (map_set k (set_consumed t) (byHex s)) s).
Proof.
  intros Hin Hn. apply store_tokens; [by apply map_set_nodup|]. intros x [->|Hx]%map_set_elem; [|by left]. right. by exists t.
Qed.

Lemma reject_tokens token : keeps tokens_kept (reject_token token).
Proof.
  intros s. unfold reject_token, modify. cbn [snd]. destruct (map_get _ _) as [t|] eqn:E; [|reflexivity]. apply kept_same; [done|]. intros Hs.
  apply map_set_entries; [by apply map_get_elem|apply Hs|done].
Qed.

Lemma gc_tokens now : keeps tokens_kept (gc now).
Proof.
  intros s. apply kept_same; [done|]. intros Hs. unfold gc, modify. cbn [snd]. apply store_tokens; [|intros x Hx; left; by apply list_elem_of_filter in Hx as [_ Hx]|done].
  eapply sublist_NoDup; [exact (ok_keys _ Hs)|]. apply fmap_sublist, sublist_filter.
Qed.

Lemma declare_tokens i m now : keeps tokens_kept (consume (dmj_miningJobToken m) now ≫= fun tok =>
  add_task (match tok with Some tok => JConsumed i m tok | None => JNoToken i (dmj_requestId m) end)).
Proof.
  intros s. unfold consume. set (hex := toHex _). unfold mbind at 1, eff_bind at 1. unfold mbind at 1, eff_bind at 1, get at 1.
  destruct (map_get hex (byHex s)) as [t|] eqn:Et; [|by apply add_task_tokens]. apply map_get_elem in Et.
  destruct (tk_consumed t) eqn:Ec; [by apply add_task_tokens|]. destruct (tk_expiresAt t <=? now).
  - eff_simpl. etransitivity; [|apply (add_task_tokens (JNoToken i (dmj_requestId m)) eq_refl)]. apply kept_same; [done|]. intros Hs.
    apply store_tokens; [|intros x Hx; left; by eapply map_delete_subset|done]. by apply map_delete_keys, Hs.
  - eff_simpl. apply kept_same; [done|]. intros Hs. set (s1 := set_byHex _ s). assert (tokens_ok s1) as [K1 K2 K3 K4 K5 K6] by (apply map_set_entries; [done|apply Hs|done]).
    destruct (proj1 (Forall_forall _ _) (ok_entries s Hs) _ Et) as (E1 & E2 & E3 & E4). specialize (E4 Ec). cbn in E1, E2, E3, E4.
    unfold add_task, modify. cbn [snd]. match goal with |- tokens_ok ?x => set (s2 := x) end.
    assert (used s2 ≡ₚ hex :: used s) as Eu.
    { unfold used, s2. cbn. rewrite omap_app. cbn. rewrite <- app_assoc. cbn. by rewrite <- Permutation_middle. }
    split; try done.
    + rewrite Eu. constructor; [done|apply Hs].
    + rewrite Eu. constructor; [done|apply Hs].
    + eapply Forall_forall. intros [k t'] Hin. destruct (proj1 (Forall_forall _ _) K4 _ Hin) as (F1 & F2 & F3 & F4).
      do 3 (split; [done|]). intros Hc. rewrite Eu. apply not_elem_of_cons. split; [|by apply F4]. cbn in *. intros ->.
      assert ((hex, set_consumed t) ∈ map_set hex (set_consumed t) (byHex s)) as Hin2 by apply map_set_in.
      assert (t' = set_consumed t) as ->; [|done]. apply map_get_in in Hin; [|done]. apply map_get_in in Hin2; [|done]. congruence.
    + apply Forall_app. split; [done|]. constructor; [|done]. exact E3.
Qed.

Lemma used_change s s' : (forall x, x ∈ used s' -> x ∈ used s) -> issued s' = issued s -> j_draws s' = j_draws s ->
  Forall (entry_ok s) (byHex s) -> Forall (entry_ok s') (byHex s).
Proof.
  intros Hu Ei Ed Ha. eapply Forall_impl; [exact Ha|]. intros x (E1 & (k & Hk & Ek) & (t & Ht & E3) & E4). split; [done|]. split; [exists k; by rewrite Ed|].
  split; [exists t; by rewrite Ei|]. intros Hc Hin. by apply E4, Hu.
Qed.

(** A task ends. *)
Lemma done_tokens s k : tokens_ok s -> tokens_ok (set_j_tasks (delete k (j_tasks s)) s).
Proof.
  intros [K1 K2 K3 K4 K5 K6]. assert (sublist (used (set_j_tasks (delete k (j_tasks s)) s)) (used s)) as Hs.
  { apply sublist_app; [|done]. cbn. clear. revert k. induction (j_tasks s) as [|t l IH]; intros [|k]; cbn; try done.
    - destruct (task_token t); [by constructor|done].
    - destruct (task_token t); [constructor|]; apply IH. }
  split; try done.
  - eapply sublist_NoDup; [exact K1|exact Hs].
  - apply Forall_forall. intros x Hx. exact (proj1 (Forall_forall _ _) K2 x (elem_of_sublist _ _ _ Hx Hs)).
  - apply (used_change s); [|done..]. intros x Hx. exact (elem_of_sublist _ _ _ Hx Hs).
  - apply Forall_forall. intros t Ht. eapply (proj1 (Forall_forall _ _) K5). cbn in Ht. by eapply list_elem_of_delete_inv.
Qed.

(** A declaration that was being checked is handed on. *)
Lemma moved_tokens s k i m tok d : j_tasks s !! k = Some (JConsumed i m tok) -> cd_miningJobToken d = dmj_miningJobToken m ->
  checked (d, tk_userIdentifier tok) -> tokens_ok s ->
  tokens_ok (set_delivered (delivered s ++ [(d, tk_userIdentifier tok)]) (set_j_tasks (delete k (j_tasks s)) s)).
Proof.
  intros Ek Ed Hc Hs. destruct (done_tokens s k Hs) as [_ _ _ _ Kt _]. destruct Hs as [K1 K2 K3 K4 K5 K6]. set (s' := set_delivered _ _).
  assert (used s' ≡ₚ used s) as Eu.
  { unfold used, s'. cbn. rewrite (delete_Permutation _ _ _ Ek) at 2. cbn. rewrite fmap_app, app_assoc. cbn. unfold job_token at 2. cbn. rewrite Ed.
    by rewrite <- Permutation_cons_append. }
  split; try done.
  - by rewrite Eu.
  - by rewrite Eu.
  - apply (used_change s); [|done..]. intros x. by rewrite Eu.
  - cbn. apply Forall_app. split; [done|]. constructor; [|done]. split; [|done].
    pose proof (proj1 (Forall_forall _ _) K5 _ (list_elem_of_lookup_2 _ _ _ Ek)) as Ho. cbn in Ho. unfold job_token. cbn. by rewrite Ed.
Qed.

(** Everything else leaves the tokens alone. *)
Lemma query_tokens db f : keeps tokens_kept (query db f).
Proof. intros s. unfold query, when. destruct db; [|reflexivity]. apply kept_same; [done|]. by apply tokens_same. Qed.
Lemma draw_tokens : keeps tokens_kept (j_draw randomBytes).
Proof.
  intros s. unfold j_draw. eff_simpl. cbn [snd]. split; [cbn; lia|]. intros _ [K1 K2 K3 K4 K5 K6]. set (s' := set_j_draws _ s).
  assert (forall x, drawn s x -> drawn s' x) as Hd. { intros x (k & Hlt & ->). exists k. split; [cbn; lia|done]. }
  split; try done; [by eapply Forall_impl|]. eapply Forall_impl; [exact K4|]. intros x (E1 & E2 & E3 & E4).
  split; [done|]. split; [by apply Hd|]. done.
Qed.
Ltac token_walk := repeat match goal with
  | |- keeps _ (j_on _ _) => apply on_tokens
  | |- keeps _ (on_pool _) => apply pool_tokens
  | |- keeps _ (j_draw _) => apply draw_tokens
  | |- keeps _ (query _ _) => apply query_tokens
  | |- keeps _ (reject_token _) => apply reject_tokens
  | |- keeps _ (issue _ _ _ _) => apply issue_tokens
  | |- keeps _ (add_task _) => apply add_task_tokens; done
  | |- keeps _ (consume _ _ ≫= _) => apply declare_tokens
  | |- keeps _ (match _ with _ => _ end) => case_match
  | |- keeps _ (_ ≫= _) => apply keeps_bind; [typeclasses eauto| |]
  | |- keeps _ (mret _) => apply keeps_ret; typeclasses eauto
  | |- keeps _ (throw _) => apply keeps_throw; typeclasses eauto
  | |- keeps _ (lift _) => apply keeps_lift; typeclasses eauto
  | |- keeps _ get => apply keeps_get; typeclasses eauto
  | |- keeps _ (try_catch _ _) => apply keeps_try; [typeclasses eauto| |]
  | |- keeps _ (for_each _ _) => apply keeps_for_each; [typeclasses eauto..|]
  | |- keeps _ (modify _) => apply keeps_modify; intros s; apply kept_same; [done|]; by apply tokens_same
  | |- forall _, _ => intros
  | |- keeps _ _ => progress unfold j_upd, j_destroy, j_send, j_detached, declare_error, refuse, after_deliver, after_issue, handleAllocate, handleDeclare, j_handleSetup
  end.

Lemma dispatch_tokens i f now : keeps tokens_kept (j_dispatch randomBytes tokenTtlMs i f now).
Proof. unfold j_dispatch. token_walk. Qed.
Lemma decrypt_tokens i t now : keeps tokens_kept (j_decrypt randomBytes tokenTtlMs i t now).
Proof. unfold j_decrypt, j_handlePlainBytes. token_walk. apply dispatch_tokens. Qed.
Lemma data_tokens i chunk now : keeps tokens_kept (j_onData opts randomBytes tokenTtlMs i chunk now).
Proof. unfold j_onData, j_handshake. token_walk; apply decrypt_tokens. Qed.
Lemma close_tokens i : keeps tokens_kept (j_onClose i).
Proof. unfold j_onClose. token_walk. Qed.

Lemma consumed_tokens s k db i m tok : j_tasks s !! k = Some (JConsumed i m tok) ->
  tokens_kept s (after_consume opts db i m tok (set_j_tasks (delete k (j_tasks s)) s)).2.
Proof.
  intros Ek. unfold after_consume. destruct (validateDeclaredCoinbase _ _ 1) as [v|reason] eqn:Ev.
  2: { etransitivity; [apply kept_same; [|by apply (done_tokens s k)]; done|].
       apply (keeps_bind tokens_kept); [apply query_tokens|intros _; token_walk]. }
  set (f := consume_row m). set (s1 := set_audit (if db then f (audit s) else audit s) s).
  transitivity s1; [apply kept_same; [done|]; by apply tokens_same|]. unfold mbind at 1, eff_bind at 1.
  replace (query db f (set_j_tasks (delete k (j_tasks s)) s)) with (Ok tt, set_j_tasks (delete k (j_tasks s1)) s1)
    by (unfold query, when; by destruct db, s).
  unfold deliverCustomJob. eff_simpl. set (d := {| cd_requestId := _ |}).
  etransitivity; [apply kept_same; [|exact (moved_tokens s1 k i m tok d Ek eq_refl Ev)]; done|]. unfold on_pool. cbn [pool set_delivered set_j_tasks].
  destruct (pushCustomJob _ _ _) as [[r|e] p]; [|apply kept_same; [done|]; by apply tokens_same].
  etransitivity; [|apply (add_task_tokens (JDelivered i m r) eq_refl)]. apply kept_same; [done|]. by apply tokens_same.
Qed.

Lemma resume_tokens k db : keeps tokens_kept (j_resume opts k db).
Proof.
  intros s. unfold j_resume. unfold mbind at 1, eff_bind at 1, get at 1. destruct (j_tasks s !! k) as [t|] eqn:Ek; [|reflexivity].
  unfold mbind at 1, eff_bind at 1, modify at 1.
  set (s1 := set_j_tasks _ s). assert (forall m, tokens_kept s (m s1).2 -> tokens_kept s (j_detached m s1).2) as Hd.
  { intros m Hm. unfold j_detached, try_catch. destruct (m s1) as [[|e] s2]; [done|]. etransitivity; [exact Hm|]. apply pool_tokens. }
  assert (tokens_kept s s1) as Hs1 by (apply kept_same; [done|apply done_tokens]).
  assert (forall m : eff jd unit, keeps tokens_kept m -> tokens_kept s (m s1).2) as Hk by (intros m Hm; etransitivity; [exact Hs1|apply Hm]).
  apply Hd. destruct t as [i q tok|i m tok|i q|i q token reason|i m r]; [|by apply consumed_tokens| | |].
  - apply Hk. token_walk.
  - apply Hk. token_walk.
  - apply Hk. token_walk.
  - apply Hk. token_walk.
Qed.

Lemma step_tokens e s : tokens_kept s (jd_step opts poolRandom randomBytes tokenTtlMs e s).
Proof.
  unfold jd_step. destruct (crashed (pool s)); [reflexivity|]. destruct e as [e| |i chunk now|i|k db|now].
  - apply kept_same; [done|]. by apply tokens_same.
  - unfold j_accept, lift, mbind, eff_bind. destruct (new_NoiseNX _ _); (apply kept_same; [done|]; by apply tokens_same).
  - case_match; [apply data_tokens|reflexivity].
  - case_match; [apply close_tokens|reflexivity].
  - apply resume_tokens.
  - apply gc_tokens.
Qed.
Lemma run_tokens es s : tokens_kept s (jd_run opts poolRandom randomBytes tokenTtlMs es s).
Proof. revert s. induction es as [|e es IH]; intros s; [reflexivity|]. etransitivity; [apply step_tokens|apply IH]. Qed.
Lemma init_tokens w : tokens_ok (init_jd w).
Proof. split; cbn; try apply NoDup_nil_2; constructor. Qed.
End Tokens.

(** ** Requests

    Tokens and declarations come from frames that reached the server. *)
Definition frame_seen (s : jd) (t : Z) (c : JdConn) (f : Sv2Frame) : Prop :=
  (c, f) ∈ dispatched s /\ j_state c = READY /\ msgType (header f) = t.
(** A request for a token, for the user whom it names or else for the one of its connection. *)
Definition asked_by (s : jd) (user : jsstr) : Prop :=
  exists c f m, frame_seen s MSG_ALLOCATE_JOB_TOKEN c f /\ decodeAllocateMiningJobToken (payload f) = Ok m /\
    user = (if bool_decide (amjt_userIdentifier m = []) then j_userIdentity c else amjt_userIdentifier m).
Definition declared_by (s : jd) (m : DeclareMiningJob) : Prop :=
  exists c f, frame_seen s MSG_DECLARE_MINING_JOB c f /\ decodeDeclareMiningJob (payload f) = Ok m.
Definition declares (m : DeclareMiningJob) (d : CustomJobDelivery) : Prop :=
  cd_requestId d = dmj_requestId m /\ cd_miningJobToken d = dmj_miningJobToken m /\ cd_version d = dmj_version m /\
  cd_coinbasePrefix d = dmj_coinbasePrefix m /\ cd_coinbaseSuffix d = dmj_coinbaseSuffix m.

Section Requests.
Context `{Sha256} `{Blake3} `{NoiseCrypto} `{Ed25519}.
Context (opts : Sv2ServerOptions) (poolRandom randomBytes : nat -> Z -> bytes) (tokenTtlMs : Z).

Definition task_asked (s : jd) (t : jd_task) : Prop := match t with JConsumed _ m _ => declared_by s m | _ => True end.
Definition job_asked (s : jd) (x : CustomJobDelivery * jsstr) : Prop := exists m, declared_by s m /\ declares m x.1.
Record asked_ok (s : jd) : Prop := {
  ak_issued : Forall (fun tok => asked_by s (tk_userIdentifier tok)) (issued s);
  ak_tasks : Forall (task_asked s) (j_tasks s);
  ak_jobs : Forall (job_asked s) (delivered s)
}.
Definition asked (s s' : jd) : Prop := dispatched s ⊆ dispatched s' /\ (asked_ok s -> asked_ok s').
#[local] Instance asked_refl : Reflexive asked.
Proof. intros s. by split. Qed.
#[local] Instance asked_trans : Transitive asked.
Proof. intros a b c [Hab1 Hab2] [Hbc1 Hbc2]. split; [by etransitivity|auto]. Qed.

Lemma seen_more s s' : dispatched s ⊆ dispatched s' ->
  (forall u, asked_by s u -> asked_by s' u) /\ (forall m, declared_by s m -> declared_by s' m).
Proof.
  intros Hd. split; [intros u (c & f & m & [] & ?); exists c, f, m|intros m (c & f & [] & ?); exists c, f].
  all: (split; [split; [by apply Hd|done]|done]).
Qed.
(** The log of frames grows, tasks go, and the rest is the same. *)
Lemma asked_same s s' : dispatched s ⊆ dispatched s' -> issued s' = issued s -> (forall t, t ∈ j_tasks s' -> t ∈ j_tasks s \/ task_token t = None) ->
  delivered s' = delivered s -> asked s s'.
Proof.
  intros Hd E1 Ht E2. destruct (seen_more s s' Hd) as [Hu Hm]. split; [done|]. intros [K1 K2 K3]. constructor.
  - rewrite E1. eapply Forall_impl; [exact K1|]. auto.
  - apply Forall_forall. intros t Hin. destruct (Ht t Hin) as [Hin'|Hn]; [|by destruct t]. eapply Forall_forall in K2; [|exact Hin'].
    destruct t; cbn in *; auto.
  - rewrite E2. eapply Forall_impl; [exact K3|]. intros x (m & ? & ?). exists m. auto.
Qed.
Ltac same := apply asked_same; [done..|by left|done].

Lemma on_asked {A} i (m : eff JdConn A) : keeps asked (j_on i m).
Proof. intros s. unfold j_on. destruct (j_objs s !! i) as [c|]; [|reflexivity]. destruct (m c). same. Qed.
Lemma pool_asked {A} (m : eff mining A) : keeps asked (on_pool m).
Proof. intros s. unfold on_pool. destruct (m (pool s)). same. Qed.
Lemma add_task_asked t : task_token t = None -> keeps asked (add_task t).
Proof. intros Ht s. apply asked_same; [done..| |done]. cbn. intros t'. rewrite elem_of_app, list_elem_of_singleton. intros [?| ->]; auto. Qed.
Lemma query_asked db f : keeps asked (query db f).
Proof. intros s. unfold query, when. destruct db; [|reflexivity]. same. Qed.
Lemma reject_asked token : keeps asked (reject_token token).
Proof. intros s. unfold reject_token, modify. cbn [snd]. case_match; [|reflexivity]. same. Qed.
Lemma consume_asked token now : keeps asked (consume token now).
Proof. intros s. unfold consume. eff_simpl. repeat (case_match; eff_simpl); try reflexivity; same. Qed.

Ltac asked_walk := repeat match goal with
  | |- keeps _ (j_on _ _) => apply on_asked
  | |- keeps _ (on_pool _) => apply pool_asked
  | |- keeps _ (query _ _) => apply query_asked
  | |- keeps _ (reject_token _) => apply reject_asked
  | |- keeps _ (add_task _) => apply add_task_asked; done
  | |- keeps _ (match _ with _ => _ end) => case_match
  | |- keeps _ (_ ≫= _) => apply keeps_bind; [typeclasses eauto| |]
  | |- keeps _ (mret _) => apply keeps_ret; typeclasses eauto
  | |- keeps _ (throw _) => apply keeps_throw; typeclasses eauto
  | |- keeps _ (lift _) => apply keeps_lift; typeclasses eauto
  | |- keeps _ get => apply keeps_get; typeclasses eauto
  | |- keeps _ (try_catch _ _) => apply keeps_try; [typeclasses eauto| |]
  | |- keeps _ (for_each _ _) => apply keeps_for_each; [typeclasses eauto..|]
  | |- keeps _ (modify _) => apply keeps_modify; intros ?; same
  | |- forall _, _ => intros
  | |- keeps _ _ => progress unfold j_upd, j_destroy, j_send, j_detached, j_draw, declare_error, refuse, after_deliver, after_issue, j_handleSetup
  end.

Lemma allocate_asked i c f now s : j_objs s !! i = Some c -> frame_seen s MSG_ALLOCATE_JOB_TOKEN c f ->
  asked s (handleAllocate randomBytes tokenTtlMs i (payload f) now s).2.
Proof.
  intros Hc Hf. unfold handleAllocate. eff_simpl. destruct (decodeAllocateMiningJobToken _) as [m|] eqn:Em; [|reflexivity].
  unfold mbind, eff_bind, j_on. rewrite Hc. unfold get. eff_simpl. etransitivity; [|by apply add_task_asked].
  split; [done|]. intros [K1 K2 K3]. constructor; [|done..]. cbn. apply Forall_app. split; [done|]. constructor; [|constructor].
  by exists c, f, m.
Qed.

Lemma declare_asked i c f now s : j_objs s !! i = Some c -> frame_seen s MSG_DECLARE_MINING_JOB c f ->
  asked s (handleDeclare i (payload f) now s).2.
Proof.
  intros Hc Hf. unfold handleDeclare. unfold mbind at 1, eff_bind at 1, lift. destruct (decodeDeclareMiningJob _) as [m|] eqn:Em; [|reflexivity].
  unfold mbind, eff_bind. pose proof (consume_asked (dmj_miningJobToken m) now s) as Hk.
  destruct (consume (dmj_miningJobToken m) now s) as [[[tok|]|e] s1]; cbn [snd] in Hk; [|by etransitivity; [|apply add_task_asked]|done].
  etransitivity; [exact Hk|]. split; [done|]. intros [K1 K2 K3]. constructor; [done| |done]. cbn. apply Forall_app. split; [done|].
  constructor; [|constructor]. exists c, f. destruct Hf as [Hin Hf]. split; [|done]. split; [by apply Hk|done].
Qed.

Lemma dispatch_asked i f now : keeps asked (j_dispatch randomBytes tokenTtlMs i f now).
Proof.
  intros s. unfold j_dispatch. unfold mbind at 1, eff_bind at 1, j_on at 1. destruct (j_objs s !! i) as [c|] eqn:Hc; [|reflexivity].
  unfold get. eff_simpl. set (s0 := set_j_objs _ s). set (s1 := set_dispatched _ s0). assert (asked s s1) as Hs1.
  { apply asked_same; [intros x Hx; cbn; apply elem_of_app; by left|done|by left|done]. }
  assert (j_objs s1 !! i = Some c) as Hc1 by (cbn; by rewrite list_lookup_insert_eq by (by eapply lookup_lt_Some)).
  assert ((c, f) ∈ dispatched s1) as Hin by (cbn; apply elem_of_app; right; by left).
  etransitivity; [exact Hs1|]. case_bool_decide as Hst; [case_match; [|by apply on_asked]|].
  { clear. clearbody s1. revert s1. change (keeps asked (j_handleSetup i (payload f))). asked_walk. }
  case_bool_decide as Hr; cbn [negb]; [|reflexivity].
  destruct (Z.eqb_spec (msgType (header f)) MSG_ALLOCATE_JOB_TOKEN); [by apply (allocate_asked i c)|].
  destruct (Z.eqb_spec (msgType (header f)) MSG_DECLARE_MINING_JOB); [by apply (declare_asked i c)|reflexivity].
Qed.

Lemma data_asked i chunk now : keeps asked (j_onData opts randomBytes tokenTtlMs i chunk now).
Proof.
  assert (forall t, keeps asked (j_decrypt randomBytes tokenTtlMs i t now)) as Hd
    by (intros t; unfold j_decrypt, j_handlePlainBytes; asked_walk; apply dispatch_asked).
  unfold j_onData, j_handshake. asked_walk; apply Hd.
Qed.

(** A declaration that is handed on. *)
Lemma consumed_asked db i m tok s s1 : asked s s1 -> (asked_ok s -> declared_by s m) -> asked s (after_consume opts db i m tok s1).2.
Proof.
  intros Hs Hm. unfold after_consume. destruct (validateDeclaredCoinbase _ _ 1) as [v|reason].
  2: { etransitivity; [exact Hs|]. apply (keeps_bind asked); [apply query_asked|intros _; asked_walk]. }
  unfold mbind at 1, eff_bind at 1. pose proof (query_asked db (consume_row m) s1) as Hq.
  replace (query db (consume_row m) s1) with (Ok tt, (query db (consume_row m) s1).2) by (unfold query, when; by destruct db).
  set (s2 := (query db (consume_row m) s1).2) in *. assert (asked s s2) as [Hd Ha] by (by etransitivity).
  apply (asked_trans _ (set_delivered (delivered s2 ++ [({| cd_requestId := dmj_requestId m; cd_miningJobToken := dmj_miningJobToken m;
    cd_version := dmj_version m; cd_coinbasePrefix := dmj_coinbasePrefix m; cd_coinbaseSuffix := dmj_coinbaseSuffix m; cd_poolValueSat := v |},
    tk_userIdentifier tok)]) s2)).
  - split; [done|]. intros Hok. destruct (Ha Hok) as [K1 K2 K3]. constructor; [done..|]. cbn. apply Forall_app. split; [done|].
    constructor; [|constructor]. exists m. split; [|done]. destruct (seen_more s s2 Hd) as [_ Hm2]. by apply Hm2, Hm.
  - unfold deliverCustomJob. eff_simpl. set (s3 := set_delivered _ s2). unfold on_pool. destruct (pushCustomJob _ _ _) as [[r|e] p']; [|same].
    etransitivity; [|by apply add_task_asked]. same.
Qed.

Lemma resume_asked k db : keeps asked (j_resume opts k db).
Proof.
  intros s. unfold j_resume. unfold mbind at 1, eff_bind at 1, get at 1. destruct (j_tasks s !! k) as [t|] eqn:Ek; [|reflexivity].
  unfold mbind at 1, eff_bind at 1, modify at 1. set (s1 := set_j_tasks _ s). assert (asked s s1) as Hs1.
  { apply asked_same; [done..| |done]. intros t' Ht. left. cbn in Ht. by eapply list_elem_of_delete_inv. }
  assert (forall m, asked s (m s1).2 -> asked s (j_detached m s1).2) as Hd.
  { intros m Hm. unfold j_detached, try_catch. destruct (m s1) as [[|e] s2]; [done|]. etransitivity; [exact Hm|]. apply pool_asked. }
  assert (forall m : eff jd unit, keeps asked m -> asked s (m s1).2) as Hk by (intros m Hm; etransitivity; [exact Hs1|apply Hm]).
  apply Hd. destruct t as [i q tok|i m tok|i q|i q token reason|i m r]; [apply Hk; asked_walk| |apply Hk; asked_walk..].
  apply consumed_asked; [done|]. intros [_ K2 _]. apply list_elem_of_lookup_2 in Ek. by eapply Forall_forall in K2; [|exact Ek].
Qed.

Lemma run_asked es w : asked_ok (jd_run opts poolRandom randomBytes tokenTtlMs es (init_jd w)).
Proof.
  assert (forall e s, asked s (jd_step opts poolRandom randomBytes tokenTtlMs e s)) as Hstep.
  { intros e s. unfold jd_step. destruct (crashed (pool s)); [reflexivity|]. destruct e as [e| |i chunk now|i|k db|now].
    - same.
    - unfold j_accept, lift, mbind, eff_bind. destruct (new_NoiseNX _ _); same.
    - case_match; [apply data_asked|reflexivity].
    - case_match; [|reflexivity]. generalize s. change (keeps asked (j_onClose i)). unfold j_onClose. asked_walk.
    - apply resume_asked.
    - same. }
  assert (forall s, asked_ok s -> asked_ok (jd_run opts poolRandom randomBytes tokenTtlMs es s)) as Hrun.
  { induction es as [|e es IH]; intros s Hs; [done|]. by apply IH, (Hstep e s). }
  apply Hrun. split; constructor.
Qed.
End Requests.

