(* ===== verification/Sv2JdExamples.v ===== *)
(** * Job declaration: a run

    A client of the job declaration server gets a token and declares a job with it; the
    witnesses of the theorems of [Sv2JdProofs]. *)

From S2P Require Import Prelude JsString JsMap JsNumber JsRound Effects Header Address Difficulty Node JobManager B3Pow PadCache.
From S2P Require Import ShareValidator Ipc Sv2Types Sv2Messages Noise Sv2Keys Sv2Channel Sv2Server Sv2Examples Sv2Jd Sv2JdProofs.
Import Common Jd.

#[local] Instance jx_sha : Sha256 := example_digest.
#[local] Instance jx_blake : Blake3 := example_stream.
#[local] Instance jx_crypto : NoiseCrypto := example_crypto.
#[local] Instance jx_ed : Ed25519 := example_ed.

Abbreviation jd_example := (jd_run sv2_options sv2_random sv2_random 300000).

Definition jd_boot : list jd_event := [JConnect; JData 0 (le_bytes 2 32 ++ fst miner1) 1000].
Definition jd_booted : jd := Eval vm_compute in jd_example jd_boot (init_jd empty_cache).
Definition declarer1 : NoiseTransport := Eval vm_compute in
  match j_objs jd_booted !! 0%nat with
  | Some c => match readMessage2 (drop 2 (default [] (head (j_written c)))) (snd miner1) with
              | (Ok r, _) => {| t_send := sendCipher r; t_recv := recvCipher r |}
              | _ => miner2
              end
  | None => miner2
  end.
Definition declarer2 : bytes * NoiseTransport := Eval vm_compute in run_ok (encryptFrame (ok_or (encodeSetupConnection {|
  sc_protocol := SubProtocol_JobDeclaration; sc_minVersion := 2; sc_maxVersion := 2; sc_flags := 0; sc_endpointHost := js "pool";
  sc_endpointPort := 3338; sc_vendor := js "v"; sc_hardwareVersion := js "1"; sc_firmware := js "f"; sc_deviceId := js "d" |}) [])) declarer1 [].
Definition declarer3 : bytes * NoiseTransport := Eval vm_compute in
  run_ok (encryptFrame (ok_or (encodeAllocateMiningJobToken {| amjt_userIdentifier := js "alice"; amjt_requestId := 1 |}) [])) (snd declarer2) [].

(** The second draw of the server is its first token. *)
Definition pool_script : bytes := Eval vm_compute in default [] (addressToScriptPubKey example_address).
Definition declared_suffix : bytes :=
  uint32LE 0xffffffff ++ [1] ++ le_bytes 8 5000000000 ++ varInt (zlen pool_script) ++ pool_script ++ uint32LE 0.
Definition declaration : DeclareMiningJob := {|
  dmj_requestId := 2; dmj_miningJobToken := sv2_random 1 32; dmj_version := 536870912; dmj_coinbasePrefix := [1; 2];
  dmj_coinbaseSuffix := declared_suffix; dmj_txShortHashList := []; dmj_txHashListHash := zeros 32; dmj_excessData := [] |}.
Definition declarer4 : bytes * NoiseTransport := Eval vm_compute in
  run_ok (encryptFrame (ok_or (encodeDeclareMiningJob declaration) [])) (snd declarer3) [].

(** The query after the declaration fails, which changes nothing. *)
Definition jd_events : list jd_event := jd_boot ++
  [JData 0 (fst declarer2) 1001; JData 0 (fst declarer3) 1002; JResume 0 true; JData 0 (fst declarer4) 1003; JResume 0 false].
Definition jd_after : jd := Eval vm_compute in jd_example jd_events (init_jd empty_cache).
Lemma jd_after_run : jd_example jd_events (init_jd empty_cache) = jd_after.
Proof. vm_compute. reflexivity. Qed.

(** The declared coinbase with an input script of four bytes, as the node reads it. *)
Definition declared_bytes : bytes :=
  uint32LE 1 ++ [1] ++ zeros 32 ++ uint32LE 0xffffffff ++ varInt (zlen [1; 2; 3; 4]) ++ [1; 2; 3; 4] ++ declared_suffix.
Definition declared_tx : CTransaction := Eval vm_compute in
  match UnserializeTransaction declared_bytes with Ok (tx, _) => tx | Throw _ => {| tx_version := 0; vin := []; vout := []; nLockTime := 0 |} end.


Lemma jd_check_evaded_witness : exists prefix suffix, validateDeclaredCoinbase example_address suffix 1 = CoinbaseOk 1 /\
  exists tx, UnserializeTransaction (prefix ++ replicate 8 7 ++ suffix) = Ok (tx, []) /\
    vout tx = [{| nValue := 5000000000; scriptPubKey := [0x51] |}].
Proof.
  destruct (jd_check_evaded example_address pool_script 1000 {| nValue := 5000000000; scriptPubKey := [0x51] |}) as (prefix & suffix & Hv & Ht).
  - vm_compute. reflexivity.
  - lia.
  - cbn. lia.
  - vm_compute. discriminate.
  - exists prefix, suffix. split; [exact Hv|]. destruct (Ht (replicate 8 7) eq_refl) as (script & tx & E & _ & _ & Ho).
    exists tx. split; [exact E|exact Ho].
Defined.
