(* ===== verification/Translator.v ===== *)
(** * The V1 to V2 translator ([pool/src/sv2/translator/sv2-client.ts], [server.ts])

    Stratum V1 miners connect to it, and for each of them it opens a connection of its own
    to the Stratum V2 pool; a bridge is the pair.  Everything but the counters that number
    the V1 connections and the life of the process happens within one bridge.  The two
    promises that the handlers of V1 requests await, of [connect] and of
    [submitExtendedShare], are tasks of the bridge that are settled by the upstream
    connection and go on later.  A second [mining.subscribe] connects again, so an upstream
    client can have several sockets, all with the same handlers; [up_socket] is the last.
    An exception in a handler of an upstream socket, and a rejected promise that nobody
    handles, end the process ([tr_crashed]). *)

From S2P Require Import Prelude JsString JsMap JsNumber JsRound JsFormat Effects Json Header Difficulty Vardiff JobManager.
From S2P Require Import ShareValidator Sv2Types Sv2Messages Noise Sv2Keys Sv2Channel Sv2Server StratumClient.
Import Common Mining.

Inductive UpState := UP_INIT | UP_HANDSHAKE_M2 | UP_SETUP_PENDING | UP_CHANNEL_PENDING | UP_READY | UP_DEAD.
#[global] Instance UpState_eq_dec : EqDecision UpState.
Proof. solve_decision. Defined.

(** A socket to the pool. *)
Record sock := { sk_connected : bool; sk_destroyed : bool; sk_closed : bool; sk_written : list bytes }.
Definition new_sock : sock := {| sk_connected := false; sk_destroyed := false; sk_closed := false; sk_written := [] |}.
Definition sock_destroy (k : sock) : sock :=
  {| sk_connected := sk_connected k; sk_destroyed := true; sk_closed := sk_closed k; sk_written := sk_written k |}.
Definition sock_connected (k : sock) : sock :=
  {| sk_connected := true; sk_destroyed := sk_destroyed k; sk_closed := sk_closed k; sk_written := sk_written k |}.
Definition sock_closed (k : sock) : sock :=
  {| sk_connected := sk_connected k; sk_destroyed := true; sk_closed := true; sk_written := sk_written k |}.
Definition sock_write (b : bytes) (k : sock) : sock :=
  if sk_destroyed k then k
  else {| sk_connected := sk_connected k; sk_destroyed := false; sk_closed := sk_closed k; sk_written := sk_written k ++ [b] |}.

(** The promise of a submission is the one of its sequence number. *)
Record PendingSubmit := { ps_sequenceNumber : Z }.

(** The options that do not change. *)
Record TranslatorOptions := { to_upstreamHost : jsstr; to_upstreamPort : Z; to_authorityPub : bytes }.

(** [up_connecting] is the promise that [connectResolve] and [connectReject] settle, the
    [up_connects]-th call of [connect] makes the next one, [up_timers] are the submissions
    whose timeout runs, and [up_sent] and [up_received] record the frames that were written
    and dispatched. *)
Record Upstream := mkUpstream {
  up_userIdentity : jsstr;
  up_socket : option nat;
  up_sockets : list sock;
  up_nx : option NoiseNX;
  up_hsBuf : bytes;
  up_state : UpState;
  up_transport : option NoiseTransport;
  up_ct : bytes;
  up_plain : bytes;
  up_nextSeq : Z;
  up_channelId : Z;
  up_extranoncePrefix : bytes;
  up_extranonceSize : Z;
  up_connecting : option nat;
  up_connects : nat;
  up_pendingSubmits : list (Z * PendingSubmit);
  up_timers : list Z;
  up_sent : list bytes;
  up_received : list Sv2Frame
}.

(** One assignment to a field. *)
Definition set_up_userIdentity (v : jsstr) (u : Upstream) : Upstream :=
  mkUpstream v (up_socket u) (up_sockets u) (up_nx u) (up_hsBuf u) (up_state u) (up_transport u) (up_ct u)
    (up_plain u) (up_nextSeq u) (up_channelId u) (up_extranoncePrefix u) (up_extranonceSize u) (up_connecting u)
    (up_connects u) (up_pendingSubmits u) (up_timers u) (up_sent u) (up_received u).
Definition set_up_socket (v : option nat) (u : Upstream) : Upstream :=
  mkUpstream (up_userIdentity u) v (up_sockets u) (up_nx u) (up_hsBuf u) (up_state u) (up_transport u) (up_ct u)
    (up_plain u) (up_nextSeq u) (up_channelId u) (up_extranoncePrefix u) (up_extranonceSize u) (up_connecting u)
    (up_connects u) (up_pendingSubmits u) (up_timers u) (up_sent u) (up_received u).
Definition set_up_sockets (v : list sock) (u : Upstream) : Upstream :=
  mkUpstream (up_userIdentity u) (up_socket u) v (up_nx u) (up_hsBuf u) (up_state u) (up_transport u) (up_ct u)
    (up_plain u) (up_nextSeq u) (up_channelId u) (up_extranoncePrefix u) (up_extranonceSize u) (up_connecting u)
    (up_connects u) (up_pendingSubmits u) (up_timers u) (up_sent u) (up_received u).
Definition set_up_nx (v : option NoiseNX) (u : Upstream) : Upstream :=
  mkUpstream (up_userIdentity u) (up_socket u) (up_sockets u) v (up_hsBuf u) (up_state u) (up_transport u)
    (up_ct u) (up_plain u) (up_nextSeq u) (up_channelId u) (up_extranoncePrefix u) (up_extranonceSize u)
    (up_connecting u) (up_connects u) (up_pendingSubmits u) (up_timers u) (up_sent u) (up_received u).
Definition set_up_hsBuf (v : bytes) (u : Upstream) : Upstream :=
  mkUpstream (up_userIdentity u) (up_socket u) (up_sockets u) (up_nx u) v (up_state u) (up_transport u) (up_ct
    u) (up_plain u) (up_nextSeq u) (up_channelId u) (up_extranoncePrefix u) (up_extranonceSize u) (up_connecting
    u) (up_connects u) (up_pendingSubmits u) (up_timers u) (up_sent u) (up_received u).
Definition set_up_state (v : UpState) (u : Upstream) : Upstream :=
  mkUpstream (up_userIdentity u) (up_socket u) (up_sockets u) (up_nx u) (up_hsBuf u) v (up_transport u) (up_ct
    u) (up_plain u) (up_nextSeq u) (up_channelId u) (up_extranoncePrefix u) (up_extranonceSize u) (up_connecting
    u) (up_connects u) (up_pendingSubmits u) (up_timers u) (up_sent u) (up_received u).
Definition set_up_transport (v : option NoiseTransport) (u : Upstream) : Upstream :=
  mkUpstream (up_userIdentity u) (up_socket u) (up_sockets u) (up_nx u) (up_hsBuf u) (up_state u) v (up_ct u)
    (up_plain u) (up_nextSeq u) (up_channelId u) (up_extranoncePrefix u) (up_extranonceSize u) (up_connecting u)
    (up_connects u) (up_pendingSubmits u) (up_timers u) (up_sent u) (up_received u).
Definition set_up_ct (v : bytes) (u : Upstream) : Upstream :=
  mkUpstream (up_userIdentity u) (up_socket u) (up_sockets u) (up_nx u) (up_hsBuf u) (up_state u) (up_transport
    u) v (up_plain u) (up_nextSeq u) (up_channelId u) (up_extranoncePrefix u) (up_extranonceSize u)
    (up_connecting u) (up_connects u) (up_pendingSubmits u) (up_timers u) (up_sent u) (up_received u).
Definition set_up_plain (v : bytes) (u : Upstream) : Upstream :=
  mkUpstream (up_userIdentity u) (up_socket u) (up_sockets u) (up_nx u) (up_hsBuf u) (up_state u) (up_transport
    u) (up_ct u) v (up_nextSeq u) (up_channelId u) (up_extranoncePrefix u) (up_extranonceSize u) (up_connecting
    u) (up_connects u) (up_pendingSubmits u) (up_timers u) (up_sent u) (up_received u).
Definition set_up_nextSeq (v : Z) (u : Upstream) : Upstream :=
  mkUpstream (up_userIdentity u) (up_socket u) (up_sockets u) (up_nx u) (up_hsBuf u) (up_state u) (up_transport
    u) (up_ct u) (up_plain u) v (up_channelId u) (up_extranoncePrefix u) (up_extranonceSize u) (up_connecting u)
    (up_connects u) (up_pendingSubmits u) (up_timers u) (up_sent u) (up_received u).
Definition set_up_channelId (v : Z) (u : Upstream) : Upstream :=
  mkUpstream (up_userIdentity u) (up_socket u) (up_sockets u) (up_nx u) (up_hsBuf u) (up_state u) (up_transport
    u) (up_ct u) (up_plain u) (up_nextSeq u) v (up_extranoncePrefix u) (up_extranonceSize u) (up_connecting u)
    (up_connects u) (up_pendingSubmits u) (up_timers u) (up_sent u) (up_received u).
Definition set_up_extranoncePrefix (v : bytes) (u : Upstream) : Upstream :=
  mkUpstream (up_userIdentity u) (up_socket u) (up_sockets u) (up_nx u) (up_hsBuf u) (up_state u) (up_transport
    u) (up_ct u) (up_plain u) (up_nextSeq u) (up_channelId u) v (up_extranonceSize u) (up_connecting u)
    (up_connects u) (up_pendingSubmits u) (up_timers u) (up_sent u) (up_received u).
Definition set_up_extranonceSize (v : Z) (u : Upstream) : Upstream :=
  mkUpstream (up_userIdentity u) (up_socket u) (up_sockets u) (up_nx u) (up_hsBuf u) (up_state u) (up_transport
    u) (up_ct u) (up_plain u) (up_nextSeq u) (up_channelId u) (up_extranoncePrefix u) v (up_connecting u)
    (up_connects u) (up_pendingSubmits u) (up_timers u) (up_sent u) (up_received u).
Definition set_up_connecting (v : option nat) (u : Upstream) : Upstream :=
  mkUpstream (up_userIdentity u) (up_socket u) (up_sockets u) (up_nx u) (up_hsBuf u) (up_state u) (up_transport
    u) (up_ct u) (up_plain u) (up_nextSeq u) (up_channelId u) (up_extranoncePrefix u) (up_extranonceSize u) v
    (up_connects u) (up_pendingSubmits u) (up_timers u) (up_sent u) (up_received u).
Definition set_up_connects (v : nat) (u : Upstream) : Upstream :=
  mkUpstream (up_userIdentity u) (up_socket u) (up_sockets u) (up_nx u) (up_hsBuf u) (up_state u) (up_transport
    u) (up_ct u) (up_plain u) (up_nextSeq u) (up_channelId u) (up_extranoncePrefix u) (up_extranonceSize u)
    (up_connecting u) v (up_pendingSubmits u) (up_timers u) (up_sent u) (up_received u).
Definition set_up_pendingSubmits (v : list (Z * PendingSubmit)) (u : Upstream) : Upstream :=
  mkUpstream (up_userIdentity u) (up_socket u) (up_sockets u) (up_nx u) (up_hsBuf u) (up_state u) (up_transport
    u) (up_ct u) (up_plain u) (up_nextSeq u) (up_channelId u) (up_extranoncePrefix u) (up_extranonceSize u)
    (up_connecting u) (up_connects u) v (up_timers u) (up_sent u) (up_received u).
Definition set_up_timers (v : list Z) (u : Upstream) : Upstream :=
  mkUpstream (up_userIdentity u) (up_socket u) (up_sockets u) (up_nx u) (up_hsBuf u) (up_state u) (up_transport
    u) (up_ct u) (up_plain u) (up_nextSeq u) (up_channelId u) (up_extranoncePrefix u) (up_extranonceSize u)
    (up_connecting u) (up_connects u) (up_pendingSubmits u) v (up_sent u) (up_received u).
Definition set_up_sent (v : list bytes) (u : Upstream) : Upstream :=
  mkUpstream (up_userIdentity u) (up_socket u) (up_sockets u) (up_nx u) (up_hsBuf u) (up_state u) (up_transport
    u) (up_ct u) (up_plain u) (up_nextSeq u) (up_channelId u) (up_extranoncePrefix u) (up_extranonceSize u)
    (up_connecting u) (up_connects u) (up_pendingSubmits u) (up_timers u) v (up_received u).
Definition set_up_received (v : list Sv2Frame) (u : Upstream) : Upstream :=
  mkUpstream (up_userIdentity u) (up_socket u) (up_sockets u) (up_nx u) (up_hsBuf u) (up_state u) (up_transport
    u) (up_ct u) (up_plain u) (up_nextSeq u) (up_channelId u) (up_extranoncePrefix u) (up_extranonceSize u)
    (up_connecting u) (up_connects u) (up_pendingSubmits u) (up_timers u) (up_sent u) v.

(** What an awaited [submitExtendedShare] gives. *)
Record submit_result := { sr_ok : bool; sr_reason : option jsstr }.

(** The rest of a V1 handler for the request [id], and, once its promise has settled, the
    outcome. *)
Inductive tr_task :=
| TSubscribe (id : jval) (promise : nat) (outcome : option (res unit))
| TSubmitted (id : jval) (seq : Z) (outcome : option (res submit_result)).

(** [br_rejected]: a promise of a handler was rejected and nobody handles that.
    [br_requests] records the requests of the miner. *)
Record Bridge := mkBridge {
  br_v1 : StratumClient;
  br_sv2 : Upstream;
  br_lastJob : option NewExtendedMiningJob;
  br_lastPrevHash : option SetNewPrevHash;
  br_jobIdMap : list (jsstr * Z);
  br_nextV1JobNum : Z;
  br_tasks : list tr_task;
  br_rejected : bool;
  br_requests : list jval
}.

Definition set_br_v1 (v : StratumClient) (b : Bridge) : Bridge :=
  mkBridge v (br_sv2 b) (br_lastJob b) (br_lastPrevHash b) (br_jobIdMap b) (br_nextV1JobNum b) (br_tasks b)
    (br_rejected b) (br_requests b).
Definition set_br_sv2 (v : Upstream) (b : Bridge) : Bridge :=
  mkBridge (br_v1 b) v (br_lastJob b) (br_lastPrevHash b) (br_jobIdMap b) (br_nextV1JobNum b) (br_tasks b)
    (br_rejected b) (br_requests b).
Definition set_br_lastJob (v : option NewExtendedMiningJob) (b : Bridge) : Bridge :=
  mkBridge (br_v1 b) (br_sv2 b) v (br_lastPrevHash b) (br_jobIdMap b) (br_nextV1JobNum b) (br_tasks b)
    (br_rejected b) (br_requests b).
Definition set_br_lastPrevHash (v : option SetNewPrevHash) (b : Bridge) : Bridge :=
  mkBridge (br_v1 b) (br_sv2 b) (br_lastJob b) v (br_jobIdMap b) (br_nextV1JobNum b) (br_tasks b) (br_rejected
    b) (br_requests b).
Definition set_br_jobIdMap (v : list (jsstr * Z)) (b : Bridge) : Bridge :=
  mkBridge (br_v1 b) (br_sv2 b) (br_lastJob b) (br_lastPrevHash b) v (br_nextV1JobNum b) (br_tasks b)
    (br_rejected b) (br_requests b).
Definition set_br_nextV1JobNum (v : Z) (b : Bridge) : Bridge :=
  mkBridge (br_v1 b) (br_sv2 b) (br_lastJob b) (br_lastPrevHash b) (br_jobIdMap b) v (br_tasks b) (br_rejected
    b) (br_requests b).
Definition set_br_tasks (v : list tr_task) (b : Bridge) : Bridge :=
  mkBridge (br_v1 b) (br_sv2 b) (br_lastJob b) (br_lastPrevHash b) (br_jobIdMap b) (br_nextV1JobNum b) v
    (br_rejected b) (br_requests b).
Definition set_br_rejected (v : bool) (b : Bridge) : Bridge :=
  mkBridge (br_v1 b) (br_sv2 b) (br_lastJob b) (br_lastPrevHash b) (br_jobIdMap b) (br_nextV1JobNum b) (br_tasks
    b) v (br_requests b).
Definition set_br_requests (v : list jval) (b : Bridge) : Bridge :=
  mkBridge (br_v1 b) (br_sv2 b) (br_lastJob b) (br_lastPrevHash b) (br_jobIdMap b) (br_nextV1JobNum b) (br_tasks
    b) (br_rejected b) v.

Record translator := mkTranslator {
  tr_nextConnId : Z;
  tr_nextExtranonce1 : Z;
  tr_objs : list Bridge;
  tr_bridges : list nat;
  tr_crashed : bool
}.

Definition set_tr_nextConnId (v : Z) (s : translator) : translator :=
  mkTranslator v (tr_nextExtranonce1 s) (tr_objs s) (tr_bridges s) (tr_crashed s).
Definition set_tr_nextExtranonce1 (v : Z) (s : translator) : translator :=
  mkTranslator (tr_nextConnId s) v (tr_objs s) (tr_bridges s) (tr_crashed s).
Definition set_tr_objs (v : list Bridge) (s : translator) : translator :=
  mkTranslator (tr_nextConnId s) (tr_nextExtranonce1 s) v (tr_bridges s) (tr_crashed s).
Definition set_tr_bridges (v : list nat) (s : translator) : translator :=
  mkTranslator (tr_nextConnId s) (tr_nextExtranonce1 s) (tr_objs s) v (tr_crashed s).
Definition set_tr_crashed (v : bool) (s : translator) : translator :=
  mkTranslator (tr_nextConnId s) (tr_nextExtranonce1 s) (tr_objs s) (tr_bridges s) v.

(** ** What the V1 side of the code does with JSON values *)

(** [v.length]. *)
Definition length_of (v : jval) : res jval :=
  match v with
  | JUndef | JNull => Throw "Cannot read properties of null or undefined"
  | JArr l => Ok (JNum (num_of_Z (zlen l)))
  | JStr s => Ok (JNum (num_of_Z (zlen s)))
  | JObj l => Ok (default JUndef (map_get (js "length") l))
  | JBool _ | JNum _ => Ok JUndef
  end.
(** [v ? ... : ...]. *)
Definition truthy (v : jval) : bool :=
  match v with
  | JUndef | JNull => false
  | JBool b => b
  | JNum x => negb (neq x n0) && negb (match x with S754_nan => true | _ => false end)
  | JStr s => negb (bool_decide (s = []))
  | JArr _ | JObj _ => true
  end.
(** [hexToBytes(v)]: only strings have [startsWith]. *)
Definition hexToBytes_of (v : jval) : res bytes :=
  match v with JStr s => hexToBytes s | _ => Throw "hex.startsWith is not a function" end.
(** [parseInt(v, 16)]. *)
Definition parseInt16_of (v : jval) : res jsnum := s ← String v; Ok (default S754_nan (parseInt16 s)).
(** [s || t] of strings. *)
Definition or_else (s t : jsstr) : jsstr := if bool_decide (s = []) then t else s.

(** The V1 job id: [n.toString(16).padStart(8, "0")]. *)
Definition v1_job_id (n : Z) : jsstr := padStart 8 48 (to_radix 16 n).

Section Bridge.
Context `{NoiseCrypto} `{Ed25519} (opts : TranslatorOptions).

(** A method of one of the two objects of the bridge. *)
Definition v1 {A} (m : eff StratumClient A) : eff Bridge A := fun b => let '(r, c) := m (br_v1 b) in (r, set_br_v1 c b).
Definition sv2 {A} (m : eff Upstream A) : eff Bridge A := fun b => let '(r, u) := m (br_sv2 b) in (r, set_br_sv2 u b).

(** ** The upstream connection *)

(** [this.socket!.write(b)]. *)
Definition socket_write (b : bytes) : eff Upstream unit :=
  u ← get;
  match up_socket u with
  | None => throw "Cannot read properties of null"
  | Some k => modify (fun u => set_up_sockets (alter (sock_write b) k (up_sockets u)) u)
  end.
(** [if (this.socket) this.socket.destroy()]. *)
Definition up_close : eff Upstream unit :=
  modify (fun u => match up_socket u with
                   | Some k => set_up_sockets (alter sock_destroy k (up_sockets u)) u
                   | None => u
                   end).

(** [connect]: the promise. *)
Definition connect : eff Upstream nat :=
  u ← get;
  let p := up_connects u in
  _ ← modify (set_up_connects (S p));
  _ ← modify (set_up_connecting (Some p));
  _ ← modify (set_up_sockets (up_sockets u ++ [new_sock]));
  _ ← modify (set_up_socket (Some (length (up_sockets u))));
  mret p.

Definition startHandshake (random : bytes) : eff Upstream unit :=
  x ← lift (new_NoiseNX initiator None);
  let '(m, x) := writeMessage1 random x in
  _ ← modify (set_up_nx (Some x));
  m1 ← lift m;
  out ← lift (ta_set (le_bytes 2 (zlen m1) ++ zeros (zlen m1)) m1 2);
  _ ← socket_write out;
  modify (set_up_state UP_HANDSHAKE_M2).

Definition up_write (plainFrame : bytes) : eff Upstream unit :=
  u ← get;
  match up_transport u, up_socket u with
  | Some t, Some _ =>
      let '(r, t) := encryptFrame plainFrame t in
      _ ← modify (set_up_transport (Some t));
      ct ← lift r;
      _ ← modify (fun u => set_up_sent (up_sent u ++ [plainFrame]) u);
      socket_write ct
  | _, _ => mret tt
  end.

Definition sendSetupConnection : eff Upstream unit :=
  u ← get;
  wire ← lift (encodeSetupConnection {|
    sc_protocol := SubProtocol_Mining; sc_minVersion := 2; sc_maxVersion := 2; sc_flags := 0;
    sc_endpointHost := to_upstreamHost opts; sc_endpointPort := to_upstreamPort opts; sc_vendor := js "b3chain-pool-translator";
    sc_hardwareVersion := js "1"; sc_firmware := js "node"; sc_deviceId := up_userIdentity u |});
  up_write wire.

(** The message; the options of the hash rate and of the extranonce are those of [accept]. *)
Definition open_message (userIdentity : jsstr) : OpenExtendedMiningChannel := {|
  oemc_requestId := 1; oemc_userIdentity := userIdentity; oemc_nominalHashRate := num_of_Z 10000000;
  oemc_maxTarget := replicate 32 0xff; oemc_minExtranonceSize := 4 |}.
Definition sendOpenExtendedChannel : eff Upstream unit :=
  u ← get;
  wire ← lift (encodeOpenExtendedMiningChannel (open_message (up_userIdentity u)));
  up_write wire.

Record share_args := { sh_nonce : jsnum; sh_ntime : jsnum; sh_version : jsnum; sh_extranonce : bytes; sh_jobId : Z }.

(** The message of a submission; the writer takes numbers to 32 bits. *)
Definition submit_message (channelId seq : Z) (args : share_args) : SubmitSharesExtended := {|
  ssx_channelId := channelId; ssx_sequenceNumber := seq; ssx_jobId := sh_jobId args; ssx_nonce := num_u32 (sh_nonce args);
  ssx_ntime := num_u32 (sh_ntime args); ssx_version := num_u32 (sh_version args); ssx_extranonce := sh_extranonce args |}.
(** The sequence number, and the exception when the promise is rejected at once. *)
Definition submitExtendedShare (args : share_args) : eff Upstream (Z * option string) :=
  u ← get;
  let seq := up_nextSeq u in
  _ ← modify (set_up_nextSeq (seq + 1));
  _ ← modify (fun u => set_up_pendingSubmits (map_set seq {| ps_sequenceNumber := seq |} (up_pendingSubmits u)) u);
  try_catch
    (wire ← lift (encodeSubmitSharesExtended (submit_message (up_channelId u) seq args));
     _ ← up_write wire;
     _ ← modify (fun u => set_up_timers (up_timers u ++ [seq]) u);
     mret (seq, None))
    (fun e => mret (seq, Some e)).

(** ** Promises *)
Definition add_task (t : tr_task) : eff Bridge unit := modify (fun b => set_br_tasks (br_tasks b ++ [t]) b).
Definition settle_connect (p : nat) (r : res unit) : eff Bridge unit :=
  modify (fun b => set_br_tasks ((fun t => match t with
    | TSubscribe id q None => if bool_decide (q = p) then TSubscribe id q (Some r) else t
    | _ => t
    end) <$> br_tasks b) b).
Definition settle_submit (seq : Z) (r : submit_result) : eff Bridge unit :=
  modify (fun b => set_br_tasks ((fun t => match t with
    | TSubmitted id q None => if bool_decide (q = seq) then TSubmitted id q (Some (Ok r)) else t
    | _ => t
    end) <$> br_tasks b) b).
(** [connectResolve] or [connectReject], when there is one. *)
Definition settle_connecting (r : res unit) : eff Bridge unit :=
  u ← sv2 get;
  match up_connecting u with
  | Some p => _ ← settle_connect p r; sv2 (modify (set_up_connecting None))
  | None => mret tt
  end.
(** [const p = this.pendingSubmits.get(seq); if (p) { p.resolve(r); this.pendingSubmits.delete(seq); }]. *)
Definition resolve_submit (seq : Z) (r : submit_result) : eff Bridge unit :=
  u ← sv2 get;
  match map_get seq (up_pendingSubmits u) with
  | Some p =>
      _ ← settle_submit (ps_sequenceNumber p) r;
      sv2 (modify (fun u => set_up_pendingSubmits (map_delete seq (up_pendingSubmits u)) u))
  | None => mret tt
  end.
(** The timer of a submission. *)
Definition submit_timeout (seq : Z) : eff Bridge unit :=
  u ← sv2 get;
  when (map_has seq (up_pendingSubmits u))
    (_ ← sv2 (modify (fun u => set_up_pendingSubmits (map_delete seq (up_pendingSubmits u)) u));
     settle_submit seq {| sr_ok := false; sr_reason := Some (js "upstream-timeout") |}).

(** [fail] of the upstream connection; the listener of its [error] event closes the V1 side. *)
Definition up_fail (e : string) : eff Bridge unit :=
  _ ← sv2 (modify (set_up_state UP_DEAD));
  _ ← settle_connecting (Throw e);
  _ ← sv2 up_close;
  v1 StratumClient.fail.

(** ** From the pool to the miner *)

(** [keys().next().value] is the oldest key. *)
Definition trim_ids (m : list (jsstr * Z)) : list (jsstr * Z) := if 64 <? zlen m then tail m else m.

Definition translated_notify (v1JobId : jsstr) (j : NewExtendedMiningJob) (ph : SetNewPrevHash) : list jval := [
  JStr v1JobId; JStr (bytesToHex (reverseBytes (snph_prevHash ph))); JStr (bytesToHex (nemj_coinbaseTxPrefix j));
  JStr (bytesToHex (nemj_coinbaseTxSuffix j)); JArr ((fun p => JStr (bytesToHex (reverseBytes p))) <$> nemj_merklePath j);
  hex0x (nemj_version j); hex0x (snph_nbits ph); hex0x (snph_minNtime ph); JBool true].

Definition onSv2Job (j : NewExtendedMiningJob) : eff Bridge unit :=
  _ ← modify (set_br_lastJob (Some j));
  b ← get;
  let v1JobId := v1_job_id (br_nextV1JobNum b) in
  _ ← modify (set_br_nextV1JobNum (br_nextV1JobNum b + 1));
  _ ← modify (fun b => set_br_jobIdMap (trim_ids (map_set v1JobId (nemj_jobId j) (br_jobIdMap b))) b);
  match br_lastPrevHash b with
  | None => mret tt
  | Some ph => v1 (sendNotify (js "mining.notify") (translated_notify v1JobId j ph))
  end.

Definition onSv2PrevHash (p : SetNewPrevHash) : eff Bridge unit :=
  _ ← modify (set_br_lastPrevHash (Some p));
  b ← get;
  match br_lastJob b with Some j => onSv2Job j | None => mret tt end.

Definition onSv2Target (t : SetTarget) : eff Bridge unit :=
  let tgt := bigIntFromBytesBE (st_maxTarget t) in
  if tgt =? 0 then mret tt
  else
    let diff := num_of_Z (POOL_DIFF1_TARGET / tgt) in
    when (nlt n0 diff) (v1 (pushDifficulty diff)).

(** ** Frames of the pool *)
Definition up_dispatch (f : Sv2Frame) : eff Bridge unit :=
  let t := msgType (header f) in
  let payload := payload f in
  _ ← sv2 (modify (fun u => set_up_received (up_received u ++ [f]) u));
  if t =? MSG_SETUP_CONNECTION_SUCCESS then
    _ ← lift (decodeSetupConnectionSuccess payload);
    _ ← sv2 sendOpenExtendedChannel;
    sv2 (modify (set_up_state UP_CHANNEL_PENDING))
  else if t =? MSG_SETUP_CONNECTION_ERROR then
    _ ← lift (decodeSetupConnectionError payload);
    up_fail "upstream SetupConnection.Error"
  else if t =? MSG_OPEN_EXT_CHANNEL_SUCCESS then
    m ← lift (decodeOpenExtendedMiningChannelSuccess payload);
    _ ← sv2 (modify (set_up_channelId (oemcs_channelId m)));
    _ ← sv2 (modify (set_up_extranoncePrefix (oemcs_extranoncePrefix m)));
    _ ← sv2 (modify (set_up_extranonceSize (oemcs_extranonceSize m)));
    _ ← sv2 (modify (set_up_state UP_READY));
    settle_connecting (Ok tt)
  else if t =? MSG_OPEN_EXT_CHANNEL_ERROR then up_fail "upstream OpenExtendedMiningChannel.Error"
  else if t =? MSG_NEW_EXT_MINING_JOB then j ← lift (decodeNewExtendedMiningJob payload); onSv2Job j
  else if t =? MSG_SET_NEW_PREV_HASH then p ← lift (decodeSetNewPrevHash payload); onSv2PrevHash p
  else if t =? MSG_SET_TARGET then t ← lift (decodeSetTarget payload); onSv2Target t
  else if t =? MSG_SUBMIT_SHARES_SUCCESS then
    s ← lift (decodeSubmitSharesSuccess payload);
    resolve_submit (ssok_lastSequenceNumber s) {| sr_ok := true; sr_reason := None |}
  else if t =? MSG_SUBMIT_SHARES_ERROR then
    if 8 <=? zlen payload then resolve_submit (readU32LE payload 4) {| sr_ok := false; sr_reason := Some (js "rejected") |}
    else mret tt
  else mret tt.

Definition up_handlePlainBytes (plain : bytes) : eff Bridge unit :=
  u ← sv2 get;
  p ← lift (appendBytes (up_plain u) plain);
  _ ← sv2 (modify (set_up_plain p));
  r ← lift (splitFrames p);
  _ ← sv2 (modify (set_up_plain (drop (Z.to_nat (snd r)) p)));
  for_each up_dispatch (fst r).

Definition processCipher (chunk : bytes) : eff Bridge unit :=
  u ← sv2 get;
  match up_transport u with
  | None => mret tt
  | Some t =>
      ct ← lift (appendBytes (up_ct u) chunk);
      _ ← sv2 (modify (set_up_ct ct));
      let '(r, t) := decryptFrames ct t in
      _ ← sv2 (modify (set_up_transport (Some t)));
      r ← lift r;
      _ ← sv2 (modify (set_up_ct (drop (Z.to_nat (snd r)) ct)));
      for_each up_handlePlainBytes (fst r)
  end.

(** The [try] block: the handshake is finished, and the certificate is checked if there is
    one.  [now] is in seconds. *)
Definition finish_handshake (m2 : bytes) (now : Z) : eff Upstream unit :=
  u ← get;
  match up_nx u with
  | None => throw "Cannot read properties of null"
  | Some x =>
      let '(r, x) := readMessage2 m2 x in
      _ ← modify (set_up_nx (Some x));
      fin ← lift r;
      _ ← modify (set_up_transport (Some {| t_send := sendCipher fin; t_recv := recvCipher fin |}));
      match responderPayload fin with
      | Some (x :: payload) =>
          cert ← lift (decodeCertificate (x :: payload));
          v ← lift (verifyCertificate cert (to_authorityPub opts) now);
          _ ← lift (throw_if (negb (cert_ok v)) "pool cert rejected");
          lift (throw_if (negb (bool_decide (Some (cert_publicKey cert) = remoteStaticPub fin))) "pool cert publicKey != noise static")
      | _ => mret tt
      end
  end.

Definition up_onData (chunk : bytes) (now : Z) : eff Bridge unit :=
  u ← sv2 get;
  if bool_decide (up_state u = UP_DEAD) then mret tt
  else if bool_decide (up_state u = UP_HANDSHAKE_M2) then
    buf ← lift (appendBytes (up_hsBuf u) chunk);
    _ ← sv2 (modify (set_up_hsBuf buf));
    if zlen buf <? 2 then mret tt else
    let len := readU16LE buf 0 in
    if zlen buf <? 2 + len then mret tt else
    let m2 := slice 2 (2 + len) buf in
    let trailing := drop (Z.to_nat (2 + len)) buf in
    _ ← sv2 (modify (set_up_hsBuf []));
    ok ← try_catch (_ ← sv2 (finish_handshake m2 now); mret true) (fun e => _ ← up_fail e; mret false);
    if negb ok then mret tt else
    _ ← sv2 sendSetupConnection;
    _ ← sv2 (modify (set_up_state UP_SETUP_PENDING));
    if zlen trailing =? 0 then mret tt else processCipher trailing
  else processCipher chunk.

(** ** From the miner to the pool *)
Definition v1_anon : jsstr := js "v1-anon".

Definition v1_subscribe (m : jval) : eff Bridge unit :=
  params ← lift (prop_of m (js "params"));
  len ← lift (length_of params);
  n ← lift (Number len);
  _ ← (if nlt n0 n then
         p ← lift (index_of params 0);
         match p with JStr s => v1 (modify (set_userAgent s)) | _ => mret tt end
       else mret tt);
  c ← v1 get;
  _ ← sv2 (modify (set_up_userIdentity (or_else (username c) v1_anon)));
  p ← sv2 connect;
  id ← lift (prop_of m (js "id"));
  add_task (TSubscribe id p None).
Definition after_connect (id : jval) : eff Bridge unit :=
  b ← get;
  let name (s : string) := JStr (js "subscribe-" ++ to_radix 10 (connId (br_v1 b)) ++ js s) in
  _ ← v1 (sendResult id (JArr [
        JArr [JArr [JStr (js "mining.set_difficulty"); name ".diff"]; JArr [JStr (js "mining.notify"); name ".notify"]];
        JStr (bytesToHex (up_extranoncePrefix (br_sv2 b))); JNum (num_of_Z (up_extranonceSize (br_sv2 b)))]));
  v1 (modify (set_cstate St_subscribed)).

Definition v1_authorize (m : jval) : eff Bridge unit :=
  params ← lift (prop_of m (js "params"));
  p ← lift (index_of params 0);
  name ← lift (String (coalesce p (JStr [])));
  _ ← v1 (modify (set_username name));
  _ ← sv2 (modify (set_up_userIdentity (or_else name v1_anon)));
  id ← lift (prop_of m (js "id"));
  _ ← v1 (sendResult id (JBool true));
  _ ← v1 (modify (set_cstate St_authorized));
  c ← v1 get;
  v1 (pushDifficulty (currentDiff (vardiff c))).

(** The submission that the parameters name. *)
Definition v1_share (args : list jval) (lastJob : NewExtendedMiningJob) (sv2JobId : Z) : res share_args :=
  let arg (k : nat) := default JUndef (args !! k) in
  en2 ← hexToBytes_of (arg 2%nat);
  ntime ← parseInt16_of (arg 3%nat);
  nonce ← parseInt16_of (arg 4%nat);
  version ← (if truthy (arg 5%nat) then parseInt16_of (arg 5%nat) else Ok (num_of_Z (nemj_version lastJob)));
  Ok {| sh_nonce := nonce; sh_ntime := ntime; sh_version := version; sh_extranonce := en2; sh_jobId := sv2JobId |}.
Definition v1_submit (m : jval) : eff Bridge unit :=
  id ← lift (prop_of m (js "id"));
  b ← get;
  if negb (bool_decide (cstate (br_v1 b) = St_authorized)) then v1 (sendError id 24 (js "unauthorized worker"))
  else match br_lastJob b, br_lastPrevHash b with
  | Some lastJob, Some _ =>
      params ← lift (prop_of m (js "params"));
      args ← lift (iterate params);
      let sv2JobId := match args !! 1%nat with Some (JStr s) => default 0 (map_get s (br_jobIdMap b)) | _ => 0 end in
      if sv2JobId =? 0 then v1 (sendError id 21 (js "stale"))
      else
        share ← lift (v1_share args lastJob sv2JobId);
        r ← sv2 (submitExtendedShare share);
        add_task (TSubmitted id (fst r) (match snd r with Some e => Some (Throw e) | None => None end))
  | _, _ => v1 (sendError id 21 (js "no-job"))
  end.
Definition after_submit (id : jval) (r : submit_result) : eff Bridge unit :=
  if sr_ok r then
    _ ← v1 (modify (fun c => set_sharesAccepted (sharesAccepted c + 1) c));
    v1 (sendResult id (JBool true))
  else
    _ ← v1 (modify (fun c => set_sharesRejected (sharesRejected c + 1) c));
    v1 (sendError id 23 (default (js "rejected") (sr_reason r))).

Definition v1_dispatch (m method : jval) : eff Bridge unit :=
  let called (s : string) := match method with JStr t => bool_decide (t = js s) | _ => false end in
  if called "mining.subscribe" then v1_subscribe m
  else if called "mining.authorize" then v1_authorize m
  else if called "mining.submit" then v1_submit m
  else if called "mining.suggest_difficulty" then id ← lift (prop_of m (js "id")); v1 (sendResult id (JBool true))
  else id ← lift (prop_of m (js "id")); v1 (sendError id 20 (js "method not supported by translator")).

(** [onV1] up to its first [await]; the [catch] clause reads [m.method] again. *)
Definition onV1 (m : jval) : eff Bridge unit :=
  try_catch
    (method ← lift (prop_of m (js "method")); v1_dispatch m method)
    (fun _ => _ ← lift (prop_of m (js "method")); id ← lift (prop_of m (js "id")); v1 (sendError id 20 (js "internal-error"))).
(** The listener of [rpc]: nobody waits for the promise. *)
Definition on_rpc (m : jval) : eff Bridge unit :=
  _ ← modify (fun b => set_br_requests (br_requests b ++ [m]) b);
  try_catch (onV1 m) (fun _ => modify (set_br_rejected true)).

(** [StratumClient.onData]. *)
Fixpoint v1_data_loop (fuel : nat) : eff Bridge unit :=
  match fuel with
  | O => mret tt
  | S fuel =>
      c ← v1 get;
      let idx := indexOf 10 (buf c) in
      if idx <? 0 then mret tt
      else
        let line := trim (take (Z.to_nat idx) (buf c)) in
        _ ← v1 (modify (set_buf (drop (Z.to_nat (idx + 1)) (buf c))));
        _ ← (if bool_decide (line = []) then mret tt
             else match JSON_parse line with Ok m => on_rpc m | Throw _ => mret tt end);
        v1_data_loop fuel
  end.
Definition v1_onData (chunk : jsstr) : eff Bridge unit :=
  _ ← v1 (modify (fun c => set_buf (buf c ++ chunk) c));
  c ← v1 get;
  if 1024 * 16 <? zlen (buf c) then v1 StratumClient.fail else v1_data_loop (S (length (buf c))).

(** A settled promise: the handler goes on. *)
Definition tr_resume (k : nat) : eff Bridge unit :=
  b ← get;
  match br_tasks b !! k with
  | Some (TSubscribe id _ (Some r)) =>
      _ ← modify (fun b => set_br_tasks (delete k (br_tasks b)) b);
      match r with Ok _ => after_connect id | Throw _ => v1 (sendError id 20 (js "internal-error")) end
  | Some (TSubmitted id _ (Some r)) =>
      _ ← modify (fun b => set_br_tasks (delete k (br_tasks b)) b);
      match r with Ok r => after_submit id r | Throw _ => v1 (sendError id 20 (js "internal-error")) end
  | _ => mret tt
  end.

(** ** A bridge *)
Inductive bridge_event :=
| BrV1Data (chunk : jsstr)
| BrV1Close
| BrUpConnected (k : nat) (random : bytes)
| BrUpData (k : nat) (chunk : bytes) (now : Z)
| BrUpError (k : nat) (e : string)
| BrUpClose (k : nat)
| BrTimeout (seq : Z)
| BrResume (k : nat).

Definition on_sock (k : nat) (f : sock -> sock) : eff Bridge unit :=
  sv2 (modify (fun u => set_up_sockets (alter f k (up_sockets u)) u)).
Definition sock_is (k : nat) (p : sock -> bool) (b : Bridge) : bool :=
  match up_sockets (br_sv2 b) !! k with Some x => p x | None => false end.

(** What an event does, if it can happen. *)
Definition bridge_step (e : bridge_event) : eff Bridge unit :=
  b ← get;
  match e with
  | BrV1Data chunk => when (negb (destroyed (br_v1 b))) (v1_onData chunk)
  | BrV1Close => _ ← v1 (modify (set_destroyed true)); sv2 up_close
  | BrUpConnected k random =>
      when (sock_is k (fun x => negb (sk_connected x) && negb (sk_destroyed x)) b)
        (_ ← on_sock k sock_connected; sv2 (startHandshake random))
  | BrUpData k chunk now => when (sock_is k (fun x => sk_connected x && negb (sk_destroyed x)) b) (up_onData chunk now)
  | BrUpError k e => when (sock_is k (fun x => negb (sk_destroyed x)) b) (_ ← on_sock k sock_destroy; up_fail e)
  | BrUpClose k =>
      when (sock_is k (fun x => negb (sk_closed x)) b)
        (_ ← on_sock k sock_closed; _ ← sv2 (modify (set_up_state UP_DEAD)); v1 StratumClient.fail)
  | BrTimeout seq =>
      when (bool_decide (seq ∈ up_timers (br_sv2 b)))
        (_ ← sv2 (modify (fun u => set_up_timers (set_delete seq (up_timers u)) u)); submit_timeout seq)
  | BrResume k => tr_resume k
  end.

Definition bridge_run (es : list bridge_event) (b : Bridge) : Bridge := foldl (fun b e => (bridge_step e b).2) b es.
End Bridge.

Definition new_Upstream : Upstream :=
  mkUpstream (js "translator-anon") None [] None [] UP_INIT None [] [] 1 0 [] 4 None 0 [] [] [] [].
Definition new_Bridge (c : StratumClient) : Bridge := mkBridge c new_Upstream None None [] 1 [] false [].

(** ** The process *)
Section Translator.
Context `{NoiseCrypto} `{Ed25519} (opts : TranslatorOptions) (cfg : StratumConfig).

Definition tr_accept (remoteAddress : jsstr) (now : Z) (s : translator) : translator :=
  let '(n, en1) := allocExtranonce1Hex (tr_nextExtranonce1 s) in
  let b := new_Bridge (new_StratumClient cfg (tr_nextConnId s) en1 remoteAddress now) in
  set_tr_nextConnId (tr_nextConnId s + 1) (set_tr_nextExtranonce1 n
    (set_tr_bridges (tr_bridges s ++ [length (tr_objs s)]) (set_tr_objs (tr_objs s ++ [b]) s))).

Inductive tr_event :=
| TrConnect (remoteAddress : jsstr) (now : Z)
| TrBridge (i : nat) (e : bridge_event).

(** The V1 side of a bridge closes once; what remains of the bridge goes on. *)
Definition tr_closes (i : nat) (e : bridge_event) (s : translator) : translator :=
  match e with BrV1Close => set_tr_bridges (set_delete i (tr_bridges s)) s | _ => s end.
Definition tr_enabled (i : nat) (e : bridge_event) (s : translator) : bool :=
  match e with BrV1Close => bool_decide (i ∈ tr_bridges s) | _ => true end.

Definition tr_step (e : tr_event) (s : translator) : translator :=
  if tr_crashed s then s
  else match e with
  | TrConnect remoteAddress now => tr_accept remoteAddress now s
  | TrBridge i e =>
      match tr_objs s !! i with
      | Some b =>
          if tr_enabled i e s then
            let '(r, b) := bridge_step opts e b in
            let s := tr_closes i e (set_tr_objs (<[i := b]> (tr_objs s)) s) in
            if br_rejected b || match r with Throw _ => true | Ok _ => false end then set_tr_crashed true s else s
          else s
      | None => s
      end
  end.
Definition tr_run (es : list tr_event) (s : translator) : translator := foldl (fun s e => tr_step e s) s es.
Definition init_translator : translator := mkTranslator 1 0 [] [] false.

(** [close]. *)
Definition tr_close (s : translator) : translator :=
  foldl (fun s i => set_tr_objs (alter (fun b =>
    set_br_v1 (set_destroyed true (br_v1 b)) (set_br_sv2 (up_close (br_sv2 b)).2 b)) i (tr_objs s)) s) s (tr_bridges s).
End Translator.
