(* ===== verification/TranslatorProofs.v ===== *)
(** * The translator: what holds in every run of a bridge

    One invariant of a bridge, kept by every event on either of its sides: the table of
    job ids is bounded, frames are only written to a socket that exists, the accepted
    shares of a miner are answered submissions of that miner, and as long as the miner has
    not authorized, channels are opened for nobody in particular. *)

From S2P Require Import Prelude JsString JsMap JsNumber JsRound JsFormat Effects Json Header Difficulty Vardiff JobManager.
From S2P Require Import ShareValidator Sv2Types Sv2Messages Noise Sv2Keys Sv2Channel Sv2Server StratumClient Translator.
Import Common Mining.

(** ** The submissions of a miner *)

(** The frame [w] submits the share of the request [m], whose id is [id], under the
    sequence number [q]. *)
Definition carries (m id : jval) (q : Z) (w : bytes) : Prop :=
  exists params args lastJob jid share ch, prop_of m (js "id") = Ok id /\ prop_of m (js "params") = Ok params /\ iterate params = Ok args /\
    v1_share args lastJob jid = Ok share /\ encodeSubmitSharesExtended (submit_message ch q share) = Ok w.
Definition submitted (q : Z) (id : jval) (b : Bridge) : Prop :=
  exists m w, m ∈ br_requests b /\ w ∈ up_sent (br_sv2 b) /\ carries m id q w.
(** The pool has accepted the submission [q]. *)
Definition acked (q : Z) (b : Bridge) : Prop :=
  exists f s, f ∈ up_received (br_sv2 b) /\ msgType (header f) = MSG_SUBMIT_SHARES_SUCCESS /\
    decodeSubmitSharesSuccess (payload f) = Ok s /\ ssok_lastSequenceNumber s = q.

Definition task_seq (t : tr_task) : option Z := match t with TSubmitted _ q _ => Some q | TSubscribe _ _ _ => None end.
Definition tr_task_ok (b : Bridge) (t : tr_task) : Prop :=
  match t with
  | TSubmitted id q None => submitted q id b
  | TSubmitted id q (Some (Ok r)) => sr_ok r = true -> submitted q id b /\ acked q b
  | _ => True
  end.

(** ** Channels opened for nobody *)
Definition is_call (method : string) (m : jval) : Prop := prop_of m (js "method") = Ok (JStr (js method)).
(** A frame that opens a channel has the type of the message as its third byte. *)
Definition opens_anonymous (w : bytes) : Prop :=
  w !! 2%nat = Some MSG_OPEN_EXT_CHANNEL -> encodeOpenExtendedMiningChannel (open_message v1_anon) = Ok w.
Definition anonymous (b : Bridge) : Prop :=
  username (br_v1 b) = [] /\ (is_Some (up_socket (br_sv2 b)) -> up_userIdentity (br_sv2 b) = v1_anon) /\ Forall opens_anonymous (up_sent (br_sv2 b)).

(** ** The frames of the translator *)

(** A well-formed frame of one of the three messages that the translator sends. *)
Definition typed_frame (w : bytes) : Prop :=
  exists f, frame_ok f /\ w = frame_bytes f /\ extensionType (header f) = 0 /\
    (msgType (header f), channelMsg (header f)) ∈ [(MSG_SETUP_CONNECTION, false); (MSG_OPEN_EXT_CHANNEL, false); (MSG_SUBMIT_SHARES_EXTENDED, true)].

(** ** The invariant *)
Record bridge_ok (b : Bridge) : Prop := {
  ok_frames : Forall typed_frame (up_sent (br_sv2 b));
  ok_ids : zlen (br_jobIdMap b) <= 64;
  ok_socket : (0 < length (up_sockets (br_sv2 b)))%nat -> is_Some (up_socket (br_sv2 b));
  ok_nx : is_Some (up_nx (br_sv2 b)) -> (0 < length (up_sockets (br_sv2 b)))%nat;
  ok_transport : is_Some (up_transport (br_sv2 b)) -> (0 < length (up_sockets (br_sv2 b)))%nat;
  ok_job : is_Some (br_lastJob b) -> is_Some (up_transport (br_sv2 b));
  ok_anonymous : Forall (fun m => ~ is_call "mining.authorize" m) (br_requests b) -> anonymous b;
  ok_seqs : Forall (fun x => x.1 = ps_sequenceNumber x.2) (up_pendingSubmits (br_sv2 b));
  ok_tr_tasks : Forall (tr_task_ok b) (br_tasks b);
  ok_accepted : exists answered, zlen answered = sharesAccepted (br_v1 b) /\ Forall (fun x => submitted x.1 x.2 b /\ acked x.1 b) answered /\
    NoDup (answered.*1 ++ omap task_seq (br_tasks b)) /\ Forall (fun q => q < up_nextSeq (br_sv2 b)) (answered.*1 ++ omap task_seq (br_tasks b))
}.

(** What the invariant is about. *)
Definition view (b : Bridge) :=
  (br_jobIdMap b, br_lastJob b, br_tasks b, br_requests b, (username (br_v1 b), sharesAccepted (br_v1 b)),
   (up_userIdentity (br_sv2 b), length (up_sockets (br_sv2 b)), up_socket (br_sv2 b), bool_decide (is_Some (up_nx (br_sv2 b))),
    bool_decide (is_Some (up_transport (br_sv2 b)))),
   (up_sent (br_sv2 b), up_received (br_sv2 b), up_nextSeq (br_sv2 b), up_pendingSubmits (br_sv2 b))).

Lemma bool_decide_iff_eq (P Q : Prop) `{Decision P} `{Decision Q} : bool_decide P = bool_decide Q -> P <-> Q.
Proof. intros E. destruct (decide P) as [HP|HP].
  - split; [|done]. intros _. rewrite bool_decide_true in E by done. symmetry in E. by apply bool_decide_eq_true in E.
  - split; [done|]. rewrite bool_decide_false in E by done. symmetry in E. by apply bool_decide_eq_false in E.
Qed.

Lemma ok_view b b' : view b' = view b -> bridge_ok b -> bridge_ok b'.
Proof.
  unfold view. intros E. injection E as E1 E2 E3 E4 E5 E6 E7 E8 E9 E10 E11 E12 E13 E14 E15. intros [K0 K1 K2 K3 K4 K5 K6 K7 K8 K9].
  apply bool_decide_iff_eq in E10, E11. unfold anonymous, submitted, acked in *.
  split; rewrite ?E1, ?E2, ?E3, ?E4, ?E5, ?E6, ?E7, ?E8, ?E9, ?E10, ?E11, ?E12, ?E14, ?E15; try done.
  - unfold anonymous. by rewrite E5, E7, E9, E12.
  - eapply Forall_impl; [exact K8|]. unfold tr_task_ok, submitted, acked. intros [|? ? [[]|]]; by rewrite ?E4, ?E12, ?E13.
  - unfold submitted, acked. by rewrite E4, E12, E13.
Qed.

Definition kept (b b' : Bridge) : Prop :=
  bridge_ok b -> bridge_ok b' /\ (is_Some (up_transport (br_sv2 b)) -> is_Some (up_transport (br_sv2 b'))).
#[local] Instance kept_refl : Reflexive kept.
Proof. by intros b. Qed.
#[local] Instance kept_trans : Transitive kept.
Proof. intros a b c Hab Hbc Ha. destruct (Hab Ha) as [Hb ?]. destruct (Hbc Hb). split; auto. Qed.
(** While frames arrive there is a transport. *)
Definition kept_up (b b' : Bridge) : Prop :=
  bridge_ok b -> is_Some (up_transport (br_sv2 b)) -> bridge_ok b' /\ is_Some (up_transport (br_sv2 b')).
#[local] Instance kept_up_refl : Reflexive kept_up.
Proof. by intros b Hb. Qed.
#[local] Instance kept_up_trans : Transitive kept_up.
Proof. intros a b c Hab Hbc Ha Ht. destruct (Hab Ha Ht). auto. Qed.

(** Operations that leave the view alone. *)
Definition same_view (b b' : Bridge) : Prop := view b' = view b.
#[local] Instance same_refl : Reflexive same_view.
Proof. by intros b. Qed.
#[local] Instance same_trans : Transitive same_view.
Proof. intros a b c Hab Hbc. unfold same_view in *. congruence. Qed.

Lemma view_kept b b' : view b' = view b -> kept b b'.
Proof.
  intros E Hb. split; [exact (ok_view _ _ E Hb)|]. unfold view in E.
  injection E as _ _ _ _ _ _ _ _ _ _ E _ _ _ _. apply bool_decide_iff_eq in E. by rewrite E.
Qed.
Lemma same_kept {A} (m : eff Bridge A) : keeps same_view m -> keeps kept m.
Proof. intros Hm b. exact (view_kept _ _ (Hm b)). Qed.
Lemma kept_kept_up {A} (m : eff Bridge A) : keeps kept m -> keeps kept_up m.
Proof. intros Hm b Hb Ht. destruct (Hm b Hb). auto. Qed.

(** The parts of the two sides that are in the view. *)
Definition v1_view (c : StratumClient) := (username c, sharesAccepted c).
Definition up_view (u : Upstream) :=
  (up_userIdentity u, length (up_sockets u), up_socket u, bool_decide (is_Some (up_nx u)), bool_decide (is_Some (up_transport u)),
   (up_sent u, up_received u, up_nextSeq u, up_pendingSubmits u)).
Lemma v1_same {A} (m : eff StratumClient A) : keeps (fun c c' => v1_view c' = v1_view c) m -> keeps same_view (v1 m).
Proof.
  intros Hm b. specialize (Hm (br_v1 b)). unfold v1, same_view. destruct (m (br_v1 b)) as [r c]. cbn in *. unfold view, v1_view in *. cbn.
  injection Hm as E1 E2. by rewrite E1, E2.
Qed.
Lemma sv2_same {A} (m : eff Upstream A) : keeps (fun u u' => up_view u' = up_view u) m -> keeps same_view (sv2 m).
Proof.
  intros Hm b. specialize (Hm (br_sv2 b)). unfold sv2, same_view. destruct (m (br_sv2 b)) as [r u]. cbn in *. unfold view, up_view in *. cbn.
  injection Hm as E1 E2 E3 E4 E5 E6 E7 E8 E9. by rewrite E1, E2, E3, E4, E5, E6, E7, E8, E9.
Qed.
Lemma v1_modify_same f : (forall c, v1_view (f c) = v1_view c) -> keeps same_view (v1 (modify f)).
Proof. intros Hf. by apply v1_same. Qed.
Lemma sv2_modify_same f : (forall u, up_view (f u) = up_view u) -> keeps same_view (sv2 (modify f)).
Proof. intros Hf. by apply sv2_same. Qed.
Lemma sv2_get_same : keeps same_view (sv2 get).
Proof. intros b. done. Qed.
Lemma v1_get_same : keeps same_view (v1 get).
Proof. intros b. done. Qed.
Lemma write_same m : keeps same_view (v1 (StratumClient.write m)).
Proof. apply v1_modify_same. intros c. by destruct (destroyed c). Qed.
Lemma sendResult_same id r : keeps same_view (v1 (sendResult id r)).
Proof. apply write_same. Qed.
Lemma sendError_same id c e : keeps same_view (v1 (sendError id c e)).
Proof. apply write_same. Qed.
Lemma fail_same : keeps same_view (v1 StratumClient.fail).
Proof. by apply v1_modify_same. Qed.
Lemma pushDifficulty_same d : keeps same_view (v1 (pushDifficulty d)).
Proof. intros b. unfold v1, pushDifficulty, sendNotify, StratumClient.write. eff_simpl. cbn. by destruct (destroyed _). Qed.
Lemma modify_same f : (forall b, view (f b) = view b) -> keeps same_view (modify f).
Proof. intros Hf b. apply Hf. Qed.

(** Sockets keep their number. *)
Lemma close_same : keeps same_view (sv2 up_close).
Proof. apply sv2_modify_same. intros u. destruct (up_socket u) as [k|] eqn:E; [|done]. unfold up_view. cbn. by rewrite length_alter, E. Qed.
Lemma on_sock_same k f : keeps same_view (on_sock k f).
Proof. apply sv2_modify_same. intros u. unfold up_view. cbn. by rewrite length_alter. Qed.
Create HintDb bridge.
#[local] Hint Resolve sv2_get_same v1_get_same write_same sendResult_same sendError_same fail_same pushDifficulty_same close_same on_sock_same : bridge.

(** One operation of a handler that is not about the view or has a lemma, and a sequence of
    such operations. *)
Ltac keep_leaf := first
  [ apply keeps_ret; typeclasses eauto | apply keeps_lift; typeclasses eauto | apply keeps_get; typeclasses eauto
  | solve [try apply kept_kept_up; apply same_kept; first [solve [auto with bridge nocore] | by apply sv2_modify_same | by apply v1_modify_same | by apply modify_same]]
  | solve [auto with bridge nocore] | solve [apply kept_kept_up; auto with bridge nocore] ].
Ltac keep_binds := repeat first [keep_leaf | apply keeps_bind; [typeclasses eauto|keep_leaf|intros ?]].

(** ** More requests and frames *)
Definition more (b b' : Bridge) : Prop :=
  (forall m, m ∈ br_requests b -> m ∈ br_requests b') /\ (forall w, w ∈ up_sent (br_sv2 b) -> w ∈ up_sent (br_sv2 b')) /\
  (forall f, f ∈ up_received (br_sv2 b) -> f ∈ up_received (br_sv2 b')).
Lemma submitted_more b b' q id : more b b' -> submitted q id b -> submitted q id b'.
Proof. intros (H1 & H2 & _) (m & w & Hm & Hw & Hc). exists m, w. auto. Qed.
Lemma acked_more b b' q : more b b' -> acked q b -> acked q b'.
Proof. intros (_ & _ & H3) (f & s & Hf & Hc). exists f, s. auto. Qed.
Lemma task_more b b' t : more b b' -> tr_task_ok b t -> tr_task_ok b' t.
Proof.
  intros Hm. destruct t as [|id q [[r|]|]]; cbn; [done| |done|by apply submitted_more].
  intros Ht Hr. destruct (Ht Hr). split; [by eapply submitted_more|by eapply acked_more].
Qed.
(** The part of the invariant that is about submissions, when there is more of them. *)
Lemma accepted_more b b' : more b b' -> br_tasks b' = br_tasks b -> sharesAccepted (br_v1 b') = sharesAccepted (br_v1 b) ->
  up_nextSeq (br_sv2 b) <= up_nextSeq (br_sv2 b') -> bridge_ok b ->
  Forall (tr_task_ok b') (br_tasks b') /\
  exists answered, zlen answered = sharesAccepted (br_v1 b') /\ Forall (fun x => submitted x.1 x.2 b' /\ acked x.1 b') answered /\
    NoDup (answered.*1 ++ omap task_seq (br_tasks b')) /\ Forall (fun q => q < up_nextSeq (br_sv2 b')) (answered.*1 ++ omap task_seq (br_tasks b')).
Proof.
  intros Hm -> -> Hn [_ _ _ _ _ _ _ _ K8 (l & L1 & L2 & L3 & L4)]. split; [eapply Forall_impl; [exact K8|]; intros t; by apply task_more|].
  exists l. split; [done|]. split; [|split; [done|]].
  - eapply Forall_impl; [exact L2|]. intros x [H1 H2]. split; [by eapply submitted_more|by eapply acked_more].
  - eapply Forall_impl; [exact L4|]. cbn. lia.
Qed.

(** A frame is written. *)
Lemma sent_ok b w : bridge_ok b -> typed_frame w -> (Forall (fun m => ~ is_call "mining.authorize" m) (br_requests b) -> opens_anonymous w) ->
  bridge_ok (set_br_sv2 (set_up_sent (up_sent (br_sv2 b) ++ [w]) (br_sv2 b)) b).
Proof.
  intros Hb Htw Hw. destruct (accepted_more b (set_br_sv2 (set_up_sent (up_sent (br_sv2 b) ++ [w]) (br_sv2 b)) b)) as [A1 A2]; [|done..|].
  { split; [done|]. split; [|done]. intros x Hx. cbn. apply elem_of_app. by left. }
  destruct Hb as [K0 K1 K2 K3 K4 K5 K6 K7 K8 K9]. split; try assumption; [cbn; apply Forall_app; split; [exact K0|]; by constructor|].
  intros Hr. destruct (K6 Hr) as (N1 & N2 & N3). split; [exact N1|]. split; [exact N2|].
  cbn. apply Forall_app. split; [exact N3|]. constructor; [exact (Hw Hr)|constructor].
Qed.
Lemma received_ok f : keeps kept (sv2 (modify (fun u => set_up_received (up_received u ++ [f]) u))).
Proof.
  intros b Hb. split; [|done]. unfold sv2, modify. cbn [snd]. set (b' := set_br_sv2 _ b).
  destruct (accepted_more b b') as [A1 A2]; [|done..|].
  { split; [done|]. split; [auto|]. intros x Hx. cbn. apply elem_of_app. by left. }
  destruct Hb as [K0 K1 K2 K3 K4 K5 K6 K7 K8 K9]. split; assumption.
Qed.
Lemma request_ok m b : bridge_ok b -> bridge_ok (set_br_requests (br_requests b ++ [m]) b).
Proof.
  intros Hb. destruct (accepted_more b (set_br_requests (br_requests b ++ [m]) b)) as [A1 A2]; [|done..|].
  { split; [|done]. intros x Hx. cbn. apply elem_of_app. by left. }
  destruct Hb as [K0 K1 K2 K3 K4 K5 K6 K7 K8 K9]. split; try assumption. intros Hr. cbn in Hr. apply Forall_app in Hr as [Hr _]. exact (K6 Hr).
Qed.

Section Sending.
Context `{NoiseCrypto} `{Ed25519} (opts : TranslatorOptions).

Lemma socket_write_view w u : up_view (socket_write w u).2 = up_view u.
Proof. unfold socket_write. eff_simpl. destruct (up_socket u) as [k|] eqn:E; [|done]. unfold up_view. cbn. by rewrite length_alter, E. Qed.
(** [up_write] writes the frame, or nothing; it returns only if it wrote or could not. *)
Lemma up_write_view w u : let '(r, u') := up_write w u in
  (up_view u' = up_view u /\ (r = Ok tt -> ~ (is_Some (up_transport u) /\ is_Some (up_socket u)))) \/
  (up_view u' = up_view (set_up_sent (up_sent u ++ [w]) u) /\ is_Some (up_transport u) /\ is_Some (up_socket u)).
Proof.
  unfold up_write. eff_simpl. destruct (up_transport u) as [t|] eqn:Et; [|by left; split; [|intros _ [[? ?] _]]].
  destruct (up_socket u) as [k|] eqn:Es; [|by left; split; [|intros _ [_ [? ?]]]].
  destruct (encryptFrame w t) as [[ct|e] t']; unfold socket_write; cbn; rewrite ?Es.
  2: { left. split; [|done]. unfold up_view. cbn. by rewrite Et, Es. }
  eff_simpl. cbn [up_socket set_up_sent set_up_transport]. rewrite Es. right. split; [|eauto]. unfold up_view. cbn. by rewrite length_alter, Et, Es.
Qed.

Lemma set_view_same b u : up_view u = up_view (br_sv2 b) -> view (set_br_sv2 u b) = view b.
Proof. unfold up_view, view. intros E. injection E as E1 E2 E3 E4 E5 E6 E7 E8 E9. cbn. by rewrite E1, E2, E3, E4, E5, E6, E7, E8, E9. Qed.

Lemma up_write_ok w b : typed_frame w -> (bridge_ok b -> Forall (fun m => ~ is_call "mining.authorize" m) (br_requests b) -> is_Some (up_socket (br_sv2 b)) -> opens_anonymous w) ->
  kept b (sv2 (up_write w) b).2.
Proof.
  intros Htw Hw. unfold sv2. pose proof (up_write_view w (br_sv2 b)) as Hv. destruct (up_write w (br_sv2 b)) as [r u]. cbn [snd].
  destruct Hv as [[Hv _]|(Hv & Ht & Hs)]; [exact (view_kept _ _ (set_view_same _ _ Hv))|].
  transitivity (set_br_sv2 (set_up_sent (up_sent (br_sv2 b) ++ [w]) (br_sv2 b)) b); [|exact (view_kept _ _ (set_view_same (set_br_sv2 _ b) u Hv))].
  intros Hb. split; [|done]. apply sent_ok; auto.
Qed.
End Sending.

(** ** Promises *)
Lemma tasks_map b f : (forall t, task_seq (f t) = task_seq t) -> (forall t, tr_task_ok b t -> tr_task_ok b (f t)) ->
  bridge_ok b -> bridge_ok (set_br_tasks (f <$> br_tasks b) b).
Proof.
  intros Hs Ht [K0 K1 K2 K3 K4 K5 K6 K7 K8 (l & L1 & L2 & L3 & L4)]. split; try assumption.
  - cbn. apply Forall_fmap. eapply Forall_impl; [exact K8|]. intros t Hok. exact (Ht t Hok).
  - exists l. cbn [br_tasks set_br_tasks br_sv2 br_v1]. assert (omap task_seq (f <$> br_tasks b) = omap task_seq (br_tasks b)) as ->; [|auto].
    clear - Hs. induction (br_tasks b) as [|t ts IH]; [done|]. cbn. by rewrite Hs, IH.
Qed.

Lemma settle_connect_ok p r : keeps kept (settle_connect p r).
Proof.
  intros b Hb. split; [|done]. unfold settle_connect, modify. cbn [snd].
  apply (tasks_map b (fun t => match t with TSubscribe id q None => if bool_decide (q = p) then TSubscribe id q (Some r) else t | _ => t end)); [| |exact Hb].
  - intros [id q [|]|]; [done| |done]. by case_bool_decide.
  - intros [id q [|]|]; [auto| |auto]. by case_bool_decide.
Qed.
Lemma settle_submit_ok q r b : (sr_ok r = true -> acked q b) -> bridge_ok b -> bridge_ok (settle_submit q r b).2.
Proof.
  intros Hr Hb. unfold settle_submit, modify. cbn [snd].
  apply (tasks_map b (fun t => match t with TSubmitted id p None => if bool_decide (p = q) then TSubmitted id p (Some (Ok r)) else t | _ => t end)); [| |exact Hb].
  - intros [|id p [|]]; [done..|]. by case_bool_decide.
  - intros [|id p [|]]; [auto..|]. case_bool_decide as E; [|auto]. subst p. cbn. auto.
Qed.

(** Pending submissions may go. *)
Lemma pending_ok q b : bridge_ok b ->
  bridge_ok (set_br_sv2 (set_up_pendingSubmits (map_delete q (up_pendingSubmits (br_sv2 b))) (br_sv2 b)) b).
Proof.
  intros [K0 K1 K2 K3 K4 K5 K6 K7 K8 K9]. split; try assumption. cbn. apply Forall_forall. intros x Hx. apply map_delete_subset in Hx.
  by eapply Forall_forall in K7.
Qed.
Lemma resolve_ok q r b : (sr_ok r = true -> acked q b) -> bridge_ok b -> is_Some (up_transport (br_sv2 b)) ->
  bridge_ok (resolve_submit q r b).2 /\ is_Some (up_transport (br_sv2 (resolve_submit q r b).2)).
Proof.
  intros Hr Hb Ht. unfold resolve_submit, sv2. eff_simpl. destruct (map_get q (up_pendingSubmits (br_sv2 b))) as [p|] eqn:E; cbn [snd].
  2: { split; [eapply ok_view; [|exact Hb]; done|exact Ht]. }
  assert (ps_sequenceNumber p = q) as ->.
  { apply map_get_elem in E. destruct Hb as [_ _ _ _ _ _ _ K7 _ _]. eapply Forall_forall in K7; [|exact E]. done. }
  set (b1 := set_br_sv2 (br_sv2 b) b). assert (bridge_ok b1) as Hb1 by (eapply ok_view; [|exact Hb]; done).
  pose proof (settle_submit_ok q r b1 Hr Hb1) as Hs. split; [exact (pending_ok q _ Hs)|exact Ht].
Qed.
Lemma timeout_ok q : keeps kept (submit_timeout q).
Proof.
  intros b. unfold submit_timeout, sv2, when. eff_simpl. destruct (map_has q _); cbn [snd]; intros Hb; (split; [|done]); [|eapply ok_view; [|exact Hb]; done].
  apply settle_submit_ok; [done|]. apply (pending_ok q (set_br_sv2 (br_sv2 b) b)). eapply ok_view; [|exact Hb]; done.
Qed.

Lemma settle_connecting_ok r : keeps kept (settle_connecting r).
Proof.
  unfold settle_connecting. keep_binds. destruct (up_connecting _); [|keep_leaf]. apply keeps_bind; [typeclasses eauto|apply settle_connect_ok|intros _; keep_leaf].
Qed.
#[local] Hint Resolve settle_connect_ok settle_connecting_ok : bridge.
Lemma up_fail_ok e : keeps kept (up_fail e).
Proof. unfold up_fail. keep_binds. Qed.

(** ** Frames *)
Lemma encodeFrame_type e t p c w : 0 <= e < 0x8000 -> 0 <= t < 256 -> encodeFrame e t p c = Ok w -> w !! 2%nat = Some t.
Proof.
  intros He Ht Ew. destruct (Z_le_gt_dec (zlen p) SV2_MAX_PAYLOAD_LEN) as [Hl|Hl].
  - set (f := {| header := {| extensionType := e; msgType := t; msgLength := zlen p; channelMsg := c |}; payload := p |}).
    pose proof (encodeFrame_ok f ltac:(done)) as Ef. cbn [f header payload extensionType msgType channelMsg] in Ef. rewrite Ew in Ef.
    injection Ef as ->. unfold frame_bytes. cbn. done.
  - unfold encodeFrame in Ew. rewrite Z.gtb_ltb, (proj2 (Z.ltb_lt _ _)) in Ew by lia. done.
Qed.
Lemma encodeFrame_typed t p c w : 0 <= t < 256 -> (t, c) ∈ [(MSG_SETUP_CONNECTION, false); (MSG_OPEN_EXT_CHANNEL, false); (MSG_SUBMIT_SHARES_EXTENDED, true)] ->
  encodeFrame 0 t p c = Ok w -> typed_frame w.
Proof.
  intros Ht Hin Ew. destruct (Z_le_gt_dec (zlen p) SV2_MAX_PAYLOAD_LEN) as [Hl|Hl].
  - set (f := {| header := {| extensionType := 0; msgType := t; msgLength := zlen p; channelMsg := c |}; payload := p |}).
    pose proof (encodeFrame_ok f ltac:(done)) as Ef. cbn [f header payload extensionType msgType channelMsg] in Ef. rewrite Ew in Ef.
    injection Ef as ->. by exists f.
  - unfold encodeFrame in Ew. rewrite Z.gtb_ltb, (proj2 (Z.ltb_lt _ _)) in Ew by lia. done.
Qed.
Lemma submit_typed m w : encodeSubmitSharesExtended m = Ok w -> typed_frame w.
Proof.
  unfold encodeSubmitSharesExtended. destruct (written _) as [p|]; [|done]. cbn [mbind res_bind]. apply encodeFrame_typed; [done|]. do 2 right. left.
Qed.
Lemma open_typed m w : encodeOpenExtendedMiningChannel m = Ok w -> typed_frame w.
Proof.
  unfold encodeOpenExtendedMiningChannel. destruct (written _) as [p|]; [|done]. cbn [mbind res_bind]. apply encodeFrame_typed; [done|]. right. left.
Qed.
Lemma setup_typed m w : encodeSetupConnection m = Ok w -> typed_frame w.
Proof.
  unfold encodeSetupConnection. destruct (written _) as [p|]; [|done]. cbn [mbind res_bind]. apply encodeFrame_typed; [done|]. left.
Qed.
Lemma submit_not_open m w : encodeSubmitSharesExtended m = Ok w -> opens_anonymous w.
Proof.
  unfold encodeSubmitSharesExtended. destruct (written _) as [p|]; [|done]. cbn [mbind res_bind]. intros Ew Ho.
  rewrite (encodeFrame_type MINING_EXT MSG_SUBMIT_SHARES_EXTENDED _ _ _ ltac:(done) ltac:(done) Ew) in Ho. done.
Qed.
Lemma setup_not_open m w : encodeSetupConnection m = Ok w -> opens_anonymous w.
Proof.
  unfold encodeSetupConnection. destruct (written _) as [p|]; [|done]. cbn [mbind res_bind]. intros Ew Ho.
  rewrite (encodeFrame_type COMMON_EXT MSG_SETUP_CONNECTION _ _ _ ltac:(done) ltac:(done) Ew) in Ho. done.
Qed.

Lemma trim_ids_zlen k v m : zlen m <= 64 -> zlen (trim_ids (map_set k v m)) <= 64.
Proof.
  intros Hm. pose proof (map_set_zlen k v m). unfold trim_ids. destruct (Z.ltb_spec 64 (zlen (map_set k v m))); [|lia].
  destruct (map_set k v m) as [|x l]; [done|]. cbn [tail]. rewrite zlen_cons in *. lia.
Qed.

Lemma onSv2Job_ok j : keeps kept_up (onSv2Job j).
Proof.
  intros b Hb Ht. unfold onSv2Job. eff_simpl.
  set (b1 := set_br_jobIdMap _ _). assert (bridge_ok b1 /\ is_Some (up_transport (br_sv2 b1))) as [Hb1 Ht1].
  { split; [|exact Ht]. destruct Hb as [K0 K1 K2 K3 K4 K5 K6 K7 K8 K9]. split; try assumption.
    - exact (trim_ids_zlen _ _ _ K1).
    - intros _. exact Ht. }
  destruct (br_lastPrevHash _) as [ph|]; [|exact (conj Hb1 Ht1)]. by apply (kept_kept_up _ (same_kept _ (write_same _))).
Qed.
Lemma onSv2PrevHash_ok p : keeps kept_up (onSv2PrevHash p).
Proof. unfold onSv2PrevHash. keep_binds. destruct (br_lastJob _); [apply onSv2Job_ok|keep_leaf]. Qed.
Lemma onSv2Target_ok t : keeps kept_up (onSv2Target t).
Proof.
  unfold onSv2Target. destruct (_ =? 0); [keep_leaf|]. apply keeps_when; [typeclasses eauto|keep_leaf].
Qed.

#[local] Hint Resolve up_fail_ok onSv2Job_ok onSv2PrevHash_ok onSv2Target_ok : bridge.

Section Upstream.
Context `{NoiseCrypto} `{Ed25519} (opts : TranslatorOptions).

Lemma open_ok : keeps kept (sv2 sendOpenExtendedChannel).
Proof.
  intros b. unfold sv2, sendOpenExtendedChannel. eff_simpl.
  destruct (encodeOpenExtendedMiningChannel (open_message (up_userIdentity (br_sv2 b)))) as [w|] eqn:E; [|by apply view_kept].
  apply (up_write_ok w b); [by eapply open_typed|]. intros Hb Hr Hs _. destruct (ok_anonymous b Hb Hr) as (_ & Hi & _). by rewrite <- (Hi Hs).
Qed.
Lemma setup_ok : keeps kept (sv2 (sendSetupConnection opts)).
Proof.
  intros b. unfold sv2, sendSetupConnection. eff_simpl. destruct (encodeSetupConnection _) as [w|] eqn:E; [|by apply view_kept].
  apply (up_write_ok w b); [by eapply setup_typed|]. intros _ _ _. by eapply setup_not_open.
Qed.

#[local] Hint Resolve open_ok setup_ok : bridge.

Lemma up_dispatch_ok f : keeps kept_up (up_dispatch f).
Proof.
  intros b Hb Ht. set (b1 := set_br_sv2 (set_up_received (up_received (br_sv2 b) ++ [f]) (br_sv2 b)) b).
  destruct (kept_kept_up _ (received_ok f) b Hb Ht) as [Hb1 Ht1]. change (sv2 _ b).2 with b1 in Hb1, Ht1.
  assert (f ∈ up_received (br_sv2 b1)) as Hin by (cbn; apply elem_of_app; right; by apply list_elem_of_singleton).
  set (P := fun x => bridge_ok x /\ is_Some (up_transport (br_sv2 x))). change (P (up_dispatch f b).2).
  assert (forall m : eff Bridge unit, keeps kept_up m -> P (m b1).2) as Hm by (intros m Hm; by apply Hm). assert (P b1) as HP by done.
  unfold up_dispatch. unfold mbind at 1, eff_bind at 1, sv2 at 1, modify at 1. cbv beta iota. fold b1. clearbody b1. clear Hb Ht b.
  repeat (destruct (msgType (header f) =? _) eqn:Em; [first [solve [apply Hm; keep_binds]|idtac]|clear Em]).
  - apply Z.eqb_eq in Em. eff_simpl. destruct (decodeSubmitSharesSuccess (payload f)) as [s|] eqn:Es; [|done]. apply resolve_ok; [|done..]. intros _. by exists f, s.
  - destruct (8 <=? _); [|done]. by apply resolve_ok.
  - done.
Qed.

Lemma plain_ok plain : keeps kept_up (up_handlePlainBytes plain).
Proof.
  unfold up_handlePlainBytes. keep_binds. apply keeps_for_each; [typeclasses eauto..|]. apply up_dispatch_ok.
Qed.

Lemma kept_up_kept b b' : is_Some (up_transport (br_sv2 b)) -> kept_up b b' -> kept b b'.
Proof. intros Ht Hk Hb. destruct (Hk Hb Ht). auto. Qed.
Lemma transport_kept t : keeps kept_up (sv2 (modify (set_up_transport (Some t)))).
Proof. intros b Hb Ht. split; [|done]. eapply ok_view; [|exact Hb]. unfold view. cbn. by rewrite (bool_decide_true _ Ht). Qed.
Lemma cipher_ok chunk : keeps kept (processCipher chunk).
Proof.
  intros b. unfold processCipher. unfold mbind at 1, eff_bind at 1. change (sv2 get b) with (Ok (br_sv2 b), set_br_sv2 (br_sv2 b) b). cbv beta iota.
  transitivity (set_br_sv2 (br_sv2 b) b); [by apply view_kept|]. set (b1 := set_br_sv2 _ b).
  destruct (up_transport (br_sv2 b)) as [t|] eqn:Et; [|by apply view_kept]. apply kept_up_kept; [by exists t|].
  match goal with |- kept_up _ (?m b1).2 => enough (keeps kept_up m) by auto end.
  keep_binds. destruct (decryptFrames _ t) as [r t']. apply keeps_bind; [typeclasses eauto|apply transport_kept|intros _]. keep_binds.
  apply keeps_for_each; [typeclasses eauto..|]. apply plain_ok.
Qed.

(** A handshake belongs to a socket. *)
Lemma transport_ok b t x : bridge_ok b -> (0 < length (up_sockets (br_sv2 b)))%nat ->
  bridge_ok (set_br_sv2 (set_up_transport (Some t) (set_up_nx (Some x) (br_sv2 b))) b).
Proof. intros [K0 K1 K2 K3 K4 K5 K6 K7 K8 K9] Hl. split; try assumption; cbn; eauto. Qed.
Lemma finish_ok m2 now : keeps kept (sv2 (finish_handshake opts m2 now)).
Proof.
  intros b Hb. unfold sv2, finish_handshake. eff_simpl. destruct (up_nx (br_sv2 b)) as [x|] eqn:Ex; [|by apply view_kept].
  assert (0 < length (up_sockets (br_sv2 b)))%nat as Hl by (apply (ok_nx b Hb); rewrite Ex; eauto).
  destruct (readMessage2 m2 x) as [[fin|e] x']; [|apply view_kept; [|done]; unfold view; cbn; by rewrite Ex].
  set (t := {| t_send := _ |}).
  assert (bridge_ok (set_br_sv2 (set_up_transport (Some t) (set_up_nx (Some x') (br_sv2 b))) b)) as Hok by (by apply transport_ok).
  destruct (responderPayload fin) as [[|y payload]|]; cbn; [by split; eauto| |by split; eauto].
  destruct (decodeCertificate _) as [cert|]; cbn; [|by split; eauto].
  destruct (verifyCertificate _ _ _) as [v|]; cbn; [|by split; eauto]. destruct (throw_if _ _); cbn; by split; eauto.
Qed.
Lemma start_ok random b : (0 < length (up_sockets (br_sv2 b)))%nat -> kept b (sv2 (startHandshake random) b).2.
Proof.
  intros Hl Hb. unfold sv2, startHandshake. eff_simpl. destruct (new_NoiseNX _ _) as [x|]; [|by apply view_kept].
  destruct (writeMessage1 random x) as [r x'].
  assert (bridge_ok (set_br_sv2 (set_up_nx (Some x') (br_sv2 b)) b)) as Hok.
  { destruct Hb as [K0 K1 K2 K3 K4 K5 K6 K7 K8 K9]. split; try assumption. by cbn. }
  destruct r as [m1|]; cbn; [|done]. destruct (ta_set _ m1 2) as [out|]; cbn; [|done].
  pose proof (socket_write_view out (set_up_nx (Some x') (br_sv2 b))) as Hv. destruct (socket_write out _) as [[|] u]; cbn in Hv |- *.
  - apply (view_kept (set_br_sv2 (set_up_nx (Some x') (br_sv2 b)) b)); [|done]. by apply (set_view_same (set_br_sv2 _ b) (set_up_state UP_HANDSHAKE_M2 u)).
  - apply (view_kept (set_br_sv2 (set_up_nx (Some x') (br_sv2 b)) b)); [|done]. by apply (set_view_same (set_br_sv2 _ b) u).
Qed.
#[local] Hint Resolve finish_ok cipher_ok : bridge.

Lemma data_ok chunk now : keeps kept (up_onData opts chunk now).
Proof.
  unfold up_onData. keep_binds. destruct (bool_decide _); [keep_leaf|]. destruct (bool_decide _); [|keep_leaf].
  keep_binds. destruct (_ <? 2); [keep_leaf|]. destruct (_ <? _); [keep_leaf|]. keep_binds.
  apply keeps_bind; [typeclasses eauto| |].
  - apply keeps_try; [typeclasses eauto| |]; intros; keep_binds.
  - intros ok. destruct (negb ok); [keep_leaf|]. keep_binds. destruct (_ =? 0); keep_leaf.
Qed.
End Upstream.

(** ** Requests of the miner *)

(** A handler of the request [m], which is recorded. *)
Definition kept_req (m : jval) (b b' : Bridge) : Prop :=
  bridge_ok b -> m ∈ br_requests b -> bridge_ok b' /\ m ∈ br_requests b'.
#[local] Instance kept_req_refl m : Reflexive (kept_req m).
Proof. by intros b Hb. Qed.
#[local] Instance kept_req_trans m : Transitive (kept_req m).
Proof. intros a b c Hab Hbc Ha Hm. destruct (Hab Ha Hm). auto. Qed.
Lemma view_req m b b' : view b' = view b -> kept_req m b b'.
Proof. intros E Hb Hm. split; [exact (ok_view _ _ E Hb)|]. unfold view in E. by injection E as _ _ _ -> _ _ _ _ _ _ _ _ _ _ _. Qed.
Lemma same_req {A} x (m : eff Bridge A) : keeps same_view m -> keeps (kept_req x) m.
Proof. intros Hm b. exact (view_req x _ _ (Hm b)). Qed.
Ltac keep_req := repeat first
  [ apply keeps_ret; typeclasses eauto | apply keeps_lift; typeclasses eauto | apply keeps_get; typeclasses eauto
  | solve [apply same_req; first [solve [auto with bridge nocore] | by apply sv2_modify_same | by apply v1_modify_same | by apply modify_same]]
  | apply keeps_bind_lift; [typeclasses eauto..|]; intros ? ?
  | apply keeps_bind; [typeclasses eauto| |intros ?]].

(** A task that is not a submission comes or goes. *)
Lemma add_subscribe id p o b : bridge_ok b -> bridge_ok (set_br_tasks (br_tasks b ++ [TSubscribe id p o]) b).
Proof.
  intros [K0 K1 K2 K3 K4 K5 K6 K7 K8 (l & L1 & L2 & L3 & L4)]. split; try assumption.
  - cbn. apply Forall_app. split; [exact K8|]. by constructor.
  - exists l. cbn. rewrite omap_app. cbn. rewrite app_nil_r. auto.
Qed.
(** A socket to the pool, after the identity was set. *)
Lemma connect_ok b : bridge_ok b ->
  bridge_ok (set_br_sv2 (connect (set_up_userIdentity (or_else (username (br_v1 b)) v1_anon) (br_sv2 b))).2 b).
Proof.
  intros [K0 K1 K2 K3 K4 K5 K6 K7 K8 K9]. assert (username (br_v1 b) = [] -> or_else (username (br_v1 b)) v1_anon = v1_anon) as Hn by (by intros ->).
  generalize dependent (or_else (username (br_v1 b)) v1_anon). intros name Hn. unfold connect. eff_simpl. cbn [snd].
  split; try assumption; try (intros; cbn; rewrite length_app; cbn; lia).
  - cbn. eauto.
  - intros Hr. destruct (K6 Hr) as (N1 & N2 & N3). split; [exact N1|]. split; [|exact N3]. intros _. exact (Hn N1).
Qed.
Lemma subscribe_ok m : keeps (kept_req m) (v1_subscribe m).
Proof.
  unfold v1_subscribe. do 3 (apply keeps_bind_lift; [typeclasses eauto..|]; intros ? ?). apply keeps_bind; [typeclasses eauto| |].
  { destruct (nlt _ _); [|keep_req]. keep_req. destruct a2; keep_req. }
  intros _ b Hb Hm. unfold v1, sv2, add_task. eff_simpl. destruct (prop_of m (js "id")) as [id|]; cbn [snd].
  - split; [|done]. pose proof (add_subscribe id (up_connects (br_sv2 b)) None _ (connect_ok b Hb)) as Hok. eapply ok_view; [|exact Hok]. done.
  - split; [|done]. eapply ok_view; [|exact (connect_ok b Hb)]. done.
Qed.

(** After [mining.authorize] the identity may be anything. *)
Lemma named_ok m f g b : is_call "mining.authorize" m -> m ∈ br_requests b -> bridge_ok b -> (forall c, sharesAccepted (f c) = sharesAccepted c) ->
  (forall u, up_view (set_up_userIdentity [] (g u)) = up_view (set_up_userIdentity [] u)) -> bridge_ok (set_br_sv2 (g (br_sv2 b)) (set_br_v1 (f (br_v1 b)) b)).
Proof.
  intros Hc Hm [K0 K1 K2 K3 K4 K5 K6 K7 K8 K9] Hf Hg. specialize (Hg (br_sv2 b)). unfold up_view in Hg. cbn in Hg.
  injection Hg as E1 E2 E3 E4 E5 E6 E7 E8. apply bool_decide_iff_eq in E3, E4. 
  split; cbn; rewrite ?E1, ?E2, ?E3, ?E4, ?E8; try assumption.
  - by rewrite E5.
  - intros Hr. eapply Forall_forall in Hr; [|exact Hm]. done.
  - eapply Forall_impl; [exact K8|]. intros t. apply task_more. split; [done|]. split; cbn; [by rewrite E5|by rewrite E6].
  - destruct K9 as (l & L1 & L2 & L3 & L4). exists l. rewrite Hf, E7. split; [exact L1|]. split; [|by split].
    eapply Forall_impl; [exact L2|]. intros x [H1 H2]. split; [eapply submitted_more; [|exact H1]|eapply acked_more; [|exact H2]];
      (split; [done|]; split; cbn; [by rewrite E5|by rewrite E6]).
Qed.
Lemma authorize_ok m : is_call "mining.authorize" m -> keeps (kept_req m) (v1_authorize m).
Proof.
  intros Hc. unfold v1_authorize. do 3 (apply keeps_bind_lift; [typeclasses eauto..|]; intros ? ?).
  apply keeps_bind; [typeclasses eauto| |intros _; apply keeps_bind; [typeclasses eauto| |intros _; keep_req]]; intros b Hb Hm; (split; [|done]).
  - exact (named_ok m (set_username a1) (fun u => u) b Hc Hm Hb (fun _ => eq_refl) (fun _ => eq_refl)).
  - exact (named_ok m (fun c => c) (set_up_userIdentity (or_else a1 v1_anon)) b Hc Hm Hb (fun _ => eq_refl) (fun _ => eq_refl)).
Qed.

(** A submission takes the next sequence number. *)
Lemma new_seq_ok id o b : bridge_ok b -> let q := up_nextSeq (br_sv2 b) in
  let u := set_up_pendingSubmits (map_set q {| ps_sequenceNumber := q |} (up_pendingSubmits (br_sv2 b))) (set_up_nextSeq (q + 1) (br_sv2 b)) in
  let b' := set_br_tasks (br_tasks b ++ [TSubmitted id q o]) (set_br_sv2 u b) in
  tr_task_ok b (TSubmitted id q o) -> bridge_ok b'.
Proof.
  intros [K0 K1 K2 K3 K4 K5 K6 K7 K8 (l & L1 & L2 & L3 & L4)] q u b' Ht. split; try assumption.
  - cbn. apply Forall_forall. intros x [->|Hx]%map_set_elem; [done|]. by eapply Forall_forall in K7.
  - cbn. apply Forall_app. split; [exact K8|]. constructor; [exact Ht|constructor].
  - exists l. split; [exact L1|]. split; [exact L2|]. cbn. rewrite omap_app, app_assoc. cbn. split.
    + apply NoDup_app. split; [exact L3|]. split; [|apply NoDup_singleton]. intros x Hx ->%list_elem_of_singleton.
      eapply Forall_forall in L4; [|exact Hx]. cbn in L4. lia.
    + apply Forall_app. split; [eapply Forall_impl; [exact L4|]; cbn; lia|]. constructor; [lia|constructor].
Qed.

Section Submit.
Context `{NoiseCrypto}.

Lemma share_ok m id params args lastJob jid share b : prop_of m (js "id") = Ok id -> prop_of m (js "params") = Ok params -> iterate params = Ok args ->
  v1_share args lastJob jid = Ok share -> bridge_ok b -> m ∈ br_requests b -> is_Some (up_transport (br_sv2 b)) ->
  bridge_ok ((sv2 (submitExtendedShare share) ≫= fun r => add_task (TSubmitted id r.1 (match r.2 with Some e => Some (Throw e) | None => None end))) b).2.
Proof.
  intros Ei Ep Ea Es Hb Hm Ht. assert (is_Some (up_socket (br_sv2 b))) as Hs by (apply (ok_socket b Hb), (ok_transport b Hb), Ht).
  unfold sv2, submitExtendedShare, add_task, try_catch. eff_simpl. set (q := up_nextSeq (br_sv2 b)). set (u1 := set_up_pendingSubmits _ _).
  destruct (encodeSubmitSharesExtended _) as [w|e] eqn:Ew.
  2: { exact (new_seq_ok id (Some (Throw e)) b Hb I). }
  pose proof (up_write_view w u1) as Hv. destruct (up_write w u1) as [[[]|e] u2]; cbn [snd fst].
  - destruct Hv as [[_ Hn]|(Hv & _ & _)]; [by destruct (Hn eq_refl)|].
    pose proof (sent_ok b w Hb (submit_typed _ _ Ew) (fun _ => submit_not_open _ _ Ew)) as Hb2. set (b2 := set_br_sv2 _ b) in Hb2.
    pose proof (new_seq_ok id None b2 Hb2) as Hok. cbv zeta in Hok. eapply ok_view; [|apply Hok].
    + exact (set_view_same (set_br_sv2 (set_up_sent (up_sent u1 ++ [w]) u1) (set_br_tasks _ b)) (set_up_timers (up_timers u2 ++ [q]) u2) Hv).
    + exists m, w. split; [exact Hm|]. split; [cbn; apply elem_of_app; right; by apply list_elem_of_singleton|].
      exists params, args, lastJob, jid, share, (up_channelId (br_sv2 b)). done.
  - destruct Hv as [[Hv _]|(Hv & _ & _)].
    + eapply ok_view; [|exact (new_seq_ok id (Some (Throw e)) b Hb I)]. exact (set_view_same (set_br_sv2 u1 (set_br_tasks _ b)) u2 Hv).
    + pose proof (sent_ok b w Hb (submit_typed _ _ Ew) (fun _ => submit_not_open _ _ Ew)) as Hb2. eapply ok_view; [|exact (new_seq_ok id (Some (Throw e)) _ Hb2 I)].
      exact (set_view_same (set_br_sv2 (set_up_sent (up_sent u1 ++ [w]) u1) (set_br_tasks _ b)) u2 Hv).
Qed.

Lemma submit_ok m : keeps (kept_req m) (v1_submit m).
Proof.
  intros b Hb Hm. set (P := fun x => bridge_ok x /\ m ∈ br_requests x). change (P (v1_submit m b).2). assert (P b) as HP by done.
  assert (forall id c e, P (v1 (sendError id c e) b).2) as He by (intros; by apply (same_req m _ (sendError_same _ _ _))).
  unfold v1_submit. unfold mbind at 1, eff_bind at 1, lift at 1. destruct (prop_of m (js "id")) as [id|] eqn:Ei; [|done].
  unfold mbind at 1, eff_bind at 1, get at 1. cbv beta iota. destruct (negb _); [done|].
  destruct (br_lastJob b) as [lastJob|] eqn:Ej; [|done]. destruct (br_lastPrevHash b); [|done].
  assert (is_Some (up_transport (br_sv2 b))) as Ht by (apply (ok_job b Hb); rewrite Ej; eauto).
  unfold mbind at 1, eff_bind at 1, lift at 1. destruct (prop_of m (js "params")) as [params|] eqn:Ep; [|done].
  unfold mbind at 1, eff_bind at 1, lift at 1. destruct (iterate params) as [args|] eqn:Ea; [|done]. cbv zeta.
  destruct (_ =? 0); [done|]. unfold mbind at 1, eff_bind at 1, lift at 1. destruct (v1_share _ _ _) as [share|] eqn:Es; [|done].
  split; [by eapply share_ok|]. unfold sv2, add_task. eff_simpl. by destruct (submitExtendedShare share (br_sv2 b)) as [[]].
Qed.

Lemma onV1_ok m : keeps (kept_req m) (onV1 m).
Proof.
  unfold onV1. apply keeps_try; [typeclasses eauto| |intros _; keep_req]. apply keeps_bind_lift; [typeclasses eauto|]. intros method Em. unfold v1_dispatch.
  destruct (match method with JStr t => bool_decide (t = js "mining.subscribe") | _ => false end); [apply subscribe_ok|].
  destruct (match method with JStr t => bool_decide (t = js "mining.authorize") | _ => false end) eqn:Ea.
  { apply authorize_ok. destruct method; try done. apply bool_decide_eq_true in Ea. by subst. }
  destruct (match method with JStr t => bool_decide (t = js "mining.submit") | _ => false end); [apply submit_ok|].
  destruct (match method with JStr t => bool_decide (t = js "mining.suggest_difficulty") | _ => false end); keep_req.
Qed.

(** On the side of the miner only the invariant matters. *)
Definition held (b b' : Bridge) : Prop := bridge_ok b -> bridge_ok b'.
#[local] Instance held_refl : Reflexive held.
Proof. by intros b Hb. Qed.
#[local] Instance held_trans : Transitive held.
Proof. intros a b c Hab Hbc Ha. exact (Hbc (Hab Ha)). Qed.
Lemma kept_held {A} (m : eff Bridge A) : keeps kept m -> keeps held m.
Proof. intros Hm b Hb. by apply (Hm b). Qed.
Lemma same_held {A} (m : eff Bridge A) : keeps same_view m -> keeps held m.
Proof. intros Hm. by apply kept_held, same_kept. Qed.

Lemma on_rpc_ok m : keeps held (on_rpc m).
Proof.
  intros b Hb. unfold on_rpc. unfold mbind at 1, eff_bind at 1, modify at 1. cbv beta iota. set (b1 := set_br_requests _ b).
  assert (m ∈ br_requests b1) as Hm by (cbn; apply elem_of_app; right; by apply list_elem_of_singleton).
  destruct (onV1_ok m b1 (request_ok m b Hb) Hm) as [Hok _]. unfold try_catch. destruct (onV1 m b1) as [[]]; [done|]. eapply ok_view; [|exact Hok]. done.
Qed.
Lemma v1_loop_ok fuel : keeps held (v1_data_loop fuel).
Proof.
  induction fuel as [|fuel IH]; cbn [v1_data_loop]; [apply keeps_ret; typeclasses eauto|].
  apply keeps_bind; [typeclasses eauto|apply same_held, v1_get_same|]. intros c. destruct (_ <? 0); [apply keeps_ret; typeclasses eauto|].
  apply keeps_bind; [typeclasses eauto|by apply same_held, v1_modify_same|]. intros _. apply keeps_bind; [typeclasses eauto| |by intros _].
  destruct (bool_decide _); [apply keeps_ret; typeclasses eauto|]. destruct (JSON_parse _); [apply on_rpc_ok|apply keeps_ret; typeclasses eauto].
Qed.
Lemma v1_data_ok chunk : keeps held (v1_onData chunk).
Proof.
  unfold v1_onData. apply keeps_bind; [typeclasses eauto|by apply same_held, v1_modify_same|]. intros _.
  apply keeps_bind; [typeclasses eauto|apply same_held, v1_get_same|]. intros c. destruct (_ <? _); [apply same_held, fail_same|apply v1_loop_ok].
Qed.

(** A task is taken up: what remains, and what is answered. *)
Lemma delete_task_ok k t b : br_tasks b !! k = Some t -> bridge_ok b -> bridge_ok (set_br_tasks (delete k (br_tasks b)) b).
Proof.
  intros Hk [K0 K1 K2 K3 K4 K5 K6 K7 K8 (l & L1 & L2 & L3 & L4)]. split; try assumption.
  - cbn. by apply Forall_delete.
  - exists l. split; [exact L1|]. split; [exact L2|]. cbn. rewrite (delete_Permutation _ _ _ Hk) in L3, L4. cbn in L3, L4.
    destruct (task_seq t); [|auto]. rewrite <- Permutation_middle in L3, L4. by inversion L3; inversion L4.
Qed.
Lemma accept_task_ok k id q r b : br_tasks b !! k = Some (TSubmitted id q (Some (Ok r))) -> sr_ok r = true -> bridge_ok b ->
  bridge_ok (set_br_v1 (set_sharesAccepted (sharesAccepted (br_v1 b) + 1) (br_v1 b)) (set_br_tasks (delete k (br_tasks b)) b)).
Proof.
  intros Hk Hr [K0 K1 K2 K3 K4 K5 K6 K7 K8 (l & L1 & L2 & L3 & L4)]. split; try assumption.
  - cbn. by apply Forall_delete.
  - exists ((q, id) :: l). rewrite zlen_cons, L1. rewrite (delete_Permutation _ _ _ Hk) in L3, L4. cbn in L3, L4.
    rewrite <- Permutation_middle in L3, L4. split; [cbn; lia|]. split; [|by split]. constructor; [|exact L2]. eapply Forall_forall in K8; [|by eapply list_elem_of_lookup_2].
    exact (K8 Hr).
Qed.
Lemma resume_ok k : keeps held (tr_resume k).
Proof.
  intros b Hb. unfold tr_resume. unfold mbind at 1, eff_bind at 1, get at 1. cbv beta iota.
  destruct (br_tasks b !! k) as [[id p [[|]|]|id q [[r|]|]]|] eqn:Ek; try exact Hb;
    unfold mbind at 1, eff_bind at 1, modify at 1; cbv beta iota; pose proof (delete_task_ok k _ b Ek Hb) as Hd; set (b1 := set_br_tasks _ b) in *.
  - unfold after_connect. cut (keeps held (v1 (modify (set_cstate St_subscribed)))); [|by apply same_held, v1_modify_same]. intros Hs.
    unfold mbind at 1, eff_bind at 1, get at 1. cbv beta iota.
    match goal with |- context [v1 (sendResult id ?x)] => pose proof (same_held _ (sendResult_same id x) b1 Hd) as H1; destruct (v1 (sendResult id x) b1) as [[] b2] eqn:E2 end.
    + unfold mbind, eff_bind. rewrite E2. by apply Hs.
    + unfold mbind, eff_bind. by rewrite E2.
  - exact (same_held _ (sendError_same _ _ _) b1 Hd).
  - unfold after_submit. destruct (sr_ok r) eqn:Er.
    + exact (same_held _ (sendResult_same _ _) _ (accept_task_ok k id q r b Ek Er Hb)).
    + refine (same_held _ (sendError_same _ _ _) _ _). eapply ok_view; [|exact Hd]. done.
  - exact (same_held _ (sendError_same _ _ _) b1 Hd).
Qed.
End Submit.

(** ** Lines of the miner *)

(** The requests that complete lines are. *)
Definition line_requests (ls : list jsstr) : list jval :=
  omap (fun l => if bool_decide (trim l = []) then None else match JSON_parse (trim l) with Ok m => Some m | Throw _ => None end) ls.

(** Handlers do not read or write the text that waits. *)
Definition quiet (b b' : Bridge) : Prop := buf (br_v1 b') = buf (br_v1 b) /\ br_requests b' = br_requests b.
#[local] Instance quiet_refl : Reflexive quiet.
Proof. by intros b. Qed.
#[local] Instance quiet_trans : Transitive quiet.
Proof. intros a b c [A1 A2] [B1 B2]. split; congruence. Qed.
Lemma sv2_quiet {A} (m : eff Upstream A) : keeps quiet (sv2 m).
Proof. intros b. unfold sv2. by destruct (m (br_sv2 b)). Qed.
Lemma v1_quiet {A} (m : eff StratumClient A) : keeps (fun c c' => buf c' = buf c) m -> keeps quiet (v1 m).
Proof. intros Hm b. specialize (Hm (br_v1 b)). unfold v1. by destruct (m (br_v1 b)). Qed.
Lemma write_quiet m : keeps quiet (v1 (StratumClient.write m)).
Proof. apply v1_quiet. intros c. unfold StratumClient.write. eff_simpl. cbn. by destruct (destroyed c). Qed.
Lemma push_quiet d : keeps quiet (v1 (pushDifficulty d)).
Proof. apply v1_quiet. intros c. unfold pushDifficulty, sendNotify, StratumClient.write. eff_simpl. cbn. by destruct (destroyed _). Qed.
Ltac quiet_binds := repeat first
  [ apply keeps_ret; typeclasses eauto | apply keeps_lift; typeclasses eauto | apply keeps_get; typeclasses eauto
  | apply sv2_quiet | apply write_quiet | apply push_quiet | by apply v1_quiet | by intros ?
  | apply keeps_bind_lift; [typeclasses eauto..|]; intros ? ? | apply keeps_bind; [typeclasses eauto| |intros ?] ].

Section Lines.
Context `{NoiseCrypto}.

Lemma v1_submit_quiet m : keeps quiet (v1_submit m).
Proof.
  unfold v1_submit. quiet_binds. destruct (negb _); [apply write_quiet|]. destruct (br_lastJob a0), (br_lastPrevHash a0); try apply write_quiet.
  quiet_binds. destruct (_ =? 0); quiet_binds.
Qed.
Lemma v1_subscribe_quiet m : keeps quiet (v1_subscribe m).
Proof.
  unfold v1_subscribe. do 3 (apply keeps_bind_lift; [typeclasses eauto..|]; intros ? ?). apply keeps_bind; [typeclasses eauto| |intros _; quiet_binds].
  destruct (nlt _ _); [|quiet_binds]. quiet_binds. destruct a2; quiet_binds.
Qed.
Lemma onV1_quiet m : keeps quiet (onV1 m).
Proof.
  unfold onV1. apply keeps_try; [typeclasses eauto| |intros _; quiet_binds]. apply keeps_bind_lift; [typeclasses eauto|]. intros method _. unfold v1_dispatch.
  repeat (match goal with |- context [if ?c then _ else _] => destruct c end; [first [apply v1_subscribe_quiet | apply v1_submit_quiet | unfold v1_authorize; quiet_binds]|]).
  quiet_binds.
Qed.
Lemma on_rpc_quiet m b : exists b', on_rpc m b = (Ok tt, b') /\ buf (br_v1 b') = buf (br_v1 b) /\ br_requests b' = br_requests b ++ [m].
Proof.
  unfold on_rpc, try_catch. eff_simpl. pose proof (onV1_quiet m (set_br_requests (br_requests b ++ [m]) b)) as [Q1 Q2].
  destruct (onV1 m _) as [[[]|e] b']; eexists; (split; [reflexivity|]); by split.
Qed.

(** The loop over a buffer of complete lines and the start of one more. *)
Lemma v1_loop_lines ls rest b : Forall (fun l => 10 ∉ l) ls -> 10 ∉ rest -> buf (br_v1 b) = concat (map (fun l => l ++ [10]) ls) ++ rest ->
  exists b', (forall n, (length ls < n)%nat -> v1_data_loop n b = (Ok tt, b')) /\ buf (br_v1 b') = rest /\
    br_requests b' = br_requests b ++ line_requests ls.
Proof.
  revert b. induction ls as [|l ls IH]; intros b Hls Hr Hb.
  { exists (set_br_v1 (br_v1 b) b). split; [|by rewrite app_nil_r]. intros [|n] Hn; [cbn in Hn; lia|]. cbn [v1_data_loop]. unfold v1. eff_simpl.
    cbn in Hb. by rewrite Hb, indexOf_none. }
  apply Forall_cons in Hls as [Hl Hls]. cbn [map concat] in Hb. rewrite <- !app_assoc in Hb. cbn [app] in Hb. set (r := concat _ ++ rest) in Hb.
  set (b1 := set_br_v1 (set_buf r (br_v1 b)) b).
  assert (exists b2, (if bool_decide (trim l = []) then mret tt else match JSON_parse (trim l) with Ok m => on_rpc m | Throw _ => mret tt end) b1 = (Ok tt, b2) /\
    buf (br_v1 b2) = r /\ br_requests b2 = br_requests b ++ line_requests [l]) as (b2 & E2 & B2 & R2).
  { unfold line_requests. cbn [omap list_omap]. case_bool_decide; [exists b1; by rewrite app_nil_r|].
    destruct (JSON_parse (trim l)) as [m|]; [exact (on_rpc_quiet m b1)|exists b1; by rewrite app_nil_r]. }
  destruct (IH b2 Hls Hr B2) as (b' & E & B' & R'). exists b'. split; [|split; [exact B'|]].
  - intros [|n] Hn; [lia|]. rewrite <- (E n) by (cbn in Hn; lia). cbn [v1_data_loop]. unfold v1 at 1 2. eff_simpl. cbn [br_v1 set_br_v1].
    rewrite Hb, indexOf_app by done. unfold zlen. rewrite (proj2 (Z.ltb_ge _ 0)) by lia.
    replace (Z.to_nat (Z.of_nat (length l) + 1)) with (length l + 1)%nat by lia. rewrite Nat2Z.id, take_app_length, drop_app_add.
    cbn [drop]. rewrite drop_0. change (set_br_v1 (set_buf r _) _) with b1. unfold mret, eff_ret in E2. by rewrite E2.
  - rewrite R', R2, <- app_assoc. f_equal. symmetry. exact (omap_app _ [l] ls).
Qed.

(** C32: the loop over the lines of a miner ends, and has handled them all.  For every state
    of a bridge and every chunk: if the text that waits and the chunk are longer than 16384
    characters, the connection is closed and nothing is handled.  Otherwise they are a
    sequence of complete lines and the start of another: the handler returns, keeps exactly
    that start, and has passed on, in order and each once, the requests of those lines that
    are neither blank nor malformed.  More rounds of the loop would do nothing else. *)
Theorem v1_lines_handled chunk b :
  let text := buf (br_v1 b) ++ chunk in
  if 1024 * 16 <? zlen text then
    (v1_onData chunk b).1 = Ok tt /\ destroyed (br_v1 (v1_onData chunk b).2) = true /\ br_requests (v1_onData chunk b).2 = br_requests b
  else exists ls rest b', text = concat (map (fun l => l ++ [10]) ls) ++ rest /\ Forall (fun l => 10 ∉ l) ls /\ (10 ∉ rest) /\
    v1_onData chunk b = (Ok tt, b') /\ buf (br_v1 b') = rest /\ br_requests b' = br_requests b ++ line_requests ls /\
    forall n, (length text < n)%nat -> v1_data_loop n (set_br_v1 (set_buf text (br_v1 b)) b) = (Ok tt, b').
Proof.
  intros text. unfold v1_onData, v1, StratumClient.fail. eff_simpl. cbn [br_v1 set_br_v1 buf set_buf]. fold text. destruct (_ <? _); [done|].
  destruct (text_lines text) as (ls & rest & Et & Hls & Hr & Hn).
  destruct (v1_loop_lines ls rest (set_br_v1 (set_buf text (br_v1 b)) b) Hls Hr Et) as (b' & E & B & R).
  exists ls, rest, b'. do 3 (split; [done|]). split; [apply E; lia|]. split; [exact B|]. split; [exact R|]. intros n Hl. apply E. lia.
Qed.
End Lines.

(** ** Runs *)
Section Run.
Context `{NoiseCrypto} `{Ed25519} (opts : TranslatorOptions) (cfg : StratumConfig).

Lemma sock_exists k p b : sock_is k p b = true -> (0 < length (up_sockets (br_sv2 b)))%nat.
Proof. unfold sock_is. destruct (_ !! k) eqn:E; [|done]. apply lookup_lt_Some in E. lia. Qed.

Lemma bridge_step_ok e : keeps held (bridge_step opts e).
Proof.
  intros b Hb. unfold bridge_step. unfold mbind at 1, eff_bind at 1, get at 1. cbv beta iota. destruct e as [chunk| |k random|k chunk now|k e|k|q|k].
  - unfold when. destruct (negb _); [by apply v1_data_ok|exact Hb].
  - apply (kept_held (_ ← v1 (modify (set_destroyed true)); sv2 up_close)); [keep_binds|exact Hb].
  - unfold when. destruct (sock_is _ _ _) eqn:Ek; [|exact Hb]. apply sock_exists in Ek. unfold mbind, eff_bind.
    pose proof (same_kept _ (on_sock_same k sock_connected) b Hb) as [H1 _]. unfold on_sock, sv2 in H1 |- *. unfold modify in H1 |- *. cbn [snd] in H1.
    apply (start_ok random _); [|exact H1]. cbn. by rewrite length_alter.
  - unfold when. destruct (sock_is _ _ _); [|exact Hb]. exact (kept_held _ (data_ok opts chunk now) b Hb).
  - unfold when. destruct (sock_is _ _ _); [|exact Hb]. apply (kept_held (_ ← on_sock k sock_destroy; up_fail e)); [keep_binds|exact Hb].
  - unfold when. destruct (sock_is _ _ _); [|exact Hb].
    apply (kept_held (_ ← on_sock k sock_closed; _ ← sv2 (modify (set_up_state UP_DEAD)); v1 StratumClient.fail)); [keep_binds|exact Hb].
  - unfold when. destruct (bool_decide _); [|exact Hb].
    apply (kept_held (_ ← sv2 (modify (fun u => set_up_timers (set_delete q (up_timers u)) u)); submit_timeout q)); [|exact Hb].
    apply keeps_bind; [typeclasses eauto|keep_leaf|]. intros _. apply timeout_ok.
  - by apply resume_ok.
Qed.

Lemma new_bridge_ok c : username c = [] -> sharesAccepted c = 0 -> bridge_ok (new_Bridge c).
Proof.
  intros Hu Hc. split; cbn; [done|done|lia|by intros []|by intros []|by intros []| |done|done|exists []; rewrite Hc; split; [done|]; split; [constructor|]; split; constructor].
  intros _. split; [exact Hu|]. split; [by intros []|constructor].
Qed.
Lemma tr_run_ok es : Forall bridge_ok (tr_objs (tr_run opts cfg es init_translator)).
Proof.
  cut (forall s, Forall bridge_ok (tr_objs s) -> Forall bridge_ok (tr_objs (tr_run opts cfg es s))); [intros Hs; by apply Hs|].
  induction es as [|e es IH]; intros s Hs; [done|]. apply IH. unfold tr_step. destruct (tr_crashed s); [done|]. destruct e as [addr now|i e].
  - unfold tr_accept. destruct (allocExtranonce1Hex _). cbn. apply Forall_app. split; [done|]. constructor; [by apply new_bridge_ok|done].
  - destruct (tr_objs s !! i) as [b|] eqn:Ei; [|done]. destruct (tr_enabled i e s); [|done].
    pose proof (bridge_step_ok e b (Forall_lookup_1 _ _ _ _ Hs Ei)) as Hb. destruct (bridge_step opts e b) as [r b']. cbn in Hb.
    assert (Forall bridge_ok (<[i := b']> (tr_objs s))) as Hi by (by apply Forall_insert). destruct e, (br_rejected b' || _); exact Hi.
Qed.

(** C30: a share counts as accepted only if the pool accepted it.  In every run of the
    translator, whatever miners, the pool and the network do, the accepted shares of a
    miner are as many different submissions: each was a request of that miner, was sent to
    the pool under its own sequence number with the job, extranonce, time and nonce of the
    request, and the pool has answered that sequence number with success. *)
Theorem translated_acceptance es i b : tr_objs (tr_run opts cfg es init_translator) !! i = Some b ->
  exists answered, zlen answered = sharesAccepted (br_v1 b) /\ NoDup answered.*1 /\
    Forall (fun x => submitted x.1 x.2 b /\ acked x.1 b) answered.
Proof.
  intros Hi. destruct (ok_accepted b (Forall_lookup_1 _ _ _ _ (tr_run_ok es) Hi)) as (l & L1 & L2 & L3 & _).
  exists l. split; [exact L1|]. split; [|exact L2]. by apply NoDup_app in L3 as [L3 _].
Qed.

(** C31: the translator speaks the protocol of the mining channel to the pool.  In every run,
    whatever miners and pools send, each frame it writes to the pool is a well-formed frame
    without extension, of one of three messages, with the channel bit that the message has:
    the setup of the connection, the opening of an extended channel, the submission of
    extended shares. *)
Theorem translated_frames es i b w : tr_objs (tr_run opts cfg es init_translator) !! i = Some b -> w ∈ up_sent (br_sv2 b) -> typed_frame w.
Proof. intros Hi Hw. pose proof (ok_frames b (Forall_lookup_1 _ _ _ _ (tr_run_ok es) Hi)) as Hf. by eapply Forall_forall in Hf. Qed.

Lemma resume_subscribed b k id p : br_tasks b !! k = Some (TSubscribe id p (Some (Ok tt))) ->
  cstate (br_v1 (tr_resume k b).2) = St_subscribed /\ destroyed (br_v1 (tr_resume k b).2) = destroyed (br_v1 b).
Proof.
  intros Hk. unfold tr_resume, after_connect, v1, sendResult, StratumClient.write. eff_simpl. rewrite Hk. cbn. by destruct (destroyed (br_v1 b)) eqn:E.
Qed.
Lemma submit_refused b m mid : cstate (br_v1 b) <> St_authorized -> destroyed (br_v1 b) = false -> is_call "mining.submit" m ->
  prop_of m (js "id") = Ok mid ->
  br_sv2 (onV1 m b).2 = br_sv2 b /\ sent (br_v1 (onV1 m b).2) = sent (br_v1 b) ++ [WError mid 24 (js "unauthorized worker")].
Proof.
  intros Hc Hd Hm Hid. unfold onV1, try_catch. eff_simpl. rewrite Hm. unfold v1_dispatch. rewrite !(bool_decide_false (_ = js _)) by done.
  rewrite bool_decide_true by done. unfold v1_submit, v1, sendError, StratumClient.write. eff_simpl. rewrite Hid, bool_decide_false by done. cbn. by rewrite Hd.
Qed.

(** The channel of a miner is nobody's.  In every run, as long as a miner has not
    authorized, every channel that is opened for it is opened for the user [v1-anon], not
    for the worker that authorizes on it later; and the answer to a subscription, which
    comes after the channel is open, leaves the connection in a state in which every share
    is refused as unauthorized, with nothing sent to the pool, also when the miner had
    authorized before. *)
Theorem translated_anonymous :
  (forall es i b w, tr_objs (tr_run opts cfg es init_translator) !! i = Some b ->
     Forall (fun m => ~ is_call "mining.authorize" m) (br_requests b) ->
     w ∈ up_sent (br_sv2 b) -> w !! 2%nat = Some MSG_OPEN_EXT_CHANNEL -> encodeOpenExtendedMiningChannel (open_message v1_anon) = Ok w) /\
  (forall b k id p m mid, br_tasks b !! k = Some (TSubscribe id p (Some (Ok tt))) -> destroyed (br_v1 b) = false ->
     is_call "mining.submit" m -> prop_of m (js "id") = Ok mid -> let b1 := (tr_resume k b).2 in let b2 := (onV1 m b1).2 in
     br_sv2 b2 = br_sv2 b1 /\ sent (br_v1 b2) = sent (br_v1 b1) ++ [WError mid 24 (js "unauthorized worker")]).
Proof.
  split.
  - intros es i b w Hi Hr Hw. destruct (ok_anonymous b (Forall_lookup_1 _ _ _ _ (tr_run_ok es) Hi) Hr) as (_ & _ & Ha). by eapply Forall_forall in Ha.
  - intros b k id p m mid Hk Hd Hm Hid b1 b2. destruct (resume_subscribed b k id p Hk) as [Hc Hd1]. fold b1 in Hc, Hd1.
    apply submit_refused; [by rewrite Hc|by rewrite Hd1|done..].
Qed.
End Run.
