(* ===== verification/TranslatorWork.v ===== *)
(** * The translator: the work it passes on

    What a V1 miner hashes for a job that the pool announced over Stratum V2, and what the
    pool checks when the translator submits the miner's share: the two are the same block
    header.  And the other end of the connection: whose pool it is. *)

From S2P Require Import Prelude JsString JsMap JsNumber JsRound JsFormat Effects Json Header Difficulty Vardiff Node JobManager B3Pow PadCache.
From S2P Require Import ShareValidator Sv2Types Sv2Messages Noise Sv2Keys Sv2Channel Sv2Server Sv2Wire StratumClient Translator TranslatorProofs.
Import Common Mining CommonMessages MiningMessages.

(** ** What a V1 miner hashes *)

(** The header a V1 miner makes of the parameters of [mining.notify], the two extranonces,
    a time and a nonce: hexadecimal strings are put together to the coinbase, the merkle
    branches are given in the order of display. *)
Definition v1_work `{Sha256} (params : list jval) (en1 en2 : jsstr) (ntime nonce : Z) : option CBlockHeader :=
  match params with
  | [_; JStr prev; JStr coinb1; JStr coinb2; JArr branches; JStr version; JStr bits; _; _] =>
      match hexToBytes (coinb1 ++ en1 ++ en2 ++ coinb2), hexToBytes prev, res_map hexToBytes_of branches, parseIntHex version, parseIntHex bits with
      | Ok coinbase, Ok p, Ok bs, Some v, Some n =>
          Some {| nVersion := to_i32 v; hashPrevBlock := reverse p;
                  hashMerkleRoot := foldl (fun cur sib => doubleSha256 (cur ++ reverse sib)) (doubleSha256 coinbase) bs;
                  nTime := ntime; nBits := n; nNonce := nonce |}
      | _, _, _, _, _ => None
      end
  | _ => None
  end.

Lemma bytesToHex_app a b : bytesToHex (a ++ b) = bytesToHex a ++ bytesToHex b.
Proof. unfold bytesToHex. apply bind_app. Qed.

Lemma parse_0x n : 0 <= n -> parseIntHex (js "0x" ++ padStart 8 48 (to_radix 16 n)) = Some n.
Proof.
  intros Hn. pose proof (parseInt_hex_roundtrip 8 n Hn) as Hp. set (s := padStart 8 48 (to_radix 16 n)) in *.
  assert (Forall (fun c => is_hex_char c = true) s) as Hs by (unfold s, to_radix; rewrite (proj2 (Z.ltb_ge n 0)) by lia; by apply padStart_chars, digits_chars).
  destruct s as [|c s]; [done|]. rewrite hex_chars_not_special in Hp by done.
  change (parseIntHex (js "0x" ++ c :: s)) with (hex_prefix (c :: s) None). apply Forall_cons in Hs as [Hc _]. destruct (hex_char_val _ Hc) as [d Hd].
  by rewrite (hex_prefix_None_0 c s d Hd).
Qed.

Section Work.
Context `{Sha256Ok}.

(** The translated notification stands for the announced job and parent. *)
Lemma translated_work_header id m p en1 en2 ntime nonce : NewExtendedMiningJob_ok m -> SetNewPrevHash_ok p -> bytes_ok en1 -> bytes_ok en2 ->
  v1_work (translated_notify id m p) (bytesToHex en1) (bytesToHex en2) ntime nonce =
  Some (miner_header (nemj_version m) (miner_root m en1 en2) p ntime nonce).
Proof.
  intros (_ & _ & _ & Hv & [Hp _] & [Hc1 _] & [Hc2 _]) (_ & _ & [Hh Hl] & _ & Hn) H1 H2. unfold v1_work, translated_notify, hex0x.
  rewrite !parse_0x by (unfold uint in *; lia). rewrite <- !bytesToHex_app.
  rewrite !hexToBytes_bytesToHex; [|by apply bytes_ok_reverse|rewrite !bytes_ok_app; auto].
  assert (res_map hexToBytes_of ((fun p => JStr (bytesToHex (reverseBytes p))) <$> nemj_merklePath m) = Ok (reverse <$> nemj_merklePath m)) as ->.
  { clear - Hp. induction Hp as [|b l [Hb _] _ IH]; [done|]. cbn [fmap list_fmap res_map hexToBytes_of].
    rewrite hexToBytes_bytesToHex by (by apply bytes_ok_reverse). cbn [mbind res_bind]. by rewrite IH. }
  unfold miner_header, miner_root, reverseBytes. rewrite reverse_involutive, to_u32_id by (unfold uint in Hn; lia). do 2 f_equal.
  generalize (doubleSha256 (nemj_coinbaseTxPrefix m ++ en1 ++ en2 ++ nemj_coinbaseTxSuffix m)).
  clear Hp. induction (nemj_merklePath m) as [|b l IH]; intros cur; [done|]. cbn [fmap list_fmap foldl]. rewrite reverse_involutive. apply IH.
Qed.
End Work.

(** ** Frames of the pool *)
Section Bridge.
Context `{NoiseCryptoOk} `{Ed25519} (opts : TranslatorOptions).

(** The upstream connection has finished the handshake, and nothing is left over from
    earlier reads. *)
Record listening (key : bytes) (x : Z) (k : nat) (u : Upstream) : Prop := {
  ls_socket : exists s, up_sockets u !! k = Some s /\ sk_connected s = true /\ sk_destroyed s = false;
  ls_state : up_state u <> UP_DEAD /\ up_state u <> UP_HANDSHAKE_M2;
  ls_ct : up_ct u = [];
  ls_plain : up_plain u = [];
  ls_transport : exists t, up_transport u = Some t /\ t_recv t = keyed key x
}.

(** A frame that the pool encrypts and that arrives in one read is dispatched, and the
    connection listens for the next. *)
Lemma step_frame key x k b f w now peer peer' : zlen key = 32 -> 0 <= x -> listening key x k (br_sv2 b) -> frame_ok f -> bytes_ok (payload f) ->
  x + zlen (frame_bytes f) <= MAX_NONCE -> t_send peer = keyed key x -> encryptFrame (frame_bytes f) peer = (Ok w, peer') ->
  exists t y, up_transport (br_sv2 b) = Some t /\ t_send peer' = keyed key y /\ x <= y <= x + zlen (frame_bytes f) /\
    let u := set_up_transport (Some {| t_send := t_send t; t_recv := keyed key y |}) (br_sv2 b) in
    listening key y k u /\ (bridge_step opts (BrUpData k w now) b).2 = (up_dispatch f (set_br_sv2 u b)).2.
Proof.
  intros Hk Hx [(s & Es & Ec & Ed) [S1 S2] Hct Hpl (t & Et & Er)] Hf Hb Hn Ep Ee.
  destruct (decrypt_one key Hk x _ peer w peer' t Hx Hn Ep Er Ee) as [Edec (y & Ey & Hy)]. rewrite Ey in Edec.
  exists t, y. split; [done|]. split; [done|]. split; [done|]. cbv zeta. set (t' := {| t_send := t_send t; t_recv := keyed key y |}) in *. split.
  { split; cbn; try done; eauto. }
  unfold bridge_step, sock_is. unfold mbind at 1, eff_bind at 1, get at 1. cbv beta iota. rewrite Es, Ec, Ed. cbn [negb andb when].
  unfold up_onData, processCipher, up_handlePlainBytes, sv2. eff_simpl. cbn [br_sv2 set_br_sv2]. rewrite !bool_decide_false by done. cbn [br_sv2 set_br_sv2]. rewrite Et, Hct, appendBytes_ok. cbn [app br_sv2 set_br_sv2].
  rewrite Edec. cbn [fst snd for_each]. eff_simpl. cbn [br_sv2 set_br_sv2 set_up_ct set_up_transport up_plain]. rewrite Hpl, appendBytes_ok. cbn [app].
  rewrite splitFrames_one by done. cbn [fst snd for_each]. eff_simpl. rewrite !drop_ge by (unfold zlen; lia).
  match goal with |- context [up_dispatch f ?z] => replace z with (set_br_sv2 (set_up_transport (Some t') (br_sv2 b)) b) end.
  - destruct (up_dispatch f _) as [[]]; done.
  - destruct b as [c u]. cbn in *. destruct u. cbn in *. by subst.
Qed.

(** What an announced job does. *)
Lemma job_effect j b : let b' := (onSv2Job j b).2 in
  (onSv2Job j b).1 = Ok tt /\ br_sv2 b' = br_sv2 b /\ br_lastJob b' = Some j /\ br_lastPrevHash b' = br_lastPrevHash b /\
  br_jobIdMap b' = trim_ids (map_set (v1_job_id (br_nextV1JobNum b)) (nemj_jobId j) (br_jobIdMap b)) /\
  cstate (br_v1 b') = cstate (br_v1 b) /\ destroyed (br_v1 b') = destroyed (br_v1 b) /\
  (forall ph, br_lastPrevHash b = Some ph -> destroyed (br_v1 b) = false ->
     sent (br_v1 b') = sent (br_v1 b) ++ [WNotify (js "mining.notify") (translated_notify (v1_job_id (br_nextV1JobNum b)) j ph)]).
Proof.
  unfold onSv2Job. eff_simpl. cbn. destruct (br_lastPrevHash b) as [ph|] eqn:E; cbn.
  - unfold v1, sendNotify, StratumClient.write. eff_simpl. cbn. destruct (destroyed (br_v1 b)) eqn:Ed; cbn; rewrite ?Ed, ?E; repeat split; try done; intros ph' [= <-] _; done.
  - rewrite E. repeat split; done.
Qed.

Lemma trim_ids_get k v m : zlen m <= 64 -> map_get k (trim_ids (map_set k v m)) = Some v.
Proof.
  intros Hm. unfold trim_ids. destruct (Z.ltb_spec 64 (zlen (map_set k v m))) as [Hl|_]; [|apply map_set_get].
  assert (k ∉ m.*1) as Hk.
  { intros Hin. pose proof (f_equal length (map_set_keys k v m Hin)) as E. rewrite !length_fmap in E. unfold zlen in *. lia. }
  rewrite map_set_fresh in Hl |- * by done. destruct m as [|y m]; [done|]. cbn [app tail]. cbn in Hk. apply not_elem_of_cons in Hk as [_ Hk].
  rewrite <- map_set_fresh by done. apply map_set_get.
Qed.

Definition received (f : Sv2Frame) (b : Bridge) : Bridge := set_br_sv2 (set_up_received (up_received (br_sv2 b) ++ [f]) (br_sv2 b)) b.
Lemma dispatch_job f b j : msgType (header f) = MSG_NEW_EXT_MINING_JOB -> decodeNewExtendedMiningJob (payload f) = Ok j ->
  up_dispatch f b = onSv2Job j (received f b).
Proof. intros Em Ed. unfold up_dispatch. rewrite Em. unfold sv2. eff_simpl. cbn [Z.eqb Pos.eqb MSG_NEW_EXT_MINING_JOB MSG_SETUP_CONNECTION_SUCCESS
  MSG_SETUP_CONNECTION_ERROR MSG_OPEN_EXT_CHANNEL_SUCCESS MSG_OPEN_EXT_CHANNEL_ERROR]. by rewrite Ed. Qed.
Lemma dispatch_prevhash f b p : msgType (header f) = MSG_SET_NEW_PREV_HASH -> decodeSetNewPrevHash (payload f) = Ok p ->
  up_dispatch f b = onSv2PrevHash p (received f b).
Proof. intros Em Ed. unfold up_dispatch. rewrite Em. unfold sv2. eff_simpl. cbn [Z.eqb Pos.eqb MSG_NEW_EXT_MINING_JOB MSG_SETUP_CONNECTION_SUCCESS
  MSG_SETUP_CONNECTION_ERROR MSG_OPEN_EXT_CHANNEL_SUCCESS MSG_OPEN_EXT_CHANNEL_ERROR MSG_SET_NEW_PREV_HASH]. by rewrite Ed. Qed.

(** What submissions need of the upstream connection. *)
Definition up_session (u : Upstream) := (up_channelId u, up_extranoncePrefix u, up_nextSeq u, up_socket u, up_sent u, t_send <$> up_transport u).

(** The pool announces a job and its parent. *)
Lemma announced key x k b m bm p bp w1 w2 now1 now2 peer peer1 peer2 :
  zlen key = 32 -> 0 <= x -> listening key x k (br_sv2 b) -> zlen (br_jobIdMap b) <= 64 -> destroyed (br_v1 b) = false ->
  NewExtendedMiningJob_ok m -> SetNewPrevHash_ok p -> encodeNewExtendedMiningJob m = Ok bm -> encodeSetNewPrevHash p = Ok bp ->
  x + zlen bm + zlen bp <= MAX_NONCE -> t_send peer = keyed key x -> encryptFrame bm peer = (Ok w1, peer1) -> encryptFrame bp peer1 = (Ok w2, peer2) ->
  let b2 := bridge_run opts [BrUpData k w1 now1; BrUpData k w2 now2] b in
  exists id, last (sent (br_v1 b2)) = Some (WNotify (js "mining.notify") (translated_notify id m p)) /\ map_get id (br_jobIdMap b2) = Some (nemj_jobId m) /\
    br_lastJob b2 = Some m /\ br_lastPrevHash b2 = Some p /\ cstate (br_v1 b2) = cstate (br_v1 b) /\ up_session (br_sv2 b2) = up_session (br_sv2 b).
Proof.
  intros Hk Hx Hl Hids Hd Hm Hp Em Ep Hn Epeer Ew1 Ew2.
  destruct (@msg_law _ NewExtendedMiningJob_Message m Hm) as (pm & Fm & Bm & Em' & Dm). destruct (@msg_law _ SetNewPrevHash_Message p Hp) as (pp & Fp & Bp & Ep' & Dp).
  cbn [msg_encode msg_decode msg_sent msg_type msg_channel NewExtendedMiningJob_Message SetNewPrevHash_Message] in Fm, Fp, Bm, Bp, Em', Ep', Dm, Dp. rewrite Em in Em'. rewrite Ep in Ep'. injection Em' as ->. injection Ep' as ->.
  pose proof (zlen_nonneg (frame_bytes (message_frame MSG_SET_NEW_PREV_HASH true pp))).
  destruct (step_frame key x k b _ w1 now1 peer peer1 Hk Hx Hl Fm Bm ltac:(lia) Epeer Ew1) as (t & y & Et & Ey & Hy & Hl1 & E1).
  rewrite (dispatch_job _ _ m) in E1 by done. set (b0 := received _ _) in E1.
  destruct (job_effect m b0) as (_ & F2 & F3 & F4 & F5 & F6 & F7 & _). rewrite <- E1 in F2, F3, F4, F5, F6, F7. set (b1 := (bridge_step opts _ b).2) in *.
  assert (listening key y k (br_sv2 b1)) as Hl1' by (rewrite F2; destruct Hl1; by split).
  destruct (step_frame key y k b1 _ w2 now2 peer1 peer2 Hk ltac:(lia) Hl1' Fp Bp ltac:(lia) Ey Ew2) as (t2 & z & Et2 & _ & _ & _ & E2).
  rewrite (dispatch_prevhash _ _ p) in E2 by done. set (b1' := received _ (set_br_sv2 _ b1)) in E2.
  assert ((bridge_step opts (BrUpData k w2 now2) b1).2 = (onSv2Job m (set_br_lastPrevHash (Some p) b1')).2) as E3.
  { rewrite E2. unfold onSv2PrevHash. eff_simpl. cbn [br_lastJob set_br_lastPrevHash]. unfold b1', received. cbn. by rewrite F3. }
  destruct (job_effect m (set_br_lastPrevHash (Some p) b1')) as (_ & G2 & G3 & G4 & G5 & G6 & G7 & G8). rewrite <- E3 in G2, G3, G4, G5, G6, G7, G8.
  intros b2. change b2 with (bridge_step opts (BrUpData k w2 now2) b1).2. eexists.
  split; [rewrite (G8 p eq_refl); [by rewrite last_snoc|cbn; by rewrite F7]|].
  split; [rewrite G5; apply trim_ids_get; cbn; rewrite F5; by apply trim_ids_zlen|]. split; [exact G3|]. split; [exact G4|].
  split; [rewrite G6; cbn; by rewrite F6|]. rewrite G2. cbn in Et2. rewrite F2 in Et2. cbn in Et2. injection Et2 as <-.
  unfold up_session, b1', received. cbn. rewrite F2. cbn. by rewrite Et.
Qed.

(** ** Shares of the miner *)

(** The parameters of [mining.submit]. *)
Definition submit_params (user id : jsstr) (en2 : bytes) (ntime nonce : Z) : list jval :=
  [JStr user; JStr id; JStr (bytesToHex en2); JStr (padStart 8 48 (to_radix 16 ntime)); JStr (padStart 8 48 (to_radix 16 nonce))].

Lemma parse_param n : uint 32 n -> exists x, parseInt16_of (JStr (padStart 8 48 (to_radix 16 n))) = Ok x /\ num_u32 x = n.
Proof.
  intros Hn. exists (num_of_Z n). unfold parseInt16_of, parseInt16. cbn [String mbind res_bind]. rewrite parseInt_hex_roundtrip by (unfold uint in Hn; lia).
  split; [done|]. by apply num_u32_of_Z.
Qed.

(** A frame written to the pool. *)
Lemma up_write_sent key n wire u t : 0 <= n -> n + zlen wire <= MAX_NONCE -> is_Some (up_socket u) -> up_transport u = Some t -> t_send t = keyed key n ->
  zlen key = 32 -> (up_write wire u).1 = Ok tt /\ up_sent (up_write wire u).2 = up_sent u ++ [wire].
Proof.
  intros Hn Hl [s Es] Et Ek Hk. destruct (encryptFrame_ok key Hk wire n (t_recv t) Hn Hl) as (ps & cs & _ & _ & _ & E).
  rewrite <- Ek in E. destruct t as [tx rx]. cbn in E. unfold up_write, socket_write. eff_simpl. rewrite Et, Es, E. cbn. by rewrite Es.
Qed.

Lemma submitExtendedShare_sent args wire u : encodeSubmitSharesExtended (submit_message (up_channelId u) (up_nextSeq u) args) = Ok wire ->
  let u1 := set_up_pendingSubmits (map_set (up_nextSeq u) {| ps_sequenceNumber := up_nextSeq u |} (up_pendingSubmits u)) (set_up_nextSeq (up_nextSeq u + 1) u) in
  (up_write wire u1).1 = Ok tt ->
  (submitExtendedShare args u).1 = Ok (up_nextSeq u, None) /\ up_sent (submitExtendedShare args u).2 = up_sent (up_write wire u1).2.
Proof.
  intros E u1 Hw. unfold submitExtendedShare, try_catch. eff_simpl. rewrite E. change (up_pendingSubmits (set_up_nextSeq (up_nextSeq u + 1) u)) with (up_pendingSubmits u). fold u1.
  destruct (up_write wire u1) as [r u2]. cbn in Hw. subst r. done.
Qed.

(** A request that [v1_submit] handles without an exception. *)
Lemma on_rpc_submit req b b' : prop_of req (js "method") = Ok (JStr (js "mining.submit")) ->
  v1_submit req (set_br_requests (br_requests b ++ [req]) b) = (Ok tt, b') -> on_rpc req b = (Ok tt, b').
Proof.
  intros Em E. unfold on_rpc, onV1, try_catch. unfold mbind at 1, eff_bind at 1, modify at 1. cbv beta iota.
  unfold mbind at 1, eff_bind at 1. rewrite Em. cbv beta iota delta [lift].
  assert (forall b, v1_dispatch req (JStr (js "mining.submit")) b = v1_submit req b) as -> by (intros ?; reflexivity). by rewrite E.
Qed.

(** The share of an authorized miner goes to the pool under the pool's number of the job. *)
Lemma submission key n b m p t rid req user id jid en2 ntime nonce :
  zlen key = 32 -> 0 <= n -> n + 6 + SV2_MAX_PAYLOAD_LEN <= MAX_NONCE -> cstate (br_v1 b) = St_authorized -> br_lastJob b = Some m -> br_lastPrevHash b = Some p ->
  map_get id (br_jobIdMap b) = Some jid -> jid <> 0 -> uint 32 jid -> uint 32 (nemj_version m) -> uint 32 (up_channelId (br_sv2 b)) -> uint 32 (up_nextSeq (br_sv2 b)) ->
  is_Some (up_socket (br_sv2 b)) -> up_transport (br_sv2 b) = Some t -> t_send t = keyed key n ->
  prop_of req (js "id") = Ok rid -> prop_of req (js "method") = Ok (JStr (js "mining.submit")) ->
  prop_of req (js "params") = Ok (JArr (submit_params user id en2 ntime nonce)) ->
  bytes_ok en2 -> zlen en2 <= 255 -> uint 32 ntime -> uint 32 nonce ->
  exists f, frame_ok f /\ up_sent (br_sv2 (on_rpc req b).2) = up_sent (br_sv2 b) ++ [frame_bytes f] /\
    msgType (header f) = MSG_SUBMIT_SHARES_EXTENDED /\
    decodeSubmitSharesExtended (payload f) = Ok {| ssx_channelId := up_channelId (br_sv2 b); ssx_sequenceNumber := up_nextSeq (br_sv2 b);
      ssx_jobId := jid; ssx_nonce := nonce; ssx_ntime := ntime; ssx_version := nemj_version m; ssx_extranonce := en2 |}.
Proof.
  intros Hk Hn Hl Hc Hj Hp Hid Hjid Hu Hv Hch Hseq Hs Et Ek Rid Rm Rp Hb Hz Hnt Hno.
  destruct (parse_param ntime Hnt) as (nt & Ent & Nt). destruct (parse_param nonce Hno) as (no & Eno & No).
  set (x := submit_message (up_channelId (br_sv2 b)) (up_nextSeq (br_sv2 b))
    {| sh_nonce := no; sh_ntime := nt; sh_version := num_of_Z (nemj_version m); sh_extranonce := en2; sh_jobId := jid |}).
  assert (x = {| ssx_channelId := up_channelId (br_sv2 b); ssx_sequenceNumber := up_nextSeq (br_sv2 b);
      ssx_jobId := jid; ssx_nonce := nonce; ssx_ntime := ntime; ssx_version := nemj_version m; ssx_extranonce := en2 |}) as Ex.
  { unfold x, submit_message. cbn. by rewrite Nt, No, num_u32_of_Z. }
  assert (SubmitSharesExtended_ok x) as Hx by (rewrite Ex; repeat split; cbn; done || apply Hch || apply Hseq || apply Hu || apply Hv || apply Hno || apply Hnt).
  destruct (@msg_law _ SubmitSharesExtended_Message x Hx) as (px & Fx & _ & Enc & Dec).
  cbn [msg_encode msg_decode msg_sent msg_type msg_channel SubmitSharesExtended_Message] in Fx, Enc, Dec.
  exists (message_frame MSG_SUBMIT_SHARES_EXTENDED true px). split; [done|]. split; [|by rewrite <- Ex].
  set (u1 := set_up_pendingSubmits (map_set (up_nextSeq (br_sv2 b)) {| ps_sequenceNumber := up_nextSeq (br_sv2 b) |} (up_pendingSubmits (br_sv2 b)))
    (set_up_nextSeq (up_nextSeq (br_sv2 b) + 1) (br_sv2 b))).
  destruct (up_write_sent key n (frame_bytes (message_frame MSG_SUBMIT_SHARES_EXTENDED true px)) u1 t) as [W1 W2]; [done| |done..|].
  { rewrite frame_bytes_zlen. destruct Fx as (_ & _ & _ & Fx). unfold SV2_HEADER_LEN in *. lia. }
  assert (v1_share (submit_params user id en2 ntime nonce) m jid =
    Ok {| sh_nonce := no; sh_ntime := nt; sh_version := num_of_Z (nemj_version m); sh_extranonce := en2; sh_jobId := jid |}) as Es.
  { unfold v1_share, submit_params. cbn [from_option Datatypes.id lookup list_lookup truthy hexToBytes_of]. rewrite hexToBytes_bytesToHex by done. cbn [mbind res_bind].
    rewrite Ent, Eno. done. }
  destruct (submitExtendedShare_sent _ _ (br_sv2 b) Enc W1) as [S1 S2]. fold u1 in S2. rewrite W2 in S2.
  destruct (v1_submit req (set_br_requests (br_requests b ++ [req]) b)) as [r b'] eqn:E.
  assert (r = Ok tt /\ up_sent (br_sv2 b') = up_sent (br_sv2 b) ++ [frame_bytes (message_frame MSG_SUBMIT_SHARES_EXTENDED true px)]) as [-> E'].
  { assert (submit_params user id en2 ntime nonce !! 1%nat = Some (JStr id)) as E1 by done.
    revert E. unfold v1_submit, add_task, sv2. eff_simpl. rewrite Rid, Rp. cbn [set_br_requests br_v1 br_lastJob br_lastPrevHash br_jobIdMap iterate].
    rewrite Hj, Hp, E1, Hid, bool_decide_true by done. cbn [negb from_option Datatypes.id]. rewrite (proj2 (Z.eqb_neq _ _)), Es by done. change (br_sv2 (set_br_requests _ b)) with (br_sv2 b).
    destruct (submitExtendedShare _ (br_sv2 b)) as [r' u']. cbn in S1, S2. subst r'. intros [= <- <-]. done. }
  by rewrite (on_rpc_submit req b b' Rm E).
Qed.
End Bridge.

(** The messages of a job. *)
Lemma built_job ch job jid m bm : buildNewExtendedJob ch job jid = Ok (m, bm) ->
  encodeNewExtendedMiningJob m = Ok bm /\ nemj_channelId m = ch_id ch /\ nemj_jobId m = jid.
Proof.
  unfold buildNewExtendedJob. destruct (merklePathLE job) as [path|]; [|done]. cbn [mbind res_bind].
  destruct (hexToBytes (coinb1Hex job)) as [c1|]; [|done]. cbn [mbind res_bind]. destruct (hexToBytes (coinb2Hex job)) as [c2|]; [|done]. cbn [mbind res_bind].
  destruct (encodeNewExtendedMiningJob _) as [bm'|] eqn:E; [|done]. by intros [= <- <-].
Qed.
Lemma built_prevhash ch job jid p bp : buildSetNewPrevHash ch job jid = Ok (p, bp) -> encodeSetNewPrevHash p = Ok bp.
Proof.
  unfold buildSetNewPrevHash. destruct (hexToBytes _) as [c1|]; [|done]. cbn [mbind res_bind].
  destruct (encodeSetNewPrevHash _) as [bm'|] eqn:E; [|done]. by intros [= <- <-].
Qed.

Section Translated.
Context `{Sha256Ok} `{NoiseCryptoOk} `{Ed25519} (opts : TranslatorOptions) (cfg : StratumConfig).

(** C14: the work a miner gets through the translator is the work the pool checks.  On a
    bridge that the translator reached, with an authorized miner and the channel [ch] open,
    let the pool announce the job and its parent in two frames: the last message to the
    miner is then a [mining.notify], and for every extranonce, time and nonce the miner
    submits for its job id, the translator sends the pool one frame, a share for the pool's
    channel and job, and the header the pool builds and hashes for that share is the one
    the miner made of the notification and of the extranonce it was given. *)
Theorem translated_work es i b key x k key' n t ch job jid m bm p bp peer peer1 peer2 w1 w2 now1 now2 :
  tr_objs (tr_run opts cfg es init_translator) !! i = Some b ->
  listening key x k (br_sv2 b) -> zlen key = 32 -> 0 <= x -> x + zlen bm + zlen bp <= MAX_NONCE ->
  up_transport (br_sv2 b) = Some t -> t_send t = keyed key' n -> zlen key' = 32 -> 0 <= n -> n + 6 + SV2_MAX_PAYLOAD_LEN <= MAX_NONCE ->
  destroyed (br_v1 b) = false -> cstate (br_v1 b) = St_authorized -> uint 32 (up_nextSeq (br_sv2 b)) ->
  up_channelId (br_sv2 b) = ch_id ch -> up_extranoncePrefix (br_sv2 b) = ch_extranoncePrefix ch ->
  zlen (ch_extranoncePrefix ch) + ch_extranonceSize ch = SV2_EXTRANONCE_TOTAL -> bytes_ok (ch_extranoncePrefix ch) ->
  jid <> 0 -> buildNewExtendedJob ch (ctx job) jid = Ok (m, bm) -> buildSetNewPrevHash ch job jid = Ok (p, bp) ->
  NewExtendedMiningJob_ok m -> SetNewPrevHash_ok p ->
  t_send peer = keyed key x -> encryptFrame bm peer = (Ok w1, peer1) -> encryptFrame bp peer1 = (Ok w2, peer2) ->
  let b2 := bridge_run opts [BrUpData k w1 now1; BrUpData k w2 now2] b in
  exists id params, last (sent (br_v1 b2)) = Some (WNotify (js "mining.notify") params) /\ params !! 0%nat = Some (JStr id) /\
    forall req rid user en2 ntime nonce, prop_of req (js "id") = Ok rid -> prop_of req (js "method") = Ok (JStr (js "mining.submit")) ->
      prop_of req (js "params") = Ok (JArr (submit_params user id en2 ntime nonce)) ->
      bytes_ok en2 -> zlen en2 <= 255 -> uint 32 ntime -> uint 32 nonce ->
      exists f y, frame_ok f /\ up_sent (br_sv2 (on_rpc req b2).2) = up_sent (br_sv2 b2) ++ [frame_bytes f] /\
        msgType (header f) = MSG_SUBMIT_SHARES_EXTENDED /\ decodeSubmitSharesExtended (payload f) = Ok y /\
        ssx_channelId y = ch_id ch /\ ssx_jobId y = jid /\
        forall s bd, submit_input (submit_args ch job (ssx_sequenceNumber y) (ssx_nonce y) (ssx_ntime y) (ssx_version y) (ssx_extranonce y)) = Ok s ->
          buildHeader s = Ok bd ->
          v1_work params (bytesToHex (up_extranoncePrefix (br_sv2 b2))) (bytesToHex en2) ntime nonce = Some (unserialize (b_header bd)).
Proof.
  intros Hi Hl Hk Hx Hn Et Ets Hk' Hn0 Hn' Hd Hc Hseq Hch Hpre Hw Hb Hjid Em Ep Hm Hp Epeer Ew1 Ew2 b2.
  pose proof (Forall_lookup_1 _ _ _ _ (tr_run_ok opts cfg es) Hi) as Hok.
  assert (is_Some (up_socket (br_sv2 b))) as Hs. { apply Hok. destruct (ls_socket _ _ _ _ Hl) as (s & Es & _). apply lookup_lt_Some in Es. lia. }
  pose proof Em as Em'. pose proof Ep as Ep'. apply built_job in Em' as (Eb1 & Ec & Ej). apply built_prevhash in Ep' as Eb2.
  destruct (announced opts key x k b m bm p bp w1 w2 now1 now2 peer peer1 peer2) as (id & N1 & N2 & N3 & N4 & N5 & N6); [done|done|done|apply Hok|done..|].
  fold b2 in N1, N2, N3, N4, N5, N6. injection N6 as U1 U2 U3 U4 U5 U6.
  exists id, (translated_notify id m p). split; [done|]. split; [done|]. intros req rid user en2 ntime nonce R1 R2 R3 Hen Hz Hnt Hno.
  destruct (up_transport (br_sv2 b2)) as [t2|] eqn:Et2; [|rewrite Et in U6; discriminate U6]. rewrite Et in U6. injection U6 as U6.
  destruct (submission key' n b2 m p t2 rid req user id jid en2 ntime nonce) as (f & F1 & F2 & F3 & F4);
    [first [done | rewrite ?N5, ?U1, ?U3, ?U4, ?U6, ?Hch, <- ?Ej, <- ?Ec; first [done | apply Hm]] ..|].
  eexists f, _. split; [done|]. split; [done|]. split; [done|]. split; [exact F4|]. cbn [ssx_channelId ssx_jobId ssx_sequenceNumber ssx_nonce ssx_ntime ssx_version ssx_extranonce]. split; [by rewrite U1, Hch|]. split; [done|].
  intros s bd Es Eb. rewrite U2, Hpre, translated_work_header by done. f_equal. symmetry.
  refine (extended_header _ job jid p bp s bd m bm _ _ _ _ _ _ _ Es Eb Em); done.
Qed.
End Translated.

(** ** Whose pool it is *)
Section Pool.
Context `{NoiseCryptoOk} `{Ed25519} (opts : TranslatorOptions).

(** The first message, on the socket of the connection. *)
Lemma start_handshake ei i0 m1 i1 k u : new_NoiseNX initiator None = Ok i0 -> writeMessage1 ei i0 = (Ok m1, i1) -> up_socket u = Some k ->
  (startHandshake ei u).1 = Ok tt /\ up_nx (startHandshake ei u).2 = Some i1 /\ up_state (startHandshake ei u).2 = UP_HANDSHAKE_M2 /\
  up_sockets (startHandshake ei u).2 = alter (sock_write (le_bytes 2 (zlen m1) ++ m1)) k (up_sockets u).
Proof.
  intros E0 E1 Hk. unfold startHandshake, socket_write. eff_simpl. rewrite E0. eff_simpl. rewrite E1.
  rewrite (ta_set_ok _ _ _ (le_bytes 2 (zlen m1)) (zeros (zlen m1)) []);
    [|by rewrite app_nil_r|by rewrite le_bytes_zlen|apply zlen_zeros, zlen_nonneg]. cbn [up_socket set_up_nx]. rewrite Hk, app_nil_r. done.
Qed.

(** C39: what the translator knows of the pool it talks to.  When message 2 of the handshake
    carries a payload, the connection is only set up if that payload is a certificate that
    the authority's key verifies at this time, for the very static key of the handshake.
    But a responder that sends an empty payload is asked for nothing: whatever its static
    key, the handshake finishes, and the translator's transport keys are that responder's. *)
Theorem pool_identity :
  (forall m2 now u x, up_nx u = Some x -> (finish_handshake opts m2 now u).1 = Ok tt ->
     exists fin, (readMessage2 m2 x).1 = Ok fin /\
       (default [] (responderPayload fin) = [] \/
        exists payload cert v, responderPayload fin = Some payload /\ decodeCertificate payload = Ok cert /\
          verifyCertificate cert (to_authorityPub opts) now = Ok v /\ cert_ok v = true /\ remoteStaticPub fin = Some (cert_publicKey cert))) /\
  (forall sk ei er d1 d2 u k now, zlen ei = 32 -> zlen er = 32 -> zlen (priv sk) = 32 -> pub sk = x25519_getPublicKey (priv sk) ->
     dh er (x25519_getPublicKey ei) = Ok d1 -> dh (priv sk) (x25519_getPublicKey ei) = Ok d2 -> up_socket u = Some k ->
     exists m1 m2 r0 r1 r2 b, new_NoiseNX responder (Some sk) = Ok r0 /\ readMessage1 m1 r0 = (Ok tt, r1) /\ writeMessage2 er [] r1 = (Ok m2, r2) /\
       (finishResponder r2).1 = Ok b /\
       let u1 := (startHandshake ei u).2 in
       (startHandshake ei u).1 = Ok tt /\ up_sockets u1 = alter (sock_write (le_bytes 2 (zlen m1) ++ m1)) k (up_sockets u) /\ (finish_handshake opts m2 now u1).1 = Ok tt /\
       up_transport (finish_handshake opts m2 now u1).2 = Some {| t_send := recvCipher b; t_recv := sendCipher b |}).
Proof.
  split.
  - intros m2 now u x Hx. unfold finish_handshake. eff_simpl. rewrite Hx. destruct (readMessage2 m2 x) as [[fin|e] x']; [|done]. cbn [fst]. intros Hf. exists fin. split; [done|].
    destruct (responderPayload fin) as [[|y l]|]; [by left| |by left]. right. revert Hf. cbv beta iota.
    destruct (decodeCertificate (y :: l)) as [cert|] eqn:Ed; [|done]. destruct (verifyCertificate cert (to_authorityPub opts) now) as [v|] eqn:Ev; [|done].
    unfold throw_if. destruct (cert_ok v) eqn:Ec; [|done]. cbn [negb]. case_bool_decide as Eq; [|done]. intros _. exists (y :: l), cert, v. auto.
  - intros sk ei er d1 d2 u k now Hi Hr Hs Hp D1 D2 Hu.
    destruct (handshake_run sk ei er [] d1 d2 Hi Hr Hs Hp D1 D2) as (i0 & m1 & i1 & r0 & r1 & m2 & r2 & a & b & E1 & E2 & E3 & E4 & E5 & E6 & E7 & _ & K1 & K2 & _ & _ & _ & _ & K3).
    exists m1, m2, r0, r1, r2, b. do 4 (split; [done|]). intros u1. destruct (start_handshake ei i0 m1 i1 k u E1 E2 Hu) as (S1 & S2 & _ & S3). fold u1 in S2, S3.
    split; [done|]. split; [done|]. unfold finish_handshake. eff_simpl. rewrite S2. destruct (readMessage2 m2 i1) as [r x']. cbn in E6. subst r. cbn.
    rewrite K3. cbn. by rewrite K1, K2.
Qed.
End Pool.
