(* ===== verification/TranslatorExamples.v ===== *)
(** * The translator: a run

    A V1 miner subscribes through the translator, is authorized, and gets a share accepted
    by a pool, with toy cryptography: the witnesses of the theorems of [TranslatorProofs]
    and [TranslatorWork]. *)

From S2P Require Import Prelude JsString JsMap JsNumber JsRound JsFormat Effects Json Header Difficulty Vardiff Node JobManager B3Pow PadCache.
From S2P Require Import ShareValidator StratumClient StratumExamples Sv2Types Sv2Messages Noise Sv2Keys Sv2Channel Sv2Server Sv2Wire.
From S2P Require Import Translator TranslatorProofs TranslatorWork.
Import Common Mining CommonMessages MiningMessages.

#[local] Instance tx_sha : Sha256 := example_digest.
#[local] Instance tx_sha_ok : Sha256Ok := example_digest_ok.
#[local] Instance tx_crypto : NoiseCrypto := example_crypto.
#[local] Instance tx_crypto_ok : NoiseCryptoOk := example_crypto_ok.
#[local] Instance tx_ed : Ed25519 := example_ed.

Definition tx_options : TranslatorOptions := {| to_upstreamHost := js "pool"; to_upstreamPort := 3336; to_authorityPub := replicate 32 3 |}.
Abbreviation tx_run := (tr_run tx_options example_config).
Definition tx_line (method : string) (params : list jsstr) : tr_event := TrBridge 0 (BrV1Data (request method params)).
Definition or_default {A} (r : res A) (d : A) : A := match r with Ok a => a | Throw _ => d end.

(** ** The pool *)

(** A responder whose static key no authority has certified: its payload is empty. *)
Definition tx_pool0 : NoiseNX :=
  {| nx_role := responder; nx_sym := new_SymmetricState; nx_e := None; nx_re := None; nx_rs := None; nx_staticKey := Some example_key |}.
Definition tx_pool1 : NoiseNX := Eval vm_compute in (readMessage1 (replicate 32 1) tx_pool0).2.
Definition tx_pool2 : res bytes * NoiseNX := Eval vm_compute in writeMessage2 (replicate 32 2) [] tx_pool1.
Definition tx_transport : NoiseTransport := Eval vm_compute in
  match (finishResponder tx_pool2.2).1 with
  | Ok b => {| t_send := sendCipher b; t_recv := recvCipher b |}
  | Throw _ => {| t_send := new_CipherState None; t_recv := new_CipherState None |}
  end.
Definition tx_message2 : bytes := Eval vm_compute in le_bytes 2 (zlen (or_default tx_pool2.1 [])) ++ or_default tx_pool2.1 [].

(** What the pool encrypts, one message after the other. *)
Definition tx_send (w : res bytes) (t : NoiseTransport) : bytes * NoiseTransport :=
  match encryptFrame (or_default w []) t with (Ok c, t') => (c, t') | (Throw _, t') => ([], t') end.
Definition tx_setup : bytes * NoiseTransport := Eval vm_compute in tx_send (encodeSetupConnectionSuccess {| scs_usedVersion := 2; scs_flags := 0 |}) tx_transport.
Definition tx_open : bytes * NoiseTransport := Eval vm_compute in tx_send (encodeOpenExtendedMiningChannelSuccess {|
  oemcs_requestId := 1; oemcs_channelId := 1; oemcs_target := replicate 32 255; oemcs_extranonceSize := 4; oemcs_extranoncePrefix := [9; 9; 9; 9] |}) tx_setup.2.
Definition tx_job : NewExtendedMiningJob * bytes := Eval vm_compute in
  or_default (buildNewExtendedJob (sv2_channel extended 4) (ctx sv2_job) 5)
    ({| nemj_channelId := 0; nemj_jobId := 0; nemj_minNtime := None; nemj_version := 0; nemj_versionRollingAllowed := true; nemj_merklePath := [];
        nemj_coinbaseTxPrefix := []; nemj_coinbaseTxSuffix := [] |}, []).
Definition tx_prev : SetNewPrevHash * bytes := Eval vm_compute in
  or_default (buildSetNewPrevHash (sv2_channel extended 4) sv2_job 5)
    ({| snph_channelId := 0; snph_jobId := 0; snph_prevHash := []; snph_minNtime := 0; snph_nbits := 0 |}, []).
Definition tx_wire1 : bytes * NoiseTransport := Eval vm_compute in tx_send (Ok tx_job.2) tx_open.2.
Definition tx_wire2 : bytes * NoiseTransport := Eval vm_compute in tx_send (Ok tx_prev.2) tx_wire1.2.
Definition tx_ack : bytes * NoiseTransport := Eval vm_compute in tx_send (encodeSubmitSharesSuccess {|
  ssok_channelId := 1; ssok_lastSequenceNumber := 1; ssok_newSubmitsAcceptedCount := 1; ssok_newSharesSum := 1 |}) tx_wire2.2.

(** ** The miner *)
Definition tx_subscribing : list tr_event :=
  [TrConnect (js "10.0.0.1") 1000; tx_line "mining.subscribe" [js "miner"]; TrBridge 0 (BrUpConnected 0 (replicate 32 1));
   TrBridge 0 (BrUpData 0 tx_message2 1001); TrBridge 0 (BrUpData 0 tx_setup.1 1002); TrBridge 0 (BrUpData 0 tx_open.1 1003)].
Definition tx_authorizing : list tr_event := tx_subscribing ++ [TrBridge 0 (BrResume 0); tx_line "mining.authorize" [js "alice.rig"]].
Definition tx_submitting : list tr_event := tx_authorizing ++
  [TrBridge 0 (BrUpData 0 tx_wire1.1 1004); TrBridge 0 (BrUpData 0 tx_wire2.1 1005);
   tx_line "mining.submit" [js "alice.rig"; js "00000002"; js "01020304"; js "000003e9"; js "0000004d"];
   TrBridge 0 (BrUpData 0 tx_ack.1 1006); TrBridge 0 (BrResume 0)].

Definition no_bridge : Bridge := new_Bridge (new_StratumClient example_config 0 [] [] 0).
Definition tx_bridge (es : list tr_event) : Bridge := default no_bridge (tr_objs (tx_run es init_translator) !! 0%nat).
Definition tx_authorized : Bridge := Eval vm_compute in tx_bridge tx_authorizing.
Definition tx_accepted : Bridge := Eval vm_compute in tx_bridge tx_submitting.

Lemma translated_acceptance_witness : sharesAccepted (br_v1 tx_accepted) = 1 /\
  exists answered, zlen answered = 1 /\ NoDup answered.*1 /\ Forall (fun x => submitted x.1 x.2 tx_accepted /\ acked x.1 tx_accepted) answered.
Proof.
  split; [reflexivity|]. apply (translated_acceptance tx_options example_config tx_submitting 0 tx_accepted). vm_compute. reflexivity.
Defined.

Lemma translated_frames_witness : exists w, up_sent (br_sv2 tx_accepted) !! 2%nat = Some w /\ typed_frame w.
Proof.
  eexists. split; [vm_compute; reflexivity|]. eapply (translated_frames tx_options example_config tx_submitting 0 tx_accepted).
  - vm_compute. reflexivity.
  - apply (list_elem_of_lookup_2 _ 2). vm_compute. reflexivity.
Defined.

Definition tx_subscribed : Bridge := Eval vm_compute in tx_bridge tx_subscribing.
Definition tx_opening : bytes := Eval vm_compute in default [] (up_sent (br_sv2 tx_subscribed) !! 1%nat).
Definition tx_submit_request : jval := Eval vm_compute in or_default (JSON_parse (request_text "mining.submit" [js "alice.rig"])) JNull.

Lemma translated_anonymous_witness : encodeOpenExtendedMiningChannel (open_message v1_anon) = Ok tx_opening /\
  sent (br_v1 (onV1 tx_submit_request (tr_resume 0 tx_subscribed).2).2) =
    sent (br_v1 (tr_resume 0 tx_subscribed).2) ++ [WError (JNum n1) 24 (js "unauthorized worker")].
Proof.
  destruct (translated_anonymous tx_options example_config) as [Ho Hs]. split.
  - apply (Ho tx_subscribing 0%nat tx_subscribed).
    + vm_compute. reflexivity.
    + constructor; [|constructor]. unfold is_call. vm_compute. discriminate.
    + apply (list_elem_of_lookup_2 _ 1). vm_compute. reflexivity.
    + reflexivity.
  - apply (Hs tx_subscribed 0%nat (JNum n1) 0%nat tx_submit_request (JNum n1)); vm_compute; reflexivity.
Defined.

Lemma pool_identity_witness : exists m1 m2 r0 r1 r2 b, new_NoiseNX responder (Some example_key) = Ok r0 /\ readMessage1 m1 r0 = (Ok tt, r1) /\
  writeMessage2 (replicate 32 2) [] r1 = (Ok m2, r2) /\ (finishResponder r2).1 = Ok b /\
  let u1 := (startHandshake (replicate 32 1) (set_up_socket (Some 0%nat) new_Upstream)).2 in
  up_transport (finish_handshake tx_options m2 1000 u1).2 = Some {| t_send := recvCipher b; t_recv := sendCipher b |}.
Proof.
  destruct (pool_identity tx_options) as [_ Hp].
  destruct (Hp example_key (replicate 32 1) (replicate 32 2) (replicate 32 3) (replicate 32 6) (set_up_socket (Some 0%nat) new_Upstream) 0%nat 1000)
    as (m1 & m2 & r0 & r1 & r2 & b & E1 & E2 & E3 & E4 & _ & _ & _ & E5); try reflexivity.
  exists m1, m2, r0, r1, r2, b. do 4 (split; [assumption|]). exact E5.
Defined.

(** ** The work *)
Definition tx_key : bytes := Eval vm_compute in default [] (cs_k (t_send tx_open.2)).
Definition tx_nonce : Z := Eval vm_compute in cs_n (t_send tx_open.2).
Definition tx_up : NoiseTransport := Eval vm_compute in default tx_transport (up_transport (br_sv2 tx_authorized)).
Definition tx_key' : bytes := Eval vm_compute in default [] (cs_k (t_send tx_up)).
Definition tx_nonce' : Z := Eval vm_compute in cs_n (t_send tx_up).
Definition tx_b2 : Bridge := bridge_run tx_options [BrUpData 0 tx_wire1.1 1004; BrUpData 0 tx_wire2.1 1005] tx_authorized.

Ltac fits := repeat match goal with
  | |- _ /\ _ => split
  | |- Forall _ (_ :: _) => constructor
  | |- Forall _ [] => constructor
  | |- True => exact I
  | |- _ <= _ => vm_compute; discriminate
  | |- _ < _ => vm_compute; reflexivity
  | |- zlen _ = _ => vm_compute; reflexivity
  | |- _ => progress (cbv [NewExtendedMiningJob_ok SetNewPrevHash_ok hashes upto sized bytes_ok uint is_byte from_option tx_job tx_prev fst
      nemj_channelId nemj_jobId nemj_minNtime nemj_version nemj_merklePath nemj_coinbaseTxPrefix nemj_coinbaseTxSuffix
      snph_channelId snph_jobId snph_prevHash snph_minNtime snph_nbits])
  end.
Lemma tx_job_fits : NewExtendedMiningJob_ok tx_job.1.
Proof. fits. Qed.
Lemma tx_prev_fits : SetNewPrevHash_ok tx_prev.1.
Proof. fits. Qed.

Lemma translated_work_witness : exists id params, last (sent (br_v1 tx_b2)) = Some (WNotify (js "mining.notify") params) /\ params !! 0%nat = Some (JStr id) /\
  forall req, prop_of req (js "id") = Ok JNull -> prop_of req (js "method") = Ok (JStr (js "mining.submit")) ->
    prop_of req (js "params") = Ok (JArr (submit_params (js "alice.rig") id [1; 2; 3; 4] 1001 77)) ->
    exists f y, up_sent (br_sv2 (on_rpc req tx_b2).2) = up_sent (br_sv2 tx_b2) ++ [frame_bytes f] /\ decodeSubmitSharesExtended (payload f) = Ok y /\
      ssx_channelId y = 1 /\ ssx_jobId y = 5.
Proof.
  destruct (translated_work tx_options example_config tx_authorizing 0 tx_authorized tx_key tx_nonce 0 tx_key' tx_nonce' tx_up (sv2_channel extended 4) sv2_job 5
    tx_job.1 tx_job.2 tx_prev.1 tx_prev.2 tx_open.2 tx_wire1.2 tx_wire2.2 tx_wire1.1 tx_wire2.1 1004 1005) as (id & params & E1 & E2 & Hs).
  - vm_compute. reflexivity.
  - split; [eexists; split; [vm_compute; reflexivity|split; reflexivity]|split; discriminate|reflexivity|reflexivity|].
    exists tx_up. split; reflexivity.
  - reflexivity.
  - vm_compute. discriminate.
  - vm_compute. discriminate.
  - reflexivity.
  - reflexivity.
  - reflexivity.
  - vm_compute. discriminate.
  - vm_compute. discriminate.
  - reflexivity.
  - reflexivity.
  - split; vm_compute; [discriminate|reflexivity].
  - reflexivity.
  - reflexivity.
  - reflexivity.
  - repeat constructor; unfold is_byte; lia.
  - discriminate.
  - vm_compute. reflexivity.
  - vm_compute. reflexivity.
  - exact tx_job_fits.
  - exact tx_prev_fits.
  - reflexivity.
  - vm_compute. reflexivity.
  - vm_compute. reflexivity.
  - exists id, params. split; [exact E1|]. split; [exact E2|]. intros req R1 R2 R3.
    destruct (Hs req JNull (js "alice.rig") [1; 2; 3; 4] 1001 77 R1 R2 R3) as (f & y & _ & F2 & _ & F4 & F5 & F6 & _).
    + repeat constructor; unfold is_byte; lia.
    + vm_compute. discriminate.
    + split; lia.
    + split; lia.
    + exists f, y. split; [exact F2|]. split; [exact F4|]. split; [exact F5|exact F6].
Defined.

(** ** Ends of the process *)

(** A worker name of 256 characters does not fit the setup message, which is encoded in the
    handler of the upstream socket, outside of any [try]: the translator ends, for all its
    miners. *)
Lemma long_name_ends_translator : tr_crashed (tx_run
  [TrConnect (js "10.0.0.1") 1000; tx_line "mining.authorize" [replicate 256 97]; tx_line "mining.subscribe" [js "miner"];
   TrBridge 0 (BrUpConnected 0 (replicate 32 1)); TrBridge 0 (BrUpData 0 tx_message2 1001)] init_translator) = true.
Proof. vm_compute. reflexivity. Qed.

(** So does the line [null]: the [catch] clause reads [m.method] again. *)
Lemma null_line_ends_translator : tr_crashed (tx_run
  [TrConnect (js "10.0.0.1") 1000; TrBridge 0 (BrV1Data (js "null" ++ [10]))] init_translator) = true.
Proof. vm_compute. reflexivity. Qed.
