(* ===== verification/WebAccounts.v ===== *)
(** * The accounts of the web site ([pool/src/web])

    [routes/auth.ts], the settings of [routes/dashboard.ts], the middleware they run behind
    and [session-store.ts].  A request is a program: it runs to its first [await], and each
    [await] is one atomic access to the database or to a library, between which other
    requests go on.  The session object of [cookie-session] is a signed cookie: the client
    holds it, and may send back any cookie that the server ever set.  [argon2] and [otplib]
    are the class [WebLibs]; the Unicode case mapping is a parameter of it too.  A rejected
    promise of an [async] handler, which Express 4 does not look at, ends the process. *)

From S2P Require Import Prelude JsString JsMap JsNumber JsRound JsFormat Effects Json Header Address Numeric.

(** ** Data *)

(** The cookie.  The member [userId] is only ever deleted. *)
Record PoolSession := mkPoolSession {
  sid : option jsstr;
  pendingTotpUserId : option Z;
  pendingTotpNext : option jsstr;
  pendingTotpSecret : option jsstr;
  csrf_token : option jsstr;
  flashSuccess : option jsstr;
  flashError : option jsstr
}.
#[global] Instance PoolSession_eq_dec : EqDecision PoolSession.
Proof. solve_decision. Defined.
Definition empty_session : PoolSession := mkPoolSession None None None None None None None.
Definition set_sid (x : option jsstr) (s : PoolSession) : PoolSession :=
  mkPoolSession x (pendingTotpUserId s) (pendingTotpNext s) (pendingTotpSecret s) (csrf_token s) (flashSuccess s) (flashError s).
Definition set_pending (u : option Z) (next : option jsstr) (s : PoolSession) : PoolSession :=
  mkPoolSession (sid s) u next (pendingTotpSecret s) (csrf_token s) (flashSuccess s) (flashError s).
Definition set_pendingSecret (x : option jsstr) (s : PoolSession) : PoolSession :=
  mkPoolSession (sid s) (pendingTotpUserId s) (pendingTotpNext s) x (csrf_token s) (flashSuccess s) (flashError s).
Definition set_csrf (x : option jsstr) (s : PoolSession) : PoolSession :=
  mkPoolSession (sid s) (pendingTotpUserId s) (pendingTotpNext s) (pendingTotpSecret s) x (flashSuccess s) (flashError s).
Definition clear_flash (s : PoolSession) : PoolSession :=
  mkPoolSession (sid s) (pendingTotpUserId s) (pendingTotpNext s) (pendingTotpSecret s) (csrf_token s) None None.
(** [setFlash(req, "success", msg)], the only kind that is used. *)
Definition setFlash (msg : jsstr) (s : PoolSession) : PoolSession :=
  mkPoolSession (sid s) (pendingTotpUserId s) (pendingTotpNext s) (pendingTotpSecret s) (csrf_token s) (Some msg) (flashError s).

(** The tables. *)
Record account := mkAccount {
  ac_id : Z;
  ac_email : jsstr;
  ac_password_hash : jsstr;
  ac_email_verified : bool;
  ac_totp_secret : option jsstr;
  ac_totp_enabled : bool;
  ac_payout_address : option jsstr;
  ac_minimum_payout : numeric;
  ac_is_admin : bool;
  ac_last_login_at : option Z
}.
Record token_row := { tk_token : jsstr; tk_user : Z; tk_expires : Z }.
Record session_row := { ss_id : jsstr; ss_user : Z; ss_expires : Z; ss_user_agent : jsstr; ss_ip : jsstr }.
(** A mail that was handed to the mail server. *)
Record mail := { ml_to : jsstr; ml_subject : jsstr; ml_text : jsstr }.

Record web_db := mkWebDb {
  accounts : list account;
  verify_tokens : list token_row;
  reset_tokens : list token_row;
  sessions : list session_row;
  next_account : Z;
  outbox : list mail
}.
Definition set_accounts (x : list account) (d : web_db) : web_db :=
  mkWebDb x (verify_tokens d) (reset_tokens d) (sessions d) (next_account d) (outbox d).
Definition set_verify_tokens (x : list token_row) (d : web_db) : web_db :=
  mkWebDb (accounts d) x (reset_tokens d) (sessions d) (next_account d) (outbox d).
Definition set_reset_tokens (x : list token_row) (d : web_db) : web_db :=
  mkWebDb (accounts d) (verify_tokens d) x (sessions d) (next_account d) (outbox d).
Definition set_sessions (x : list session_row) (d : web_db) : web_db :=
  mkWebDb (accounts d) (verify_tokens d) (reset_tokens d) x (next_account d) (outbox d).
Definition set_next_account (x : Z) (d : web_db) : web_db :=
  mkWebDb (accounts d) (verify_tokens d) (reset_tokens d) (sessions d) x (outbox d).
Definition set_outbox (x : list mail) (d : web_db) : web_db :=
  mkWebDb (accounts d) (verify_tokens d) (reset_tokens d) (sessions d) (next_account d) x.

(** Updates of one row. *)
Definition set_hash (h : jsstr) (a : account) : account :=
  mkAccount (ac_id a) (ac_email a) h (ac_email_verified a) (ac_totp_secret a) (ac_totp_enabled a) (ac_payout_address a) (ac_minimum_payout a)
    (ac_is_admin a) (ac_last_login_at a).
Definition set_verified (a : account) : account :=
  mkAccount (ac_id a) (ac_email a) (ac_password_hash a) true (ac_totp_secret a) (ac_totp_enabled a) (ac_payout_address a) (ac_minimum_payout a)
    (ac_is_admin a) (ac_last_login_at a).
Definition set_totp (s : option jsstr) (e : bool) (a : account) : account :=
  mkAccount (ac_id a) (ac_email a) (ac_password_hash a) (ac_email_verified a) s e (ac_payout_address a) (ac_minimum_payout a)
    (ac_is_admin a) (ac_last_login_at a).
Definition set_payout (addr : jsstr) (min : numeric) (a : account) : account :=
  mkAccount (ac_id a) (ac_email a) (ac_password_hash a) (ac_email_verified a) (ac_totp_secret a) (ac_totp_enabled a) (Some addr) min
    (ac_is_admin a) (ac_last_login_at a).
Definition set_last_login (t : Z) (a : account) : account :=
  mkAccount (ac_id a) (ac_email a) (ac_password_hash a) (ac_email_verified a) (ac_totp_secret a) (ac_totp_enabled a) (ac_payout_address a)
    (ac_minimum_payout a) (ac_is_admin a) (Some t).
Definition update_account (uid : Z) (f : account -> account) (d : web_db) : web_db :=
  set_accounts ((fun a => if ac_id a =? uid then f a else a) <$> accounts d) d.

(** ** Requests *)
Inductive method_t := GET | POST.
#[global] Instance method_eq_dec : EqDecision method_t.
Proof. solve_decision. Defined.
Inductive route_t := R_signup | R_verify_email | R_login | R_logout | R_forgot | R_reset | R_2fa_setup | R_2fa_disable | R_2fa_verify
  | R_settings | R_settings_payout | R_settings_password | R_other.
#[global] Instance route_eq_dec : EqDecision route_t.
Proof. solve_decision. Defined.

(** [rq_limited] is the verdict of the rate limiter, [rq_random] and [rq_csrf_random] are
    what [crypto.randomBytes] gives to the handler and to [csrfTokenMiddleware],
    [rq_totp_secret] what [authenticator.generateSecret] gives, and [rq_now] is the clock
    when a code is checked. *)
Record request := {
  rq_method : method_t;
  rq_route : route_t;
  rq_url : jsstr;
  rq_query : jval;
  rq_body : jval;
  rq_csrf_header : option jsstr;
  rq_user_agent : option jsstr;
  rq_ip : option jsstr;
  rq_cookie : PoolSession;
  rq_limited : bool;
  rq_random : bytes;
  rq_csrf_random : bytes;
  rq_totp_secret : jsstr;
  rq_now : Z
}.

(** Of the values given to a view, the error or message, and the secret of [2fa-setup]. *)
Inductive reply :=
| Page (status : Z) (view : string) (message : option jsstr) (secret : option jsstr)
| Redirect (url : jsstr)
| Limited.

(** [safe-next.ts] *)
Definition PREFIXES : list jsstr := [js "/dashboard"; js "/blocks"; js "/getting-started"; js "/admin"].
(** [s.split(c)[0]]. *)
Fixpoint before (c : Z) (s : jsstr) : jsstr :=
  match s with [] => [] | d :: s => if d =? c then [] else d :: before c s end.
Definition safeNext (next : jsstr) : jsstr :=
  if bool_decide (next = js "/") then js "/"
  else if negb (startsWith (js "/") next) || startsWith (js "//") next || includes 92 next || includes 0 next then js "/dashboard"
  else
    let path := before 35 (before 63 next) in
    if existsb (fun prefix => bool_decide (path = prefix) || startsWith (prefix ++ js "/") path) PREFIXES then next else js "/dashboard".

(** [/^[^\s@]+@[^\s@]+\.[^\s@]+$/.test(s) && s.length < 256]: one [@], no white space, and a
    dot in the domain that is neither its first nor its last character. *)
Definition dotted (domain : jsstr) : bool :=
  existsb (fun i => bool_decide (domain !! i = Some 46)) (seq 1 (length domain - 2)).
Definition isEmail (s : jsstr) : bool :=
  let i := indexOf 64 s in
  let domain := drop (Z.to_nat (i + 1)) s in
  (0 <? i) && negb (includes 64 domain) && negb (existsb is_space s) && dotted domain && (zlen s <? 256).

(** [encodeURIComponent(s)]. *)
Definition uri_unreserved (c : Z) : bool :=
  ((65 <=? c) && (c <=? 90)) || ((97 <=? c) && (c <=? 122)) || ((48 <=? c) && (c <=? 57)) || bool_decide (c ∈ js "-_.!~*'()").
Definition uri_byte (b : Z) : jsstr := if uri_unreserved b then [b] else 37 :: toUpperCase (padStart 2 48 (to_radix 16 b)).
Definition encodeURIComponent (s : jsstr) : res jsstr :=
  if wf16 s then Ok (utf8_encode s ≫= uri_byte) else Throw "URI malformed".

(** ** Programs *)

(** What the world gives to one access: the time of the database, whether it fails, the salt
    of [argon2.hash], and the answer of the node. *)
Record env := { e_now : Z; e_fail : bool; e_salt : bytes; e_node : res bool }.

Inductive prog (A : Type) : Type :=
| Return (r : res A)
| Await {X : Type} (m : env -> eff web_db X) (k : res X -> prog A).
Arguments Return {A} r.
Arguments Await {A X} m k.

#[global] Instance prog_ret : MRet prog := fun A a => Return (Ok a).
#[global] Instance prog_bind : MBind prog := fun A B f =>
  fix bind (p : prog A) : prog B :=
    match p with
    | Return (Ok a) => f a
    | Return (Throw e) => Return (Throw e)
    | Await m k => Await m (fun x => bind (k x))
    end.
Definition await {A} (m : env -> eff web_db A) : prog A := Await m Return.
(** [await p.catch(() => a)], also in a [try] whose [catch] gives [a]. *)
Definition await_or {A} (a : A) (m : env -> eff web_db A) : prog A :=
  Await m (fun r => Return (Ok (match r with Ok x => x | Throw _ => a end))).
(** [try { await p }]: the result or the exception. *)
Definition await_res {A} (m : env -> eff web_db A) : prog (res A) := Await m (fun r => Return (Ok r)).
Definition from_res {A} (r : res A) : prog A := Return r.
Definition pthrow {A} (e : string) : prog A := Return (Throw e).

(** A query with the text parameters [l]. *)
Definition sql {A} (l : list jsstr) (m : Z -> eff web_db A) (e : env) : eff web_db A :=
  if e_fail e then throw "connection terminated"
  else if existsb (includes 0) l then throw "invalid byte sequence for encoding UTF8: 0x00"
  else m (e_now e).

(** ** Libraries *)
Class WebLibs := {
  argon2_hash : bytes -> jsstr -> jsstr;
  argon2_verify : jsstr -> jsstr -> res bool;
  totp_check : Z -> jsstr -> jsstr -> res bool;
  toLower : jsstr -> jsstr
}.

Definition network_name (n : network_t) : jsstr := match n with mainnet => js "mainnet" | testnet => js "testnet" | regtest => js "regtest" end.
Record web_config := { cf_baseUrl : jsstr; cf_net : network_t; cf_sessionHours : Z }.

(** ** Statements *)
Definition find_account (p : account -> bool) (d : web_db) : option account := arr_find p (accounts d).
Definition by_email (email : jsstr) (d : web_db) : option account := find_account (fun a => bool_decide (ac_email a = email)) d.
Definition by_id (uid : Z) (d : web_db) : option account := find_account (fun a => ac_id a =? uid) d.

Definition select_email (email : jsstr) : env -> eff web_db (option account) := sql [email] (fun _ => d ← get; mret (by_email email d)).
Definition select_id (uid : Z) : env -> eff web_db (option account) := sql [] (fun _ => d ← get; mret (by_id uid d)).
Definition modify_account (uid : Z) (texts : list jsstr) (f : Z -> account -> account) : env -> eff web_db unit :=
  sql texts (fun now => modify (update_account uid (f now))).

(** The first row with this token that has not expired. *)
Definition live_token (token : jsstr) (now : Z) (l : list token_row) : option Z :=
  tk_user <$> arr_find (fun t => bool_decide (tk_token t = token) && (now <? tk_expires t)) l.
Definition select_verify (token : jsstr) : env -> eff web_db (option Z) :=
  sql [token] (fun now => d ← get; mret (live_token token now (verify_tokens d))).
Definition select_reset (token : jsstr) : env -> eff web_db (option Z) :=
  sql [token] (fun now => d ← get; mret (live_token token now (reset_tokens d))).
Definition drop_tokens (uid : Z) (l : list token_row) : list token_row := filter (fun t => tk_user t <> uid) l.

(** The transaction of a sign-up: the sequence of ids goes on even when it is rolled back. *)
Definition insert_account (email hash : jsstr) (addr : option jsstr) (token : jsstr) : env -> eff web_db unit :=
  sql ([email; hash; token] ++ option_list addr) (fun now =>
    d ← get;
    let uid := next_account d in
    _ ← modify (set_next_account (uid + 1));
    if bool_decide (email ∈ ac_email <$> accounts d) || bool_decide (token ∈ tk_token <$> verify_tokens d) then throw "duplicate key"
    else
      _ ← modify (fun d => set_accounts (accounts d ++ [mkAccount uid email hash false None false addr (Some 100000000) false None]) d);
      modify (fun d => set_verify_tokens (verify_tokens d ++ [{| tk_token := token; tk_user := uid; tk_expires := now + 2 * 86400 |}]) d)).
Definition verify_account (uid : Z) : env -> eff web_db unit :=
  sql [] (fun _ =>
    _ ← modify (update_account uid set_verified);
    modify (fun d => set_verify_tokens (drop_tokens uid (verify_tokens d)) d)).
Definition insert_reset (token : jsstr) (uid : Z) : env -> eff web_db unit :=
  sql [token] (fun now =>
    d ← get;
    if bool_decide (token ∈ tk_token <$> reset_tokens d) then throw "duplicate key"
    else modify (fun d => set_reset_tokens (reset_tokens d ++ [{| tk_token := token; tk_user := uid; tk_expires := now + 2 * 3600 |}]) d)).
Definition reset_password (hash : jsstr) (uid : Z) : env -> eff web_db unit :=
  sql [hash] (fun _ =>
    _ ← modify (update_account uid (set_hash hash));
    modify (fun d => set_reset_tokens (drop_tokens uid (reset_tokens d)) d)).

(** [session-store.ts] *)
Definition insert_session (id : jsstr) (uid hours : Z) (ua ip : jsstr) : env -> eff web_db unit :=
  sql [id; ua; ip] (fun now =>
    d ← get;
    if bool_decide (id ∈ ss_id <$> sessions d) then throw "duplicate key"
    else if negb (bool_decide (uid ∈ ac_id <$> accounts d)) then throw "violates foreign key constraint"
    else modify (fun d => set_sessions (sessions d ++
      [{| ss_id := id; ss_user := uid; ss_expires := now + hours * 3600; ss_user_agent := ua; ss_ip := ip |}]) d)).
Definition live_session (id : jsstr) (now : Z) (d : web_db) : option Z :=
  ss_user <$> arr_find (fun s => bool_decide (ss_id s = id) && (now <? ss_expires s)) (sessions d).
Definition select_session (id : jsstr) : env -> eff web_db (option Z) := sql [id] (fun now => d ← get; mret (live_session id now d)).
Definition delete_session (id : jsstr) : env -> eff web_db unit :=
  sql [id] (fun _ => modify (fun d => set_sessions (filter (fun s => ss_id s <> id) (sessions d)) d)).

(** [sendEmail]: handed over, or not. *)
Definition sendEmail (m : mail) (e : env) : eff web_db unit :=
  if e_fail e then throw "mail server" else modify (fun d => set_outbox (outbox d ++ [m]) d).

(** [String(v ?? "")] of a member. *)
Definition field (v : jval) (key : string) : prog jsstr := x ← from_res (prop_of v (js key)); from_res (String (coalesce x (JStr []))).

Section Handlers.
Context `{WebLibs} (cfg : web_config).

Definition hash_password (password : jsstr) (e : env) : eff web_db jsstr :=
  if e_fail e then throw "argon2" else mret (argon2_hash (e_salt e) password).
Definition verify_password (hash password : jsstr) (e : env) : eff web_db bool := lift (argon2_verify hash password).

Definition createSession (rq : request) (uid : Z) : prog jsstr :=
  let id := bytesToHex (rq_random rq) in
  let ua := take 512 (default [] (rq_user_agent rq)) in
  _ ← await (insert_session id uid (cf_sessionHours cfg) ua (default [] (rq_ip rq)));
  mret id.
Definition userIdForSession (id : jsstr) : prog (option Z) := await (select_session id).
Definition deleteSession (id : jsstr) : prog unit := await (delete_session id).

(** What a handler ends with. *)
Definition answer : Type := reply * PoolSession.

Definition newline : jsstr := [10].
Definition verify_mail (email token : jsstr) : mail := {|
  ml_to := email; ml_subject := js "Verify your B3Chain Pool account";
  ml_text := js "Welcome to the B3Chain mining pool." ++ newline ++ newline ++ js "Click to confirm your email:" ++ newline ++
    cf_baseUrl cfg ++ js "/auth/verify-email?token=" ++ token ++ newline ++ newline ++ js "Link expires in 48 hours." ++ newline |}.
Definition reset_mail (email token : jsstr) : mail := {|
  ml_to := email; ml_subject := js "Reset your B3Chain Pool password";
  ml_text := js "Open this link within 2 hours to reset your password:" ++ newline ++
    cf_baseUrl cfg ++ js "/auth/reset?token=" ++ token ++ newline |}.

(** ** Routes *)
Definition email_of (rq : request) : prog jsstr := x ← field (rq_body rq) "email"; mret (toLower (trim x)).

Definition post_signup (rq : request) (sess : PoolSession) : prog answer :=
  email ← email_of rq;
  password ← field (rq_body rq) "password";
  address ← field (rq_body rq) "payout_address";
  let payoutAddress := trim address in
  let fail msg := mret (Page 400 "auth/signup" (Some msg) None, sess) in
  if negb (isEmail email) then fail (js "Invalid email")
  else if zlen password <? 10 then fail (js "Password must be at least 10 characters")
  else if negb (bool_decide (payoutAddress = [])) && negb (isValidB3AddressForNetwork payoutAddress (cf_net cfg)) then
    fail (js "Payout address is not a valid " ++ network_name (cf_net cfg) ++ js " B3Chain address")
  else
    exists_ ← await (select_email email);
    match exists_ with
    | Some _ => fail (js "Email already registered")
    | None =>
        hash ← await (hash_password password);
        let token := bytesToHex (rq_random rq) in
        _ ← await (insert_account email hash (if bool_decide (payoutAddress = []) then None else Some payoutAddress) token);
        _ ← await_or tt (sendEmail (verify_mail email token));
        mret (Redirect (js "/auth/login"), setFlash (js "Account created. Check your inbox to confirm your email.") sess)
    end.

Definition get_verify_email (rq : request) (sess : PoolSession) : prog answer :=
  token ← field (rq_query rq) "token";
  if bool_decide (token = []) then mret (Page 200 "auth/verify" (Some (js "Check your inbox for a verification link.")) None, sess)
  else
    row ← await (select_verify token);
    match row with
    | None => mret (Page 400 "auth/verify" (Some (js "Invalid or expired verification link.")) None, sess)
    | Some uid =>
        _ ← await (verify_account uid);
        mret (Redirect (js "/auth/login"), setFlash (js "Email verified. You can now log in.") sess)
    end.

Definition post_login (rq : request) (sess : PoolSession) : prog answer :=
  email ← email_of rq;
  password ← field (rq_body rq) "password";
  n ← from_res (prop_of (rq_body rq) (js "next"));
  next ← from_res (String (coalesce n (JStr (js "/dashboard"))));
  let fail := mret (Page 400 "auth/login" (Some (js "Invalid email or password")) None, sess) in
  row ← await (select_email email);
  match row with
  | None => fail
  | Some a =>
      ok ← await_or false (verify_password (ac_password_hash a) password);
      if negb ok then fail
      else if ac_totp_enabled a then
        mret (Redirect (js "/auth/2fa-verify"), set_pending (Some (ac_id a)) (Some (safeNext next)) sess)
      else
        id ← createSession rq (ac_id a);
        _ ← await (modify_account (ac_id a) [] set_last_login);
        mret (Redirect (safeNext next), set_sid (Some id) sess)
  end.

Definition post_logout (sess : PoolSession) : prog answer :=
  _ ← (match sid sess with Some (c :: id) => deleteSession (c :: id) | _ => mret tt end);
  mret (Redirect (js "/"), set_sid None sess).

Definition post_forgot (rq : request) (sess : PoolSession) : prog answer :=
  email ← email_of rq;
  if negb (isEmail email) then mret (Page 400 "auth/forgot" (Some (js "Invalid email")) None, sess)
  else
    row ← await (select_email email);
    _ ← (match row with
         | Some a =>
             let token := bytesToHex (rq_random rq) in
             _ ← await (insert_reset token (ac_id a));
             await_or tt (sendEmail (reset_mail email token))
         | None => mret tt
         end);
    mret (Page 200 "auth/forgot" (Some (js "If that email exists in our system, a reset link is on its way.")) None, sess).

Definition invalid_link (sess : PoolSession) : answer := (Page 400 "error" (Some (js "This reset link is invalid or expired.")) None, sess).
Definition get_reset (rq : request) (sess : PoolSession) : prog answer :=
  token ← field (rq_query rq) "token";
  row ← await (select_reset token);
  mret (match row with None => invalid_link sess | Some _ => (Page 200 "auth/reset" None None, sess) end).

Definition post_reset (rq : request) (sess : PoolSession) : prog answer :=
  token ← field (rq_body rq) "token";
  password ← field (rq_body rq) "password";
  if zlen password <? 10 then mret (Page 400 "auth/reset" (Some (js "Password too short")) None, sess)
  else
    row ← await (select_reset token);
    match row with
    | None => mret (invalid_link sess)
    | Some uid =>
        hash ← await (hash_password password);
        _ ← await (reset_password hash uid);
        mret (Redirect (js "/auth/login"), setFlash (js "Password updated. Please log in.") sess)
    end.

(** [user] is what [loadCurrentUser] found. *)
Definition to_login (sess : PoolSession) : answer := (Redirect (js "/auth/login"), sess).
Definition qrcode (e : env) : eff web_db unit := if e_fail e then throw "qrcode" else mret tt.
Definition get_2fa_setup (rq : request) (user : option account) (sess : PoolSession) : prog answer :=
  match user with
  | None => mret (to_login sess)
  | Some u =>
      row ← await (select_id (ac_id u));
      match row with
      | None => mret (to_login sess)
      | Some a =>
          if ac_totp_enabled a then mret (Page 200 "auth/2fa-setup" None None, sess)
          else
            let secret := rq_totp_secret rq in
            _ ← await qrcode;
            mret (Page 200 "auth/2fa-setup" None (Some secret), set_pendingSecret (Some secret) sess)
      end
  end.
Definition post_2fa_setup (rq : request) (user : option account) (sess : PoolSession) : prog answer :=
  match user, pendingTotpSecret sess with
  | Some u, Some (c :: s) =>
      let secret := c :: s in
      x ← field (rq_body rq) "code";
      let code := trim x in
      ok ← from_res (totp_check (rq_now rq) code secret);
      if negb ok then
        row ← await (select_id (ac_id u));
        match row with
        | None => pthrow "Cannot read properties of undefined"
        | Some _ =>
            _ ← await qrcode;
            mret (Page 400 "auth/2fa-setup" (Some (js "Code did not match. Try again.")) (Some secret), sess)
        end
      else
        _ ← await (modify_account (ac_id u) [secret] (fun _ => set_totp (Some secret) true));
        mret (Redirect (js "/dashboard/settings"), setFlash (js "Two-factor authentication enabled.") (set_pendingSecret None sess))
  | _, _ => mret (to_login sess)
  end.
Definition post_2fa_disable (user : option account) (sess : PoolSession) : prog answer :=
  match user with
  | None => mret (to_login sess)
  | Some u =>
      _ ← await (modify_account (ac_id u) [] (fun _ => set_totp None false));
      mret (Redirect (js "/dashboard/settings"), setFlash (js "Two-factor authentication disabled.") sess)
  end.
(** A user id that is not [0]. *)
Definition pending_user (sess : PoolSession) : option Z :=
  match pendingTotpUserId sess with Some uid => if uid =? 0 then None else Some uid | None => None end.
Definition post_2fa_verify (rq : request) (sess : PoolSession) : prog answer :=
  match pending_user sess with
  | None => mret (to_login sess)
  | Some uid =>
      x ← field (rq_body rq) "code";
      let code := trim x in
      row ← await (select_id uid);
      ok ← (match row ≫= ac_totp_secret with
            | Some (c :: s) => from_res (totp_check (rq_now rq) code (c :: s))
            | _ => mret false
            end);
      if negb ok then mret (Page 400 "auth/2fa-verify" (Some (js "Code did not match.")) None, sess)
      else
        let next := default (js "/dashboard") (pendingTotpNext sess) in
        let sess := set_pending None None sess in
        id ← createSession rq uid;
        _ ← await (modify_account uid [] set_last_login);
        mret (Redirect (safeNext next), set_sid (Some id) sess)
  end.

(** The settings of [dashboard.ts], for a user whose email is verified. *)
Definition settings_error (msg : jsstr) (sess : PoolSession) : answer := (Page 400 "dashboard/settings" (Some msg) None, sess).
Definition validateAddress (e : env) : eff web_db bool := lift (e_node e).
Definition min_payout : jsnum := decimal 1 (-2).
Definition max_payout : jsnum := num_of_Z 1000.
Definition post_settings_payout (rq : request) (u : account) (sess : PoolSession) : prog answer :=
  address ← field (rq_body rq) "payout_address";
  let addr := trim address in
  m ← field (rq_body rq) "minimum_payout_b3c";
  let min := parseFloat m in
  if negb (isValidB3AddressForNetwork addr (cf_net cfg)) then
    mret (settings_error (js "Address is not a valid " ++ network_name (cf_net cfg) ++ js " B3Chain address") sess)
  else
    verdict ← await_res validateAddress;
    let rejected msg := mret (settings_error (js "Address rejected by b3chaind: " ++ msg) sess) in
    match verdict with
    | Throw e => rejected (js e)
    | Ok false => rejected (js "rejected by node")
    | Ok true =>
    if negb (isFinite min) || nlt min min_payout || nlt max_payout min then
      mret (settings_error (js "Minimum payout must be between 0.01 and 1000 B3C") sess)
    else
      amount ← from_res (to_numeric min);
      _ ← await (modify_account (ac_id u) [addr] (fun _ => set_payout addr amount));
      mret (Redirect (js "/dashboard/settings"), setFlash (js "Payout settings saved.") sess)
    end.
Definition post_settings_password (rq : request) (u : account) (sess : PoolSession) : prog answer :=
  oldPw ← field (rq_body rq) "old_password";
  newPw ← field (rq_body rq) "new_password";
  if zlen newPw <? 10 then mret (settings_error (js "New password too short") sess)
  else
    row ← await (select_id (ac_id u));
    ok ← (match row with Some a => await_or false (verify_password (ac_password_hash a) oldPw) | None => mret false end);
    if negb ok then mret (settings_error (js "Old password is wrong") sess)
    else
      hash ← await (hash_password newPw);
      _ ← await (modify_account (ac_id u) [hash] (fun _ => set_hash hash));
      mret (Redirect (js "/dashboard/settings"), setFlash (js "Password changed.") sess).

(** ** Middleware *)
Definition csrfTokenMiddleware (rq : request) (sess : PoolSession) : PoolSession :=
  match csrf_token sess with
  | Some (_ :: _) => sess
  | _ => set_csrf (Some (bytesToHex (rq_csrf_random rq))) sess
  end.
(** The token of the request: the member of the body if it is truthy, or the header. *)
Definition truthy_str (v : jval) : option (option jsstr) :=
  match v with
  | JUndef | JNull | JBool false | JStr [] => None
  | JNum x => if neq x n0 || (match x with S754_nan => true | _ => false end) then None else Some None
  | JStr s => Some (Some s)
  | _ => Some None
  end.
Definition csrf_sent (rq : request) : option jsstr :=
  let member := match rq_body rq with JObj l => default JUndef (map_get (js "_csrf") l) | _ => JUndef end in
  match truthy_str member with Some got => got | None => rq_csrf_header rq end.
Definition csrf_ok (rq : request) (sess : PoolSession) : bool :=
  match rq_method rq with
  | GET => true
  | POST =>
      match csrf_token sess, csrf_sent rq with
      | Some (c :: expected), Some got => bool_decide (got = c :: expected)
      | _, _ => false
      end
  end.

Definition loadCurrentUser (sess : PoolSession) : prog (option account * PoolSession) :=
  let id := default [] (sid sess) in
  uid ← (if bool_decide (id = []) then mret None else userIdForSession id);
  match uid with
  | None => mret (None, set_sid None sess)
  | Some uid =>
      if uid =? 0 then mret (None, set_sid None sess)
      else
        row ← await (select_id uid);
        match row with
        | None => mret (None, set_sid None sess)
        | Some a => mret (Some a, sess)
        end
  end.

(** [requireAuth] and [requireVerified]. *)
Definition requireVerified (rq : request) (user : option account) (sess : PoolSession) (next : account -> prog answer) : prog answer :=
  match user with
  | None => mret (match encodeURIComponent (rq_url rq) with
                  | Ok url => Redirect (js "/auth/login?next=" ++ url)
                  | Throw _ => Page 500 "error" (Some (js "Something went wrong.")) None
                  end, sess)
  | Some u => if ac_email_verified u then next u else mret (Redirect (js "/auth/verify-email"), sess)
  end.
Definition limiter (rq : request) (sess : PoolSession) (next : prog answer) : prog answer :=
  if rq_limited rq then mret (Limited, sess) else next.

Definition route (rq : request) (user : option account) (sess : PoolSession) : prog answer :=
  match rq_method rq, rq_route rq with
  | GET, R_signup => mret (Page 200 "auth/signup" None None, sess)
  | POST, R_signup => limiter rq sess (post_signup rq sess)
  | GET, R_verify_email => get_verify_email rq sess
  | GET, R_login => mret (Page 200 "auth/login" None None, sess)
  | POST, R_login => limiter rq sess (post_login rq sess)
  | POST, R_logout => post_logout sess
  | GET, R_forgot => mret (Page 200 "auth/forgot" None None, sess)
  | POST, R_forgot => limiter rq sess (post_forgot rq sess)
  | GET, R_reset => get_reset rq sess
  | POST, R_reset => limiter rq sess (post_reset rq sess)
  | GET, R_2fa_setup => get_2fa_setup rq user sess
  | POST, R_2fa_setup => post_2fa_setup rq user sess
  | POST, R_2fa_disable => post_2fa_disable user sess
  | GET, R_2fa_verify => mret (match pending_user sess with
                               | None => to_login sess
                               | Some _ => (Page 200 "auth/2fa-verify" None None, sess)
                               end)
  | POST, R_2fa_verify => limiter rq sess (post_2fa_verify rq sess)
  | GET, R_settings => requireVerified rq user sess (fun _ => mret (Page 200 "dashboard/settings" None None, sess))
  | POST, R_settings_payout => requireVerified rq user sess (fun u => post_settings_payout rq u sess)
  | POST, R_settings_password => requireVerified rq user sess (fun u => post_settings_password rq u sess)
  | _, _ => mret (Page 404 "error" (Some (js "Page not found.")) None, sess)
  end.

(** [buildApp]: the middleware, then the routes. *)
Definition handle (rq : request) : prog answer :=
  let sess := csrfTokenMiddleware rq (clear_flash (rq_cookie rq)) in
  x ← loadCurrentUser sess;
  let '(user, sess) := x in
  if csrf_ok rq sess then route rq user sess
  else mret (Page 403 "error" (Some (js "CSRF token invalid or missing.")) None, sess).

(** ** The process *)

(** [w_cookies] are the cookies that were set; [w_requests], [w_replies], [w_past] and
    [w_accesses] record the requests, the answers, the states of the database, and the
    accesses: for which request, what the world gave to it, and the state that it met. *)
Record web := mkWeb {
  w_db : web_db;
  w_tasks : list (request * prog answer);
  w_cookies : list PoolSession;
  w_crashed : bool;
  w_requests : list request;
  w_replies : list (request * reply);
  w_past : list web_db;
  w_accesses : list (request * env * web_db)
}.
Definition set_w_tasks (x : list (request * prog answer)) (s : web) : web :=
  mkWeb (w_db s) x (w_cookies s) (w_crashed s) (w_requests s) (w_replies s) (w_past s) (w_accesses s).
(** The database after an access. *)
Definition advance (rq : request) (e : env) (d : web_db) (s : web) : web :=
  mkWeb d (w_tasks s) (w_cookies s) (w_crashed s) (w_requests s) (w_replies s) (w_past s ++ [d]) (w_accesses s ++ [(rq, e, w_db s)]).
Definition record_request (rq : request) (s : web) : web :=
  mkWeb (w_db s) (w_tasks s) (w_cookies s) (w_crashed s) (w_requests s ++ [rq]) (w_replies s) (w_past s) (w_accesses s).
(** The answer goes out, or the promise is rejected. *)
Definition finish (rq : request) (r : res answer) (s : web) : web :=
  match r with
  | Ok (rep, sess) => mkWeb (w_db s) (w_tasks s) (w_cookies s ++ [sess]) (w_crashed s) (w_requests s) (w_replies s ++ [(rq, rep)]) (w_past s) (w_accesses s)
  | Throw _ => mkWeb (w_db s) (w_tasks s) (w_cookies s) true (w_requests s) (w_replies s) (w_past s) (w_accesses s)
  end.

Inductive web_event :=
| WRequest (rq : request)
| WAccess (k : nat) (e : env).

Definition web_step (ev : web_event) (s : web) : web :=
  if w_crashed s then s
  else match ev with
  | WRequest rq =>
      if bool_decide (rq_cookie rq ∈ w_cookies s) then
        let s := record_request rq s in
        match handle rq with
        | Return r => finish rq r s
        | p => set_w_tasks (w_tasks s ++ [(rq, p)]) s
        end
      else s
  | WAccess k e =>
      match w_tasks s !! k with
      | Some (rq, Await m f) =>
          let '(x, d) := m e (w_db s) in
          let s := advance rq e d s in
          match f x with
          | Return r => finish rq r (set_w_tasks (delete k (w_tasks s)) s)
          | p => set_w_tasks (<[k := (rq, p)]> (w_tasks s)) s
          end
      | _ => s
      end
  end.
Definition web_run (es : list web_event) (s : web) : web := foldl (fun s ev => web_step ev s) s es.
Definition init_web (d : web_db) : web := mkWeb d [] [empty_session] false [] [] [d] [].
End Handlers.
