(* ===== verification/WebProofs.v ===== *)
(** * The accounts of the web site: who may do what

    One invariant of the process, kept by every access of every request, however requests
    interleave and whatever old cookies they carry.  It ties each session, each member of
    an account and each mail to the requests that justify it, and to what these requests
    read in the database, and when. *)

From S2P Require Import Prelude JsString JsMap JsNumber JsRound JsFormat Effects Json Header Address Numeric WebAccounts.

Create HintDb web.

Section Web.
Context `{WebLibs} (cfg : web_config) (d0 : web_db).

(** ** Evidence *)

(** The request came in, for this route, and if it is a [POST] with the token of its own
    cookie. *)
Definition asked (rq : request) (m : method_t) (r : route_t) (s : web) : Prop :=
  rq ∈ w_requests s /\ rq_method rq = m /\ rq_route rq = r /\ csrf_ok rq (csrfTokenMiddleware rq (clear_flash (rq_cookie rq))) = true.
(** The row was in the database at some time; the request met it there, in an access at
    time [now]. *)
Definition row_was (a : account) (s : web) : Prop := exists d, d ∈ w_past s /\ a ∈ accounts d.
Definition met {A} (rq : request) (sel : web_db -> list A) (x : A) (now : Z) (s : web) : Prop :=
  exists e d, (rq, e, d) ∈ w_accesses s /\ x ∈ sel d /\ e_now e = now.
Definition sends (v : jval) (key : string) (x : jsstr) : Prop := field v key = Return (Ok x).
Definition names (rq : request) (email : jsstr) : Prop := email_of rq = Return (Ok email).

(** The request gives the password of the user, in the row that it read, which has the
    second factor on or off. *)
Definition password_by (rq : request) (uid : Z) (totp : bool) (s : web) : Prop :=
  asked rq POST R_login s /\ exists a pw now, met rq accounts a now s /\ ac_id a = uid /\ ac_totp_enabled a = totp /\ names rq (ac_email a) /\
    sends (rq_body rq) "password" pw /\ argon2_verify (ac_password_hash a) pw = Ok true.
(** The request gives a code of the user's second factor. *)
Definition code_by (rq : request) (uid : Z) (s : web) : Prop :=
  asked rq POST R_2fa_verify s /\ pendingTotpUserId (rq_cookie rq) = Some uid /\ exists a secret code now, met rq accounts a now s /\ ac_id a = uid /\
    ac_totp_secret a = Some secret /\ sends (rq_body rq) "code" code /\ totp_check (rq_now rq) (trim code) secret = Ok true.
(** The cookie of the request has the id of a session of the user, which had not expired
    when it was looked up. *)
Definition logged_in (rq : request) (u : account) (s : web) : Prop :=
  exists id r t t', sid (rq_cookie rq) = Some id /\ met rq sessions r t s /\ ss_id r = id /\ t < ss_expires r /\ ss_user r = ac_id u /\ met rq accounts u t' s.

(** A session is made by an access of the request at some time, and lasts from then. *)
Definition session_made (r : session_row) (s : web) : Prop :=
  exists rq, ss_id r = bytesToHex (rq_random rq) /\
    (exists e d, (rq, e, d) ∈ w_accesses s /\ ss_expires r = e_now e + cf_sessionHours cfg * 3600) /\
    (password_by rq (ss_user r) false s \/ (code_by rq (ss_user r) s /\ exists rq0, password_by rq0 (ss_user r) true s)).
Definition cookie_ok (c : PoolSession) (s : web) : Prop :=
  forall uid, pendingTotpUserId c = Some uid -> exists rq, password_by rq uid true s.

(** A token is for the account: a request for this route, which names its address, drew it
    and stored it in an access; it lasts [ttl] seconds from then. *)
Definition link_of (r : route_t) (ttl : Z) (t : token_row) (a : account) (s : web) : Prop :=
  tk_user t = ac_id a /\ exists rq e d, asked rq POST r s /\ names rq (ac_email a) /\ tk_token t = bytesToHex (rq_random rq) /\
    (rq, e, d) ∈ w_accesses s /\ tk_expires t = e_now e + ttl.
Definition verify_link : token_row -> account -> web -> Prop := link_of R_signup (48 * 3600).
Definition reset_link : token_row -> account -> web -> Prop := link_of R_forgot (2 * 3600).
Definition token_made (link : token_row -> account -> web -> Prop) (t : token_row) (s : web) : Prop :=
  exists a, row_was a s /\ link t a s.
(** The request opens the link while it lasts. *)
Definition opens (rq : request) (sel : web_db -> list token_row) (t : token_row) (s : web) : Prop :=
  exists now, met rq sel t now s /\ now < tk_expires t.
(** A mail goes to the address of an account, with a link to a page of the site whose token
    was stored for this account. *)
Definition mail_made (m : mail) (s : web) : Prop :=
  exists a t d pre post, row_was a s /\ ml_to m = ac_email a /\ d ∈ w_past s /\
    ((t ∈ verify_tokens d /\ verify_link t a s /\
      ml_text m = pre ++ cf_baseUrl cfg ++ js "/auth/verify-email?token=" ++ tk_token t ++ post) \/
     (t ∈ reset_tokens d /\ reset_link t a s /\
      ml_text m = pre ++ cf_baseUrl cfg ++ js "/auth/reset?token=" ++ tk_token t ++ post)).

(** A path of this site: not an address of another, which begins with two slashes or, as
    browsers read it, with a slash and a backslash. *)
Definition local_url (url : jsstr) : bool :=
  match url with
  | [47] => true
  | 47 :: c :: _ => negb (c =? 47) && negb (c =? 92)
  | _ => false
  end.
Definition reply_ok (rep : reply) : Prop := match rep with Redirect url => local_url url = true | _ => True end.

Definition initially (P : account -> Prop) (a : account) : Prop := exists a0, a0 ∈ accounts d0 /\ ac_id a0 = ac_id a /\ P a0.
(** The sign-up of the account; a request in a session of it. *)
Definition signed_up (rq : request) (a : account) (s : web) : Prop := asked rq POST R_signup s /\ names rq (ac_email a).
Definition in_session (rq : request) (r : route_t) (u a : account) (s : web) : Prop :=
  asked rq POST r s /\ logged_in rq u s /\ ac_id u = ac_id a.

Definition hash_made (a : account) (s : web) : Prop :=
  initially (fun a0 => ac_password_hash a0 = ac_password_hash a) a \/
  exists rq salt pw, ac_password_hash a = argon2_hash salt pw /\ 10 <= zlen pw /\
    ((signed_up rq a s /\ sends (rq_body rq) "password" pw) \/
     (exists t, asked rq POST R_reset s /\ sends (rq_body rq) "password" pw /\ sends (rq_body rq) "token" (tk_token t) /\
        opens rq reset_tokens t s /\ reset_link t a s) \/
     (exists u a' old now, in_session rq R_settings_password u a s /\ sends (rq_body rq) "new_password" pw /\
        sends (rq_body rq) "old_password" old /\ met rq accounts a' now s /\ ac_id a' = ac_id a /\ argon2_verify (ac_password_hash a') old = Ok true)).
Definition payout_made (a : account) (s : web) : Prop :=
  forall addr, ac_payout_address a = Some addr ->
    initially (fun a0 => ac_payout_address a0 = Some addr) a \/
    (isValidB3AddressForNetwork addr (cf_net cfg) = true /\ exists rq text, sends (rq_body rq) "payout_address" text /\ trim text = addr /\
       (signed_up rq a s \/ exists u e d, in_session rq R_settings_payout u a s /\ ac_email_verified u = true /\
          (rq, e, d) ∈ w_accesses s /\ e_node e = Ok true)).
(** One coin from the sign-up, or what a session set, between 0.01 and 1000. *)
Definition minimum_made (a : account) (s : web) : Prop :=
  initially (fun a0 => ac_minimum_payout a0 = ac_minimum_payout a) a \/
  (exists rq, signed_up rq a s /\ ac_minimum_payout a = Some 100000000) \/
  (exists rq u text, in_session rq R_settings_payout u a s /\ ac_email_verified u = true /\ sends (rq_body rq) "minimum_payout_b3c" text /\
     isFinite (parseFloat text) = true /\ nlt (parseFloat text) (decimal 1 (-2)) = false /\ nlt (num_of_Z 1000) (parseFloat text) = false /\
     to_numeric (parseFloat text) = Ok (ac_minimum_payout a)).
(** The second factor is on when a session gave a code of the secret that its cookie had. *)
Definition totp_made (a : account) (s : web) : Prop :=
  if ac_totp_enabled a then
    initially (fun a0 => ac_totp_enabled a0 = true /\ ac_totp_secret a0 = ac_totp_secret a) a \/
    exists rq u secret code, in_session rq R_2fa_setup u a s /\ ac_totp_secret a = Some secret /\ pendingTotpSecret (rq_cookie rq) = Some secret /\
      sends (rq_body rq) "code" code /\ totp_check (rq_now rq) (trim code) secret = Ok true
  else initially (fun a0 => ac_totp_enabled a0 = false) a \/ (exists rq, signed_up rq a s) \/ exists rq u, in_session rq R_2fa_disable u a s.
Definition verified_made (a : account) (s : web) : Prop :=
  ac_email_verified a = true -> initially (fun a0 => ac_email_verified a0 = true) a \/
    exists rq t, asked rq GET R_verify_email s /\ sends (rq_query rq) "token" (tk_token t) /\ opens rq verify_tokens t s /\ verify_link t a s.
Record account_made (a : account) (s : web) : Prop := {
  am_hash : hash_made a s;
  am_payout : payout_made a s;
  am_minimum : minimum_made a s;
  am_totp : totp_made a s;
  am_verified : verified_made a s;
  am_admin : ac_is_admin a = true -> initially (fun a0 => ac_is_admin a0 = true) a
}.

(** ** Evidence stays *)
Record grows (s s' : web) : Prop := {
  gr_requests : forall rq, rq ∈ w_requests s -> rq ∈ w_requests s';
  gr_past : forall d, d ∈ w_past s -> d ∈ w_past s';
  gr_accesses : forall x, x ∈ w_accesses s -> x ∈ w_accesses s'
}.
#[local] Instance grows_refl : Reflexive grows.
Proof. intros s. by split. Qed.
#[local] Instance grows_trans : Transitive grows.
Proof. intros a b c [A1 A2 A3] [B1 B2 B3]. split; auto. Qed.

Section Mono.
Context (s s' : web) (G : grows s s').

Lemma asked_mono rq m r : asked rq m r s -> asked rq m r s'.
Proof. intros (Hi & Hr). split; [by apply G|done]. Qed.
Lemma row_mono a : row_was a s -> row_was a s'.
Proof. intros (d & Hd & Ha). exists d. split; [by apply G|done]. Qed.
Lemma access_mono rq e d : (rq, e, d) ∈ w_accesses s -> (rq, e, d) ∈ w_accesses s'.
Proof. apply G. Qed.
Lemma past_mono d : d ∈ w_past s -> d ∈ w_past s'.
Proof. apply G. Qed.
Lemma met_mono {A} rq sel (x : A) now : met rq sel x now s -> met rq sel x now s'.
Proof. intros (e & d & Hx & Hr). exists e, d. split; [by apply G|done]. Qed.

Lemma password_mono rq uid b : password_by rq uid b s -> password_by rq uid b s'.
Proof. unfold password_by. intros [Ha (a & pw & now & Hr & Hx)]. split; [by apply asked_mono|]. exists a, pw, now. split; [by apply met_mono|done]. Qed.
Lemma code_mono rq uid : code_by rq uid s -> code_by rq uid s'.
Proof.
  intros (Ha & Hc & a & sec & code & now & Hr & Hx). split; [by apply asked_mono|]. split; [done|]. exists a, sec, code, now. split; [by apply met_mono|done].
Qed.
Lemma logged_mono rq u : logged_in rq u s -> logged_in rq u s'.
Proof.
  intros (id & r & t & t' & E1 & Hr & E2 & E3 & E4 & Hu). exists id, r, t, t'. split; [done|]. split; [by apply met_mono|].
  do 3 (split; [done|]). by apply met_mono.
Qed.
Lemma session_mono r : session_made r s -> session_made r s'.
Proof.
  intros (rq & E & (e & d & Hx & Ex) & Hs). exists rq. split; [done|]. split; [exists e, d; split; [by apply G|done]|].
  destruct Hs as [Hp|[Hc [rq0 Hp]]]; [left|right; split; [|exists rq0]]; eauto using password_mono, code_mono.
Qed.
Lemma cookie_mono c : cookie_ok c s -> cookie_ok c s'.
Proof. intros Hc uid E. destruct (Hc uid E) as [rq Hp]. exists rq. by apply password_mono. Qed.
Lemma link_mono r ttl t a : link_of r ttl t a s -> link_of r ttl t a s'.
Proof.
  intros (E & rq & e & d & Ha & Hn & Et & Hx & Ex). split; [done|]. exists rq, e, d. split; [by apply asked_mono|]. do 2 (split; [done|]).
  split; [by apply G|done].
Qed.
Lemma token_mono r ttl t : token_made (link_of r ttl) t s -> token_made (link_of r ttl) t s'.
Proof. intros (a & Hr & Hl). exists a. split; [by apply row_mono|by apply link_mono]. Qed.
Lemma opens_mono rq sel t : opens rq sel t s -> opens rq sel t s'.
Proof. intros (now & Hm & Hn). exists now. split; [by apply met_mono|done]. Qed.
Lemma mail_mono m : mail_made m s -> mail_made m s'.
Proof.
  intros (a & t & d & pre & post & Hr & E & Hd & Hl). exists a, t, d, pre, post. split; [by apply row_mono|]. split; [done|]. split; [by apply G|].
  destruct Hl as [(H1 & H2 & H3)|(H1 & H2 & H3)]; [left|right]; (split; [done|]); (split; [by apply link_mono|done]).
Qed.
Lemma signed_mono rq a : signed_up rq a s -> signed_up rq a s'.
Proof. intros [Ha Hn]. split; [by apply asked_mono|done]. Qed.
Lemma in_session_mono rq r u a : in_session rq r u a s -> in_session rq r u a s'.
Proof. intros (Ha & Hl & E). split; [by apply asked_mono|]. split; [by apply logged_mono|done]. Qed.

Lemma hash_mono a : hash_made a s -> hash_made a s'.
Proof.
  intros [Hi|(rq & salt & pw & E & Hz & Hx)]; [by left|]. right. exists rq, salt, pw. do 2 (split; [done|]).
  destruct Hx as [(Ha & Hx)|[(t & Ha & H1 & H2 & Ho & Hl)|(u & a' & old & now & Ha & H1 & H2 & Hm & Hx)]]; [left|right; left|right; right].
  - split; [by apply signed_mono|done].
  - exists t. split; [by apply asked_mono|]. do 2 (split; [done|]). split; [by apply opens_mono|by apply link_mono].
  - exists u, a', old, now. split; [by apply in_session_mono|]. do 2 (split; [done|]). split; [by apply met_mono|done].
Qed.
Lemma payout_mono a : payout_made a s -> payout_made a s'.
Proof.
  intros Hp addr E. destruct (Hp addr E) as [Hi|(Hv & rq & text & H1 & H2 & Hx)]; [by left|]. right. split; [done|]. exists rq, text.
  do 2 (split; [done|]). destruct Hx as [Ha|(u & e & d & Ha & Hu & Hd & Hn)]; [left; by apply signed_mono|right]. exists u, e, d.
  split; [by apply in_session_mono|]. split; [done|]. split; [by apply G|done].
Qed.
Lemma minimum_mono a : minimum_made a s -> minimum_made a s'.
Proof.
  intros [Hi|[(rq & Ha & E)|(rq & u & text & Ha & Hx)]]; [by left|right; left|right; right].
  - exists rq. split; [by apply signed_mono|done].
  - exists rq, u, text. split; [by apply in_session_mono|done].
Qed.
Lemma totp_mono a : totp_made a s -> totp_made a s'.
Proof.
  unfold totp_made. destruct (ac_totp_enabled a).
  - intros [Hi|(rq & u & sec & code & Ha & Hx)]; [by left|right]. exists rq, u, sec, code. split; [by apply in_session_mono|done].
  - intros [Hi|[(rq & Ha)|(rq & u & Ha)]]; [by left|right; left|right; right].
    + exists rq. by apply signed_mono.
    + exists rq, u. by apply in_session_mono.
Qed.
Lemma verified_mono a : verified_made a s -> verified_made a s'.
Proof.
  intros Hp E. destruct (Hp E) as [Hi|(rq & t & Ha & H1 & Ho & Hl)]; [by left|]. right. exists rq, t. split; [by apply asked_mono|].
  split; [done|]. split; [by apply opens_mono|by apply link_mono].
Qed.
Lemma account_mono a : account_made a s -> account_made a s'.
Proof.
  intros [H1 H2 H3 H4 H5 H6]. split; [by apply hash_mono|by apply payout_mono|by apply minimum_mono|by apply totp_mono|by apply verified_mono|done].
Qed.
End Mono.
#[local] Hint Resolve asked_mono row_mono access_mono past_mono met_mono password_mono code_mono logged_mono session_mono cookie_mono link_mono
  token_mono opens_mono mail_mono signed_mono in_session_mono : web.

(** ** The invariant *)
Record inv (s : web) : Prop := {
  inv_now : w_db s ∈ w_past s;
  inv_ids : NoDup (ac_id <$> accounts (w_db s)) /\ Forall (fun a => ac_id a < next_account (w_db s)) (accounts (w_db s));
  inv_addresses : forall a, row_was a s -> (ac_id a, ac_email a) ∈ (fun a => (ac_id a, ac_email a)) <$> accounts (w_db s);
  inv_accounts : Forall (fun a => account_made a s) (accounts (w_db s));
  inv_sessions : Forall (fun r => session_made r s) (sessions (w_db s));
  inv_reset : Forall (fun t => token_made reset_link t s) (reset_tokens (w_db s));
  inv_verify : Forall (fun t => token_made verify_link t s) (verify_tokens (w_db s));
  inv_mails : Forall (fun m => mail_made m s) (outbox (w_db s));
  inv_cookies : Forall (fun c => cookie_ok c s) (w_cookies s);
  inv_replies : Forall (fun x => reply_ok x.2) (w_replies s)
}.

(** An account has one address for ever. *)
Lemma same_address s a a' : inv s -> a ∈ accounts (w_db s) -> row_was a' s -> ac_id a' = ac_id a -> ac_email a' = ac_email a.
Proof.
  intros Hi Ha Hr E. pose proof (inv_addresses s Hi a' Hr) as Hm. apply list_elem_of_fmap in Hm as (b & Eb & Hb). injection Eb as E1 E2.
  destruct (inv_ids s Hi) as [Hn _]. assert (b = a) as ->; [|done].
  apply list_elem_of_lookup_1 in Ha as [i Hi']. apply list_elem_of_lookup_1 in Hb as [j Hj].
  assert (i = j) as ->; [|congruence]. eapply (NoDup_lookup _ i j (ac_id a) Hn); rewrite list_lookup_fmap, ?Hi', ?Hj; cbn; congruence.
Qed.

(** ** One access of a request *)
Section Prog.
Context (rq : request).

Lemma grows_advance e d s : grows s (advance rq e d s).
Proof. split; cbn; [done|intros x Hx; apply elem_of_app; by left..]. Qed.
#[local] Hint Resolve grows_advance : web.
Lemma now_past e d s : d ∈ w_past (advance rq e d s).
Proof. cbn. apply elem_of_app. right. by apply list_elem_of_singleton. Qed.
Lemma now_access e d s : (rq, e, w_db s) ∈ w_accesses (advance rq e d s).
Proof. cbn. apply elem_of_app. right. by apply list_elem_of_singleton. Qed.
#[local] Hint Resolve now_past now_access : web.

(** What an access does to the database, part by part. *)
Lemma inv_access e d s : inv s -> let s' := advance rq e d s in
  NoDup (ac_id <$> accounts d) /\ Forall (fun a => ac_id a < next_account d) (accounts d) ->
  (forall a, a ∈ accounts (w_db s) -> (ac_id a, ac_email a) ∈ (fun a => (ac_id a, ac_email a)) <$> accounts d) ->
  Forall (fun a => account_made a s') (accounts d) -> Forall (fun r => r ∈ sessions (w_db s) \/ session_made r s') (sessions d) ->
  Forall (fun t => t ∈ reset_tokens (w_db s) \/ token_made reset_link t s') (reset_tokens d) ->
  Forall (fun t => t ∈ verify_tokens (w_db s) \/ token_made verify_link t s') (verify_tokens d) ->
  Forall (fun m => m ∈ outbox (w_db s) \/ mail_made m s') (outbox d) -> inv s'.
Proof.
  intros Hi s' Hids Hem Hac Hse Hre Hve Hma. assert (grows s s') as G by apply grows_advance.
  assert (forall {A} (P : A -> web -> Prop) (l l' : list A), (forall x, P x s -> P x s') -> Forall (fun x => P x s) l ->
    Forall (fun x => x ∈ l \/ P x s') l' -> Forall (fun x => P x s') l') as Hk.
  { intros A P l l' Hm Hl Hl'. eapply Forall_impl; [exact Hl'|]. intros x [Hx|Hx]; [|done]. apply Hm. by eapply Forall_forall in Hl. }
  split; cbn [w_db s' advance]; [apply now_past|done| |done|..].
  - intros a (x & Hx & Ha). cbn in Hx. apply elem_of_app in Hx as [Hx| ->%list_elem_of_singleton].
    + pose proof (inv_addresses s Hi a ltac:(by exists x)) as Hm. apply list_elem_of_fmap in Hm as (b & Eb & Hb). rewrite Eb. by apply Hem.
    + by apply (list_elem_of_fmap_2 (fun a => (ac_id a, ac_email a))).
  - eapply (Hk _ session_made); [|apply Hi|done]. eauto with web.
  - eapply (Hk _ (token_made reset_link)); [|apply Hi|done]. intros t. by apply token_mono.
  - eapply (Hk _ (token_made verify_link)); [|apply Hi|done]. intros t. by apply token_mono.
  - eapply (Hk _ mail_made); [|apply Hi|done]. eauto with web.
  - cbn. eapply Forall_impl; [apply (inv_cookies s Hi)|]. cbn. eauto with web.
  - apply (inv_replies s Hi).
Qed.

Lemma web_inv_same e s : inv s -> inv (advance rq e (w_db s) s).
Proof.
  intros Hi. apply inv_access; [done|apply Hi| | |apply Forall_forall; auto..].
  - intros a Ha. by apply (list_elem_of_fmap_2 (fun a => (ac_id a, ac_email a))).
  - apply Forall_forall. intros a Ha. eapply account_mono; [apply grows_advance|]. pose proof (inv_accounts s Hi) as Hf. by eapply Forall_forall in Hf.
Qed.

(** Rows of an account may change, and rows may go. *)
Lemma inv_update uid f e d s : inv s -> (forall a, ac_id (f a) = ac_id a /\ ac_email (f a) = ac_email a) ->
  (forall a, a ∈ accounts (w_db s) -> ac_id a = uid -> account_made a (advance rq e d s) -> account_made (f a) (advance rq e d s)) ->
  accounts d = accounts (update_account uid f (w_db s)) -> next_account d = next_account (w_db s) ->
  (forall r, r ∈ sessions d -> r ∈ sessions (w_db s)) -> (forall t, t ∈ reset_tokens d -> t ∈ reset_tokens (w_db s)) ->
  (forall t, t ∈ verify_tokens d -> t ∈ verify_tokens (w_db s)) -> outbox d = outbox (w_db s) -> inv (advance rq e d s).
Proof.
  intros Hi Hf Hm Ea En Hs Hr Hv Eo. set (g := fun a => if ac_id a =? uid then f a else a).
  assert (forall a, ac_id (g a) = ac_id a /\ ac_email (g a) = ac_email a) as Hg by (intros a; unfold g; destruct (_ =? _); auto).
  assert (accounts d = g <$> accounts (w_db s)) as Ea' by exact Ea.
  assert (ac_id <$> accounts d = ac_id <$> accounts (w_db s)) as Eids.
  { rewrite Ea', <- list_fmap_compose. apply list_fmap_ext. intros _ a _. apply Hg. }
  apply inv_access; [done| | | |apply Forall_forall; auto..|].
  - rewrite Eids, En. split; [apply Hi|]. rewrite Ea'. apply Forall_fmap. destruct (inv_ids s Hi) as [_ Hl]. eapply Forall_impl; [exact Hl|].
    intros a. cbn. by rewrite (proj1 (Hg a)).
  - intros a Ha. rewrite Ea'. apply list_elem_of_fmap. exists (g a). destruct (Hg a) as [-> ->]. split; [done|]. by apply list_elem_of_fmap_2.
  - apply Forall_forall. intros a Ha. rewrite Ea' in Ha. apply list_elem_of_fmap in Ha as (b & -> & Hb). pose proof (inv_accounts s Hi) as Hac. eapply Forall_forall in Hac; [|exact Hb].
    assert (account_made b (advance rq e d s)) as Hb' by (eapply account_mono; [apply grows_advance|done]). unfold g. destruct (Z.eqb_spec (ac_id b) uid); auto.
  - rewrite Eo. apply Forall_forall. auto.
Qed.

(** ** Programs that keep the invariant *)

(** The answer, or what remains to be done, is fine in this state and in every later one. *)
Definition post (r : res answer) (s : web) : Prop := match r with Ok (rep, c) => cookie_ok c s /\ reply_ok rep | Throw _ => True end.
Fixpoint safe (p : prog answer) (s : web) : Prop :=
  match p with
  | Return r => post r s
  | Await m k => forall s1 e, grows s s1 -> inv s1 -> let s2 := advance rq e (m e (w_db s1)).2 s1 in
      inv s2 /\ safe (k (m e (w_db s1)).1) s2
  end.
Lemma safe_mono p s s' : grows s s' -> safe p s -> safe p s'.
Proof.
  destruct p as [[[rep c]|e]|X m k]; cbn; [intros G []; split; [by eapply cookie_mono|done]|done|]. intros G Hs s1 e G1. apply Hs. by transitivity s'.
Qed.

(** Synchronous steps. *)
Lemma safe_res {A} (r : res A) f s : (forall x, r = Ok x -> safe (f x) s) -> safe (from_res r ≫= f) s.
Proof. destruct r; cbn; auto. Qed.
Lemma field_res v key : exists r, field v key = Return r.
Proof. unfold field. destruct (prop_of v (js key)); cbn; eauto. Qed.
Lemma safe_field v key f s : (forall x, sends v key x -> safe (f x) s) -> safe (field v key ≫= f) s.
Proof. destruct (field_res v key) as [[x|e] E]; intros Hf; rewrite E; cbn; [|done]. by apply Hf. Qed.
Lemma safe_email f s : (forall x, names rq x -> safe (f x) s) -> safe (email_of rq ≫= f) s.
Proof.
  unfold names, email_of. destruct (field_res (rq_body rq) "email") as [[x|e] E]; rewrite E; cbn; [|done]. intros Hf. by apply Hf.
Qed.

Lemma safe_assoc {A B} (m : env -> eff web_db A) (g : A -> prog B) f s : safe (await m ≫= fun x => g x ≫= f) s -> safe ((await m ≫= g) ≫= f) s.
Proof.
  intros Hs s1 e G Hi. destruct (Hs s1 e G Hi) as [H1 H2]. split; [exact H1|]. cbn in H2 |- *. by destruct (m e (w_db s1)).1.
Qed.

(** Accesses that only read. *)
Lemma safe_read {A} (m : env -> eff web_db A) f s : (forall e d, (m e d).2 = d) ->
  (forall s1 e x, grows s s1 -> inv s1 -> (rq, e, w_db s1) ∈ w_accesses s1 -> (m e (w_db s1)).1 = Ok x -> safe (f x) s1) -> safe (await m ≫= f) s.
Proof.
  intros Hm Hf s1 e G Hi. rewrite Hm. split; [by apply web_inv_same|]. destruct (m e (w_db s1)).1 as [x|] eqn:E; cbn; [|done].
  refine (Hf _ e x _ _ _ _); [etransitivity; [exact G|apply grows_advance]|by apply web_inv_same|apply (now_access e (w_db s1) s1)|exact E].
Qed.
Lemma safe_select_email email f s :
  (forall s1 row, grows s s1 -> inv s1 -> (forall a, row = Some a -> row_was a s1 /\ (exists t, met rq accounts a t s1) /\ ac_email a = email) -> safe (f row) s1) ->
  safe (await (select_email email) ≫= f) s.
Proof.
  intros Hf. apply safe_read; [intros e d; unfold select_email, sql; destruct (e_fail e); [done|]; by destruct (existsb _ _)|].
  intros s1 e x G Hi Hx E. apply Hf; [done|done|]. intros a ->. unfold select_email, sql in E. destruct (e_fail e); [done|]. destruct (existsb _ _); [done|].
  injection E as E. apply arr_find_some in E as [Ha Hp]. apply bool_decide_eq_true in Hp. split; [exists (w_db s1); split; [apply Hi|done]|].
  split; [|done]. by exists (e_now e), e, (w_db s1).
Qed.
Lemma safe_select_id uid f s :
  (forall s1 row, grows s s1 -> inv s1 -> (forall a, row = Some a -> (exists t, met rq accounts a t s1) /\ ac_id a = uid) -> safe (f row) s1) ->
  safe (await (select_id uid) ≫= f) s.
Proof.
  intros Hf. apply safe_read; [intros e d; unfold select_id, sql; by destruct (e_fail e)|].
  intros s1 e x G Hi Hx E. apply Hf; [done|done|]. intros a ->. unfold select_id, sql in E. destruct (e_fail e); [done|].
  injection E as E. apply arr_find_some in E as [Ha Hp]. apply Z.eqb_eq in Hp. split; [|done]. by exists (e_now e), e, (w_db s1).
Qed.
Lemma safe_select_token link token (sel : web_db -> list token_row) f s :
  (forall s1, inv s1 -> Forall (fun t => token_made link t s1) (sel (w_db s1))) ->
  (forall s1 row, grows s s1 -> inv s1 ->
     (forall uid, row = Some uid -> exists t, token_made link t s1 /\ opens rq sel t s1 /\ tk_user t = uid /\ tk_token t = token) -> safe (f row) s1) ->
  safe (await (sql [token] (fun now => d ← get; mret (live_token token now (sel d)))) ≫= f) s.
Proof.
  intros Hsel Hf. apply safe_read; [intros e d; unfold sql; destruct (e_fail e); [done|]; by destruct (existsb _ _)|].
  intros s1 e x G Hi Hx E. apply Hf; [done|done|]. intros uid ->. unfold sql in E. destruct (e_fail e); [done|]. destruct (existsb _ _); [done|].
  injection E as E. unfold live_token in E. apply fmap_Some in E as (t & E & ->). apply arr_find_some in E as [Ht Hp].
  apply andb_true_iff in Hp as [Hp Hlt]. apply bool_decide_eq_true in Hp. apply Z.ltb_lt in Hlt. exists t. pose proof (Hsel s1 Hi) as Hs.
  split; [by eapply Forall_forall in Hs|]. split; [|done]. exists (e_now e). split; [by exists e, (w_db s1)|done].
Qed.
Lemma safe_select_session id f s :
  (forall s1 row, grows s s1 -> inv s1 ->
     (forall uid, row = Some uid -> exists r t, met rq sessions r t s1 /\ ss_id r = id /\ t < ss_expires r /\ ss_user r = uid) -> safe (f row) s1) ->
  safe (userIdForSession id ≫= f) s.
Proof.
  intros Hf. apply safe_read; [intros e d; unfold select_session, sql; destruct (e_fail e); [done|]; by destruct (existsb _ _)|].
  intros s1 e x G Hi Hx E. apply Hf; [done|done|]. intros uid ->. unfold select_session, sql in E. destruct (e_fail e); [done|]. destruct (existsb _ _); [done|].
  injection E as E. unfold live_session in E. apply fmap_Some in E as (r & E & ->). apply arr_find_some in E as [Hr Hp].
  apply andb_true_iff in Hp as [Hp Hlt]. apply bool_decide_eq_true in Hp. apply Z.ltb_lt in Hlt. exists r, (e_now e). split; [by exists e, (w_db s1)|done].
Qed.
Lemma safe_hash pw f s : (forall s1 salt, grows s s1 -> inv s1 -> safe (f (argon2_hash salt pw)) s1) -> safe (await (hash_password pw) ≫= f) s.
Proof.
  intros Hf. apply safe_read; [intros e d; unfold hash_password; by destruct (e_fail e)|].
  intros s1 e x G Hi _ E. unfold hash_password in E. destruct (e_fail e); [done|]. injection E as <-. by apply Hf.
Qed.
Lemma safe_verify h pw f s : (forall s1 b, grows s s1 -> inv s1 -> (b = true -> argon2_verify h pw = Ok true) -> safe (f b) s1) ->
  safe (await_or false (verify_password h pw) ≫= f) s.
Proof.
  intros Hf s1 e G Hi. split; [by apply web_inv_same|]. apply Hf; [etransitivity; [exact G|apply grows_advance]|by apply web_inv_same|].
  cbn. by destruct (argon2_verify h pw) as [[]|].
Qed.
Lemma safe_qrcode f s : (forall s1, grows s s1 -> inv s1 -> safe (f tt) s1) -> safe (await qrcode ≫= f) s.
Proof. intros Hf. apply safe_read; [intros e d; unfold qrcode; by destruct (e_fail e)|]. intros s1 e [] G Hi _ _. by apply Hf. Qed.
Lemma safe_node f s : (forall s1 r, grows s s1 -> inv s1 -> (r = Ok true -> exists e d, (rq, e, d) ∈ w_accesses s1 /\ e_node e = Ok true) -> safe (f r) s1) ->
  safe (await_res validateAddress ≫= f) s.
Proof.
  intros Hf s1 e G Hi. split; [by apply web_inv_same|]. apply Hf; [etransitivity; [exact G|apply grows_advance]|by apply web_inv_same|].
  intros E. exists e, (w_db s1). split; [apply now_access|exact E].
Qed.

(** Accesses that write. *)
Lemma safe_sql l (m : Z -> eff web_db unit) f s :
  (forall s1 e, grows s s1 -> inv s1 -> inv (advance rq e (m (e_now e) (w_db s1)).2 s1)) ->
  (forall s1 e, inv s1 -> let s2 := advance rq e (m (e_now e) (w_db s1)).2 s1 in
     (m (e_now e) (w_db s1)).1 = Ok tt -> grows s s2 -> inv s2 -> safe (f tt) s2) -> safe (await (sql l m) ≫= f) s.
Proof.
  intros Hm Hf s1 e G Hi. assert (inv (advance rq e (sql l m e (w_db s1)).2 s1)) as Hi'.
  { unfold sql. destruct (e_fail e); [by apply web_inv_same|]. destruct (existsb _ _); [by apply web_inv_same|]. by apply Hm. }
  split; [exact Hi'|]. unfold sql in *. destruct (e_fail e); [done|]. destruct (existsb _ _); [done|].
  destruct (m (e_now e) (w_db s1)).1 as [[]|] eqn:E; cbn; [|done]. apply Hf; [done|done| |done]. etransitivity; [exact G|apply grows_advance].
Qed.
Lemma safe_sql_then l (m : Z -> eff web_db unit) f s :
  (forall s1 e, grows s s1 -> inv s1 -> inv (advance rq e (m (e_now e) (w_db s1)).2 s1)) ->
  (forall s1, grows s s1 -> inv s1 -> safe (f tt) s1) -> safe (await (sql l m) ≫= f) s.
Proof. intros Hm Hf. apply safe_sql; [done|]. intros s1 e Hi s2 _ G Hi2. by apply Hf. Qed.
Lemma safe_modify uid l f k s : (forall now a, ac_id (f now a) = ac_id a /\ ac_email (f now a) = ac_email a) ->
  (forall s1 e a, grows s s1 -> a ∈ accounts (w_db s1) -> inv s1 -> ac_id a = uid ->
     let s2 := advance rq e (update_account uid (f (e_now e)) (w_db s1)) s1 in grows s s2 -> account_made a s2 -> account_made (f (e_now e) a) s2) ->
  (forall s1, grows s s1 -> inv s1 -> safe (k tt) s1) -> safe (await (modify_account uid l f) ≫= k) s.
Proof.
  intros Hf Hm Hk. apply safe_sql_then; [|done]. intros s1 e G Hi. cbn. apply (inv_update uid (f (e_now e))); auto; intros a Ha E Hma.
  apply (Hm s1); try done. etransitivity; [exact G|apply grows_advance].
Qed.
Lemma safe_login uid k s : (forall s1, grows s s1 -> inv s1 -> safe (k tt) s1) -> safe (await (modify_account uid [] set_last_login) ≫= k) s.
Proof. apply safe_modify; [done|]. by intros s1 e a _ _ _ _ s2 _ [H1 H2 H3 H4 H5 H6]. Qed.

(** The accounts stay, and other rows are added. *)
Lemma inv_rows e d s : inv s -> accounts d = accounts (w_db s) -> next_account d = next_account (w_db s) -> let s' := advance rq e d s in
  Forall (fun r => r ∈ sessions (w_db s) \/ session_made r s') (sessions d) ->
  Forall (fun t => t ∈ reset_tokens (w_db s) \/ token_made reset_link t s') (reset_tokens d) ->
  Forall (fun t => t ∈ verify_tokens (w_db s) \/ token_made verify_link t s') (verify_tokens d) ->
  Forall (fun m => m ∈ outbox (w_db s) \/ mail_made m s') (outbox d) -> inv s'.
Proof.
  intros Hi Ea En s' H1 H2 H3 H4. apply (inv_access _ _ _ Hi); try done.
  - rewrite Ea, En. apply Hi.
  - intros a Ha. rewrite Ea. by apply (list_elem_of_fmap_2 (fun a => (ac_id a, ac_email a))).
  - rewrite Ea. eapply Forall_impl; [apply (inv_accounts s Hi)|]. cbn. intros a. by apply account_mono, grows_advance.
Qed.
Lemma old_rows {A} (l : list A) (P : A -> Prop) : Forall (fun x => x ∈ l \/ P x) l.
Proof. apply Forall_forall. auto. Qed.
Lemma new_row {A} (l : list A) (P : A -> Prop) x : P x -> Forall (fun x => x ∈ l \/ P x) (l ++ [x]).
Proof. intros Hx. apply Forall_app. split; [apply old_rows|]. constructor; [by right|constructor]. Qed.
Lemma kept_rows {A} (Q : A -> Prop) `{!forall x, Decision (Q x)} (l : list A) (P : A -> Prop) : Forall (fun x => x ∈ l \/ P x) (filter Q l).
Proof. apply Forall_forall. intros x Hx. apply list_elem_of_filter in Hx as [_ Hx]. auto. Qed.
#[local] Hint Resolve old_rows kept_rows : web.

Lemma safe_createSession uid f s : (password_by rq uid false s \/ (code_by rq uid s /\ exists rq0, password_by rq0 uid true s)) ->
  (forall s1 id, grows s s1 -> inv s1 -> safe (f id) s1) -> safe (createSession cfg rq uid ≫= f) s.
Proof.
  intros Hs Hf. unfold createSession. apply safe_assoc. unfold insert_session.
  apply safe_sql_then; [|intros s1 G Hi; by apply Hf]. intros s1 e G Hi. eff_simpl. case_bool_decide; [by apply web_inv_same|].
  destruct (negb _); [by apply web_inv_same|]. cbn [snd]. set (d := set_sessions _ _). assert (grows s (advance rq e d s1)) as G2 by (etransitivity; [exact G|apply grows_advance]).
  apply (inv_rows _ _ _ Hi); auto with web. apply new_row. exists rq. split; [done|]. split; [exists e, (w_db s1); split; [apply now_access|done]|].
  destruct Hs as [Hp|[Hc [rq0 Hp]]]; [left|right; split; [|exists rq0]]; eauto with web.
Qed.
Lemma safe_deleteSession id f s : (forall s1, grows s s1 -> inv s1 -> safe (f tt) s1) -> safe (deleteSession id ≫= f) s.
Proof. intros Hf. apply safe_sql_then; [|done]. intros s1 e G Hi. cbn. apply (inv_rows _ _ _ Hi); auto with web. apply (kept_rows (fun s => ss_id s <> id)). Qed.

(** The texts of the mails. *)
Lemma reset_mail_text email token : exists pre post, ml_text (reset_mail cfg email token) = pre ++ cf_baseUrl cfg ++ js "/auth/reset?token=" ++ token ++ post.
Proof. unfold reset_mail. cbn [ml_text]. rewrite (app_assoc (js _) newline). by do 2 eexists. Qed.
Lemma verify_mail_text email token :
  exists pre post, ml_text (verify_mail cfg email token) = pre ++ cf_baseUrl cfg ++ js "/auth/verify-email?token=" ++ token ++ post.
Proof.
  unfold verify_mail. cbn [ml_text].
  exists (js "Welcome to the B3Chain mining pool." ++ newline ++ newline ++ js "Click to confirm your email:" ++ newline). eexists. by rewrite <- !app_assoc.
Qed.

(** A reset link: once it is stored there is a mail for it. *)
Lemma safe_insert_reset a f s : asked rq POST R_forgot s -> row_was a s -> names rq (ac_email a) ->
  (forall s1, grows s s1 -> inv s1 -> mail_made (reset_mail cfg (ac_email a) (bytesToHex (rq_random rq))) s1 -> safe (f tt) s1) ->
  safe (await (insert_reset (bytesToHex (rq_random rq)) (ac_id a)) ≫= f) s.
Proof.
  intros Ha Hr Hn Hf. set (t e := {| tk_token := bytesToHex (rq_random rq); tk_user := ac_id a; tk_expires := e_now e + 2 * 3600 |}).
  assert (forall s1 e d, grows s (advance rq e d s1) -> reset_link (t e) a (advance rq e d s1)) as Hl.
  { intros s1 e d G. split; [done|]. exists rq, e, (w_db s1). split; [eauto with web|]. do 2 (split; [done|]). split; [apply now_access|done]. }
  apply safe_sql.
  - intros s1 e G Hi. eff_simpl. case_bool_decide; [by apply web_inv_same|]. cbn [snd]. set (d := set_reset_tokens _ _).
    assert (grows s (advance rq e d s1)) as G2 by (etransitivity; [exact G|apply grows_advance]).
    apply (inv_rows _ _ _ Hi); auto with web. apply (new_row (reset_tokens (w_db s1)) _ (t e)). exists a. split; [eauto with web|]. by apply Hl.
  - intros s1 e Hi. eff_simpl. case_bool_decide; cbn [fst snd]; [done|]. set (d := set_reset_tokens _ _). intros _ G2 Hi2. apply Hf; [done..|].
    destruct (reset_mail_text (ac_email a) (bytesToHex (rq_random rq))) as (pre & post & Em).
    exists a, (t e), d, pre, post. split; [eauto with web|]. split; [done|]. split; [apply now_past|]. right.
    split; [cbn; apply elem_of_app; right; by left|]. split; [by apply Hl|]. exact Em.
Qed.
Lemma safe_mail m f s : mail_made m s -> (forall s1, grows s s1 -> inv s1 -> safe (f tt) s1) -> safe (await_or tt (sendEmail m) ≫= f) s.
Proof.
  intros Hm Hf s1 e G Hi. assert (inv (advance rq e (sendEmail m e (w_db s1)).2 s1)) as Hi'.
  { unfold sendEmail. destruct (e_fail e); [by apply web_inv_same|]. cbn [modify snd]. set (d := set_outbox _ _).
    assert (grows s (advance rq e d s1)) as G2 by (etransitivity; [exact G|apply grows_advance]). apply (inv_rows _ _ _ Hi); auto with web. apply new_row. eauto with web. }
  split; [exact Hi'|]. destruct (sendEmail m e (w_db s1)).1 as [[]|]; (apply Hf; [etransitivity; [exact G|apply grows_advance]|exact Hi']).
Qed.

(** A row is added to the accounts. *)
Lemma inv_insert e d s a : inv s -> let s' := advance rq e d s in ac_id a = next_account (w_db s) -> account_made a s' ->
  accounts d = accounts (w_db s) ++ [a] -> next_account d = next_account (w_db s) + 1 -> sessions d = sessions (w_db s) ->
  reset_tokens d = reset_tokens (w_db s) -> outbox d = outbox (w_db s) ->
  Forall (fun t => t ∈ verify_tokens (w_db s) \/ token_made verify_link t s') (verify_tokens d) -> inv s'.
Proof.
  intros Hi s' Eid Hm Ea En Es Er Eo Hv. destruct (inv_ids s Hi) as [Hnd Hlt]. apply (inv_access _ _ _ Hi); rewrite ?Ea, ?En, ?Es, ?Er, ?Eo; auto with web.
  - rewrite fmap_app. cbn. split.
    + apply NoDup_app. split; [done|]. split; [|apply NoDup_singleton]. intros x Hx ->%list_elem_of_singleton. apply list_elem_of_fmap in Hx as (b & E & Hb).
      eapply Forall_forall in Hlt; [|exact Hb]. cbn in Hlt. lia.
    + apply Forall_app. split; [eapply Forall_impl; [exact Hlt|]; cbn; lia|]. constructor; [lia|constructor].
  - intros b Hb. rewrite fmap_app. apply elem_of_app. left. by apply (list_elem_of_fmap_2 (fun a => (ac_id a, ac_email a))).
  - apply Forall_app. split; [eapply Forall_impl; [apply (inv_accounts s Hi)|]; intros b; by apply account_mono, grows_advance|]. by constructor.
Qed.

(** A new account, its link and its mail. *)
Lemma safe_insert_account email salt pw addr f s : asked rq POST R_signup s -> names rq email -> sends (rq_body rq) "password" pw -> 10 <= zlen pw ->
  (forall x, addr = Some x -> isValidB3AddressForNetwork x (cf_net cfg) = true /\ exists text, sends (rq_body rq) "payout_address" text /\ trim text = x) ->
  (forall s1, grows s s1 -> inv s1 -> mail_made (verify_mail cfg email (bytesToHex (rq_random rq))) s1 -> safe (f tt) s1) ->
  safe (await (insert_account email (argon2_hash salt pw) addr (bytesToHex (rq_random rq))) ≫= f) s.
Proof.
  intros Ha Hn Hp Hz Haddr Hf.
  set (a d := mkAccount (next_account d) email (argon2_hash salt pw) false None false addr (Some 100000000) false None).
  set (t d e := {| tk_token := bytesToHex (rq_random rq); tk_user := next_account d; tk_expires := e_now e + 2 * 86400 |}).
  assert (forall s1 e d, grows s (advance rq e d s1) -> verify_link (t (w_db s1) e) (a (w_db s1)) (advance rq e d s1)) as Hl.
  { intros s1 e d G. split; [done|]. exists rq, e, (w_db s1). split; [eauto with web|]. do 2 (split; [done|]). split; [apply now_access|done]. }
  assert (forall s1 e d, grows s (advance rq e d s1) -> account_made (a (w_db s1)) (advance rq e d s1)) as Hmade.
  { intros s1 e d G. assert (signed_up rq (a (w_db s1)) (advance rq e d s1)) as Hs by (split; [eauto with web|done]). split.
    - right. exists rq, salt, pw. do 2 (split; [done|]). by left.
    - intros x Ex. cbn in Ex. destruct (Haddr x Ex) as [Hv (text & Ht & Et)]. right. split; [done|]. exists rq, text. do 2 (split; [done|]). by left.
    - right. left. by exists rq.
    - right. left. by exists rq.
    - done.
    - done. }
  unfold insert_account. apply safe_sql.
  - intros s1 e G Hi. eff_simpl. destruct (bool_decide _ || bool_decide _); cbn [snd].
    { destruct (inv_ids s1 Hi) as [Hnd Hlt]. apply (inv_access _ _ _ Hi); auto with web; cbn.
      - split; [done|]. eapply Forall_impl; [exact Hlt|]. cbn. lia.
      - intros b Hin. by apply (list_elem_of_fmap_2 (fun a => (ac_id a, ac_email a))).
      - eapply Forall_impl; [apply (inv_accounts s1 Hi)|]. intros b. by apply account_mono, grows_advance. }
    set (d := set_verify_tokens _ _). assert (grows s (advance rq e d s1)) as G2 by (etransitivity; [exact G|apply grows_advance]).
    apply (inv_insert e d s1 (a (w_db s1))); auto with web. apply (new_row (verify_tokens (w_db s1)) _ (t (w_db s1) e)).
    exists (a (w_db s1)). split; [|by apply Hl]. exists d. split; [apply now_past|]. cbn. apply elem_of_app. right. by left.
  - intros s1 e Hi. eff_simpl. destruct (bool_decide _ || bool_decide _); cbn [fst snd]; [done|]. set (d := set_verify_tokens _ _). intros _ G2 Hi2.
    apply Hf; [done..|]. destruct (verify_mail_text email (bytesToHex (rq_random rq))) as (pre & post & Em).
    exists (a (w_db s1)), (t (w_db s1) e), d, pre, post.
    split; [exists d; split; [apply now_past|cbn; apply elem_of_app; right; by left]|]. split; [done|]. split; [apply now_past|]. left.
    split; [cbn; apply elem_of_app; right; by left|]. split; [by apply Hl|exact Em].
Qed.

(** Accounts change.  A link for a row is a link for every row with its id. *)
Lemma link_same r ttl t a b s : inv s -> a ∈ accounts (w_db s) -> row_was b s -> link_of r ttl t b s -> ac_id a = tk_user t -> link_of r ttl t a s.
Proof.
  intros Hi Ha Hr (E & rq' & e & d & Hb & Hn & Hx) Eid. split; [done|]. exists rq', e, d. split; [done|]. split; [|done].
  rewrite <- (same_address s a b Hi Ha Hr); [done|congruence].
Qed.
Lemma safe_verify_account t f s : asked rq GET R_verify_email s -> sends (rq_query rq) "token" (tk_token t) -> token_made verify_link t s ->
  opens rq verify_tokens t s -> (forall s1, grows s s1 -> inv s1 -> safe (f tt) s1) -> safe (await (verify_account (tk_user t)) ≫= f) s.
Proof.
  intros Ha Hs (b & Hr & Hl) Ho Hf. apply safe_sql_then; [|done]. intros s1 e G Hi. eff_simpl. cbn [snd]. set (d := set_verify_tokens _ _).
  assert (grows s (advance rq e d s1)) as G2 by (etransitivity; [exact G|apply grows_advance]).
  apply (inv_update (tk_user t) set_verified); auto; [|intros x; cbn; by intros [_ ?]%list_elem_of_filter].
  intros a Hin Eid [H1 H2 H3 H4 H5 H6]. split; try done. intros _. right. exists rq, t. split; [eauto with web|]. split; [done|]. split; [eauto with web|].
  assert (verify_link t a s1) as (E & Hx) by (eapply (link_same _ _ t a b); eauto with web).
  eapply (link_mono s1); [apply grows_advance|]. by split.
Qed.
Lemma safe_reset t salt pw f s : asked rq POST R_reset s -> sends (rq_body rq) "password" pw -> 10 <= zlen pw -> sends (rq_body rq) "token" (tk_token t) ->
  token_made reset_link t s -> opens rq reset_tokens t s ->
  (forall s1, grows s s1 -> inv s1 -> safe (f tt) s1) -> safe (await (reset_password (argon2_hash salt pw) (tk_user t)) ≫= f) s.
Proof.
  intros Ha Hp Hz Hs (b & Hr & Hl) Ho Hf. apply safe_sql_then; [|done]. intros s1 e G Hi. eff_simpl. cbn [snd]. set (d := set_reset_tokens _ _).
  assert (grows s (advance rq e d s1)) as G2 by (etransitivity; [exact G|apply grows_advance]).
  apply (inv_update (tk_user t) (set_hash (argon2_hash salt pw))); auto; [|intros x; cbn; by intros [_ ?]%list_elem_of_filter].
  intros a Hin Eid [H1 H2 H3 H4 H5 H6]. split; try done. right. exists rq, salt, pw. do 2 (split; [done|]). right. left.
  exists t. split; [eauto with web|]. do 2 (split; [done|]). split; [eauto with web|].
  assert (reset_link t a s1) as (E & Hx) by (eapply (link_same _ _ t a b); eauto with web).
  eapply (link_mono s1); [apply grows_advance|]. by split.
Qed.
Lemma safe_change u a' salt pw old now f s : asked rq POST R_settings_password s -> logged_in rq u s -> sends (rq_body rq) "new_password" pw ->
  10 <= zlen pw -> sends (rq_body rq) "old_password" old -> met rq accounts a' now s -> ac_id a' = ac_id u ->
  argon2_verify (ac_password_hash a') old = Ok true -> (forall s1, grows s s1 -> inv s1 -> safe (f tt) s1) ->
  safe (await (modify_account (ac_id u) [argon2_hash salt pw] (fun _ => set_hash (argon2_hash salt pw))) ≫= f) s.
Proof.
  intros Ha Hl Hp Hz Ho Hr Er Hv Hf. apply safe_modify; [done| |done]. intros s1 e a G Hin Hi Eid s2 G2 [H1 H2 H3 H4 H5 H6]. split; try done.
  right. exists rq, salt, pw. do 2 (split; [done|]). right. right. exists u, a', old, now. split; [split; [|split]; eauto with web|].
  do 2 (split; [done|]). split; [eauto with web|]. split; [cbn; congruence|done].
Qed.
Lemma safe_payout u text m min l f s : asked rq POST R_settings_payout s -> logged_in rq u s -> ac_email_verified u = true ->
  sends (rq_body rq) "payout_address" text -> isValidB3AddressForNetwork (trim text) (cf_net cfg) = true ->
  (exists e d, (rq, e, d) ∈ w_accesses s /\ e_node e = Ok true) -> sends (rq_body rq) "minimum_payout_b3c" m ->
  negb (isFinite (parseFloat m)) || nlt (parseFloat m) min_payout || nlt max_payout (parseFloat m) = false -> to_numeric (parseFloat m) = Ok min ->
  (forall s1, grows s s1 -> inv s1 -> safe (f tt) s1) -> safe (await (modify_account (ac_id u) l (fun _ => set_payout (trim text) min)) ≫= f) s.
Proof.
  intros Ha Hl Hu Ht Hv (e0 & d & Hx & He) Hm Hb Hn Hf. apply safe_modify; [done| |done]. intros s1 e a G Hin Hi Eid s2 G2 [H1 H2 H3 H4 H5 H6].
  assert (in_session rq R_settings_payout u (set_payout (trim text) min a) s2) as Hs by (split; [|split]; eauto with web). split; try done.
  - intros addr [= <-]. right. split; [done|]. exists rq, text. do 2 (split; [done|]). right. exists u, e0, d. split; [done|]. split; [done|].
    split; [eauto with web|done].
  - right. right. exists rq, u, m. apply orb_false_iff in Hb as [Hb Hb3]. apply orb_false_iff in Hb as [Hb1 Hb2]. apply negb_false_iff in Hb1. done.
Qed.
Lemma safe_enable u secret code f s : asked rq POST R_2fa_setup s -> logged_in rq u s -> pendingTotpSecret (rq_cookie rq) = Some secret ->
  sends (rq_body rq) "code" code -> totp_check (rq_now rq) (trim code) secret = Ok true -> (forall s1, grows s s1 -> inv s1 -> safe (f tt) s1) ->
  safe (await (modify_account (ac_id u) [secret] (fun _ => set_totp (Some secret) true)) ≫= f) s.
Proof.
  intros Ha Hl Hc Hs Ht Hf. apply safe_modify; [done| |done]. intros s1 e a G Hin Hi Eid s2 G2 [H1 H2 H3 H4 H5 H6]. split; try done.
  right. exists rq, u, secret, code. split; [split; [|split]; eauto with web|done].
Qed.
Lemma safe_disable u f s : asked rq POST R_2fa_disable s -> logged_in rq u s -> (forall s1, grows s s1 -> inv s1 -> safe (f tt) s1) ->
  safe (await (modify_account (ac_id u) [] (fun _ => set_totp None false)) ≫= f) s.
Proof.
  intros Ha Hl Hf. apply safe_modify; [done| |done]. intros s1 e a G Hin Hi Eid s2 G2 [H1 H2 H3 H4 H5 H6]. split; try done.
  right. right. exists rq, u. split; [|split]; eauto with web.
Qed.

(** ** The routes *)

Lemma safeNext_local next : reply_ok (Redirect (safeNext next)).
Proof.
  unfold safeNext. case_bool_decide; [done|]. destruct (_ || includes 0 next) eqn:E; [done|]. destruct (existsb _ _); [|done].
  apply orb_false_iff in E as [E _]. apply orb_false_iff in E as [E Ebs]. apply orb_false_iff in E as [E1 E2]. apply negb_false_iff in E1.
  unfold startsWith, includes in *. apply bool_decide_eq_true in E1. apply bool_decide_eq_false in E2, Ebs.
  destruct next as [|a next]; [done|]. injection E1 as ->. destruct next as [|b next]; [done|]. cbn. apply andb_true_iff. split; apply negb_true_iff, Z.eqb_neq; intros ->.
  - by apply E2.
  - apply Ebs. right. left.
Qed.

(** An answer with the cookie of the request, as far as the second factor goes. *)
Lemma safe_answer rep c c' s : pendingTotpUserId c' = pendingTotpUserId c -> reply_ok rep -> cookie_ok c s -> safe (mret (rep, c')) s.
Proof. intros E Hr Hc. split; [|done]. intros uid Eu. apply Hc. congruence. Qed.
Lemma safe_page rep c s : pendingTotpUserId c = None -> reply_ok rep -> safe (mret (rep, c)) s.
Proof. intros E Hr. split; [|done]. intros uid Eu. congruence. Qed.
Ltac answer Hc := eapply safe_answer; [|first [exact I | reflexivity | apply safeNext_local | idtac]|
  first [exact Hc | eapply cookie_mono; [|exact Hc]; eauto using grows_trans]]; done.

Lemma signup_safe c s : asked rq POST R_signup s -> cookie_ok c s -> safe (post_signup cfg rq c) s.
Proof.
  intros Ha Hc. unfold post_signup. apply safe_email. intros email Hn. apply safe_field. intros pw Hp. apply safe_field. intros text Ht.
  destruct (negb (isEmail email)); [answer Hc|]. destruct (Z.ltb_spec (zlen pw) 10); [answer Hc|]. destruct (_ && _) eqn:Ev; [answer Hc|].
  apply safe_select_email. intros s1 [a|] G1 Hi1 _; [answer Hc|]. apply safe_hash. intros s2 salt G2 Hi2. assert (grows s s2) as Gs2 by (by transitivity s1).
  apply safe_insert_account; [eauto with web|done|done|done| |].
  - intros x Ex. case_bool_decide as Eb; [done|]. injection Ex as <-. cbn in Ev. apply negb_false_iff in Ev.
    split; [done|]. by exists text.
  - intros s3 G3 Hi3 Hm. assert (grows s s3) as Gs3 by (by transitivity s2). apply safe_mail; [done|].
    intros s4 G4 Hi4. assert (grows s s4) as Gs4 by (by transitivity s3). answer Hc.
Qed.
Lemma verify_safe c s : asked rq GET R_verify_email s -> cookie_ok c s -> safe (get_verify_email rq c) s.
Proof.
  intros Ha Hc. unfold get_verify_email. apply safe_field. intros token Ht. case_bool_decide; [answer Hc|].
  apply (safe_select_token verify_link token verify_tokens); [intros s1 Hi; apply Hi|]. intros s1 [uid|] G1 Hi1 Hrow; [|answer Hc].
  destruct (Hrow uid eq_refl) as (t & Hm & Ho & <- & <-). apply safe_verify_account; [eauto with web|done|done|done|].
  intros s2 G2 Hi2. assert (grows s s2) as Gs2 by (by transitivity s1). answer Hc.
Qed.
Lemma login_safe c s : asked rq POST R_login s -> cookie_ok c s -> safe (post_login cfg rq c) s.
Proof.
  intros Ha Hc. unfold post_login. apply safe_email. intros email Hn. apply safe_field. intros pw Hp. apply safe_res. intros n _. apply safe_res. intros next _.
  apply safe_select_email. intros s1 [a|] G1 Hi1 Hrow; [|answer Hc]. destruct (Hrow a eq_refl) as (_ & (t & Hr) & <-).
  apply safe_verify. intros s2 [] G2 Hi2 Hv; [|cbn [negb]; assert (grows s s2) as Gs2 by (by transitivity s1); answer Hc]. specialize (Hv eq_refl). cbn [negb].
  assert (grows s s2) as Gs2 by (by transitivity s1).
  assert (forall b, ac_totp_enabled a = b -> password_by rq (ac_id a) b s2) as Hpw.
  { intros b Eb. split; [eauto with web|]. exists a, pw, t. split; [eauto with web|]. done. }
  destruct (ac_totp_enabled a) eqn:Et.
  - split; [|done]. intros uid [= <-]. exists rq. by apply Hpw.
  - apply safe_createSession; [left; by apply Hpw|]. intros s3 id G3 Hi3. apply safe_login. intros s4 G4 Hi4.
    assert (grows s s4) as Gs4 by (transitivity s2; [done|by transitivity s3]). answer Hc.
Qed.
Lemma logout_safe c s : cookie_ok c s -> safe (post_logout c) s.
Proof.
  intros Hc. unfold post_logout. destruct (sid c) as [[|x id]|]; [answer Hc| |answer Hc]. apply safe_deleteSession. intros s1 G1 Hi1. answer Hc.
Qed.
Lemma forgot_safe c s : asked rq POST R_forgot s -> cookie_ok c s -> safe (post_forgot cfg rq c) s.
Proof.
  intros Ha Hc. unfold post_forgot. apply safe_email. intros email Hn. destruct (negb (isEmail email)); [answer Hc|].
  apply safe_select_email. intros s1 [a|] G1 Hi1 Hrow; [|answer Hc]. destruct (Hrow a eq_refl) as (Hr & _ & <-). apply safe_assoc.
  apply safe_insert_reset; [eauto with web|done|done|]. intros s2 G2 Hi2 Hm. assert (grows s s2) as Gs2 by (by transitivity s1). apply safe_mail; [done|].
  intros s3 G3 Hi3. assert (grows s s3) as Gs3 by (by transitivity s2). answer Hc.
Qed.
Lemma get_reset_safe c s : cookie_ok c s -> safe (get_reset rq c) s.
Proof.
  intros Hc. unfold get_reset. apply safe_field. intros token _. apply (safe_select_token reset_link token reset_tokens); [intros s1 Hi; apply Hi|].
  intros s1 [uid|] G1 Hi1 _; answer Hc.
Qed.
Lemma reset_safe c s : asked rq POST R_reset s -> cookie_ok c s -> safe (post_reset rq c) s.
Proof.
  intros Ha Hc. unfold post_reset. apply safe_field. intros token Ht. apply safe_field. intros pw Hp. destruct (Z.ltb_spec (zlen pw) 10); [answer Hc|].
  apply (safe_select_token reset_link token reset_tokens); [intros s1 Hi; apply Hi|]. intros s1 [uid|] G1 Hi1 Hrow; [|answer Hc].
  destruct (Hrow uid eq_refl) as (t & Hm & Ho & <- & <-). apply safe_hash. intros s2 salt G2 Hi2. assert (grows s s2) as Gs2 by (by transitivity s1).
  apply safe_reset; [eauto with web|done|done|done|by apply (token_mono s1)|eauto with web|]. intros s3 G3 Hi3. assert (grows s s3) as Gs3 by (by transitivity s2). answer Hc.
Qed.
Lemma get_setup_safe u c s : cookie_ok c s -> safe (get_2fa_setup rq u c) s.
Proof.
  intros Hc. unfold get_2fa_setup. destruct u as [u|]; [|answer Hc]. apply safe_select_id. intros s1 [a|] G1 Hi1 _; [|answer Hc].
  destruct (ac_totp_enabled a); [answer Hc|]. apply safe_qrcode. intros s2 G2 Hi2. assert (grows s s2) as Gs2 by (by transitivity s1). answer Hc.
Qed.

(** The user of a request is the user of the session in its cookie. *)
Definition user_of (u : option account) (s : web) : Prop := forall a, u = Some a -> logged_in rq a s.
Lemma setup_safe u c s : asked rq POST R_2fa_setup s -> user_of u s -> pendingTotpSecret c = pendingTotpSecret (rq_cookie rq) -> cookie_ok c s ->
  safe (post_2fa_setup rq u c) s.
Proof.
  intros Ha Hu Es Hc. unfold post_2fa_setup. destruct u as [u|]; [|answer Hc].
  destruct (pendingTotpSecret c) as [[|x sec]|]; [answer Hc| |answer Hc].
  apply safe_field. intros code Hco. apply safe_res. intros [] Hok; cbn [negb].
  - apply (safe_enable u (x :: sec) code); auto. intros s1 G1 Hi1. answer Hc.
  - apply safe_select_id. intros s1 [a|] G1 Hi1 _; [|done]. apply safe_qrcode. intros s2 G2 Hi2. assert (grows s s2) as Gs2 by (by transitivity s1). answer Hc.
Qed.
Lemma disable_safe u c s : asked rq POST R_2fa_disable s -> user_of u s -> cookie_ok c s -> safe (post_2fa_disable u c) s.
Proof. intros Ha Hu Hc. unfold post_2fa_disable. destruct u as [u|]; [|answer Hc]. apply safe_disable; auto. intros s1 G1 Hi1. answer Hc. Qed.
Lemma code_safe c s : asked rq POST R_2fa_verify s -> pendingTotpUserId c = pendingTotpUserId (rq_cookie rq) -> cookie_ok c s -> safe (post_2fa_verify cfg rq c) s.
Proof.
  intros Ha Ec Hc. unfold post_2fa_verify, pending_user. destruct (pendingTotpUserId c) as [uid|] eqn:Ep; [|answer Hc].
  destruct (uid =? 0); [answer Hc|]. apply safe_field. intros code Hco. apply safe_select_id. intros s1 row G1 Hi1 Hrow.
  match goal with |- safe (_ ≫= ?g) _ => set (next := g) end. assert (safe (next false) s1) as Hf by (unfold next; cbn [negb]; answer Hc).
  destruct (row ≫= ac_totp_secret) as [[|x sec]|] eqn:Er; [exact Hf| |exact Hf]. apply safe_res. intros [] Et; [|exact Hf]. unfold next. cbn [negb].
  destruct row as [a|]; [|done]. cbn in Er. destruct (Hrow a eq_refl) as [(t & Hr) Eid]. apply safe_createSession.
  - right. split; [|destruct (Hc uid Ep) as [rq0 Hp]; exists rq0; eauto with web]. split; [eauto with web|]. split; [congruence|].
    by exists a, (x :: sec), code, t.
  - intros s2 id G2 Hi2. apply safe_login. intros s3 G3 Hi3. apply safe_page; [done|apply safeNext_local].
Qed.
Lemma settings_payout_safe u c s : asked rq POST R_settings_payout s -> logged_in rq u s -> ac_email_verified u = true -> cookie_ok c s ->
  safe (post_settings_payout cfg rq u c) s.
Proof.
  intros Ha Hl Hu Hc. unfold post_settings_payout. apply safe_field. intros text Ht. apply safe_field. intros m Hm.
  destruct (isValidB3AddressForNetwork _ _) eqn:Ev; cbn [negb]; [|answer Hc]. apply safe_node. intros s1 [[]|e] G1 Hi1 Hnode; [|answer Hc..].
  destruct (_ || _) eqn:Eb; [answer Hc|]. apply safe_res. intros min Hmin. apply (safe_payout u text m min); auto; [eauto with web..|].
  intros s2 G2 Hi2. assert (grows s s2) as Gs2 by (by transitivity s1). answer Hc.
Qed.
Lemma settings_password_safe u c s : asked rq POST R_settings_password s -> logged_in rq u s -> cookie_ok c s -> safe (post_settings_password rq u c) s.
Proof.
  intros Ha Hl Hc. unfold post_settings_password. apply safe_field. intros old Ho. apply safe_field. intros pw Hp. destruct (Z.ltb_spec (zlen pw) 10); [answer Hc|].
  apply safe_select_id. intros s1 [a|] G1 Hi1 Hrow; [|answer Hc]. destruct (Hrow a eq_refl) as [(t & Hr) Eid].
  apply safe_verify. intros s2 [] G2 Hi2 Hv; cbn [negb]; (assert (grows s s2) as Gs2 by (by transitivity s1)); [|answer Hc].
  apply safe_hash. intros s3 salt G3 Hi3. assert (grows s s3) as Gs3 by (by transitivity s2).
  apply (safe_change u a salt pw old t); [eauto with web|eauto with web|done|done|done|eauto using grows_trans with web|done|auto|].
  intros s4 G4 Hi4. assert (grows s s4) as Gs4 by (by transitivity s3). answer Hc.
Qed.

Lemma route_safe u c s : asked rq (rq_method rq) (rq_route rq) s -> user_of u s -> pendingTotpUserId c = pendingTotpUserId (rq_cookie rq) ->
  pendingTotpSecret c = pendingTotpSecret (rq_cookie rq) -> cookie_ok c s -> safe (route cfg rq u c) s.
Proof.
  intros Ha Hu Ec Es Hc. unfold route, limiter, requireVerified. destruct (rq_method rq), (rq_route rq); try (destruct (rq_limited rq); [answer Hc|]);
    lazymatch goal with
    | |- safe (post_signup _ _ _) _ => by apply signup_safe
    | |- safe (get_verify_email _ _) _ => by apply verify_safe
    | |- safe (post_login _ _ _) _ => by apply login_safe
    | |- safe (post_logout _) _ => by apply logout_safe
    | |- safe (post_forgot _ _ _) _ => by apply forgot_safe
    | |- safe (get_reset _ _) _ => by apply get_reset_safe
    | |- safe (post_reset _ _) _ => by apply reset_safe
    | |- safe (get_2fa_setup _ _ _) _ => by apply get_setup_safe
    | |- safe (post_2fa_setup _ _ _) _ => by apply setup_safe
    | |- safe (post_2fa_disable _ _) _ => by apply disable_safe
    | |- safe (post_2fa_verify _ _ _) _ => by apply code_safe
    | |- _ => try answer Hc
    end.
  - destruct (pending_user c); answer Hc.
  - destruct u as [a|]; [|destruct (encodeURIComponent _); answer Hc]. destruct (ac_email_verified a); answer Hc.
  - destruct u as [a|]; [|destruct (encodeURIComponent _); answer Hc]. destruct (ac_email_verified a) eqn:E; [|answer Hc]. by apply settings_payout_safe; auto.
  - destruct u as [a|]; [|destruct (encodeURIComponent _); answer Hc]. destruct (ac_email_verified a) eqn:E; [|answer Hc]. by apply settings_password_safe; auto.
Qed.

Lemma load_safe c f s : sid c = sid (rq_cookie rq) ->
  (forall s1 u c', grows s s1 -> inv s1 -> user_of u s1 -> c' = c \/ c' = set_sid None c -> safe (f (u, c')) s1) ->
  inv s -> safe (loadCurrentUser c ≫= f) s.
Proof.
  intros Es Hf Hi. unfold loadCurrentUser. assert (forall s1, grows s s1 -> inv s1 -> safe (f (None, set_sid None c)) s1) as Hn.
  { intros s1 G Hi1. apply Hf; [done..|by intros a Ea|by right]. }
  destruct (sid c) as [[|x id]|] eqn:Ec; cbn [default from_option]; [by apply Hn| |by apply Hn]. rewrite bool_decide_false by done.
  apply safe_assoc, safe_select_session. intros s1 [uid|] G1 Hi1 Hrow; [|by apply Hn]. destruct (Hrow uid eq_refl) as (r & t & Hr & E1 & E2 & E3).
  destruct (uid =? 0); [by apply Hn|]. apply safe_assoc, safe_select_id. intros s2 [a|] G2 Hi2 Ha; (assert (grows s s2) as Gs2 by (by transitivity s1)); [|by apply Hn].
  destruct (Ha a eq_refl) as [(t' & Hra) Eid]. apply Hf; [done|done| |by left]. intros b [= <-]. exists (x :: id), r, t, t'. split; [congruence|].
  split; [eauto with web|]. do 2 (split; [done|]). split; [congruence|done].
Qed.

(** ** Runs *)
Lemma handle_safe s : inv s -> rq ∈ w_requests s -> rq_cookie rq ∈ w_cookies s -> safe (handle cfg rq) s.
Proof.
  intros Hi Hrq Hck. unfold handle. set (c := csrfTokenMiddleware rq (clear_flash (rq_cookie rq))).
  assert (sid c = sid (rq_cookie rq) /\ pendingTotpUserId c = pendingTotpUserId (rq_cookie rq) /\
    pendingTotpSecret c = pendingTotpSecret (rq_cookie rq)) as (E1 & E2 & E2').
  { unfold c, csrfTokenMiddleware. by destruct (csrf_token _) as [[]|]. }
  assert (cookie_ok c s) as Hc. { intros uid Eu. pose proof (inv_cookies s Hi) as Hf. eapply Forall_forall in Hf; [|exact Hck]. apply Hf. congruence. }
  apply load_safe; [done| |done]. intros s1 u c' G Hi1 Hu Hc'.
  assert (csrf_ok rq c' = csrf_ok rq c /\ pendingTotpUserId c' = pendingTotpUserId c /\ pendingTotpSecret c' = pendingTotpSecret c)
    as (E3 & E4 & E5) by (by destruct Hc' as [-> | ->]).
  assert (cookie_ok c' s1) as Hc1 by (intros uid Eu; apply (cookie_mono s s1 G c Hc); congruence). rewrite E3.
  destruct (csrf_ok rq c) eqn:Eok; [|answer Hc1]. apply route_safe; [|done|congruence|congruence|done]. split; [by apply G|]. done.
Qed.
End Prog.

Definition web_ok (s : web) : Prop := inv s /\ Forall (fun t => safe t.1 t.2 s) (w_tasks s).
Lemma tasks_mono s s' l : grows s s' -> Forall (fun t : request * prog answer => safe t.1 t.2 s) l -> Forall (fun t => safe t.1 t.2 s') l.
Proof. intros G Hl. eapply Forall_impl; [exact Hl|]. intros t. by apply safe_mono. Qed.
(** The invariant is about the database, the cookies and the records. *)
Lemma inv_records s s' : grows s s' -> w_db s' = w_db s -> w_past s' = w_past s -> Forall (fun c => c ∈ w_cookies s \/ cookie_ok c s) (w_cookies s') ->
  Forall (fun x => x ∈ w_replies s \/ reply_ok x.2) (w_replies s') -> inv s -> inv s'.
Proof.
  intros G Ed Ep Hc Hr [K1 K2 K3 K4 K5 K6 K7 K8 K9 K10]. split; rewrite ?Ed, ?Ep; try done.
  - intros a (d & Hd & Ha). apply K3. exists d. by rewrite <- Ep.
  - eapply Forall_impl; [exact K4|]. intros x. by apply account_mono.
  - eapply Forall_impl; [exact K5|]. intros x. by apply session_mono.
  - eapply Forall_impl; [exact K6|]. intros x. by apply token_mono.
  - eapply Forall_impl; [exact K7|]. intros x. by apply token_mono.
  - eapply Forall_impl; [exact K8|]. intros x. by apply mail_mono.
  - eapply Forall_impl; [exact Hc|]. intros c [Hin|Hok]; eapply cookie_mono; [exact G| |exact G|exact Hok]. by eapply Forall_forall in K9.
  - eapply Forall_impl; [exact Hr|]. intros x [Hin|Hok]; [by eapply Forall_forall in K10|done].
Qed.
Lemma grows_tasks l s : grows s (set_w_tasks l s).
Proof. by split. Qed.
Lemma grows_request rq s : grows s (record_request rq s).
Proof. split; cbn; [intros x Hx; apply elem_of_app; by left|done..]. Qed.
Lemma inv_tasks l s : inv s -> inv (set_w_tasks l s).
Proof. apply inv_records; [apply grows_tasks|done|done|apply old_rows..]. Qed.
Lemma inv_request rq s : inv s -> inv (record_request rq s).
Proof. apply inv_records; [apply grows_request|done|done|apply old_rows..]. Qed.
Lemma web_finish_ok rq r s : web_ok s -> post r s -> web_ok (finish rq r s).
Proof.
  intros [Hi Ht] Hp. assert (grows s (finish rq r s)) as G by (destruct r as [[]|]; by split).
  split; [|destruct r as [[]|]; by eapply tasks_mono; [exact G|exact Ht]]. apply (inv_records s); [done|by destruct r as [[]|]..| | |done].
  - destruct r as [[rep c]|e]; [|apply old_rows]. by apply new_row, Hp.
  - destruct r as [[rep c]|e]; [|apply old_rows]. apply (new_row (w_replies s)). by apply Hp.
Qed.
Lemma web_step_ok ev s : web_ok s -> web_ok (web_step cfg ev s).
Proof.
  intros [Hi Ht]. unfold web_step. destruct (w_crashed s); [done|]. destruct ev as [rq|k e].
  - case_bool_decide as Hc; [|done]. pose proof (grows_request rq s) as G.
    assert (safe rq (handle cfg rq) (record_request rq s)) as Hs.
    { apply handle_safe; [by apply inv_request|cbn; apply elem_of_app; right; by apply list_elem_of_singleton|done]. }
    assert (web_ok (record_request rq s)) as Hok by (split; [by apply inv_request|by eapply tasks_mono]).
    destruct (handle cfg rq) as [r|X m f]; [by apply web_finish_ok|]. split; [by apply inv_tasks, inv_request|].
    apply (tasks_mono (record_request rq s)); [apply grows_tasks|]. cbn. apply Forall_app. split; [apply Hok|]. constructor; [exact Hs|constructor].
  - destruct (w_tasks s !! k) as [[rq [r|X m f]]|] eqn:Ek; [done| |done].
    assert (safe rq (Await m f) s) as Hs by (eapply Forall_lookup_1 in Ht; [|exact Ek]; exact Ht).
    destruct (Hs s e ltac:(done) Hi) as [Hi' Hf]. destruct (m e (w_db s)) as [x d]. cbn [fst snd] in Hi', Hf.
    assert (Forall (fun t => safe t.1 t.2 (advance rq e d s)) (w_tasks s)) as Ht' by (eapply tasks_mono; [apply grows_advance|done]).
    destruct (f x) as [r|Y m' f'].
    + apply web_finish_ok; [split; [by apply inv_tasks|]|by eapply (safe_mono rq (Return r)); [apply grows_tasks|]].
      apply (tasks_mono (advance rq e d s)); [apply grows_tasks|]. cbn. by apply Forall_delete.
    + split; [by apply inv_tasks|]. apply (tasks_mono (advance rq e d s)); [apply grows_tasks|]. cbn. by apply Forall_insert.
Qed.

(** A database without sessions, links and mails. *)
Definition fresh_db : Prop :=
  NoDup (ac_id <$> accounts d0) /\ Forall (fun a => ac_id a < next_account d0) (accounts d0) /\
  sessions d0 = [] /\ reset_tokens d0 = [] /\ verify_tokens d0 = [] /\ outbox d0 = [].
Lemma web_run_ok es : fresh_db -> inv (web_run cfg es (init_web d0)).
Proof.
  intros (H1 & H2 & H3 & H4 & H5 & H6). enough (web_ok (web_run cfg es (init_web d0))) by apply H0.
  assert (web_ok (init_web d0)) as Hinit.
  { split; [|constructor]. split; cbn; rewrite ?H3, ?H4, ?H5, ?H6; try done.
    - by apply list_elem_of_singleton.
    - intros a (d & ->%list_elem_of_singleton & Ha). by apply (list_elem_of_fmap_2 (fun a => (ac_id a, ac_email a))).
    - apply Forall_forall. intros a Ha. assert (forall P : account -> Prop, P a -> initially P a) as Hin by (intros P HP; by exists a).
      split; [left; by apply Hin|intros addr E; left; by apply Hin|left; by apply Hin| |intros E; left; by apply Hin|intros E; by apply Hin].
      unfold totp_made. destruct (ac_totp_enabled a) eqn:E; left; by apply Hin.
    - constructor; [|constructor]. by intros uid. }
  revert Hinit. generalize (init_web d0). induction es as [|ev es IH]; intros s Hs; [done|]. apply IH. by apply web_step_ok.
Qed.

(** C17: no session without a password, and none without a code where a second factor is on.
    In every run, with any interleaving of requests, failures of the database and replayed
    cookies: the id of each session is the random number of one request, which either gave
    the password of the session's user, whose second factor was off when the row was read,
    or gave a code that the user's secret verifies, with a cookie that was set when an
    earlier request had given the password; and the session ends [cf_sessionHours] hours
    after the request stored it. *)
Theorem sessions_earned es r : fresh_db -> let s := web_run cfg es (init_web d0) in r ∈ sessions (w_db s) -> session_made r s.
Proof. intros Hd s Hr. pose proof (inv_sessions s (web_run_ok es Hd)) as Hf. by eapply Forall_forall in Hf. Qed.

(** C18: what is in an account is what its owner asked for.  In every run of the server, with
    any interleaving of requests, what is in an account and was not there initially comes
    from requests that carry the anti-forgery token of their cookie:
    - the password, of ten characters at least, from the sign-up of its address, from a
      request that opened a reset link of the account less than two hours after it was
      stored, or from a session of the account, with an old password that verified against
      the row which that request read;
    - the payout address, valid for the network, from the sign-up or from a session of the
      account, whose email was verified, after the node accepted an address;
    - the minimum, one coin from the sign-up or an amount between 0.01 and 1000 that such a
      session gave;
    - a second factor that is on, from a session whose cookie had the secret and which gave
      a code that verifies against it, and one that is off, from the sign-up or a session
      of the account;
    - the verification of its email, from a request that opened the link of the sign-up less
      than 48 hours after it was stored;
    - and nobody becomes an administrator.
    A session counts when its row was there and had not expired as the request looked. *)
Theorem accounts_earned es a : fresh_db -> let s := web_run cfg es (init_web d0) in a ∈ accounts (w_db s) -> account_made a s.
Proof. intros Hd s Ha. pose proof (inv_accounts s (web_run_ok es Hd)) as Hf. by eapply Forall_forall in Hf. Qed.

(** C26: links go to the address they are for.  In every run each mail is sent to the address
    of an account that was in the database, and its text has the verification link or the
    reset link with a token that was stored for this account, drawn by a request for it
    that named this address; and every token in the database was stored by such a request,
    with the time it lasts. *)
Theorem links_addressed es : fresh_db -> let s := web_run cfg es (init_web d0) in
  (forall m, m ∈ outbox (w_db s) -> mail_made m s) /\ (forall t, t ∈ reset_tokens (w_db s) -> token_made reset_link t s) /\
  (forall t, t ∈ verify_tokens (w_db s) -> token_made verify_link t s).
Proof.
  intros Hd s. pose proof (web_run_ok es Hd) as Hi. fold s in Hi. split; [|split]; apply Forall_forall; apply Hi.
Qed.

(** C27: nobody is sent away.  In every run each redirection is to a path of this site, also
    after a login, whose target the request gives. *)
Theorem redirects_local es rq url : fresh_db -> let s := web_run cfg es (init_web d0) in (rq, Redirect url) ∈ w_replies s -> local_url url = true.
Proof. intros Hd s Hr. pose proof (inv_replies s (web_run_ok es Hd)) as Hf. eapply Forall_forall in Hf; [|exact Hr]. exact Hf. Qed.

(** A link with a NUL ends the web server.  In every state, a request for
    [/auth/verify-email] that carries no session and has a token with a NUL character is
    accepted, and its query, whether or not the database is there, ends the process. *)
Theorem nul_link_ends_web rq token s e : w_crashed s = false -> rq_cookie rq ∈ w_cookies s -> sid (rq_cookie rq) = None ->
  rq_method rq = GET -> rq_route rq = R_verify_email -> sends (rq_query rq) "token" token -> 0 ∈ token ->
  w_crashed (web_run cfg [WRequest rq; WAccess (length (w_tasks s)) e] s) = true.
Proof.
  intros Hcr Hck Hs Em Er Ht H0. unfold web_run. cbn [foldl]. unfold web_step at 2. rewrite Hcr, bool_decide_true by done.
  assert (exists f, handle cfg rq = Await (select_verify token) (fun r => match r with Ok x => f x | Throw e => Return (Throw e) end)) as [f Ef].
  { unfold handle, loadCurrentUser. assert (sid (csrfTokenMiddleware rq (clear_flash (rq_cookie rq))) = None) as ->.
    { unfold csrfTokenMiddleware. by destruct (csrf_token _) as [[]|]. }
    cbn. unfold csrf_ok. rewrite Em. unfold route. rewrite Em, Er. unfold get_verify_email. unfold sends in Ht. rewrite Ht. cbn.
    rewrite bool_decide_false by (intros ->; by apply not_elem_of_nil in H0). eexists. reflexivity. }
  rewrite Ef. unfold web_step. cbn [w_crashed set_w_tasks record_request w_tasks]. rewrite Hcr, lookup_app_r, Nat.sub_diag by done. cbn [lookup list_lookup].
  assert (existsb (includes 0) [token] = true) as En by (cbn; unfold includes; by rewrite bool_decide_true).
  unfold select_verify, sql. rewrite En. by destruct (e_fail e).
Qed.
End Web.
