(* ===== verification/WebExamples.v ===== *)
(** * The accounts of the web site: a run

    A user signs up, follows the link, logs in and sets a payout address, with toy
    libraries: the witnesses of the theorems of [WebProofs], and what they do not exclude. *)

From S2P Require Import Prelude JsString JsMap JsNumber JsRound JsFormat Effects Json Header Address Numeric JobManager WebAccounts WebProofs.

#[local] Instance ex_libs : WebLibs := {
  argon2_hash salt pw := js "argon2:" ++ pw;
  argon2_verify h pw := Ok (bool_decide (h = js "argon2:" ++ pw));
  totp_check now code secret := Ok (bool_decide (code = secret));
  toLower := toLowerCase
}.
Definition ex_cfg : web_config := {| cf_baseUrl := js "https://pool"; cf_net := testnet; cf_sessionHours := 168 |}.
Definition ex_db0 : web_db := mkWebDb [] [] [] [] 1 [].
Abbreviation ex_run := (web_run ex_cfg).

Definition ex_random (n : Z) : bytes := replicate 24 n.
Definition ex_request (m : method_t) (r : route_t) (query body : list (jsstr * jval)) (c : PoolSession) (n : Z) : request := {|
  rq_method := m; rq_route := r; rq_url := js "/dashboard/settings"; rq_query := JObj query; rq_body := JObj body; rq_csrf_header := None;
  rq_user_agent := None; rq_ip := None; rq_cookie := c; rq_limited := false; rq_random := ex_random n; rq_csrf_random := ex_random 7;
  rq_totp_secret := js "secret"; rq_now := 1000 |}.
Definition ex_env : env := {| e_now := 1000; e_fail := false; e_salt := []; e_node := Ok true |}.
(** The accesses of the only task. *)
Definition ex_accesses (n : nat) : list web_event := replicate n (WAccess 0 ex_env).

Definition ex_csrf : jsstr := bytesToHex (ex_random 7).
Definition ex_body (l : list (jsstr * jsstr)) : list (jsstr * jval) := (js "_csrf", JStr ex_csrf) :: ((fun x => (x.1, JStr x.2)) <$> l).
(** A browser with a token, and one that is logged in. *)
Definition ex_cookie1 : PoolSession := set_csrf (Some ex_csrf) empty_session.
Definition ex_cookie2 : PoolSession := set_sid (Some (bytesToHex (ex_random 3))) ex_cookie1.
Definition ex_email : jsstr := js "alice@example.com".
Definition ex_password : jsstr := js "correct horse".

Definition ex_visit : list web_event := [WRequest (ex_request GET R_login [] [] empty_session 0)].
Definition ex_signup : list web_event :=
  WRequest (ex_request POST R_signup [] (ex_body [(js "email", ex_email); (js "password", ex_password)]) ex_cookie1 1) :: ex_accesses 4.
Definition ex_verify : list web_event :=
  WRequest (ex_request GET R_verify_email [(js "token", JStr (bytesToHex (ex_random 1)))] [] ex_cookie1 2) :: ex_accesses 2.
Definition ex_login : list web_event :=
  WRequest (ex_request POST R_login [] (ex_body [(js "email", ex_email); (js "password", ex_password)]) ex_cookie1 3) :: ex_accesses 4.
Definition ex_payout : list web_event :=
  WRequest (ex_request POST R_settings_payout [] (ex_body [(js "payout_address", example_address); (js "minimum_payout_b3c", js "2.5")]) ex_cookie2 4)
  :: ex_accesses 4.
Definition ex_events : list web_event := ex_visit ++ ex_signup ++ ex_verify ++ ex_login ++ ex_payout.

Definition ex_final : web_db := Eval vm_compute in w_db (ex_run ex_events (init_web ex_db0)).
Definition ex_replies : list reply := Eval vm_compute in (w_replies (ex_run ex_events (init_web ex_db0))).*2.

Lemma ex_fresh : fresh_db ex_db0.
Proof. repeat split; constructor. Qed.

Definition ex_state : web := ex_run ex_events (init_web ex_db0).
Definition ex_session : session_row :=
  {| ss_id := bytesToHex (ex_random 3); ss_user := 1; ss_expires := 605800; ss_user_agent := []; ss_ip := [] |}.
Lemma sessions_earned_witness : w_db ex_state = ex_final /\ session_made ex_cfg ex_session ex_state.
Proof.
  split; [vm_compute; reflexivity|]. apply (sessions_earned ex_cfg ex_db0 ex_events ex_session ex_fresh).
  apply (list_elem_of_lookup_2 _ 0). vm_compute. reflexivity.
Defined.

(** The user goes on: a second factor, and a new password with a reset link. *)
Definition ex_setup : list web_event :=
  WRequest (ex_request GET R_2fa_setup [] [] ex_cookie2 9) :: ex_accesses 4 ++
  WRequest (ex_request POST R_2fa_setup [] (ex_body [(js "code", js "secret")]) (set_pendingSecret (Some (js "secret")) ex_cookie2) 10) :: ex_accesses 3.
Definition ex_forgot : list web_event :=
  WRequest (ex_request POST R_forgot [] (ex_body [(js "email", ex_email)]) ex_cookie1 5) :: ex_accesses 3.
Definition ex_reset (pw : jsstr) : web_event :=
  WRequest (ex_request POST R_reset [] (ex_body [(js "token", bytesToHex (ex_random 5)); (js "password", pw)]) ex_cookie1 6).
Definition ex_later : list web_event := ex_events ++ ex_setup ++ ex_forgot ++ ex_reset (js "password one") :: ex_accesses 3.
Definition ex_account : account :=
  mkAccount 1 ex_email (js "argon2:password one") true (Some (js "secret")) true (Some example_address) (Some 250000000) false (Some 1000).
Lemma accounts_earned_witness : account_made ex_cfg ex_db0 ex_account (ex_run ex_later (init_web ex_db0)).
Proof.
  apply (accounts_earned ex_cfg ex_db0 ex_later ex_account ex_fresh). apply (list_elem_of_lookup_2 _ 0). vm_compute. reflexivity.
Defined.

Lemma links_addressed_witness :
  mail_made ex_cfg (verify_mail ex_cfg ex_email (bytesToHex (ex_random 1))) (ex_run ex_later (init_web ex_db0)) /\
  mail_made ex_cfg (reset_mail ex_cfg ex_email (bytesToHex (ex_random 5))) (ex_run ex_later (init_web ex_db0)).
Proof.
  destruct (links_addressed ex_cfg ex_db0 ex_later ex_fresh) as [Hm _].
  split; apply Hm; [apply (list_elem_of_lookup_2 _ 0)|apply (list_elem_of_lookup_2 _ 1)]; vm_compute; reflexivity.
Defined.

Lemma redirects_local_witness : local_url (js "/dashboard") = true.
Proof.
  apply (redirects_local ex_cfg ex_db0 ex_events
    (ex_request POST R_login [] (ex_body [(js "email", ex_email); (js "password", ex_password)]) ex_cookie1 3) (js "/dashboard") ex_fresh).
  apply (list_elem_of_lookup_2 _ 3). vm_compute. reflexivity.
Defined.

Definition ex_nul : request := ex_request GET R_verify_email [(js "token", JStr [0])] [] empty_session 0.
Lemma nul_link_ends_web_witness : w_crashed (ex_run [WRequest ex_nul; WAccess 0 ex_env] (init_web ex_db0)) = true.
Proof.
  apply (nul_link_ends_web ex_cfg ex_nul [0] (init_web ex_db0) ex_env).
  - reflexivity.
  - left.
  - reflexivity.
  - reflexivity.
  - reflexivity.
  - reflexivity.
  - left.
Defined.

(** ** What the theorems do not exclude *)
(** A reset link works twice when two requests read the token before either uses it up. *)
Lemma reset_link_works_twice :
  let s := ex_run (ex_events ++ ex_forgot ++ [ex_reset (js "password one"); ex_reset (js "password two"); WAccess 0 ex_env; WAccess 1 ex_env] ++
    ex_accesses 4) (init_web ex_db0) in
  (ac_password_hash <$> accounts (w_db s)) = [js "argon2:password two"] /\
  drop 6 (w_replies s).*2 = [Redirect (js "/auth/login"); Redirect (js "/auth/login")].
Proof. vm_compute. split; reflexivity. Qed.

(** A session goes on after the password of its account was reset. *)
Lemma session_survives_reset :
  let s := ex_run (ex_events ++ ex_forgot ++ [ex_reset (js "password one")] ++ ex_accesses 3 ++
    [WRequest (ex_request GET R_settings [] [] ex_cookie2 8)] ++ ex_accesses 2) (init_web ex_db0) in
  (ac_password_hash <$> accounts (w_db s)) = [js "argon2:password one"] /\
  last (w_replies s).*2 = Some (Page 200 "dashboard/settings" None None).
Proof. vm_compute. split; reflexivity. Qed.

(** A second factor is switched off in a session, without a code. *)
Lemma totp_disabled_without_code :
  let s := ex_run (ex_events ++ ex_setup ++
    [WRequest (ex_request POST R_2fa_disable [] (ex_body []) ex_cookie2 11)] ++ ex_accesses 3) (init_web ex_db0) in
  ((fun d => ac_totp_enabled <$> accounts d) <$> drop (length (w_past s) - 4) (w_past s)) = [[true]; [true]; [true]; [false]].
Proof. vm_compute. reflexivity. Qed.
