(* ===== verification/Services.v ===== *)
(** * Configuration, the client of the node, and the endpoint of the stratum service
    ([pool/src/config.ts], [lib/rpc.ts], [stratum/main.ts])

    The environment is a list of names and texts; files are read through a parameter.  A request to the node
    is the text that is sent; an answer is what [fetch] and [text()] give. *)

From S2P Require Import Prelude JsString JsMap JsNumber JsRound JsFormat Effects Json Header Difficulty Address Vardiff.
From S2P Require Import JobManager B3Pow PadCache ShareValidator Passports Ipc StratumClient StratumServer WebAccounts.

(** ** config.ts *)
Section Config.
Context (process_env : list (jsstr * jsstr)) (readFileUtf8 : jsstr -> res jsstr).

(** [v !== undefined && v !== ""]. *)
Definition env_value (name : jsstr) : option jsstr := match map_get name process_env with Some (c :: v) => Some (c :: v) | _ => None end.
Definition env_text (name : string) (def : option string) : res jsstr :=
  match env_value (js name), def with
  | Some v, _ => Ok v
  | None, Some d => Ok (js d)
  | None, None => Throw "Missing required env var"
  end.
Definition envInt (name : string) (def : Z) : res jsnum :=
  match env_value (js name) with
  | None => Ok (num_of_Z def)
  | Some v =>
      let n := from_option num_of_Z S754_nan (parseInt10 v) in
      if isFinite n then Ok n else Throw "not an integer"
  end.
Definition envFloat (name : string) (def : jsnum) : res jsnum :=
  match env_value (js name) with
  | None => Ok def
  | Some v => let n := parseFloat v in if isFinite n then Ok n else Throw "not a number"
  end.
Definition envBool (name : string) (def : bool) : bool :=
  match env_value (js name) with
  | None => def
  | Some v => bool_decide (toLowerCase (trim v) ∈ [js "1"; js "true"; js "yes"; js "on"])
  end.
(** [s.split(",")]. *)
Fixpoint split_on (c : Z) (s : jsstr) : list jsstr :=
  match s with
  | [] => [[]]
  | d :: s =>
      match split_on c s with
      | x :: l => if d =? c then [] :: x :: l else (d :: x) :: l
      | [] => []
      end
  end.
Definition add_worker (out : list (jsstr * jsnum)) (part : jsstr) : list (jsstr * jsnum) :=
  let item := trim part in
  let eq := lastIndexOf 61 item in
  if bool_decide (item = []) || (eq <=? 0) then out
  else
    let user := trim (take (Z.to_nat eq) item) in
    let diff := Number_str (drop (Z.to_nat (eq + 1)) item) in
    if negb (bool_decide (user = [])) && isFinite diff && nlt n0 diff then map_set user diff out else out.
Definition parseWorkerDifficulty (raw : jsstr) : list (jsstr * jsnum) := foldl add_worker [] (split_on 44 raw).
Definition envFileOrInline (name : string) : res jsstr :=
  match env_value (js name ++ js "_FILE") with
  | Some file => t ← readFileUtf8 file; Ok (trim t)
  | None => env_text name (Some ""%string)
  end.

Record config := {
  rpc_host : jsstr; rpc_port : jsnum; rpc_user : jsstr; rpc_password : jsstr; payoutWallet : jsstr; payoutAddress : jsstr;
  cf_network : jsstr; db_url : jsstr;
  stratum_bind : jsstr; stratum_port : jsnum; stratum : StratumConfig;
  cf_feePercent : jsnum; templatePollMs : jsnum; payoutIntervalMs : jsnum; cf_blockConfirmations : jsnum; cf_pplnsNShares : jsnum; shareSocket : jsstr;
  web_bind : jsstr; web_port : jsnum; web_baseUrl : jsstr; cookieSecret : jsstr; web_sessionHours : jsnum;
  smtp_host : jsstr; smtp_port : jsnum; smtp_from : jsstr; smtp_user : jsstr; smtp_pass : jsstr; log_level : jsstr;
  sv2_enable : bool; sv2_bind : jsstr; sv2_port : jsnum; authorityKeyFile : jsstr; staticKeyFile : jsstr; certFile : jsstr; certValidityDays : jsnum;
  tp_bind : jsstr; tp_port : jsnum; tp_pollMs : jsnum; jd_enable : bool; jd_bind : jsstr; jd_port : jsnum; tokenTtlMs : jsnum;
  translator_enable : bool; translator_bind : jsstr; translator_port : jsnum; translator_upstream : jsstr }.
(** The numbers of a configuration. *)
Definition config_numbers (c : config) : list jsnum := [
  rpc_port c; stratum_port c; defaultDifficulty (stratum c); minDifficulty (stratum c); maxDifficulty (stratum c); vardiffTargetSeconds (stratum c);
  vardiffRetuneSeconds (stratum c); cf_feePercent c; templatePollMs c; payoutIntervalMs c; cf_blockConfirmations c; cf_pplnsNShares c; web_port c;
  web_sessionHours c; smtp_port c; sv2_port c; certValidityDays c; tp_port c; tp_pollMs c; jd_port c; tokenTtlMs c; translator_port c].

Definition load_stratum : res StratumConfig :=
  dd ← envFloat "B3POOL_STRATUM_DEFAULT_DIFF" (num_of_Z 1024);
  mn ← envFloat "B3POOL_STRATUM_MIN_DIFF" (decimal 1 (-6));
  mx ← envFloat "B3POOL_STRATUM_MAX_DIFF" (num_of_Z 16000000);
  ts ← envInt "B3POOL_STRATUM_VARDIFF_TARGET_S" 600;
  rs ← envInt "B3POOL_STRATUM_VARDIFF_RETUNE_S" 30;
  wd ← env_text "B3POOL_WORKER_DIFF" (Some ""%string);
  Ok {| defaultDifficulty := dd; minDifficulty := mn; maxDifficulty := mx; vardiffEnabled := envBool "B3POOL_STRATUM_VARDIFF" false;
        vardiffTargetSeconds := ts; vardiffRetuneSeconds := rs; workerDifficulty := parseWorkerDifficulty wd |}.

Definition load_config : res config :=
  rh ← env_text "B3POOL_RPC_HOST" (Some "127.0.0.1"%string); rp ← envInt "B3POOL_RPC_PORT" 18534;
  ru ← env_text "B3POOL_RPC_USER" (Some "b3chain"%string); rw ← envFileOrInline "B3POOL_RPC_PASSWORD";
  pw ← env_text "B3POOL_PAYOUT_WALLET" (Some "pool-payouts"%string); pa ← env_text "B3POOL_PAYOUT_ADDRESS" (Some ""%string);
  nw ← env_text "B3POOL_NETWORK" (Some "testnet"%string); du ← env_text "B3POOL_DB_URL" None;
  sb ← env_text "B3POOL_STRATUM_BIND" (Some "0.0.0.0"%string); sp ← envInt "B3POOL_STRATUM_PORT" 3333; st ← load_stratum;
  fp ← envFloat "B3POOL_FEE_PERCENT" n1; tpm ← envInt "B3POOL_TEMPLATE_POLL_MS" 2000; pi ← envInt "B3POOL_PAYOUT_INTERVAL_MS" 3600000;
  bc ← envInt "B3POOL_BLOCK_CONFIRMATIONS" 100; pn ← envInt "B3POOL_PPLNS_N_SHARES" 4032;
  ss ← env_text "B3POOL_SHARE_SOCKET" (Some "/tmp/b3chain-pool-share.sock"%string);
  wb ← env_text "B3POOL_WEB_BIND" (Some "127.0.0.1"%string); wp ← envInt "B3POOL_WEB_PORT" 5100;
  bu ← env_text "B3POOL_BASE_URL" (Some "http://127.0.0.1:5100"%string); cs ← env_text "B3POOL_COOKIE_SECRET" None;
  sh ← envInt "B3POOL_SESSION_HOURS" 168;
  mh ← env_text "B3POOL_SMTP_HOST" (Some "127.0.0.1"%string); mp ← envInt "B3POOL_SMTP_PORT" 25;
  mf ← env_text "B3POOL_SMTP_FROM" (Some "noreply@b3chain.org"%string); mu ← env_text "B3POOL_SMTP_USER" (Some ""%string);
  mw ← env_text "B3POOL_SMTP_PASS" (Some ""%string); ll ← env_text "B3POOL_LOG_LEVEL" (Some "info"%string);
  vb ← env_text "B3POOL_SV2_BIND" (Some "0.0.0.0"%string); vp ← envInt "B3POOL_SV2_PORT" 3336;
  va ← env_text "B3POOL_SV2_AUTHORITY_KEY_FILE" (Some "/etc/b3chain-pool/sv2-authority.key"%string);
  vs ← env_text "B3POOL_SV2_STATIC_KEY_FILE" (Some "/etc/b3chain-pool/sv2-static.key"%string);
  vc ← env_text "B3POOL_SV2_CERT_FILE" (Some "/etc/b3chain-pool/sv2-cert.bin"%string); vd ← envInt "B3POOL_SV2_CERT_VALIDITY_DAYS" 90;
  tb ← env_text "B3POOL_TP_BIND" (Some "127.0.0.1"%string); tp ← envInt "B3POOL_TP_PORT" 8442; tm ← envInt "B3POOL_TP_POLL_MS" 2000;
  jb ← env_text "B3POOL_JD_BIND" (Some "0.0.0.0"%string); jp ← envInt "B3POOL_JD_PORT" 34264; jt ← envInt "B3POOL_JD_TOKEN_TTL_MS" 300000;
  xb ← env_text "B3POOL_TRANSLATOR_BIND" (Some "0.0.0.0"%string); xp ← envInt "B3POOL_TRANSLATOR_PORT" 3337;
  xu ← env_text "B3POOL_TRANSLATOR_UPSTREAM" (Some "127.0.0.1:3336"%string);
  Ok {| rpc_host := rh; rpc_port := rp; rpc_user := ru; rpc_password := rw; payoutWallet := pw; payoutAddress := pa; cf_network := nw; db_url := du;
    stratum_bind := sb; stratum_port := sp; stratum := st; cf_feePercent := fp; templatePollMs := tpm; payoutIntervalMs := pi; cf_blockConfirmations := bc;
    cf_pplnsNShares := pn; shareSocket := ss; web_bind := wb; web_port := wp; web_baseUrl := bu; cookieSecret := cs; web_sessionHours := sh;
    smtp_host := mh; smtp_port := mp; smtp_from := mf; smtp_user := mu; smtp_pass := mw; log_level := ll; sv2_enable := envBool "B3POOL_SV2_ENABLE" false;
    sv2_bind := vb; sv2_port := vp; authorityKeyFile := va; staticKeyFile := vs; certFile := vc; certValidityDays := vd; tp_bind := tb; tp_port := tp;
    tp_pollMs := tm; jd_enable := envBool "B3POOL_JD_ENABLE" false; jd_bind := jb; jd_port := jp; tokenTtlMs := jt;
    translator_enable := envBool "B3POOL_TRANSLATOR_ENABLE" false; translator_bind := xb; translator_port := xp; translator_upstream := xu |}.
End Config.

(** ** rpc.ts *)
(** An [RpcError], or another exception. *)
Inductive rpc_result :=
  | RpcOk (v : jval)
  | RpcFail (code : jval) (message : jval)
  | RpcThrow.
(** What [fetch] gives: an error, or a response with its status and text. *)
Inductive http_answer :=
  | NetworkError (message : jsstr)
  | Response (ok : bool) (status : Z) (text : jsstr).

(** The path and the body of a request. *)
Definition rpc_request (wallet : option jsstr) (id : Z) (method : jsstr) (params : list jval) : res (jsstr * jsstr) :=
  path ← match wallet with Some (c :: w) => p ← encodeURIComponent (c :: w); Ok (js "/wallet/" ++ p) | _ => Ok (js "/") end;
  Ok (path, default [] (JSON_stringify (JObj [(js "jsonrpc", JStr (js "2.0")); (js "id", JNum (num_of_Z id)); (js "method", JStr method); (js "params", JArr params)]))).

Definition jval_truthy (v : jval) : bool :=
  match v with
  | JUndef | JNull => false
  | JBool b => b
  | JNum x => nlt x n0 || nlt n0 x
  | JStr s => negb (bool_decide (s = []))
  | JArr _ | JObj _ => true
  end.
Definition member (v : jval) (key : string) : jval := match prop_of v (js key) with Ok x => x | Throw _ => JUndef end.
Definition rpc_answer (method : jsstr) (a : http_answer) : rpc_result :=
  match a with
  | NetworkError e => RpcFail (JNum (num_of_Z (-32000))) (JStr (js "network error calling " ++ method ++ js ": " ++ e))
  | Response ok status text =>
      if negb ok && bool_decide (text = []) then RpcFail (JNum (num_of_Z status)) (JStr (js "HTTP " ++ to_radix 10 status ++ js " from b3chaind"))
      else match JSON_parse text with
      | Throw _ => RpcFail (JNum (num_of_Z (-32700))) (JStr (js "non-JSON response from " ++ method ++ js ": " ++ take 200 text))
      | Ok json =>
          match prop_of json (js "error") with
          | Throw _ => RpcThrow
          | Ok error => if jval_truthy error then RpcFail (member error "code") (member error "message") else RpcOk (member json "result")
          end
      end
  end.
(** [e.code === -5]. *)
Definition getBlock (a : http_answer) : rpc_result :=
  match rpc_answer (js "getblock") a with
  | RpcFail (JNum c) m => if neq c (num_of_Z (-5)) then RpcOk JNull else RpcFail (JNum c) m
  | r => r
  end.
Definition getBlockTemplate_params : list jval := [JObj [(js "rules", JArr [JStr (js "segwit")])]].
Definition sendMany_params (fromAccount : jsstr) (targets : list (jsstr * jsnum)) (comment : option jsstr) : list jval :=
  [JStr fromAccount; JObj (prod_map id JNum <$> targets); JNum n1; JStr (default (js "pool-payout") comment)].

(** ** stratum/main.ts: the checks before the start and the endpoint on the loopback *)
Definition boot_check (payout : jsstr) : res unit :=
  if bool_decide (payout = []) then Throw "B3POOL_PAYOUT_ADDRESS is not set"
  else match addressToScriptPubKey payout with Some _ => Ok tt | None => Throw "B3POOL_PAYOUT_ADDRESS is not a valid bech32 address" end.

Definition stat_json (c : connection_stat) : jval := JObj [
  (js "user", JStr (cs_user c)); (js "worker", JStr (cs_worker c)); (js "difficulty", JNum (cs_difficulty c)); (js "accepted", JNum (num_of_Z (cs_accepted c)));
  (js "rejected", JNum (num_of_Z (cs_rejected c))); (js "lastShareAt", from_option (fun t => JNum (num_of_Z t)) JNull (cs_lastShareAt c));
  (js "pubkey", from_option JStr JNull (cs_pubkey c));
  (js "attest", match cs_attest c with Some Att_pending => JStr (js "pending") | Some Att_valid => JStr (js "valid") | Some Att_invalid => JStr (js "invalid") | _ => JNull end)].
Definition num_json (x : option jsnum) : jval := from_option JNum JNull x.
Section Stats.
Context `{Sha256} `{Blake3} `{P256} {T : Type} `{PassportStore T}.
(** The body of [/stats]. *)
Definition stats_body (defaultDiff : jsnum) (now : Z) (job : option StratumJob) (s : server) : jval :=
  let network := (fun j => networkDifficultyFromBits (jc_bits (ctx j))) <$> job in
  JObj [
    (js "miners", JNum (num_of_Z (zlen (clients s)))); (js "hashrate", JNum (estimatedHashrate now s));
    (js "lastJobHeight", from_option (fun j => JNum (num_of_Z (jc_height (ctx j)))) JNull job); (js "networkDifficulty", num_json network);
    (js "assignedDifficulty", match job with Some _ => JNum (assignedShareDifficulty defaultDiff network) | None => JNull end);
    (js "connections", JArr (stat_json <$> connectionStats s))].
End Stats.
(** The user of a request for [/device-slots]: [None] is answered with 400. *)
Definition device_slot_user (buf : jsstr) : option Z :=
  match v ← JSON_parse buf; x ← prop_of v (js "userId"); Number x with
  | Ok n => match math_floor n with Some z => if neq (num_of_Z z) n && (0 <? z) then Some z else None | None => None end
  | Throw _ => None
  end.

(** ** What a loaded configuration is *)
Lemma envInt_finite env name def n : isFinite (num_of_Z def) = true -> envInt env name def = Ok n -> isFinite n = true.
Proof.
  intros Hd. unfold envInt. destruct (env_value env (js name)) as [v|]; [|by intros [= <-]]. cbv zeta. set (x := from_option num_of_Z S754_nan (parseInt10 v)). destruct (isFinite x) eqn:E; [|done]. by intros [= <-].
Qed.
Lemma envFloat_finite env name def n : isFinite def = true -> envFloat env name def = Ok n -> isFinite n = true.
Proof.
  intros Hd. unfold envFloat. destruct (env_value env (js name)) as [v|]; [|by intros [= <-]]. cbv zeta. set (x := parseFloat v). destruct (isFinite x) eqn:E; [|done]. by intros [= <-].
Qed.
(** Worker difficulties: every name once and not empty, every difficulty positive and finite. *)
Definition workers_ok (l : list (jsstr * jsnum)) : Prop :=
  NoDup l.*1 /\ Forall (fun x => x.1 <> [] /\ isFinite x.2 = true /\ nlt n0 x.2 = true) l.
Lemma add_worker_ok out part : workers_ok out -> workers_ok (add_worker out part).
Proof.
  intros [H1 H2]. unfold add_worker. destruct (_ || _); [done|]. cbv zeta. set (user := trim _). set (diff := Number_str _).
  destruct (negb _ && _ && _) eqn:E; [|done]. apply andb_true_iff in E as [E E3]. apply andb_true_iff in E as [E1 E2]. apply negb_true_iff, bool_decide_eq_false in E1.
  split; [by apply map_set_nodup|]. apply Forall_forall. intros x Hx. apply map_set_elem in Hx as [->|Hx]; [done|]. rewrite list.Forall_forall in H2. exact (H2 x Hx).
Qed.
Lemma parseWorkerDifficulty_ok raw : workers_ok (parseWorkerDifficulty raw).
Proof.
  unfold parseWorkerDifficulty. assert (workers_ok []) as H0 by (split; constructor). revert H0. generalize (@nil (jsstr * jsnum)).
  induction (split_on 44 raw) as [|p l IH]; intros out Ho; [done|]. by apply IH, add_worker_ok.
Qed.

Ltac finite_number :=
  match goal with
  | H : envInt _ _ _ = Ok ?x |- isFinite ?x = true => eapply envInt_finite; [|exact H]; reflexivity
  | H : envFloat _ _ _ = Ok ?x |- isFinite ?x = true => eapply envFloat_finite; [|exact H]; reflexivity
  end.

(** A configuration that loads has only finite numbers, and the fixed difficulties of workers are positive
    and finite, each worker once. *)
Theorem config_numbers_finite env files c : load_config env files = Ok c ->
  Forall (fun x => isFinite x = true) (config_numbers c) /\ workers_ok (workerDifficulty (stratum c)).
Proof.
  unfold load_config, load_stratum. intros H. inv_ok. split; [|apply parseWorkerDifficulty_ok]. unfold config_numbers. cbn.
  repeat (apply Forall_cons; split; [finite_number|]). constructor.
Qed.

(** The two variables without a default are enough; the rest is as in the code. *)
Definition small_env : list (jsstr * jsstr) := [(js "B3POOL_DB_URL", js "postgres://"); (js "B3POOL_COOKIE_SECRET", js "secret"); (js "B3POOL_WORKER_DIFF", js "a.b=0.5, c=x,d = 2")].
Definition no_files (_ : jsstr) : res jsstr := Throw "ENOENT".
Lemma config_numbers_finite_witness : exists c, load_config small_env no_files = Ok c /\ workerDifficulty (stratum c) = [(js "a.b", literal 1 2); (js "d", num_of_Z 2)] /\
  Forall (fun x => isFinite x = true) (config_numbers c).
Proof.
  eexists. split; [vm_compute; reflexivity|]. split; [vm_compute; reflexivity|]. apply (config_numbers_finite small_env no_files). vm_compute. reflexivity.
Defined.

(** The network is any text, a port may have letters behind it, and a fee may be above a hundred percent. *)
Lemma config_accepts_nonsense : exists c,
  load_config (small_env ++ [(js "B3POOL_NETWORK", js "tesnet"); (js "B3POOL_STRATUM_PORT", js "33x33"); (js "B3POOL_FEE_PERCENT", js "150")]) no_files = Ok c /\
  cf_network c = js "tesnet" /\ stratum_port c = num_of_Z 33 /\ cf_feePercent c = num_of_Z 150.
Proof. eexists. split; [vm_compute; reflexivity|]. vm_compute. auto. Qed.

(** ** Answers of the node *)
(** A block the node does not know is [null]; every other error of the node stays an error. *)
Lemma getBlock_unknown status text json c m : JSON_parse text = Ok json -> text <> [] ->
  prop_of json (js "error") = Ok (JObj [(js "code", JNum c); (js "message", m)]) ->
  getBlock (Response false status text) = if neq c (num_of_Z (-5)) then RpcOk JNull else RpcFail (JNum c) m.
Proof.
  intros Hj Ht He. unfold getBlock, rpc_answer. rewrite bool_decide_eq_false_2 by done. cbn [negb andb]. rewrite Hj, He. done.
Qed.
(** The text [null] is no error of the node but an exception, and a request without a user is refused. *)
Lemma odd_answers :
  getBlock (Response true 200 (js "null")) = RpcThrow /\ device_slot_user (js "{}") = None.
Proof. vm_compute. auto. Qed.
