(* ===== verification/PoolPages.v ===== *)
(** * The administration and the public pages
    ([pool/src/web/routes/admin.ts], [web/routes/public.ts])

    The administration page lists the accounts that the next payout run pays and the device slots
    of every account, and adds slots; the public pages show how to connect.  The rows come from the tables of
    [Ledger] and [Passports]; what a template makes of them is left out. *)

From S2P Require Import Prelude JsString JsMap JsNumber JsRound JsFormat Effects Json Numeric Address Difficulty Ipc Ledger LedgerProofs ShareWriter DaemonExamples Passports Services.

(** ** admin.ts: who is ready *)
Section Ready.
Context (cfg : pool_config).
Definition ready_row (d : ledger) (c : user_row) : bool :=
  let balance := of_numeric (balance d (u_id c)) in
  let min := of_numeric (minimum_payout c) in
  email_verified c && match payout_address c with Some ((_ :: _) as addr) => isValidB3AddressForNetwork addr (cfg_network cfg) | _ => false end &&
  nle min balance && nlt n0 balance.
(** [ORDER BY u.id ASC LIMIT 200]. *)
Definition admin_ready (d : ledger) : list user_row := filter (fun c => ready_row d c = true) (take 200 (sort_by u_id (Ledger.users d))).
End Ready.

(** ** admin.ts: the slots of the accounts *)
(** A row of [listAccountSlots]; the time of the binding is left out. *)
Record AdminSlotRow := { as_userId : Z; as_email : jsstr; as_slot : option (Z * option jsstr) }.
(** The left join, ordered by the user and the number of the slot. *)
Definition account_rows (t : PgPassportStore) (u : jsstr * Z) : list AdminSlotRow :=
  match sort_by slotNo (filter (fun s => slot_user s = u.2) (device_slots t)) with
  | [] => [{| as_userId := u.2; as_email := u.1; as_slot := None |}]
  | slots => (fun s => {| as_userId := u.2; as_email := u.1; as_slot := Some (slotNo s, slot_pubkey s) |}) <$> slots
  end.
Definition listAccountSlots (t : PgPassportStore) : list AdminSlotRow := take 500 (sort_by snd (Passports.users t) ≫= account_rows t).

Record admin_account := { aa_id : Z; aa_email : jsstr; aa_slots : list (Z * option jsstr) }.
Definition add_slot_row (accounts : list (Z * admin_account)) (row : AdminSlotRow) : list (Z * admin_account) :=
  let account := default {| aa_id := as_userId row; aa_email := as_email row; aa_slots := [] |} (map_get (as_userId row) accounts) in
  map_set (as_userId row) {| aa_id := aa_id account; aa_email := aa_email account; aa_slots := aa_slots account ++ option_list (as_slot row) |} accounts.
Definition admin_accounts (rows : list AdminSlotRow) : list admin_account := snd <$> foldl add_slot_row [] rows.

(** ** admin.ts: adding a slot *)
(** A number as a parameter of a query: its text, which has to be a [bigint]. *)
Definition pg_bigint (n : jsnum) : res Z :=
  if nle (num_of_Z (10 ^ 21)) n then Throw "invalid input syntax for type bigint"
  else match parseInt10 (num_String n) with
       | Some z => if z <? 2 ^ 63 then Ok z else Throw "value is out of range for type bigint"
       | None => Throw "invalid input syntax for type bigint"
       end.
(** [Number.isInteger]. *)
Definition isInteger (n : jsnum) : bool := match math_floor n with Some z => neq (num_of_Z z) n | None => false end.
(** [WebEnds]: the promise of the handler is rejected, which Express 4 does not handle. *)
Inductive slot_answer := ToLogin | Forbidden | BadId | NoUser | WebEnds | SlotAdded (slot : PassportSlot).
(** The handler behind [requireAdmin] and behind the check of the form token, which is in [WebAccounts]; [who] is the signed-in user, by the flag of administrators.  Also the body
    of the request to the stratum service, if there is one. *)
Definition post_device_slot (who : option bool) (param : jsstr) (t : PgPassportStore) : slot_answer * PgPassportStore * option jsstr :=
  match who with
  | None => (ToLogin, t, None)
  | Some false => (Forbidden, t, None)
  | Some true =>
      let id := from_option num_of_Z S754_nan (parseInt10 param) in
      if negb (isInteger id) || nle id n0 then (BadId, t, None)
      else
        match pg_bigint id with
        | Throw _ => (WebEnds, t, None)
        | Ok uid =>
            if bool_decide (uid ∈ (Passports.users t).*2) then
              let '(slot, t) := addEmpty t uid in
              (SlotAdded slot, t, JSON_stringify (JObj [(js "userId", JNum id)]))
            else (NoUser, t, None)
        end
  end.

(** ** public.ts *)
Definition bucketInterval (range : jsstr) : string :=
  if bool_decide (range = js "30d") then "30 days"
  else if bool_decide (range = js "7d") then "7 days"
  else if bool_decide (range = js "1h") then "1 hour"
  else "24 hours".
(** [s.replace(/^https?:\/\//, _)] with the empty text. *)
Definition without_scheme (s : jsstr) : jsstr :=
  if startsWith (js "http://") s then drop 7 s else if startsWith (js "https://") s then drop 8 s else s.
Definition stratumPublicUrl (network : jsstr) (baseUrl : jsstr) (port : jsnum) : jsstr :=
  if bool_decide (network = js "testnet") then js "stratum+tcp://pool.b3chain.org:3333"
  else js "stratum+tcp://" ++ default [] (head (split_on 47 (without_scheme baseUrl))) ++ js ":" ++ num_String port.

(** ** The administration page and the payout job agree *)
Section ReadyProofs.
Context (cfg : pool_config).
Implicit Types (d : ledger) (u : user_row).

Lemma no_address_invalid network : isValidB3AddressForNetwork [] network = false.
Proof. destruct network; vm_compute; reflexivity. Qed.
Lemma balance_positive b : -(2 ^ 52) < b < 2 ^ 52 -> nlt n0 (of_numeric (Some b)) = (0 <? b).
Proof.
  intros Hb. destruct (Z.ltb_spec 0 b) as [Hp|Hp].
  - rewrite <- (Z.ltb_lt 0 b) in Hp. rewrite <- Hp. apply (of_numeric_lt 0 b); lia.
  - apply nle_nlt_neg. rewrite of_numeric_le0 by done. by apply Z.leb_le.
Qed.
Lemma minimum_reached m b : 0 <= m < 2 ^ 52 -> 0 < b < 2 ^ 52 -> nle (of_numeric (Some m)) (of_numeric (Some b)) = (m <=? b).
Proof.
  intros Hm Hb. pose proof (of_numeric_fin m Hm) as Fm. pose proof (of_numeric_fin b ltac:(lia)) as Fb.
  destruct (Z.leb_spec m b) as [Hle|Hgt].
  - apply nlt_false; [by apply isFinite_not_nan, Fb|by apply isFinite_not_nan, Fm|]. rewrite of_numeric_lt by lia. apply Z.ltb_ge. lia.
  - destruct (nle _ _) eqn:E; [|done]. apply nle_nlt_neg in E. rewrite of_numeric_lt in E by lia. apply Z.ltb_ge in E. lia.
Qed.
Lemma ready_is_due d u : amounts_ok d -> u ∈ Ledger.users d -> ready_row cfg d u = due cfg d u.
Proof.
  intros Hok Hu. destruct (Hok u Hu) as [(b & Eb & Hb) (m & Em & Hm)]. unfold ready_row, due. rewrite Eb, Em, balance_positive by done.
  destruct (payout_address u) as [[|c addr]|]; [rewrite no_address_invalid| |]; rewrite ?andb_false_r; [done| |done].
  destruct (Z.ltb_spec 0 b); [|by rewrite !andb_false_r]. by rewrite minimum_reached by lia.
Qed.

Lemma ready_debits d (l : list user_row) : amounts_ok d -> (forall u, u ∈ l -> u ∈ Ledger.users d) ->
  u_id <$> filter (fun u => ready_row cfg d u = true) l =
  d_user <$> omap (debit_of cfg d) (omap (fun u => addr ← payout_address u; if email_verified u then Some (u, addr) else None) l).
Proof.
  intros Hok. induction l as [|u l IH]; intros Hl; [done|]. specialize (IH ltac:(intros; apply Hl; by right)). pose proof (Hl u ltac:(left)) as Hu.
  rewrite filter_cons. cbn [omap list_omap]. rewrite (ready_is_due d u Hok Hu). destruct (payout_address u) as [addr|] eqn:Ea; cbn.
  - destruct (email_verified u) eqn:Ev.
    + pose proof (debit_of_due cfg d u addr Hu Hok Ea Ev) as H. cbn. destruct (due cfg d u); [destruct H as (x & b & -> & Ex & _)|rewrite H]; cbn; [|exact IH].
      rewrite Ex, decide_True by done. cbn. f_equal. exact IH.
    + unfold due. rewrite Ea, Ev. destruct (balance d (u_id u)), (minimum_payout u); exact IH.
  - unfold due. rewrite Ea. destruct (balance d (u_id u)), (minimum_payout u); exact IH.
Qed.

(** The administrators see whom the next payout run pays: with at most two hundred accounts, the accounts listed as
    ready are the users of the debits the payout job plans, in the same order. *)
Theorem admin_ready_paid d : amounts_ok d -> zlen (Ledger.users d) <= 200 -> u_id <$> admin_ready cfg d = d_user <$> debits (plan_payouts cfg d).
Proof.
  intros Hok Hn. rewrite (proj1 (plan_payouts_debits cfg d)). unfold admin_ready, candidates.
  rewrite take_ge; [apply ready_debits; [done|]; intros u; apply sort_by_elem|].
  rewrite (Permutation_length (sort_by_perm u_id (Ledger.users d))). unfold zlen in Hn. lia.
Qed.
End ReadyProofs.

(** ** The slots shown *)
Definition rows_of (id : Z) (rows : list AdminSlotRow) : list AdminSlotRow := filter (fun r => as_userId r = id) rows.
Definition account_of (id : Z) (rows : list AdminSlotRow) : option admin_account :=
  (fun r => {| aa_id := id; aa_email := as_email r; aa_slots := rows_of id rows ≫= fun r => option_list (as_slot r) |}) <$> head (rows_of id rows).

Lemma rows_grouped rows id : map_get id (foldl add_slot_row [] rows) = account_of id rows.
Proof.
  induction rows as [|r rows IH] using rev_ind; [done|]. rewrite foldl_snoc. unfold add_slot_row at 1. unfold account_of, rows_of in *. rewrite filter_app, filter_cons, filter_nil.
  destruct (decide (as_userId r = id)) as [<-|Hne].
  - rewrite map_set_get, IH. destruct (filter _ rows) as [|r0 l]; cbn; [by rewrite app_nil_r|]. f_equal. f_equal. rewrite bind_app. cbn. by rewrite app_nil_r, app_assoc.
  - rewrite map_set_other by done. by rewrite app_nil_r.
Qed.
Lemma account_rows_user t u r : r ∈ account_rows t u -> as_userId r = u.2 /\ as_email r = u.1.
Proof.
  unfold account_rows. destruct (sort_by _ _) as [|s l]; [by intros ->%list_elem_of_singleton|]. by intros (x & -> & _)%list_elem_of_fmap.
Qed.
(** The account of a user with its slots, as the page shows it. *)
Definition shown_account (t : PgPassportStore) (u : jsstr * Z) : admin_account := {|
  aa_id := u.2; aa_email := u.1;
  aa_slots := (fun s => (slotNo s, slot_pubkey s)) <$> sort_by slotNo (filter (fun s => slot_user s = u.2) (device_slots t)) |}.
Lemma rows_of_other id rows : (forall r, r ∈ rows -> as_userId r <> id) -> rows_of id rows = [].
Proof.
  intros H. unfold rows_of. apply elem_of_nil_inv. intros r [Hid Hr]%list_elem_of_filter. by eapply H.
Qed.
Lemma rows_of_same id rows : (forall r, r ∈ rows -> as_userId r = id) -> rows_of id rows = rows.
Proof.
  intros H. unfold rows_of. induction rows as [|r rows IH]; [done|]. rewrite filter_cons_True by (apply H; left). f_equal. apply IH. intros. apply H. by right.
Qed.
Lemma rows_of_join t l u : NoDup l.*2 -> u ∈ l -> rows_of u.2 (l ≫= account_rows t) = account_rows t u.
Proof.
  induction l as [|v l IH]; intros Hnd Hu; [by apply elem_of_nil in Hu|]. cbn in Hnd. apply NoDup_cons in Hnd as [Hv Hnd]. cbn [mbind list_bind].
  unfold rows_of. rewrite filter_app. fold (rows_of u.2 (account_rows t v)) (rows_of u.2 (l ≫= account_rows t)). apply elem_of_cons in Hu as [->|Hu].
  - rewrite rows_of_same by (intros r Hr; by apply (account_rows_user t v)). rewrite rows_of_other; [apply app_nil_r|].
    intros r (w & Hr & Hw)%list_elem_of_bind E. apply Hv. rewrite <- E. rewrite (proj1 (account_rows_user t w r Hr)). by apply list_elem_of_fmap_2.
  - rewrite rows_of_other; [by apply IH|]. intros r Hr E. apply Hv. rewrite <- (proj1 (account_rows_user t v r Hr)), E. by apply list_elem_of_fmap_2.
Qed.
Lemma account_of_join t l u : NoDup l.*2 -> u ∈ l -> account_of u.2 (l ≫= account_rows t) = Some (shown_account t u).
Proof.
  intros Hnd Hu. unfold account_of. rewrite (rows_of_join t l u Hnd Hu). unfold account_rows, shown_account. destruct (sort_by slotNo _) as [|s ss]; [done|].
  cbn. f_equal. f_equal. f_equal. induction ss as [|x ss IH]; [done|]. cbn. by f_equal.
Qed.
Lemma account_of_user t l id a : account_of id (l ≫= account_rows t) = Some a -> exists u, u ∈ l /\ u.2 = id.
Proof.
  unfold account_of. destruct (head _) as [r|] eqn:E; [|done]. intros _. apply head_elem in E. unfold rows_of in E. apply list_elem_of_filter in E as [<- Hr].
  apply list_elem_of_bind in Hr as (u & Hr & Hu). exists u. split; [done|]. symmetry. by apply (account_rows_user t u).
Qed.
Lemma slot_rows_nodup rows m : NoDup m.*1 -> NoDup (foldl add_slot_row m rows).*1.
Proof. revert m. induction rows as [|r rows IH]; intros m Hm; [done|]. apply IH. by apply map_set_nodup. Qed.

(** The page shows every account once with all its slots, in the order of their numbers, while the join has
    at most five hundred rows. *)
Theorem accounts_shown t a : NoDup (Passports.users t).*2 -> zlen (sort_by snd (Passports.users t) ≫= account_rows t) <= 500 ->
  a ∈ admin_accounts (listAccountSlots t) <-> exists u, u ∈ Passports.users t /\ a = shown_account t u.
Proof.
  intros Hnd Hn. unfold listAccountSlots. rewrite take_ge by (unfold zlen in Hn; lia). set (l := sort_by snd (Passports.users t)) in *.
  assert (NoDup l.*2) as Hl by (unfold l; by rewrite (sort_by_perm snd)). unfold admin_accounts. split.
  - intros ([id b] & -> & Hin)%list_elem_of_fmap. cbn [snd]. apply map_get_in in Hin; [|apply slot_rows_nodup; constructor].
    rewrite rows_grouped in Hin. destruct (account_of_user _ _ _ _ Hin) as (u & Hu & <-). rewrite (account_of_join t l u Hl Hu) in Hin. injection Hin as <-.
    exists u. split; [by apply (sort_by_elem snd)|done].
  - intros (u & Hu & ->). apply list_elem_of_fmap. exists (u.2, shown_account t u). split; [done|]. apply map_get_elem. rewrite rows_grouped.
    apply account_of_join; [done|]. by apply sort_by_elem.
Qed.

(** C40: Only an administrator adds a slot, and only to an account that exists.  When the handler answers with a new slot, the table has that row
    more and nothing else changed; the slot is empty, its number is above those of the account, the ids and the bound
    keys stay unique, and the stratum service is told; with every other answer nothing is changed and nobody is told. *)
Theorem device_slot_added who param t r t' note : store_ok t -> post_device_slot who param t = (r, t', note) ->
  match r with
  | SlotAdded s => who = Some true /\ slot_user s ∈ (Passports.users t).*2 /\ slot_pubkey s = None /\ device_slots t' = device_slots t ++ [s] /\
      Passports.users t' = Passports.users t /\ store_ok t' /\ (forall s', s' ∈ device_slots t -> slot_user s' = slot_user s -> slotNo s' < slotNo s) /\ is_Some note
  | _ => t' = t /\ note = None
  end.
Proof.
  intros Hok. unfold post_device_slot. destruct who as [[]|]; [|by intros [= <- <- <-]..]. destruct (_ || _); [by intros [= <- <- <-]|].
  destruct (pg_bigint _) as [uid|]; [|by intros [= <- <- <-]]. case_bool_decide as Hu; [|by intros [= <- <- <-]].
  destruct (addEmpty t uid) as [s t1] eqn:Ea. intros [= <- <- <-]. destruct (addEmpty_spec t uid s t1 Hok Ea) as (Hok' & Hs & <- & Hp & Hno).
  split; [done|]. split; [done|]. split; [done|]. split; [exact Hs|]. split; [cbn in Ea; by injection Ea as _ <-|]. split; [done|]. split; [exact Hno|done].
Qed.

(** ** Examples *)
Definition two_accounts : PgPassportStore := {|
  Passports.users := [(js "a@b.c", 7); (js "d@e.f", 9)];
  device_slots := [{| slot_id := 1; slot_user := 9; slotNo := 1; slot_pubkey := Some (js "k") |}]; slot_seq := 2 |}.
Lemma two_accounts_ok : store_ok two_accounts.
Proof.
  cbn. split; [unfold slots_ok; split; apply (bool_decide_unpack _); vm_compute; exact I|]. intros s ->%list_elem_of_singleton. vm_compute. reflexivity.
Qed.
Lemma device_slot_added_witness : exists s t' note, post_device_slot (Some true) (js "9") two_accounts = (SlotAdded s, t', note) /\ slotNo s = 2 /\
  slot_pubkey s = None /\ note ≫= device_slot_user = Some 9.
Proof.
  destruct (post_device_slot (Some true) (js "9") two_accounts) as [[r t'] note] eqn:E.
  pose proof (device_slot_added (Some true) (js "9") two_accounts r t' note two_accounts_ok E) as H.
  vm_compute in E. injection E as <- <- <-. destruct H as (_ & _ & Hp & _). do 3 eexists. split; [reflexivity|]. split; [reflexivity|]. split; [exact Hp|]. vm_compute. reflexivity.
Defined.

Lemma admin_ready_paid_witness : u_id <$> admin_ready example_pool rich_ledger = [1] /\ d_user <$> debits (plan_payouts example_pool rich_ledger) = [1].
Proof.
  pose proof (admin_ready_paid example_pool rich_ledger rich_amounts ltac:(vm_compute; discriminate)) as H. split; [rewrite H|]; vm_compute; reflexivity.
Defined.

(** An id of twenty digits is an integer for the handler but none for the database. *)
Lemma long_id_ends_web : post_device_slot (Some true) (js "99999999999999999999") two_accounts = (WebEnds, two_accounts, None).
Proof. vm_compute. reflexivity. Qed.
(** With the default base address every network but the testnet shows an address with two ports. *)
Lemma public_url_two_ports : stratumPublicUrl (js "regtest") (js "http://127.0.0.1:5100") (num_of_Z 3333) = js "stratum+tcp://127.0.0.1:5100:3333".
Proof. vm_compute. reflexivity. Qed.
