(* ===== verification/WebEvents.v ===== *)
(** * The pool's web service: pushed events
    ([pool/src/web/socket.ts], [lib/difficulty-math.ts] [formatDifficulty])

    Every five seconds [tick] sends the statistics of the pool, asks the database for rows above the two
    cursors and announces them, and sends each connected user its statistics.  The interval has no
    guard, so ticks overlap; a query reads the database at one point and its answer is handled at a
    later one.  Blocks and payouts get ascending ids, a payout with all its recipients in one
    transaction.  An error of the database rejects a promise nobody handles, which ends the process. *)

From S2P Require Import Prelude JsString JsMap JsNumber JsFormat Json Difficulty Ledger.

(** ** formatDifficulty *)
(** [x.toPrecision(p)] for a positive finite [x]; the decimal of [p] digits nearest to it. *)
Definition toPrecision (p : Z) (x : jsnum) : jsstr :=
  let '(s, n) := dec_digits x p in
  let d := to_radix 10 s in
  let e := n - 1 in
  if (e <? -6) || (p <=? e) then
    take 1 d ++ (if p =? 1 then [] else js "." ++ drop 1 d) ++ js "e" ++ (if 0 <=? e then js "+" else js "-") ++ to_radix 10 (Z.abs e)
  else if e =? p - 1 then d
  else if 0 <=? e then take (Z.to_nat (e + 1)) d ++ js "." ++ drop (Z.to_nat (e + 1)) d
  else js "0." ++ replicate (Z.to_nat (- (e + 1))) 48 ++ d.
Definition toPrecision_num (p : Z) (x : jsnum) : jsstr :=
  match x with
  | S754_zero _ => js "0." ++ replicate (Z.to_nat (p - 1)) 48
  | S754_finite s _ _ => (if s then js "-" else []) ++ toPrecision p x
  | _ => num_String x
  end.
(** [replace(/\.?0+$/, "")]: the zeros at the end, and a point before them. *)
Definition strip_zeros (s : jsstr) : jsstr :=
  match reverse s with
  | 48 :: r =>
      match (fix go (r : jsstr) := match r with 48 :: r => go r | _ => r end) r with
      | 46 :: r => reverse r
      | r => reverse r
      end
  | _ => s
  end.
Definition formatDifficulty (d : jsnum) : jsstr :=
  if negb (isFinite d) then js "unavailable"
  else if nle (num_of_Z 100) d then num_String (from_option num_of_Z S754_nan (math_round d))
  else strip_zeros (toPrecision_num 6 d).

(** ** Rows and events *)
Record block_event := { bl_id : Z; bl_height : Z; bl_hash : jsstr; bl_reward : jsstr; bl_finder : option Z; bl_foundAt : jsstr }.
Record payout_event := { pe_id : Z; pe_txid : option jsstr; pe_userId : Z; pe_amount : jsnum }.
(** The statistics of the stratum service. *)
Record stratum_stats := { ss_miners : Z; ss_lastJobHeight : option Z; ss_networkDifficulty : option jsnum; ss_assignedDifficulty : option jsnum }.
Definition no_stats : stratum_stats := {| ss_miners := 0; ss_lastJobHeight := None; ss_networkDifficulty := None; ss_assignedDifficulty := None |}.
Record user_stats := { us_hashrate : jsnum; us_activeWorkers : Z; us_sharesLastHour : Z; us_balance : jsnum }.
(** What is emitted: to everyone, or to the room of a user. *)
Inductive emission :=
  | PoolUpdate (hashrate : jsnum) (miners : Z) (height : option Z) (blocksFound : Z) (network assigned : option jsnum) (networkText assignedText : option jsstr)
  | BlockFound (height : Z) (hash : jsstr) (reward : jsstr) (foundAt : jsstr)
  | UserBlock (uid height : Z) (hash : jsstr)
  | PayoutSent (uid : Z) (amount : jsnum) (txid : jsstr)
  | UserUpdate (uid : Z) (stats : user_stats).

(** ** The bus *)
(** Where a tick waits; [Read...] once the database has read for it.  A new connection is sent the
    statistics once, outside of the ticks. *)
Inductive tick :=
  | OncePool
  | OnceUser (uid : Z)
  | AskPool
  | AskMax
  | ReadMax (b p : Z)
  | AskBlocks (cursor : Z)
  | ReadBlocks (rows : list block_event)
  | AskPayouts (cursor : Z)
  | ReadPayouts (rows : list payout_event)
  | AskUser (uid : Z) (rest : list Z).
Record bus := {
  db_blocks : list block_event; db_payouts : list payout_event; blockCursor : option Z; payoutCursor : option Z; lastBlock : option (Z * jsstr);
  rooms : list Z; ticks : list tick; emitted : list emission; bus_crashed : bool }.
Definition set_ticks (t : list tick) (s : bus) : bus := {|
  db_blocks := db_blocks s; db_payouts := db_payouts s; blockCursor := blockCursor s; payoutCursor := payoutCursor s; lastBlock := lastBlock s;
  rooms := rooms s; ticks := t; emitted := emitted s; bus_crashed := bus_crashed s |}.
Definition set_cursors (b p : option Z) (s : bus) : bus := {|
  db_blocks := db_blocks s; db_payouts := db_payouts s; blockCursor := b; payoutCursor := p; lastBlock := lastBlock s;
  rooms := rooms s; ticks := ticks s; emitted := emitted s; bus_crashed := bus_crashed s |}.
Definition set_rooms (r : list Z) (s : bus) : bus := {|
  db_blocks := db_blocks s; db_payouts := db_payouts s; blockCursor := blockCursor s; payoutCursor := payoutCursor s; lastBlock := lastBlock s;
  rooms := r; ticks := ticks s; emitted := emitted s; bus_crashed := bus_crashed s |}.
Definition bus_emit (l : list emission) (s : bus) : bus := {|
  db_blocks := db_blocks s; db_payouts := db_payouts s; blockCursor := blockCursor s; payoutCursor := payoutCursor s; lastBlock := lastBlock s;
  rooms := rooms s; ticks := ticks s; emitted := emitted s ++ l; bus_crashed := bus_crashed s |}.
Definition set_lastBlock (b : option (Z * jsstr)) (s : bus) : bus := {|
  db_blocks := db_blocks s; db_payouts := db_payouts s; blockCursor := blockCursor s; payoutCursor := payoutCursor s; lastBlock := b;
  rooms := rooms s; ticks := ticks s; emitted := emitted s; bus_crashed := bus_crashed s |}.
Definition crash_bus (s : bus) : bus := {|
  db_blocks := db_blocks s; db_payouts := db_payouts s; blockCursor := blockCursor s; payoutCursor := payoutCursor s; lastBlock := lastBlock s;
  rooms := rooms s; ticks := []; emitted := emitted s; bus_crashed := true |}.
Definition insert_rows (b : list block_event) (p : list payout_event) (s : bus) : bus := {|
  db_blocks := db_blocks s ++ b; db_payouts := db_payouts s ++ p; blockCursor := blockCursor s; payoutCursor := payoutCursor s; lastBlock := lastBlock s;
  rooms := rooms s; ticks := ticks s; emitted := emitted s; bus_crashed := bus_crashed s |}.

Definition notifyBlockFound (s : bus) (r : block_event) : bus :=
  bus_emit (BlockFound (bl_height r) (bl_hash r) (bl_reward r) (bl_foundAt r) ::
    match bl_finder r with Some uid => [UserBlock uid (bl_height r) (bl_hash r)] | None => [] end) (set_lastBlock (Some (bl_height r, bl_hash r)) s).
Definition notifyPayout (s : bus) (r : payout_event) : bus := bus_emit [PayoutSent (pe_userId r) (pe_amount r) (default [] (pe_txid r))] s.

Definition SHARE_HASHRATE_WINDOW_SECONDS : jsnum := num_of_Z 300.
(** [pushPool] after its queries: the sum of the difficulties and the number of blocks, as texts. *)
Definition pushPool (stats : stratum_stats) (d n : jsstr) : emission :=
  PoolUpdate (shareHashrateHps (parseFloat d) SHARE_HASHRATE_WINDOW_SECONDS) (ss_miners stats) (ss_lastJobHeight stats) (default 0 (parseInt10 n))
    (ss_networkDifficulty stats) (ss_assignedDifficulty stats) (formatDifficulty <$> ss_networkDifficulty stats) (formatDifficulty <$> ss_assignedDifficulty stats).

(** The answer of the stratum service: any error or unreadable text is [None]. *)
Definition fetchStratumStats (answer : option stratum_stats) : stratum_stats := default no_stats answer.

Definition max_id {A} (id_of : A -> Z) (rows : list A) : Z := foldl (fun m r => Z.max m (id_of r)) 0 rows.
Definition set_tick (i : nat) (t : tick) (s : bus) : bus := set_ticks (<[i := t]> (ticks s)) s.
Definition end_tick (i : nat) (s : bus) : bus := set_ticks (delete i (ticks s)) s.
(** The loop over the rooms of users.  The iterator of the map is live: a room that is added is still
    visited, one that is removed is not. *)
Definition room_joined (uid : Z) (t : tick) : tick := match t with AskUser u rest => AskUser u (rest ++ [uid]) | t => t end.
Definition room_left (uid : Z) (t : tick) : tick := match t with AskUser u rest => AskUser u (set_delete uid rest) | t => t end.
Definition push_users (i : nat) (l : list Z) (s : bus) : bus :=
  match l with
  | [] => end_tick i s
  | uid :: rest => set_tick i (AskUser uid rest) s
  end.
(** The start of [pollNewRows]. *)
Definition start_poll_rows (i : nat) (s : bus) : bus :=
  match blockCursor s, payoutCursor s with
  | Some b, Some _ => set_tick i (AskBlocks b) s
  | _, _ => set_tick i AskMax s
  end.

(** [Join]: a socket whose session was accepted enters the room of its user; [Leave]: the last socket of a
    room is gone. *)
Inductive bus_event :=
  | Tick
  | PoolAnswer (i : nat) (stats : option stratum_stats) (d n : jsstr)
  | DbRead (i : nat)
  | DbAnswer (i : nat)
  | UserAnswer (i : nat) (stats : user_stats)
  | DbError (i : nat)
  | NewBlock (r : block_event)
  | NewPayout (rows : list payout_event)
  | Connect
  | Join (uid : Z)
  | Leave (uid : Z).

(** The database reads for a tick. *)
Definition db_read (t : tick) (s : bus) : tick :=
  match t with
  | AskMax => ReadMax (max_id bl_id (db_blocks s)) (max_id pe_id (db_payouts s))
  | AskBlocks c => ReadBlocks (filter (fun r => c < bl_id r) (db_blocks s))
  | AskPayouts c => ReadPayouts (filter (fun r => c < pe_id r) (db_payouts s))
  | t => t
  end.
(** What the tick does with the answer. *)
Definition db_answer (i : nat) (t : tick) (s : bus) : bus :=
  match t with
  | ReadMax b p => push_users i (rooms s) (set_cursors (Some b) (Some p) s)
  | ReadBlocks rows =>
      match blockCursor s, payoutCursor s with
      | Some c, Some p =>
          let '(c', fresh) := consumeNew bl_id c rows in
          let s := set_cursors (Some c') (Some p) s in
          set_tick i (AskPayouts p) (foldl notifyBlockFound s fresh)
      | _, _ => s
      end
  | ReadPayouts rows =>
      match payoutCursor s with
      | Some p =>
          let '(p', fresh) := consumeNew pe_id p rows in
          let s := set_cursors (blockCursor s) (Some p') s in
          push_users i (rooms s) (foldl notifyPayout s fresh)
      | None => s
      end
  | _ => s
  end.

Definition bus_step (s : bus) (e : bus_event) : bus :=
  if bus_crashed s then s else
  match e with
  | Tick => set_ticks (ticks s ++ [AskPool]) s
  | PoolAnswer i stats d n =>
      match ticks s !! i with
      | Some AskPool => start_poll_rows i (bus_emit [pushPool (fetchStratumStats stats) d n] s)
      | Some OncePool => end_tick i (bus_emit [pushPool (fetchStratumStats stats) d n] s)
      | _ => s
      end
  | DbRead i => match ticks s !! i with Some t => set_tick i (db_read t s) s | None => s end
  | DbAnswer i => match ticks s !! i with Some t => db_answer i t s | None => s end
  | UserAnswer i stats =>
      match ticks s !! i with
      | Some (AskUser uid rest) => push_users i rest (bus_emit [UserUpdate uid stats] s)
      | Some (OnceUser uid) => end_tick i (bus_emit [UserUpdate uid stats] s)
      | _ => s
      end
  | DbError i => match ticks s !! i with Some _ => crash_bus s | None => s end
  | NewBlock r => if max_id bl_id (db_blocks s) <? bl_id r then insert_rows [r] [] s else s
  | NewPayout rows => if forallb (fun r => max_id pe_id (db_payouts s) <? pe_id r) rows && bool_decide (length (remove_dups (pe_id <$> rows)) <= 1)%nat then insert_rows [] rows s else s
  | Connect => set_ticks (ticks s ++ [OncePool]) s
  | Join uid =>
      let ticks' := if bool_decide (uid ∈ rooms s) then ticks s else room_joined uid <$> ticks s in
      set_ticks (ticks' ++ [OnceUser uid]) (set_rooms (set_add uid (rooms s)) s)
  | Leave uid => set_ticks (room_left uid <$> ticks s) (set_rooms (set_delete uid (rooms s)) s)
  end.
Definition bus_run (es : list bus_event) (s : bus) : bus := foldl bus_step s es.
(** The start of the service on a database. *)
Definition init_bus (blocks : list block_event) (payouts : list payout_event) : bus := {|
  db_blocks := blocks; db_payouts := payouts; blockCursor := None; payoutCursor := None; lastBlock := None; rooms := []; ticks := []; emitted := []; bus_crashed := false |}.
