(* ===== verification/WebEventsProofs.v ===== *)
(** * The pool's web service: every row is announced once *)

From Stdlib Require Import Sorting.Sorted.
From S2P Require Import Prelude JsString JsMap JsNumber Json Difficulty Ledger WebEvents.

(** ** Rows above a cursor *)
Lemma filter_ext_in {A} (P Q : A -> Prop) `{!forall x, Decision (P x)} `{!forall x, Decision (Q x)} (l : list A) :
  (forall x, x ∈ l -> P x <-> Q x) -> filter P l = filter Q l.
Proof.
  induction l as [|x l IH]; intros Heq; [done|]. rewrite !filter_cons, IH by (intros y Hy; apply Heq; by right). specialize (Heq x ltac:(by left)).
  destruct (decide (P x)), (decide (Q x)); tauto.
Qed.

Section Rows.
Context {A : Type} (id_of : A -> Z).

Definition window (a b : Z) (l : list A) : list A := filter (fun r => a < id_of r /\ id_of r <= b) l.
Definition in_order (l : list A) : Prop := StronglySorted Z.le (id_of <$> l).

Lemma window_empty a b l : (forall x, x ∈ l -> b < id_of x) -> window a b l = [].
Proof.
  intros H. unfold window. rewrite (filter_ext_in _ (fun _ => False)); [clear H; induction l as [|x l IH]; [done|]; rewrite filter_cons_False by tauto; exact IH|]. intros x Hx. specialize (H x Hx). lia.
Qed.
Lemma window_split a b c l : in_order l -> a <= b <= c -> window a c l = window a b l ++ window b c l.
Proof.
  intros Hs Hb. induction l as [|r l IH]; [done|]. apply StronglySorted_inv in Hs as [Hs Hall]. specialize (IH Hs). unfold window in *. rewrite !filter_cons.
  destruct (decide (id_of r <= b)) as [Hr|Hr].
  - rewrite (decide_False (P := b < id_of r /\ id_of r <= c)) by lia. destruct (decide (a < id_of r)).
    + rewrite !decide_True by lia. cbn. by rewrite IH.
    + rewrite !decide_False by lia. done.
  - assert (filter (fun r => a < id_of r /\ id_of r <= b) l = []) as E.
    { apply window_empty. intros x Hx. rewrite List.Forall_forall in Hall. specialize (Hall (id_of x)). assert (id_of r <= id_of x); [|lia].
      apply Hall. apply list_elem_of_In, list_elem_of_fmap. by exists x. }
    rewrite E in *. rewrite (decide_False (P := a < id_of r /\ id_of r <= b)) by lia. cbn [app] in *. destruct (decide (id_of r <= c)).
    + rewrite !decide_True by lia. by rewrite IH.
    + rewrite !decide_False by lia. done.
Qed.

Definition keep_max (m : Z) (r : A) : Z := if m <? id_of r then id_of r else m.
Lemma foldl_max c l : let m := foldl keep_max c l in c <= m /\ (forall r, r ∈ l -> id_of r <= m) /\ (m = c \/ exists r, r ∈ l /\ m = id_of r).
Proof.
  revert c. induction l as [|x l IH]; intros c; cbn [foldl]; [split; [done|]; split; [by intros ? ?%elem_of_nil|by left]|].
  destruct (IH (keep_max c x)) as (H1 & H2 & H3). unfold keep_max in *. cbv zeta in *. destruct (Z.ltb_spec c (id_of x)).
  - split; [lia|]. split; [intros r Hr; apply elem_of_cons in Hr as [->|Hr]; [lia|by apply H2]|].
    destruct H3 as [->|(r & Hr & ->)]; right; [exists x; split; [by left|done]|exists r; split; [by right|done]].
  - split; [lia|]. split; [intros r Hr; apply elem_of_cons in Hr as [->|Hr]; [lia|by apply H2]|].
    destruct H3 as [->|(r & Hr & ->)]; [by left|right; exists r; split; [by right|done]].
Qed.
Lemma max_id_bound l : (forall r, r ∈ l -> id_of r <= max_id id_of l) /\ 0 <= max_id id_of l.
Proof.
  unfold max_id. assert (forall c, (forall r, r ∈ l -> id_of r <= foldl (fun m r => Z.max m (id_of r)) c l) /\ c <= foldl (fun m r => Z.max m (id_of r)) c l) as H; [|apply H].
  induction l as [|x l IH]; intros c; cbn [foldl]; [split; [by intros ? ?%elem_of_nil|done]|]. destruct (IH (Z.max c (id_of x))) as [H1 H2].
  split; [|lia]. intros r Hr. apply elem_of_cons in Hr as [->|Hr]; [lia|by apply H1].
Qed.
Lemma window_elem a b l r : r ∈ window a b l <-> (a < id_of r /\ id_of r <= b) /\ r ∈ l.
Proof. unfold window. by rewrite list_elem_of_filter. Qed.

(** The rows a query above an older cursor returned, seen from the current one. *)
Lemma consume_window q c m db : q <= c ->
  let '(c', fresh) := consumeNew id_of c (window q m db) in c <= c' /\ c' <= Z.max c m /\ fresh = window c c' db.
Proof.
  intros Hq. unfold consumeNew. set (fresh := filter (fun r => c < id_of r) (window q m db)).
  assert (forall r, r ∈ fresh <-> (c < id_of r /\ id_of r <= m) /\ r ∈ db) as Hf.
  { intros r. unfold fresh. rewrite list_elem_of_filter, window_elem. split; [tauto|]. intros [[? ?] ?]. repeat split; try done. lia. }
  destruct (foldl_max c fresh) as (H1 & H2 & H3). unfold keep_max in *. cbv zeta in *. set (c' := foldl _ c fresh) in *.
  split; [done|]. split; [destruct H3 as [->|(r & Hr & ->)]; [lia|]; apply Hf in Hr; lia|].
  unfold fresh, window. rewrite list_filter_filter. apply filter_ext_in. intros r Hr. split.
  - intros (Hc & Hqr & Hm). split; [done|]. apply H2, Hf. done.
  - intros [Hc Hc']. destruct H3 as [E|(r' & Hr' & E)]; [lia|]. apply Hf in Hr'. lia.
Qed.
Lemma window_insert a b l r : b < id_of r -> window a b (l ++ [r]) = window a b l.
Proof. intros H. unfold window. rewrite filter_app, (filter_cons_False _ r) by lia. apply app_nil_r. Qed.
Lemma window_inserts a b l rows : (forall r, r ∈ rows -> b < id_of r) -> window a b (l ++ rows) = window a b l.
Proof. intros H. unfold window. rewrite filter_app. fold (window a b rows). rewrite window_empty by done. apply app_nil_r. Qed.
Lemma window_all a l : filter (fun r => a < id_of r) l = window a (max_id id_of l) l.
Proof. apply filter_ext_in. intros r Hr. destruct (max_id_bound l) as [H _]. specialize (H r Hr). lia. Qed.
Lemma in_order_inserts l rows : in_order l -> (forall r, r ∈ rows -> max_id id_of l < id_of r) -> in_order rows -> in_order (l ++ rows).
Proof.
  intros Hl Hr Hrows. unfold in_order in *. rewrite fmap_app. pose proof (proj1 (max_id_bound l)) as Hb.
  assert (forall x y, x ∈ id_of <$> l -> y ∈ id_of <$> rows -> x <= y) as Hxy.
  { intros x y Hx Hy. apply list_elem_of_fmap in Hx as (a & -> & Ha), Hy as (b & -> & Hb'). specialize (Hb a Ha). specialize (Hr b Hb'). lia. }
  clear Hr Hb. induction Hl as [|x k Hk IH Hall]; [done|]. cbn [app]. constructor; [apply IH; intros; apply Hxy; [by right|done]|].
  apply List.Forall_app. split; [done|]. apply List.Forall_forall. intros y Hy. apply Hxy; [by left|]. by apply list_elem_of_In.
Qed.
Lemma max_id_grows l k : max_id id_of l <= max_id id_of (l ++ k).
Proof.
  unfold max_id. rewrite foldl_app. generalize (foldl (fun m r => Z.max m (id_of r)) 0 l). induction k as [|x k IH]; intros c; cbn [foldl]; [done|].
  etransitivity; [|apply IH]. lia.
Qed.

(** The first [n] rows, of which [l0] were there from the start, are older than the others. *)
Definition cut_at (l0 n : nat) (db : list A) : Prop :=
  (l0 <= n <= length db)%nat /\ forall r, r ∈ drop n db -> max_id id_of (take n db) < id_of r.
Lemma cut_now l0 db : (l0 <= length db)%nat -> cut_at l0 (length db) db.
Proof. intros Hl. split; [done|]. rewrite drop_all. by intros r ?%elem_of_nil. Qed.
Lemma cut_inserts l0 n db rows : cut_at l0 n db -> (forall r, r ∈ rows -> max_id id_of db < id_of r) ->
  cut_at l0 n (db ++ rows) /\ take n (db ++ rows) = take n db.
Proof.
  intros [Hn Hc] Hr. assert (take n (db ++ rows) = take n db) as E by (apply take_app_le; lia). split; [|done].
  split; [rewrite length_app; lia|]. intros r. rewrite E, drop_app_le, elem_of_app by lia. intros [Hin|Hin]; [by apply Hc|].
  pose proof (max_id_grows (take n db) (drop n db)) as Hg. rewrite take_drop in Hg. specialize (Hr r Hin). lia.
Qed.
Lemma cut_window l0 n c db : cut_at l0 n db -> window (max_id id_of (take n db)) c db = filter (fun r => id_of r <= c) (drop n db).
Proof.
  intros [_ Hc]. set (m := max_id id_of (take n db)) in *. rewrite <- (take_drop n db) at 1. unfold window. rewrite filter_app.
  pose proof (proj1 (max_id_bound (take n db))) as Hb. fold m in Hb. rewrite (filter_ext_in _ (fun _ => False) (take n db)).
  2: { intros r Hr. specialize (Hb r Hr). lia. }
  assert (forall l : list A, filter (fun _ => False) l = []) as -> by (induction l as [|x l IH]; [done|]; by rewrite filter_cons_False by tauto).
  apply filter_ext_in. intros r Hr. specialize (Hc r Hr). lia.
Qed.
Lemma cut_all n db : filter (fun r => id_of r <= max_id id_of db) (drop n db) = drop n db.
Proof.
  pose proof (proj1 (max_id_bound db)) as Hb. rewrite (filter_ext_in _ (fun _ => True)).
  - induction (drop n db) as [|x l IH]; [done|]. by rewrite filter_cons_True, IH.
  - intros r Hr. assert (r ∈ db) as Hin by (rewrite <- (take_drop n db), elem_of_app; by right). specialize (Hb r Hin). tauto.
Qed.
End Rows.

Lemma window_self {A} (id_of : A -> Z) c l : window id_of c c l = [].
Proof. unfold window. rewrite (filter_ext_in _ (fun _ => False)); [|intros; lia]. induction l as [|x l IH]; [done|]. rewrite filter_cons_False by tauto. exact IH. Qed.

(** ** Announcements *)
Definition block_notices (r : block_event) : list emission :=
  BlockFound (bl_height r) (bl_hash r) (bl_reward r) (bl_foundAt r) :: match bl_finder r with Some uid => [UserBlock uid (bl_height r) (bl_hash r)] | None => [] end.
Definition payout_notice (r : payout_event) : emission := PayoutSent (pe_userId r) (pe_amount r) (default [] (pe_txid r)).
Definition of_blocks (e : emission) : bool := match e with BlockFound _ _ _ _ | UserBlock _ _ _ => true | _ => false end.
Definition of_payouts (e : emission) : bool := match e with PayoutSent _ _ _ => true | _ => false end.
Definition block_news (l : list emission) : list emission := filter (fun e => of_blocks e = true) l.
Definition payout_news (l : list emission) : list emission := filter (fun e => of_payouts e = true) l.

Lemma block_news_app l k : block_news (l ++ k) = block_news l ++ block_news k.
Proof. apply filter_app. Qed.
Lemma payout_news_app l k : payout_news (l ++ k) = payout_news l ++ payout_news k.
Proof. apply filter_app. Qed.
(** All fields but the emissions and the last block. *)
Definition same_bus (s s' : bus) : Prop := db_blocks s' = db_blocks s /\ db_payouts s' = db_payouts s /\ blockCursor s' = blockCursor s /\ payoutCursor s' = payoutCursor s /\
  ticks s' = ticks s /\ rooms s' = rooms s /\ bus_crashed s' = bus_crashed s.
Lemma notify_blocks l s : let s' := foldl notifyBlockFound s l in same_bus s s' /\
  block_news (emitted s') = block_news (emitted s) ++ (l ≫= block_notices) /\ payout_news (emitted s') = payout_news (emitted s).
Proof.
  revert s. induction l as [|r l IH]; intros s; cbn [foldl]; [by rewrite app_nil_r|]. destruct (IH (notifyBlockFound s r)) as (H1 & H2 & H3). cbv zeta in *.
  split; [exact H1|]. rewrite H2, H3. cbn [emitted notifyBlockFound bus_emit set_lastBlock]. fold (block_notices r). rewrite block_news_app, payout_news_app.
  assert (block_news (block_notices r) = block_notices r /\ payout_news (block_notices r) = []) as [-> ->] by (unfold block_notices; by destruct (bl_finder r)).
  by rewrite app_nil_r, <- app_assoc.
Qed.
Lemma notify_payouts l s : let s' := foldl notifyPayout s l in same_bus s s' /\
  block_news (emitted s') = block_news (emitted s) /\ payout_news (emitted s') = payout_news (emitted s) ++ (payout_notice <$> l).
Proof.
  revert s. induction l as [|r l IH]; intros s; cbn [foldl]; [by rewrite app_nil_r|]. destruct (IH (notifyPayout s r)) as (H1 & H2 & H3). cbv zeta in *.
  split; [exact H1|]. rewrite H2, H3. cbn [emitted notifyPayout bus_emit]. rewrite block_news_app, payout_news_app. split; [apply app_nil_r|]. by rewrite <- app_assoc.
Qed.

(** ** The invariant *)
Section Bus.
Context (blocks0 : list block_event) (payouts0 : list payout_event).

Definition row_tick {A} (id_of : A -> Z) (c : Z) (db rows : list A) : Prop := exists q m, q <= c /\ m <= max_id id_of db /\ rows = window id_of q m db.
Definition tick_ok (c p : Z) (s : bus) (t : tick) : Prop :=
  match t with
  | AskBlocks q => q <= c
  | AskPayouts q => q <= p
  | ReadBlocks rows => row_tick bl_id c (db_blocks s) rows
  | ReadPayouts rows => row_tick pe_id p (db_payouts s) rows
  | _ => True
  end.
(** [L] has the sizes of the tables at each reading of the cursors. *)
Definition starts (L : list (nat * nat)) (b p : Z) (s : bus) : Prop :=
  exists n m, (n, m) ∈ L /\ b = max_id bl_id (take n (db_blocks s)) /\ p = max_id pe_id (take m (db_payouts s)).
Definition tick_first (L : list (nat * nat)) (s : bus) (t : tick) : Prop :=
  match t with
  | ReadMax b p => starts L b p s
  | AskBlocks _ | AskPayouts _ | ReadBlocks _ | ReadPayouts _ => False
  | _ => True
  end.
Record db_ok (L : list (nat * nat)) (s : bus) : Prop := {
  db_border : in_order bl_id (db_blocks s); db_porder : in_order pe_id (db_payouts s);
  db_bold : (length blocks0 <= length (db_blocks s))%nat; db_pold : (length payouts0 <= length (db_payouts s))%nat;
  db_cuts : forall n m, (n, m) ∈ L -> cut_at bl_id (length blocks0) n (db_blocks s) /\ cut_at pe_id (length payouts0) m (db_payouts s) }.
Record announced (L : list (nat * nat)) (c0 p0 c p : Z) (s : bus) : Prop := {
  an_start : starts L c0 p0 s;
  an_block : c0 <= c <= max_id bl_id (db_blocks s);
  an_payout : p0 <= p <= max_id pe_id (db_payouts s);
  an_blocks : block_news (emitted s) = window bl_id c0 c (db_blocks s) ≫= block_notices;
  an_payouts : payout_news (emitted s) = payout_notice <$> window pe_id p0 p (db_payouts s);
  an_ticks : forall t, t ∈ ticks s -> tick_ok c p s t }.
Definition bus_ok (L : list (nat * nat)) (s : bus) : Prop := db_ok L s /\
  match blockCursor s, payoutCursor s with
  | Some c, Some p => exists c0 p0, announced L c0 p0 c p s
  | None, None => block_news (emitted s) = [] /\ payout_news (emitted s) = [] /\ forall t, t ∈ ticks s -> tick_first L s t
  | _, _ => False
  end.

(** Another reading. *)
Lemma reading_ok L s : bus_ok L s -> bus_ok (L ++ [(length (db_blocks s), length (db_payouts s))]) s.
Proof.
  intros [[D1 D2 D3 D4 D5] H]. assert (forall b p, starts L b p s -> starts (L ++ [(length (db_blocks s), length (db_payouts s))]) b p s) as Hst.
  { intros b p (n & m & Hin & E). exists n, m. rewrite elem_of_app. auto. }
  split; [constructor; try done; intros n m; rewrite elem_of_app, list_elem_of_singleton; intros [Hin|[= -> ->]]; [by apply D5|split; by apply cut_now]|].
  destruct (blockCursor s), (payoutCursor s); [|done|done|].
  - destruct H as (c0 & p0 & [A0 A1 A2 A3 A4 A5]). exists c0, p0. constructor; auto.
  - destruct H as (H1 & H2 & H3). do 2 (split; [done|]). intros t Ht. specialize (H3 t Ht). destruct t; cbn in *; auto.
Qed.

Section Log.
Context (L : list (nat * nat)).

Lemma starts_same b p s s' : db_blocks s' = db_blocks s -> db_payouts s' = db_payouts s -> starts L b p s -> starts L b p s'.
Proof. unfold starts. by intros -> ->. Qed.

(** A change of the ticks alone. *)
Definition tick_fits (s : bus) (t : tick) : Prop :=
  match blockCursor s, payoutCursor s with Some c, Some p => tick_ok c p s t | _, _ => tick_first L s t end.
Lemma ticks_ok l s : bus_ok L s -> (forall t, t ∈ l -> t ∈ ticks s \/ tick_fits s t) -> bus_ok L (set_ticks l s).
Proof.
  unfold tick_fits. intros [[D1 D2 D3 D4 D5] H] Hl. split; [by constructor|]. cbn. destruct (blockCursor s) as [c|], (payoutCursor s) as [p|]; [|done|done|].
  - destruct H as (c0 & p0 & [A0 A1 A2 A3 A4 A5]). exists c0, p0. constructor; try done. intros t Ht. destruct (Hl t Ht) as [Ht'|Ht']; [by apply A5|exact Ht'].
  - destruct H as (H1 & H2 & H3). split; [done|]. split; [done|]. intros t Ht. destruct (Hl t Ht) as [Ht'|Ht']; [by apply H3|exact Ht'].
Qed.
Lemma insert_elem (i : nat) (t u : tick) (l : list tick) : u ∈ <[i := t]> l -> u = t \/ u ∈ l.
Proof. intros Hu. apply list_elem_of_lookup in Hu as [j Hj]. destruct (decide (i = j)) as [->|Hne].
  - apply list_lookup_insert_Some in Hj as [(_ & -> & _)|(? & _)]; [by left|done].
  - rewrite list_lookup_insert_ne in Hj by done. right. by eapply list_elem_of_lookup_2.
Qed.
Lemma delete_elem (i : nat) (u : tick) (l : list tick) : u ∈ delete i l -> u ∈ l.
Proof.
  revert i. induction l as [|x l IH]; intros [|i]; cbn; [done..|by right|]. intros Hu. apply elem_of_cons in Hu as [->|Hu]; [by left|]. right. by eapply IH.
Qed.
Lemma set_tick_ok i t s : bus_ok L s -> tick_fits s t -> bus_ok L (set_tick i t s).
Proof. intros H Ht. apply ticks_ok; [done|]. intros u Hu. apply insert_elem in Hu as [->|Hu]; [by right|by left]. Qed.
Lemma end_tick_ok i s : bus_ok L s -> bus_ok L (end_tick i s).
Proof. intros H. apply ticks_ok; [done|]. intros u Hu. left. by eapply delete_elem. Qed.
Lemma push_users_ok i l s : bus_ok L s -> bus_ok L (push_users i l s).
Proof.
  intros H. destruct l as [|uid l]; [by apply end_tick_ok|]. apply set_tick_ok; [done|]. unfold tick_fits. by repeat case_match.
Qed.

Lemma old_tick s i t : bus_ok L s -> ticks s !! i = Some t -> tick_fits s t.
Proof.
  unfold tick_fits. intros [_ H] Hi. apply list_elem_of_lookup_2 in Hi. destruct (blockCursor s), (payoutCursor s); [|done|done|].
  - destruct H as (c0 & p0 & [_ _ _ _ _ H]). by apply H.
  - by apply H.
Qed.
Lemma emit_ok e s : of_blocks e = false -> of_payouts e = false -> bus_ok L s -> bus_ok L (bus_emit [e] s).
Proof.
  intros E1 E2 [[D1 D2 D3 D4 D5] H]. assert (block_news (emitted s ++ [e]) = block_news (emitted s)) as B.
  { rewrite block_news_app. unfold block_news at 2. rewrite filter_cons_False by congruence. apply app_nil_r. }
  assert (payout_news (emitted s ++ [e]) = payout_news (emitted s)) as P.
  { rewrite payout_news_app. unfold payout_news at 2. rewrite filter_cons_False by congruence. apply app_nil_r. }
  split; [by constructor|]. cbn [blockCursor payoutCursor emitted bus_emit]. destruct (blockCursor s) as [c|], (payoutCursor s) as [p|]; [|done|done|by rewrite B, P].
  destruct H as (c0 & p0 & [A0 A1 A2 A3 A4 A5]). exists c0, p0. constructor; cbn [emitted bus_emit db_blocks db_payouts]; rewrite ?B, ?P; done.
Qed.
Lemma bus_ok_frame s s' : db_blocks s' = db_blocks s -> db_payouts s' = db_payouts s -> blockCursor s' = blockCursor s -> payoutCursor s' = payoutCursor s ->
  emitted s' = emitted s -> (forall t, t ∈ ticks s' -> t ∈ ticks s) -> bus_ok L s -> bus_ok L s'.
Proof.
  intros E1 E2 E3 E4 E5 Ht [[D1 D2 D3 D4 D5] H]. split; [constructor; rewrite ?E1, ?E2; done|]. rewrite E3, E4, E5.
  destruct (blockCursor s) as [c|], (payoutCursor s) as [p|]; [|done|done|].
  - destruct H as (c0 & p0 & [A0 A1 A2 A3 A4 A5]). exists c0, p0. constructor; rewrite ?E1, ?E2, ?E5; try done; [by eapply starts_same|].
    intros t Hin. specialize (A5 t (Ht t Hin)).
    destruct t; cbn in *; rewrite ?E1, ?E2; done.
  - destruct H as (H1 & H2 & H3). split; [done|]. split; [done|]. intros t Hin. specialize (H3 t (Ht t Hin)). destruct t; try done. by eapply starts_same.
Qed.
Lemma crash_ok s : bus_ok L s -> bus_ok L (crash_bus s).
Proof. apply bus_ok_frame; try done. by intros t ?%elem_of_nil. Qed.
Lemma rooms_ok r s : bus_ok L s -> bus_ok L (set_rooms r s).
Proof. by apply bus_ok_frame. Qed.
Lemma insert_rows_ok b p s : bus_ok L s -> (forall r, r ∈ b -> max_id bl_id (db_blocks s) < bl_id r) -> (forall r, r ∈ p -> max_id pe_id (db_payouts s) < pe_id r) ->
  in_order bl_id b -> in_order pe_id p -> bus_ok L (insert_rows b p s).
Proof.
  intros [[D1 D2 D3 D4 D5] H] Hb Hp Ob Op. pose proof (max_id_grows bl_id (db_blocks s) b) as Gb. pose proof (max_id_grows pe_id (db_payouts s) p) as Gp.
  split; [constructor; cbn [db_blocks db_payouts insert_rows]; [by apply in_order_inserts..|rewrite length_app; lia|rewrite length_app; lia|]|].
  { intros n m Hin. destruct (D5 n m Hin). split; by apply cut_inserts. }
  assert (forall x y, starts L x y s -> starts L x y (insert_rows b p s)) as Hst.
  { intros x y (n & m & Hin & -> & ->). exists n, m. split; [done|]. cbn. destruct (D5 n m Hin) as [Cb Cp].
    by rewrite (proj2 (cut_inserts bl_id _ n _ b Cb Hb)), (proj2 (cut_inserts pe_id _ m _ p Cp Hp)). }
  assert (forall a m, m <= max_id bl_id (db_blocks s) -> window bl_id a m (db_blocks s ++ b) = window bl_id a m (db_blocks s)) as Wb.
  { intros a m Hm. apply window_inserts. intros r Hr. specialize (Hb r Hr). lia. }
  assert (forall a m, m <= max_id pe_id (db_payouts s) -> window pe_id a m (db_payouts s ++ p) = window pe_id a m (db_payouts s)) as Wp.
  { intros a m Hm. apply window_inserts. intros r Hr. specialize (Hp r Hr). lia. }
  cbn. destruct (blockCursor s) as [c|], (payoutCursor s) as [q|]; [|done|done|].
  - destruct H as (c0 & p0 & [A0 A1 A2 A3 A4 A5]). exists c0, p0. constructor; cbn [emitted insert_rows db_blocks db_payouts ticks];
      [by apply Hst|lia|lia|by rewrite Wb by lia|by rewrite Wp by lia|].
    intros t Ht. specialize (A5 t Ht). destruct t; cbn [tick_ok db_blocks db_payouts insert_rows] in *; try done.
    + destruct A5 as (x & m & ? & ? & ->). exists x, m. rewrite Wb by lia. split; [lia|]. split; [lia|done].
    + destruct A5 as (x & m & ? & ? & ->). exists x, m. rewrite Wp by lia. split; [lia|]. split; [lia|done].
  - destruct H as (H1 & H2 & H3). split; [done|]. split; [done|]. intros t Ht. specialize (H3 t Ht). destruct t; try done. by apply Hst.
Qed.
Lemma db_read_fits s t : bus_ok L s -> tick_fits s t -> (t = AskMax -> (length (db_blocks s), length (db_payouts s)) ∈ L) -> tick_fits s (db_read t s).
Proof.
  unfold tick_fits. intros [[D1 D2 D3 D4 D5] H] Ht HL. destruct t; try exact Ht; cbn [db_read].
  - destruct (blockCursor s), (payoutCursor s); cbn; [done|done|done|]. exists (length (db_blocks s)), (length (db_payouts s)).
    rewrite !take_ge by done. auto.
  - destruct (blockCursor s), (payoutCursor s); cbn in *; [|done..]. exists cursor, (max_id bl_id (db_blocks s)). split; [done|]. split; [done|apply window_all].
  - destruct (blockCursor s), (payoutCursor s); cbn in *; [|done..]. exists cursor, (max_id pe_id (db_payouts s)). split; [done|]. split; [done|apply window_all].
Qed.
(** The rows of a query are consumed. *)
Lemma tick_ok_grows c p c' p' s s' t : c <= c' -> p <= p' -> db_blocks s' = db_blocks s -> db_payouts s' = db_payouts s -> tick_ok c p s t -> tick_ok c' p' s' t.
Proof.
  intros Hc Hp E1 E2. destruct t; cbn; rewrite ?E1, ?E2; try done; [lia| |lia|].
  - intros (q & m & ? & ? & ->). exists q, m. split; [lia|]. done.
  - intros (q & m & ? & ? & ->). exists q, m. split; [lia|]. done.
Qed.
Lemma answer_blocks_ok c p rows s : bus_ok L s -> blockCursor s = Some c -> payoutCursor s = Some p -> row_tick bl_id c (db_blocks s) rows ->
  let '(c', fresh) := consumeNew bl_id c rows in bus_ok L (foldl notifyBlockFound (set_cursors (Some c') (Some p) s) fresh).
Proof.
  intros [[D1 D2 D3 D4 D5] H] Ec Ep (q & m & Hq & Hm & ->). rewrite Ec, Ep in H. destruct H as (c0 & p0 & [A0 A1 A2 A3 A4 A5]).
  pose proof (consume_window bl_id q c m (db_blocks s) Hq) as Hw. destruct (consumeNew bl_id c _) as [c' fresh]. destruct Hw as (W1 & W2 & ->).
  destruct (notify_blocks (window bl_id c c' (db_blocks s)) (set_cursors (Some c') (Some p) s)) as ((E1 & E2 & E3 & E4 & E5 & E6 & E7) & N1 & N2). cbv zeta in *.
  set (s' := foldl _ _ _) in *. split; [constructor; rewrite ?E1, ?E2; done|]. rewrite E3, E4. cbn [blockCursor payoutCursor set_cursors]. exists c0, p0.
  constructor; rewrite ?E1, ?E2; cbn [db_blocks db_payouts set_cursors]; [by eapply starts_same|lia|lia| | |].
  - rewrite N1. cbn [emitted set_cursors]. rewrite A3. rewrite (window_split bl_id c0 c c') by (done || lia). by rewrite bind_app.
  - rewrite N2. exact A4.
  - rewrite E5. intros t Ht. eapply (tick_ok_grows c p); [lia|done|done|done|]. by apply A5.
Qed.
Lemma answer_payouts_ok c p rows s : bus_ok L s -> blockCursor s = Some c -> payoutCursor s = Some p -> row_tick pe_id p (db_payouts s) rows ->
  let '(p', fresh) := consumeNew pe_id p rows in bus_ok L (foldl notifyPayout (set_cursors (Some c) (Some p') s) fresh).
Proof.
  intros [[D1 D2 D3 D4 D5] H] Ec Ep (q & m & Hq & Hm & ->). rewrite Ec, Ep in H. destruct H as (c0 & p0 & [A0 A1 A2 A3 A4 A5]).
  pose proof (consume_window pe_id q p m (db_payouts s) Hq) as Hw. destruct (consumeNew pe_id p _) as [p' fresh]. destruct Hw as (W1 & W2 & ->).
  destruct (notify_payouts (window pe_id p p' (db_payouts s)) (set_cursors (Some c) (Some p') s)) as ((E1 & E2 & E3 & E4 & E5 & E6 & E7) & N1 & N2). cbv zeta in *.
  set (s' := foldl _ _ _) in *. split; [constructor; rewrite ?E1, ?E2; done|]. rewrite E3, E4. cbn [blockCursor payoutCursor set_cursors]. exists c0, p0.
  constructor; rewrite ?E1, ?E2; cbn [db_blocks db_payouts set_cursors]; [by eapply starts_same|lia|lia| | |].
  - rewrite N1. exact A3.
  - rewrite N2. cbn [emitted set_cursors]. rewrite A4. rewrite (window_split pe_id p0 p p') by (done || lia). by rewrite fmap_app.
  - rewrite E5. intros t Ht. eapply (tick_ok_grows c p); [done|lia|done|done|]. by apply A5.
Qed.
Lemma first_cursor_ok b p s : bus_ok L s -> blockCursor s = None -> tick_first L s (ReadMax b p) -> bus_ok L (set_cursors (Some b) (Some p) s).
Proof.
  intros [[D1 D2 D3 D4 D5] H] Ec Hs. cbn in Hs. rewrite Ec in H. destruct (payoutCursor s); [done|]. destruct H as (H1 & H2 & H3). split; [by constructor|].
  assert (b <= max_id bl_id (db_blocks s) /\ p <= max_id pe_id (db_payouts s)) as [Lb Lp].
  { destruct Hs as (n & m & _ & -> & ->). rewrite <- (take_drop n (db_blocks s)) at 2. rewrite <- (take_drop m (db_payouts s)) at 2. split; apply max_id_grows. }
  exists b, p. constructor; cbn [emitted set_cursors db_blocks db_payouts ticks]; [done|lia|lia|by rewrite window_self|by rewrite window_self|]. intros t Ht. specialize (H3 t Ht). by destruct t.
Qed.

Lemma payouts_in_order rows : (length (remove_dups (pe_id <$> rows)) <= 1)%nat -> in_order pe_id rows.
Proof.
  intros Hl. assert (forall x y, x ∈ pe_id <$> rows -> y ∈ pe_id <$> rows -> x = y) as He.
  { intros x y Hx Hy. rewrite <- elem_of_remove_dups in Hx, Hy. destruct (remove_dups (pe_id <$> rows)) as [|a [|b l]]; [by apply elem_of_nil in Hx| |cbn in Hl; lia].
    apply list_elem_of_singleton in Hx as ->, Hy as ->. done. }
  unfold in_order. clear Hl. induction (pe_id <$> rows) as [|x l IH]; [constructor|]. constructor; [apply IH; intros; apply He; by right|].
  apply List.Forall_forall. intros y Hy. apply list_elem_of_In in Hy. assert (x = y) as ->; [|done]. apply He; [by left|by right].
Qed.
Lemma fits_other t s : match t with AskPool | OncePool | OnceUser _ | AskUser _ _ | AskMax => True | _ => False end -> tick_fits s t.
Proof. unfold tick_fits. intros H. destruct (blockCursor s), (payoutCursor s), t; done. Qed.

(** The first answer of the cursors is the only one. *)
Definition first_answer (s : bus) (e : bus_event) : bool :=
  match e with
  | DbAnswer i => match ticks s !! i with Some (ReadMax _ _) => bool_decide (blockCursor s = None) | _ => true end
  | _ => true
  end.

Lemma db_answer_ok i t s : bus_ok L s -> tick_fits s t -> match t with ReadMax _ _ => blockCursor s = None | _ => True end -> bus_ok L (db_answer i t s).
Proof.
  intros Hs Ht Hf. destruct t as [| | | |b p|c|rows|c|rows|uid rest]; try exact Hs; cbn [db_answer].
  - apply push_users_ok, first_cursor_ok; [done..|]. unfold tick_fits in Ht. by rewrite Hf in Ht.
  - unfold tick_fits in Ht. destruct (blockCursor s) as [c|] eqn:Ec, (payoutCursor s) as [p|] eqn:Ep; [|done..]. cbn [tick_ok] in Ht.
    pose proof (answer_blocks_ok c p rows s Hs Ec Ep Ht) as Ha. destruct (consumeNew bl_id c rows) as [c' fresh]. apply set_tick_ok; [exact Ha|].
    destruct (notify_blocks fresh (set_cursors (Some c') (Some p) s)) as ((E1 & E2 & E3 & E4 & _) & _). cbv zeta in *. unfold tick_fits. rewrite E3, E4. cbn. lia.
  - unfold tick_fits in Ht. destruct (payoutCursor s) as [p|] eqn:Ep; [|done]. destruct (blockCursor s) as [c|] eqn:Ec; [|by destruct Hs as [_ Hs]; rewrite Ec, Ep in Hs].
    cbn [tick_ok] in Ht. pose proof (answer_payouts_ok c p rows s Hs Ec Ep Ht) as Ha. destruct (consumeNew pe_id p rows) as [p' fresh]. by apply push_users_ok.
Qed.
Lemma bus_step_ok s e : bus_ok L s -> first_answer s e = true ->
  (forall i, e = DbRead i -> ticks s !! i = Some AskMax -> (length (db_blocks s), length (db_payouts s)) ∈ L) -> bus_ok L (bus_step s e).
Proof.
  intros Hs Hf HL. unfold bus_step. destruct (bus_crashed s); [done|]. destruct e as [|i stats d n|i|i|i stats|i|r|rows| |uid|uid].
  - apply ticks_ok; [done|]. intros t Ht. apply elem_of_app in Ht as [Ht|Ht]; [by left|]. apply list_elem_of_singleton in Ht as ->. right. by apply fits_other.
  - destruct (ticks s !! i) as [[]|]; try done.
    + by apply end_tick_ok, emit_ok.
    + assert (bus_ok L (bus_emit [pushPool (fetchStratumStats stats) d n] s)) as H' by (by apply emit_ok). set (s' := bus_emit _ s) in *. unfold start_poll_rows.
      destruct (blockCursor s') as [b|] eqn:Eb, (payoutCursor s') as [p|] eqn:Ep; (apply set_tick_ok; [done|]); [|by apply fits_other..].
      unfold tick_fits. rewrite Eb, Ep. cbn. lia.
  - destruct (ticks s !! i) as [t|] eqn:Et; [|done]. apply set_tick_ok; [done|]. apply db_read_fits; [done|by eapply old_tick|]. intros ->. by eapply HL.
  - destruct (ticks s !! i) as [t|] eqn:Et; [|done]. apply db_answer_ok; [done|by eapply old_tick|]. cbn [first_answer] in Hf. rewrite Et in Hf.
    destruct t; try done. by apply bool_decide_eq_true in Hf.
  - destruct (ticks s !! i) as [[]|]; try done; [by apply end_tick_ok, emit_ok|by apply push_users_ok, emit_ok].
  - destruct (ticks s !! i); [|done]. by apply crash_ok.
  - destruct (Z.ltb_spec (max_id bl_id (db_blocks s)) (bl_id r)); [|done]. apply insert_rows_ok; [done| |by intros ? ?%elem_of_nil|by repeat constructor|constructor].
    by intros r' ->%list_elem_of_singleton.
  - destruct (forallb _ rows) eqn:Ea; [|done]. case_bool_decide as El; [|done]. cbn [andb]. apply insert_rows_ok; [done|by intros ? ?%elem_of_nil| |constructor|by apply payouts_in_order].
    intros r Hr. rewrite forallb_forall in Ea. specialize (Ea r ltac:(by apply list_elem_of_In)). lia.
  - apply ticks_ok; [done|]. intros t Ht. apply elem_of_app in Ht as [Ht|Ht]; [by left|]. apply list_elem_of_singleton in Ht as ->. right. by apply fits_other.
  - apply (ticks_ok _ (set_rooms _ s)); [by apply rooms_ok|]. intros t Ht. apply elem_of_app in Ht as [Ht|Ht]; [|apply list_elem_of_singleton in Ht as ->; right; by apply fits_other].
    case_bool_decide; [by left|]. apply list_elem_of_fmap in Ht as (u & -> & Hu). destruct u; try by left. right. by apply fits_other.
  - apply (ticks_ok _ (set_rooms _ s)); [by apply rooms_ok|]. intros t Ht. apply list_elem_of_fmap in Ht as (u & -> & Hu). destruct u; try by left. right. by apply fits_other.
Qed.
End Log.

Fixpoint first_alone (es : list bus_event) (s : bus) : bool := match es with [] => true | e :: es => first_answer s e && first_alone es (bus_step s e) end.
(** The sizes of the two tables whenever the database reads the cursors for a tick. *)
Definition first_read (s : bus) (e : bus_event) : list (nat * nat) :=
  match e with
  | DbRead i => match ticks s !! i with Some AskMax => [(length (db_blocks s), length (db_payouts s))] | _ => [] end
  | _ => []
  end.
Fixpoint first_reads (es : list bus_event) (s : bus) : list (nat * nat) :=
  match es with [] => [] | e :: es => first_read s e ++ first_reads es (bus_step s e) end.

Lemma bus_run_ok es L s : bus_ok L s -> first_alone es s = true -> bus_ok (L ++ first_reads es s) (bus_run es s).
Proof.
  revert L s. induction es as [|e es IH]; intros L s Hs Hf; [by rewrite app_nil_r|]. cbn in Hf. apply andb_true_iff in Hf as [H1 H2].
  cbn [first_reads]. rewrite app_assoc. apply IH; [|done]. apply bus_step_ok; [|done|].
  - unfold first_read. destruct e as [| |i| | | | | | | |]; rewrite ?app_nil_r; try done. destruct (ticks s !! i) as [[]|]; rewrite ?app_nil_r; try done. by apply reading_ok.
  - intros i -> Ht. cbn. rewrite Ht, elem_of_app. right. by left.
Qed.
End Bus.

Lemma max_id_attained {A} (id_of : A -> Z) l : max_id id_of l = 0 \/ exists r, r ∈ l /\ max_id id_of l = id_of r.
Proof.
  unfold max_id. assert (forall c, foldl (fun m r => Z.max m (id_of r)) c l = c \/ exists r, r ∈ l /\ foldl (fun m r => Z.max m (id_of r)) c l = id_of r) as H; [|apply H].
  induction l as [|x l IH]; intros c; cbn [foldl]; [by left|]. destruct (IH (Z.max c (id_of x))) as [->|(r & Hr & ->)].
  - destruct (Z.max_spec c (id_of x)) as [[_ ->]|[_ ->]]; [right; exists x; split; [by left|done]|by left].
  - right. exists r. split; [by right|done].
Qed.
(** An answer that comes before another row is written brings the cursor to the last row. *)
Lemma consume_all {A} (id_of : A -> Z) q c db : 0 <= c -> q <= c <= max_id id_of db ->
  (consumeNew id_of c (filter (fun r => q < id_of r) db)).1 = max_id id_of db.
Proof.
  intros H0 Hq. rewrite window_all. set (m := max_id id_of db) in *. pose proof (consume_window id_of q c m db ltac:(lia)) as Hw.
  destruct (consumeNew id_of c (window id_of q m db)) as [c' fresh] eqn:E. destruct Hw as (W1 & W2 & W3). cbn.
  destruct (Z.eq_dec c' m) as [|Hne]; [done|]. exfalso.
  destruct (max_id_attained id_of db) as [Hm|(r & Hr & Hm)]; fold m in Hm; [lia|]. assert (r ∈ fresh) as Hf.
  { unfold consumeNew in E. injection E as _ <-. apply list_elem_of_filter. split; [lia|]. apply window_elem. split; [lia|done]. }
  rewrite W3 in Hf. apply window_elem in Hf. lia.
Qed.

Section Tick.
Context (blocks0 : list block_event) (payouts0 : list payout_event) (s : bus) (k : nat) (c p : Z).
Context (Hcr : bus_crashed s = false) (Ec : blockCursor s = Some c) (Ep : payoutCursor s = Some p).
Context (Hc : 0 <= c <= max_id bl_id (db_blocks s)) (Hp : 0 <= p <= max_id pe_id (db_payouts s)).

Lemma tick_blocks : ticks s !! k = Some (AskBlocks c) -> let s' := bus_run [DbRead k; DbAnswer k] s in
  bus_crashed s' = false /\ blockCursor s' = Some (max_id bl_id (db_blocks s)) /\ payoutCursor s' = Some p /\
  db_blocks s' = db_blocks s /\ db_payouts s' = db_payouts s /\ ticks s' !! k = Some (AskPayouts p).
Proof.
  intros Ht. assert (k < length (ticks s))%nat as Hk by (by eapply lookup_lt_Some).
  unfold bus_run. cbn [foldl]. unfold bus_step at 2 4 6 8 10 12. rewrite Hcr, Ht. cbn [db_read]. unfold bus_step. cbn [bus_crashed set_tick set_ticks ticks]. rewrite Hcr.
  rewrite list_lookup_insert_eq by done. unfold db_answer. set (s1 := set_tick k _ s).
  change (blockCursor s1) with (blockCursor s). change (payoutCursor s1) with (payoutCursor s). rewrite Ec, Ep.
  pose proof (consume_all bl_id c c (db_blocks s) ltac:(lia) ltac:(lia)) as Hm. destruct (consumeNew bl_id c _) as [c' fresh]. cbn in Hm. subst c'.
  destruct (notify_blocks fresh (set_cursors (Some (max_id bl_id (db_blocks s))) (Some p) s1)) as ((E1 & E2 & E3 & E4 & E5 & E6 & E7) & _). cbv zeta in *.
  cbn [bus_crashed blockCursor payoutCursor db_blocks db_payouts ticks set_tick set_ticks]. rewrite E1, E2, E3, E4, E5, E7.
  do 5 (split; [done|]). apply list_lookup_insert_eq. cbn. by rewrite length_insert.
Qed.
Lemma tick_payouts : ticks s !! k = Some (AskPayouts p) -> let s' := bus_run [DbRead k; DbAnswer k] s in
  blockCursor s' = Some c /\ payoutCursor s' = Some (max_id pe_id (db_payouts s)) /\ db_blocks s' = db_blocks s /\ db_payouts s' = db_payouts s.
Proof.
  intros Ht. assert (k < length (ticks s))%nat as Hk by (by eapply lookup_lt_Some).
  unfold bus_run. cbn [foldl]. unfold bus_step at 2 4 6 8. rewrite Hcr, Ht. cbn [db_read]. unfold bus_step. cbn [bus_crashed set_tick set_ticks ticks]. rewrite Hcr.
  rewrite list_lookup_insert_eq by done. unfold db_answer. set (s1 := set_tick k _ s).
  change (blockCursor s1) with (blockCursor s). change (payoutCursor s1) with (payoutCursor s). rewrite Ec, Ep.
  pose proof (consume_all pe_id p p (db_payouts s) ltac:(lia) ltac:(lia)) as Hm. destruct (consumeNew pe_id p _) as [p' fresh]. cbn in Hm. subst p'.
  destruct (notify_payouts fresh (set_cursors (Some c) (Some (max_id pe_id (db_payouts s))) s1)) as ((E1 & E2 & E3 & E4 & _) & _). cbv zeta in *.
  unfold push_users. destruct (rooms _); cbn [blockCursor payoutCursor db_blocks db_payouts set_tick end_tick set_ticks]; by rewrite E1, E2, E3, E4.
Qed.
End Tick.

(** The events of a whole tick of which nothing comes in between. *)
Definition whole_tick (s : bus) (stats : option stratum_stats) (d n : jsstr) : list bus_event :=
  let k := length (ticks s) in [Tick; PoolAnswer k stats d n; DbRead k; DbAnswer k; DbRead k; DbAnswer k].

Lemma query_ok blocks0 payouts0 L s k t : bus_ok blocks0 payouts0 L s -> bus_crashed s = false -> ticks s !! k = Some t ->
  match t with AskBlocks _ | AskPayouts _ => True | _ => False end -> bus_ok blocks0 payouts0 L (bus_run [DbRead k; DbAnswer k] s).
Proof.
  intros Hs Hcr Ht Hk. unfold bus_run. cbn [foldl]. apply bus_step_ok; [apply bus_step_ok; [done|done|]| |done].
  - intros i [= <-] Hi. rewrite Ht in Hi. injection Hi as ->. done.
  - unfold first_answer, bus_step. rewrite Hcr, Ht. cbn. rewrite list_lookup_insert_eq by (by eapply lookup_lt_Some). by destruct t.
Qed.

Lemma whole_tick_ok blocks0 payouts0 L s stats d n c p : bus_ok blocks0 payouts0 L s -> bus_crashed s = false ->
  blockCursor s = Some c -> payoutCursor s = Some p -> let s' := bus_run (whole_tick s stats d n) s in
  bus_ok blocks0 payouts0 L s' /\ blockCursor s' = Some (max_id bl_id (db_blocks s)) /\ payoutCursor s' = Some (max_id pe_id (db_payouts s)) /\
  db_blocks s' = db_blocks s /\ db_payouts s' = db_payouts s.
Proof.
  intros Hs Hcr Ec Ep. set (k := length (ticks s)). pose proof Hs as [_ H]. rewrite Ec, Ep in H. destruct H as (c0 & p0 & [(a & b & _ & -> & ->) A1 A2 _ _ _]).
  pose proof (proj2 (max_id_bound bl_id (take a (db_blocks s)))). pose proof (proj2 (max_id_bound pe_id (take b (db_payouts s)))).
  set (s1 := bus_run [Tick; PoolAnswer k stats d n] s).
  assert (db_blocks s1 = db_blocks s /\ db_payouts s1 = db_payouts s /\ blockCursor s1 = Some c /\ payoutCursor s1 = Some p /\ bus_crashed s1 = false /\
    ticks s1 !! k = Some (AskBlocks c)) as (B1 & B2 & B3 & B4 & B5 & B6).
  { subst s1. unfold bus_run. cbn [foldl]. unfold bus_step at 2 4 6 8 10 12. rewrite Hcr. unfold bus_step. cbn [bus_crashed set_ticks ticks]. rewrite Hcr.
    rewrite (list_lookup_middle (ticks s) [] AskPool k) by done. unfold start_poll_rows. cbn [blockCursor payoutCursor bus_emit set_ticks]. rewrite Ec, Ep.
    cbn. rewrite Ec, Ep, Hcr. do 5 (split; [done|]). rewrite list_lookup_insert_eq by (rewrite length_app; cbn; lia). done. }
  destruct (tick_blocks s1 k c p) as (C1 & C2 & C3 & C4 & C5 & C6); rewrite ?B1, ?B2; [done|done|done|lia|done|]. set (s2 := bus_run [DbRead k; DbAnswer k] s1) in *.
  rewrite B1 in C2, C4. rewrite B2 in C5.
  destruct (tick_payouts s2 k (max_id bl_id (db_blocks s)) p) as (D1 & D2 & D3 & D4); rewrite ?C4, ?C5; [done..|lia|done|].
  change (bus_run (whole_tick s stats d n) s) with (bus_run [DbRead k; DbAnswer k] s2). cbv zeta. rewrite D1, D2, D3, D4, C4, C5. split; [|done].
  eapply query_ok; [|done|exact C6|done]. eapply query_ok; [|done|exact B6|done]. unfold s1, bus_run. cbn [foldl].
  apply bus_step_ok; [apply bus_step_ok|..]; done.
Qed.

(** One of the readings is the start. *)
Lemma bus_ok_start blocks0 payouts0 L s c p : bus_ok blocks0 payouts0 L s -> blockCursor s = Some c -> payoutCursor s = Some p ->
  exists n m, (n, m) ∈ L /\ bus_ok blocks0 payouts0 [(n, m)] s.
Proof.
  intros [[D1 D2 D3 D4 D5] H] Ec Ep. rewrite Ec, Ep in H. destruct H as (c0 & p0 & [(n & m & Hin & E) A1 A2 A3 A4 A5]). exists n, m. split; [done|].
  split; [constructor; try done; by intros ? ? [= -> ->]%list_elem_of_singleton; apply D5|]. rewrite Ec, Ep. exists c0, p0. constructor; try done. exists n, m. by split; [left|].
Qed.
Lemma bus_ok_news blocks0 payouts0 n m s c p : bus_ok blocks0 payouts0 [(n, m)] s -> blockCursor s = Some c -> payoutCursor s = Some p ->
  (length blocks0 <= n)%nat /\ (length payouts0 <= m)%nat /\
  block_news (emitted s) = filter (fun r => bl_id r <= c) (drop n (db_blocks s)) ≫= block_notices /\
  payout_news (emitted s) = payout_notice <$> filter (fun r => pe_id r <= p) (drop m (db_payouts s)).
Proof.
  intros [[D1 D2 D3 D4 D5] H] Ec Ep. rewrite Ec, Ep in H. destruct H as (c0 & p0 & [(n' & m' & Hin & -> & ->) A1 A2 A3 A4 A5]).
  apply list_elem_of_singleton in Hin as [= -> ->]. destruct (D5 n m ltac:(by left)) as [Cb Cp]. rewrite A3, A4.
  rewrite (cut_window bl_id _ n c _ Cb), (cut_window pe_id _ m p _ Cp). destruct Cb, Cp. repeat split; lia.
Qed.


(** An error of the database in a tick ends the service: the promise of [tick] is dropped. *)
Lemma database_error_ends_web s i t : ticks s !! i = Some t -> bus_crashed (bus_run [DbError i] s) = true.
Proof. intros Ht. unfold bus_run. cbn [foldl]. unfold bus_step. destruct (bus_crashed s) eqn:E; [done|]. by rewrite Ht. Qed.
