(* ===== verification/WebEventsExamples.v ===== *)
(** * The pool's web service: examples of pushed events *)

From Stdlib Require Import Sorting.Sorted.
From S2P Require Import Prelude JsString JsMap JsNumber JsFormat Json Difficulty Ledger WebEvents WebEventsProofs.

Definition a_block (id : Z) : block_event := {| bl_id := id; bl_height := 100 + id; bl_hash := js "00ab"; bl_reward := js "50"; bl_finder := Some 7; bl_foundAt := js "now" |}.
Definition a_payout (id user : Z) : payout_event := {| pe_id := id; pe_txid := Some (js "ff"); pe_userId := user; pe_amount := n1 |}.
(** The first tick sets the cursors; two later ticks overlap and are answered in the other order. *)
Definition overlapping : list bus_event := [
  Tick; PoolAnswer 0 None (js "0") (js "1"); DbRead 0; DbAnswer 0; NewBlock (a_block 2);
  Tick; Tick; PoolAnswer 0 None (js "0") (js "2"); PoolAnswer 1 None (js "0") (js "2"); DbRead 0; NewBlock (a_block 3); NewPayout [a_payout 1 7; a_payout 1 8]; DbRead 1;
  DbAnswer 1; DbAnswer 0; DbRead 0; DbRead 1; DbAnswer 0; DbAnswer 0].
#[local] Notation overlapped := (bus_run overlapping (init_bus [a_block 1] [])).
(** Both blocks and both recipients. *)
Lemma overlapping_announces : block_news (emitted overlapped) = [a_block 2; a_block 3] ≫= block_notices /\
  payout_news (emitted overlapped) = payout_notice <$> [a_payout 1 7; a_payout 1 8].
Proof. split; vm_compute; reflexivity. Qed.

(** Two first ticks that overlap: the second one sets the cursor past a block nobody was told of. *)
Lemma second_first_tick_skips :
  let s := bus_run [Tick; Tick; PoolAnswer 0 None (js "0") (js "1"); PoolAnswer 1 None (js "0") (js "1"); DbRead 0; DbAnswer 0; NewBlock (a_block 2); DbRead 0; DbAnswer 0]
    (init_bus [a_block 1] []) in
  blockCursor s = Some 2 /\ block_news (emitted s) = [].
Proof. vm_compute. auto. Qed.

(** The difficulty of a regtest node, 4.656542373906925e-10, is shown as nearly a half: the zero of the
    exponent is taken for a trailing zero. *)
Lemma small_difficulty_text : formatDifficulty (parseFloat (js "4.656542373906925e-10")) = js "4.65654e-1" /\
  formatDifficulty (parseFloat (js "0.00224692")) = js "0.00224692" /\ formatDifficulty (parseFloat (js "1.5")) = js "1.5".
Proof. vm_compute. auto. Qed.
