(* ===== verification/ExplorerLabels.v ===== *)
(** * The explorer: labels of scripts and miners
    ([explorer/overlay/app/services/b3-script-labels.js], [b3-pool-identifier.js])

    The block page shows the height and the readable tag of a coinbase script and the hash
    of a witness commitment, and attributes a block to the address that gets most of it. *)

From S2P Require Import Prelude JsString JsMap JsNumber JsRound JsFormat Json Header Address Difficulty Node JobManager.

(** ** b3-script-labels.js *)
Definition le_number (l : bytes) : Z := foldr (fun b n => b + 256 * n) 0 l.

Definition readBip34Height (buf : bytes) : option (Z * bytes) :=
  match buf with
  | [] => None
  | op :: rest =>
      if op =? 0 then Some (0, rest)
      else if (0x51 <=? op) && (op <=? 0x60) then Some (op - 0x50, rest)
      else if (op <? 1) || (5 <? op) || (zlen buf <? 1 + op) then None
      else
        let pushed := take (Z.to_nat op) rest in
        let top := List.last pushed 0 in
        if negb (Z.land top 0x80 =? 0) then None
        else if (1 <? zlen pushed) && (top =? 0) && (Z.land (List.last (removelast pushed) 0) 0x80 =? 0) then None
        else
          let height := le_number pushed in
          if 2 ^ 53 - 1 <? height then None else Some (height, drop (Z.to_nat op) rest)
  end.

(** One byte: the longest run so far and the current one. *)
Definition tag_step (x : jsstr * jsstr) (b : Z) : jsstr * jsstr :=
  let '(best, cur) := x in
  if (0x20 <=? b) && (b <=? 0x7e) then (best, cur ++ [b])
  else (if zlen best <? zlen cur then cur else best, []).
Definition longestAsciiTag (buf : bytes) : jsstr :=
  let '(best, cur) := foldl tag_step ([], []) buf in
  let best := if zlen best <? zlen cur then cur else best in
  if 4 <=? zlen best then best else [].

(** [/^[0-9a-f]+$/.test(s)]. *)
Definition lower_hex (s : jsstr) : bool := negb (bool_decide (s = [])) && forallb is_hex_char s.
(** [Number.isInteger(x)]. *)
Definition isInteger (x : jsnum) : bool := match math_floor x with Some z => neq (num_of_Z z) x | None => false end.

Definition coinbaseScriptSummary (hex blockHeight : jval) : res (option (Z * jsstr)) :=
  expected ← Number blockHeight;
  if negb (isInteger expected) || nlt expected n0 then Ok None
  else match hex with
  | JStr s =>
      let clean := toLowerCase (trim s) in
      if (zlen clean <? 2) || negb (zlen clean mod 2 =? 0) || negb (lower_hex clean) then Ok None
      else match readBip34Height (hex_pairs clean) with
      | Some (height, rest) => Ok (if neq (num_of_Z height) expected then Some (height, longestAsciiTag rest) else None)
      | None => Ok None
      end
  | _ => Ok None
  end.

Definition witnessCommitmentHash (payloadHex : jval) : option jsstr :=
  match payloadHex with
  | JStr s =>
      let hex := filter (fun c => is_space c = false) (toLowerCase (trim s)) in
      if negb (startsWith (js "aa21a9ed") hex) then None
      else
        let hash := take 64 (drop 8 hex) in
        if (zlen hash =? 64) && lower_hex hash then Some hash else None
  | _ => None
  end.

(** ** b3-pool-identifier.js *)
Record explorer_script := { es_address : option jsstr; es_addresses : option (list jsstr) }.
Record explorer_vout := { ev_value : option jsnum; ev_script : option explorer_script }.
Record miner_label := { mn_name : jsstr; mn_displayName : option jsstr; mn_addr : option jsstr; mn_known : bool }.
Definition unknown_miner : miner_label := {| mn_name := js "Unknown"; mn_displayName := None; mn_addr := None; mn_known := false |}.
(** The table is for operators to edit; it is empty. *)
Definition KNOWN_MINERS : list (jsstr * jsstr) := [].

Definition shortAddr (addr : jsstr) : jsstr :=
  if bool_decide (addr = []) then js "Unknown"
  else if zlen addr <=? 16 then addr else take 8 addr ++ js "..." ++ drop (length addr - 6) addr.
(** [v.value || 0]. *)
Definition value_of (v : explorer_vout) : jsnum := match ev_value v with Some x => if neq x x then x else n0 | None => n0 end.
Definition best_vout (l : list explorer_vout) : option explorer_vout :=
  foldl (fun best v => match best with Some b => if nlt (value_of b) (value_of v) then Some v else best | None => Some v end) None l.
Definition address_of (s : explorer_script) : option jsstr :=
  match es_address s with
  | Some (c :: a) => Some (c :: a)
  | _ => match es_addresses s with Some ((c :: a) :: _) => Some (c :: a) | _ => None end
  end.
(** [None]: no coinbase, or one without outputs. *)
Definition identifyMiner (vout : option (list explorer_vout)) : miner_label :=
  match best_vout (default [] vout) with
  | None => unknown_miner
  | Some best =>
      match ev_script best ≫= address_of with
      | None => unknown_miner
      | Some addr =>
          match map_get addr KNOWN_MINERS with
          | Some name => {| mn_name := name; mn_displayName := None; mn_addr := Some addr; mn_known := true |}
          | None => {| mn_name := js "address-only:" ++ addr; mn_displayName := Some (shortAddr addr); mn_addr := Some addr; mn_known := false |}
          end
      end
  end.

(** ** The coinbase of the pool *)
Lemma le_number_magnitude g n : 0 <= n < 2 ^ (8 * Z.of_nat g) -> le_number (magnitude g n) = n.
Proof.
  revert n. induction g as [|g IH]; intros n Hn; cbn [magnitude].
  { change (2 ^ (8 * Z.of_nat 0)) with 1 in Hn. cbn. lia. }
  destruct (Z.eqb_spec n 0) as [->|]; [done|]. cbn [le_number foldr]. fold (le_number (magnitude g (Z.shiftr n 8))).
  rewrite Z.shiftr_div_pow2 by lia. change 0xff with (Z.ones 8). rewrite Z.land_ones by lia. rewrite IH.
  - change 256 with (2 ^ 8). pose proof (Z.div_mod n (2 ^ 8) ltac:(lia)). lia.
  - split; [apply Z.div_pos; lia|]. apply Z.div_lt_upper_bound; [lia|]. rewrite <- Z.pow_add_r by lia. replace (8 + 8 * Z.of_nat g) with (8 * Z.of_nat (S g)) by lia. lia.
Qed.
Lemma le_number_app a b : le_number (a ++ b) = le_number a + 256 ^ zlen a * le_number b.
Proof.
  induction a as [|x a IH]; cbn [app le_number foldr]; [change (zlen []) with 0; rewrite Z.pow_0_r; fold (le_number b); lia|]. fold (le_number (a ++ b)) (le_number a). rewrite IH, zlen_cons.
  pose proof (zlen_nonneg a). rewrite Z.pow_add_r, Z.pow_1_r by lia. ring.
Qed.
Lemma magnitude_last g n : 0 < n < 2 ^ (8 * Z.of_nat g) -> List.last (magnitude g n) 0 <> 0.
Proof.
  revert n. induction g as [|g IH]; intros n Hn; cbn [magnitude].
  { change (2 ^ (8 * Z.of_nat 0)) with 1 in Hn. lia. }
  rewrite (proj2 (Z.eqb_neq n 0)) by lia. set (q := Z.shiftr n 8). assert (0 <= q) as Hq0 by (apply Z.shiftr_nonneg; lia).
  destruct (Z.eq_dec q 0) as [E|E].
  - assert (magnitude g q = []) as ->. { rewrite E. by destruct g. } cbn [List.last]. unfold q in E. rewrite Z.shiftr_div_pow2 in E by lia.
    change 0xff with (Z.ones 8). rewrite Z.land_ones by lia. pose proof (Z.div_mod n (2 ^ 8) ltac:(lia)). lia.
  - assert (q < 2 ^ (8 * Z.of_nat g)).
    { unfold q. rewrite Z.shiftr_div_pow2 by lia. apply Z.div_lt_upper_bound; [lia|]. rewrite <- Z.pow_add_r by lia. replace (8 + 8 * Z.of_nat g) with (8 * Z.of_nat (S g)) by lia. lia. }
    specialize (IH q ltac:(lia)). destruct (magnitude g q) as [|x l]; [by cbn in IH|]. exact IH.
Qed.

Lemma magnitude_short k g n : 0 <= n < 2 ^ (8 * Z.of_nat k) -> (length (magnitude g n) <= k)%nat.
Proof.
  revert k n. induction g as [|g IH]; intros k n Hn; cbn [magnitude]; [cbn; lia|]. destruct (Z.eqb_spec n 0); [cbn; lia|].
  destruct k as [|k]; [change (2 ^ (8 * Z.of_nat 0)) with 1 in Hn; lia|]. cbn [length]. apply le_n_S, IH. rewrite Z.shiftr_div_pow2 by lia.
  split; [apply Z.div_pos; lia|]. apply Z.div_lt_upper_bound; [lia|]. rewrite <- Z.pow_add_r by lia. replace (8 + 8 * Z.of_nat k) with (8 * Z.of_nat (S k)) by lia. lia.
Qed.

(** Data of one to five bytes whose last byte is as in a minimal positive number. *)
Lemma read_push d rest : 1 <= zlen d <= 5 -> Z.land (List.last d 0) 0x80 = 0 ->
  (1 < zlen d -> List.last d 0 = 0 -> Z.land (List.last (removelast d) 0) 0x80 <> 0) -> le_number d < 2 ^ 53 ->
  readBip34Height (zlen d :: d ++ rest) = Some (le_number d, rest).
Proof.
  intros Hd Htop Hmin Hv. unfold readBip34Height. rewrite (proj2 (Z.eqb_neq (zlen d) 0)), (proj2 (Z.leb_gt 0x51 (zlen d))) by lia. cbn [andb].
  rewrite zlen_cons, zlen_app. pose proof (zlen_nonneg rest).
  rewrite (proj2 (Z.ltb_ge (zlen d) 1)), (proj2 (Z.ltb_ge 5 (zlen d))), (proj2 (Z.ltb_ge (1 + (zlen d + zlen rest)) (1 + zlen d))) by lia. cbn [orb].
  assert (Z.to_nat (zlen d) = length d) as -> by (unfold zlen; lia). rewrite take_app_length, drop_app_length, Htop. cbn [Z.eqb negb].
  destruct ((1 <? zlen d) && (List.last d 0 =? 0) && (Z.land (List.last (removelast d) 0) 0x80 =? 0)) eqn:E.
  - apply andb_true_iff in E as [E E3]. apply andb_true_iff in E as [E1 E2]. apply Z.ltb_lt in E1. apply Z.eqb_eq in E2, E3. exfalso. by apply Hmin.
  - by rewrite (proj2 (Z.ltb_ge _ _)) by lia.
Qed.

(** The push of a height is read back. *)
Lemma read_height h rest : 0 <= h < 2 ^ 31 -> readBip34Height (scriptNumPush h ++ rest) = Some (h, rest).
Proof.
  intros Hh. destruct (Z.eq_dec h 0) as [->|]; [done|]. rewrite scriptNumPush_serialize by lia. unfold CScriptNum_serialize.
  rewrite (proj2 (Z.eqb_neq h 0)), (proj2 (Z.ltb_ge h 0)), Z.abs_eq by lia.
  pose proof (magnitude_short 4 8 h ltac:(lia)) as Hlen. pose proof (magnitude_last 8 h ltac:(lia)) as Hlast.
  pose proof (le_number_magnitude 8 h ltac:(lia)) as Hval. set (m := magnitude 8 h) in *.
  assert (1 <= zlen m <= 4) as Hz by (unfold zlen; destruct m; [done|cbn in *; lia]).
  destruct (negb (Z.land (List.last m 0) 0x80 =? 0)) eqn:E; cbn [app].
  - apply negb_true_iff, Z.eqb_neq in E. rewrite (read_push (m ++ [0])).
    + rewrite le_number_app, Hval. change (le_number [0]) with 0. do 2 f_equal. lia.
    + rewrite zlen_app. change (zlen [0]) with 1. lia.
    + by rewrite List.last_last.
    + intros _ _. by rewrite removelast_last.
    + rewrite le_number_app, Hval. change (le_number [0]) with 0. lia.
  - apply negb_false_iff, Z.eqb_eq in E. rewrite (read_push m); [by rewrite Hval|lia|done|done|lia].
Qed.

(** The runs of a script: the tag of the pool is longer than what stands before it. *)
Lemma tag_run l best cur : Forall (fun b => 0x20 <= b <= 0x7e) l -> foldl tag_step (best, cur) l = (best, cur ++ l).
Proof.
  revert cur. induction l as [|b l IH]; intros cur Hl; [by rewrite app_nil_r|]. apply Forall_cons in Hl as [Hb Hl]. cbn [foldl].
  unfold tag_step at 2. rewrite (proj2 (Z.leb_le _ _)), (proj2 (Z.leb_le _ _)) by lia. cbn [andb]. rewrite IH by done. by rewrite <- app_assoc.
Qed.
Lemma tag_bound l n best cur : zlen best <= n -> zlen cur <= n ->
  zlen (foldl tag_step (best, cur) l).1 <= n + zlen l /\ zlen (foldl tag_step (best, cur) l).2 <= n + zlen l.
Proof.
  revert n best cur. induction l as [|b l IH]; intros n best cur Hb Hc; cbn [foldl]; [change (zlen []) with 0; cbn; lia|].
  rewrite zlen_cons, Z.add_assoc. unfold tag_step at 2 4. destruct (_ && _); apply IH; try lia; try (destruct (_ <? _); lia).
  - rewrite zlen_app. change (zlen [b]) with 1. lia.
  - change (zlen []) with 0. pose proof (zlen_nonneg best). lia.
Qed.
Lemma tag_found en tag : zlen en = 8 -> Forall (fun b => 0x20 <= b <= 0x7e) tag -> 9 <= zlen tag < 0x20 ->
  longestAsciiTag (en ++ zlen tag :: tag) = tag.
Proof.
  intros He Ht Hl. unfold longestAsciiTag. rewrite foldl_app. cbn [foldl].
  pose proof (tag_bound en 0 [] [] ltac:(done) ltac:(done)) as [Hb Hc].
  destruct (foldl tag_step ([], []) en) as [best cur]. cbn [fst snd] in Hb, Hc. unfold tag_step at 2. rewrite (proj2 (Z.leb_gt 0x20 (zlen tag))) by lia.
  cbn [andb]. rewrite tag_run by done. cbn [app].
  rewrite (proj2 (Z.ltb_lt _ (zlen tag))) by (destruct (_ <? _); lia). by rewrite (proj2 (Z.leb_le _ _)) by lia.
Qed.

(** Hexadecimal text is left alone by [trim], [toLowerCase] and the removal of spaces. *)
Definition hex_text (s : jsstr) : Prop := Forall (fun c => is_hex_char c = true) s.
Lemma bytesToHex_text b : bytes_ok b -> hex_text (bytesToHex b).
Proof.
  induction 1 as [|x b Hx Hb IH]; [constructor|]. rewrite bytesToHex_cons. destruct (byte_hex_two x Hx) as (c & d & -> & Hc & Hd & _).
  by repeat constructor.
Qed.
Lemma hex_char_plain c : is_hex_char c = true -> is_space c = false /\ lower_unit c = [c].
Proof.
  intros Hc. assert (48 <= c <= 57 \/ 97 <= c <= 102) as Hr by (unfold is_hex_char in Hc; lia). split.
  - unfold is_space. rewrite bool_decide_eq_false_2; [cbn [orb]; lia|]. rewrite !elem_of_cons, elem_of_nil. lia.
  - unfold lower_unit. repeat case_match; [lia..|done].
Qed.
Lemma trimStart_hex s : hex_text s -> trimStart s = s.
Proof. destruct 1 as [|c s Hc _]; [done|]. cbn. by rewrite (proj1 (hex_char_plain c Hc)). Qed.
Lemma clean_hex s : hex_text s -> toLowerCase (trim s) = s /\ filter (fun c => is_space c = false) s = s.
Proof.
  intros Hs. unfold trim. rewrite (trimStart_hex s) by done. rewrite trimStart_hex by (by apply Forall_reverse). rewrite reverse_involutive. split.
  - apply toLowerCase_fixed. eapply Forall_impl; [exact Hs|]. intros c Hc. by apply hex_char_plain.
  - induction Hs as [|c s Hc _ IH]; [done|]. rewrite filter_cons_True by (by apply hex_char_plain). by rewrite IH.
Qed.
Lemma hex_lower s : hex_text s -> s <> [] -> lower_hex s = true.
Proof.
  intros Hs Hne. unfold lower_hex. rewrite bool_decide_eq_false_2 by done. cbn [negb andb]. apply forallb_forall. intros c Hc.
  by apply (proj1 (List.Forall_forall _ s) Hs).
Qed.
Lemma integer_height h : 0 <= h < 2 ^ 53 -> isInteger (num_of_Z h) = true /\ nlt (num_of_Z h) n0 = false /\ neq (num_of_Z h) (num_of_Z h) = true.
Proof.
  intros Hh. pose proof (num_of_Z_exact h Hh) as Hf. unfold isInteger. rewrite (math_floor_fin _ _ Hf), Z.div_mul by lia.
  destruct Hf as [Hf Hv]. rewrite (neq_refl _ Hf). split; [done|]. split; [|done].
  destruct (num_of_Z h) as [s|s| |s m e]; cbn in Hf, Hv |- *; [|done..|]; by destruct Hv as [-> _].
Qed.

Lemma num_of_Z_differ a b : 0 <= a < 2 ^ 53 -> 0 <= b < 2 ^ 53 -> a <> b -> neq (num_of_Z a) (num_of_Z b) = false.
Proof.
  intros Ha Hb Hne. unfold neq, SFeqb. rewrite (compare_fin _ _ _ _ (num_of_Z_exact a Ha) (num_of_Z_exact b Hb)).
  destruct (Z.compare_spec (a * 2 ^ 1074) (b * 2 ^ 1074)) as [E| |]; [|done..]. apply Z.mul_cancel_r in E; [done|]. by apply Z.pow_nonzero.
Qed.
Lemma summary_of_script raw h' x : bytes_ok raw -> 0 <= h' < 2 ^ 53 ->
  (h ← readBip34Height raw; Some (h.1, longestAsciiTag h.2)) = Some x ->
  coinbaseScriptSummary (JStr (bytesToHex raw)) (JNum (num_of_Z h')) = Ok (if neq (num_of_Z x.1) (num_of_Z h') then Some x else None).
Proof.
  intros Hraw Hh' Hx. unfold coinbaseScriptSummary. cbn [Number mbind res_bind]. destruct (integer_height h' Hh') as (-> & -> & _). cbn [negb orb].
  pose proof (bytesToHex_text raw Hraw) as Htext. destruct (clean_hex _ Htext) as [-> _].
  assert (raw <> []) as Hne by (by intros ->). assert (1 <= zlen raw) by (unfold zlen; destruct raw; [done|cbn; lia]).
  pose proof (bytesToHex_zlen raw Hraw) as Hlen. rewrite hex_lower; [|done|intros E; rewrite E in Hlen; change (zlen []) with 0 in Hlen; lia].
  rewrite Hlen, (proj2 (Z.ltb_ge (2 * zlen raw) 2)) by lia. rewrite Z.mul_comm, Z.mod_mul by lia. cbn [Z.eqb negb orb].
  rewrite hex_pairs_bytesToHex by done. destruct (readBip34Height raw) as [[h rest]|]; [|done]. cbn in Hx. by injection Hx as <-.
Qed.
Lemma commitment_of_hash hash : bytes_ok hash -> zlen hash = 32 ->
  witnessCommitmentHash (JStr (js "aa21a9ed" ++ bytesToHex hash)) = Some (bytesToHex hash).
Proof.
  intros Hb Hl. unfold witnessCommitmentHash. pose proof (bytesToHex_text hash Hb) as Ht. pose proof (bytesToHex_zlen hash Hb) as Hlen.
  assert (hex_text (js "aa21a9ed" ++ bytesToHex hash)) as Htext by (apply Forall_app_2; [by repeat constructor|done]).
  destruct (clean_hex _ Htext) as [-> ->]. change (startsWith (js "aa21a9ed") (js "aa21a9ed" ++ bytesToHex hash)) with true. cbn [negb].
  change (drop 8 (js "aa21a9ed" ++ bytesToHex hash)) with (bytesToHex hash).
  assert (take 64 (bytesToHex hash) = bytesToHex hash) as -> by (apply take_ge; unfold zlen in *; lia).
  rewrite Hlen, Hl. cbn [Z.eqb Z.mul Pos.mul Pos.eqb andb]. rewrite hex_lower; [done..|]. intros E. rewrite E in Hlen. change (zlen []) with 0 in Hlen. lia.
Qed.

(** ** The coinbase of the pool is labelled *)
(** C33: The block page reads back what the pool wrote: for the script of a coinbase of the pool (the push
    of the height, the extranonce and the pushed pool tag, of nine to thirty-one readable characters) and
    the height of its block, [coinbaseScriptSummary] returns that height and that tag, whatever the
    extranonce; for every other integer height it returns nothing; and the hash behind the marker of a
    witness commitment is what [witnessCommitmentHash] returns. *)
Theorem coinbase_labelled h en tag hash :
  0 <= h < 2 ^ 31 -> bytes_ok en -> zlen en = 8 -> Forall (fun b => 0x20 <= b <= 0x7e) tag -> 9 <= zlen tag < 0x20 ->
  bytes_ok hash -> zlen hash = 32 ->
  let script := bytesToHex (scriptNumPush h ++ en ++ zlen tag :: tag) in
  coinbaseScriptSummary (JStr script) (JNum (num_of_Z h)) = Ok (Some (h, tag)) /\
  (forall h', 0 <= h' < 2 ^ 31 -> h' <> h -> coinbaseScriptSummary (JStr script) (JNum (num_of_Z h')) = Ok None) /\
  witnessCommitmentHash (JStr (js "aa21a9ed" ++ bytesToHex hash)) = Some (bytesToHex hash).
Proof.
  intros Hh He Hel Ht Htl Hb Hbl script.
  destruct (scriptNumPush_facts h Hh) as [Hp _]. set (raw := scriptNumPush h ++ en ++ zlen tag :: tag) in *.
  assert (bytes_ok raw) as Hraw.
  { apply Forall_app_2, Forall_app_2; [done..|]. constructor; [unfold is_byte; lia|]. eapply Forall_impl; [exact Ht|]. unfold is_byte. lia. }
  assert (forall h', 0 <= h' < 2 ^ 31 -> coinbaseScriptSummary (JStr script) (JNum (num_of_Z h')) =
    Ok (if neq (num_of_Z h) (num_of_Z h') then Some (h, tag) else None)) as Hsum.
  { intros h' Hh'. apply (summary_of_script raw h' (h, tag)); [done|lia|]. unfold raw. rewrite read_height by done. cbn [mbind option_bind fst snd]. by rewrite tag_found. }
  split; [|split].
  - rewrite Hsum by done. by rewrite (proj2 (proj2 (integer_height h ltac:(lia)))).
  - intros h' Hh' Hne. rewrite Hsum by done. by rewrite num_of_Z_differ by lia.
  - by apply commitment_of_hash.
Qed.

(** A block of height 500000 with a tag of eleven characters. *)
Lemma coinbase_labelled_witness :
  coinbaseScriptSummary (JStr (bytesToHex (scriptNumPush 500000 ++ [1; 2; 3; 4; 0x41; 0x42; 0x43; 0x44] ++ zlen (js "/b3chain.x/") :: js "/b3chain.x/"))) (JNum (num_of_Z 500000))
  = Ok (Some (500000, js "/b3chain.x/")).
Proof.
  refine (proj1 (coinbase_labelled 500000 [1; 2; 3; 4; 0x41; 0x42; 0x43; 0x44] (js "/b3chain.x/") (zeros 32) _ _ _ _ _ _ _)).
  - lia.
  - apply bytes_ok_check. reflexivity.
  - reflexivity.
  - apply (bool_decide_unpack _). reflexivity.
  - split; [discriminate|reflexivity].
  - apply bytes_ok_check. reflexivity.
  - reflexivity.
Defined.
