(* ===== verification/ExplorerDaily.v ===== *)
(** * The explorer: daily statistics
    ([explorer/overlay/app/services/b3-daily-aggregator.js])

    A backfill walks the heights of the chain once and adds the statistics of each block to
    the bucket of its day; a debounced timer writes the whole store to a file, which the next
    start reads.  The backfill is a coroutine: [phase] is the request it waits for, and a save,
    a poll of the tip or a restart can fall between any two of its steps.  Amounts are doubles
    added as the code adds them; heights, times and numbers of blocks, all integers far below
    2^53, are in [Z].  The times of blocks are unsigned 32-bit header fields. *)

From S2P Require Import Prelude JsString JsMap JsNumber ExplorerLabels.

(** ** Dates *)
Definition is_leap (y : Z) : bool := (y mod 4 =? 0) && (negb (y mod 100 =? 0) || (y mod 400 =? 0)).
Definition year_days (y : Z) : Z := if is_leap y then 366 else 365.
(** The year of a day counted from the first of January of [y], and the day in it. *)
Fixpoint year_from (fuel : nat) (y d : Z) : Z * Z :=
  match fuel with
  | O => (y, d)
  | S fuel => if d <? year_days y then (y, d) else year_from fuel (y + 1) (d - year_days y)
  end.
Definition month_lengths (y : Z) : list Z := [31; if is_leap y then 29 else 28; 31; 30; 31; 30; 31; 31; 30; 31; 30; 31].
Fixpoint month_from (lengths : list Z) (m d : Z) : Z * Z :=
  match lengths with
  | [] => (m, d)
  | n :: lengths => if d <? n then (m, d) else month_from lengths (m + 1) (d - n)
  end.
Definition decimal_field (width n : Z) : jsstr := padStart width 48 (to_radix 10 n).
(** The day of a time; a year has at least 365 days, so there is fuel for the years since 1970. *)
Definition date_of (t : Z) : Z * Z * Z :=
  let d := t / 86400 in
  let '(y, d) := year_from (S (Z.to_nat (d / 365))) 1970 d in
  let '(m, d) := month_from (month_lengths y) 1 d in
  (y, m, d + 1).
(** [toISOString] throws on a time that is no number. *)
Definition isoDay (unixSecs : option Z) : res jsstr :=
  match unixSecs with
  | None => Throw "Invalid time value"
  | Some t => let '(y, m, d) := date_of t in Ok (decimal_field 4 y ++ js "-" ++ decimal_field 2 m ++ js "-" ++ decimal_field 2 d)
  end.

(** ** The store *)
Record day_bucket := {
  blockCount : Z; txCount : jsnum; outCount : jsnum; inCount : jsnum; feeSat : jsnum; revenueSat : jsnum; outputSat : jsnum;
  totalSizeBytes : jsnum; totalWeight : jsnum; firstHeight : option Z; lastHeight : option Z; firstTime : option Z; lastTime : option Z;
  lastDifficulty : option jsnum; hashrate : option jsnum; day_miners : list (jsstr * Z); blockGapsSec : list Z }.
Definition emptyDayBucket : day_bucket := {|
  blockCount := 0; txCount := n0; outCount := n0; inCount := n0; feeSat := n0; revenueSat := n0; outputSat := n0; totalSizeBytes := n0;
  totalWeight := n0; firstHeight := None; lastHeight := None; firstTime := None; lastTime := None; lastDifficulty := None; hashrate := None;
  day_miners := []; blockGapsSec := [] |}.
Record miner_total := { mt_displayName : jsstr; mt_known : bool; mt_addr : option jsstr; totalBlocks : Z }.
Record store := { lastBlockHeight : Z; lastBlockTime : Z; lastDay : option jsstr; days : list (jsstr * day_bucket); miners : list (jsstr * miner_total) }.
Definition empty_store : store := {| lastBlockHeight := 0; lastBlockTime := 0; lastDay := None; days := []; miners := [] |}.
Definition set_days (d : list (jsstr * day_bucket)) (s : store) : store :=
  {| lastBlockHeight := lastBlockHeight s; lastBlockTime := lastBlockTime s; lastDay := lastDay s; days := d; miners := miners s |}.
Definition set_miners (m : list (jsstr * miner_total)) (s : store) : store :=
  {| lastBlockHeight := lastBlockHeight s; lastBlockTime := lastBlockTime s; lastDay := lastDay s; days := days s; miners := m |}.
Definition set_last (h t : Z) (d : jsstr) (s : store) : store :=
  {| lastBlockHeight := h; lastBlockTime := t; lastDay := Some d; days := days s; miners := miners s |}.

Definition ensureDay (day : jsstr) (s : store) : day_bucket := default emptyDayBucket (map_get day (days s)).
(** A write through a reference to the bucket of a day; the buckets are never replaced. *)
Definition update_day (day : jsstr) (f : day_bucket -> day_bucket) (s : store) : store := set_days (map_set day (f (ensureDay day s)) (days s)) s.

(** ** Ingesting a block *)
(** The answer of [getblockstats]; any of its fields can be missing. *)
Record block_stats := {
  bs_time : option Z; bs_txs : option jsnum; bs_outs : option jsnum; bs_ins : option jsnum; bs_totalfee : option jsnum; bs_subsidy : option jsnum;
  bs_total_out : option jsnum; bs_total_size : option jsnum; bs_total_weight : option jsnum }.
(** [x || 0]. *)
Definition or0 (x : option jsnum) : jsnum := match x with Some v => if nlt v n0 || nlt n0 v then v else n0 | None => n0 end.

(** [ingestHeight] up to its second await. *)
Definition add_stats (height time : Z) (stats : block_stats) (b : day_bucket) : day_bucket := {|
  blockCount := blockCount b + 1; txCount := nadd (txCount b) (or0 (bs_txs stats)); outCount := nadd (outCount b) (or0 (bs_outs stats));
  inCount := nadd (inCount b) (or0 (bs_ins stats)); feeSat := nadd (feeSat b) (or0 (bs_totalfee stats));
  revenueSat := nadd (revenueSat b) (nadd (or0 (bs_totalfee stats)) (or0 (bs_subsidy stats)));
  outputSat := nadd (outputSat b) (or0 (bs_total_out stats)); totalSizeBytes := nadd (totalSizeBytes b) (or0 (bs_total_size stats));
  totalWeight := nadd (totalWeight b) (or0 (bs_total_weight stats));
  firstHeight := match firstHeight b with None => Some height | h => h end;
  firstTime := match firstHeight b with None => Some time | Some _ => firstTime b end;
  lastHeight := Some height; lastTime := Some time; lastDifficulty := lastDifficulty b; hashrate := hashrate b; day_miners := day_miners b;
  blockGapsSec := match lastTime b with Some l => blockGapsSec b ++ [Z.max 0 (time - l)] | None => blockGapsSec b end |}.

(** [fetchCoinbaseMiner]: the block, or the error of the request; the coinbase may be missing. *)
Definition fetchCoinbaseMiner (block : res (option (list explorer_vout))) : miner_label :=
  match block with
  | Ok (Some vout) => identifyMiner (Some vout)
  | _ => unknown_miner
  end.
Definition minerKey (m : miner_label) : jsstr := match mn_name m with [] => js "Unknown" | n => n end.
Definition count_in (k : jsstr) (m : list (jsstr * Z)) : Z := default 0 (map_get k m).
Definition add_day_miner (k : jsstr) (b : day_bucket) : day_bucket := {|
  blockCount := blockCount b; txCount := txCount b; outCount := outCount b; inCount := inCount b; feeSat := feeSat b; revenueSat := revenueSat b;
  outputSat := outputSat b; totalSizeBytes := totalSizeBytes b; totalWeight := totalWeight b; firstHeight := firstHeight b; lastHeight := lastHeight b;
  firstTime := firstTime b; lastTime := lastTime b; lastDifficulty := lastDifficulty b; hashrate := hashrate b;
  day_miners := map_set k (count_in k (day_miners b) + 1) (day_miners b); blockGapsSec := blockGapsSec b |}.
Definition add_total (m : miner_label) (l : list (jsstr * miner_total)) : list (jsstr * miner_total) :=
  let k := minerKey m in
  let t := default {| mt_displayName := match mn_displayName m with Some (c :: d) => c :: d | _ => k end; mt_known := mn_known m;
    mt_addr := match mn_addr m with Some (c :: a) => Some (c :: a) | _ => None end; totalBlocks := 0 |} (map_get k l) in
  map_set k {| mt_displayName := mt_displayName t; mt_known := mt_known t; mt_addr := mt_addr t; totalBlocks := totalBlocks t + 1 |} l.
(** Its third part, after the block. *)
Definition add_miner (day : jsstr) (m : miner_label) (s : store) : store :=
  let s := update_day day (add_day_miner (minerKey m)) s in set_miners (add_total m (miners s)) s.
Definition sample_day (difficulty hps : option jsnum) (b : day_bucket) : day_bucket := {|
  blockCount := blockCount b; txCount := txCount b; outCount := outCount b; inCount := inCount b; feeSat := feeSat b; revenueSat := revenueSat b;
  outputSat := outputSat b; totalSizeBytes := totalSizeBytes b; totalWeight := totalWeight b; firstHeight := firstHeight b; lastHeight := lastHeight b;
  firstTime := firstTime b; lastTime := lastTime b; lastDifficulty := difficulty; hashrate := hps; day_miners := day_miners b; blockGapsSec := blockGapsSec b |}.

(** ** The backfill *)
Inductive phase :=
  | Idle
  | WaitInfo
  | WaitStats (h end_ tip : Z) (touched : list jsstr)
  | WaitMiner (h end_ tip : Z) (touched : list jsstr) (day : jsstr) (time : Z)
  | WaitHeader (h end_ tip : Z) (touched : list jsstr) (day : jsstr) (time : Z)
  | WaitHashrate (day : jsstr) (rest : list jsstr).
Record aggregator := { ag_store : store; ag_file : option store; writeTimer : bool; ag_phase : phase }.
Definition CHUNK_SIZE : Z := 200.

Definition scheduleSave (a : aggregator) : aggregator := {| ag_store := ag_store a; ag_file := ag_file a; writeTimer := true; ag_phase := ag_phase a |}.
Definition set_phase (p : phase) (a : aggregator) : aggregator := {| ag_store := ag_store a; ag_file := ag_file a; writeTimer := writeTimer a; ag_phase := p |}.
Definition set_store (s : store) (a : aggregator) : aggregator := {| ag_store := s; ag_file := ag_file a; writeTimer := writeTimer a; ag_phase := ag_phase a |}.

(** [sampleHashrateForDay] asks for the days that have a last height, in turn. *)
Fixpoint sample_days (l : list jsstr) (a : aggregator) : aggregator :=
  match l with
  | [] => set_phase Idle (scheduleSave a)
  | day :: rest =>
      match map_get day (days (ag_store a)) ≫= lastHeight with
      | Some (Zpos _ | Zneg _) => set_phase (WaitHashrate day rest) a
      | _ => sample_days rest a
      end
  end.
(** The head of the loop [while (height <= tip)]. *)
Definition next_chunk (height tip : Z) (touched : list jsstr) (a : aggregator) : aggregator :=
  if height <=? tip then set_phase (WaitStats height (Z.min tip (height + CHUNK_SIZE - 1)) tip touched) a
  else sample_days touched a.
(** The end of [ingestHeight] and of the body of the inner loop. *)
Definition ingested (h end_ tip : Z) (touched : list jsstr) (day : jsstr) (time : Z) (a : aggregator) : aggregator :=
  let a := set_store (set_last h time day (ag_store a)) a in
  let touched := set_add day touched in
  if h <? end_ then set_phase (WaitStats (h + 1) end_ tip touched) a else next_chunk (end_ + 1) tip touched (scheduleSave a).

(** [None] for statistics: no data, or [success] is false. *)
Inductive agg_event :=
  | PollTip
  | GotInfo (tip : res Z)
  | GotStats (stats : res (option block_stats))
  | GotBlock (block : res (option (list explorer_vout)))
  | GotHeader (difficulty : res (option jsnum))
  | GotHashrate (hps : res jsnum)
  | SaveTimer (written : bool)
  | Restarted (readable : bool).

Definition loadCache (readable : bool) (file : option store) : store := if readable then default empty_store file else empty_store.

Definition agg_step (a : aggregator) (e : agg_event) : aggregator :=
  match e, ag_phase a with
  | PollTip, Idle => set_phase WaitInfo a
  | GotInfo (Ok tip), WaitInfo => next_chunk (Z.max 1 (lastBlockHeight (ag_store a) + 1)) tip [] a
  | GotInfo (Throw _), WaitInfo => set_phase Idle a
  | GotStats (Ok (Some stats)), WaitStats h end_ tip touched =>
      match bs_time stats, isoDay (bs_time stats) with
      | Some time, Ok day => set_phase (WaitMiner h end_ tip touched day time) (set_store (update_day day (add_stats h time stats) (ag_store a)) a)
      | _, _ => set_phase Idle a
      end
  | GotStats _, WaitStats _ _ _ _ => set_phase Idle a
  | GotBlock block, WaitMiner h end_ tip touched day time =>
      set_phase (WaitHeader h end_ tip touched day time) (set_store (add_miner day (fetchCoinbaseMiner block) (ag_store a)) a)
  | GotHeader (Ok (Some difficulty)), WaitHeader h end_ tip touched day time =>
      ingested h end_ tip touched day time (set_store (update_day day (fun b => sample_day (Some difficulty) (hashrate b) b) (ag_store a)) a)
  | GotHeader _, WaitHeader h end_ tip touched day time => ingested h end_ tip touched day time a
  | GotHashrate (Ok hps), WaitHashrate day rest =>
      sample_days rest (set_store (update_day day (fun b => sample_day (lastDifficulty b) (Some hps) b) (ag_store a)) a)
  | GotHashrate (Throw _), WaitHashrate _ rest => sample_days rest a
  | SaveTimer written, _ =>
      if writeTimer a then
        {| ag_store := ag_store a; ag_file := if written then Some (ag_store a) else ag_file a; writeTimer := false; ag_phase := ag_phase a |}
      else a
  | Restarted readable, _ => {| ag_store := loadCache readable (ag_file a); ag_file := ag_file a; writeTimer := false; ag_phase := Idle |}
  | _, _ => a
  end.
Definition agg_run (es : list agg_event) (a : aggregator) : aggregator := foldl agg_step a es.
(** [init] with no file. *)
Definition init_aggregator : aggregator := {| ag_store := empty_store; ag_file := None; writeTimer := false; ag_phase := Idle |}.

(** ** Reading the store *)
(** [a < b] on strings, by code units. *)
Fixpoint str_lt (a b : jsstr) : bool :=
  match a, b with
  | _, [] => false
  | [], _ :: _ => true
  | x :: a, y :: b => (x <? y) || ((x =? y) && str_lt a b)
  end.
Fixpoint insert_str (x : jsstr) (l : list jsstr) : list jsstr :=
  match l with
  | [] => [x]
  | y :: l' => if str_lt y x then y :: insert_str x l' else x :: l
  end.
Definition sort_strings (l : list jsstr) : list jsstr := foldr insert_str [] l.
Definition getOrderedDays (s : store) : list jsstr := sort_strings (days s).*1.

Definition SATS_PER_COIN : jsnum := num_of_Z 100000000.
Definition nz : Z -> jsnum := num_of_Z.
(** The running totals of the loop. *)
Record cumulative := { cumulativeSubsidy : jsnum; cumulativeTxs : jsnum; cumulativeSize : jsnum; cumulativeOuts : jsnum }.
Definition no_totals : cumulative := {| cumulativeSubsidy := n0; cumulativeTxs := n0; cumulativeSize := n0; cumulativeOuts := n0 |}.
Definition add_totals (b : day_bucket) (c : cumulative) : cumulative := {|
  cumulativeSubsidy := nadd (cumulativeSubsidy c) (nsub (revenueSat b) (feeSat b)); cumulativeTxs := nadd (cumulativeTxs c) (txCount b);
  cumulativeSize := nadd (cumulativeSize c) (totalSizeBytes b); cumulativeOuts := nadd (cumulativeOuts c) (outCount b) |}.

Definition per_block (x : jsnum) (b : day_bucket) : jsnum := if 0 <? blockCount b then ndiv x (nz (blockCount b)) else n0.
Definition avgGapSec (b : day_bucket) : option jsnum :=
  match blockGapsSec b with
  | [] => None
  | gaps => Some (ndiv (nz (foldl Z.add 0 gaps)) (nz (zlen gaps)))
  end.
Definition medianGapSec (b : day_bucket) : option Z := sort_by id (blockGapsSec b) !! Z.to_nat (zlen (blockGapsSec b) / 2).
Definition truthy_num (x : option jsnum) : bool := match x with Some v => nlt v n0 || nlt n0 v | None => false end.
Definition over (x y : jsnum) (q : jsnum) : jsnum := if nlt n0 x then q else y.

(** The cases of the switch: the value of a day, if it has a point. *)
Definition chart_cases : list (string * (day_bucket -> cumulative -> option jsnum)) := [
  ("hash-rate"%string, fun b _ => hashrate b);
  ("difficulty"%string, fun b _ => lastDifficulty b);
  ("miners-revenue"%string, fun b _ => Some (ndiv (revenueSat b) SATS_PER_COIN));
  ("transaction-fees"%string, fun b _ => Some (ndiv (feeSat b) SATS_PER_COIN));
  ("transaction-fees-usd"%string, fun b _ => Some (ndiv (feeSat b) SATS_PER_COIN));
  ("fees-usd-per-transaction"%string, fun b _ => Some (over (txCount b) n0 (ndiv (ndiv (feeSat b) SATS_PER_COIN) (txCount b))));
  ("cost-per-transaction-percent"%string, fun b _ => Some (over (outputSat b) n0 (nmul (ndiv (revenueSat b) (outputSat b)) (nz 100))));
  ("cost-per-transaction"%string, fun b _ => Some (over (txCount b) n0 (ndiv (ndiv (revenueSat b) SATS_PER_COIN) (txCount b))));
  ("total-bitcoins"%string, fun _ c => Some (ndiv (cumulativeSubsidy c) SATS_PER_COIN));
  ("blocks-size"%string, fun _ c => Some (ndiv (cumulativeSize c) (nz 1000000)));
  ("avg-block-size"%string, fun b _ => Some (if 0 <? blockCount b then ndiv (per_block (totalSizeBytes b) b) (nz 1000000) else n0));
  ("n-transactions-per-block"%string, fun b _ => Some (per_block (txCount b) b));
  ("n-payments-per-block"%string, fun b _ => Some (per_block (outCount b) b));
  ("n-transactions-total"%string, fun _ c => Some (cumulativeTxs c));
  ("median-confirmation-time"%string, fun b _ => (fun m => ndiv (nz m) (nz 60)) <$> medianGapSec b);
  ("avg-confirmation-time"%string, fun b _ => (fun a => ndiv a (nz 60)) <$> avgGapSec b);
  ("n-transactions"%string, fun b _ => Some (txCount b));
  ("n-payments"%string, fun b _ => Some (outCount b));
  ("transactions-per-second"%string, fun b _ => Some (if (0 <? blockCount b) && truthy_num (avgGapSec b) then ndiv (txCount b) (nz 86400) else n0));
  ("output-volume"%string, fun b _ => Some (ndiv (outputSat b) SATS_PER_COIN));
  ("n-unique-addresses"%string, fun b _ => Some (outCount b));
  ("n-transactions-excluding-popular"%string, fun b _ => Some (txCount b));
  ("estimated-transaction-volume"%string, fun b _ => Some (ndiv (nmul (outputSat b) (literal 1 2)) SATS_PER_COIN));
  ("estimated-transaction-volume-usd"%string, fun b _ => Some (ndiv (nmul (outputSat b) (literal 1 2)) SATS_PER_COIN));
  ("utxo-count"%string, fun _ c => Some (cumulativeOuts c))].
Definition chart_case (chartId : jsstr) : option (day_bucket -> cumulative -> option jsnum) :=
  snd <$> List.find (fun x => bool_decide (js (fst x) = chartId)) chart_cases.

(** [b.firstTime || 0]. *)
Definition day_time (b : day_bucket) : Z := default 0 (firstTime b).
Fixpoint series_from (value : day_bucket -> cumulative -> option jsnum) (ordered : list jsstr) (c : cumulative) (s : store) : list (Z * jsnum) :=
  match ordered with
  | [] => []
  | day :: rest =>
      let b := ensureDay day s in
      let c := add_totals b c in
      match value b c with
      | Some y => (day_time b, y) :: series_from value rest c s
      | None => series_from value rest c s
      end
  end.
(** [None] is [null]: the [default] case returns on the first day. *)
Definition getSeries (chartId : jsstr) (s : store) : option (list (Z * jsnum)) :=
  match chart_case chartId, getOrderedDays s with
  | _, [] => Some []
  | Some value, ordered => Some (series_from value ordered no_totals s)
  | None, _ => None
  end.

Record pool_series := { ps_name : jsstr; ps_displayName : jsstr; ps_known : bool; ps_data : list (Z * Z) }.
Definition getPoolsTimeSeries (s : store) : list jsstr * list pool_series :=
  let days := getOrderedDays s in
  let minerNames := fst <$> sort_by (fun x => - totalBlocks (snd x)) (miners s) in
  (days, (fun name =>
    let t := map_get name (miners s) in
    {| ps_name := name; ps_displayName := match mt_displayName <$> t with Some (c :: d) => c :: d | _ => name end; ps_known := default false (mt_known <$> t);
       ps_data := (fun day => let b := ensureDay day s in (day_time b, count_in name (day_miners b))) <$> days |}) <$> minerNames).

Record pool_share := { sh_name : jsstr; sh_displayName : jsstr; sh_known : bool; sh_blocks : Z }.
(** One block of the last 144; a failed request is skipped. *)
Definition count_block (counts : list (jsstr * pool_share)) (block : res (option (list explorer_vout))) : list (jsstr * pool_share) :=
  match block with
  | Throw _ => counts
  | Ok vout =>
      let m := identifyMiner vout in
      let key := minerKey m in
      let c := default {| sh_name := key; sh_displayName := match mn_displayName m with Some (c :: d) => c :: d | _ => key end; sh_known := mn_known m; sh_blocks := 0 |} (map_get key counts) in
      map_set key {| sh_name := sh_name c; sh_displayName := sh_displayName c; sh_known := sh_known c; sh_blocks := sh_blocks c + 1 |} counts
  end.
(** [getPoolsDoughnut] after the height of the tip: [block] is the answer for a height. *)
Definition getPoolsDoughnut (tip : Z) (block : Z -> res (option (list explorer_vout))) : Z * Z * list pool_share :=
  let start := Z.max 1 (tip - 143) in
  let heights := reverse (seqZ start (tip - start + 1)) in
  (start, tip, sort_by (fun c => - sh_blocks c) (snd <$> foldl count_block [] (block <$> heights))).

Definition getStatusSummary (s : store) : Z * Z * Z * Z * option day_bucket :=
  let ordered := getOrderedDays s in
  (lastBlockHeight s, lastBlockTime s, zlen ordered, zlen (miners s), last ordered ≫= fun d => map_get d (days s)).
