(* ===== verification/ExplorerDailyProofs.v ===== *)
(** * The explorer: the days and their statistics

    The strings of days are ordered as the days are, so a series is in ascending order; and the
    buckets of the days are the statistics of the blocks of the chain, each counted once, as long
    as no save falls between the two parts of the ingestion of a block. *)

From Stdlib Require Import Sorting.Sorted.
From S2P Require Import Prelude JsString JsMap JsNumber ExplorerLabels ExplorerDaily.

(** ** The order of strings *)
Lemma str_lt_trans a b c : str_lt a b = true -> str_lt b c = true -> str_lt a c = true.
Proof.
  revert b c. induction a as [|x a IH]; intros [|y b] [|z c] H1 H2; try done. cbn [str_lt] in *.
  apply orb_true_iff in H1 as [H1|H1], H2 as [H2|H2]; [apply orb_true_iff; left; lia..|]. apply andb_true_iff in H1 as [E1 H1], H2 as [E2 H2].
  apply orb_true_iff. right. apply andb_true_iff. split; [lia|]. by eapply IH.
Qed.
Lemma str_lt_irrefl a : str_lt a a = false.
Proof. induction a as [|x a IH]; [done|]. cbn. rewrite IH. lia. Qed.
Lemma str_lt_total a b : str_lt a b = false -> a <> b -> str_lt b a = true.
Proof.
  revert b. induction a as [|x a IH]; intros [|y b] H Hne; try done. cbn [str_lt] in *. apply orb_false_iff in H as [H1 H2].
  apply orb_true_iff. destruct (Z.eqb_spec x y) as [->|]; [right|left; lia]. rewrite Z.eqb_refl. cbn [andb] in *. apply IH; congruence.
Qed.
Lemma str_lt_app a b x y : length a = length b -> str_lt a b = true -> str_lt (a ++ x) (b ++ y) = true.
Proof.
  revert b. induction a as [|c a IH]; intros [|d b] Hl H; try done. cbn [app str_lt] in *. injection Hl as Hl.
  apply orb_true_iff in H as [H|H]; apply orb_true_iff; [by left|right]. apply andb_true_iff in H as [E H]. apply andb_true_iff. split; [done|]. by apply IH.
Qed.
Lemma str_lt_same a x y : str_lt x y = true -> str_lt (a ++ x) (a ++ y) = true.
Proof. intros H. induction a as [|c a IH]; [done|]. cbn [app str_lt]. rewrite IH, Z.eqb_refl. apply orb_true_r. Qed.

(** ** The order of dates *)
Lemma year_days_range y : 365 <= year_days y <= 366.
Proof. unfold year_days. destruct (is_leap y); lia. Qed.
Lemma year_from_range fuel y d : 0 <= d < 365 * Z.of_nat fuel -> let '(y', r) := year_from fuel y d in y <= y' <= y + Z.of_nat fuel /\ 0 <= r < year_days y'.
Proof.
  revert y d. induction fuel as [|fuel IH]; intros y d Hd; cbn [year_from]; [lia|]. pose proof (year_days_range y). destruct (Z.ltb_spec d (year_days y)); [lia|].
  specialize (IH (y + 1) (d - year_days y) ltac:(lia)). destruct (year_from fuel (y + 1) (d - year_days y)). lia.
Qed.
Lemma year_from_mono fuel fuel' y d d' : 0 <= d <= d' -> d < 365 * Z.of_nat fuel -> d' < 365 * Z.of_nat fuel' ->
  let '(y1, r1) := year_from fuel y d in let '(y2, r2) := year_from fuel' y d' in y1 < y2 \/ (y1 = y2 /\ r1 <= r2).
Proof.
  revert fuel' y d d'. induction fuel as [|fuel IH]; intros [|fuel'] y d d' Hd Hf Hf'; [lia..|]. pose proof (year_days_range y).
  cbn [year_from]. destruct (Z.ltb_spec d (year_days y)), (Z.ltb_spec d' (year_days y)); [lia| |lia|].
  - pose proof (year_from_range fuel' (y + 1) (d' - year_days y) ltac:(lia)). destruct (year_from fuel' (y + 1) (d' - year_days y)). lia.
  - apply IH; lia.
Qed.
Lemma month_from_range l m d : Forall (fun n => n <= 31) l -> 0 <= d < foldr Z.add 0 l ->
  let '(m', r) := month_from l m d in m <= m' < m + zlen l /\ 0 <= r < 31.
Proof.
  intros Hl. revert m d. induction Hl as [|n l Hn Hl IH]; intros m d Hd; cbn [month_from foldr] in *; [lia|]. rewrite zlen_cons. pose proof (zlen_nonneg l).
  destruct (Z.ltb_spec d n); [lia|]. specialize (IH (m + 1) (d - n) ltac:(lia)). destruct (month_from l (m + 1) (d - n)). lia.
Qed.
Lemma month_from_ge l m d : m <= (month_from l m d).1.
Proof. revert m d. induction l as [|n l IH]; intros m d; cbn [month_from]; [done|]. destruct (d <? n); [done|]. specialize (IH (m + 1) (d - n)). lia. Qed.
Lemma month_from_mono l m d d' : d <= d' -> let '(m1, r1) := month_from l m d in let '(m2, r2) := month_from l m d' in m1 < m2 \/ (m1 = m2 /\ r1 <= r2).
Proof.
  revert m d d'. induction l as [|n l IH]; intros m d d' Hd; cbn [month_from]; [lia|]. destruct (Z.ltb_spec d n), (Z.ltb_spec d' n); [lia| |lia|].
  - pose proof (month_from_ge l (m + 1) (d' - n)). destruct (month_from l (m + 1) (d' - n)). cbn in *. lia.
  - apply IH. lia.
Qed.
Lemma month_lengths_sum y : Forall (fun n => n <= 31) (month_lengths y) /\ foldr Z.add 0 (month_lengths y) = year_days y /\ zlen (month_lengths y) = 12.
Proof. unfold month_lengths, year_days. destruct (is_leap y); (split; [repeat constructor; lia|done]). Qed.

(** Numbers of a fixed width. *)
Definition field_steps (width : Z) (lo : Z) (n : nat) : bool :=
  forallb (fun i => str_lt (decimal_field width i) (decimal_field width (i + 1)) && (length (decimal_field width i) =? length (decimal_field width (i + 1)))%nat) (seqZ lo (Z.of_nat n)).
Lemma field_mono width lo n a k : field_steps width lo n = true -> lo <= a -> a + Z.of_nat (S k) <= lo + Z.of_nat n ->
  str_lt (decimal_field width a) (decimal_field width (a + Z.of_nat (S k))) = true /\
  length (decimal_field width a) = length (decimal_field width (a + Z.of_nat (S k))).
Proof.
  intros Hs Ha Hb. assert (forall i, lo <= i < lo + Z.of_nat n ->
    str_lt (decimal_field width i) (decimal_field width (i + 1)) = true /\ length (decimal_field width i) = length (decimal_field width (i + 1))) as Hi.
  { intros i Hi. unfold field_steps in Hs. rewrite forallb_forall in Hs. specialize (Hs i).
    apply andb_true_iff in Hs as [H1 H2]; [split; [done|by apply Nat.eqb_eq]|]. apply list_elem_of_In, elem_of_seqZ. lia. }
  induction k as [|k IH]; [apply Hi; lia|]. destruct (IH ltac:(lia)) as [H1 L1]. destruct (Hi (a + Z.of_nat (S k)) ltac:(lia)) as [H2 L2].
  replace (a + Z.of_nat (S (S k))) with (a + Z.of_nat (S k) + 1) by lia. split; [by eapply str_lt_trans|congruence].
Qed.
Lemma field_lt width lo n a b : field_steps width lo n = true -> lo <= a < b -> b <= lo + Z.of_nat n ->
  str_lt (decimal_field width a) (decimal_field width b) = true /\ length (decimal_field width a) = length (decimal_field width b).
Proof.
  intros Hs Ha Hb. pose proof (field_mono width lo n a (Z.to_nat (b - a - 1)) Hs ltac:(lia) ltac:(lia)) as H.
  by replace (a + Z.of_nat (S (Z.to_nat (b - a - 1)))) with b in H by lia.
Qed.
Lemma years_step : field_steps 4 1970 200 = true.
Proof. vm_compute. reflexivity. Qed.
Lemma fields_step : field_steps 2 1 31 = true.
Proof. vm_compute. reflexivity. Qed.

Lemma date_range t : uint 32 t -> let '(y, m, d) := date_of t in 1970 <= y <= 2170 /\ 1 <= m <= 12 /\ 1 <= d <= 31.
Proof.
  intros Ht. unfold uint in Ht. unfold date_of. set (d := t / 86400). assert (0 <= d < 2 ^ 16) as Hd by (unfold d; split; [apply Z.div_pos; lia|apply Z.div_lt_upper_bound; lia]).
  pose proof (Z.div_mod d 365 ltac:(lia)). pose proof (Z.mod_pos_bound d 365 ltac:(lia)). assert (0 <= d / 365) by (apply Z.div_pos; lia).
  pose proof (year_from_range (S (Z.to_nat (d / 365))) 1970 d ltac:(lia)) as Hy. destruct (year_from _ 1970 d) as [y r].
  destruct (month_lengths_sum y) as (H31 & Hsum & Hlen). pose proof (month_from_range (month_lengths y) 1 r H31 ltac:(lia)) as Hm.
  destruct (month_from _ 1 r) as [m q]. lia.
Qed.
Lemma date_mono t t' : uint 32 t -> uint 32 t' -> t <= t' ->
  let '(y1, m1, d1) := date_of t in let '(y2, m2, d2) := date_of t' in
  y1 < y2 \/ (y1 = y2 /\ (m1 < m2 \/ (m1 = m2 /\ d1 <= d2))).
Proof.
  intros Ht Ht' Hle. unfold uint in Ht, Ht'. unfold date_of. assert (0 <= t / 86400 <= t' / 86400) as Hd by (split; [apply Z.div_pos; lia|apply Z.div_le_mono; lia]).
  set (d := t / 86400) in *. set (d' := t' / 86400) in *.
  assert (forall x, 0 <= x -> x < 365 * Z.of_nat (S (Z.to_nat (x / 365)))) as Hf.
  { intros x Hx. pose proof (Z.div_mod x 365 ltac:(lia)). pose proof (Z.mod_pos_bound x 365 ltac:(lia)). assert (0 <= x / 365) by (apply Z.div_pos; lia). lia. }
  pose proof (year_from_mono (S (Z.to_nat (d / 365))) (S (Z.to_nat (d' / 365))) 1970 d d' Hd (Hf d ltac:(lia)) (Hf d' ltac:(lia))) as Hy.
  destruct (year_from _ 1970 d) as [y1 r1], (year_from _ 1970 d') as [y2 r2]. destruct Hy as [Hy|[<- Hr]].
  - destruct (month_from _ 1 r1), (month_from _ 1 r2). lia.
  - pose proof (month_from_mono (month_lengths y1) 1 r1 r2 Hr) as Hm. destruct (month_from _ 1 r1), (month_from _ 1 r2). lia.
Qed.

(** Days written as strings are in the order of the times. *)
Lemma isoDay_mono t t' d d' : uint 32 t -> uint 32 t' -> t <= t' -> isoDay (Some t) = Ok d -> isoDay (Some t') = Ok d' -> d = d' \/ str_lt d d' = true.
Proof.
  intros Ht Ht' Hle. cbn [isoDay]. pose proof (date_range t Ht) as R1. pose proof (date_range t' Ht') as R2. pose proof (date_mono t t' Ht Ht' Hle) as Hm.
  destruct (date_of t) as [[y1 m1] d1], (date_of t') as [[y2 m2] d2]. intros [= <-] [= <-].
  destruct Hm as [Hy|[-> [Hm|[-> Hd]]]].
  - right. destruct (field_lt 4 1970 200 y1 y2 years_step ltac:(lia) ltac:(lia)) as [H1 H2]. by apply str_lt_app.
  - right. apply (str_lt_same (decimal_field 4 y2)), (str_lt_same (js "-")). destruct (field_lt 2 1 31 m1 m2 fields_step ltac:(lia) ltac:(lia)) as [H1 H2]. by apply str_lt_app.
  - destruct (Z.eq_dec d1 d2) as [->|]; [by left|]. right. apply (str_lt_same (decimal_field 4 y2)), (str_lt_same (js "-")), (str_lt_same (decimal_field 2 m2)), (str_lt_same (js "-")). apply (field_lt 2 1 31 d1 d2 fields_step); lia.
Qed.
Lemma isoDay_lt t t' d d' : uint 32 t -> uint 32 t' -> isoDay (Some t) = Ok d -> isoDay (Some t') = Ok d' -> str_lt d d' = true -> t < t'.
Proof.
  intros Ht Ht' Hd Hd' Hlt. destruct (Z.lt_ge_cases t t') as [|Hge]; [done|]. exfalso.
  destruct (isoDay_mono t' t d' d Ht' Ht Hge Hd' Hd) as [->|H]; [by rewrite str_lt_irrefl in Hlt|].
  pose proof (str_lt_trans d d' d Hlt H) as E. by rewrite str_lt_irrefl in E.
Qed.

(** ** Sorting *)
Definition str_before (a b : jsstr) : Prop := str_lt a b = true.
Lemma insert_str_elem x l y : y ∈ insert_str x l <-> y = x \/ y ∈ l.
Proof.
  induction l as [|z l IH]; cbn [insert_str]; [by rewrite list_elem_of_singleton, elem_of_nil; tauto|].
  destruct (str_lt z x); rewrite !elem_of_cons; [rewrite IH|]; tauto.
Qed.
Lemma sort_strings_elem l y : y ∈ sort_strings l <-> y ∈ l.
Proof. induction l as [|x l IH]; [done|]. cbn [sort_strings foldr]. fold (sort_strings l). by rewrite insert_str_elem, IH, elem_of_cons. Qed.
Lemma insert_str_sorted x l : x ∉ l -> StronglySorted str_before l -> StronglySorted str_before (insert_str x l).
Proof.
  intros Hx Hs. induction Hs as [|y l Hs IH Hall]; cbn [insert_str]; [by repeat constructor|]. apply not_elem_of_cons in Hx as [Hne Hx].
  destruct (str_lt y x) eqn:E.
  - constructor; [by apply IH|]. apply Forall_forall. intros z Hz. apply insert_str_elem in Hz as [->|Hz]; [done|]. by apply (Forall_forall _ l).
  - assert (str_before x y) as Hxy by (apply str_lt_total; [done|congruence]). constructor; [by constructor|]. constructor; [done|].
    eapply Forall_impl; [exact Hall|]. intros z Hz. by eapply str_lt_trans.
Qed.
Lemma sort_strings_sorted l : NoDup l -> StronglySorted str_before (sort_strings l).
Proof.
  induction 1 as [|x l Hx _ IH]; [constructor|]. cbn [sort_strings foldr]. apply insert_str_sorted; [|done]. by rewrite sort_strings_elem.
Qed.

(** ** Every bucket is dated by its first block *)
Definition day_dated (day : jsstr) (b : day_bucket) : Prop := exists t, firstTime b = Some t /\ uint 32 t /\ isoDay (Some t) = Ok day /\ firstHeight b <> None.
Record dated (s : store) : Prop := { dated_keys : NoDup (days s).*1; dated_days : forall day b, (day, b) ∈ days s -> day_dated day b }.
Definition phase_dated (p : phase) (s : store) : Prop :=
  match p with WaitMiner _ _ _ _ day _ | WaitHeader _ _ _ _ day _ | WaitHashrate day _ => is_Some (map_get day (days s)) | _ => True end.
Definition agg_dated (a : aggregator) : Prop := dated (ag_store a) /\ from_option dated True (ag_file a) /\ phase_dated (ag_phase a) (ag_store a).
(** Headers carry their time in 32 bits. *)
Definition timed (e : agg_event) : Prop := match e with GotStats (Ok (Some stats)) => from_option (uint 32) True (bs_time stats) | _ => True end.

Lemma dated_empty : dated empty_store.
Proof. constructor; [constructor|]. by intros day b ?%elem_of_nil. Qed.
Lemma update_day_dated day f s : dated s -> day_dated day (f (ensureDay day s)) -> dated (update_day day f s).
Proof.
  intros [Hk Hd] Hf. constructor; cbn; [by apply map_set_nodup|]. intros day' b Hb. apply map_set_elem in Hb as [[= -> ->]|Hb]; [done|]. by apply Hd.
Qed.
Lemma ensureDay_dated day s : dated s -> is_Some (map_get day (days s)) -> day_dated day (ensureDay day s).
Proof. intros [_ Hd] [b Hb]. unfold ensureDay. rewrite Hb. by apply Hd, map_get_elem. Qed.
Lemma add_stats_dated h t st s day : dated s -> uint 32 t -> isoDay (Some t) = Ok day -> day_dated day (add_stats h t st (ensureDay day s)).
Proof.
  intros Hs Ht Hday. unfold day_dated. cbn. destruct (firstHeight (ensureDay day s)) eqn:E; [|by exists t].
  destruct (map_get day (days s)) eqn:Eg; [|unfold ensureDay in E; by rewrite Eg in E].
  destruct (ensureDay_dated day s Hs ltac:(eauto)) as (t' & ? & ? & ? & ?). exists t'. by rewrite E in *.
Qed.
Lemma update_day_has day f s : is_Some (map_get day (days (update_day day f s))).
Proof. cbn. rewrite map_set_get. eauto. Qed.

(** The phases between two blocks. *)
Definition waits_next (h : Z) (s : store) (p : phase) : Prop :=
  match p with
  | WaitStats h' end' _ _ => h' = h /\ h <= end'
  | WaitHashrate day _ => is_Some (map_get day (days s))
  | Idle => True
  | _ => False
  end.
Lemma sample_days_frame l h a : let a' := sample_days l a in
  ag_store a' = ag_store a /\ ag_file a' = ag_file a /\ waits_next h (ag_store a) (ag_phase a').
Proof.
  induction l as [|day l IH]; [done|]. cbn [sample_days]. destruct (map_get day (days (ag_store a))) eqn:E; cbn [mbind option_bind]; [|done].
  repeat case_match; try done. all: split; [done|]; split; [done|]; cbn; eauto.
Qed.
Lemma next_chunk_frame h tip touched a : let a' := next_chunk h tip touched a in
  ag_store a' = ag_store a /\ ag_file a' = ag_file a /\ waits_next h (ag_store a) (ag_phase a').
Proof.
  cbv zeta. unfold next_chunk, CHUNK_SIZE. destruct (Z.leb_spec h tip); [cbn; repeat split; lia|]. apply sample_days_frame.
Qed.
Lemma ingested_frame h end_ tip touched day t a : let a' := ingested h end_ tip touched day t a in
  ag_store a' = set_last h t day (ag_store a) /\ ag_file a' = ag_file a /\ waits_next (if h <? end_ then h + 1 else end_ + 1) (ag_store a) (ag_phase a').
Proof.
  cbv zeta. unfold ingested. destruct (Z.ltb_spec h end_); [cbn; repeat split; lia|].
  exact (next_chunk_frame (end_ + 1) tip (set_add day touched) (scheduleSave (set_store (set_last h t day (ag_store a)) a))).
Qed.

Lemma dated_frame s s' : days s' = days s -> dated s -> dated s'.
Proof. intros E [H1 H2]. constructor; by rewrite E. Qed.
Lemma sample_dated day d h s : dated s -> is_Some (map_get day (days s)) -> dated (update_day day (fun b => sample_day (d b) (h b) b) s).
Proof. intros Hs Hi. apply update_day_dated; [done|]. by destruct (ensureDay_dated day s Hs Hi) as (t & ?); exists t. Qed.
Lemma add_miner_dated day m s : dated s -> is_Some (map_get day (days s)) -> dated (add_miner day m s).
Proof.
  intros Hs Hi. eapply (dated_frame (update_day day (add_day_miner (minerKey m)) s)); [done|]. apply update_day_dated; [done|].
  by destruct (ensureDay_dated day s Hs Hi) as (t & ?); exists t.
Qed.
(** A step between blocks keeps the file and the days. *)
Lemma waits_dated h s a' : dated s -> days (ag_store a') = days s -> from_option dated True (ag_file a') -> waits_next h s (ag_phase a') -> agg_dated a'.
Proof.
  intros Hs E Hf Hw. split; [by eapply dated_frame|]. split; [done|]. unfold phase_dated. rewrite E. destruct (ag_phase a'); done.
Qed.
Lemma ingested_dated h end_ tip touched day t a : dated (ag_store a) -> from_option dated True (ag_file a) -> agg_dated (ingested h end_ tip touched day t a).
Proof. intros Hs Hf. destruct (ingested_frame h end_ tip touched day t a) as (E1 & E2 & E3). eapply waits_dated; [exact Hs|by rewrite E1|by rewrite E2|exact E3]. Qed.
Lemma sample_days_dated l a : dated (ag_store a) -> from_option dated True (ag_file a) -> agg_dated (sample_days l a).
Proof. intros Hs Hf. destruct (sample_days_frame l 0 a) as (E1 & E2 & E3). eapply waits_dated; [exact Hs|by rewrite E1|by rewrite E2|exact E3]. Qed.

(** The phases in which an event is not expected leave the state alone. *)
Ltac by_phase a := destruct (ag_phase a) eqn:E; try by (split; [|split; rewrite ?E]).
Lemma agg_step_dated a e : agg_dated a -> timed e -> agg_dated (agg_step a e).
Proof.
  intros (Hs & Hf & Hp) Ht. destruct e as [|[tip|]|[[stats|]|]|block|[[d|]|]|[hps|]|written|readable]; cbn [agg_step].
  - by_phase a.
  - by_phase a.
    destruct (next_chunk_frame (Z.max 1 (lastBlockHeight (ag_store a) + 1)) tip [] a) as (E1 & E2 & E3). eapply waits_dated; [exact Hs|by rewrite E1|by rewrite E2|exact E3].
  - by_phase a.
  - by_phase a.
    destruct (bs_time stats) as [t|] eqn:Et; [|done]. cbn [timed] in Ht. rewrite Et in Ht. destruct (isoDay (Some t)) as [day|] eqn:Ed; [|done].
    split; [|split; [done|apply update_day_has]]. apply update_day_dated; [done|]. by apply add_stats_dated.
  - by_phase a.
  - by_phase a.
  - by_phase a. split; [by apply add_miner_dated|]. split; [done|apply update_day_has].
  - by_phase a. apply ingested_dated; [|done]. by apply sample_dated.
  - by_phase a. by apply ingested_dated.
  - by_phase a. by apply ingested_dated.
  - by_phase a. apply sample_days_dated; [|done]. by apply sample_dated.
  - by_phase a. by apply sample_days_dated.
  - destruct (writeTimer a); [|done]. split; [done|]. split; [by destruct written|done].
  - split; [|done]. destruct readable; [|apply dated_empty]. cbn. destruct (ag_file a); [done|apply dated_empty].
Qed.
Lemma agg_run_dated es a : agg_dated a -> Forall timed es -> agg_dated (agg_run es a).
Proof. intros Ha He. revert a Ha. induction He as [|e es He _ IH]; intros a Ha; [done|]. by apply IH, agg_step_dated. Qed.

(** ** Series *)
Lemma series_times value ordered c s x : x ∈ (series_from value ordered c s).*1 -> exists day, day ∈ ordered /\ x = day_time (ensureDay day s).
Proof.
  revert c. induction ordered as [|day rest IH]; intros c Hx; [by apply elem_of_nil in Hx|]. cbn [series_from] in Hx.
  destruct (value _ _); [cbn in Hx; apply elem_of_cons in Hx as [->|Hx]|].
  - exists day. split; [by left|done].
  - destruct (IH _ Hx) as (d & ? & ?). exists d. split; [by right|done].
  - destruct (IH _ Hx) as (d & ? & ?). exists d. split; [by right|done].
Qed.
Lemma series_sorted value ordered c s : (forall day, day ∈ ordered -> day_dated day (ensureDay day s)) -> StronglySorted str_before ordered ->
  StronglySorted Z.lt (series_from value ordered c s).*1.
Proof.
  intros Hd Hs. revert c. induction Hs as [|day rest Hs IH Hall]; intros c; [constructor|]. cbn [series_from].
  specialize (IH ltac:(intros; apply Hd; by right)). destruct (value _ _); [|apply IH]. constructor; [apply IH|].
  apply Forall_forall. intros x Hx. apply series_times in Hx as (d & Hin & ->). unfold day_time.
  destruct (Hd day ltac:(by left)) as (t & -> & Ht & Hiso & _), (Hd d ltac:(by right)) as (t' & -> & Ht' & Hiso' & _). cbn.
  eapply isoDay_lt; [exact Ht|exact Ht'|exact Hiso|exact Hiso'|]. exact (proj1 (Forall_forall _ rest) Hall d Hin).
Qed.
Lemma ordered_dated s : dated s -> StronglySorted str_before (getOrderedDays s) /\ forall day, day ∈ getOrderedDays s -> day_dated day (ensureDay day s).
Proof.
  intros Hs. split; [apply sort_strings_sorted, Hs|]. intros day Hd. unfold getOrderedDays in Hd. rewrite sort_strings_elem in Hd.
  apply ensureDay_dated; [done|]. destruct (map_get day (days s)) eqn:E; [eauto|]. by apply map_get_None in E.
Qed.

(** The points of a chart are in the order of time: whatever the backfill, the saves, the failures and the
    restarts did, the series of every chart has strictly ascending times, so no day appears twice; the
    dates, written as strings and sorted as strings, are in the order of the days up to the end of 32-bit time. *)
Theorem series_ascending es chartId points : Forall timed es ->
  getSeries chartId (ag_store (agg_run es init_aggregator)) = Some points -> StronglySorted Z.lt points.*1.
Proof.
  intros He. assert (agg_dated init_aggregator) as H0 by (split; [apply dated_empty|done]).
  destruct (agg_run_dated es _ H0 He) as (Hs & _ & _). set (s := ag_store (agg_run es init_aggregator)) in *.
  destruct (ordered_dated s Hs) as [Hord Hday]. unfold getSeries. destruct (chart_case chartId) as [value|].
  - destruct (getOrderedDays s) as [|d l]; intros [= <-]; [constructor|]. exact (series_sorted value (d :: l) no_totals s Hday Hord).
  - destruct (getOrderedDays s); [|done]. intros [= <-]. constructor.
Qed.

(** ** The blocks behind the buckets *)
Record entry := { en_height : Z; en_time : Z; en_day : jsstr; en_stats : block_stats; en_miner : miner_label }.
Definition on_day (day : jsstr) (log : list entry) : list entry := filter (fun e => en_day e = day) log.
Definition mined_by (k : jsstr) (log : list entry) : Z := zlen (filter (fun e => minerKey (en_miner e) = k) log).
Definition sum_of (f : block_stats -> jsnum) (log : list entry) : jsnum := foldl (fun x e => nadd x (f (en_stats e))) n0 log.
Fixpoint gaps (l : list Z) : list Z :=
  match l with
  | a :: (b :: _) as rest => Z.max 0 (b - a) :: gaps rest
  | _ => []
  end.
(** What the bucket of a day says of the blocks of the day. *)
Record summarises (l : list entry) (b : day_bucket) : Prop := {
  sum_blocks : blockCount b = zlen l;
  sum_txs : txCount b = sum_of (fun st => or0 (bs_txs st)) l;
  sum_outs : outCount b = sum_of (fun st => or0 (bs_outs st)) l;
  sum_ins : inCount b = sum_of (fun st => or0 (bs_ins st)) l;
  sum_fees : feeSat b = sum_of (fun st => or0 (bs_totalfee st)) l;
  sum_revenue : revenueSat b = sum_of (fun st => nadd (or0 (bs_totalfee st)) (or0 (bs_subsidy st))) l;
  sum_output : outputSat b = sum_of (fun st => or0 (bs_total_out st)) l;
  sum_size : totalSizeBytes b = sum_of (fun st => or0 (bs_total_size st)) l;
  sum_weight : totalWeight b = sum_of (fun st => or0 (bs_total_weight st)) l;
  sum_first : firstHeight b = en_height <$> head l /\ firstTime b = en_time <$> head l;
  sum_last : lastHeight b = en_height <$> last l /\ lastTime b = en_time <$> last l;
  sum_gaps : blockGapsSec b = gaps (en_time <$> l) }.
Definition days_tallied (log : list entry) (s : store) : Prop := forall day, match map_get day (days s) with
  | Some b => on_day day log <> [] /\ summarises (on_day day log) b
  | None => on_day day log = []
  end.
Definition miners_tallied (log : list entry) (s : store) : Prop :=
  (forall day k, count_in k (day_miners (ensureDay day s)) = mined_by k (on_day day log)) /\
  (forall k, default 0 (totalBlocks <$> map_get k (miners s)) = mined_by k log).
(** The heights from one on, each once, each on the day of its time. *)
Definition chain_log (log : list entry) : Prop :=
  en_height <$> log = seqZ 1 (zlen log) /\ Forall (fun e => bs_time (en_stats e) = Some (en_time e) /\ isoDay (Some (en_time e)) = Ok (en_day e)) log.
Record tallied (log mlog : list entry) (s : store) : Prop := {
  tl_log : chain_log log; tl_days : days_tallied log s; tl_miners : miners_tallied mlog s }.

Lemma gaps_snoc l x t : last l = Some x -> gaps (l ++ [t]) = gaps l ++ [Z.max 0 (t - x)].
Proof.
  induction l as [|a l IH]; [done|]. destruct l as [|b l]; [by intros [= <-]|]. intros Hl. cbn [app gaps]. f_equal. by apply IH.
Qed.
Lemma summarises_nil : summarises [] emptyDayBucket.
Proof. by constructor. Qed.
Lemma sum_of_snoc f l e : sum_of f (l ++ [e]) = nadd (sum_of f l) (f (en_stats e)).
Proof. unfold sum_of. by rewrite foldl_app. Qed.
Lemma summarises_add l b e : summarises l b -> summarises (l ++ [e]) (add_stats (en_height e) (en_time e) (en_stats e) b).
Proof.
  intros [H1 H2 H3 H4 H5 H6 H7 H8 H9 [F1 F2] [L1 L2] HG]. constructor; cbn; rewrite ?sum_of_snoc; try congruence.
  - rewrite zlen_app. change (zlen [e]) with 1. lia.
  - rewrite F1, F2. by destruct l.
  - by rewrite last_snoc.
  - rewrite fmap_app, L2, HG. destruct (last l) as [x|] eqn:El; cbn [fmap option_fmap option_map].
    + symmetry. apply gaps_snoc. by rewrite fmap_last, El.
    + by apply last_None in El as ->.
Qed.
Lemma on_day_snoc day log e : on_day day (log ++ [e]) = on_day day log ++ (if decide (en_day e = day) then [e] else []).
Proof. unfold on_day. rewrite filter_app. cbn. by case_decide. Qed.
Lemma mined_by_snoc k log e : mined_by k (log ++ [e]) = mined_by k log + (if decide (minerKey (en_miner e) = k) then 1 else 0).
Proof. unfold mined_by. rewrite filter_app, zlen_app. cbn [filter list_filter]. by case_decide. Qed.

(** The three parts of an ingestion. *)
Lemma add_stats_tallied log s e : days_tallied log s -> days_tallied (log ++ [e]) (update_day (en_day e) (add_stats (en_height e) (en_time e) (en_stats e)) s).
Proof.
  intros Hd day. cbn [days update_day set_days]. rewrite on_day_snoc. destruct (decide (en_day e = day)) as [<-|Hne].
  - rewrite map_set_get. split; [by destruct (on_day (en_day e) log)|]. apply summarises_add. specialize (Hd (en_day e)). unfold ensureDay.
    destruct (map_get (en_day e) (days s)); [apply Hd|]. rewrite Hd. apply summarises_nil.
  - rewrite map_set_other by congruence. rewrite app_nil_r. apply Hd.
Qed.
Lemma update_day_tallied log s day f : days_tallied log s -> is_Some (map_get day (days s)) ->
  (forall l b, summarises l b -> summarises l (f b)) -> days_tallied log (update_day day f s).
Proof.
  intros Hd [b Hb] Hf day'. cbn [days update_day set_days]. pose proof (Hd day') as Hd'. destruct (decide (day' = day)) as [->|Hne].
  - rewrite map_set_get. unfold ensureDay. rewrite Hb in *. cbn [default]. destruct Hd' as [H1 H2]. split; [done|]. by apply Hf.
  - by rewrite map_set_other by done.
Qed.
Lemma sample_summarises l b d h : summarises l b -> summarises l (sample_day d h b).
Proof. intros []. by constructor. Qed.
Lemma day_miner_summarises l b k : summarises l b -> summarises l (add_day_miner k b).
Proof. intros []. by constructor. Qed.
Lemma ensure_update day day' f s : ensureDay day (update_day day' f s) = if decide (day = day') then f (ensureDay day s) else ensureDay day s.
Proof.
  unfold ensureDay at 1. cbn. destruct (decide (day = day')) as [->|]; [by rewrite map_set_get|]. by rewrite map_set_other by done.
Qed.
Lemma miners_same log s day f : (forall b, day_miners (f b) = day_miners b) -> miners_tallied log s -> miners_tallied log (update_day day f s).
Proof. intros Hf [H1 H2]. split; [|exact H2]. intros d k. rewrite ensure_update. destruct (decide (d = day)); [rewrite Hf|]; apply H1. Qed.
Lemma add_total_tally m l k : default 0 (totalBlocks <$> map_get k (add_total m l)) = default 0 (totalBlocks <$> map_get k l) + (if decide (minerKey m = k) then 1 else 0).
Proof.
  unfold add_total. destruct (decide (minerKey m = k)) as [<-|Hne].
  - rewrite map_set_get. cbn. by destruct (map_get (minerKey m) l).
  - rewrite map_set_other by congruence. lia.
Qed.
Lemma add_miner_tallied log s e : miners_tallied log s -> miners_tallied (log ++ [e]) (add_miner (en_day e) (en_miner e) s).
Proof.
  intros [H1 H2]. split.
  - intros day k. change (ensureDay day (add_miner (en_day e) (en_miner e) s)) with (ensureDay day (update_day (en_day e) (add_day_miner (minerKey (en_miner e))) s)).
    rewrite ensure_update, on_day_snoc. destruct (decide (day = en_day e)) as [->|Hne].
    + rewrite decide_True by done. rewrite mined_by_snoc, <- H1. cbn [day_miners add_day_miner]. unfold count_in.
      destruct (decide (minerKey (en_miner e) = k)) as [<-|Hk]; [by rewrite map_set_get|]. rewrite map_set_other by congruence. lia.
    + rewrite decide_False by congruence. by rewrite app_nil_r.
  - intros k. cbn [miners add_miner set_miners update_day set_days]. by rewrite add_total_tally, mined_by_snoc, H2.
Qed.
Lemma days_tallied_frame log s s' : days s' = days s -> days_tallied log s -> days_tallied log s'.
Proof. intros E H day. rewrite E. apply H. Qed.
Lemma miners_tallied_frame log s s' : days s' = days s -> miners s' = miners s -> miners_tallied log s -> miners_tallied log s'.
Proof. intros E1 E2 [H1 H2]. split; [intros day k; unfold ensureDay; rewrite E1; apply H1|intros k; by rewrite E2]. Qed.

(** ** The backfill keeps the tally *)
Definition whole (log : list entry) (s : store) : Prop := tallied log log s /\ lastBlockHeight s = zlen log.
Definition halfway (h end_ : Z) (log : list entry) (s : store) : Prop := lastBlockHeight s = zlen log /\ h = zlen log + 1 /\ h <= end_.
Definition phase_tallied (p : phase) (s : store) : Prop :=
  match p with
  | WaitStats h end_ _ _ => exists log, whole log s /\ halfway h end_ log s
  | WaitMiner h end_ _ _ day time => exists log st, halfway h end_ log s /\ forall m, tallied (log ++ [Build_entry h time day st m]) log s
  | WaitHeader h end_ _ _ day time => exists log st m, halfway h end_ log s /\ let log' := log ++ [Build_entry h time day st m] in tallied log' log' s
  | WaitHashrate day _ => is_Some (map_get day (days s)) /\ exists log, whole log s
  | Idle | WaitInfo => exists log, whole log s
  end.
Definition agg_tallied (a : aggregator) : Prop := phase_tallied (ag_phase a) (ag_store a) /\ from_option (fun s => exists log, whole log s) True (ag_file a).

Lemma whole_empty : whole [] empty_store.
Proof. split; [|done]. by repeat constructor. Qed.
Lemma chain_log_snoc log e : chain_log log -> en_height e = zlen log + 1 -> bs_time (en_stats e) = Some (en_time e) -> isoDay (Some (en_time e)) = Ok (en_day e) -> chain_log (log ++ [e]).
Proof.
  intros [H1 H2] Hh Ht Hd. split; [|apply Forall_app_2; [done|by repeat constructor]].
  rewrite fmap_app, H1, zlen_app. change (zlen [e]) with 1. rewrite seqZ_app by (unfold zlen; lia). f_equal. change (seqZ (1 + zlen log) 1) with [0 + (1 + zlen log)]. cbn [fmap list_fmap]. rewrite Hh. f_equal. lia.
Qed.
Lemma day_present log e s : days_tallied (log ++ [e]) s -> is_Some (map_get (en_day e) (days s)).
Proof.
  intros Hd. specialize (Hd (en_day e)). destruct (map_get (en_day e) (days s)); [eauto|]. rewrite on_day_snoc, decide_True in Hd by done.
  by destruct (on_day (en_day e) log).
Qed.
Lemma waits_tallied h log s a' : whole log (ag_store a') -> days (ag_store a') = days s -> from_option (fun s => exists log, whole log s) True (ag_file a') ->
  h = zlen log + 1 -> waits_next h s (ag_phase a') -> agg_tallied a'.
Proof.
  intros Hw E Hf Hh Hp. split; [|done]. unfold phase_tallied. destruct (ag_phase a'); cbn in Hp; try done; eauto.
  - destruct Hp as [-> Hp]. exists log. split; [done|]. split; [apply Hw|done].
  - rewrite E. eauto.
Qed.
Lemma sample_days_tallied l log a : whole log (ag_store a) -> from_option (fun s => exists log, whole log s) True (ag_file a) -> agg_tallied (sample_days l a).
Proof.
  intros Hw Hf. destruct (sample_days_frame l (zlen log + 1) a) as (E1 & E2 & E3). eapply waits_tallied; [by rewrite E1|by rewrite E1|by rewrite E2|done|exact E3].
Qed.
Lemma ingested_tallied h end_ tip touched day t log e a : tallied (log ++ [e]) (log ++ [e]) (ag_store a) -> halfway h end_ log (ag_store a) ->
  from_option (fun s => exists log, whole log s) True (ag_file a) -> agg_tallied (ingested h end_ tip touched day t a).
Proof.
  intros [T1 T2 T3] (H1 & H2 & H3) Hf. destruct (ingested_frame h end_ tip touched day t a) as (E1 & E2 & E3).
  replace (if h <? end_ then h + 1 else end_ + 1) with (h + 1) in E3 by (destruct (Z.ltb_spec h end_); lia).
  eapply (waits_tallied _ (log ++ [e])); [|by rewrite E1|by rewrite E2| |exact E3].
  - rewrite E1. split; [by constructor|]. cbn [lastBlockHeight set_last]. rewrite zlen_app. change (zlen [e]) with 1. lia.
  - rewrite zlen_app. change (zlen [e]) with 1. lia.
Qed.
Lemma sample_tallied day d h log mlog s : tallied log mlog s -> is_Some (map_get day (days s)) -> tallied log mlog (update_day day (fun b => sample_day (d b) (h b) b) s).
Proof.
  intros [T1 T2 T3] Hi. constructor; [done| |by apply miners_same]. apply update_day_tallied; [done..|]. intros l b. apply sample_summarises.
Qed.

Definition between (p : phase) : bool := match p with WaitMiner _ _ _ _ _ _ | WaitHeader _ _ _ _ _ _ => false | _ => true end.
Lemma between_whole a : agg_tallied a -> between (ag_phase a) = true -> exists log, whole log (ag_store a).
Proof. intros [H _]. destruct (ag_phase a); cbn in H |- *; try done; destruct_and?; eauto. by destruct H as (log & ? & _); eauto. Qed.

(** No save falls between the two parts of an ingestion. *)
Fixpoint saves_between (es : list agg_event) (a : aggregator) : bool :=
  match es with
  | [] => true
  | e :: es => match e with SaveTimer _ => between (ag_phase a) | _ => true end && saves_between es (agg_step a e)
  end.
Ltac same_phase a := destruct (ag_phase a) eqn:E; try by (split; [rewrite ?E|]).
Lemma agg_step_tallied a e : agg_tallied a -> match e with SaveTimer _ => between (ag_phase a) = true | _ => True end -> agg_tallied (agg_step a e).
Proof.
  intros Ha He. pose proof (between_whole a Ha) as Hw. destruct Ha as [Hp Hf].
  destruct e as [|[tip|]|[[stats|]|]|block|[[d|]|]|[hps|]|written|readable]; cbn [agg_step].
  - same_phase a.
  - same_phase a. destruct Hp as [log Hl].
    destruct (next_chunk_frame (Z.max 1 (lastBlockHeight (ag_store a) + 1)) tip [] a) as (E1 & E2 & E3).
    eapply (waits_tallied _ log); [by rewrite E1|by rewrite E1|by rewrite E2| |exact E3]. destruct Hl as [_ ->]. pose proof (zlen_nonneg log). lia.
  - same_phase a.
  - same_phase a. destruct (bs_time stats) as [t|] eqn:Et; [|by split; [apply Hw|]]. destruct (isoDay (Some t)) as [day|] eqn:Ed; [|by split; [apply Hw|]].
    destruct Hp as (log & [[T1 T2 T3] _] & Hh). split; [|done]. cbn [ag_phase set_phase phase_tallied]. exists log, stats. split; [done|]. intros m. constructor.
    + apply chain_log_snoc; [done..|apply Hh|done|done].
    + exact (add_stats_tallied log _ (Build_entry h t day stats m) T2).
    + by apply miners_same.
  - same_phase a. by split; [apply Hw|].
  - same_phase a. by split; [apply Hw|].
  - same_phase a. destruct Hp as (log & st & Hh & Ht). split; [|done]. cbn [ag_phase set_phase phase_tallied]. exists log, st, (fetchCoinbaseMiner block).
    split; [exact Hh|]. destruct (Ht (fetchCoinbaseMiner block)) as [T1 T2 T3]. constructor; [done| |].
    + eapply days_tallied_frame; [|apply (update_day_tallied _ _ day (add_day_miner (minerKey (fetchCoinbaseMiner block))) T2)]; [done|exact (day_present _ _ _ T2)|].
      intros l b. apply day_miner_summarises.
    + exact (add_miner_tallied log _ (Build_entry h time day st (fetchCoinbaseMiner block)) T3).
  - same_phase a. destruct Hp as (log & st & m & Hh & Ht). eapply ingested_tallied; [|exact Hh|done]. apply sample_tallied; [exact Ht|]. exact (day_present _ _ _ (tl_days _ _ _ Ht)).
  - same_phase a. destruct Hp as (log & st & m & Hh & Ht). by eapply ingested_tallied.
  - same_phase a. destruct Hp as (log & st & m & Hh & Ht). by eapply ingested_tallied.
  - same_phase a. destruct Hp as (Hi & log & Ht & Hl). eapply (sample_days_tallied _ log); [|done]. split; [by apply sample_tallied|done].
  - same_phase a. destruct Hp as (Hi & log & Hl). by eapply sample_days_tallied.
  - destruct (writeTimer a); [|done]. split; [done|]. destruct written; [by apply Hw|done].
  - split; [|done]. cbn. destruct readable; [|exists []; apply whole_empty]. destruct (ag_file a); [done|exists []; apply whole_empty].
Qed.
Lemma agg_run_tallied es a : agg_tallied a -> saves_between es a = true -> agg_tallied (agg_run es a).
Proof.
  revert a. induction es as [|e es IH]; intros a Ha Hs; [done|]. cbn in Hs. apply andb_true_iff in Hs as [H1 H2]. apply IH; [|done].
  apply agg_step_tallied; [done|]. by destruct e.
Qed.


(** A save inside an ingestion counts the block twice.  While the timer of the last chunk runs, the
    statistics of the next block are added to its day; the save then writes them with the old
    [lastBlockHeight]; after a restart the backfill asks for the same height and adds it again, so the
    day has two blocks more for one height. *)
Theorem save_counts_twice a h end_ tip touched tip' stats t day :
  ag_phase a = WaitStats h end_ tip touched -> writeTimer a = true -> 1 <= h -> lastBlockHeight (ag_store a) = h - 1 -> h <= tip' ->
  bs_time stats = Some t -> isoDay (Some t) = Ok day ->
  let a' := agg_run [GotStats (Ok (Some stats)); SaveTimer true; Restarted true; PollTip; GotInfo (Ok tip'); GotStats (Ok (Some stats))] a in
  ag_phase a' = WaitMiner h (Z.min tip' (h + CHUNK_SIZE - 1)) tip' [] day t /\ lastBlockHeight (ag_store a') = h - 1 /\
  blockCount (ensureDay day (ag_store a')) = blockCount (ensureDay day (ag_store a)) + 2.
Proof.
  intros Hp Hw Hh Hl Ht Ebs Ed. unfold agg_run. cbn [foldl]. set (s1 := update_day day (add_stats h t stats) (ag_store a)).
  assert (agg_step a (GotStats (Ok (Some stats))) = set_phase (WaitMiner h end_ tip touched day t) (set_store s1 a)) as ->
    by (unfold agg_step; by rewrite Hp, Ebs, Ed).
  assert (agg_step (set_phase (WaitMiner h end_ tip touched day t) (set_store s1 a)) (SaveTimer true) =
    {| ag_store := s1; ag_file := Some s1; writeTimer := false; ag_phase := WaitMiner h end_ tip touched day t |}) as -> by (cbn; by rewrite Hw).
  change (agg_step (agg_step {| ag_store := s1; ag_file := Some s1; writeTimer := false; ag_phase := WaitMiner h end_ tip touched day t |} (Restarted true)) PollTip)
    with {| ag_store := s1; ag_file := Some s1; writeTimer := false; ag_phase := WaitInfo |}.
  cbn [agg_step ag_phase ag_store]. change (lastBlockHeight s1) with (lastBlockHeight (ag_store a)). rewrite Hl.
  replace (Z.max 1 (h - 1 + 1)) with h by lia. unfold next_chunk. rewrite (proj2 (Z.leb_le h tip')) by lia. cbn [agg_step ag_phase ag_store set_phase]. rewrite Ebs, Ed.
  split; [done|]. split; [exact Hl|]. cbn [ag_store set_phase set_store]. unfold s1. rewrite !ensure_update, !decide_True by done. cbn [blockCount add_stats]. lia.
Qed.

(** The doughnut counts every block that was answered. *)
Definition blocks_of (l : list pool_share) : Z := foldr (fun c n => sh_blocks c + n) 0 l.
#[local] Instance blocks_of_perm : Proper ((≡ₚ) ==> (=)) blocks_of.
Proof. intros l l' H. unfold blocks_of. induction H; cbn; lia. Qed.
Lemma blocks_of_set (k : jsstr) c m : blocks_of (snd <$> map_set k c m) = blocks_of (snd <$> m) + sh_blocks c - default 0 (sh_blocks <$> map_get k m).
Proof.
  induction m as [|[k' c'] m IH]; [cbn; lia|]. cbn [map_set map_get]. case_bool_decide; rewrite !fmap_cons; cbn [snd default fmap option_fmap option_map].
  - change (sh_blocks c + blocks_of (snd <$> m) = sh_blocks c' + blocks_of (snd <$> m) + sh_blocks c - sh_blocks c'). lia.
  - change (sh_blocks c' + blocks_of (snd <$> map_set k c m) = sh_blocks c' + blocks_of (snd <$> m) + sh_blocks c - default 0 (sh_blocks <$> map_get k m)). lia.
Qed.
Definition answered (block : res (option (list explorer_vout))) : bool := match block with Ok _ => true | Throw _ => false end.
Lemma blocks_counted l m : blocks_of (snd <$> foldl count_block m l) = blocks_of (snd <$> m) + zlen (filter (fun b => answered b = true) l).
Proof.
  revert m. induction l as [|b l IH]; intros m; cbn [foldl]; [change (filter _ []) with (@nil (res (option (list explorer_vout)))); change (zlen []) with 0; lia|].
  rewrite IH. destruct b as [vout|err]; cbn [count_block].
  - rewrite filter_cons_True by done. rewrite zlen_cons, blocks_of_set. cbn [sh_blocks]. destruct (map_get _ m); cbn; lia.
  - by rewrite filter_cons_False by done.
Qed.
Lemma doughnut_counts tip block : let '(start, _, shares) := getPoolsDoughnut tip block in
  blocks_of shares = zlen (filter (fun b => answered b = true) (block <$> reverse (seqZ start (tip - start + 1)))).
Proof. unfold getPoolsDoughnut. rewrite sort_by_perm. by rewrite blocks_counted. Qed.
