(* ===== verification/ExplorerCharts.v ===== *)
(** * The explorer: charts
    ([explorer/overlay/app/services/b3-chart-defs.js], [routes/b3-charts-router.js], [public/js/b3-charts.js])

    The catalogue of the charts, the router that answers for one of them from the store of daily
    statistics, and the page that fetches the answer and draws it.  The functions [summary] of the
    catalogue are called by nobody and are left out.  A drawing is what the page hands to the chart
    library: the points of the datasets and the kind of the axis; colours and labels of the axes are
    left out. *)

From Stdlib Require Import Sorting.Sorted.
From S2P Require Import Prelude JsString JsMap JsNumber ExplorerLabels ExplorerDaily ExplorerDailyProofs.

(** ** b3-chart-defs.js *)
Inductive chart_type := LineChart | Doughnut | StackedArea.
Record chart_def := Chart {
  ch_id : string; ch_title : string; ch_shortLabel : string; ch_description : string; ch_category : string; ch_unit : string;
  ch_type : chart_type; ch_logY : bool; ch_popular : bool; ch_placeholder : bool; ch_live : bool; ch_sourceNote : option string }.
#[export] Instance chart_type_eq_dec : EqDecision chart_type.
Proof. solve_decision. Defined.
#[export] Instance chart_def_eq_dec : EqDecision chart_def.
Proof. solve_decision. Defined.

Local Open Scope string_scope.
Definition mining_charts : list chart_def := [
  Chart "hash-rate" "Total Hash Rate (TH/s)" "Total Hash Rate (TH/s)"
    "The estimated hashes per second the b3chain network is performing in the last 24 hours."
    "mining" "H/s" LineChart true true false false None;
  Chart "pools" "Hashrate Distribution" "Hashrate Distribution"
    "An estimation of hashrate distribution amongst the largest miners over the last 144 blocks."
    "mining" "%" Doughnut false false false false None;
  Chart "pools-timeseries" "Hashrate Distribution Over Time" "Hashrate Distribution Over Time"
    "An estimation of hashrate distribution over time amongst the largest miners."
    "mining" "%" StackedArea false false false false None;
  Chart "difficulty" "Network Difficulty" "Network Difficulty"
    "A relative measure of how difficult it is to mine a new block for the b3chain blockchain."
    "mining" EmptyString LineChart true true false false None;
  Chart "miners-revenue" "Miners Revenue (B3C)" "Miners Revenue"
    "Total value in B3C of coinbase block rewards and transaction fees paid to miners."
    "mining" "B3C" LineChart false false false false None;
  Chart "transaction-fees" "Total Transaction Fees (B3C)" "Total Transaction Fees (B3C)"
    "The total B3C value of all transaction fees paid to miners. This does not include coinbase block rewards."
    "mining" "B3C" LineChart false false false false None;
  Chart "transaction-fees-usd" "Total Transaction Fees (B3C)" "Total Transaction Fees (USD)"
    "On bitcoin's chart this is denominated in USD. b3chain has no exchange listing, so we render the equivalent series in B3C."
    "mining" "B3C" LineChart false false false false (Some "USD-denominated series unavailable: b3chain has no exchange listing. Showing same series in B3C."%string);
  Chart "fees-usd-per-transaction" "Fees Per Transaction (B3C)" "Fees Per Transaction (USD)"
    "Average transaction fees per transaction. Bitcoin's chart is in USD; we show B3C since b3chain has no exchange listing."
    "mining" "B3C" LineChart false false false false (Some "USD-denominated series unavailable. Showing B3C."%string);
  Chart "cost-per-transaction-percent" "Cost % of Transaction Volume" "Cost % of Transaction Volume"
    "Miners revenue (subsidy + fees) as a percentage of total transaction volume."
    "mining" "%" LineChart false false false false None;
  Chart "cost-per-transaction" "Cost Per Transaction (B3C)" "Cost Per Transaction"
    "Miners revenue divided by the number of transactions, denominated in B3C."
    "mining" "B3C" LineChart false false false false None].
Definition currency_charts : list chart_def := [
  Chart "total-bitcoins" "Total Circulating B3C" "Total Circulating B3C"
    "The total number of mined B3C currently circulating on the network."
    "currency-stats" "B3C" LineChart false false false false None;
  Chart "market-price" "Market Price (USD)" "Market Price (USD)"
    "The average USD market price across major exchanges. b3chain has no exchange listing yet."
    "currency-stats" "USD" LineChart false false true false None;
  Chart "market-cap" "Market Capitalization (USD)" "Market Capitalization (USD)"
    "The total USD value of B3C in circulation. b3chain has no exchange listing yet."
    "currency-stats" "USD" LineChart false false true false None;
  Chart "trade-volume" "Exchange Trade Volume (USD)" "Exchange Trade Volume (USD)"
    "The total USD value of trading volume on major exchanges. b3chain has no exchange listing yet."
    "currency-stats" "USD" LineChart false false true false None].
Definition block_charts : list chart_def := [
  Chart "blocks-size" "Blockchain Size (MB)" "Blockchain Size (MB)"
    "The total size of the blockchain (sum of serialized block sizes) in megabytes."
    "block-details" "MB" LineChart false false false false None;
  Chart "avg-block-size" "Average Block Size (MB)" "Average Block Size (MB)"
    "The average block size over the past 24 hours in megabytes."
    "block-details" "MB" LineChart false true false false None;
  Chart "n-transactions-per-block" "Average Transactions Per Block" "Average Transactions Per Block"
    "The average number of transactions per block over the past 24 hours."
    "block-details" "tx" LineChart false false false false None;
  Chart "n-payments-per-block" "Average Payments Per Block" "Average Payments Per Block"
    "The average number of outputs per block over the past 24 hours (used as a proxy for payments)."
    "block-details" "out" LineChart false false false false None;
  Chart "n-transactions-total" "Total Number of Transactions" "Total Number of Transactions"
    "The total number of transactions on the blockchain."
    "block-details" "tx" LineChart false false false false None;
  Chart "median-confirmation-time" "Median Confirmation Time" "Median Confirmation Time"
    "Median time between block timestamps - a proxy for inter-block latency."
    "block-details" "min" LineChart false false false false None;
  Chart "avg-confirmation-time" "Average Confirmation Time" "Average Confirmation Time"
    "Average time between block timestamps - a proxy for inter-block latency."
    "block-details" "min" LineChart false false false false None].
Definition network_charts : list chart_def := [
  Chart "n-unique-addresses" "Unique Output Addresses Per Day" "Unique Addresses Used"
    "The number of distinct output addresses observed on-chain per day (sample size scales with chain activity)."
    "network-activity" "addr" LineChart false false false false None;
  Chart "n-transactions" "Confirmed Transactions Per Day" "Confirmed Transactions Per Day"
    "The total number of confirmed transactions per day."
    "network-activity" "tx" LineChart false true false false None;
  Chart "n-payments" "Confirmed Payments Per Day" "Confirmed Payments Per Day"
    "The total number of confirmed outputs per day."
    "network-activity" "out" LineChart false false false false None;
  Chart "transactions-per-second" "Transaction Rate Per Second" "Transaction Rate Per Second"
    "The number of confirmed transactions added to the chain per second."
    "network-activity" "tx/s" LineChart false false false false None;
  Chart "output-volume" "Output Value Per Day (B3C)" "Output Value Per Day"
    "The total value of all transaction outputs per day. Includes coins returned to the sender as change."
    "network-activity" "B3C" LineChart false false false false None;
  Chart "mempool-count" "Mempool Transaction Count" "Mempool Transaction Count"
    "The total number of unconfirmed transactions in the mempool (live)."
    "network-activity" "tx" LineChart false false false true None;
  Chart "mempool-growth" "Mempool Size Growth" "Mempool Size Growth"
    "The rate at which the mempool is growing in bytes per second (live)."
    "network-activity" "B/s" LineChart false false false true None;
  Chart "mempool-size" "Mempool Size (Bytes)" "Mempool Size (Bytes)"
    "The aggregate size in bytes of transactions waiting to be confirmed (live)."
    "network-activity" "B" LineChart false true false true None;
  Chart "mempool-state-by-fee-level" "Mempool Bytes Per Fee Level" "Mempool Bytes Per Fee Level"
    "The current state of the mempool organized by bytes per fee level (live)."
    "network-activity" "B" StackedArea false false false true None;
  Chart "utxo-count" "Unspent Transaction Outputs" "Unspent Transaction Outputs"
    "The cumulative number of valid unspent transaction outputs."
    "network-activity" "utxo" LineChart false false false false None;
  Chart "n-transactions-excluding-popular" "Transactions Excluding Popular Addresses" "Transactions Excluding Popular Addresses"
    "Confirmed transactions per day excluding the network's 100 most popular output addresses."
    "network-activity" "tx" LineChart false false false false None;
  Chart "estimated-transaction-volume" "Estimated Transaction Value (B3C)" "Estimated Transaction Value (B3C)"
    "The total estimated value in B3C of transactions on the blockchain (output volume minus change estimate)."
    "network-activity" "B3C" LineChart false false false false None;
  Chart "estimated-transaction-volume-usd" "Estimated Transaction Value (B3C)" "Estimated Transaction Value (USD)"
    "On bitcoin's chart this is denominated in USD. b3chain has no exchange listing; rendered in B3C."
    "network-activity" "B3C" LineChart false false false false (Some "USD-denominated series unavailable. Showing B3C."%string)].
Definition market_charts : list chart_def := [
  Chart "mvrv" "Market Value to Realised Value" "Market Value to Realised Value"
    "MVRV requires a USD market price for B3C; b3chain has no exchange listing yet."
    "market-signals" "ratio" LineChart false false true false None;
  Chart "nvt" "Network Value to Transactions" "Network Value to Transactions"
    "NVT requires a USD market price for B3C; b3chain has no exchange listing yet."
    "market-signals" "ratio" LineChart false false true false None;
  Chart "nvts" "Network Value to Transactions Signal" "Network Value to Transactions Signal"
    "NVTS requires a USD market price for B3C; b3chain has no exchange listing yet."
    "market-signals" "ratio" LineChart false false true false None].
Definition CHARTS : list chart_def := (mining_charts ++ currency_charts ++ block_charts ++ network_charts ++ market_charts)%list.
Definition CATEGORIES : list (string * string) := [
  ("currency-stats", "Currency Statistics"); ("block-details", "Block Details"); ("mining", "Mining Information");
  ("network-activity", "Network Activity"); ("market-signals", "Market Signals")].
Local Close Scope string_scope.

Definition byId : list (jsstr * chart_def) := foldl (fun m c => map_set (js (ch_id c)) c m) [] CHARTS.
Definition getChart (id : jsstr) : option chart_def := map_get id byId.
Definition getByCategory (cat : string) : list chart_def := filter (fun c => ch_category c = cat) CHARTS.
Definition getPopular : list chart_def := filter (fun c => ch_popular c = true) CHARTS.

(** ** b3-charts-router.js *)
(** A point of a series in JSON; [None] is [null], which [JSON.stringify] writes for a number that is not finite. *)
Definition wire_point (p : Z * jsnum) : Z * option jsnum := (p.1, if isFinite p.2 then Some p.2 else None).
Inductive chart_answer :=
  | StatusAnswer (status : Z * Z * Z * Z * option day_bucket)
  | UnknownChart
  | PlaceholderAnswer (note : string)
  | PoolsAnswer (pools : Z * Z * list pool_share)
  | PoolsOverTime (series : list jsstr * list pool_series)
  | SeriesAnswer (series : list (Z * option jsnum)) (def : chart_def).

Section Router.
Context (tip : res Z) (block : Z -> res (option (list explorer_vout))).
(** A request to the node that fails goes to the error handler of the server. *)
Definition pools_answer : res chart_answer := tip ← tip; Ok (PoolsAnswer (getPoolsDoughnut tip block)).
(** [GET /charts/api/:id]. *)
Definition api_chart (id : jsstr) (s : store) : res chart_answer :=
  match getChart id with
  | None => Ok UnknownChart
  | Some def =>
      if ch_placeholder def then Ok (PlaceholderAnswer (ch_description def))
      else if bool_decide (ch_id def = "pools"%string) then pools_answer
      else if bool_decide (ch_id def = "pools-timeseries"%string) then Ok (PoolsOverTime (getPoolsTimeSeries s))
      else
        match getSeries (js (ch_id def)) s with
        | None => Ok (PlaceholderAnswer "Live-only chart; rendered client-side.")
        | Some series => Ok (SeriesAnswer (wire_point <$> series) def)
        end
  end.
(** The routes below [/charts/api], in their order; the names of a route match in either case. *)
Definition charts_api (id : jsstr) (s : store) : res chart_answer :=
  if bool_decide (toLowerCase id = js "_status") then Ok (StatusAnswer (getStatusSummary s))
  else if bool_decide (toLowerCase id = js "pools") then pools_answer
  else if bool_decide (toLowerCase id = js "pools-timeseries") then Ok (PoolsOverTime (getPoolsTimeSeries s))
  else api_chart id s.
End Router.

(** ** b3-charts.js *)
Inductive drawing :=
  | DrawnLine (points : list (Z * option jsnum)) (log : bool)
  | DrawnDoughnut (labels : list jsstr) (values : list Z)
  | DrawnStack (datasets : list (jsstr * list (Z * Z))).
(** [cp_series] is empty for [null]; [cp_loading] is the message over the canvas while it is shown. *)
Record chart_page := {
  cp_def : chart_def; cp_series : list (Z * option jsnum); cp_pools : option (list pool_share); cp_time : option (list pool_series);
  rangeDays : Z; cp_log : bool; cp_chart : option drawing; cp_loading : option string }.

Definition filteredSeries (p : chart_page) : list (Z * option jsnum) :=
  match last (cp_series p) with
  | None => []
  | Some l =>
      if rangeDays p =? 0 then cp_series p
      else filter (fun x => l.1 - rangeDays p * 86400 <= x.1) (cp_series p)
  end.
(** [x || y] on names. *)
Definition name_or (x y : jsstr) : jsstr := match x with [] => y | _ => x end.
Definition buildLineConfig (p : chart_page) : drawing := DrawnLine (filteredSeries p) (cp_log p || ch_logY (cp_def p)).
Definition buildDoughnutConfig (pools : list pool_share) : drawing :=
  DrawnDoughnut ((fun m => name_or (sh_displayName m) (sh_name m)) <$> pools) (sh_blocks <$> pools).
Definition buildStackedAreaConfig (series : list pool_series) : drawing :=
  DrawnStack ((fun s => (name_or (ps_displayName s) (ps_name s), ps_data s)) <$> series).
Definition render_config (p : chart_page) : drawing :=
  match ch_type (cp_def p), cp_pools p, cp_time p with
  | Doughnut, Some pools, _ => buildDoughnutConfig pools
  | StackedArea, _, Some series => buildStackedAreaConfig series
  | _, _, _ => buildLineConfig p
  end.
Definition render (p : chart_page) : chart_page := {|
  cp_def := cp_def p; cp_series := cp_series p; cp_pools := cp_pools p; cp_time := cp_time p; rangeDays := rangeDays p; cp_log := cp_log p;
  cp_chart := Some (render_config p); cp_loading := None |}.
Definition showLoading (msg : string) (p : chart_page) : chart_page := {|
  cp_def := cp_def p; cp_series := cp_series p; cp_pools := cp_pools p; cp_time := cp_time p; rangeDays := rangeDays p; cp_log := cp_log p;
  cp_chart := cp_chart p; cp_loading := Some msg |}.
Definition set_data (series : list (Z * option jsnum)) (pools : option (list pool_share)) (time : option (list pool_series)) (p : chart_page) : chart_page := {|
  cp_def := cp_def p; cp_series := series; cp_pools := pools; cp_time := time; rangeDays := rangeDays p; cp_log := cp_log p;
  cp_chart := cp_chart p; cp_loading := cp_loading p |}.

(** [fetchAndRender] as the detail page calls it, up to the request. *)
Definition fetchAndRender (def : chart_def) : chart_page := {|
  cp_def := def; cp_series := []; cp_pools := None; cp_time := None; rangeDays := 0; cp_log := ch_logY def; cp_chart := None;
  cp_loading := Some (if ch_placeholder def then "No data available - placeholder chart." else "Loading chart data...")%string |}.

Definition answer_series (a : chart_answer) : list (Z * option jsnum) := match a with SeriesAnswer l _ => l | _ => [] end.
Definition answer_pools (a : chart_answer) : list pool_share := match a with PoolsAnswer (_, l) => l | _ => [] end.
Definition answer_time (a : chart_answer) : list pool_series := match a with PoolsOverTime (_, l) => l | _ => [] end.
(** The callback of the answer; an error and a status above 299 show a message, to which
    the code adds the text of the error. *)
Definition got_chart (r : res chart_answer) (p : chart_page) : chart_page :=
  match r, ch_type (cp_def p) with
  | Throw _, _ | Ok UnknownChart, _ => showLoading "Error loading chart" p
  | Ok a, Doughnut =>
      let p := set_data (cp_series p) (Some (answer_pools a)) (cp_time p) p in
      match answer_pools a with [] => showLoading "No miner data yet (chain just started?)" p | _ => render p end
  | Ok a, StackedArea =>
      let p := set_data (cp_series p) (cp_pools p) (Some (answer_time a)) p in
      match answer_time a with [] => showLoading "No miner timeseries yet - aggregator warming up." p | _ => render p end
  | Ok a, LineChart =>
      match answer_series a with
      | [] => showLoading (match a with PlaceholderAnswer _ => "Placeholder chart - no data." | _ => "Aggregator is warming up. Refresh in a minute." end) p
      | series => render (set_data series (cp_pools p) (cp_time p) p)
      end
  end.
Definition setRange (days : Z) (p : chart_page) : chart_page := render {|
  cp_def := cp_def p; cp_series := cp_series p; cp_pools := cp_pools p; cp_time := cp_time p; rangeDays := days; cp_log := cp_log p;
  cp_chart := cp_chart p; cp_loading := cp_loading p |}.
Definition setScale (log : bool) (p : chart_page) : chart_page := render {|
  cp_def := cp_def p; cp_series := cp_series p; cp_pools := cp_pools p; cp_time := cp_time p; rangeDays := rangeDays p; cp_log := log;
  cp_chart := cp_chart p; cp_loading := cp_loading p |}.

(** What the reader does; the last is a change of the theme, which draws a chart again. *)
Inductive click := RangeButton (days : Z) | ScaleButton (log : bool) | ThemeChanged.
Definition clicked (p : chart_page) (e : click) : chart_page :=
  match e with
  | RangeButton days => setRange days p
  | ScaleButton log => setScale log p
  | ThemeChanged => match cp_chart p with Some _ => render p | None => p end
  end.
(** The range buttons of the detail page. *)
Definition range_buttons : list Z := [7; 30; 90; 365; 0].

(** ** The catalogue *)
Definition has_case (id : string) : bool := match chart_case (js id) with Some _ => true | None => false end.
Definition is_pools (c : chart_def) : bool := bool_decide (ch_id c = "pools"%string) || bool_decide (ch_id c = "pools-timeseries"%string).

(** The identifiers are distinct, so a chart is found under its own; the categories of the index
    page together hold every chart once; and the aggregator has a case for exactly the charts that are neither
    placeholders nor live nor the two of the miners. *)
Lemma catalogue_sound : NoDup (ch_id <$> CHARTS) /\ (CATEGORIES.*1 ≫= getByCategory) ≡ₚ CHARTS /\
  Forall (fun c => getChart (js (ch_id c)) = Some c /\ has_case (ch_id c) = negb (ch_placeholder c || ch_live c || is_pools c)) CHARTS /\
  Forall (fun x => getChart (js x.1) <> None) chart_cases.
Proof.
  split; [apply (bool_decide_unpack _); vm_compute; exact I|]. split; [apply (bool_decide_unpack _); vm_compute; exact I|]. split.
  - apply (bool_decide_unpack _). vm_compute. exact I.
  - apply list.Forall_forall. intros x Hx. assert (forallb (fun x => bool_decide (is_Some (getChart (js x.1)))) chart_cases = true) as H by (vm_compute; reflexivity).
    rewrite forallb_forall in H. apply list_elem_of_In in Hx. specialize (H _ Hx). apply bool_decide_eq_true in H as [? ->]. done.
Qed.

(** ** What is drawn *)
(** A chart of the days, drawn as a line. *)
Definition daily_line (c : chart_def) : bool := negb (ch_placeholder c || ch_live c || is_pools c) && bool_decide (ch_type c = LineChart).
(** The range and the scale the reader chose last. *)
Definition chosen_range : Z -> list click -> Z := foldl (fun r e => match e with RangeButton days => days | _ => r end).
Definition chosen_scale : bool -> list click -> bool := foldl (fun l e => match e with ScaleButton log => log | _ => l end).
Definition from_buttons (e : click) : Prop := match e with RangeButton days => days ∈ range_buttons | _ => True end.

Lemma catalogue_names : Forall (fun c => is_pools c = false -> toLowerCase (js (ch_id c)) ∉ [js "_status"; js "pools"; js "pools-timeseries"]) CHARTS.
Proof. apply (bool_decide_unpack _). vm_compute. exact I. Qed.

Lemma chart_series tip block c s : c ∈ CHARTS -> daily_line c = true -> exists points, getSeries (js (ch_id c)) s = Some points /\
  charts_api tip block (js (ch_id c)) s = Ok (SeriesAnswer (wire_point <$> points) c).
Proof.
  intros Hc Hd. apply andb_prop in Hd as [Hd _]. apply negb_true_iff, orb_false_elim in Hd as [Hpl Hp]. apply orb_false_elim in Hpl as [Hpl Hl].
  destruct catalogue_sound as (_ & _ & Hcat & _). destruct (proj1 (list.Forall_forall _ _) Hcat c Hc) as [Hget Hcase].
  pose proof (proj1 (list.Forall_forall _ _) catalogue_names c Hc Hp) as Hn. rewrite !not_elem_of_cons in Hn. destruct Hn as (N1 & N2 & N3 & _).
  unfold is_pools in Hp. apply orb_false_elim in Hp as [Hp1 Hp2]. unfold has_case in Hcase. rewrite Hpl, Hl in Hcase. unfold is_pools in Hcase. rewrite Hp1, Hp2 in Hcase.
  assert (exists points, getSeries (js (ch_id c)) s = Some points) as [points Hs].
  { unfold getSeries. destruct (chart_case (js (ch_id c))); [|done]. destruct (getOrderedDays s); eauto. }
  exists points. split; [done|]. unfold charts_api, api_chart. rewrite !bool_decide_eq_false_2 by done. rewrite Hget, Hpl, Hp1, Hp2, Hs. done.
Qed.

(** The chart on the page is that of its data, its range and its scale. *)
Definition drawn_fresh (p : chart_page) : Prop := cp_chart p = Some (render_config p) /\ cp_loading p = None.
Lemma render_fresh p : drawn_fresh (render p).
Proof. done. Qed.
Lemma clicked_frame p e : let p' := clicked p e in cp_def p' = cp_def p /\ cp_series p' = cp_series p /\ rangeDays p' = chosen_range (rangeDays p) [e] /\
  cp_log p' = chosen_scale (cp_log p) [e] /\ (drawn_fresh p -> drawn_fresh p').
Proof. destruct e; cbn; [done..|]. destruct (cp_chart p); [|done]. done. Qed.
Lemma clicks_frame es p : let p' := foldl clicked p es in cp_def p' = cp_def p /\ cp_series p' = cp_series p /\ rangeDays p' = chosen_range (rangeDays p) es /\
  cp_log p' = chosen_scale (cp_log p) es /\ (drawn_fresh p -> drawn_fresh p').
Proof.
  revert p. induction es as [|e es IH]; intros p; [done|]. destruct (clicked_frame p e) as (D & S & R & L & F). destruct (IH (clicked p e)) as (D' & S' & R' & L' & F').
  cbn [foldl]. rewrite D', S', R', L', D, S, R, L. repeat split_and!; [done..|]. intros Hp. by apply F', F.
Qed.
Lemma chosen_range_ok r es : r ∈ range_buttons -> Forall from_buttons es -> 0 <= chosen_range r es.
Proof.
  intros Hr He. revert r Hr. induction He as [|e es He _ IH]; intros r Hr.
  - unfold range_buttons in Hr. cbn. repeat (apply elem_of_cons in Hr as [->|Hr]; [lia|]). by apply elem_of_nil in Hr.
  - apply (IH (match e with RangeButton days => days | _ => r end)). by destruct e.
Qed.
Lemma filtered_points p l : last (cp_series p) = Some l ->
  filteredSeries p = filter (fun x => rangeDays p = 0 \/ l.1 - rangeDays p * 86400 <= x.1) (cp_series p).
Proof.
  intros Hl. unfold filteredSeries. rewrite Hl. destruct (Z.eqb_spec (rangeDays p) 0) as [Hr|Hr].
  - clear Hl. induction (cp_series p) as [|x s IH]; [done|]. rewrite filter_cons_True by auto. by f_equal.
  - apply list_filter_iff. intros x. split; [auto|]. intros [?|?]; [done|done].
Qed.
Lemma filter_last {A} (P : A -> Prop) `{!forall x, Decision (P x)} l x : last l = Some x -> P x -> last (filter P l) = Some x.
Proof. intros (l' & ->)%last_Some Hx. by rewrite filter_app, filter_cons_True, filter_nil, last_snoc. Qed.
Lemma filter_times_sorted {A} (P : A -> Prop) `{!forall x, Decision (P x)} (f : A -> Z) l : StronglySorted Z.lt (f <$> l) -> StronglySorted Z.lt (f <$> filter P l).
Proof.
  induction l as [|a l IH]; intros Hs; [constructor|]. cbn in Hs. apply StronglySorted_inv in Hs as [Hs Ha]. rewrite filter_cons. destruct (decide (P a)); [|auto].
  cbn. constructor; [auto|]. rewrite list.Forall_forall in Ha |- *. intros x (y & -> & Hy)%list_elem_of_fmap. apply Ha, list_elem_of_fmap_2. by apply list_elem_of_filter in Hy as [_ ?].
Qed.
Lemma wire_times points : (wire_point <$> points).*1 = points.*1.
Proof. rewrite <- list_fmap_compose. reflexivity. Qed.

(** C34: The chart pages show the statistics of the days.  After any run of the aggregator, for every chart of the
    catalogue that is drawn as a line over the days, the router answers with the series of the aggregator;
    and a reader who clicks whatever ranges and scales there are, before and after the answer, sees the
    points of that series that lie within the range chosen last, counted back from the newest point, in
    strictly ascending order of time and with the newest point among them, and no loading message. *)
Theorem charts_drawn tip block es c points before after : Forall timed es -> c ∈ CHARTS -> daily_line c = true ->
  Forall from_buttons before -> Forall from_buttons after ->
  let s := ag_store (agg_run es init_aggregator) in
  getSeries (js (ch_id c)) s = Some points -> points <> [] ->
  let p := foldl clicked (got_chart (charts_api tip block (js (ch_id c)) s) (foldl clicked (fetchAndRender c) before)) after in
  let range := chosen_range 0 (before ++ after) in
  exists newest shown, last points = Some newest /\ shown = filter (fun x => range = 0 \/ newest.1 - range * 86400 <= x.1) (wire_point <$> points) /\
    cp_chart p = Some (DrawnLine shown (chosen_scale (ch_logY c) (before ++ after) || ch_logY c)) /\ cp_loading p = None /\
    StronglySorted Z.lt shown.*1 /\ last shown = Some (wire_point newest).
Proof.
  intros He Hc Hd Hb Ha s Hs Hne p range. destruct (chart_series tip block c s Hc Hd) as (points' & Hs' & Hapi). rewrite Hs in Hs'. injection Hs' as <-.
  destruct (last points) as [newest|] eqn:Hlast; [|by apply last_None in Hlast]. apply andb_prop in Hd as [_ Ht%bool_decide_eq_true].
  destruct (clicks_frame before (fetchAndRender c)) as (D & _ & R & L & _). set (p0 := foldl clicked (fetchAndRender c) before) in *. cbn in D, R, L.
  assert (got_chart (charts_api tip block (js (ch_id c)) s) p0 = render (set_data (wire_point <$> points) (cp_pools p0) (cp_time p0) p0)) as Hgot.
  { rewrite Hapi. unfold got_chart. rewrite D, Ht. cbn [answer_series]. destruct points; [done|reflexivity]. }
  unfold p. clear p. rewrite Hgot. set (p1 := render _). destruct (clicks_frame after p1) as (D' & S' & R' & L' & F').
  destruct (F' (render_fresh _)) as [Hch Hld]. set (p := foldl clicked p1 after) in *. cbn in D', S', R', L'. rewrite D in D'. rewrite R in R'. rewrite L in L'.
  assert (rangeDays p = range) as Hr by (unfold range, chosen_range; rewrite foldl_app; exact R').
  assert (last (cp_series p) = Some (wire_point newest)) as Hl by (rewrite S', fmap_last, Hlast; done).
  eexists newest, _. split; [done|]. split; [reflexivity|]. rewrite Hch, Hld. unfold render_config. rewrite D', Ht. unfold buildLineConfig.
  rewrite (filtered_points _ _ Hl), S', Hr, L', D'. unfold chosen_scale. rewrite foldl_app. cbn [wire_point fst]. split; [done|]. split; [done|]. split.
  - apply (filter_times_sorted _ fst). rewrite wire_times. exact (series_ascending es (js (ch_id c)) points He Hs).
  - apply filter_last; [by rewrite fmap_last, Hlast|]. right. cbn. assert (0 <= range); [|lia].
    apply chosen_range_ok; [apply (bool_decide_unpack _); vm_compute; exact I|]. by apply Forall_app.
Qed.
