(* ===== verification/ExplorerMempool.v ===== *)
(** * The explorer: the live mempool feed
    ([explorer/overlay/app/services/b3-mempool-feed.js], [explorer/overlay/public/js/b3-mempool-live.js])

    [pollOnce] runs on an interval, without a guard: it asks the node for its mempool, compares
    the answer with [prev], asks for the new transactions, and then replaces [prev] and [recent]
    and tells the clients.  A poll in flight is an element of [polls]; the state can change
    between its steps.  Sizes and times are integers; fees are doubles in coins.  The sum of outputs
    the code also stores on the node's entries is read nowhere and left out, as are the clock and the
    text of the events.  The page that follows the feed is a list of rows, each for a transaction, and
    the set of the transactions it has rows for. *)

From S2P Require Import Prelude JsString JsMap JsNumber ExplorerDaily.

Definition RING_MAX : Z := 200.
Definition MAX_CLIENTS : Z := 200.
Definition FEE_BUCKETS : list Z := [1; 2; 3; 5; 8; 12; 20; 30; 50; 75; 100].

(** An entry of [getrawmempool true] and one of the feed. *)
Record raw_entry := { rw_time : option Z; rw_vsize : option Z; rw_weight : option Z; rw_fee : option jsnum }.
Record feed_entry := { fe_txid : jsstr; fe_time : Z; fe_vsize : Z; fe_weight : Z; fe_feeSat : option Z; fe_outputSat : option Z }.
Definition or_zero (x : option Z) : Z := default 0 x.
Definition to_sat (x : jsnum) : option Z := math_round (nmul x SATS_PER_COIN).

(** ** Aggregates *)
Definition _bucketIndex (satPerVb : jsnum) : nat :=
  (fix go (l : list Z) (i : nat) : nat := match l with [] => i | edge :: l => if nlt satPerVb (num_of_Z edge) then i else go l (S i) end) FEE_BUCKETS O.
Definition vsize_or1 (r : raw_entry) : Z := match rw_vsize r with Some (Zpos p) => Zpos p | Some (Zneg p) => Zneg p | _ => 1 end.
(** The sums of the twelve buckets. *)
Definition _computeBytesPerFeeBucket (prev : list (jsstr * raw_entry)) : list Z :=
  foldl (fun bytes r =>
    let satPerVb := ndiv (nmul (or0 (rw_fee r)) SATS_PER_COIN) (num_of_Z (vsize_or1 r)) in
    alter (Z.add (vsize_or1 r)) (_bucketIndex satPerVb) bytes) (replicate (S (length FEE_BUCKETS)) 0) prev.*2.
Record aggregate := { ai_count : Z; ai_bytes : Z; ai_totalFeeSat : option Z }.
(** [None] is [NaN]. *)
Definition add_nan (x y : option Z) : option Z := match x, y with Some a, Some b => Some (a + b) | _, _ => None end.
Definition _computeAggregate (prev : list (jsstr * raw_entry)) : aggregate := {|
  ai_count := zlen prev; ai_bytes := foldl (fun n r => n + or_zero (rw_vsize r)) 0 prev.*2;
  ai_totalFeeSat := foldl (fun n r => add_nan n (to_sat (or0 (rw_fee r)))) (Some 0) prev.*2 |}.

(** ** Entries *)
(** The transaction, if there is one with outputs: their values, where they are numbers.  [None] of the
    result is [null]: the request failed. *)
Definition _enrichWithOutputSat (tx : res (option (list (option jsnum)))) : option Z :=
  match tx with
  | Throw _ => None
  | Ok None => Some 0
  | Ok (Some vout) => to_sat (foldl (fun n v => match v with Some x => nadd n x | None => n end) n0 vout)
  end.
(** Four workers share the list; each transaction is asked for once. *)
Definition _enrichBatch (tx : jsstr -> res (option (list (option jsnum)))) (txids : list jsstr) : list (jsstr * option Z) :=
  (fun id => (id, _enrichWithOutputSat (tx id))) <$> txids.
Definition _entryFromRaw (txid : jsstr) (raw : raw_entry) (outputSat : option Z) : feed_entry := {|
  fe_txid := txid; fe_time := or_zero (rw_time raw); fe_vsize := or_zero (rw_vsize raw);
  fe_weight := match rw_weight raw with Some (Zpos p) => Zpos p | Some (Zneg p) => Zneg p | _ => 4 * or_zero (rw_vsize raw) end;
  fe_feeSat := to_sat (or0 (rw_fee raw)); fe_outputSat := outputSat |}.

(** ** The feed *)
Inductive feed_event :=
  | Hello (txs : list feed_entry) (info : aggregate) (histogram : list Z)
  | TxAdded (e : feed_entry)
  | TxRemoved (txids : list jsstr)
  | FeedInfo (info : aggregate) (histogram : list Z).
Inductive poll :=
  | AskMempool
  | Enrich (next : list (jsstr * raw_entry)) (newTxids removedTxids : list jsstr).
(** A client is a response with what was written to it. *)
Record feed := {
  prev : list (jsstr * raw_entry); recent : list feed_entry; clients : list (nat * list feed_event); next_client : nat; polls : list poll;
  bytesPerFeeBucket : option (list Z); aggregateInfo : aggregate; lastError : option string }.
Definition set_polls (p : list poll) (f : feed) : feed := {|
  prev := prev f; recent := recent f; clients := clients f; next_client := next_client f; polls := p; bytesPerFeeBucket := bytesPerFeeBucket f;
  aggregateInfo := aggregateInfo f; lastError := lastError f |}.
Definition set_clients (c : list (nat * list feed_event)) (f : feed) : feed := {|
  prev := prev f; recent := recent f; clients := c; next_client := next_client f; polls := polls f; bytesPerFeeBucket := bytesPerFeeBucket f;
  aggregateInfo := aggregateInfo f; lastError := lastError f |}.
Definition set_lastError (e : option string) (f : feed) : feed := {|
  prev := prev f; recent := recent f; clients := clients f; next_client := next_client f; polls := polls f; bytesPerFeeBucket := bytesPerFeeBucket f;
  aggregateInfo := aggregateInfo f; lastError := e |}.
Definition _broadcast (l : list feed_event) (f : feed) : feed := set_clients ((fun c => (c.1, c.2 ++ l)) <$> clients f) f.

(** Steps 4 to 7, after the transactions. *)
Definition commit_poll (next : list (jsstr * raw_entry)) (newTxids removedTxids : list jsstr) (outputs : list (jsstr * option Z)) (f : feed) : feed :=
  let newEntries := omap (fun id => raw ← map_get id next; Some (_entryFromRaw id raw (mjoin (map_get id outputs)))) newTxids in
  let newEntries := sort_by (fun e => - fe_time e) newEntries in
  let kept := filter (fun e => fe_txid e ∉ removedTxids) (recent f) in
  let recent := match newEntries with [] => kept | _ => take (Z.to_nat RING_MAX) (newEntries ++ kept) end in
  let aggregateInfo := _computeAggregate next in
  let histogram := _computeBytesPerFeeBucket next in
  let f := {| prev := next; recent := recent; clients := clients f; next_client := next_client f; polls := polls f;
    bytesPerFeeBucket := Some histogram; aggregateInfo := aggregateInfo; lastError := None |} in
  _broadcast ((TxAdded <$> newEntries) ++ (if bool_decide (removedTxids = []) then [] else [TxRemoved removedTxids])
    ++ (if bool_decide (newEntries = [] /\ removedTxids = []) then [] else [FeedInfo aggregateInfo histogram])) f.

Inductive feed_input :=
  | StartPoll
  | Mempool (i : nat) (next : res (list (jsstr * raw_entry)))
  | Transactions (i : nat) (tx : jsstr -> res (option (list (option jsnum))))
  | Subscribe
  | CloseClient (c : nat).

Definition getSnapshot (limit : Z) (f : feed) : feed_event :=
  Hello (take (Z.to_nat (Z.max 0 limit)) (recent f)) (aggregateInfo f) (default (_computeBytesPerFeeBucket (prev f)) (bytesPerFeeBucket f)).
Definition subscribe (f : feed) : feed :=
  let cs := if MAX_CLIENTS <=? zlen (clients f) then tail (clients f) else clients f in
  {| prev := prev f; recent := recent f; clients := cs ++ [(next_client f, [getSnapshot 50 f])]; next_client := S (next_client f); polls := polls f;
     bytesPerFeeBucket := bytesPerFeeBucket f; aggregateInfo := aggregateInfo f; lastError := lastError f |}.
Definition drop_poll (i : nat) (f : feed) : feed := set_polls (delete i (polls f)) f.

Definition feed_step (f : feed) (e : feed_input) : feed :=
  match e with
  | StartPoll => set_polls (polls f ++ [AskMempool]) f
  | Mempool i answer =>
      match polls f !! i, answer with
      | Some AskMempool, Throw err => set_lastError (Some err) (drop_poll i f)
      | Some AskMempool, Ok entries =>
          let nextMap := foldl (fun m e => map_set e.1 e.2 m) [] entries in
          let newTxids := filter (fun id => map_get id (prev f) = None) nextMap.*1 in
          let removedTxids := filter (fun id => map_get id nextMap = None) (prev f).*1 in
          match newTxids with
          | [] => commit_poll nextMap [] removedTxids [] (drop_poll i f)
          | _ => set_polls (<[i := Enrich nextMap newTxids removedTxids]> (polls f)) f
          end
      | _, _ => f
      end
  | Transactions i tx =>
      match polls f !! i with
      | Some (Enrich next newTxids removedTxids) => commit_poll next newTxids removedTxids (_enrichBatch tx newTxids) (drop_poll i f)
      | _ => f
      end
  | Subscribe => subscribe f
  | CloseClient c => set_clients (map_delete c (clients f)) f
  end.
Definition feed_run (es : list feed_input) (f : feed) : feed := foldl feed_step f es.
Definition init_feed : feed := {|
  prev := []; recent := []; clients := []; next_client := 0; polls := []; bytesPerFeeBucket := None;
  aggregateInfo := {| ai_count := 0; ai_bytes := 0; ai_totalFeeSat := Some 0 |}; lastError := None |}.

(** ** The page *)
Definition MAX_ROWS : Z := 50.
Record page := { page_rows : list jsstr; seenTxids : list jsstr; gotFirstSseEvent : bool; fallbackTimer : bool }.
Definition set_page (rows seen : list jsstr) (p : page) : page := {| page_rows := rows; seenTxids := seen; gotFirstSseEvent := gotFirstSseEvent p; fallbackTimer := fallbackTimer p |}.
(** [gotFirstSseEvent = true] and [stopFallbackPolling]. *)
Definition got_event (p : page) : page := {| page_rows := page_rows p; seenTxids := seenTxids p; gotFirstSseEvent := true; fallbackTimer := false |}.
Definition startFallbackPolling (p : page) : page := {| page_rows := page_rows p; seenTxids := seenTxids p; gotFirstSseEvent := gotFirstSseEvent p; fallbackTimer := true |}.

(** [while (list.children.length > MAX_ROWS)] removes the last row; the number of rows is enough fuel. *)
Fixpoint trim_loop (fuel : nat) (p : page) : page :=
  match fuel with
  | O => p
  | S fuel =>
      if MAX_ROWS <? zlen (page_rows p) then
        trim_loop fuel (set_page (removelast (page_rows p)) (match last (page_rows p) with Some (c :: t) => set_delete (c :: t) (seenTxids p) | _ => seenTxids p end) p)
      else p
  end.
Definition trimRows (p : page) : page := trim_loop (length (page_rows p)) p.
Definition applyTxAdded (txid : jsstr) (p : page) : page :=
  if bool_decide (txid = []) || bool_decide (txid ∈ seenTxids p) then p
  else trimRows (set_page (txid :: page_rows p) (set_add txid (seenTxids p)) p).
(** The first row of a transaction. *)
Fixpoint remove_row (txid : jsstr) (rows : list jsstr) : list jsstr :=
  match rows with
  | [] => []
  | r :: rows => if bool_decide (r = txid) then rows else r :: remove_row txid rows
  end.
Definition remove_one (p : page) (txid : jsstr) : page :=
  if bool_decide (txid ∈ seenTxids p) then set_page (remove_row txid (page_rows p)) (set_delete txid (seenTxids p)) p else p.
Definition applyTxRemoved (txids : list jsstr) (p : page) : page := foldl remove_one p txids.
Definition append_row (p : page) (txid : jsstr) : page :=
  if bool_decide (txid ∈ seenTxids p) then p else set_page (page_rows p ++ [txid]) (set_add txid (seenTxids p)) p.
Definition renderInitialList (txs : list feed_entry) (p : page) : page :=
  foldl append_row (set_page [] [] p) (fe_txid <$> take (Z.to_nat MAX_ROWS) txs).

Inductive page_event :=
  | Sse (e : feed_event)
  | SnapshotLoaded (txs : list feed_entry)
  | StreamError
  | EightSeconds.
Definition page_step (p : page) (e : page_event) : page :=
  match e with
  | Sse (Hello txs _ _) => renderInitialList txs (got_event p)
  | Sse (TxAdded e) => applyTxAdded (fe_txid e) (got_event p)
  | Sse (TxRemoved txids) => applyTxRemoved txids p
  | Sse (FeedInfo _ _) => p
  | SnapshotLoaded txs => renderInitialList txs p
  | StreamError | EightSeconds => if gotFirstSseEvent p then p else startFallbackPolling p
  end.
Definition init_page : page := {| page_rows := []; seenTxids := []; gotFirstSseEvent := false; fallbackTimer := false |}.
Definition page_run (es : list page_event) (p : page) : page := foldl page_step p es.
