(* ===== verification/ExplorerMempoolProofs.v ===== *)
(** * The explorer: the live mempool feed follows the mempool *)

From S2P Require Import Prelude JsString JsMap JsNumber ExplorerDaily ExplorerMempool.

(** What a client shows: the transactions of its events. *)
Definition show (shown : list jsstr) (e : feed_event) : list jsstr :=
  match e with
  | Hello txs _ _ => fe_txid <$> txs
  | TxAdded e => shown ++ [fe_txid e]
  | TxRemoved txids => filter (fun id => id ∉ txids) shown
  | FeedInfo _ _ => shown
  end.
Definition shown (events : list feed_event) : list jsstr := foldl show [] events.

(** The two halves of a poll. *)
Record diff (before next : list (jsstr * raw_entry)) (newTxids removedTxids : list jsstr) : Prop := {
  df_keys : NoDup next.*1;
  df_new : NoDup newTxids;
  df_new_elem : forall id, id ∈ newTxids <-> id ∈ next.*1 /\ id ∉ before.*1;
  df_removed : forall id, id ∈ removedTxids <-> id ∈ before.*1 /\ id ∉ next.*1 }.

Lemma show_added s es : foldl show s (TxAdded <$> es) = s ++ (fe_txid <$> es).
Proof. revert s. induction es as [|e es IH]; intros s; [by rewrite app_nil_r|]. cbn [fmap list_fmap foldl show]. rewrite IH. by rewrite <- app_assoc. Qed.
Lemma filter_none (l : list jsstr) : filter (fun id => id ∉ []) l = l.
Proof. induction l as [|x l IH]; [done|]. rewrite filter_cons_True by apply not_elem_of_nil. by rewrite IH. Qed.
Lemma new_entries_ids next (newTxids : list jsstr) outputs : (forall id, id ∈ newTxids -> id ∈ next.*1) ->
  fe_txid <$> omap (fun id => raw ← map_get id next; Some (_entryFromRaw id raw (mjoin (map_get id outputs)))) newTxids = newTxids.
Proof.
  induction newTxids as [|id l IH]; intros Hin; [done|]. cbn [omap list_omap]. destruct (map_get id next) as [raw|] eqn:E.
  - cbn. f_equal. apply IH. intros x Hx. apply Hin. by right.
  - exfalso. apply map_get_None in E. apply E, Hin. by left.
Qed.
Lemma built_keys entries m : NoDup m.*1 -> NoDup (foldl (fun m (e : jsstr * raw_entry) => map_set e.1 e.2 m) m entries).*1.
Proof. revert m. induction entries as [|e l IH]; intros m Hm; [done|]. apply IH. by apply map_set_nodup. Qed.
Lemma diff_of before entries : NoDup before.*1 ->
  let next := foldl (fun m (e : jsstr * raw_entry) => map_set e.1 e.2 m) [] entries in
  diff before next (filter (fun id => map_get id before = None) next.*1) (filter (fun id => map_get id next = None) before.*1).
Proof.
  intros Hb next. assert (NoDup next.*1) as Hn by (apply built_keys; constructor). constructor; [done|by apply NoDup_filter| |].
  - intros id. rewrite list_elem_of_filter, map_get_None. tauto.
  - intros id. rewrite list_elem_of_filter, map_get_None. tauto.
Qed.

(** [view base before]: shown once each, in the mempool, and everything of it that is not in [base]. *)
Record view (base : list jsstr) (mempool : list (jsstr * raw_entry)) (s : list jsstr) : Prop := {
  vw_nodup : NoDup s; vw_sound : forall id, id ∈ s -> id ∈ mempool.*1; vw_complete : forall id, id ∈ mempool.*1 -> id ∈ s \/ id ∈ base }.
Lemma view_step base before next new removed ids s : diff before next new removed -> ids ≡ₚ new -> view base before s ->
  view base next (filter (fun id => id ∉ removed) (s ++ ids)).
Proof.
  intros [D1 D2 D3 D4] Hp [V1 V2 V3]. constructor.
  - apply NoDup_filter, NoDup_app. split; [done|]. split; [|by rewrite Hp]. intros x Hx Hx'. rewrite Hp in Hx'. apply D3 in Hx' as [_ Hx']. by apply Hx', V2.
  - intros id. rewrite list_elem_of_filter, elem_of_app, Hp, D3, D4. intros [Hr [Hs|[Hn _]]]; [|done]. destruct (decide (id ∈ next.*1)); [done|]. exfalso. apply Hr. split; [by apply V2|done].
  - intros id Hn. destruct (decide (id ∈ before.*1)) as [Hb|Hb].
    + destruct (V3 id Hb) as [Hs|]; [left|by right]. rewrite list_elem_of_filter, elem_of_app, D4. tauto.
    + left. rewrite list_elem_of_filter, elem_of_app, Hp, D3, D4. tauto.
Qed.

(** ** The state between the steps of a single poll *)
Record feed_ok (f : feed) : Prop := {
  fo_prev : NoDup (prev f).*1;
  fo_recent : NoDup (fe_txid <$> recent f);
  fo_listed : forall id, id ∈ fe_txid <$> recent f -> id ∈ (prev f).*1;
  fo_ring : zlen (recent f) <= RING_MAX;
  fo_ids : NoDup (clients f).*1 /\ forall c, c ∈ (clients f).*1 -> (c < next_client f)%nat;
  fo_polls : match polls f with [] | [AskMempool] => True | [Enrich next new removed] => diff (prev f) next new removed | _ => False end }.
Definition client_view (c : nat) (base : list jsstr) (f : feed) : Prop := forall events, map_get c (clients f) = Some events -> view base (prev f) (shown events).

Lemma broadcast_get c l f : map_get c (clients (_broadcast l f)) = (fun events => events ++ l) <$> map_get c (clients f).
Proof. cbn. induction (clients f) as [|[k v] m IH]; cbn; [done|]. by case_bool_decide. Qed.
Lemma broadcast_ids l f : (clients (_broadcast l f)).*1 = (clients f).*1.
Proof. cbn. induction (clients f) as [|[k v] m IH]; cbn; [done|]. by rewrite IH. Qed.
Lemma take_elem {A} n (l : list A) x : x ∈ take n l -> x ∈ l.
Proof. rewrite <- (take_drop n l) at 2. rewrite elem_of_app. tauto. Qed.
Lemma filter_ids (removed : list jsstr) (l : list feed_entry) : fe_txid <$> filter (fun e => fe_txid e ∉ removed) l = filter (fun id => id ∉ removed) (fe_txid <$> l).
Proof.
  induction l as [|e l IH]; [done|]. rewrite fmap_cons. destruct (decide (fe_txid e ∉ removed)) as [H|H].
  - rewrite !filter_cons_True by done. by rewrite fmap_cons, IH.
  - by rewrite !filter_cons_False by done.
Qed.

Lemma commit_ok next new removed outputs f : feed_ok f -> diff (prev f) next new removed -> polls f = [] -> feed_ok (commit_poll next new removed outputs f).
Proof.
  intros [F1 F2 F3 F4 F5 F6] D Hp. unfold commit_poll. set (es := omap _ new). set (added := sort_by _ es).
  assert (fe_txid <$> added ≡ₚ new) as Hadded.
  { unfold added. rewrite sort_by_perm. unfold es. rewrite new_entries_ids; [done|]. intros id Hid. by apply (df_new_elem _ _ _ _ D). }
  set (kept := filter _ (recent f)). assert (NoDup (fe_txid <$> (added ++ kept)) /\ forall id, id ∈ fe_txid <$> (added ++ kept) -> id ∈ next.*1) as [Hnd Hin].
  { rewrite fmap_app. unfold kept. rewrite filter_ids. split.
    - apply NoDup_app. split; [rewrite Hadded; apply D|]. split; [|by apply NoDup_filter]. intros id. rewrite Hadded, (df_new_elem _ _ _ _ D), list_elem_of_filter.
      intros [_ Hn] [_ Hr]. by apply Hn, F3.
    - intros id. rewrite elem_of_app, Hadded, (df_new_elem _ _ _ _ D), list_elem_of_filter, (df_removed _ _ _ _ D). intros [[? _]|[Hr Hl]]; [done|].
      destruct (decide (id ∈ next.*1)); [done|]. exfalso. apply Hr. split; [by apply F3|done]. }
  constructor; cbn [prev recent next_client polls _broadcast set_clients]; [apply D| | | | |by rewrite Hp].
  - destruct added; [done|]. rewrite fmap_take. eapply sublist_NoDup; [exact Hnd|apply sublist_take].
  - intros id. destruct added; [by apply Hin|]. rewrite fmap_take. intros Hid. by apply Hin, (take_elem (Z.to_nat RING_MAX)).
  - destruct added as [|e l]; [|unfold zlen; rewrite length_take; unfold RING_MAX; lia]. etransitivity; [|exact F4]. unfold kept, zlen. apply inj_le, length_filter.
  - rewrite broadcast_ids. exact F5.
Qed.
Lemma commit_view c base next new removed outputs f : diff (prev f) next new removed -> client_view c base f -> client_view c base (commit_poll next new removed outputs f).
Proof.
  intros D Hv events. unfold commit_poll. rewrite broadcast_get. cbn [clients]. destruct (map_get c (clients f)) as [evs|] eqn:E; [|done].
  intros [= <-]. cbn [prev _broadcast set_clients]. set (es := omap _ new). set (added := sort_by _ es). unfold shown. rewrite !foldl_app, show_added.
  assert (fe_txid <$> added ≡ₚ new) as Hadded.
  { unfold added. rewrite sort_by_perm. unfold es. rewrite new_entries_ids; [done|]. intros id Hid. by apply (df_new_elem _ _ _ _ D). }
  pose proof (view_step base _ _ _ _ _ _ D Hadded (Hv evs E)) as V. fold (shown evs).
  case_bool_decide as Hr; case_bool_decide; subst; cbn [foldl show]; rewrite ?filter_none in V; done.
Qed.

(** ** Steps *)
Lemma single_poll f i p : feed_ok f -> polls f !! i = Some p -> i = O /\ polls f = [p].
Proof. intros [_ _ _ _ _ Hp] Hi. destruct (polls f) as [|q [|q' l]]; [done| |by destruct q]. destruct i; [|done]. by injection Hi as ->. Qed.
Lemma feed_ok_frame f f' : prev f' = prev f -> recent f' = recent f -> clients f' = clients f -> next_client f' = next_client f ->
  match polls f' with [] | [AskMempool] => True | [Enrich next new removed] => diff (prev f) next new removed | _ => False end -> feed_ok f -> feed_ok f'.
Proof. intros E1 E2 E3 E4 Hp [F1 F2 F3 F4 F5 F6]. constructor; rewrite ?E1, ?E2, ?E3, ?E4; done. Qed.
Lemma map_delete_keep {A} (c c' : nat) (m : list (nat * A)) v : NoDup m.*1 -> map_get c (map_delete c' m) = Some v -> map_get c m = Some v.
Proof.
  intros Hn H. destruct (decide (c = c')) as [->|]; [|by rewrite map_delete_other in H]. apply (map_delete_keys c') in Hn as [_ Hn]. apply map_get_None in Hn. congruence.
Qed.
Lemma tail_keep {A} (c : nat) (m : list (nat * A)) v : NoDup m.*1 -> map_get c (tail m) = Some v -> map_get c m = Some v.
Proof.
  destruct m as [|[k x] m]; [done|]. cbn. intros Hn H. apply NoDup_cons in Hn as [Hn _]. case_bool_decide; [subst|done]. apply map_get_None in Hn. congruence.
Qed.
Lemma map_get_snoc {A} (c k : nat) (m : list (nat * A)) v x : map_get c (m ++ [(k, x)]) = Some v -> map_get c m = Some v \/ (c = k /\ v = x).
Proof. induction m as [|[k' y] m IH]; cbn; case_bool_decide; auto; naive_solver. Qed.

Lemma feed_subscribe_ok f : feed_ok f -> feed_ok (subscribe f).
Proof.
  intros [F1 F2 F3 F4 [F5 F5'] F6]. constructor; cbn [prev recent clients next_client polls subscribe]; try done.
  set (cs := if MAX_CLIENTS <=? zlen (clients f) then tail (clients f) else clients f).
  assert (NoDup cs.*1 /\ forall c, c ∈ cs.*1 -> c ∈ (clients f).*1) as [H1 H2].
  { unfold cs. destruct (MAX_CLIENTS <=? _); [|done]. destruct (clients f) as [|[k x] m]; [done|]. cbn in *. apply NoDup_cons in F5 as [_ F5]. split; [done|]. intros. by right. }
  rewrite fmap_app. split.
  - apply NoDup_app. split; [done|]. split; [|apply NoDup_singleton]. intros c Hc ->%list_elem_of_singleton. specialize (F5' _ (H2 _ Hc)). cbn in F5'. lia.
  - intros c. rewrite elem_of_app. intros [Hc|Hc]; [specialize (F5' _ (H2 _ Hc)); lia|]. apply list_elem_of_singleton in Hc as ->. cbn. lia.
Qed.
Lemma subscribe_view c base f : feed_ok f -> (c < next_client f)%nat -> client_view c base f -> client_view c base (subscribe f).
Proof.
  intros F Hc Hv events H. cbn in H |- *. apply map_get_snoc in H as [H|[-> _]]; [|lia]. apply Hv. destruct (MAX_CLIENTS <=? _); [|done].
  apply tail_keep; [apply F|done].
Qed.
Lemma feed_step_ok f e : feed_ok f -> (e = StartPoll -> polls f = []) -> feed_ok (feed_step f e).
Proof.
  intros F Hs. destruct e as [|i answer|i tx| |c]; cbn [feed_step].
  - apply (feed_ok_frame f); try done. cbn. by rewrite Hs.
  - destruct (polls f !! i) as [p|] eqn:E; [|done]. destruct (single_poll f i p F E) as [-> Ep]. destruct p; [|done].
    assert (polls (drop_poll 0 f) = []) as Hd by (cbn; by rewrite Ep). assert (feed_ok (drop_poll 0 f)) as Fd by (apply (feed_ok_frame f); try done; by rewrite Hd).
    destruct answer as [entries|err]; [|apply (feed_ok_frame (drop_poll 0 f)); try done; cbn; by rewrite Ep].
    pose proof (diff_of (prev f) entries (fo_prev f F)) as D. cbv zeta in D. destruct (filter _ _.*1) as [|id new] eqn:En; [by apply commit_ok|].
    apply (feed_ok_frame f); try done. cbn. by rewrite Ep.
  - destruct (polls f !! i) as [p|] eqn:E; [|done]. destruct (single_poll f i p F E) as [-> Ep]. destruct p as [|next new removed]; [done|].
    assert (polls (drop_poll 0 f) = []) as Hd by (cbn; by rewrite Ep). apply commit_ok; [apply (feed_ok_frame f); try done; by rewrite Hd| |done].
    pose proof (fo_polls f F) as D. by rewrite Ep in D.
  - by apply feed_subscribe_ok.
  - destruct F as [F1 F2 F3 F4 [F5 F5'] F6]. constructor; cbn; try done. split; [by apply map_delete_keys|]. intros x Hx. apply F5'.
    apply list_elem_of_fmap in Hx as (y & -> & Hy). apply list_elem_of_fmap. exists y. split; [done|]. by eapply map_delete_subset.
Qed.
Lemma feed_step_view c base f e : feed_ok f -> (c < next_client f)%nat -> client_view c base f -> client_view c base (feed_step f e).
Proof.
  intros F Hc Hv. destruct e as [|i answer|i tx| |c']; cbn [feed_step].
  - done.
  - destruct (polls f !! i) as [[|]|]; [|done..]. destruct answer as [entries|]; [|done].
    pose proof (diff_of (prev f) entries (fo_prev f F)) as D. cbv zeta in D. destruct (filter _ _.*1) as [|id new] eqn:En; [|done]. by apply commit_view.
  - destruct (polls f !! i) as [p|] eqn:E; [|done]. destruct (single_poll f i p F E) as [-> Ep]. destruct p as [|next new removed]; [done|].
    apply commit_view; [|done]. pose proof (fo_polls f F) as D. by rewrite Ep in D.
  - by apply subscribe_view.
  - intros events H. cbn in H |- *. apply Hv. eapply map_delete_keep; [apply F|exact H].
Qed.
Lemma next_client_grows f e : (next_client f <= next_client (feed_step f e))%nat.
Proof. destruct e; cbn [feed_step]; repeat case_match; cbn; lia. Qed.

(** ** The page *)
(** The rows and the set, before the rows are trimmed. *)
Record rows_ok (p : page) : Prop := {
  ro_rows : NoDup (page_rows p); ro_seen : forall id, id ∈ page_rows p -> id ∈ seenTxids p; ro_shown : forall id, id <> [] -> id ∈ seenTxids p -> id ∈ page_rows p }.
Definition page_ok (p : page) : Prop := rows_ok p /\ zlen (page_rows p) <= MAX_ROWS.
Lemma remove_row_elem x y l : NoDup l -> (y ∈ remove_row x l) <-> (y <> x /\ y ∈ l).
Proof.
  induction l as [|r l IH]; intros Hn; cbn; [rewrite elem_of_nil; tauto|]. apply NoDup_cons in Hn as [Hr Hn]. case_bool_decide as E.
  - subst. rewrite elem_of_cons. split; [|tauto]. intros Hy. split; [by intros ->|by right].
  - rewrite !elem_of_cons, IH by done. split; [|tauto]. intros [->|[? ?]]; [split; [done|by left]|tauto].
Qed.
Lemma remove_row_nodup x l : NoDup l -> NoDup (remove_row x l) /\ (length (remove_row x l) <= length l)%nat.
Proof.
  induction 1 as [|r l Hr Hn [IH1 IH2]]; [by repeat constructor|]. cbn. case_bool_decide; [split; [done|lia]|]. split; [|cbn; lia]. constructor; [|done].
  rewrite remove_row_elem by done. tauto.
Qed.
Lemma remove_one_ok p id : page_ok p -> page_ok (remove_one p id) /\ forall x, x ∈ page_rows (remove_one p id) -> x <> id /\ x ∈ page_rows p.
Proof.
  intros [[P1 P2 P3] P4]. unfold remove_one. case_bool_decide as Hs.
  - destruct (remove_row_nodup id _ P1) as [R1 R2]. split; [|intros x; cbn; by apply remove_row_elem]. split; [constructor; cbn [page_rows seenTxids set_page]|].
    + done.
    + intros x. rewrite set_delete_elem, remove_row_elem by done. naive_solver.
    + intros x Hx. rewrite set_delete_elem, remove_row_elem by done. naive_solver.
    + unfold zlen in *. cbn. lia.
  - split; [done|]. intros x Hx. split; [|done]. intros ->. by apply Hs, P2.
Qed.
Lemma removed_ok ids p : page_ok p -> page_ok (applyTxRemoved ids p) /\ forall x, x ∈ page_rows (applyTxRemoved ids p) -> (x ∉ ids) /\ x ∈ page_rows p.
Proof.
  revert p. induction ids as [|id ids IH]; intros p Hp; [split; [done|]; intros x Hx; split; [apply not_elem_of_nil|done]|]. destruct (remove_one_ok p id Hp) as [H1 H2].
  destruct (IH _ H1) as [H3 H4]. split; [exact H3|]. intros x Hx. apply H4 in Hx as [Hx1 Hx2]. apply H2 in Hx2 as [Hx2 Hx3]. rewrite not_elem_of_cons. tauto.
Qed.
Lemma drop_row_ok p l y : rows_ok p -> page_rows p = l ++ [y] ->
  rows_ok (set_page l (match y with c :: t => set_delete (c :: t) (seenTxids p) | [] => seenTxids p end) p).
Proof.
  intros [P1 P2 P3] E. rewrite E in *. apply NoDup_app in P1 as (N1 & N2 & _). assert (y ∉ l) as Hy by (intros Hy; apply (N2 y Hy); by left).
  constructor; cbn [page_rows seenTxids set_page]; [done| |].
  - intros id Hid. assert (id ∈ seenTxids p) by (apply P2, elem_of_app; by left). destruct y; [done|]. rewrite set_delete_elem. split; [by intros ->|done].
  - intros id Hne Hid. assert (id <> y /\ id ∈ seenTxids p) as [H1 H2] by (destruct y; [done|by apply set_delete_elem in Hid]).
    specialize (P3 id Hne H2). apply elem_of_app in P3 as [|P3]; [done|]. by apply list_elem_of_singleton in P3.
Qed.
Lemma trim_loop_ok fuel p : rows_ok p -> zlen (page_rows p) <= MAX_ROWS + Z.of_nat fuel ->
  page_ok (trim_loop fuel p) /\ forall x, x ∈ page_rows (trim_loop fuel p) -> x ∈ page_rows p.
Proof.
  revert p. induction fuel as [|fuel IH]; intros p Hp Hl; cbn [trim_loop]; [split; [split; [done|lia]|done]|].
  destruct (Z.ltb_spec MAX_ROWS (zlen (page_rows p))) as [Hlt|]; [|split; [split; [done|lia]|done]].
  destruct (exists_last (l := page_rows p)) as (l & y & E); [intros E; rewrite E in Hlt; by cbn in Hlt|]. pose proof (drop_row_ok p l y Hp E) as Hd.
  rewrite E, removelast_last, last_snoc. rewrite E, zlen_app in Hl. change (zlen [y]) with 1 in Hl.
  destruct y as [|c t]; (destruct (IH _ Hd) as [H1 H2]; [cbn [page_rows set_page]; lia|]; split; [exact H1|]; intros x Hx; apply elem_of_app; left; by apply H2).
Qed.
Lemma added_ok id p : page_ok p -> page_ok (applyTxAdded id p) /\ forall x, x ∈ page_rows (applyTxAdded id p) -> x = id \/ x ∈ page_rows p.
Proof.
  intros [Hp Hl]. unfold applyTxAdded. case_bool_decide as E1; [by split; [|auto]|]. case_bool_decide as E2; [by split; [|auto]|]. cbn [orb].
  destruct Hp as [P1 P2 P3]. unfold trimRows. set (p' := set_page _ _ p). assert (rows_ok p') as Hp'.
  { constructor; unfold p'; cbn [page_rows seenTxids set_page].
    - constructor; [|done]. intros Hin. by apply E2, P2.
    - intros x. rewrite set_add_elem, elem_of_cons. intros [->|Hx]; [by left|right; by apply P2].
    - intros x Hne. rewrite set_add_elem, elem_of_cons. intros [->|Hx]; [by left|right; by apply P3]. }
  destruct (trim_loop_ok (length (page_rows p')) p' Hp') as [H1 H2]; [unfold zlen, MAX_ROWS; lia|]. split; [exact H1|]. intros x Hx. apply H2 in Hx. cbn in Hx. by apply elem_of_cons in Hx.
Qed.
Lemma listed_ok ids p : rows_ok p -> (forall x, x ∈ seenTxids p -> x ∈ page_rows p) ->
  let p' := foldl append_row p ids in rows_ok p' /\ zlen (page_rows p') <= zlen (page_rows p) + zlen ids /\ forall x, x ∈ page_rows p' -> x ∈ page_rows p \/ x ∈ ids.
Proof.
  revert p. induction ids as [|id ids IH]; intros p Hp Hs; cbn [foldl]; [split; [done|]; split; [change (zlen []) with 0; lia|by left]|]. rewrite zlen_cons.
  unfold append_row at 2 4 6. case_bool_decide as E.
  - destruct (IH p Hp Hs) as (H1 & H2 & H3). split; [exact H1|]. split; [lia|]. intros x Hx. destruct (H3 x Hx); [by left|right; by right].
  - destruct Hp as [P1 P2 P3]. destruct (IH (set_page (page_rows p ++ [id]) (set_add id (seenTxids p)) p)) as (H1 & H2 & H3).
    + constructor; cbn [page_rows seenTxids set_page].
      * apply NoDup_app. split; [done|]. split; [|apply NoDup_singleton]. intros x Hx ->%list_elem_of_singleton. by apply E, P2.
      * intros x. rewrite set_add_elem, elem_of_app, list_elem_of_singleton. intros [Hx| ->]; [right; by apply P2|by left].
      * intros x Hne. rewrite set_add_elem, elem_of_app, list_elem_of_singleton. intros [->|Hx]; [by right|left; by apply P3].
    + intros x. cbn. rewrite set_add_elem, elem_of_app, list_elem_of_singleton. intros [->|Hx]; [by right|left; by apply Hs].
    + split; [exact H1|]. cbn [page_rows set_page] in H2, H3. rewrite zlen_app in H2. change (zlen [id]) with 1 in H2. split; [lia|].
      intros x Hx. destruct (H3 x Hx) as [Hx'|]; [|right; by right]. apply elem_of_app in Hx' as [|Hx']; [by left|]. apply list_elem_of_singleton in Hx' as ->. right. by left.
Qed.
Lemma initial_ok txs p : page_ok (renderInitialList txs p) /\ forall x, x ∈ page_rows (renderInitialList txs p) -> x ∈ fe_txid <$> txs.
Proof.
  unfold renderInitialList. destruct (listed_ok (fe_txid <$> take (Z.to_nat MAX_ROWS) txs) (set_page [] [] p)) as (H1 & H2 & H3).
  - constructor; cbn; [constructor|done|done].
  - done.
  - split; [split; [exact H1|]|].
    + etransitivity; [exact H2|]. cbn [page_rows set_page]. change (zlen []) with 0. unfold zlen, MAX_ROWS. rewrite length_fmap, length_take. lia.
    + intros x Hx. destruct (H3 x Hx) as [Hx'|Hx']; [by apply elem_of_nil in Hx'|]. rewrite fmap_take in Hx'. by eapply take_elem.
Qed.
(** The page shows nothing but what its events say. *)
Definition page_of (events : list feed_event) : page := page_run (Sse <$> events) init_page.
Lemma page_shows events : page_ok (page_of events) /\ forall id, id ∈ page_rows (page_of events) -> id ∈ shown events.
Proof.
  induction events as [|e events IH] using rev_ind; [split; [split; [by repeat constructor|done]|done]|]. unfold page_of, page_run, shown in *. rewrite fmap_app, !foldl_app. cbn [fmap list_fmap foldl].
  set (p := foldl page_step init_page (Sse <$> events)) in *. destruct IH as [IH1 IH2]. destruct e as [txs info h|e|ids|info h]; cbn [page_step show]; [apply initial_ok| | |done].
  - destruct (added_ok (fe_txid e) (got_event p)) as [H1 H2]; [by destruct IH1 as [[] ?]; split; [constructor|]|]. split; [exact H1|]. intros x Hx. apply elem_of_app.
    destruct (H2 x Hx) as [->|Hx']; [right; by left|left; by apply IH2].
  - destruct (removed_ok ids p IH1) as [H1 H2]. split; [exact H1|]. intros x Hx. apply H2 in Hx as [Hx1 Hx2]. apply list_elem_of_filter. split; [done|by apply IH2].
Qed.

(** A poll starts only when the last one has ended. *)
Fixpoint sequential (es : list feed_input) (f : feed) : bool :=
  match es with
  | [] => true
  | e :: es => match e with StartPoll => bool_decide (length (polls f) = O) | _ => true end && sequential es (feed_step f e)
  end.
Lemma sequential_cons e es f : sequential (e :: es) f = true -> (e = StartPoll -> polls f = []) /\ sequential es (feed_step f e) = true.
Proof.
  cbn. rewrite andb_true_iff. intros [H1 H2]. split; [|done]. intros ->. apply bool_decide_eq_true in H1. by apply nil_length_inv.
Qed.
Lemma feed_run_ok es f : feed_ok f -> sequential es f = true -> feed_ok (feed_run es f).
Proof.
  revert f. induction es as [|e es IH]; intros f F Hs; [done|]. apply sequential_cons in Hs as [H1 H2]. apply IH; [|done]. by apply feed_step_ok.
Qed.
Lemma feed_run_view c base es f : feed_ok f -> sequential es f = true -> (c < next_client f)%nat -> client_view c base f -> client_view c base (feed_run es f).
Proof.
  revert f. induction es as [|e es IH]; intros f F Hs Hc Hv; [done|]. apply sequential_cons in Hs as [H1 H2]. pose proof (next_client_grows f e).
  apply IH; [by apply feed_step_ok|done|lia|by apply feed_step_view].
Qed.
Lemma init_feed_ok : feed_ok init_feed.
Proof. constructor; cbn; try done; try constructor; try constructor; by intros ? ?%elem_of_nil. Qed.
Lemma subscribed_view f : feed_ok f -> client_view (next_client f) (prev f).*1 (subscribe f).
Proof.
  intros F events H. cbn in H. apply map_get_snoc in H as [H|[_ ->]].
  - exfalso. assert (map_get (next_client f) (clients f) = Some events) as H'.
    { destruct (MAX_CLIENTS <=? zlen (clients f)); [|done]. apply tail_keep; [apply F|done]. }
    apply map_get_elem in H'. pose proof (proj2 (fo_ids f F) (next_client f)) as Hi. assert (next_client f < next_client f)%nat; [|lia].
    apply Hi. apply list_elem_of_fmap. by exists (next_client f, events).
  - cbn [prev subscribe]. unfold shown, getSnapshot. cbn [foldl show]. rewrite fmap_take. constructor; [| |by right].
    + eapply sublist_NoDup; [apply (fo_recent f F)|apply sublist_take].
    + intros id Hid. by apply (fo_listed f F), (take_elem (Z.to_nat (Z.max 0 50))).
Qed.

(** C24: The live page follows the mempool.  When polls do not overlap, whatever the failures, the other
    clients and the dropped connections: the list of recent transactions has each at most once, at most
    two hundred of them, all in the last mempool read; a client that is still connected was told, by the
    events written to it, of each transaction once, only of transactions of that mempool, and of all of
    them but those that were there before it connected; and the page it runs has at most fifty rows,
    no two for one transaction, all for transactions of that mempool. *)
Theorem mempool_followed es es' events :
  sequential es init_feed = true -> let f := feed_run es init_feed in
  sequential (Subscribe :: es') f = true -> let f' := feed_run (Subscribe :: es') f in
  map_get (next_client f) (clients f') = Some events ->
  (NoDup (fe_txid <$> recent f') /\ zlen (recent f') <= RING_MAX /\ forall e, e ∈ recent f' -> fe_txid e ∈ (prev f').*1) /\
  NoDup (shown events) /\ (forall id, id ∈ shown events -> id ∈ (prev f').*1) /\
  (forall id, id ∈ (prev f').*1 -> id ∈ shown events \/ id ∈ (prev f).*1) /\
  (let rows := page_rows (page_of events) in NoDup rows /\ zlen rows <= MAX_ROWS /\ forall id, id ∈ rows -> id ∈ (prev f').*1).
Proof.
  intros Hs f Hs' f' He. assert (feed_ok f) as F by (apply feed_run_ok; [apply init_feed_ok|done]).
  assert (feed_ok f') as F' by (by apply feed_run_ok). apply sequential_cons in Hs' as [_ Hs'].
  assert (client_view (next_client f) (prev f).*1 f') as V.
  { apply (feed_run_view _ _ es' (subscribe f)); [by apply feed_subscribe_ok|done|cbn; lia|by apply subscribed_view]. }
  destruct (V events He) as [V1 V2 V3]. destruct (page_shows events) as [[[R1 _ _] R2] R3].
  split; [|split; [done|]; split; [done|]; split; [done|]; split; [done|]; split; [done|]; intros id Hid; by apply V2, R3]. split; [apply (fo_recent f' F')|]. split; [apply (fo_ring f' F')|]. intros e Hin. apply (fo_listed f' F'), list_elem_of_fmap. by exists e.
Qed.

(** Overlapping polls show a transaction twice.  The interval starts a poll while the last one still waits
    for its transactions; both then find the same new transaction against the same [prev], both put it
    into the list of recent ones, and every client is told of it twice. *)
Theorem overlapping_polls_duplicate id raw tx :
  let f := feed_run [Subscribe; StartPoll; StartPoll; Mempool 0 (Ok [(id, raw)]); Mempool 1 (Ok [(id, raw)]); Transactions 0 tx; Transactions 0 tx] init_feed in
  fe_txid <$> recent f = [id; id] /\ (prev f).*1 = [id] /\ exists events, map_get O (clients f) = Some events /\ shown events = [id; id].
Proof.
  unfold feed_run. cbn [foldl feed_step init_feed subscribe set_polls polls prev clients app lookup list_lookup fst snd map_set fmap list_fmap].
  rewrite !(filter_cons_True _ id) by done. cbn [filter list_filter set_polls insert list_insert polls prev lookup list_lookup drop_poll delete list_delete].
  unfold commit_poll, _enrichBatch. cbn. rewrite !bool_decide_true by done. cbn. eauto.
Qed.
