(* ===== verification/ExplorerExamples.v ===== *)
(** * The explorer: examples

    A chain of three blocks on two days, a mempool of three transactions; the theorems applied to them. *)

From Stdlib Require Import Sorting.Sorted.
From S2P Require Import Prelude JsString JsMap JsNumber ExplorerLabels ExplorerDaily ExplorerDailyProofs ExplorerMempool ExplorerMempoolProofs ExplorerCharts.

Definition stats_at (t txs : Z) : block_stats := {|
  bs_time := Some t; bs_txs := Some (num_of_Z txs); bs_outs := Some (num_of_Z (2 * txs)); bs_ins := None; bs_totalfee := Some (num_of_Z 1000);
  bs_subsidy := Some (num_of_Z 5000000000); bs_total_out := Some (num_of_Z 7000000000); bs_total_size := Some (num_of_Z 300); bs_total_weight := None |}.
Definition paid_to (addr : string) : res (option (list explorer_vout)) :=
  Ok (Some [{| ev_value := Some (num_of_Z 50); ev_script := Some {| es_address := Some (js addr); es_addresses := None |} |}]).
Definition ingest_events (t txs : Z) (addr : string) : list agg_event :=
  [GotStats (Ok (Some (stats_at t txs))); GotBlock (paid_to addr); GotHeader (Ok (Some n1))].
(** Two blocks on 2025-06-01 and one on the next day; the request for a fourth fails. *)
Definition first_backfill : list agg_event :=
  [PollTip; GotInfo (Ok 4)] ++ ingest_events 1748736000 3 "tb31qa" ++ ingest_events 1748736600 1 "tb31qb" ++ ingest_events 1748822400 2 "tb31qa" ++
  [GotStats (Throw "down"); PollTip; GotInfo (Ok 3); SaveTimer true; Restarted true].


Lemma series_ascending_witness : exists points, getSeries (js "n-transactions") (ag_store (agg_run first_backfill init_aggregator)) = Some points /\
  points.*1 = [1748736000; 1748822400] /\ StronglySorted Z.lt points.*1.
Proof.
  eexists. split; [vm_compute; reflexivity|]. split; [vm_compute; reflexivity|]. apply (series_ascending first_backfill (js "n-transactions")).
  - apply Forall_forall. intros e He. repeat (apply elem_of_cons in He as [->|He]; [cbn; try exact I; unfold uint; lia|]). by apply elem_of_nil in He.
  - vm_compute. reflexivity.
Defined.

(** The timer of the first chunk still runs when the statistics of the next block are added. *)
Definition mid_backfill : aggregator := agg_run ([PollTip; GotInfo (Ok 1)] ++ ingest_events 1748736000 3 "tb31qa" ++ [GotHashrate (Throw "down"); PollTip; GotInfo (Ok 2)]) init_aggregator.
Lemma save_counts_twice_witness :
  blockCount (ensureDay (js "2025-06-01") (ag_store (agg_run [GotStats (Ok (Some (stats_at 1748736600 1))); SaveTimer true; Restarted true; PollTip; GotInfo (Ok 2);
    GotStats (Ok (Some (stats_at 1748736600 1)))] mid_backfill))) = 3.
Proof.
  destruct (save_counts_twice mid_backfill 2 2 2 [] 2 (stats_at 1748736600 1) 1748736600 (js "2025-06-01")) as (_ & _ & H).
  - vm_compute. reflexivity.
  - vm_compute. reflexivity.
  - lia.
  - vm_compute. reflexivity.
  - lia.
  - reflexivity.
  - vm_compute. reflexivity.
  - etransitivity; [exact H|]. vm_compute. reflexivity.
Defined.

(** A day whose sample of the hash rate failed is asked for again only when it gets another block. *)
Lemma hashrate_not_retried :
  let a := agg_run ([PollTip; GotInfo (Ok 1)] ++ ingest_events 1748736000 3 "tb31qa" ++ [GotHashrate (Throw "down")]) init_aggregator in
  hashrate (ensureDay (js "2025-06-01") (ag_store a)) = None /\ ag_phase a = Idle /\ ag_phase (agg_run [PollTip; GotInfo (Ok 1)] a) = Idle.
Proof. vm_compute. auto. Qed.

Definition raw_at (t : Z) : raw_entry := {| rw_time := Some t; rw_vsize := Some 140; rw_weight := None; rw_fee := Some (literal 1 100000) |}.
Definition no_tx (_ : jsstr) : res (option (list (option jsnum))) := Ok None.
Definition before_client : list feed_input := [StartPoll; Mempool 0 (Ok [(js "a", raw_at 5)]); Transactions 0 no_tx].
Definition after_client : list feed_input :=
  [StartPoll; Mempool 0 (Throw "down"); StartPoll; Mempool 0 (Ok [(js "b", raw_at 7); (js "c", raw_at 8)]); Transactions 0 no_tx].
Lemma mempool_followed_witness : exists events, map_get O (clients (feed_run (Subscribe :: after_client) (feed_run before_client init_feed))) = Some events /\
  shown events = [js "c"; js "b"] /\ NoDup (shown events).
Proof.
  eexists. split; [vm_compute; reflexivity|]. split; [vm_compute; reflexivity|].
  refine (proj1 (proj2 (mempool_followed before_client after_client _ _ _ _))).
  - vm_compute. reflexivity.
  - vm_compute. reflexivity.
  - vm_compute. reflexivity.
Defined.

(** Two transactions that arrive in one poll: the snapshot lists the newer one first, the page that was told of
    them shows the older one first. *)
Lemma batch_shown_reversed :
  let f := feed_run [Subscribe; StartPoll; Mempool 0 (Ok [(js "b", raw_at 7); (js "c", raw_at 8)]); Transactions 0 no_tx] init_feed in
  fe_txid <$> recent f = [js "c"; js "b"] /\ (page_rows ∘ page_of) <$> map_get O (clients f) = Some [js "b"; js "c"].
Proof. vm_compute. auto. Qed.

(** ** Charts *)
Definition no_block (_ : Z) : res (option (list explorer_vout)) := Ok None.
Lemma timed_backfill : Forall timed first_backfill.
Proof. apply list.Forall_forall. intros e He. repeat (apply elem_of_cons in He as [->|He]; [cbn; try exact I; unfold uint; lia|]). by apply elem_of_nil in He. Qed.

(** Three blocks on two days; the reader asks for a week. *)
Lemma charts_drawn_witness : exists c shown log, ch_id c = "n-transactions"%string /\
  cp_chart (foldl clicked (got_chart (charts_api (Ok 3) no_block (js "n-transactions") (ag_store (agg_run first_backfill init_aggregator))) (fetchAndRender c)) [RangeButton 7]) =
    Some (DrawnLine shown log) /\ shown.*1 = [1748736000; 1748822400].
Proof.
  destruct (getChart (js "n-transactions")) as [c|] eqn:Ec; [|vm_compute in Ec; discriminate]. vm_compute in Ec. injection Ec as Ec.
  destruct (getSeries (js "n-transactions") (ag_store (agg_run first_backfill init_aggregator))) as [points|] eqn:Es; [|vm_compute in Es; discriminate].
  destruct (charts_drawn (Ok 3) no_block first_backfill c points [] [RangeButton 7]) as (newest & shown & Hl & Hsh & Hc & _).
  - exact timed_backfill.
  - rewrite <- Ec. apply (bool_decide_unpack _). vm_compute. exact I.
  - rewrite <- Ec. reflexivity.
  - constructor.
  - constructor; [|constructor]. apply (bool_decide_unpack _). vm_compute. exact I.
  - rewrite <- Ec. exact Es.
  - vm_compute in Es. injection Es as <-. discriminate.
  - exists c, shown, (chosen_scale (ch_logY c) [RangeButton 7] || ch_logY c). split; [by rewrite <- Ec|]. split.
    + rewrite <- Ec in Hc |- *. exact Hc.
    + vm_compute in Es. injection Es as <-. injection Hl as <-. rewrite Hsh. vm_compute. reflexivity.
Defined.

(** The button for a linear scale does nothing to a chart whose definition says logarithmic. *)
Lemma linear_button_ignored : exists c, getChart (js "hash-rate") = Some c /\ forall p, cp_def p = c ->
  match cp_chart (clicked p (ScaleButton false)) with Some (DrawnLine _ log) => log = true | _ => False end.
Proof. eexists. split; [vm_compute; reflexivity|]. intros p Hp. cbn. unfold render_config. cbn. rewrite Hp. reflexivity. Qed.

(** The charts of the mempool are said to be drawn by the page, which only shows a message. *)
Lemma live_charts_empty : Forall (fun c => ch_live c = true ->
  let p := got_chart (charts_api (Ok 3) no_block (js (ch_id c)) (ag_store (agg_run first_backfill init_aggregator))) (fetchAndRender c) in
  cp_chart p = None /\ (cp_loading p = Some "Placeholder chart - no data."%string \/ cp_loading p = Some "No miner timeseries yet - aggregator warming up."%string)) CHARTS.
Proof.
  repeat (apply Forall_cons; split; [intros Hl; try discriminate Hl; vm_compute; auto|]). apply Forall_nil. exact I.
Qed.
